(* ===== verification/_CoqProject ===== *)
-Q . S2P
Prelude.v
Text.v
External.v
Float.v
Ams.v
Models.v
Protocol.v
Reader.v
Parser.v
Wire.v
Batch.v
Net.v
Symbol.v
Formatter.v
Registry.v
Diagnostics.v
PushDecode.v
AggregateWire.v
Router.v
Bridge.v
AggregatePush.v
SpanDispatcher.v
SpanLife.v
ConnectionManager.v
AmsDispatcher.v
Transport.v
ClientServer.v
Server.v
ScopeResolver.v
Browse.v
MetricMapper.v
Poll.v
Notify.v
Config.v
DiagPoller.v
AdsClient.v
ClientBridge.v
LogPath.v
Worker.v
Export.v
Protobuf.v
Jsonl.v
Exporter.v
Grpc.v
Delivery.v
CycleTime.v
Health.v
Service.v
Endpoints.v
Channels.v
MetricFlow.v
TraceFlow.v
LogFlow.v
Web.v
WebServer.v
Start.v
Witnesses.v
ClientWitnesses.v
PipelineWitnesses.v
DeliveryWitnesses.v
ActiveWitnesses.v
TransportWitnesses.v
ServiceWitnesses.v
FlowWitnesses.v
