(* ===== verification/Prelude.v ===== *)
(** * tc-otel: a verification development

    tc-otel is a bridge between Beckhoff TwinCAT PLCs and OpenTelemetry. A PLC
    writes binary buffers (log entries, task registrations, metrics, span
    events, diagnostic batches) over AMS/ADS; the service parses them, enriches
    them from a task registry and hands OTLP records to exporters. This
    development models that path from the bytes of a frame to the queued
    record and on to the OTLP request that is posted, the transports around it,
    the client side that asks PLCs for their symbols and values, and the
    settings that govern both, and proves the properties on which its users
    rely.

    ** Parts of the program and where they are modelled

    - [Prelude] (this file): outcomes of Rust code ([Ok], [Err], [Panic],
      [OutOfFuel]), bytes and little-endian integers at their width, tactics
      and shared lemmas. [Text]: the parts of Rust's string library the
      sources use. [External]: interfaces (classes with laws) for the
      third-party crates chrono, serde_json, hex and tokio, with simple
      instances for closed examples. [Float]: IEEE doubles and singles on
      their bit patterns, for the code that computes with them.
    - [Ams] (tc-otel-ads ams.rs, frame.rs, error.rs): AMS Net IDs, the 32-byte
      AMS header, AMS/TCP frames, transport-neutral frames, ADS write requests.
    - [Models] (tc-otel-core models.rs): log, metric and span entries and the
      OTLP records and resources made from them. [Protocol] (tc-otel-ads
      protocol.rs): what the wire parser yields. [Net] (tc-otel-core net.rs):
      the choice of the source address. [Symbol] (symbol.rs): the ADS symbol
      table. [Formatter] (tc-otel-core formatter.rs): message templates.
    - [Reader] (parser.rs, [BytesReader]): the cursor, as a state and error
      monad that keeps the position on errors, and the typed values. [Parser]
      (parser.rs, [AdsParser]): one parser per message type and [parse_all].
    - [Wire] and [Batch]: reference encoders for the documented layouts and
      the theorems about [parse_all] against them.
    - [Registry] (registry.rs): task metadata by Net ID, port and task.
    - [Diagnostics] (diagnostics.rs, diagnostics_observer.rs): decoding of
      observed polls and the request/response correlation table. [PushDecode]
      (diagnostics_push.rs): the three push-frame decoders. [AggregateWire]: a
      reference encoder for aggregate frames, and their round trip.
    - [Router] (router.rs): [dispatch], from one inbound frame to the answer
      and the effects on registry and channels. It calls [Ams], [Parser],
      [PushDecode] and [Registry], and queues [Models] entries.
    - [SpanDispatcher] (tc-otel-service span_dispatcher.rs): assembles the span
      events that [Router] queues into trace records; [SpanLife] follows one
      span through any interleaving of events and sweeps.
    - [Bridge] (tc-otel-service diagnostics_bridge.rs, and from service.rs the
      completion from the registry and the drain loop): turns the diagnostic
      events that [Router] queues into metric entries. [AggregatePush] follows
      an aggregate frame through decoder, router and bridge.
    - [ConnectionManager] (connection_manager.rs): connection limits, as the
      interleaving of the atomic steps of many connections.
    - [AmsDispatcher] (tc-otel-ads dispatcher.rs): the client side. Routes, the
      table of waiting requests, MQTT and TCP peers; [request_step] is
      [send_request] cut at its awaits and locks, [disp_step] interleaves any
      number of requests with the MQTT task and the socket readers.
    - [Transport] (transport/tcp.rs, transport/local_router.rs,
      transport/mqtt.rs, listener.rs): how frames reach [Router] and its answers
      leave. [Server] (transport/tcp.rs): the accept loop with the limits of
      [ConnectionManager] and the turns of [Transport], for any number of
      concurrent connections over one router. [Endpoints] (mqtt.rs,
      local_router.rs, tcp.rs, listener.rs, ams_server.rs): what runs around
      the turns, the options and certificates of the MQTT client, the loop
      that reconnects to the local router, discovery over UDP and the accept
      loop of the plain listener. [ClientServer] joins [AmsDispatcher] to the
      MQTT transport and [Router], on the class [TopicMatching] for the filters
      of MQTT.
    - [ScopeResolver] (tc-otel-service scope_resolver.rs): logger names by
      symbol, with the class [ScopeLookup] for the source's trait, its laws,
      and the two implementations that discharge them.
    - [Browse] (tc-otel-client browse.rs, cache.rs, error.rs): the upload of a
      symbol table through the dispatcher, and the cache of trees. [Poll]
      (poll.rs, client.rs): single reads, the decoding of scalars and the
      polling loop. [Notify] (notify.rs): notifications, their frames, the
      notifier and its reconciliation, on the class [NotificationBackend].
    - [AdsClient] (tc-otel-ads ads_client.rs): the stand-alone client that
      reads a symbol table over its own connection. [DiagPoller]
      (diagnostics_poller.rs, and from service.rs its drain and configuration):
      planning, sending and answering of diagnostic polls. [ClientBridge]
      (tc-otel-service client_bridge.rs): keeps polls and subscriptions in
      step with the configured metrics, over the life of its task.
    - [Config] (tc-otel-core config.rs, config_watcher.rs; tc-otel-service
      config_watcher.rs): settings with defaults and validation, secrets, the
      diff of two settings and the watcher of the file.
    - [MetricMapper] (tc-otel-core metric_mapper.rs and its definitions in
      config.rs): renames metrics by PLC symbol. [LogPath] (tc-otel-service
      dispatcher.rs, trace_dispatcher.rs): [dispatch] of logs and metrics and
      the scope of spans, on top of [Formatter], [ScopeResolver] and
      [MetricMapper]. [Worker] (the same files): the batching tasks, one step
      relation for the three pillars.
    - [Export] (tc-otel-export proto_common.rs, logs_proto.rs,
      metrics_proto.rs, traces_proto.rs): from records to OTLP requests.
      [Exporter] (exporter.rs, error.rs): OTLP/JSON payloads and the retry
      loops. [Jsonl] (dispatcher.rs): the JSON-lines payload. [Delivery]
      (exporter.rs, dispatcher.rs, trace_dispatcher.rs): endpoints, requests,
      and what the settings give the workers at the start and on a reload.
      [Protobuf]: the class [ProtoWire] for the fields prost reads and writes,
      with its laws and an instance. [Grpc] (grpc.rs, receiver.rs): the log
      service that receives OTLP, its message types read tag by tag.
    - [CycleTime] (tc-otel-service cycle_time.rs): cycle times per task over a
      rolling window. [Health] (health_metrics.rs, mqtt_health_metrics.rs,
      system_metrics.rs): the metrics the service reports on itself.
    - [Service] (tc-otel-service service.rs): what the settings make of router,
      transport and limits, and the tasks between [Router] and [LogPath], with
      [SpanDispatcher] and [CycleTime], as one interleaved system.
      [Channels]: the class [Receiver] for the other end of a channel, and the
      export task, a channel with the worker of [Worker] behind it. [LogFlow],
      [MetricFlow], [TraceFlow] (service.rs, dispatcher.rs,
      trace_dispatcher.rs): the three pillars, from the router or the
      collectors to the posts, each as one interleaved system of its tasks.
      [Start] (service.rs, main.rs): all of them built from one value of the
      settings, and the settings loaded from the file. [Web] (web.rs): the
      handlers of the web interface over the shared state, the edit of the
      configuration as the steps of [post_step]; [WebServer]: its routes, and any
      interleaving of requests and steps.
    - [Witnesses], [ClientWitnesses], [PipelineWitnesses],
      [DeliveryWitnesses], [ActiveWitnesses], [TransportWitnesses],
      [ServiceWitnesses], [FlowWitnesses]: the theorems with hypotheses, applied
      to concrete data.

    Definitions keep the names of the source; a method [T::m] is [T_m] where
    [m] alone would be ambiguous.

    ** Modelling conventions

    Integers are [Z] (counts and indices [nat]); wrap-around is written out
    with [wrap] and [to_signed] as in the release profile. Bytes are a list of
    [Z]. Floats are their bit patterns, with arithmetic through the IEEE
    operations of the Standard Library. [HashMap] is [gmap]; where the source
    iterates one, the order is a parameter and the theorems hold for every
    order. A lock that is held for one operation makes that operation one
    atomic step; where a function takes several locks, or other tasks can run
    between two of its effects, its steps are interleaved ([request_step],
    [act], [post_step], the turns of the pillars). Handlers of the web interface
    that only read, or change one thing, are one step. Clocks ([Instant::now], [Utc::now]), random UUIDs and the
    interfaces of the host are arguments. Calls to the [tracing] macros, which
    only log, are left out, as are capacities of pre-allocated vectors:
    memory can always be allocated, so that a huge batch size in the settings
    does no harm in the model. A panic of a task ends that task: its channel and
    its batch are lost, and the theorems count them as such.
    A slice or index out of range is [Panic]; loops without a structural
    argument run on fuel, and [OutOfFuel] is excluded by theorem: [parse_all]
    gets one unit more than the buffer has bytes, enough because each turn
    moves the cursor ([parse_all_total]); the UTF-8 validators get the length
    of their input; the loop of v1 items gets the remaining bytes plus one,
    the socket reader, the loops over a connection and the symbol upload one
    more than there are bytes; the retry loops one unit more than there are
    retries.
    Machine limits on [usize] are not modelled: buffers are smaller than
    2^48 bytes. Debug assertions are not modelled.

    ** What the theorems show

    - Parsing: [parse_all] terminates without a panic on every input; it
      recovers every message of a well-formed buffer ([parse_all_batch]);
      malformed input behind a first log entry loses nothing of what came
      before, a malformed v2 entry costs only itself in front of types 1 to 6
      and the whole buffer in front of 7 to 9; the limits on accepted data.
    - Framing: AMS headers, frames, Net IDs and write requests round-trip, and
      short input is an error.
    - Routing: every frame is answered with the ends swapped; only writes to
      the service's own port have an effect; a log write registers first, then
      queues enriched entries and span events in order; a push write reaches
      the push channel.
    - Spans: the invariant between open spans and index, the bound on open
      spans, inheritance of trace ids, the life of a span under interleaving,
      exact sweeps, conservation of spans, and what happens when two PLCs use
      one span id.
    - Connections: global, per-address and rate limits in every interleaving,
      no leaked permits, and that address entries are never removed; what the
      health metrics report is what happened, each attempt counted once.
    - Transports: frames that arrive over TCP, from a local router or over MQTT
      are answered alike; in every interleaving of connections the answers on a
      connection are those to its own requests, in order, and a refused connection
      is not touched; a full-sized frame is refused. (A peer that stays silent
      holds its permit: no timeout is applied.) The loop around the local router recovers
      from any failed attempt; the MQTT client is told what the settings say
      and never falls back to plain text; the plain listener keeps the limits
      and answers each read.
    - Diagnostics: no panic on any frame and events bounded by it, correlation
      within the TTL, orphaned
      requests forgotten, the round trips of task batches and of aggregate
      batches, and that a frame cut short anywhere is refused.
    - Requests: a response reaches exactly the request whose invoke id it
      carries, none is lost and no entry leaks, in every interleaving of the
      first 2^32 requests; the socket reader takes any stream apart as it was
      put together; which events change which route; and, end to end, a
      request is published on the topic the target listens to, answered by its
      router on a topic the requester listens to, and returns that answer. Two
      races are shown by runs: a stale reader removes a live connection, and
      a dropped request leaves its entry.
    - Symbols: the cached resolver refines the PLC's current symbols; the two
      readers of symbol tables agree; browsing returns exactly the table, by
      the dispatcher and by the stand-alone client, which accepts any answer
      for that of its request.
    - Active reads: a polled scalar is the value of the PLC's bytes; reading a
      notification never leaves the frame; the subscriptions after a
      reconciliation are those that were configured, and the tables of the
      notifier match the PLC's; a diagnostic poll is answered by the event that
      its response encodes, and each answer suspends the next polls; after any
      sequence of settings the bridge serves exactly the configured targets.
    - Settings: what validation accepts and refuses; secrets are masked and
      survive an edit, each on its own; the watcher publishes the file's
      changes, except to the trace section, without validating them; an edit
      over the web interface that no other overlaps is all or nothing, and
      sending back what was shown changes nothing. After any interleaving of
      requests the running settings are sound and only what an edit or a refresh
      may change has changed; file and settings agree when edits do not overlap,
      and two runs show overlapping ones that leave them different or the file
      torn. Sound settings within tokio's limits start every part that is
      configured and no other; those of the file are not validated, and a
      capacity of zero panics, as does one that tokio cannot hold.
    - Diagnostic metrics: a pushed batch becomes the points that are listed, with
      the labels of its task and its times read as nanoseconds since 2000; every point of an aggregate frame stands at its
      place, dated within the window; histograms are valid.
    - Dispatch: a log becomes the record its message, logger and PLC symbols
      say; the three pillars give one function block one scope; a validated
      list of custom metrics is an unambiguous mapping. No log is lost between
      router and dispatcher in any interleaving of the tasks; a log joins the
      innermost span open in its task, though two runs show it meeting the wrong
      one.
    - Pillars: for logs, metrics and spans, in every interleaving of the tasks
      from the channel of the router to the posts, with reloads and workers
      that die: each accepted entry is accounted for, in order, as waiting,
      being batched, posted, dropped with its batch because too many posts are
      under way, or lost with a worker; spans begun are those open and those
      whose records are sent; and, from every reachable
      state, turns of the tasks post all that waits and drop nothing, if posts
      under way end ([plc_logs_posted], [metrics_drain]).
    - Batching: nothing taken from the channel is lost, doubled or reordered
      on its way to [spawn_flush], posts and batches are bounded, a tick hands over
      everything; and a worker never reaches its shutdown branch.
    - Export: a request holds every record once, grouped by resource and
      scope; fingerprints identify resources; identifiers survive; retries
      of the three exporters end, with the waits they document; the two wire formats of a log agree;
      the JSON-lines payload is one line per record and its texts read back; a
      reload leaves a worker as a restart would, and panics like one on an
      interval of zero; metrics are posted where the
      settings say; a log written as OTLP is specified and read with the tags of
      the receiver keeps what the theorem lists, and the receiver counts its refusals.
    - Cycle times: the window of a task holds the last of its cycle times.
    - Data: arguments and context survive the conversion to a record, instance
      ids are injective, partial registry lookups are sound and complete, the
      source address is the first routable one, exact clock conversion, the
      formatter computes the meaning of a template, symbol tables round-trip.

    ** Not modelled

    Binding and connecting of sockets, the event loops of the MQTT client and
    of axum and tonic, the wire format prost writes and reads and the decoding of
    HTTP requests are third-party code: they are parameters, or what they
    deliver is the input of the model. Of service.rs the broadcast of the
    shutdown and the wait for the tasks are left out, with the task that only
    logs a changed level: the broadcast ends each loop between two turns, and
    the theorems on reachable states say what then still waits. The subscriber
    of the log and the parsing of the command line are third-party. The contents
    of the static pages are data. Benches and tests are not modelled. *)

From stdpp Require Export base tactics list gmap strings pretty.
From Stdlib Require Export ZArith Lia.

#[export] Set Default Proof Using "Type".

Declare Scope rust_scope.
Delimit Scope rust_scope with rust.
Open Scope Z_scope.

(** ** Outcomes of Rust code

    A Rust function that returns [Result<A, E>] either returns [Ok a] or
    [Err e]; any Rust code can also panic (an index or slice out of range).
    A loop that Rocq cannot see to terminate runs on fuel; [OutOfFuel] marks
    a run that was cut off, which the totality theorems exclude. *)

Inductive outcome (E A : Type) : Type :=
| Ok (a : A)
| Err (e : E)
| Panic
| OutOfFuel.
Arguments Ok {E A} _.
Arguments Err {E A} _.
Arguments Panic {E A}.
Arguments OutOfFuel {E A}.

Definition outcome_bind {E A B} (m : outcome E A) (f : A -> outcome E B) : outcome E B :=
  match m with
  | Ok a => f a
  | Err e => Err e
  | Panic => Panic
  | OutOfFuel => OutOfFuel
  end.

(** The run ended in an ordinary way: it neither panicked nor was cut off. *)
Definition completes {E A} (m : outcome E A) : Prop :=
  match m with Ok _ | Err _ => True | Panic | OutOfFuel => False end.

Definition is_ok {E A} (m : outcome E A) : bool :=
  match m with Ok _ => true | _ => false end.

Notation "x <-- m ;; k" := (outcome_bind m (fun x => k))
  (at level 100, m at next level, right associativity) : rust_scope.

(** ** Bytes and slices

    A byte buffer ([&[u8]], [Vec<u8>]) is a list of integers, each in 0..255.
    Positions and lengths ([usize]) are natural numbers: a Rust buffer is
    never longer than [isize::MAX], so the sums of positions and wire lengths
    below do not wrap on the 64-bit targets the service is built for. *)

Abbreviation bytes := (list Z).

Definition is_u8 (b : Z) : Prop := 0 <= b < 256.

Definition is_bytes (bs : bytes) : Prop := Forall is_u8 bs.

Definition in_width (w v : Z) : Prop := 0 <= v < 2 ^ w.

(** [x[i]], [None] when the index panics. *)
Definition byte_at (bs : bytes) (i : nat) : option Z := bs !! i.

(** [x[a..b]], [None] when the slice panics. *)
Definition slice_at (bs : bytes) (a b : nat) : option bytes :=
  if bool_decide (a <= b /\ b <= length bs)%nat then Some (take (b - a) (drop a bs)) else None.

(** ** Machine integers *)

(** [uN::from_le_bytes]. *)
Fixpoint le_decode (bs : bytes) : Z :=
  match bs with
  | [] => 0
  | b :: bs => b + 256 * le_decode bs
  end.

(** [v.to_le_bytes()] of an [8 * n]-bit integer, signed or not. *)
Fixpoint le_encode (n : nat) (v : Z) : bytes :=
  match n with
  | O => []
  | S n => v mod 256 :: le_encode n (v / 256)
  end.

(** Reinterpretation of a [w]-bit pattern as a signed integer ([as iN]). *)
Definition to_signed (w v : Z) : Z :=
  if v mod 2 ^ w <? 2 ^ (w - 1) then v mod 2 ^ w else v mod 2 ^ w - 2 ^ w.

(** [wrapping] arithmetic at width [w]: the release profile does not check
    for overflow. *)
Definition wrap (w v : Z) : Z := v mod 2 ^ w.

(** [a.saturating_sub(b)] on [usize]. *)
Definition saturating_sub (a b : nat) : nat := (a - b)%nat.

(** ** Shared lemmas: lists *)

Lemma slice_at_spec bs a b :
  (a <= b)%nat -> (b <= length bs)%nat -> slice_at bs a b = Some (take (b - a) (drop a bs)).
Proof. intros. unfold slice_at. by rewrite bool_decide_true. Qed.

Lemma slice_at_app (pre mid post : bytes) a b :
  a = length pre -> b = (a + length mid)%nat ->
  slice_at (pre ++ mid ++ post) a b = Some mid.
Proof.
  intros -> ->. rewrite slice_at_spec.
  - rewrite drop_app_length. replace (_ + _ - _)%nat with (length mid) by lia.
    by rewrite take_app_length.
  - lia.
  - rewrite !length_app; lia.
Qed.

Lemma slice_at_head (mid post : bytes) b :
  b = length mid -> slice_at (mid ++ post) 0 b = Some mid.
Proof. intros ->. by apply (slice_at_app [] mid post). Qed.

Lemma slice_at_length bs a b s : slice_at bs a b = Some s -> length s = (b - a)%nat.
Proof.
  unfold slice_at. case_bool_decide; [|done]. intros [= <-].
  rewrite length_take, length_drop. lia.
Qed.

Lemma slice_at_is_bytes bs a b s : is_bytes bs -> slice_at bs a b = Some s -> is_bytes s.
Proof.
  unfold slice_at. case_bool_decide; [|done]. intros Hbs [= <-].
  by apply Forall_take, Forall_drop.
Qed.

Lemma is_bytes_nil : is_bytes [].
Proof. constructor. Qed.

Lemma is_bytes_cons b bs : is_u8 b -> is_bytes bs -> is_bytes (b :: bs).
Proof. by constructor. Qed.

Lemma is_bytes_app bs1 bs2 : is_bytes (bs1 ++ bs2) <-> is_bytes bs1 /\ is_bytes bs2.
Proof. apply Forall_app. Qed.

Lemma filter_none {A} (P : A -> Prop) `{!forall x, Decision (P x)} (l : list A) :
  Forall (fun x => ~ P x) l -> filter P l = [].
Proof. induction 1 as [|x l Hx Hl IH]; [done|]. by rewrite filter_cons_False. Qed.

Lemma filter_all {A} (P : A -> Prop) `{!forall x, Decision (P x)} (l : list A) :
  Forall P l -> filter P l = l.
Proof. induction 1 as [|x l Hx Hl IH]; [done|]. by rewrite filter_cons_True, IH. Qed.

Lemma filter_iff_in {A} (P Q : A -> Prop) `{!forall x, Decision (P x), !forall x, Decision (Q x)}
    (l : list A) :
  (forall x, x ∈ l -> P x <-> Q x) -> filter P l = filter Q l.
Proof.
  induction l as [|x l IH]; intros Hpq; [done|]. rewrite !filter_cons.
  rewrite (decide_ext (P x) (Q x)) by (apply Hpq; by left).
  rewrite IH; [done|]. intros y Hy. apply Hpq. by right.
Qed.

(** ** Shared lemmas: integers *)

Lemma length_le_encode n v : length (le_encode n v) = n.
Proof. revert v. induction n as [|n IH]; intros v; simpl; [done|]. by rewrite IH. Qed.

Lemma le_encode_is_bytes n v : is_bytes (le_encode n v).
Proof.
  revert v. induction n as [|n IH]; intros v; simpl; constructor; [|by apply IH].
  unfold is_u8. pose proof (Z.mod_pos_bound v 256). lia.
Qed.

Lemma le_decode_encode n v :
  0 <= v < 256 ^ Z.of_nat n -> le_decode (le_encode n v) = v.
Proof.
  revert v. induction n as [|n IH]; intros v Hv; cbn [le_encode le_decode].
  - simpl in Hv. lia.
  - rewrite Nat2Z.inj_succ, Z.pow_succ_r in Hv by lia. rewrite IH.
    + pose proof (Z.div_mod v 256). lia.
    + split; [apply Z.div_pos; lia|]. apply Z.div_lt_upper_bound; lia.
Qed.

Lemma le_decode_encode_mod n v :
  le_decode (le_encode n v) = v mod 256 ^ Z.of_nat n.
Proof.
  revert v. induction n as [|n IH]; intros v; cbn [le_encode le_decode].
  - by rewrite Z.mod_1_r.
  - rewrite IH, Nat2Z.inj_succ, Z.pow_succ_r by lia.
    rewrite Z.rem_mul_r; [done|lia|]. apply Z.pow_pos_nonneg; lia.
Qed.

Lemma le_decode_bound bs : is_bytes bs -> 0 <= le_decode bs < 256 ^ Z.of_nat (length bs).
Proof.
  induction 1 as [|b bs Hb Hbs IH]; simpl le_decode; [simpl; lia|].
  cbn [length]. rewrite Nat2Z.inj_succ, Z.pow_succ_r by lia. unfold is_u8 in Hb. nia.
Qed.

Lemma le_encode_decode bs : is_bytes bs -> le_encode (length bs) (le_decode bs) = bs.
Proof.
  induction 1 as [|b bs Hb Hbs IH]; cbn [length le_encode le_decode]; [done|].
  unfold is_u8 in Hb. rewrite (Z.mul_comm 256).
  rewrite Z.mod_add, Z.div_add by lia.
  rewrite (Z.mod_small b), (Z.div_small b) by lia. by rewrite Z.add_0_l, IH.
Qed.

Lemma to_signed_mod w v : 0 < w -> - 2 ^ (w - 1) <= v < 2 ^ (w - 1) -> to_signed w (v mod 2 ^ w) = v.
Proof.
  intros Hw Hv. unfold to_signed.
  assert (H2 : 2 ^ w = 2 * 2 ^ (w - 1)) by (rewrite <- Z.pow_succ_r by lia; f_equal; lia).
  rewrite Z.mod_mod by lia.
  destruct (Z_lt_le_dec v 0).
  - assert (Hm : v mod 2 ^ w = v + 2 ^ w).
    { symmetry. apply (Z.mod_unique_pos _ _ (-1)); lia. }
    rewrite Hm. case (Z.ltb_spec (v + 2 ^ w) (2 ^ (w - 1))); lia.
  - rewrite Z.mod_small by lia. case (Z.ltb_spec v (2 ^ (w - 1))); lia.
Qed.

Lemma to_signed_range w v : 0 < w -> - 2 ^ (w - 1) <= to_signed w v < 2 ^ (w - 1).
Proof.
  intros Hw. unfold to_signed.
  assert (H2 : 2 ^ w = 2 * 2 ^ (w - 1)) by (rewrite <- Z.pow_succ_r by lia; f_equal; lia).
  assert (0 < 2 ^ (w - 1)) by (apply Z.pow_pos_nonneg; lia).
  pose proof (Z.mod_pos_bound v (2 ^ w)).
  case (Z.ltb_spec (v mod 2 ^ w) (2 ^ (w - 1))); lia.
Qed.

(** ** Automation *)

Create HintDb rust discriminated.
Create Rewrite HintDb rust.
#[export] Hint Resolve le_encode_is_bytes is_bytes_nil is_bytes_cons : rust.
#[export] Hint Rewrite length_le_encode @length_app @length_take @length_drop : rust.

(** Case analysis on the tests of the goal, keeping the equations. *)
Ltac split_tests :=
  repeat match goal with
  | |- context [if ?b then _ else _] => destruct b eqn:?
  | |- context [match ?x with _ => _ end] => destruct x eqn:?
  end.

(** Turns boolean comparisons in the context into propositions. *)
Ltac to_prop :=
  repeat match goal with
  | H : (_ <? _) = true |- _ => apply Z.ltb_lt in H
  | H : (_ <? _) = false |- _ => apply Z.ltb_ge in H
  | H : (_ <=? _) = true |- _ => apply Z.leb_le in H
  | H : (_ <=? _) = false |- _ => apply Z.leb_gt in H
  | H : (_ =? _) = true |- _ => apply Z.eqb_eq in H
  | H : (_ =? _) = false |- _ => apply Z.eqb_neq in H
  | H : (_ >? _) = _ |- _ => rewrite Z.gtb_ltb in H
  | H : (_ >=? _) = _ |- _ => rewrite Z.geb_leb in H
  | H : (_ <? _)%nat = true |- _ => apply Nat.ltb_lt in H
  | H : (_ <? _)%nat = false |- _ => apply Nat.ltb_ge in H
  | H : (_ <=? _)%nat = true |- _ => apply Nat.leb_le in H
  | H : (_ <=? _)%nat = false |- _ => apply Nat.leb_gt in H
  | H : (_ =? _)%nat = true |- _ => apply Nat.eqb_eq in H
  | H : (_ =? _)%nat = false |- _ => apply Nat.eqb_neq in H
  end.

(** A decidable fact about every integer of a small range, by evaluation. *)
Lemma forall_below (P : Z -> Prop) `{!forall n, Decision (P n)} k n :
  forallb (fun n => bool_decide (P n)) (seqZ 0 k) = true -> 0 <= n < k -> P n.
Proof.
  intros Hall Hn. rewrite forallb_forall in Hall. apply (bool_decide_unpack _), Is_true_true, Hall.
  apply list_elem_of_In, elem_of_seqZ. lia.
Qed.
