(* ===== verification/Text.v ===== *)
(** * Rust strings

    The pieces of Rust's standard library for text that the sources use.  A
    [String] is the sequence of its UTF-8 bytes, one [ascii] per byte; this
    file holds UTF-8 validation ([String::from_utf8]), lossy decoding
    ([String::from_utf8_lossy], [String::from_utf16_lossy]), decimal and
    hexadecimal formatting, unsigned parsing and [str::split]. *)

From S2P Require Import Prelude.
From Stdlib Require Import Ascii.

(** ** Bytes and strings *)

Definition ascii_of_byte (b : Z) : ascii := ascii_of_N (Z.to_N b).

Definition byte_of_ascii (a : ascii) : Z := Z.of_N (N_of_ascii a).

Fixpoint string_of_bytes (bs : bytes) : string :=
  match bs with
  | [] => ""
  | b :: bs => String (ascii_of_byte b) (string_of_bytes bs)
  end.

(** [s.as_bytes()]. *)
Fixpoint bytes_of_string (s : string) : bytes :=
  match s with
  | EmptyString => []
  | String a s => byte_of_ascii a :: bytes_of_string s
  end.

(** ** UTF-8 *)

(** The next character of a UTF-8 byte sequence: [inl n] when the first [n]
    bytes encode one, [inr n] when the first [n] bytes are the longest prefix
    of a character cut short (the unit that lossy decoding replaces). *)
Definition in_range (lo hi : Z) (b : option Z) : bool :=
  match b with Some b => (lo <=? b) && (b <=? hi) | None => false end.

Definition is_cont : option Z -> bool := in_range 128 191.

Definition utf8_head (bs : bytes) : nat + nat :=
  match bs with
  | [] => inr 0%nat
  | b0 :: _ =>
    let b1 := bs !! 1%nat in
    let b2 := bs !! 2%nat in
    let b3 := bs !! 3%nat in
    let three (lo hi : Z) :=
      if in_range lo hi b1 then if is_cont b2 then inl 3%nat else inr 2%nat else inr 1%nat in
    let four (lo hi : Z) :=
      if in_range lo hi b1 then
        if is_cont b2 then if is_cont b3 then inl 4%nat else inr 3%nat else inr 2%nat
      else inr 1%nat in
    if b0 <? 128 then inl 1%nat
    else if in_range 194 223 (Some b0) then if is_cont b1 then inl 2%nat else inr 1%nat
    else if b0 =? 224 then three 160 191
    else if in_range 225 236 (Some b0) then three 128 191
    else if b0 =? 237 then three 128 159
    else if in_range 238 239 (Some b0) then three 128 191
    else if b0 =? 240 then four 144 191
    else if in_range 241 243 (Some b0) then four 128 191
    else if b0 =? 244 then four 128 143
    else inr 1%nat
  end.

(** U+FFFD, the replacement character. *)
Definition replacement : bytes := [239; 191; 189].

Fixpoint utf8_valid_fuel (fuel : nat) (bs : bytes) : bool :=
  match fuel, bs with
  | _, [] => true
  | O, _ => false
  | S fuel, _ =>
    match utf8_head bs with
    | inl n => utf8_valid_fuel fuel (drop n bs)
    | inr _ => false
    end
  end.

Definition utf8_valid (bs : bytes) : bool := utf8_valid_fuel (length bs) bs.

(** [String::from_utf8(bs).ok()]. *)
Definition from_utf8 (bs : bytes) : option string :=
  if utf8_valid bs then Some (string_of_bytes bs) else None.

(** The [Display] of the error of [String::from_utf8] on [bs], of which [pos]
    bytes were valid so far: a character cut off by the end of the input, or an
    invalid sequence. *)
Fixpoint utf8_error_fuel (fuel pos : nat) (bs : bytes) : string :=
  match fuel with
  | O => ""
  | S fuel =>
    match utf8_head bs with
    | inl n => utf8_error_fuel fuel (pos + n) (drop n bs)
    | inr n =>
      if in_range 194 244 (head bs) && (n =? length bs)%nat
      then "incomplete utf-8 byte sequence from index " +:+ pretty (N.of_nat pos)
      else "invalid utf-8 sequence of " +:+ pretty (N.of_nat n) +:+ " bytes from index " +:+
           pretty (N.of_nat pos)
    end
  end.

Definition utf8_error (bs : bytes) : string := utf8_error_fuel (length bs) 0 bs.

Fixpoint utf8_lossy_fuel (fuel : nat) (bs : bytes) : bytes :=
  match fuel, bs with
  | _, [] => []
  | O, _ => []
  | S fuel, _ =>
    match utf8_head bs with
    | inl n => take n bs ++ utf8_lossy_fuel fuel (drop n bs)
    | inr n => replacement ++ utf8_lossy_fuel fuel (drop n bs)
    end
  end.

(** [String::from_utf8_lossy(bs).into_owned()]. *)
Definition from_utf8_lossy (bs : bytes) : string :=
  string_of_bytes (utf8_lossy_fuel (length bs) bs).

(** ** UTF-16 *)

(** The UTF-8 encoding of a code point ([char::encode_utf8]). *)
Definition utf8_encode (cp : Z) : bytes :=
  if cp <? 128 then [cp]
  else if cp <? 2048 then [192 + cp / 64; 128 + cp mod 64]
  else if cp <? 65536 then [224 + cp / 4096; 128 + (cp / 64) mod 64; 128 + cp mod 64]
  else [240 + cp / 262144; 128 + (cp / 4096) mod 64; 128 + (cp / 64) mod 64; 128 + cp mod 64].

Fixpoint utf16_lossy_bytes (us : list Z) : bytes :=
  match us with
  | [] => []
  | u :: rest =>
    if in_range 55296 56319 (Some u) then
      match rest with
      | v :: rest' =>
        if in_range 56320 57343 (Some v)
        then utf8_encode (65536 + (u - 55296) * 1024 + (v - 56320)) ++ utf16_lossy_bytes rest'
        else replacement ++ utf16_lossy_bytes rest
      | [] => replacement ++ utf16_lossy_bytes rest
      end
    else if in_range 56320 57343 (Some u) then replacement ++ utf16_lossy_bytes rest
    else utf8_encode u ++ utf16_lossy_bytes rest
  end.

(** [String::from_utf16_lossy(us)]. *)
Definition from_utf16_lossy (us : list Z) : string := string_of_bytes (utf16_lossy_bytes us).

(** ** Formatting and parsing numbers *)

(** [format!("{}", n)] of an integer. *)
Definition dec (n : Z) : string := pretty n.

(** [format!("{}", n)] of a [usize]. *)
Definition dec_nat (n : nat) : string := pretty n.

Fixpoint pad_left (fuel : nat) (width : nat) (s : string) : string :=
  match fuel with
  | O => s
  | S fuel => if (String.length s <? width)%nat then pad_left fuel width ("0" +:+ s) else s
  end.

(** [format!("{:0w}", n)] of an unsigned integer. *)
Definition dec_pad (width : nat) (n : Z) : string := pad_left width width (dec n).

Definition hex_digit (n : Z) : ascii :=
  ascii_of_byte (if n <? 10 then 48 + n else 87 + n).

(** [format!("{:02x}", b)] of a byte. *)
Definition hex2 (b : Z) : string := String (hex_digit (b / 16)) (String (hex_digit (b mod 16)) "").

(** [ids.iter().map(|b| format!("{:02x}", b)).collect()]. *)
Fixpoint hex_of_bytes (bs : bytes) : string :=
  match bs with
  | [] => ""
  | b :: bs => hex2 b +:+ hex_of_bytes bs
  end.

Definition digit_of (b : Z) : option Z := if in_range 48 57 (Some b) then Some (b - 48) else None.

Fixpoint parse_digits (max acc : Z) (bs : bytes) : option Z :=
  match bs with
  | [] => Some acc
  | b :: bs =>
    match digit_of b with
    | None => None
    | Some d => if acc * 10 + d <=? max then parse_digits max (acc * 10 + d) bs else None
    end
  end.

(** [s.parse::<uN>().ok()], [max] the largest value of the type: an optional
    plus sign, then at least one digit, without overflow. *)
Definition parse_uint (max : Z) (s : string) : option Z :=
  match bytes_of_string s with
  | [] => None
  | 43 :: [] => None
  | 43 :: bs => parse_digits max 0 bs
  | bs => parse_digits max 0 bs
  end.

(** [s.split(sep).collect()]: always one more part than separators. *)
Fixpoint split_on (sep : ascii) (s : string) : list string :=
  match s with
  | EmptyString => [""]
  | String a s =>
    match split_on sep s with
    | [] => []
    | p :: ps => if bool_decide (a = sep) then "" :: p :: ps else String a p :: ps
    end
  end.

(** ** Searching in strings

    All searches are on bytes; on valid UTF-8 a match of a whole string is a
    match of characters. *)

(** [s.strip_prefix(p)]. *)
Fixpoint strip_prefix (p s : string) : option string :=
  match p, s with
  | EmptyString, _ => Some s
  | String a p, String b s => if Ascii.eqb a b then strip_prefix p s else None
  | String _ _, EmptyString => None
  end.

(** [s.contains(pat)]. *)
Fixpoint str_contains (pat s : string) : bool :=
  match strip_prefix pat s with
  | Some _ => true
  | None => match s with EmptyString => false | String _ s => str_contains pat s end
  end.

(** [s.ends_with(suffix)]. *)
Fixpoint str_ends_with (suffix s : string) : bool :=
  String.eqb s suffix ||
  match s with EmptyString => false | String _ s => str_ends_with suffix s end.

(** [s.split_once(sep)]. *)
Fixpoint split_once (sep : ascii) (s : string) : option (string * string) :=
  match s with
  | EmptyString => None
  | String c s =>
    if Ascii.eqb c sep then Some (EmptyString, s)
    else match split_once sep s with Some (a, b) => Some (String c a, b) | None => None end
  end.

(** [s.to_ascii_lowercase()]. *)
Definition lower_byte (b : Z) : Z := if in_range 65 90 (Some b) then b + 32 else b.

Definition to_ascii_lowercase (s : string) : string :=
  string_of_bytes (map lower_byte (bytes_of_string s)).

(** [format!("{:x}")] of an unsigned integer of at most [fuel] hexadecimal digits. *)
Fixpoint lower_hex_fuel (fuel : nat) (n : Z) (acc : string) : string :=
  match fuel with
  | O => acc
  | S fuel =>
    let acc := String (hex_digit (n mod 16)) acc in
    if n / 16 =? 0 then acc else lower_hex_fuel fuel (n / 16) acc
  end.

Definition lower_hex (n : Z) : string := lower_hex_fuel 16 n "".

(** ** Lemmas *)

Lemma byte_of_ascii_range a : is_u8 (byte_of_ascii a).
Proof. unfold is_u8, byte_of_ascii. pose proof (N_ascii_bounded a). lia. Qed.

Lemma ascii_of_byte_of_ascii a : ascii_of_byte (byte_of_ascii a) = a.
Proof. unfold ascii_of_byte, byte_of_ascii. by rewrite N2Z.id, ascii_N_embedding. Qed.

Lemma byte_of_ascii_of_byte b : is_u8 b -> byte_of_ascii (ascii_of_byte b) = b.
Proof.
  unfold is_u8, byte_of_ascii, ascii_of_byte. intros. rewrite N_ascii_embedding by lia. lia.
Qed.

Lemma string_of_bytes_of_string s : string_of_bytes (bytes_of_string s) = s.
Proof. induction s as [|a s IH]; simpl; [done|]. by rewrite ascii_of_byte_of_ascii, IH. Qed.

Lemma bytes_of_string_of_bytes bs : is_bytes bs -> bytes_of_string (string_of_bytes bs) = bs.
Proof.
  induction 1 as [|b bs Hb Hbs IH]; simpl; [done|]. by rewrite byte_of_ascii_of_byte, IH.
Qed.

Lemma bytes_of_string_is_bytes s : is_bytes (bytes_of_string s).
Proof. induction s; simpl; constructor; auto using byte_of_ascii_range. Qed.

Lemma length_bytes_of_string s : length (bytes_of_string s) = String.length s.
Proof. induction s; simpl; auto. Qed.

Lemma length_string_of_bytes bs : String.length (string_of_bytes bs) = length bs.
Proof. induction bs as [|b bs IH]; [done|]. cbn. f_equal. exact IH. Qed.

Lemma string_of_bytes_app bs1 bs2 :
  string_of_bytes (bs1 ++ bs2) = string_of_bytes bs1 +:+ string_of_bytes bs2.
Proof. induction bs1 as [|b bs1 IH]; simpl; [done|]. by rewrite IH. Qed.

Lemma bytes_of_string_app s1 s2 :
  bytes_of_string (s1 +:+ s2) = bytes_of_string s1 ++ bytes_of_string s2.
Proof. induction s1 as [|a s1 IH]; simpl; [done|]. by rewrite IH. Qed.

Lemma string_app_nil_r (s : string) : s +:+ "" = s.
Proof. induction s as [|a s IH]; [done|]. change (String a (s +:+ "") = String a s). by rewrite IH. Qed.

Lemma string_app_assoc (s1 s2 s3 : string) : s1 +:+ (s2 +:+ s3) = (s1 +:+ s2) +:+ s3.
Proof.
  induction s1 as [|a s1 IH]; [done|].
  change (String a (s1 +:+ (s2 +:+ s3)) = String a ((s1 +:+ s2) +:+ s3)). by rewrite IH.
Qed.

Lemma utf8_head_inl_pos bs n : utf8_head bs = inl n -> (0 < n)%nat.
Proof. unfold utf8_head. intros H. repeat case_match; simplify_eq; lia. Qed.

Lemma utf8_head_inr_pos bs n : bs <> [] -> utf8_head bs = inr n -> (0 < n)%nat.
Proof. unfold utf8_head. intros ? H. repeat case_match; simplify_eq; lia. Qed.

Lemma utf8_lossy_valid_fuel fuel bs :
  utf8_valid_fuel fuel bs = true -> utf8_lossy_fuel fuel bs = bs.
Proof.
  revert bs. induction fuel as [|fuel IH]; intros [|b bs] Hv; try done.
  cbn [utf8_valid_fuel] in Hv. cbn [utf8_lossy_fuel].
  destruct (utf8_head (b :: bs)) as [n|n]; [|done].
  rewrite IH by done. apply take_drop.
Qed.

(** Lossy decoding does not change valid UTF-8. *)
Lemma from_utf8_lossy_valid bs : utf8_valid bs = true -> from_utf8_lossy bs = string_of_bytes bs.
Proof. intros Hv. unfold from_utf8_lossy. by rewrite utf8_lossy_valid_fuel. Qed.

(** A Rust [String]: a string whose bytes are valid UTF-8. *)
Definition is_str (s : string) : Prop := utf8_valid (bytes_of_string s) = true.

Lemma from_utf8_bytes_of_string s : is_str s -> from_utf8 (bytes_of_string s) = Some s.
Proof. intros Hs. unfold from_utf8. by rewrite Hs, string_of_bytes_of_string. Qed.

Lemma from_utf8_lossy_bytes_of_string s : is_str s -> from_utf8_lossy (bytes_of_string s) = s.
Proof. intros Hs. by rewrite from_utf8_lossy_valid, string_of_bytes_of_string. Qed.

Lemma utf8_valid_ascii bs : Forall (fun b => b < 128) bs -> utf8_valid bs = true.
Proof.
  unfold utf8_valid. induction 1 as [|b bs Hb Hbs IH]; [done|].
  cbn [length utf8_valid_fuel]. unfold utf8_head.
  rewrite (proj2 (Z.ltb_lt b 128)) by done. cbn [drop]. apply IH.
Qed.

Lemma split_on_nonempty sep s : split_on sep s <> [].
Proof.
  induction s as [|a s IH]; simpl; [done|].
  destruct (split_on sep s); [done|]. by case_bool_decide.
Qed.

(** A character that no part of the text holds splits it nowhere. *)
Lemma split_on_absent sep s :
  byte_of_ascii sep ∉ bytes_of_string s -> split_on sep s = [s].
Proof.
  induction s as [|a s IH]; simpl; [done|]. rewrite not_elem_of_cons. intros [Ha Hs].
  rewrite IH by done. rewrite bool_decide_false by congruence. done.
Qed.

Lemma split_on_sep sep s1 s2 :
  split_on sep (s1 +:+ String sep s2) = split_on sep s1 ++ split_on sep s2.
Proof.
  induction s1 as [|c s1 IH]; simpl.
  - pose proof (split_on_nonempty sep s2). destruct (split_on sep s2); [done|]. by rewrite bool_decide_true.
  - rewrite IH. pose proof (split_on_nonempty sep s1). destruct (split_on sep s1); [done|]. cbn [app].
    by case_bool_decide.
Qed.

Lemma split_on_app sep s1 s2 :
  byte_of_ascii sep ∉ bytes_of_string s1 ->
  split_on sep (s1 +:+ String sep s2) = s1 :: split_on sep s2.
Proof.
  induction s1 as [|a s1 IH]; simpl.
  - intros _. pose proof (split_on_nonempty sep s2). destruct (split_on sep s2); [done|].
    by rewrite bool_decide_true.
  - rewrite not_elem_of_cons. intros [Ha Hs]. rewrite IH by done.
    rewrite bool_decide_false by congruence. done.
Qed.

Lemma bytes_of_string_inj s1 s2 : bytes_of_string s1 = bytes_of_string s2 -> s1 = s2.
Proof.
  intros H. by rewrite <- (string_of_bytes_of_string s1), H, string_of_bytes_of_string.
Qed.

(** The last separator of a text determines both sides. *)
Lemma app_sep_inj {A} (x : A) l1 l2 r1 r2 :
  x ∉ r1 -> x ∉ r2 -> l1 ++ x :: r1 = l2 ++ x :: r2 -> l1 = l2 /\ r1 = r2.
Proof.
  revert l2. induction l1 as [|a l1 IH]; intros [|b l2] H1 H2; simpl; intros Heq; simplify_eq.
  - done.
  - destruct H1. apply elem_of_app. right. by apply elem_of_cons; left.
  - destruct H2. apply elem_of_app. right. by apply elem_of_cons; left.
  - by destruct (IH l2) as [-> ->].
Qed.

(** The same from the other side. *)
Lemma sep_app_inj {A} (x : A) l1 l2 r1 r2 :
  x ∉ l1 -> x ∉ l2 -> l1 ++ x :: r1 = l2 ++ x :: r2 -> l1 = l2 /\ r1 = r2.
Proof.
  revert l2. induction l1 as [|a l1 IH]; intros [|b l2] H1 H2; simpl; intros Heq; simplify_eq.
  - done.
  - destruct H2. by left.
  - destruct H1. by left.
  - apply not_elem_of_cons in H1 as [_ H1]. apply not_elem_of_cons in H2 as [_ H2].
    by destruct (IH l2) as [-> ->].
Qed.

Definition is_digit (b : Z) : Prop := 48 <= b <= 57.
#[export] Instance is_digit_dec b : Decision (is_digit b).
Proof. unfold is_digit. apply _. Defined.

Lemma pretty_N_go_digits n s :
  Forall is_digit (bytes_of_string s) -> Forall is_digit (bytes_of_string (pretty_N_go n s)).
Proof.
  revert s. induction (N.lt_wf_0 n) as [n _ IH]. intros s Hs.
  destruct (decide (n = 0%N)) as [->|Hn]; [by rewrite pretty_N_go_0|].
  rewrite pretty_N_go_step by lia. apply IH; [apply N.div_lt; lia|].
  cbn [bytes_of_string]. constructor; [|done].
  pose proof (N.mod_lt n 10 ltac:(done)) as Hd. revert Hd. generalize (n `mod` 10)%N as d.
  intros d Hd. rewrite <- (N2Z.id d).
  apply (forall_below (fun d => is_digit (byte_of_ascii (pretty_N_char (Z.to_N d)))) 10); [done|lia].
Qed.

(** Decimal text of an unsigned integer is digits only. *)
Lemma dec_digits n : 0 <= n -> Forall is_digit (bytes_of_string (dec n)).
Proof.
  intros Hn. unfold dec, pretty, pretty_Z. destruct n as [|p|p]; [| |lia].
  - repeat constructor; done.
  - apply (pretty_N_go_digits (Npos p) ""). constructor.
Qed.

Lemma dec_inj m n : dec m = dec n -> m = n.
Proof. apply (inj pretty). Qed.

Lemma dec_no_colon n : 0 <= n -> 58 ∉ bytes_of_string (dec n).
Proof.
  intros Hn Hin. pose proof (dec_digits n Hn) as Hd. rewrite Forall_forall in Hd.
  apply Hd in Hin. unfold is_digit in Hin. lia.
Qed.

Lemma strip_prefix_app p s : strip_prefix p (p +:+ s) = Some s.
Proof. induction p as [|a p IH]; [done|]. change (String a p +:+ s) with (String a (p +:+ s)). simpl. by rewrite Ascii.eqb_refl. Qed.

Lemma str_ends_with_app p s : str_ends_with s (p +:+ s) = true.
Proof.
  induction p as [|a p IH].
  - change ("" +:+ s) with s. destruct s; simpl; [done|]. by rewrite Ascii.eqb_refl, String.eqb_refl.
  - change (String a p +:+ s) with (String a (p +:+ s)). simpl. by rewrite IH, orb_true_r.
Qed.

Lemma str_ends_with_inv suffix s :
  str_ends_with suffix s = true -> exists p, s = p +:+ suffix.
Proof.
  induction s as [|a s IH]; cbn [str_ends_with]; rewrite orb_true_iff.
  - intros [H%String.eqb_eq|[=]]. by exists "".
  - intros [H%String.eqb_eq|H]; [by exists ""|]. destruct (IH H) as [p ->].
    by exists (String a p).
Qed.

(** Two suffixes that end in different bytes exclude each other. *)
Lemma str_ends_with_other p s suffix :
  last (bytes_of_string s) <> last (bytes_of_string suffix) ->
  s <> "" -> suffix <> "" -> str_ends_with suffix (p +:+ s) = false.
Proof.
  intros Hne Hs Hsuf. destruct (str_ends_with suffix (p +:+ s)) eqn:He; [|done].
  apply str_ends_with_inv in He as [q Hq]. apply (f_equal bytes_of_string) in Hq.
  rewrite !bytes_of_string_app in Hq. apply (f_equal last) in Hq. rewrite !last_app in Hq.
  destruct s, suffix; try done. exfalso. apply Hne.
  repeat match type of Hq with context [last ?l] => destruct (last l) eqn:? end;
    try congruence; exfalso;
    repeat match goal with H : last _ = None |- _ => apply last_None in H end; done.
Qed.

Lemma split_once_app sep a b :
  byte_of_ascii sep ∉ bytes_of_string a ->
  split_once sep (a +:+ String sep b) = Some (a, b).
Proof.
  induction a as [|c a IH]; intros Ha.
  - change ("" +:+ String sep b) with (String sep b). simpl. by rewrite Ascii.eqb_refl.
  - change (String c a +:+ String sep b) with (String c (a +:+ String sep b)). simpl in *.
    apply not_elem_of_cons in Ha as [Hc Ha]. rewrite IH by done.
    destruct (Ascii.eqb_spec c sep) as [->|]; done.
Qed.

#[export] Hint Resolve byte_of_ascii_range bytes_of_string_is_bytes : rust.
#[export] Hint Rewrite length_bytes_of_string string_of_bytes_of_string : rust.
