(* ===== verification/External.v ===== *)
(** * Third-party code the sources call

    chrono, serde_json, hex and tokio are not part of the repository.  Each
    appears here as an interface: a class of operations, the laws a client may
    rely on (documented behaviour of the crate), and one simple instance that
    shows the laws can hold and lets closed examples evaluate. *)

From S2P Require Import Prelude.
From S2P Require Import Text.

Set Warnings "-register-all".

(** ** serde_json values

    [serde_json::Value]; an object keeps its entries in iteration order. *)

Inductive Number : Type :=
| NInt (z : Z)
| NFloat (bits : Z).

Inductive Value : Type :=
| Null
| VBool (b : bool)
| VNumber (n : Number)
| VString (s : string)
| VArray (l : list Value)
| VObject (l : list (string * Value)).

(** Induction over the values nested in arrays and objects. *)
Lemma Value_nested_ind (P : Value -> Prop) :
  P Null -> (forall b, P (VBool b)) -> (forall n, P (VNumber n)) -> (forall s, P (VString s)) ->
  (forall l, Forall P l -> P (VArray l)) ->
  (forall l, Forall (fun kv => P kv.2) l -> P (VObject l)) ->
  forall v, P v.
Proof.
  intros Hnull Hbool Hnum Hstr Harr Hobj. fix IH 1. intros [|b|n|s|l|l]; [done..| |].
  - apply Harr. induction l as [|v l IHl]; constructor; [apply IH|exact IHl].
  - apply Hobj. induction l as [|[k v] l IHl]; constructor; [apply IH|exact IHl].
Qed.

#[export] Instance Number_eq_dec : EqDecision Number.
Proof. solve_decision. Defined.
#[export] Program Instance Number_countable : Countable Number :=
  inj_countable'
    (fun n => match n with NInt z => inl z | NFloat b => inr b end)
    (fun t => match t with inl z => NInt z | inr b => NFloat b end) _.
Next Obligation. by intros []. Qed.

(** A value as a tree, and back. *)
Fixpoint value_tree (v : Value) : gen_tree (bool + Number + string) :=
  match v with
  | Null => GenNode 0 []
  | VBool b => GenLeaf (inl (inl b))
  | VNumber n => GenLeaf (inl (inr n))
  | VString s => GenLeaf (inr s)
  | VArray l => GenNode 1 (map value_tree l)
  | VObject l => GenNode 2 (map (fun '(k, v) => GenNode 3 [GenLeaf (inr k); value_tree v]) l)
  end.

Fixpoint tree_value (t : gen_tree (bool + Number + string)) : Value :=
  match t with
  | GenLeaf (inl (inl b)) => VBool b
  | GenLeaf (inl (inr n)) => VNumber n
  | GenLeaf (inr s) => VString s
  | GenNode 1 l => VArray (map tree_value l)
  | GenNode 2 l =>
    VObject (map (fun t => match t with
                           | GenNode 3 [GenLeaf (inr k); v] => (k, tree_value v)
                           | _ => (EmptyString, Null)
                           end) l)
  | GenNode _ _ => Null
  end.

Lemma tree_value_tree v : tree_value (value_tree v) = v.
Proof.
  induction v as [| | | |l IH|l IH] using Value_nested_ind; simpl; try done; f_equal.
  - rewrite map_map. induction IH as [|v l Hv Hl IHl]; simpl; [done|]. by rewrite Hv, IHl.
  - rewrite map_map. induction IH as [|[k v] l Hv Hl IHl]; simpl in *; [done|]. by rewrite Hv, IHl.
Qed.

#[export] Instance Value_eq_dec : EqDecision Value.
Proof.
  intros v w. destruct (decide (value_tree v = value_tree w)) as [H|H].
  - left. by rewrite <- (tree_value_tree v), <- (tree_value_tree w), H.
  - right. by intros ->.
Defined.
#[export] Instance Value_countable : Countable Value :=
  inj_countable' value_tree tree_value tree_value_tree.

(** [json!(n)] of an integer. *)
Definition json_int (z : Z) : Value := VNumber (NInt z).

(** ** chrono and serde_json operations

    A [DateTime<Utc>] is opaque; [from_timestamp] is
    [DateTime::from_timestamp], [None] out of chrono's range.  [json_f32] and
    [json_f64] are [json!] of a float given by its bit pattern, and
    [number_display] the [Display] of a [serde_json::Number]. *)
Class External := {
  DateTime : Type;
  from_timestamp : Z -> Z -> option DateTime;
  datetime_default : DateTime;
  (** [a > b]. *)
  datetime_gt : DateTime -> DateTime -> bool;
  (** [dt.format("%Y-%-m-%-d")]. *)
  format_date : DateTime -> string;
  (** [dt.format("%Y-%-m-%-d-%H:%M:%S")]. *)
  format_date_time : DateTime -> string;
  json_f32 : Z -> Value;
  json_f64 : Z -> Value;
  number_display : Number -> string;
}.

(** ** hex *)

(** [DateTime] is ordered. *)
Class DateTimeOrder (E : External) : Prop := {
  datetime_gt_irrefl : forall a, datetime_gt a a = false;
  datetime_gt_trans : forall a b c, datetime_gt a b = true -> datetime_gt b c = true -> datetime_gt a c = true;
  datetime_gt_between : forall a b c, datetime_gt a c = true -> datetime_gt a b = true \/ datetime_gt b c = true;
}.

Class Hex := {
  hex_encode : bytes -> string;
  hex_decode : string -> option bytes;
}.

(** Documented: lowercase, two characters per byte; decoding inverts it. *)
Class HexLaws (H : Hex) : Prop := {
  hex_encode_length : forall bs, String.length (hex_encode bs) = (2 * length bs)%nat;
  hex_decode_encode : forall bs, is_bytes bs -> hex_decode (hex_encode bs) = Some bs;
  hex_decode_length : forall s bs,
    hex_decode s = Some bs -> String.length s = (2 * length bs)%nat;
  hex_encode_no_dash : forall bs, is_bytes bs -> 45 ∉ bytes_of_string (hex_encode bs);
}.

(** ** tokio mpsc

    [try_send] never waits: it appends to the queue, or reports the message
    as not sent when the channel is full or closed. *)

Class Mpsc := {
  Sender : Type -> Type;
  queued : forall {A}, Sender A -> list A;
  try_send : forall {A}, Sender A -> A -> Sender A * bool;
}.

Class MpscLaws (M : Mpsc) : Prop := {
  try_send_queued : forall A (tx : Sender A) (a : A),
    queued (fst (try_send tx a)) = if snd (try_send tx a) then queued tx ++ [a] else queued tx;
}.

(** ** tokio Semaphore *)

Class SemaphoreOps := {
  Semaphore : Type;
  semaphore_new : nat -> Semaphore;
  available_permits : Semaphore -> nat;
  (** [try_acquire_owned]; [None] when it returns [NoPermits]. *)
  sem_try_acquire : Semaphore -> option Semaphore;
  (** Dropping an [OwnedSemaphorePermit]. *)
  sem_release : Semaphore -> Semaphore;
}.

Class SemaphoreLaws (SO : SemaphoreOps) : Prop := {
  semaphore_new_available : forall n, available_permits (semaphore_new n) = n;
  sem_try_acquire_some : forall s s',
    sem_try_acquire s = Some s' -> available_permits s = S (available_permits s');
  sem_try_acquire_none : forall s, sem_try_acquire s = None <-> available_permits s = 0%nat;
  sem_release_available : forall s,
    available_permits (sem_release s) = S (available_permits s);
}.

(** ** tokio oneshot

    One channel, seen from both ends. [oneshot_poll] is what a receiver that
    awaits sees: still waiting, a value, or that the sender is gone. *)

Class OneshotOps := {
  Oneshot : Type -> Type;
  oneshot_channel : forall {A}, Oneshot A;
  (** [tx.send(a)], which consumes the sender. *)
  oneshot_send : forall {A}, A -> Oneshot A -> Oneshot A;
  (** Dropping a sender that was not used. *)
  oneshot_drop_tx : forall {A}, Oneshot A -> Oneshot A;
  oneshot_poll : forall {A}, Oneshot A -> option (option A);
}.

Class OneshotLaws (OS : OneshotOps) : Prop := {
  oneshot_channel_waits : forall A, oneshot_poll (oneshot_channel (A:=A)) = None;
  oneshot_send_received : forall A (a : A) c,
    oneshot_poll c = None -> oneshot_poll (oneshot_send a c) = Some (Some a);
  oneshot_drop_closes : forall A (c : Oneshot A),
    oneshot_poll c = None -> oneshot_poll (oneshot_drop_tx c) = Some None;
}.

(** ** Simple instances *)

Module SimpleExternal.

(** Instants as (seconds, nanoseconds) since the Unix epoch, in chrono's
    range of about 262 000 years each way. *)
Definition simple_from_timestamp (secs nanos : Z) : option (Z * Z) :=
  if (-8334601228800 <=? secs) && (secs <=? 8210266876799) && (0 <=? nanos) && (nanos <? 1000000000)
  then Some (secs, nanos) else None.

Definition simple_gt (a b : Z * Z) : bool :=
  (b.1 <? a.1) || ((b.1 =? a.1) && (b.2 <? a.2)).

#[export] Instance simple_external : External := {|
  DateTime := Z * Z;
  from_timestamp := simple_from_timestamp;
  datetime_default := (0, 0);
  datetime_gt := simple_gt;
  format_date := fun d => dec d.1;
  format_date_time := fun d => dec d.1;
  json_f32 := fun bits => VNumber (NFloat bits);
  json_f64 := fun bits => VNumber (NFloat bits);
  number_display := fun n => match n with NInt z => dec z | NFloat b => dec b end;
|}.

#[export] Instance simple_datetime_order : DateTimeOrder simple_external.
Proof.
  split; simpl; unfold simple_gt.
  - intros [a b]. simpl. lia.
  - intros [a1 a2] [b1 b2] [c1 c2]. simpl. lia.
  - intros [a1 a2] [b1 b2] [c1 c2]. simpl. rewrite !orb_true_iff, !andb_true_iff, !Z.ltb_lt, !Z.eqb_eq. lia.
Qed.

Definition unhex_digit (b : Z) : option Z :=
  if in_range 48 57 (Some b) then Some (b - 48)
  else if in_range 97 102 (Some b) then Some (b - 87)
  else if in_range 65 70 (Some b) then Some (b - 55)
  else None.

Fixpoint unhex (bs : bytes) : option bytes :=
  match bs with
  | [] => Some []
  | [_] => None
  | a :: b :: bs =>
    match unhex_digit a, unhex_digit b, unhex bs with
    | Some x, Some y, Some r => Some (16 * x + y :: r)
    | _, _, _ => None
    end
  end.

#[export] Instance simple_hex : Hex := {|
  hex_encode := hex_of_bytes;
  hex_decode := fun s => unhex (bytes_of_string s);
|}.

Lemma bytes_of_hex_cons b bs :
  bytes_of_string (hex_of_bytes (b :: bs)) =
  byte_of_ascii (hex_digit (b / 16)) :: byte_of_ascii (hex_digit (b mod 16)) ::
  bytes_of_string (hex_of_bytes bs).
Proof. reflexivity. Qed.

Lemma length_hex_of_bytes bs : String.length (hex_of_bytes bs) = (2 * length bs)%nat.
Proof.
  rewrite <- length_bytes_of_string. induction bs as [|b bs IH]; [done|].
  rewrite bytes_of_hex_cons. simpl. lia.
Qed.

Lemma hex_digit_range n : 0 <= n < 16 -> is_u8 (if n <? 10 then 48 + n else 87 + n).
Proof. unfold is_u8. case (Z.ltb_spec n 10); lia. Qed.

Lemma unhex_hex_digit n : 0 <= n < 16 -> unhex_digit (byte_of_ascii (hex_digit n)) = Some n.
Proof. by apply (forall_below (fun n => unhex_digit (byte_of_ascii (hex_digit n)) = Some n)). Qed.

Lemma hex_digit_not_dash n : 0 <= n < 16 -> byte_of_ascii (hex_digit n) <> 45.
Proof.
  intros Hn. unfold hex_digit. rewrite byte_of_ascii_of_byte by by apply hex_digit_range.
  case (Z.ltb_spec n 10); lia.
Qed.

Lemma unhex_length s bs : unhex s = Some bs -> length s = (2 * length bs)%nat.
Proof.
  revert bs. induction s as [s IH] using (induction_ltof1 _ (@length Z)).
  destruct s as [|a [|b s]]; intros bs; cbn [unhex].
  - by intros [= <-].
  - done.
  - destruct (unhex_digit a); [|done]. destruct (unhex_digit b); [|done].
    destruct (unhex s) as [r|] eqn:Hr; [|done]. intros [= <-].
    apply IH in Hr; [|unfold ltof; simpl; lia]. simpl. lia.
Qed.

#[export] Instance simple_hex_laws : HexLaws simple_hex.
Proof.
  split; simpl.
  - apply length_hex_of_bytes.
  - induction 1 as [|b bs Hb Hbs IH]; [done|]. rewrite bytes_of_hex_cons.
    unfold is_u8 in Hb.
    assert (0 <= b / 16 < 16) by (split; [apply Z.div_pos | apply Z.div_lt_upper_bound]; lia).
    pose proof (Z.mod_pos_bound b 16).
    cbn [unhex]. rewrite !unhex_hex_digit by lia.
    rewrite IH. do 2 f_equal. pose proof (Z.div_mod b 16). lia.
  - intros s bs H. rewrite <- length_bytes_of_string. by apply unhex_length.
  - induction 1 as [|b bs Hb Hbs IH]; [by apply not_elem_of_nil|]. rewrite bytes_of_hex_cons.
    unfold is_u8 in Hb. pose proof (Z.mod_pos_bound b 16).
    rewrite !not_elem_of_cons. split_and!; [| |done]; apply not_eq_sym, hex_digit_not_dash.
    + split; [apply Z.div_pos | apply Z.div_lt_upper_bound]; lia.
    + lia.
Qed.

(** A bounded first-in first-out queue that is open or closed. *)
Record SimpleSender (A : Type) := mkSender {
  s_capacity : nat;
  s_queue : list A;
  s_closed : bool;
}.
Arguments mkSender {A}.
Arguments s_capacity {A}.
Arguments s_queue {A}.
Arguments s_closed {A}.

Definition simple_try_send {A} (tx : SimpleSender A) (a : A) : SimpleSender A * bool :=
  if s_closed tx || (s_capacity tx <=? length (s_queue tx))%nat then (tx, false)
  else (mkSender (s_capacity tx) (s_queue tx ++ [a]) false, true).

#[export] Instance simple_mpsc : Mpsc := {|
  Sender := SimpleSender;
  queued := @s_queue;
  try_send := @simple_try_send;
|}.

#[export] Instance simple_mpsc_laws : MpscLaws simple_mpsc.
Proof. split. intros A tx a. simpl. unfold simple_try_send. by case_match. Qed.

(** A channel without a bound, on which every send succeeds. *)
Definition unbounded_mpsc : Mpsc := {|
  Sender := list;
  queued := fun A l => l;
  try_send := fun A l a => (l ++ [a], true);
|}.

Lemma unbounded_mpsc_laws : MpscLaws unbounded_mpsc.
Proof. by split. Qed.

#[export] Instance simple_semaphore : SemaphoreOps := {|
  Semaphore := nat;
  semaphore_new := fun n => n;
  available_permits := fun n => n;
  sem_try_acquire := fun n => match n with O => None | S n => Some n end;
  sem_release := S;
|}.

#[export] Instance simple_semaphore_laws : SemaphoreLaws simple_semaphore.
Proof.
  split; simpl; [done| | |done].
  - intros [|s] s' H; simplify_eq; done.
  - intros [|s]; split; intros; simplify_eq; done.
Qed.

(** A cell that is empty, or holds what the receiver will see. *)
#[export] Instance simple_oneshot : OneshotOps := {|
  Oneshot := fun A => option (option A);
  oneshot_channel := fun A => None;
  oneshot_send := fun A a _ => Some (Some a);
  oneshot_drop_tx := fun A c => match c with None => Some None | Some v => Some v end;
  oneshot_poll := fun A c => c;
|}.

#[export] Instance simple_oneshot_laws : OneshotLaws simple_oneshot.
Proof. split; simpl; [done|done|]. by intros A c ->. Qed.

End SimpleExternal.
