(* ===== verification/Float.v ===== *)
(** * IEEE 754 numbers

    Rust's [f64] and [f32] are binary64 and binary32. The models carry them as
    bit patterns; here are the conversions and operations the sources apply to
    them, through the Standard Library's executable specification of IEEE
    arithmetic (round to nearest, ties to even). A NaN result has the one
    pattern [f64_nan]; the payload of a NaN is not specified by Rust. *)

From S2P Require Import Prelude.
From Stdlib Require Import SpecFloat.

(** ** Bit patterns *)

(** A format with [mw] stored bits of mantissa and [ew] of exponent. *)
Definition sf_emin (mw ew : Z) : Z := 3 - 2 ^ (ew - 1) - (mw + 1).

Definition sf_of_bits (mw ew bits : Z) : spec_float :=
  let s := Z.testbit bits (mw + ew) in
  let e := (bits / 2 ^ mw) mod 2 ^ ew in
  let m := bits mod 2 ^ mw in
  if e =? 2 ^ ew - 1 then (if m =? 0 then S754_infinity s else S754_nan)
  else if e =? 0 then
    match m with
    | Zpos p => S754_finite s p (sf_emin mw ew)
    | _ => S754_zero s
    end
  else
    match m + 2 ^ mw with
    | Zpos p => S754_finite s p (e - 1 + sf_emin mw ew)
    | _ => S754_nan
    end.

Definition sign_bit (mw ew : Z) (s : bool) : Z := if s then 2 ^ (mw + ew) else 0.

Definition bits_of_sf (mw ew : Z) (x : spec_float) : Z :=
  match x with
  | S754_zero s => sign_bit mw ew s
  | S754_infinity s => sign_bit mw ew s + (2 ^ ew - 1) * 2 ^ mw
  | S754_nan => (2 ^ ew - 1) * 2 ^ mw + 2 ^ (mw - 1)
  | S754_finite s m e =>
    sign_bit mw ew s +
    (if Zpos m <? 2 ^ mw then Zpos m else (e - sf_emin mw ew + 1) * 2 ^ mw + (Zpos m - 2 ^ mw))
  end.

Definition sf64 (bits : Z) : spec_float := sf_of_bits 52 11 bits.
Definition sf32 (bits : Z) : spec_float := sf_of_bits 23 8 bits.
Definition bits64 (x : spec_float) : Z := bits_of_sf 52 11 x.
Definition f64_nan : Z := bits64 S754_nan.

(** ** Operations *)

(** [z as f64] for an integer type. *)
Definition f64_of_Z (z : Z) : Z := bits64 (binary_normalize 53 1024 z 0 false).

(** [x as f64] for [x : f32]; always exact. *)
Definition f64_of_f32 (bits : Z) : Z :=
  bits64 match sf32 bits with
         | S754_finite s m e => binary_round 53 1024 s m e
         | x => x
         end.

Definition f64_add (a b : Z) : Z := bits64 (SFadd 53 1024 (sf64 a) (sf64 b)).
Definition f64_sub (a b : Z) : Z := bits64 (SFsub 53 1024 (sf64 a) (sf64 b)).
Definition f64_mul (a b : Z) : Z := bits64 (SFmul 53 1024 (sf64 a) (sf64 b)).
Definition f64_div (a b : Z) : Z := bits64 (SFdiv 53 1024 (sf64 a) (sf64 b)).
Definition f64_sqrt (a : Z) : Z := bits64 (SFsqrt 53 1024 (sf64 a)).
Definition f64_lt (a b : Z) : bool := SFltb (sf64 a) (sf64 b).
Definition f64_le (a b : Z) : bool := SFleb (sf64 a) (sf64 b).
Definition f32_lt (a b : Z) : bool := SFltb (sf32 a) (sf32 b).
Definition f64_is_nan (a : Z) : bool := match sf64 a with S754_nan => true | _ => false end.

(** [f64::INFINITY], [f64::NEG_INFINITY]. *)
Definition f64_infinity : Z := bits64 (S754_infinity false).
Definition f64_neg_infinity : Z := bits64 (S754_infinity true).

(** [f64::min], [f64::max]: the other operand when one is NaN. *)
Definition f64_min (a b : Z) : Z :=
  if f64_is_nan a then b else if f64_is_nan b then a else if f64_lt b a then b else a.
Definition f64_max (a b : Z) : Z :=
  if f64_is_nan a then b else if f64_is_nan b then a else if f64_lt a b then b else a.

(** The integer a pattern stands for, if it is one. *)
Definition f64_to_Z (bits : Z) : option Z :=
  match sf64 bits with
  | S754_zero _ => Some 0
  | S754_finite s m e =>
    let v := if 0 <=? e then Some (Zpos m * 2 ^ e)
             else if Zpos m mod 2 ^ (- e) =? 0 then Some (Zpos m / 2 ^ (- e)) else None in
    (fun v => if s then - v else v) <$> v
  | _ => None
  end.

(** ** Exactness *)

Lemma digits2_log2 p : Zpos (digits2_pos p) = Z.log2 (Zpos p) + 1.
Proof.
  assert (digits2_pos p = Pos.size p) as -> by (induction p; simpl; congruence).
  destruct p; simpl; lia.
Qed.

Lemma shl_align_exact m e e' :
  e' <= e -> exists mz, shl_align m e e' = (mz, e') /\ Zpos mz = Zpos m * 2 ^ (e - e').
Proof.
  intros He. unfold shl_align. destruct (e' - e) as [|d|d] eqn:Hd; [|lia|].
  - exists m. replace e' with e by lia. by rewrite Z.sub_diag, Z.mul_1_r.
  - eexists. split; [done|]. replace (e - e') with (Zpos d) by lia.
    rewrite <- Z.shiftl_mul_pow2 by lia. simpl.
    by rewrite (Pos.iter_swap_gen _ _ Zpos xO (Z.mul 2)).
Qed.

Lemma shr_fexp_exact m e :
  Z.log2 (Zpos m) + 1 = 53 -> -1074 <= e ->
  shr_fexp 53 1024 (Zpos m) e loc_Exact = (Build_shr_record (Zpos m) false false, e).
Proof.
  intros Hm He. unfold shr_fexp, Zdigits2. rewrite digits2_log2, Hm.
  assert (fexp 53 1024 (53 + e) - e = 0) as -> by (unfold fexp, emin; lia). done.
Qed.

(** A mantissa of at most 53 bits with an exponent in the normal range is
    represented as it is. *)
Lemma binary_round_exact s m e :
  let d := Z.log2 (Zpos m) + 1 in
  d <= 53 -> -1021 <= d + e <= 1024 ->
  exists mz, binary_round 53 1024 s m e = S754_finite s mz (d + e - 53) /\
    Zpos mz = Zpos m * 2 ^ (53 - d) /\ 2 ^ 52 <= Zpos mz < 2 ^ 53.
Proof.
  intros d Hd Hde. unfold binary_round. rewrite digits2_log2. fold d.
  assert (fexp 53 1024 (d + e) = d + e - 53) as -> by (unfold fexp, emin; lia).
  destruct (shl_align_exact m e (d + e - 53)) as (mz & -> & Hmz); [lia|].
  replace (e - (d + e - 53)) with (53 - d) in Hmz by lia.
  assert (Hlog : Z.log2 (Zpos mz) + 1 = 53).
  { rewrite Hmz, Z.log2_mul_pow2 by lia. unfold d. lia. }
  exists mz. split_and!; [|done|..].
  - unfold binary_round_aux. rewrite shr_fexp_exact by lia. cbn [shr_m loc_of_shr_record round_nearest_even].
    rewrite shr_fexp_exact by lia. cbn [shr_m].
    replace (d + e - 53 <=? 1024 - 53) with true by (symmetry; apply Z.leb_le; lia). done.
  - pose proof (Z.log2_spec (Zpos mz)) as [H _]; [lia|]. replace 52 with (Z.log2 (Zpos mz)) by lia. done.
  - pose proof (Z.log2_spec (Zpos mz)) as [_ H]; [lia|].
    replace 53 with (Z.succ (Z.log2 (Zpos mz))) by lia. done.
Qed.

Lemma sf64_bits64 m e :
  2 ^ 52 <= Zpos m < 2 ^ 53 -> -1074 <= e <= 970 ->
  sf64 (bits64 (S754_finite false m e)) = S754_finite false m e.
Proof.
  intros Hm He. unfold bits64, bits_of_sf, sign_bit.
  rewrite (proj2 (Z.ltb_ge (Zpos m) (2 ^ 52))) by lia.
  assert (exists r, 0 <= r < 2 ^ 52 /\ Zpos m = r + 2 ^ 52) as (r & Hr & Hmr)
    by (exists (Zpos m - 2 ^ 52); lia).
  set (q := e - sf_emin 52 11 + 1).
  assert (Hq : q = e + 1075) by (unfold q; replace (sf_emin 52 11) with (-1074) by done; lia).
  replace (0 + (q * 2 ^ 52 + (Zpos m - 2 ^ 52))) with (r + q * 2 ^ 52) by lia.
  unfold sf64, sf_of_bits.
  rewrite Z.mod_add, (Z.mod_small r), Z.div_add, (Z.div_small r), (Z.mod_small (0 + q)) by lia.
  rewrite (Z.bits_above_log2 _ (52 + 11)) by (try apply Z.log2_lt_pow2; lia).
  rewrite (proj2 (Z.eqb_neq (0 + q) (2 ^ 11 - 1))), (proj2 (Z.eqb_neq (0 + q) 0)) by lia.
  rewrite <- Hmr. f_equal. unfold q. lia.
Qed.

(** The number an integer becomes: its bits, moved to the top of 53. *)
Lemma f64_of_pos m :
  Zpos m < 2 ^ 53 ->
  exists mz k, f64_of_Z (Zpos m) = bits64 (S754_finite false mz (- k)) /\
    sf64 (f64_of_Z (Zpos m)) = S754_finite false mz (- k) /\
    Zpos mz = Zpos m * 2 ^ k /\ k = 52 - Z.log2 (Zpos m) /\ 0 <= k <= 52 /\
    Z.log2 (Zpos mz) + 1 = 53.
Proof.
  intros Hz. assert (Z.log2 (Zpos m) < 53) by (apply Z.log2_lt_pow2; lia).
  pose proof (Z.log2_nonneg (Zpos m)).
  unfold f64_of_Z, binary_normalize.
  destruct (binary_round_exact false m 0) as (mz & -> & Hmz & Hr); [lia..|].
  exists mz, (52 - Z.log2 (Zpos m)). rewrite sf64_bits64 by lia.
  replace (Z.log2 (Zpos m) + 1 + 0 - 53) with (- (52 - Z.log2 (Zpos m))) by lia.
  replace (53 - (Z.log2 (Zpos m) + 1)) with (52 - Z.log2 (Zpos m)) in Hmz by lia.
  split_and!; try done; try lia. rewrite Hmz, Z.log2_mul_pow2; lia.
Qed.

(** Integers below 2^53 are converted without loss. *)
Lemma f64_of_Z_exact z : 0 <= z < 2 ^ 53 -> f64_to_Z (f64_of_Z z) = Some z.
Proof.
  intros Hz. destruct z as [|m|m]; [done| |lia].
  destruct (f64_of_pos m) as (mz & k & _ & Hsf & Hmz & _ & Hk & _); [lia|].
  unfold f64_to_Z. rewrite Hsf. cbv zeta. destruct (Z.leb_spec 0 (- k)) as [Hk'|Hk'].
  - replace k with 0 in * by lia. rewrite Hmz. simpl. f_equal. lia.
  - rewrite Z.opp_involutive, Hmz, Z.mod_mul, Z.div_mul by (apply Z.pow_nonzero; lia). done.
Qed.

(** Shifting out zeros loses nothing. *)
Lemma iter_pos_nat {A} (f : A -> A) n x : iter_pos f n x = Nat.iter (Pos.to_nat n) f x.
Proof.
  revert x. induction n as [n IH|n IH|]; intros x; cbn [iter_pos]; [| |done].
  - rewrite !IH, <- Nat.iter_add, Pos2Nat.inj_xI, Nat.iter_succ_r. f_equal. lia.
  - rewrite !IH, <- Nat.iter_add, Pos2Nat.inj_xO. f_equal. lia.
Qed.

Lemma shr_1_even k m :
  Nat.iter k shr_1 (Build_shr_record (Zpos m * 2 ^ Z.of_nat k) false false) =
  Build_shr_record (Zpos m) false false.
Proof.
  induction k as [|k IH]; [by rewrite Z.mul_1_r|]. rewrite Nat.iter_succ_r, <- IH. f_equal.
  replace (Zpos m * 2 ^ Z.of_nat (S k)) with (2 * (Zpos m * 2 ^ Z.of_nat k))
    by (rewrite Nat2Z.inj_succ, Z.pow_succ_r; lia).
  destruct (Zpos m * 2 ^ Z.of_nat k) as [|p|p] eqn:Hp; [..|done]; lia || done.
Qed.

Lemma binary_round_aux_exact s m k e :
  Z.log2 (Zpos m) + 1 = 53 -> 0 <= k -> -1074 <= e + k <= 971 ->
  binary_round_aux 53 1024 s (Zpos m * 2 ^ k) e loc_Exact = S754_finite s m (e + k).
Proof.
  intros Hm Hk He. unfold binary_round_aux.
  assert (shr_fexp 53 1024 (Zpos m * 2 ^ k) e loc_Exact =
    (Build_shr_record (Zpos m) false false, e + k)) as ->.
  { unfold shr_fexp. destruct (Zpos m * 2 ^ k) as [|p|p] eqn:Hp; [lia| |lia].
    unfold Zdigits2. rewrite digits2_log2, <- Hp, Z.log2_mul_pow2 by lia.
    assert (fexp 53 1024 (k + Z.log2 (Zpos m) + 1 + e) - e = k) as -> by (unfold fexp, emin; lia).
    cbn [shr_record_of_loc]. unfold shr. destruct k as [|k|k]; [|..|lia].
    - by rewrite Z.mul_1_r, Z.add_0_r.
    - rewrite iter_pos_nat. by rewrite <- (shr_1_even (Pos.to_nat k) m), positive_nat_Z. }
  cbn [shr_m loc_of_shr_record round_nearest_even]. rewrite shr_fexp_exact by lia. cbn [shr_m].
  by rewrite (proj2 (Z.leb_le (e + k) (1024 - 53))) by lia.
Qed.

(** Products that stay below 2^53 are exact: [a as f64 * b as f64]. *)
Lemma f64_mul_exact a b : 0 <= a -> 0 <= b -> a * b < 2 ^ 53 -> a < 2 ^ 53 -> b < 2 ^ 53 ->
  f64_mul (f64_of_Z a) (f64_of_Z b) = f64_of_Z (a * b).
Proof.
  intros Ha Hb Hab Ha' Hb'. destruct (decide (a = 0)) as [->|Ha0].
  { destruct b as [|b|b]; [done| |lia]. destruct (f64_of_pos b) as (mz & k & _ & Hsf & _); [lia|].
    unfold f64_mul. by rewrite Hsf. }
  destruct (decide (b = 0)) as [->|Hb0].
  { rewrite Z.mul_0_r. destruct a as [|a|a]; [done| |lia].
    destruct (f64_of_pos a) as (mz & k & _ & Hsf & _); [lia|]. unfold f64_mul. by rewrite Hsf. }
  destruct a as [|a|a]; [done| |lia]. destruct b as [|b|b]; [done| |lia].
  destruct (f64_of_pos a) as (ma & ka & _ & Hsa & Hma & Hka & ? & _); [lia|].
  destruct (f64_of_pos b) as (mb & kb & _ & Hsb & Hmb & Hkb & ? & _); [lia|].
  destruct (f64_of_pos (a * b)) as (mc & kc & Hc & _ & Hmc & Hkc & ? & Hlc); [lia|].
  change (Zpos a * Zpos b) with (Zpos (a * b)). rewrite Hc.
  unfold f64_mul. rewrite Hsa, Hsb. cbn [SFmul xorb]. f_equal.
  pose proof (Z.log2_mul_below (Zpos a) (Zpos b)) as Hlow. pose proof (Z.log2_mul_above (Zpos a) (Zpos b)) as Hup.
  rewrite <- Pos2Z.inj_mul in Hlow, Hup.
  assert (Hp : Zpos (ma * mb) = Zpos mc * 2 ^ (ka + kb - kc)).
  { rewrite Pos2Z.inj_mul, Hma, Hmb, Hmc, Pos2Z.inj_mul.
    replace (Zpos a * Zpos b * 2 ^ kc * 2 ^ (ka + kb - kc)) with (Zpos a * Zpos b * (2 ^ kc * 2 ^ (ka + kb - kc))) by lia.
    rewrite <- Z.pow_add_r by lia. replace (kc + (ka + kb - kc)) with (ka + kb) by lia.
    rewrite Z.pow_add_r by lia. lia. }
  rewrite Hp, binary_round_aux_exact by lia. f_equal. lia.
Qed.

(** Products of small integers too: [a as f64 * b as f64]. *)
Example f64_mul_example : f64_to_Z (f64_mul (f64_of_Z 4294967295) (f64_of_Z 100)) = Some 429496729500.
Proof. by vm_compute. Qed.

Example f64_of_f32_example : f64_of_f32 1056964608 = 4602678819172646912.
Proof. by vm_compute. Qed.

Example f64_of_u64_rounds : f64_to_Z (f64_of_Z 18446744073709551615) = Some 18446744073709551616.
Proof. by vm_compute. Qed.
