(* ===== verification/Ams.v ===== *)
(** * AMS frames (crates/tc-otel-ads: ams.rs, frame.rs, error.rs)

    The AMS Net ID, the 32-byte AMS header, the ADS write request, the 6-byte
    AMS/TCP prefix and the two frame types built from them, with their parsers
    and serialisers.  Indexing and slicing are explicit: an access out of
    range is [Panic]. *)

From S2P Require Import Prelude.
From S2P Require Import Text.
From Stdlib Require Import Ascii.

(** ** Errors (error.rs) *)

Inductive AdsError : Type :=
| InvalidVersion (v : Z)
| IncompleteMessage (expected got : Z)
| InvalidStringEncoding (msg : string)
| InvalidTimestamp (msg : string)
| BufferError (msg : string)
| ParseError (msg : string)
| IoError (msg : string)
| ConversionError (msg : string).

(** [&data[a..b]] in a function that returns [Result]. *)
Definition slice_or_panic {E} (data : bytes) (a b : nat) : outcome E bytes :=
  match slice_at data a b with
  | Some s => Ok s
  | None => Panic
  end.

(** [uN::from_le_bytes(data[a..b])]. *)
Definition le_or_panic {E} (data : bytes) (a b : nat) : outcome E Z :=
  (s <-- slice_or_panic data a b ;; Ok (le_decode s))%rust.

Definition len (data : bytes) : Z := Z.of_nat (length data).

(** ** Protocol constants (ams.rs) *)

Definition ADS_CMD_READ_DEVICE_INFO : Z := 1.
Definition ADS_CMD_READ : Z := 2.
Definition ADS_CMD_WRITE : Z := 3.
Definition ADS_CMD_READ_STATE : Z := 4.
Definition ADS_CMD_WRITE_CONTROL : Z := 5.
Definition ADS_CMD_ADD_NOTIFICATION : Z := 6.
Definition ADS_CMD_DEL_NOTIFICATION : Z := 7.
Definition ADS_CMD_NOTIFICATION : Z := 8.
Definition ADS_CMD_READ_WRITE : Z := 9.
Definition ADS_STATE_REQUEST : Z := 4.
Definition ADS_STATE_RESPONSE : Z := 5.
Definition ADSERR_DEVICE_SRVNOTSUPP : Z := 1793.

(** ** AmsNetId *)

Record AmsNetId := mkNetId { net_bytes : bytes }.

#[export] Instance AmsNetId_eq_dec : EqDecision AmsNetId.
Proof. solve_decision. Defined.
#[export] Program Instance AmsNetId_countable : Countable AmsNetId :=
  inj_countable' net_bytes mkNetId _.
Next Obligation. by intros []. Qed.

Definition wf_net (n : AmsNetId) : Prop := length (net_bytes n) = 6%nat /\ is_bytes (net_bytes n).

(** [AmsNetId::from_str_ref]. *)
Fixpoint parse_octets (parts : list string) : outcome AdsError bytes :=
  match parts with
  | [] => Ok []
  | part :: parts =>
    match parse_uint 255 part with
    | None => Err (ParseError ("Invalid AMS Net ID octet: " +:+ part))
    | Some b => (bs <-- parse_octets parts ;; Ok (b :: bs))%rust
    end
  end.

Definition AmsNetId_from_str_ref (s : string) : outcome AdsError AmsNetId :=
  let parts := split_on "."%char s in
  if negb (length parts =? 6)%nat then
    Err (ParseError ("Invalid AMS Net ID format: expected 6 parts, got " +:+ dec_nat (length parts)))
  else (bs <-- parse_octets parts ;; Ok (mkNetId bs))%rust.

Fixpoint join (sep : string) (parts : list string) : string :=
  match parts with
  | [] => ""
  | [p] => p
  | p :: ps => p +:+ sep +:+ join sep ps
  end.

(** [impl Display for AmsNetId]. *)
Definition AmsNetId_to_string (n : AmsNetId) : string := join "." (map dec (net_bytes n)).

(** ** AmsHeader *)

Record AmsHeader := mkHeader {
  target_net_id : AmsNetId;
  target_port : Z;
  source_net_id : AmsNetId;
  source_port : Z;
  command_id : Z;
  state_flags : Z;
  data_length : Z;
  error_code : Z;
  invoke_id : Z;
}.

Record wf_header (h : AmsHeader) : Prop := {
  wf_h_target : wf_net (target_net_id h);
  wf_h_target_port : in_width 16 (target_port h);
  wf_h_source : wf_net (source_net_id h);
  wf_h_source_port : in_width 16 (source_port h);
  wf_h_command : in_width 16 (command_id h);
  wf_h_flags : in_width 16 (state_flags h);
  wf_h_length : in_width 32 (data_length h);
  wf_h_error : in_width 32 (error_code h);
  wf_h_invoke : in_width 32 (invoke_id h);
}.

Definition AmsHeader_parse (data : bytes) : outcome AdsError AmsHeader :=
  if (length data <? 32)%nat then
    Err (ParseError ("AMS header too short: " +:+ dec_nat (length data) +:+ " bytes"))
  else
    (target <-- slice_or_panic data 0 6 ;;
     target_port <-- le_or_panic data 6 8 ;;
     source <-- slice_or_panic data 8 14 ;;
     source_port <-- le_or_panic data 14 16 ;;
     command_id <-- le_or_panic data 16 18 ;;
     state_flags <-- le_or_panic data 18 20 ;;
     data_length <-- le_or_panic data 20 24 ;;
     error_code <-- le_or_panic data 24 28 ;;
     invoke_id <-- le_or_panic data 28 32 ;;
     Ok (mkHeader (mkNetId target) target_port (mkNetId source) source_port command_id
           state_flags data_length error_code invoke_id))%rust.

Definition AmsHeader_serialize (h : AmsHeader) : bytes :=
  net_bytes (target_net_id h) ++ le_encode 2 (target_port h) ++
  net_bytes (source_net_id h) ++ le_encode 2 (source_port h) ++
  le_encode 2 (command_id h) ++ le_encode 2 (state_flags h) ++
  le_encode 4 (data_length h) ++ le_encode 4 (error_code h) ++ le_encode 4 (invoke_id h).

(** [AmsHeader::make_response]: the ends are swapped, the invoke id echoed. *)
Definition AmsHeader_make_response (h : AmsHeader) (error_code : Z) : AmsHeader :=
  mkHeader (source_net_id h) (source_port h) (target_net_id h) (target_port h)
    (command_id h) ADS_STATE_RESPONSE 4 error_code (invoke_id h).

(** ** AdsWriteRequest *)

Record AdsWriteRequest := mkWrite {
  index_group : Z;
  index_offset : Z;
  write_data : bytes;
}.

Definition AdsWriteRequest_parse (data : bytes) : outcome AdsError AdsWriteRequest :=
  if (length data <? 12)%nat then
    Err (ParseError ("ADS Write request too short: " +:+ dec_nat (length data) +:+ " bytes"))
  else
    (index_group <-- le_or_panic data 0 4 ;;
     index_offset <-- le_or_panic data 4 8 ;;
     write_length <-- le_or_panic data 8 12 ;;
     if len data <? 12 + write_length then
       Err (ParseError ("ADS Write data incomplete: expected " +:+ dec write_length +:+ " bytes"))
     else
       body <-- slice_or_panic data 12 (12 + Z.to_nat write_length) ;;
       Ok (mkWrite index_group index_offset body))%rust.

Definition AdsWriteRequest_serialize (w : AdsWriteRequest) : bytes :=
  le_encode 4 (index_group w) ++ le_encode 4 (index_offset w) ++
  le_encode 4 (len (write_data w)) ++ write_data w.

(** ** AMS/TCP *)

Record AmsTcpHeader := mkTcp { reserved : Z; tcp_data_length : Z }.

Definition AmsTcpHeader_parse (data : bytes) : outcome AdsError AmsTcpHeader :=
  if (length data <? 6)%nat then Err (IncompleteMessage 6 (len data))
  else
    (reserved <-- le_or_panic data 0 2 ;;
     data_length <-- le_or_panic data 2 6 ;;
     Ok (mkTcp reserved data_length))%rust.

Definition AmsTcpHeader_serialize (t : AmsTcpHeader) : bytes :=
  le_encode 2 (reserved t) ++ le_encode 4 (tcp_data_length t).

Record AmsTcpFrame := mkTcpFrame {
  tcp_header : AmsTcpHeader;
  ams_header : AmsHeader;
  tcp_payload : bytes;
}.

Definition AmsTcpFrame_parse (data : bytes) : outcome AdsError AmsTcpFrame :=
  if (length data <? 38)%nat then Err (IncompleteMessage 38 (len data))
  else
    (t <-- slice_or_panic data 0 6 ;;
     tcp_header <-- AmsTcpHeader_parse t ;;
     h <-- slice_or_panic data 6 38 ;;
     ams_header <-- AmsHeader_parse h ;;
     if len data <? 6 + tcp_data_length tcp_header then
       Err (IncompleteMessage (6 + tcp_data_length tcp_header) (len data))
     else
       payload <-- slice_or_panic data 38 (length data) ;;
       Ok (mkTcpFrame tcp_header ams_header payload))%rust.

Definition AmsTcpFrame_make_response (f : AmsTcpFrame) (code : Z) (response : bytes)
    : AmsTcpFrame :=
  let n := wrap 32 (len response) in
  let r := AmsHeader_make_response (ams_header f) code in
  mkTcpFrame (mkTcp 0 (wrap 32 (32 + n)))
    (mkHeader (target_net_id r) (target_port r) (source_net_id r) (source_port r)
       (command_id r) (state_flags r) n (error_code r) (invoke_id r))
    response.

Definition AmsTcpFrame_serialize (f : AmsTcpFrame) : bytes :=
  AmsTcpHeader_serialize (tcp_header f) ++ AmsHeader_serialize (ams_header f) ++ tcp_payload f.

Definition AmsTcpFrame_extract_write_request (f : AmsTcpFrame) : outcome AdsError AdsWriteRequest :=
  if negb (command_id (ams_header f) =? ADS_CMD_WRITE) then
    Err (ParseError ("Expected Write command (" +:+ dec ADS_CMD_WRITE +:+ "), got " +:+
                     dec (command_id (ams_header f))))
  else AdsWriteRequest_parse (tcp_payload f).

(** ** AmsFrame (frame.rs) *)

Record AmsFrame := mkFrame { header : AmsHeader; payload : bytes }.

Definition AmsFrame_decode (data : bytes) : outcome AdsError AmsFrame :=
  if (length data <? 32)%nat then
    Err (ParseError ("AMS frame too short: " +:+ dec_nat (length data) +:+ " bytes (minimum 32)"))
  else
    (header <-- AmsHeader_parse data ;;
     payload <-- (if (32 <? length data)%nat then slice_or_panic data 32 (length data) else Ok []) ;;
     Ok (mkFrame header payload))%rust.

Definition AmsFrame_encode (f : AmsFrame) : bytes := AmsHeader_serialize (header f) ++ payload f.

Definition AmsFrame_encode_with_tcp_header (f : AmsFrame) : bytes :=
  let frame_bytes := AmsFrame_encode f in
  le_encode 2 0 ++ le_encode 4 (len frame_bytes) ++ frame_bytes.

Definition AmsFrame_build_response (f : AmsFrame) (response : bytes) : AmsFrame :=
  mkFrame
    (mkHeader (source_net_id (header f)) (source_port (header f)) (target_net_id (header f))
       (target_port (header f)) (command_id (header f)) 5 (wrap 32 (len response)) 0
       (invoke_id (header f)))
    response.

(** ** Lemmas *)

Ltac destruct_length H :=
  repeat match type of H with
  | length ?l = S _ => destruct l as [|? l]; [discriminate H|]; cbn [length] in H;
                       apply eq_add_S in H
  | length ?l = O => destruct l as [|? l]; [clear H|discriminate H]
  end.

Lemma le_or_panic_spec {E} (data : bytes) a b :
  (a <= b)%nat -> (b <= length data)%nat ->
  le_or_panic (E:=E) data a b = Ok (le_decode (take (b - a) (drop a data))).
Proof. intros. unfold le_or_panic, slice_or_panic. by rewrite slice_at_spec. Qed.

Lemma slice_or_panic_spec {E} (data : bytes) a b :
  (a <= b)%nat -> (b <= length data)%nat ->
  slice_or_panic (E:=E) data a b = Ok (take (b - a) (drop a data)).
Proof. intros. unfold slice_or_panic. by rewrite slice_at_spec. Qed.

(** Resolves the reads of a parser on a buffer known to be long enough. *)
Ltac eval_reads :=
  repeat (first [rewrite le_or_panic_spec by (simpl; lia)
                |rewrite slice_or_panic_spec by (simpl; lia)]; cbn [outcome_bind]).

Lemma in_width_le_roundtrip n v :
  in_width (8 * Z.of_nat n) v -> le_decode (le_encode n v) = v.
Proof.
  unfold in_width. intros H. apply le_decode_encode.
  change 256 with (2 ^ 8). by rewrite <- Z.pow_mul_r by lia.
Qed.

Lemma le_decode_in_width n bs :
  length bs = n -> is_bytes bs -> in_width (8 * Z.of_nat n) (le_decode bs).
Proof.
  intros <- Hbs. unfold in_width. rewrite Z.pow_mul_r by lia. by apply le_decode_bound.
Qed.

(** Field [i] of a buffer made of fields is at the sum of the earlier lengths. *)
Lemma slice_field (pre post : bytes) (fs : list bytes) i f off n :
  fs !! i = Some f -> off = (length pre + length (mjoin (take i fs)))%nat -> n = length f ->
  slice_at (pre ++ mjoin fs ++ post) off (off + n) = Some f.
Proof.
  intros Hi -> ->. rewrite <- (take_drop_middle fs i f Hi) at 1.
  rewrite join_app. change (mjoin (f :: drop (S i) fs)) with (f ++ mjoin (drop (S i) fs)).
  replace (pre ++ (mjoin (take i fs) ++ f ++ mjoin (drop (S i) fs)) ++ post) with
    ((pre ++ mjoin (take i fs)) ++ f ++ (mjoin (drop (S i) fs) ++ post))
    by by rewrite <- !app_assoc.
  apply slice_at_app; [|done]. by rewrite length_app.
Qed.

Lemma le_field {E} (pre post : bytes) (fs : list bytes) i off n v :
  fs !! i = Some (le_encode n v) -> in_width (8 * Z.of_nat n) v ->
  off = (length pre + length (mjoin (take i fs)))%nat ->
  le_or_panic (E:=E) (pre ++ mjoin fs ++ post) off (off + n) = Ok v.
Proof.
  intros Hi Hv Hoff. unfold le_or_panic, slice_or_panic.
  erewrite slice_field; [|done..|by rewrite length_le_encode]. simpl.
  by rewrite in_width_le_roundtrip.
Qed.

(** A word read where it was written. *)
Lemma le_word_at {E} (pre : bytes) n v post off e :
  off = length pre -> e = (off + n)%nat -> in_width (8 * Z.of_nat n) v ->
  le_or_panic (E:=E) (pre ++ le_encode n v ++ post) off e = Ok v.
Proof.
  intros -> -> Hv. unfold le_or_panic, slice_or_panic.
  rewrite slice_at_app by (done || by rewrite length_le_encode). simpl. by rewrite in_width_le_roundtrip.
Qed.

(** Three words, read one after the other. *)
Lemma three_words {E} a b c (rest : bytes) :
  in_width 32 a -> in_width 32 b -> in_width 32 c ->
  let l := le_encode 4 a ++ le_encode 4 b ++ le_encode 4 c ++ rest in
  le_or_panic (E:=E) l 0 4 = Ok a /\ le_or_panic (E:=E) l 4 8 = Ok b /\ le_or_panic (E:=E) l 8 12 = Ok c.
Proof.
  intros Ha Hb Hc l. subst l. split_and!.
  - by apply (le_word_at []).
  - by apply (le_word_at (le_encode 4 a)).
  - rewrite (app_assoc (le_encode 4 a)). by apply (le_word_at (le_encode 4 a ++ le_encode 4 b)).
Qed.

Lemma length_AmsHeader_serialize h : wf_header h -> length (AmsHeader_serialize h) = 32%nat.
Proof.
  intros [[Ht _] _ [Hs _] _ _ _ _ _ _]. unfold AmsHeader_serialize.
  rewrite !length_app, !length_le_encode, Ht, Hs. done.
Qed.

Lemma AmsHeader_parse_app h rest :
  wf_header h -> AmsHeader_parse (AmsHeader_serialize h ++ rest) = Ok h.
Proof.
  intros Hwf. unfold AmsHeader_parse. pose proof (length_AmsHeader_serialize h Hwf) as Hlen.
  rewrite length_app, Hlen. cbn [Nat.ltb Nat.leb Nat.add].
  destruct Hwf as [[Ht _] Hp [Hs _] Hq Hc Hf Hl He Hi].
  destruct h as [[t] p [s] q c f l e i]; simpl in *.
  destruct_length Ht. destruct_length Hs. unfold AmsHeader_serialize; simpl net_bytes.
  cbn [app le_encode target_port source_port command_id state_flags data_length error_code
       invoke_id target_net_id source_net_id net_bytes].
  eval_reads. cbn [take drop Nat.sub].
  do 2 f_equal; first [by apply (in_width_le_roundtrip 2) | by apply (in_width_le_roundtrip 4)].
Qed.

(** Only the first 32 bytes are read. *)
Lemma AmsHeader_parse_take data :
  (32 <= length data)%nat -> AmsHeader_parse (take 32 data) = AmsHeader_parse data.
Proof.
  intros Hl. unfold AmsHeader_parse. rewrite length_take, Nat.min_l by done.
  rewrite (proj2 (Nat.ltb_ge _ _)) by lia. rewrite (proj2 (Nat.ltb_ge (length data) 32)) by lia.
  unfold le_or_panic, slice_or_panic.
  assert (Hs : forall a b, (a <= b <= 32)%nat -> slice_at (take 32 data) a b = slice_at data a b).
  { intros a b Hab. rewrite !slice_at_spec by (rewrite ?length_take; lia).
    rewrite skipn_firstn_comm, take_take. do 2 f_equal. lia. }
  by rewrite !Hs by lia.
Qed.

Lemma AmsHeader_parse_wf data :
  is_bytes data -> (32 <= length data)%nat ->
  exists h, AmsHeader_parse data = Ok h /\ wf_header h /\ AmsHeader_serialize h = take 32 data.
Proof.
  intros Hb Hl. unfold AmsHeader_parse.
  rewrite (proj2 (Nat.ltb_ge _ _)) by lia.
  assert (exists d rest, data = d ++ rest /\ length d = 32%nat) as (d & rest & -> & H32).
  { exists (take 32 data), (drop 32 data). rewrite take_drop, length_take. split; [done|lia]. }
  apply is_bytes_app in Hb as [Hb _]. rewrite (take_app_length' d rest 32) by done.
  destruct_length H32.
  cbn [app]. eval_reads. cbn [take drop Nat.sub]. rewrite ?take_0. eexists; split; [done|].
  unfold is_bytes in Hb. rewrite !Forall_cons in Hb. destruct_and! Hb.
  split.
  - constructor; cbn [net_bytes target_net_id source_net_id target_port source_port command_id
      state_flags data_length error_code invoke_id].
    all: try (split; [reflexivity|repeat apply is_bytes_cons; first [done | apply is_bytes_nil]]).
    all: first [apply (le_decode_in_width 2); [done|by auto with rust]
               |apply (le_decode_in_width 4); [done|by auto with rust]].
  - unfold AmsHeader_serialize; cbn [net_bytes target_net_id source_net_id target_port source_port
      command_id state_flags data_length error_code invoke_id].
    rewrite ?(le_encode_decode [_; _]), ?(le_encode_decode [_; _; _; _]) by auto with rust.
    done.
Qed.

Lemma octet_text b :
  is_u8 b -> parse_uint 255 (dec b) = Some b /\ 46 ∉ bytes_of_string (dec b).
Proof.
  intros Hb. unfold is_u8 in Hb.
  assert (Hall : forallb (fun n => let b := Z.of_nat n in
            bool_decide (parse_uint 255 (dec b) = Some b) &&
            bool_decide (46 ∉ bytes_of_string (dec b))) (seq 0 256) = true) by (vm_compute; done).
  rewrite forallb_forall in Hall. specialize (Hall (Z.to_nat b)).
  rewrite Z2Nat.id in Hall by lia.
  assert (In (Z.to_nat b) (seq 0 256)) as Hin by (apply in_seq; lia).
  apply Hall in Hin. rewrite andb_true_iff, !bool_decide_eq_true in Hin. done.
Qed.

Lemma split_join_dec bs :
  is_bytes bs -> bs <> [] -> split_on "."%char (join "." (map dec bs)) = map dec bs.
Proof.
  induction 1 as [|b bs Hb Hbs IH]; [done|]. intros _.
  destruct (octet_text b Hb) as [_ Hdot]. destruct bs as [|c bs].
  - simpl. by apply split_on_absent.
  - cbn [map join]. change (dec b +:+ "." +:+ ?r) with (dec b +:+ String "." r).
    rewrite split_on_app by done. f_equal. by apply IH.
Qed.

Lemma parse_octets_dec bs : is_bytes bs -> parse_octets (map dec bs) = Ok bs.
Proof.
  induction 1 as [|b bs Hb Hbs IH]; [done|]. cbn [map parse_octets].
  destruct (octet_text b Hb) as [-> _]. by rewrite IH.
Qed.

Lemma AmsNetId_from_to_string n :
  wf_net n -> AmsNetId_from_str_ref (AmsNetId_to_string n) = Ok n.
Proof.
  intros [Hl Hb]. destruct n as [bs]; simpl in *.
  unfold AmsNetId_from_str_ref, AmsNetId_to_string; simpl.
  rewrite split_join_dec by (try done; by intros ->). rewrite length_map, Hl. simpl.
  by rewrite parse_octets_dec.
Qed.

Lemma AmsNetId_to_string_no_slash n : wf_net n -> 47 ∉ bytes_of_string (AmsNetId_to_string n).
Proof.
  intros [_ Hb] Hin. unfold AmsNetId_to_string in Hin.
  assert (Hall : Forall (fun b => b <> 47) (bytes_of_string (join "." (map dec (net_bytes n))))).
  { assert (Hd : forall b, is_u8 b -> Forall (fun b => b <> 47) (bytes_of_string (dec b))).
    { intros b Hu. eapply Forall_impl; [apply dec_digits; unfold is_u8 in Hu; lia|].
      unfold is_digit. intros. lia. }
    clear Hin. induction Hb as [|b bs Hb Hbs IH]; [constructor|].
    destruct bs as [|b' bs]; [by apply Hd|]. cbn [map join] in *.
    rewrite !bytes_of_string_app. apply Forall_app. split; [by apply Hd|].
    apply Forall_app. split; [by repeat constructor|done]. }
  rewrite Forall_forall in Hall. by apply (Hall 47).
Qed.

Lemma AmsFrame_decode_encode f :
  wf_header (header f) -> AmsFrame_decode (AmsFrame_encode f) = Ok f.
Proof.
  intros Hwf. destruct f as [h p]; simpl in *. unfold AmsFrame_decode, AmsFrame_encode; simpl.
  pose proof (length_AmsHeader_serialize h Hwf) as Hl.
  rewrite length_app, Hl. rewrite (proj2 (Nat.ltb_ge _ _)) by lia.
  rewrite AmsHeader_parse_app by done. cbn [outcome_bind].
  destruct p as [|b p].
  - done.
  - rewrite (proj2 (Nat.ltb_lt _ _)) by (simpl; lia).
    rewrite slice_or_panic_spec by (rewrite ?length_app, ?Hl; simpl; lia). cbn [outcome_bind].
    rewrite drop_app_length' by done. rewrite take_ge by (simpl; lia). done.
Qed.

Lemma length_AmsFrame_encode f :
  wf_header (header f) -> length (AmsFrame_encode f) = (32 + length (payload f))%nat.
Proof. intros Hwf. unfold AmsFrame_encode. by rewrite length_app, length_AmsHeader_serialize. Qed.

Lemma AmsTcpHeader_parse_serialize t :
  in_width 16 (reserved t) -> in_width 32 (tcp_data_length t) ->
  AmsTcpHeader_parse (AmsTcpHeader_serialize t) = Ok t.
Proof.
  intros Hr Hd. destruct t as [r d]; simpl in *.
  unfold AmsTcpHeader_parse, AmsTcpHeader_serialize.
  cbn [reserved tcp_data_length le_encode app length Nat.ltb Nat.leb]. eval_reads.
  cbn [take drop Nat.sub].
  do 2 f_equal; [by apply (in_width_le_roundtrip 2) | by apply (in_width_le_roundtrip 4)].
Qed.

Lemma AmsTcpFrame_parse_serialize t h p :
  in_width 16 (reserved t) -> tcp_data_length t = 32 + len p -> in_width 32 (32 + len p) ->
  wf_header h ->
  AmsTcpFrame_parse (AmsTcpFrame_serialize (mkTcpFrame t h p)) = Ok (mkTcpFrame t h p).
Proof.
  intros Hr Hd Hw Hwf. unfold AmsTcpFrame_parse, AmsTcpFrame_serialize; cbn [tcp_header ams_header tcp_payload].
  pose proof (length_AmsHeader_serialize h Hwf) as Hl.
  assert (Ht : length (AmsTcpHeader_serialize t) = 6%nat) by done.
  rewrite !length_app, Hl, Ht. rewrite (proj2 (Nat.ltb_ge _ _)) by lia.
  unfold slice_or_panic. rewrite (slice_at_head (AmsTcpHeader_serialize t)) by done.
  cbn [outcome_bind]. rewrite AmsTcpHeader_parse_serialize by (rewrite ?Hd; done).
  cbn [outcome_bind].
  rewrite (slice_at_app (AmsTcpHeader_serialize t) (AmsHeader_serialize h)) by (rewrite ?Hl; done).
  cbn [outcome_bind]. rewrite <- (app_nil_r (AmsHeader_serialize h)) at 1.
  rewrite AmsHeader_parse_app by done. cbn [outcome_bind].
  rewrite (proj2 (Z.ltb_ge _ _)).
  2:{ unfold len. rewrite !length_app, Hl, Ht, Hd. unfold len. lia. }
  rewrite (app_assoc (AmsTcpHeader_serialize t)).
  rewrite <- (app_nil_r p) at 1.
  rewrite (slice_at_app (AmsTcpHeader_serialize t ++ AmsHeader_serialize h) p [])
    by (rewrite ?length_app, ?Hl, ?Ht; lia).
  done.
Qed.

Lemma AdsWriteRequest_head g o n (rest : bytes) :
  in_width 32 g -> in_width 32 o -> in_width 32 n ->
  AdsWriteRequest_parse (le_encode 4 g ++ le_encode 4 o ++ le_encode 4 n ++ rest) =
  if len rest <? n then
    Err (ParseError ("ADS Write data incomplete: expected " +:+ dec n +:+ " bytes"))
  else Ok (mkWrite g o (take (Z.to_nat n) rest)).
Proof.
  intros Hg Ho Hn. unfold AdsWriteRequest_parse.
  rewrite !length_app, !length_le_encode. rewrite (proj2 (Nat.ltb_ge _ _)) by lia.
  unfold le_or_panic, slice_or_panic.
  rewrite (slice_at_head (le_encode 4 g)) by done. cbn [outcome_bind].
  rewrite (slice_at_app (le_encode 4 g) (le_encode 4 o)) by done. cbn [outcome_bind].
  rewrite (app_assoc (le_encode 4 g)).
  rewrite (slice_at_app (le_encode 4 g ++ le_encode 4 o) (le_encode 4 n)) by done.
  cbn [outcome_bind]. rewrite !(in_width_le_roundtrip 4) by done.
  set (hd := (le_encode 4 g ++ le_encode 4 o) ++ le_encode 4 n).
  assert (Hhd : length hd = 12%nat) by done.
  rewrite app_assoc. fold hd.
  replace (len (hd ++ rest) <? 12 + n) with (len rest <? n).
  2:{ unfold len. rewrite length_app, Hhd.
      case (Z.ltb_spec (Z.of_nat (length rest)) n);
        case (Z.ltb_spec (Z.of_nat (12 + length rest)) (12 + n)); lia. }
  case_match eqn:Hlt; [done|]. to_prop. unfold len, in_width in *.
  rewrite slice_at_spec by (rewrite ?length_app, ?Hhd; lia). cbn [outcome_bind].
  rewrite drop_app_length' by done. do 2 f_equal. f_equal. lia.
Qed.

(** ** Theorems *)

(** every well-formed AMS header survives serialisation: parsing the 32
    bytes of [AmsHeader_serialize], whatever follows them in the buffer,
    returns the header, and the serialised form is exactly 32 bytes. *)
Theorem ams_header_roundtrip h rest :
  wf_header h ->
  AmsHeader_parse (AmsHeader_serialize h ++ rest) = Ok h /\
  length (AmsHeader_serialize h) = 32%nat.
Proof. intros Hwf. split; [by apply AmsHeader_parse_app | by apply length_AmsHeader_serialize]. Qed.

(** [AmsHeader_parse] is total on bytes and loses nothing: a buffer of at
    least 32 bytes parses to a header whose fields are in range and whose
    serialisation is the first 32 bytes; a shorter one is an error, never a
    panic. *)
Theorem ams_header_parse_total data :
  is_bytes data ->
  if (length data <? 32)%nat
  then exists msg, AmsHeader_parse data = Err (ParseError msg)
  else exists h, AmsHeader_parse data = Ok h /\ wf_header h /\
                 AmsHeader_serialize h = take 32 data.
Proof.
  intros Hb. destruct (Nat.ltb_spec (length data) 32) as [Hl|Hl].
  - unfold AmsHeader_parse. rewrite (proj2 (Nat.ltb_lt _ _)) by done. eauto.
  - by apply AmsHeader_parse_wf.
Qed.

(** the two transports agree on a frame: the bytes written with the TCP
    prefix parse back as an AMS/TCP frame with the same header and payload and
    a consistent length field, and stripping the 6-byte prefix leaves the raw
    form that the MQTT transport decodes to the same frame. *)
Theorem ams_frame_transports_agree f :
  wf_header (header f) -> in_width 32 (32 + len (payload f)) ->
  AmsTcpFrame_parse (AmsFrame_encode_with_tcp_header f) =
    Ok (mkTcpFrame (mkTcp 0 (32 + len (payload f))) (header f) (payload f)) /\
  AmsFrame_decode (drop 6 (AmsFrame_encode_with_tcp_header f)) = Ok f.
Proof.
  intros Hwf Hw. split.
  - rewrite <- AmsTcpFrame_parse_serialize by done. f_equal.
    unfold AmsFrame_encode_with_tcp_header, AmsTcpFrame_serialize, AmsTcpHeader_serialize, len.
    cbn [tcp_header ams_header tcp_payload reserved tcp_data_length].
    rewrite length_AmsFrame_encode by done. rewrite <- !app_assoc. unfold AmsFrame_encode.
    do 3 f_equal. lia.
  - change (drop 6 (AmsFrame_encode_with_tcp_header f)) with (AmsFrame_encode f).
    by apply AmsFrame_decode_encode.
Qed.

(** an AMS Net ID printed with [Display] parses back to itself, for every
    six octets. *)
Theorem ams_net_id_roundtrip n :
  wf_net n -> AmsNetId_from_str_ref (AmsNetId_to_string n) = Ok n.
Proof. apply AmsNetId_from_to_string. Qed.

(** an ADS write request round-trips, and a request whose body is cut
    short is refused: after the 12-byte header, [k] of the announced bytes
    give back the whole request when all are there and an error otherwise. *)
Theorem ads_write_request_roundtrip w k :
  in_width 32 (index_group w) -> in_width 32 (index_offset w) ->
  in_width 32 (len (write_data w)) ->
  if (k <? length (write_data w))%nat
  then exists msg, AdsWriteRequest_parse (take (12 + k) (AdsWriteRequest_serialize w)) =
                   Err (ParseError msg)
  else AdsWriteRequest_parse (take (12 + k) (AdsWriteRequest_serialize w)) = Ok w.
Proof.
  intros Hg Ho Hn. destruct w as [g o d]; cbn [index_group index_offset write_data] in *.
  unfold AdsWriteRequest_serialize; cbn [index_group index_offset write_data].
  rewrite (app_assoc (le_encode 4 o)), (app_assoc (le_encode 4 g)), take_app_add' by done.
  rewrite <- !app_assoc, AdsWriteRequest_head by done.
  unfold len. rewrite length_take.
  destruct (Nat.ltb_spec k (length d)) as [Hk|Hk].
  - rewrite (proj2 (Z.ltb_lt _ _)) by lia. eauto.
  - rewrite (proj2 (Z.ltb_ge _ _)) by lia. rewrite Nat2Z.id, !take_ge; done || rewrite ?length_take; lia.
Qed.
