(* ===== verification/Models.v ===== *)
(** * Core data models (crates/tc-otel-core: models.rs)

    Log levels, metric, span and log entries, the OTLP records they become,
    and the shared resource attributes that identify a PLC runtime.  Calls to
    [Utc::now()] and [Uuid::new_v4()] are arguments ([now], [uuid]). *)

From S2P Require Import Prelude.
From S2P Require Import Text.
From S2P Require Import External.

Abbreviation attrs := (gmap string Value).

(** ** Resource helpers *)

(** [build_service_instance_id]. *)
Definition build_service_instance_id (app_name ams_net_id : string) (app_port : Z)
    : option string :=
  let has_app := negb (bool_decide (app_name = "")) in
  let has_net := negb (bool_decide (ams_net_id = "")) in
  let has_port := negb (app_port =? 0) in
  match has_app, has_net, has_port with
  | true, true, true => Some (app_name +:+ "@" +:+ ams_net_id +:+ ":" +:+ dec app_port)
  | true, true, false => Some (app_name +:+ "@" +:+ ams_net_id)
  | true, false, _ => Some app_name
  | false, true, true => Some (ams_net_id +:+ ":" +:+ dec app_port)
  | false, true, false => Some ams_net_id
  | false, false, _ => None
  end.

(** [if cond { map.insert(key, value); }]. *)
Definition insert_if (cond : bool) (key : string) (value : Value) (m : attrs) : attrs :=
  if cond then <[key := value]> m else m.

Definition nonempty (s : string) : bool := negb (bool_decide (s = "")).

(** [build_otel_resource]. *)
Definition build_otel_resource (project_name app_name hostname ams_net_id : string)
    (app_port ams_source_port : Z) : attrs :=
  let m := insert_if (nonempty project_name) "service.name" (VString project_name) ∅ in
  let m := match build_service_instance_id app_name ams_net_id app_port with
           | Some id => <["service.instance.id" := VString id]> m
           | None => m
           end in
  let m := insert_if (nonempty hostname) "host.name" (VString hostname) m in
  let m := insert_if (nonempty ams_net_id) "plc.ams_net_id" (VString ams_net_id) m in
  let m := insert_if (0 <? app_port) "plc.ams_app_port" (json_int app_port) m in
  insert_if (0 <? ams_source_port) "plc.ams_source_port" (json_int ams_source_port) m.

(** ** Enumerations *)

Inductive MetricKind := Gauge | Sum | Histogram.

Definition MetricKind_from_u8 (v : Z) : option MetricKind :=
  match v with
  | 0 => Some Gauge
  | 1 => Some Sum
  | 2 => Some Histogram
  | _ => None
  end.

Definition MetricKind_as_u8 (k : MetricKind) : Z :=
  match k with Gauge => 0 | Sum => 1 | Histogram => 2 end.

Inductive SpanKind := Internal | Server | Client | Producer | Consumer.

Definition SpanKind_from_u8 (v : Z) : option SpanKind :=
  match v with
  | 0 => Some Internal
  | 1 => Some Server
  | 2 => Some Client
  | 3 => Some Producer
  | 4 => Some Consumer
  | _ => None
  end.

Definition SpanKind_as_u8 (k : SpanKind) : Z :=
  match k with Internal => 0 | Server => 1 | Client => 2 | Producer => 3 | Consumer => 4 end.

Definition SpanKind_to_otel_kind (k : SpanKind) : Z :=
  match k with Internal => 1 | Server => 2 | Client => 3 | Producer => 4 | Consumer => 5 end.

Inductive SpanStatusCode := StatusUnset | StatusOk | StatusError.

Definition SpanStatusCode_from_u8 (v : Z) : option SpanStatusCode :=
  match v with
  | 0 => Some StatusUnset
  | 1 => Some StatusOk
  | 2 => Some StatusError
  | _ => None
  end.

Definition SpanStatusCode_as_u8 (c : SpanStatusCode) : Z :=
  match c with StatusUnset => 0 | StatusOk => 1 | StatusError => 2 end.

Definition SpanStatusCode_to_otel_status (c : SpanStatusCode) : Z :=
  match c with StatusUnset => 0 | StatusOk => 1 | StatusError => 2 end.

(** [impl Display] of the three enumerations. *)
Definition MetricKind_to_string (k : MetricKind) : string :=
  match k with Gauge => "Gauge" | Sum => "Sum" | Histogram => "Histogram" end.
Definition SpanKind_to_string (k : SpanKind) : string :=
  match k with
  | Internal => "Internal"
  | Server => "Server"
  | Client => "Client"
  | Producer => "Producer"
  | Consumer => "Consumer"
  end.
Definition SpanStatusCode_to_string (c : SpanStatusCode) : string :=
  match c with StatusUnset => "Unset" | StatusOk => "Ok" | StatusError => "Error" end.

Inductive LogLevel := LTrace | LDebug | LInfo | LWarn | LError | LFatal.

Definition LogLevel_from_u8 (v : Z) : option LogLevel :=
  match v with
  | 0 => Some LTrace
  | 1 => Some LDebug
  | 2 => Some LInfo
  | 3 => Some LWarn
  | 4 => Some LError
  | 5 => Some LFatal
  | _ => None
  end.

Definition LogLevel_as_u8 (l : LogLevel) : Z :=
  match l with LTrace => 0 | LDebug => 1 | LInfo => 2 | LWarn => 3 | LError => 4 | LFatal => 5 end.

Definition LogLevel_to_otel_severity_number (l : LogLevel) : Z :=
  match l with LTrace => 1 | LDebug => 5 | LInfo => 9 | LWarn => 13 | LError => 17 | LFatal => 21 end.

Definition LogLevel_to_otel_severity_text (l : LogLevel) : string :=
  match l with
  | LTrace => "TRACE"
  | LDebug => "DEBUG"
  | LInfo => "INFO"
  | LWarn => "WARN"
  | LError => "ERROR"
  | LFatal => "FATAL"
  end.

(** [impl Display for LogLevel]. *)
Definition LogLevel_to_string (l : LogLevel) : string :=
  match l with
  | LTrace => "Trace"
  | LDebug => "Debug"
  | LInfo => "Info"
  | LWarn => "Warn"
  | LError => "Error"
  | LFatal => "Fatal"
  end.

#[export] Instance MetricKind_eq_dec : EqDecision MetricKind.
Proof. solve_decision. Defined.
#[export] Instance LogLevel_eq_dec : EqDecision LogLevel.
Proof. solve_decision. Defined.

(** [[0u8; n]]. *)
Definition zeros (n : nat) : bytes := replicate n 0.

Section Models.
Context `{Ext : External}.

(** ** Metrics *)

Record MetricEntry := mkMetricEntry {
  me_name : string;
  me_description : string;
  me_unit : string;
  me_kind : MetricKind;
  me_value : Z;
  me_timestamp : DateTime;
  me_source : string;
  me_hostname : string;
  me_ams_net_id : string;
  me_ams_source_port : Z;
  me_ams_app_port : Z;
  me_task_index : Z;
  me_task_name : string;
  me_task_cycle_counter : Z;
  me_app_name : string;
  me_project_name : string;
  me_scope_namespace : string;
  me_attributes : attrs;
  me_histogram_bounds : list Z;
  me_histogram_counts : list Z;
  me_histogram_count : Z;
  me_histogram_sum : Z;
  me_is_monotonic : bool;
  me_trace_id : bytes;
  me_span_id : bytes;
}.

(** [MetricEntry::gauge]; float fields are the bit patterns of [f64]. *)
Definition MetricEntry_gauge (now : DateTime) (name : string) (value : Z) : MetricEntry :=
  {| me_name := name; me_description := ""; me_unit := ""; me_kind := Gauge; me_value := value;
     me_timestamp := now; me_source := ""; me_hostname := ""; me_ams_net_id := "";
     me_ams_source_port := 0; me_ams_app_port := 0; me_task_index := 0; me_task_name := "";
     me_task_cycle_counter := 0; me_app_name := ""; me_project_name := "";
     me_scope_namespace := ""; me_attributes := ∅; me_histogram_bounds := [];
     me_histogram_counts := []; me_histogram_count := 0; me_histogram_sum := 0;
     me_is_monotonic := false; me_trace_id := zeros 16; me_span_id := zeros 8 |}.

(** [MetricEntry::has_trace_context]. *)
Definition MetricEntry_has_trace_context (e : MetricEntry) : bool :=
  negb (bool_decide (me_trace_id e = zeros 16)) || negb (bool_decide (me_span_id e = zeros 8)).

(** [MetricEntry::trace_id_hex]. *)
Definition MetricEntry_trace_id_hex (e : MetricEntry) : string :=
  if bool_decide (me_trace_id e = zeros 16) then "" else hex_of_bytes (me_trace_id e).

(** [MetricEntry::span_id_hex]. *)
Definition MetricEntry_span_id_hex (e : MetricEntry) : string :=
  if bool_decide (me_span_id e = zeros 8) then "" else hex_of_bytes (me_span_id e).

(** [MetricEntry::sum]. *)
Definition MetricEntry_sum (now : DateTime) (name : string) (value : Z) (is_monotonic : bool)
    : MetricEntry :=
  let g := MetricEntry_gauge now name value in
  {| me_name := me_name g; me_description := me_description g; me_unit := me_unit g;
     me_kind := Sum; me_value := me_value g; me_timestamp := me_timestamp g;
     me_source := me_source g; me_hostname := me_hostname g; me_ams_net_id := me_ams_net_id g;
     me_ams_source_port := me_ams_source_port g; me_ams_app_port := me_ams_app_port g;
     me_task_index := me_task_index g; me_task_name := me_task_name g;
     me_task_cycle_counter := me_task_cycle_counter g; me_app_name := me_app_name g;
     me_project_name := me_project_name g; me_scope_namespace := me_scope_namespace g;
     me_attributes := me_attributes g; me_histogram_bounds := me_histogram_bounds g;
     me_histogram_counts := me_histogram_counts g; me_histogram_count := me_histogram_count g;
     me_histogram_sum := me_histogram_sum g; me_is_monotonic := is_monotonic;
     me_trace_id := me_trace_id g; me_span_id := me_span_id g |}.

(** [MetricEntry::histogram]. *)
Definition MetricEntry_histogram (now : DateTime) (name : string) (bounds counts : list Z)
    (count sum : Z) : MetricEntry :=
  let g := MetricEntry_gauge now name 0 in
  {| me_name := me_name g; me_description := me_description g; me_unit := me_unit g;
     me_kind := Histogram; me_value := 0; me_timestamp := me_timestamp g;
     me_source := me_source g; me_hostname := me_hostname g; me_ams_net_id := me_ams_net_id g;
     me_ams_source_port := me_ams_source_port g; me_ams_app_port := me_ams_app_port g;
     me_task_index := me_task_index g; me_task_name := me_task_name g;
     me_task_cycle_counter := me_task_cycle_counter g; me_app_name := me_app_name g;
     me_project_name := me_project_name g; me_scope_namespace := me_scope_namespace g;
     me_attributes := me_attributes g; me_histogram_bounds := bounds;
     me_histogram_counts := counts; me_histogram_count := count; me_histogram_sum := sum;
     me_is_monotonic := me_is_monotonic g; me_trace_id := me_trace_id g;
     me_span_id := me_span_id g |}.

Record MetricRecord := mkMetricRecord {
  mr_name : string;
  mr_description : string;
  mr_unit : string;
  mr_kind : MetricKind;
  mr_timestamp : DateTime;
  mr_value : Z;
  mr_is_monotonic : bool;
  mr_resource_attributes : attrs;
  mr_scope_name : string;
  mr_attributes : attrs;
  mr_histogram_bounds : list Z;
  mr_histogram_counts : list Z;
  mr_histogram_count : Z;
  mr_histogram_sum : Z;
  mr_trace_id : string;
  mr_span_id : string;
}.

(** The task attributes that metrics and spans share. *)
Definition insert_task_attributes (source task_name : string) (task_index cycle : Z) (m : attrs)
    : attrs :=
  let m := insert_if (nonempty source) "source.address" (VString source) m in
  let m := insert_if (nonempty task_name) "task.name" (VString task_name) m in
  let m := insert_if (0 <? task_index) "task.index" (json_int task_index) m in
  insert_if (0 <? cycle) "task.cycle" (json_int cycle) m.

(** [MetricRecord::from_metric_entry]. *)
Definition MetricRecord_from_metric_entry (e : MetricEntry) : MetricRecord :=
  {| mr_name := me_name e; mr_description := me_description e; mr_unit := me_unit e;
     mr_kind := me_kind e; mr_timestamp := me_timestamp e; mr_value := me_value e;
     mr_is_monotonic := me_is_monotonic e;
     mr_resource_attributes :=
       build_otel_resource (me_project_name e) (me_app_name e) (me_hostname e)
         (me_ams_net_id e) (me_ams_app_port e) (me_ams_source_port e);
     mr_scope_name := me_scope_namespace e;
     mr_attributes := insert_task_attributes (me_source e) (me_task_name e) (me_task_index e)
                        (me_task_cycle_counter e) (me_attributes e);
     mr_histogram_bounds := me_histogram_bounds e; mr_histogram_counts := me_histogram_counts e;
     mr_histogram_count := me_histogram_count e; mr_histogram_sum := me_histogram_sum e;
     mr_trace_id := MetricEntry_trace_id_hex e; mr_span_id := MetricEntry_span_id_hex e |}.

(** ** Spans *)

Record SpanEvent := mkSpanEvent {
  sev_timestamp : DateTime;
  sev_name : string;
  sev_attributes : attrs;
}.

Record SpanEntry := mkSpanEntry {
  se_trace_id : bytes;
  se_span_id : bytes;
  se_parent_span_id : bytes;
  se_name : string;
  se_kind : SpanKind;
  se_status_code : SpanStatusCode;
  se_status_message : string;
  se_start_time : DateTime;
  se_end_time : DateTime;
  se_source : string;
  se_hostname : string;
  se_ams_net_id : string;
  se_ams_source_port : Z;
  se_ams_app_port : Z;
  se_task_index : Z;
  se_task_name : string;
  se_task_cycle_counter : Z;
  se_app_name : string;
  se_project_name : string;
  se_scope_namespace : string;
  se_attributes : attrs;
  se_events : list SpanEvent;
}.

(** [SpanEntry::new]; both [Utc::now()] calls read [now]. *)
Definition SpanEntry_new (now : DateTime) (trace_id span_id : bytes) (name : string) : SpanEntry :=
  {| se_trace_id := trace_id; se_span_id := span_id; se_parent_span_id := zeros 8;
     se_name := name; se_kind := Internal; se_status_code := StatusUnset;
     se_status_message := ""; se_start_time := now; se_end_time := now; se_source := "";
     se_hostname := ""; se_ams_net_id := ""; se_ams_source_port := 0; se_ams_app_port := 0;
     se_task_index := 0; se_task_name := ""; se_task_cycle_counter := 0; se_app_name := "";
     se_project_name := ""; se_scope_namespace := ""; se_attributes := ∅; se_events := [] |}.

(** [SpanEntry::has_parent]. *)
Definition SpanEntry_has_parent (e : SpanEntry) : bool :=
  negb (bool_decide (se_parent_span_id e = zeros 8)).

(** [SpanEntry::trace_id_hex], [SpanEntry::span_id_hex], [SpanEntry::parent_span_id_hex]. *)
Definition SpanEntry_trace_id_hex (e : SpanEntry) : string := hex_of_bytes (se_trace_id e).
Definition SpanEntry_span_id_hex (e : SpanEntry) : string := hex_of_bytes (se_span_id e).
Definition SpanEntry_parent_span_id_hex (e : SpanEntry) : string := hex_of_bytes (se_parent_span_id e).

Record TraceEventRecord := mkTraceEventRecord {
  ter_timestamp : DateTime;
  ter_name : string;
  ter_attributes : attrs;
}.

Record TraceRecord := mkTraceRecord {
  tr_trace_id : string;
  tr_span_id : string;
  tr_parent_span_id : string;
  tr_name : string;
  tr_kind : Z;
  tr_start_time : DateTime;
  tr_end_time : DateTime;
  tr_status_code : Z;
  tr_status_message : string;
  tr_resource_attributes : attrs;
  tr_scope_name : string;
  tr_scope_attributes : attrs;
  tr_span_attributes : attrs;
  tr_events : list TraceEventRecord;
}.

(** [TraceRecord::from_span_entry]. *)
Definition TraceRecord_from_span_entry (e : SpanEntry) : TraceRecord :=
  {| tr_trace_id := SpanEntry_trace_id_hex e; tr_span_id := SpanEntry_span_id_hex e;
     tr_parent_span_id := SpanEntry_parent_span_id_hex e; tr_name := se_name e;
     tr_kind := SpanKind_to_otel_kind (se_kind e); tr_start_time := se_start_time e;
     tr_end_time := se_end_time e; tr_status_code := SpanStatusCode_to_otel_status (se_status_code e);
     tr_status_message := se_status_message e;
     tr_resource_attributes :=
       build_otel_resource (se_project_name e) (se_app_name e) (se_hostname e)
         (se_ams_net_id e) (se_ams_app_port e) (se_ams_source_port e);
     tr_scope_name := se_scope_namespace e; tr_scope_attributes := ∅;
     tr_span_attributes := insert_task_attributes (se_source e) (se_task_name e) (se_task_index e)
                             (se_task_cycle_counter e) (se_attributes e);
     tr_events := map (fun ev => mkTraceEventRecord (sev_timestamp ev) (sev_name ev)
                                   (sev_attributes ev)) (se_events e) |}.

(** ** Logs *)

Record LogEntry := mkLogEntry {
  le_id : string;
  le_source : string;
  le_hostname : string;
  le_ams_net_id : string;
  le_ams_source_port : Z;
  le_ams_app_port : Z;
  le_message : string;
  le_logger : string;
  le_level : LogLevel;
  le_plc_timestamp : DateTime;
  le_clock_timestamp : DateTime;
  le_task_index : Z;
  le_task_name : string;
  le_task_cycle_counter : Z;
  le_app_name : string;
  le_project_name : string;
  le_online_change_count : Z;
  le_trace_id : bytes;
  le_span_id : bytes;
  le_arguments : gmap nat Value;
  le_context : attrs;
}.

(** [LogEntry::new]. *)
Definition LogEntry_new (uuid : string) (now : DateTime) (source hostname message logger : string)
    (level : LogLevel) : LogEntry :=
  {| le_id := uuid; le_source := source; le_hostname := hostname; le_ams_net_id := "";
     le_ams_source_port := 0; le_ams_app_port := 0; le_message := message; le_logger := logger;
     le_level := level; le_plc_timestamp := now; le_clock_timestamp := now; le_task_index := 0;
     le_task_name := ""; le_task_cycle_counter := 0; le_app_name := ""; le_project_name := "";
     le_online_change_count := 0; le_trace_id := zeros 16; le_span_id := zeros 8;
     le_arguments := ∅; le_context := ∅ |}.

(** [LogEntry::has_trace_context]. *)
Definition LogEntry_has_trace_context (e : LogEntry) : bool :=
  negb (bool_decide (le_trace_id e = zeros 16)).

Record LogRecord := mkLogRecord {
  lr_timestamp : DateTime;
  lr_body : Value;
  lr_severity_number : Z;
  lr_severity_text : string;
  lr_trace_id : string;
  lr_span_id : string;
  lr_resource_attributes : attrs;
  lr_scope_name : string;
  lr_scope_attributes : attrs;
  lr_log_attributes : attrs;
}.

(** [LogEntry::trace_id_hex], [LogEntry::span_id_hex]. *)
Definition LogEntry_trace_id_hex (e : LogEntry) : string := hex_of_bytes (le_trace_id e).
Definition LogEntry_span_id_hex (e : LogEntry) : string := hex_of_bytes (le_span_id e).

(** The argument loop of [from_log_entry]. *)
Definition arg_key (idx : nat) : string := "arg." +:+ dec_nat idx.

Definition insert_arguments (args : gmap nat Value) (m : attrs) : attrs :=
  fold_left (fun m kv => <[arg_key kv.1 := kv.2]> m) (map_to_list args) m.

(** [LogRecord::from_log_entry]. *)
Definition LogRecord_from_log_entry (e : LogEntry) : LogRecord :=
  let ids := if LogEntry_has_trace_context e
             then (LogEntry_trace_id_hex e, LogEntry_span_id_hex e) else ("", "") in
  let m : attrs := le_context e ∪ ∅ in
  let m := <["task.cycle" := json_int (le_task_cycle_counter e)]> m in
  let m := <["online.changes" := json_int (le_online_change_count e)]> m in
  let m := insert_if (nonempty (le_source e)) "source.address" (VString (le_source e)) m in
  let m := insert_if (0 <? le_task_index e) "tc.task.index" (json_int (le_task_index e)) m in
  let m := insert_if (nonempty (le_task_name e)) "tc.task.name" (VString (le_task_name e)) m in
  let m := insert_arguments (le_arguments e) m in
  {| lr_timestamp := le_clock_timestamp e; lr_body := VString (le_message e);
     lr_severity_number := LogLevel_to_otel_severity_number (le_level e);
     lr_severity_text := LogLevel_to_otel_severity_text (le_level e);
     lr_trace_id := ids.1; lr_span_id := ids.2;
     lr_resource_attributes :=
       build_otel_resource (le_project_name e) (le_app_name e) (le_hostname e)
         (le_ams_net_id e) (le_ams_app_port e) (le_ams_source_port e);
     lr_scope_name := le_logger e; lr_scope_attributes := ∅; lr_log_attributes := m |}.

End Models.

(** ** Lemmas *)

Lemma arg_key_inj i j : arg_key i = arg_key j -> i = j.
Proof.
  unfold arg_key, dec_nat. intros H. apply (inj (String.append _)) in H. by apply (inj pretty).
Qed.

Section Arguments.
Implicit Types (l : list (nat * Value)) (m : attrs).

Definition put_args l m : attrs := fold_left (fun m kv => <[arg_key kv.1 := kv.2]> m) l m.

Lemma put_args_other l m k :
  (forall kv, kv ∈ l -> k <> arg_key kv.1) -> put_args l m !! k = m !! k.
Proof.
  revert m. induction l as [|kv l IH]; intros m Hk; [done|]. unfold put_args; simpl.
  fold (put_args l (<[arg_key kv.1 := kv.2]> m)). rewrite IH.
  - apply lookup_insert_ne. intros Heq. by apply (Hk kv); [left|].
  - intros kv' Hin. apply Hk. by right.
Qed.

Lemma put_args_in l m i v :
  NoDup (l.*1) -> (i, v) ∈ l -> put_args l m !! arg_key i = Some v.
Proof.
  revert m. induction l as [|kv l IH]; intros m Hnd Hin; [by apply elem_of_nil in Hin|].
  rewrite fmap_cons in Hnd. apply NoDup_cons in Hnd as [Hni Hnd].
  unfold put_args; simpl. fold (put_args l (<[arg_key kv.1 := kv.2]> m)).
  apply elem_of_cons in Hin as [<-|Hin]; [|by apply IH].
  rewrite put_args_other; [apply lookup_insert_eq|].
  intros [j w] Hj Heq%arg_key_inj. simpl in Heq. subst j.
  apply Hni. apply list_elem_of_fmap. by exists (i, w).
Qed.

End Arguments.

Lemma insert_arguments_lookup (args : gmap nat Value) (m : attrs) i :
  insert_arguments args m !! arg_key i =
  match args !! i with Some v => Some v | None => m !! arg_key i end.
Proof.
  change (insert_arguments args m) with (put_args (map_to_list args) m).
  destruct (args !! i) as [v|] eqn:Hi.
  - apply put_args_in; [apply NoDup_fst_map_to_list | by apply elem_of_map_to_list].
  - apply put_args_other. intros [j w] Hj Heq%arg_key_inj. simpl in Heq. subst.
    apply elem_of_map_to_list in Hj. congruence.
Qed.

Lemma insert_arguments_other (args : gmap nat Value) (m : attrs) k :
  (forall i, k <> arg_key i) -> insert_arguments args m !! k = m !! k.
Proof. intros Hk. by apply (put_args_other (map_to_list args)). Qed.

(** The attribute keys that [from_log_entry] writes itself. *)
Definition log_reserved_keys : list string :=
  ["task.cycle"; "online.changes"; "source.address"; "tc.task.index"; "tc.task.name"].

Lemma insert_if_ne c k k' v (m : attrs) : k <> k' -> insert_if c k v m !! k' = m !! k'.
Proof. intros. unfold insert_if. case_match; [by apply lookup_insert_ne|done]. Qed.

(** ** Theorems *)

Section Theorems.
Context `{Ext : External}.

(** exporting a log entry loses none of its variable data: every
    positional argument [i] is the attribute [arg.i], and every context
    property keeps its key and value unless the key is one that the record
    itself defines ([task.cycle] and so on, or an [arg.i] key). *)
Theorem log_record_keeps_data (e : LogEntry) :
  (forall i v, le_arguments e !! i = Some v ->
     lr_log_attributes (LogRecord_from_log_entry e) !! arg_key i = Some v) /\
  (forall k, k ∉ log_reserved_keys -> (forall i, k <> arg_key i) ->
     lr_log_attributes (LogRecord_from_log_entry e) !! k = le_context e !! k).
Proof.
  unfold LogRecord_from_log_entry; cbn [lr_log_attributes]. split.
  - intros i v Hv. by rewrite insert_arguments_lookup, Hv.
  - intros k Hk Hargs. rewrite insert_arguments_other by done.
    unfold log_reserved_keys in Hk. rewrite !not_elem_of_cons in Hk. destruct_and! Hk.
    rewrite !insert_if_ne by congruence. rewrite !lookup_insert_ne by congruence.
    by rewrite map_union_empty.
Qed.

(** the instance identifier of a registered runtime
    ([app@netid:port]) determines the runtime: two registrations whose Net
    IDs hold neither '@' nor ':' get the same [service.instance.id] only if
    application, Net ID and port all agree. *)
Theorem service_instance_id_injective a1 a2 n1 n2 p1 p2 :
  a1 <> "" -> a2 <> "" -> n1 <> "" -> n2 <> "" -> 0 < p1 -> 0 < p2 ->
  58 ∉ bytes_of_string n1 -> 58 ∉ bytes_of_string n2 ->
  64 ∉ bytes_of_string n1 -> 64 ∉ bytes_of_string n2 ->
  build_service_instance_id a1 n1 p1 = build_service_instance_id a2 n2 p2 ->
  a1 = a2 /\ n1 = n2 /\ p1 = p2.
Proof.
  intros Ha1 Ha2 Hn1 Hn2 Hp1 Hp2 Hc1 Hc2 Hat1 Hat2. unfold build_service_instance_id.
  rewrite !bool_decide_false by done. rewrite !(proj2 (Z.eqb_neq _ _)) by lia. simpl.
  intros [= Heq]. apply (f_equal bytes_of_string) in Heq.
  rewrite !bytes_of_string_app in Heq.
  change (bytes_of_string "@") with [64] in Heq. change (bytes_of_string ":") with [58] in Heq.
  rewrite !(app_assoc _ [64]), !(app_assoc (_ ++ [64])) in Heq.
  apply app_sep_inj in Heq as [Heq Hp]; [|by apply dec_no_colon; lia..].
  rewrite <- !app_assoc in Heq. apply app_sep_inj in Heq as [Ha Hn]; [|done..].
  split_and!; [by apply bytes_of_string_inj..|]. by apply dec_inj, bytes_of_string_inj.
Qed.

End Theorems.
