(* ===== verification/Protocol.v ===== *)
(** * Wire-level data (crates/tc-otel-ads: protocol.rs)

    What the binary parser produces: log entries, registrations, metrics,
    completed spans and streaming span events, and the keys and values of the
    task registry. *)

From S2P Require Import Prelude.
From S2P Require Import Text.
From S2P Require Import External.
From S2P Require Import Models.

Inductive AttrValue :=
| AI64 (n : Z)
| AF64 (bits : Z)
| ABool (b : bool)
| AString (s : string).

Inductive TraceWireEvent :=
| Begin (local_id task_index flags dc_time : Z) (parent_span_id : bytes) (kind : Z)
    (name : string) (traceparent : option string) (trace_id span_id : bytes)
    (scope_namespace : string)
| Attr (span_id : bytes) (task_index flags dc_time : Z) (key : string) (value : AttrValue)
| Event (span_id : bytes) (task_index flags dc_time : Z) (name : string)
    (attributes : list (string * AttrValue))
| End (span_id : bytes) (task_index flags dc_time : Z) (status : Z) (message : string).

Inductive AdsProtocolVersion := V1 | V2 | Registration.

Definition AdsProtocolVersion_as_u8 (v : AdsProtocolVersion) : Z :=
  match v with V1 => 1 | V2 => 2 | Registration => 3 end.

Definition AdsProtocolVersion_from_u8 (v : Z) : option AdsProtocolVersion :=
  match v with
  | 1 => Some V1
  | 2 => Some V2
  | 3 => Some Registration
  | _ => None
  end.

Definition version_eqb (a b : AdsProtocolVersion) : bool :=
  AdsProtocolVersion_as_u8 a =? AdsProtocolVersion_as_u8 b.

Record RegistrationMessage := mkRegistration {
  rm_task_index : Z;
  rm_task_name : string;
  rm_app_name : string;
  rm_project_name : string;
  rm_online_change_count : Z;
  rm_app_port : Z;
}.

Record RegistrationKey := mkKey {
  rk_ams_net_id : string;
  rk_ams_source_port : Z;
  rk_task_index : Z;
}.

#[export] Instance RegistrationKey_eq_dec : EqDecision RegistrationKey.
Proof. solve_decision. Defined.
#[export] Program Instance RegistrationKey_countable : Countable RegistrationKey :=
  inj_countable' (fun k => (rk_ams_net_id k, rk_ams_source_port k, rk_task_index k))
    (fun t => mkKey t.1.1 t.1.2 t.2) _.
Next Obligation. by intros []. Qed.

Record TaskMetadata := mkMetadata {
  tm_task_name : string;
  tm_app_name : string;
  tm_project_name : string;
  tm_online_change_count : Z;
  tm_app_port : Z;
}.

Section Entries.
Context `{Ext : External}.

Record AdsLogEntry := mkAdsLogEntry {
  al_version : AdsProtocolVersion;
  al_message : string;
  al_logger : string;
  al_level : LogLevel;
  al_plc_timestamp : DateTime;
  al_clock_timestamp : DateTime;
  al_task_index : Z;
  al_task_name : string;
  al_task_cycle_counter : Z;
  al_app_name : string;
  al_project_name : string;
  al_online_change_count : Z;
  al_trace_id : bytes;
  al_span_id : bytes;
  al_arguments : gmap nat Value;
  al_context : attrs;
}.

Record AdsMetricEntry := mkAdsMetricEntry {
  am_name : string;
  am_description : string;
  am_unit : string;
  am_kind : MetricKind;
  am_value : Z;
  am_timestamp : DateTime;
  am_task_index : Z;
  am_task_cycle_counter : Z;
  am_is_monotonic : bool;
  am_attributes : attrs;
  am_histogram_bounds : list Z;
  am_histogram_counts : list Z;
  am_histogram_count : Z;
  am_histogram_sum : Z;
}.

Record AdsSpanEvent := mkAdsSpanEvent {
  ase_timestamp : DateTime;
  ase_name : string;
  ase_attributes : attrs;
}.

Record AdsSpanEntry := mkAdsSpanEntry {
  as_trace_id : bytes;
  as_span_id : bytes;
  as_parent_span_id : bytes;
  as_name : string;
  as_kind : SpanKind;
  as_status_code : SpanStatusCode;
  as_status_message : string;
  as_start_time : DateTime;
  as_end_time : DateTime;
  as_task_index : Z;
  as_task_cycle_counter : Z;
  as_attributes : attrs;
  as_events : list AdsSpanEvent;
}.

End Entries.
