(* ===== verification/Reader.v ===== *)
(** * The byte reader (crates/tc-otel-ads: parser.rs, [BytesReader])

    A reader holds a buffer and a position.  Its operations are modelled in a
    state and error monad that keeps the position on the error path too,
    because [parse_all] inspects it there.  The file also decodes typed values
    ([read_value], [read_value_with_type]).  Slicing past the end is
    [Panic]. *)

From S2P Require Import Prelude.
From S2P Require Import Text.
From S2P Require Import External.
From S2P Require Import Models.
From S2P Require Import Protocol.
From S2P Require Import Ams.

Definition MAX_STRING_LENGTH : Z := 65536.

Record BytesReader := mkReader { rd_data : bytes; rd_pos : nat }.

Definition BytesReader_new (data : bytes) : BytesReader := mkReader data 0.

(** [BytesReader::remaining]. *)
Definition remaining (r : BytesReader) : nat := saturating_sub (length (rd_data r)) (rd_pos r).

(** [BytesReader::peek]. *)
Definition peek (r : BytesReader) : option Z := rd_data r !! rd_pos r.

(** ** The monad *)

Definition Parser (A : Type) : Type := BytesReader -> outcome AdsError A * BytesReader.

#[export] Instance Parser_ret : MRet Parser := fun A a r => (Ok a, r).

#[export] Instance Parser_bind : MBind Parser := fun A B f m r =>
  match m r with
  | (Ok a, r') => f a r'
  | (Err e, r') => (Err e, r')
  | (Panic, r') => (Panic, r')
  | (OutOfFuel, r') => (OutOfFuel, r')
  end.

(** [return Err(e)]. *)
Definition fail {A} (e : AdsError) : Parser A := fun r => (Err e, r).

(** [o.ok_or(e)?]. *)
Definition ok_or {A} (o : option A) (e : AdsError) : Parser A :=
  match o with Some a => mret a | None => fail e end.

Definition get_pos : Parser nat := fun r => (Ok (rd_pos r), r).

(** [reader.pos = p]. *)
Definition set_pos (p : nat) : Parser unit := fun r => (Ok tt, mkReader (rd_data r) p).

Definition get_remaining : Parser nat := fun r => (Ok (remaining r), r).

(** ** Primitive reads *)

(** [BytesReader::read_bytes]. *)
Definition read_bytes (n : nat) : Parser bytes := fun r =>
  if (remaining r <? n)%nat then
    (Err (IncompleteMessage (Z.of_nat n) (Z.of_nat (remaining r))), r)
  else
    match slice_at (rd_data r) (rd_pos r) (rd_pos r + n) with
    | Some bs => (Ok bs, mkReader (rd_data r) (rd_pos r + n))
    | None => (Panic, r)
    end.

(** An unsigned little-endian integer of [n] bytes. *)
Definition read_le (n : nat) : Parser Z := bs ← read_bytes n; mret (le_decode bs).

(** A signed little-endian integer of [n] bytes. *)
Definition read_le_signed (n : nat) : Parser Z :=
  bs ← read_bytes n; mret (to_signed (8 * Z.of_nat n) (le_decode bs)).

(** [BytesReader::read_u8]: the first byte of a one-byte slice. *)
Definition read_u8 : Parser Z :=
  bs ← read_bytes 1;
  match bs !! 0%nat with Some b => mret b | None => fun r => (Panic, r) end.

Definition read_u16 : Parser Z := read_le 2.
Definition read_u32 : Parser Z := read_le 4.
Definition read_i16 : Parser Z := read_le_signed 2.
Definition read_i32 : Parser Z := read_le_signed 4.

(** [BytesReader::read_string]: one length byte, lossy UTF-8. *)
Definition read_string : Parser string :=
  n ← read_u8;
  if MAX_STRING_LENGTH <? n then
    fail (ParseError ("String length " +:+ dec n +:+ " exceeds maximum " +:+ dec MAX_STRING_LENGTH))
  else
    bs ← read_bytes (Z.to_nat n);
    mret (from_utf8_lossy bs).

(** ** Time texts of [read_value]

    The IEC literal texts; integer arithmetic wraps at the width of the wire
    field, as in the release profile. *)

Definition time_parts (total_ms : Z) : Z * Z * Z * Z * Z :=
  (total_ms / 86400000, (total_ms mod 86400000) / 3600000, (total_ms mod 3600000) / 60000,
   (total_ms mod 60000) / 1000, total_ms mod 1000).

Definition push_part (cond : bool) (n : Z) (suffix : string) (s : string) : string :=
  if cond then s +:+ dec n +:+ suffix else s.

(** TIME: milliseconds. *)
Definition format_time (total_ms : Z) : string :=
  let '(d, h, m, s, ms) := time_parts total_ms in
  let t := "T#" in
  let t := push_part (0 <? d) d "d" t in
  let t := push_part (0 <? h) h "h" t in
  let t := push_part (0 <? m) m "m" t in
  let t := push_part ((0 <? s) || ((d =? 0) && (h =? 0) && (m =? 0) && (ms =? 0))) s "s" t in
  push_part (0 <? ms) ms "ms" t.

Definition ltime_parts (total_ns : Z) : Z * Z * Z * Z * Z * Z * Z :=
  (total_ns / 86400000000000, (total_ns mod 86400000000000) / 3600000000000,
   (total_ns mod 3600000000000) / 60000000000, (total_ns mod 60000000000) / 1000000000,
   (total_ns mod 1000000000) / 1000000, (total_ns mod 1000000) / 1000, total_ns mod 1000).

(** [ns100 * 100] on [u64]. *)
Definition ltime_total_ns (ns100 : Z) : Z := wrap 64 (ns100 * 100).

(** LTIME: units of 100 ns. *)
Definition format_ltime (ns100 : Z) : string :=
  let '(d, h, m, s, ms, us, ns) := ltime_parts (ltime_total_ns ns100) in
  let t := "LTIME#" in
  let t := push_part (0 <? d) d "d" t in
  let t := push_part (0 <? h) h "h" t in
  let t := push_part (0 <? m) m "m" t in
  let t := push_part (0 <? s) s "s" t in
  let t := push_part (0 <? ms) ms "ms" t in
  let t := push_part (0 <? us) us "us" t in
  let t := push_part (0 <? ns) ns "ns" t in
  if bool_decide (t = "LTIME#") then t +:+ "0s" else t.

(** TIME_OF_DAY: milliseconds. *)
Definition format_tod (total_ms : Z) : string :=
  let h := total_ms / 3600000 in
  let m := (total_ms mod 3600000) / 60000 in
  let s := (total_ms mod 60000) / 1000 in
  let ms := total_ms mod 1000 in
  if 0 <? ms
  then "TOD#" +:+ dec_pad 2 h +:+ ":" +:+ dec_pad 2 m +:+ ":" +:+ dec_pad 2 s +:+ "." +:+ dec_pad 3 ms
  else "TOD#" +:+ dec_pad 2 h +:+ ":" +:+ dec_pad 2 m +:+ ":" +:+ dec_pad 2 s.

(** [raw.chunks(2).map(u16::from_le_bytes)]. *)
Fixpoint u16_units (bs : bytes) : list Z :=
  match bs with
  | a :: b :: bs => le_decode [a; b] :: u16_units bs
  | _ => []
  end.

Section Reader.
Context `{Ext : External} (now : DateTime).

(** ** Timestamps *)

Definition FILETIME_EPOCH_DIFF : Z := 116444736000000000.

(** [BytesReader::read_filetime]. *)
Definition read_filetime : Parser DateTime :=
  filetime ← read_le 8;
  if filetime <? FILETIME_EPOCH_DIFF then mret now
  else
    let unix_time_100ns := filetime - FILETIME_EPOCH_DIFF in
    let secs := unix_time_100ns / 10000000 in
    let nanos := (unix_time_100ns mod 10000000) * 100 in
    ok_or (from_timestamp secs nanos) (InvalidTimestamp "Invalid timestamp").

Definition UNIX_TO_DC_EPOCH_SECS : Z := 946684800.

(** [BytesReader::read_dc_task_time]. *)
Definition read_dc_task_time : Parser DateTime :=
  dc_ns ← read_le_signed 8;
  if dc_ns <=? 0 then mret now
  else
    let secs := dc_ns / 1000000000 in
    let nanos := dc_ns mod 1000000000 in
    ok_or (from_timestamp (UNIX_TO_DC_EPOCH_SECS + secs) nanos)
      (InvalidTimestamp "Invalid DC timestamp").

(** [chrono::DateTime::from_timestamp(secs, 0).unwrap_or_default()]. *)
Definition date_of_secs (secs : Z) : DateTime :=
  match from_timestamp secs 0 with Some d => d | None => datetime_default end.

(** ** Typed values *)

(** The arms DATE and DT: seconds since 1970. *)
Definition read_date : Parser Value :=
  v ← read_u32; mret (VString ("D#" +:+ format_date (date_of_secs v))).
Definition read_date_and_time : Parser Value :=
  v ← read_u32; mret (VString ("DT#" +:+ format_date_time (date_of_secs v))).

(** The arm ENUM, with the reader of the type of its base. *)
Definition read_enum (enum_underlying : Parser Z) : Parser Value :=
  underlying ← enum_underlying;
  match underlying with
  | 1 | 9 => v ← read_u8; mret (json_int v)
  | 2 | 10 => v ← read_u16; mret (json_int v)
  | 3 | 11 => v ← read_u32; mret (json_int v)
  | 15 => v ← read_le 8; mret (json_int v)
  | _ => mret Null
  end.

(** The arm WSTRING: a count of characters and their UTF-16 units. *)
Definition read_wstring : Parser Value :=
  char_count ← read_u8;
  raw ← read_bytes (Z.to_nat char_count * 2);
  mret (VString (from_utf16_lossy (u16_units raw))).

(** The arms of the two [match val_type] blocks, which the source writes out
    twice; [enum_underlying] reads the type of an ENUM's base, the only
    difference between them. *)
Definition read_value_arms (enum_underlying : Parser Z) (val_type : Z) : Parser Value :=
  match val_type with
  | 0 => mret Null
  | 1 | 9 => v ← read_u8; mret (json_int v)
  | 2 | 10 => v ← read_u16; mret (json_int v)
  | 3 | 11 => v ← read_u32; mret (json_int v)
  | 4 => v ← read_le 4; mret (json_f32 v)
  | 5 => v ← read_le 8; mret (json_f64 v)
  | 6 => v ← read_u8; mret (json_int (to_signed 8 v))
  | 7 => v ← read_i16; mret (json_int v)
  | 8 => v ← read_i32; mret (json_int v)
  | 12 => s ← read_string; mret (VString s)
  | 13 => v ← read_u8; mret (VBool (negb (v =? 0)))
  | 15 => v ← read_le 8; mret (json_int v)
  | 17 => v ← read_le_signed 8; mret (json_int v)
  | 20000 => v ← read_u32; mret (VString (format_time v))
  | 20001 => v ← read_le 8; mret (VString (format_ltime v))
  | 20004 => v ← read_u32; mret (VString (format_tod v))
  | 20002 => read_date
  | 20003 => read_date_and_time
  | 20005 => read_enum enum_underlying
  | 20006 => read_wstring
  | _ => mret Null
  end.

(** [BytesReader::read_value] (protocol v1: 16-bit type tags). *)
Definition read_value : Parser Value :=
  val_type ← read_i16; read_value_arms read_i16 val_type.

(** [BytesReader::read_value_with_type] (protocol v2: the tag is known). *)
Definition read_value_with_type (val_type : Z) : Parser Value := read_value_arms read_u8 val_type.

End Reader.

(** ** Safety of readers

    [safe_at m r]: started at [r], [m] ends with a value or an error, leaves
    the buffer alone and moves the position forward, within the buffer. *)

Definition in_bounds (r : BytesReader) : Prop := (rd_pos r <= length (rd_data r))%nat.

Definition moves (r r' : BytesReader) : Prop :=
  rd_data r' = rd_data r /\ (rd_pos r <= rd_pos r')%nat /\ (rd_pos r' <= length (rd_data r))%nat.

Definition safe_at {A} (m : Parser A) (r : BytesReader) : Prop :=
  completes (m r).1 /\ moves r (m r).2.

(** What every parser of a message body promises to [parse_all]. *)
Class Safe {A} (m : Parser A) : Prop := safe : forall r, in_bounds r -> safe_at m r.

Lemma moves_refl r : in_bounds r -> moves r r.
Proof. unfold moves, in_bounds. auto. Qed.

Lemma moves_trans r1 r2 r3 : moves r1 r2 -> moves r2 r3 -> moves r1 r3.
Proof. unfold moves. intros (H1 & ? & ?) (H2 & ? & ?). rewrite H1 in *. split_and!; [done|lia..]. Qed.

Lemma moves_in_bounds r r' : moves r r' -> in_bounds r'.
Proof. unfold moves, in_bounds. intros (-> & _ & ?). done. Qed.

Lemma safe_at_bind {A B} (m : Parser A) (f : A -> Parser B) r :
  safe_at m r -> (forall a r', m r = (Ok a, r') -> moves r r' -> safe_at (f a) r') ->
  safe_at (m ≫= f) r.
Proof.
  unfold safe_at. intros [Hc Hm] Hf. cbv [mbind Parser_bind].
  destruct (m r) as [[a|e| |] r'] eqn:Hr; simpl in *; try done.
  destruct (Hf a r' eq_refl Hm) as [Hc' Hm']. split; [done|]. by eapply moves_trans.
Qed.

#[export] Instance Safe_ret {A} (a : A) : Safe (mret a : Parser A).
Proof. intros r Hr. split; [done | by apply moves_refl]. Qed.

#[export] Instance Safe_fail {A} e : Safe (fail e : Parser A).
Proof. intros r Hr. split; [done | by apply moves_refl]. Qed.

#[export] Instance Safe_get_pos : Safe get_pos.
Proof. intros r Hr. split; [done | by apply moves_refl]. Qed.

#[export] Instance Safe_get_remaining : Safe get_remaining.
Proof. intros r Hr. split; [done | by apply moves_refl]. Qed.

#[export] Instance Safe_ok_or {A} (o : option A) e : Safe (ok_or o e).
Proof. destruct o; apply _. Qed.

#[export] Instance Safe_bind {A B} (m : Parser A) (f : A -> Parser B) :
  Safe m -> (forall a, Safe (f a)) -> Safe (m ≫= f).
Proof.
  intros Hm Hf r Hr. apply safe_at_bind; [by apply Hm|].
  intros a r' _ Hmv. apply Hf. by eapply moves_in_bounds.
Qed.

#[export] Instance Safe_if {A} (b : bool) (m1 m2 : Parser A) :
  Safe m1 -> Safe m2 -> Safe (if b then m1 else m2).
Proof. by destruct b. Qed.

Lemma read_bytes_eq n r :
  in_bounds r -> (n <= remaining r)%nat ->
  read_bytes n r = (Ok (take n (drop (rd_pos r) (rd_data r))), mkReader (rd_data r) (rd_pos r + n)).
Proof.
  unfold in_bounds, read_bytes, remaining, saturating_sub. intros Hb Hn.
  rewrite (proj2 (Nat.ltb_ge _ _)) by done. rewrite slice_at_spec by lia. do 3 f_equal. lia.
Qed.

Lemma read_bytes_ok n r bs r' :
  in_bounds r -> read_bytes n r = (Ok bs, r') ->
  length bs = n /\ r' = mkReader (rd_data r) (rd_pos r + n) /\ (n <= remaining r)%nat.
Proof.
  intros Hb. destruct (decide (n <= remaining r)%nat) as [Hn|Hn].
  - rewrite read_bytes_eq by done. intros [= <- <-]. split_and!; [|done|done].
    unfold in_bounds, remaining, saturating_sub in *. rewrite length_take, length_drop. lia.
  - unfold read_bytes. rewrite (proj2 (Nat.ltb_lt _ _)) by lia. done.
Qed.

#[export] Instance Safe_read_bytes n : Safe (read_bytes n).
Proof.
  intros r Hr. destruct (decide (n <= remaining r)%nat) as [Hn|Hn]; unfold safe_at.
  - rewrite read_bytes_eq by done. split; [done|].
    unfold moves, in_bounds, remaining, saturating_sub in *; simpl. split_and!; [done|lia..].
  - unfold read_bytes. rewrite (proj2 (Nat.ltb_lt _ _)) by lia. split; [done | by apply moves_refl].
Qed.

#[export] Instance Safe_read_u8 : Safe read_u8.
Proof.
  intros r Hr. unfold read_u8. apply safe_at_bind; [by apply Safe_read_bytes|].
  intros bs r' Hbs Hm. apply read_bytes_ok in Hbs as (Hl & _ & _); [|done].
  destruct bs as [|b bs]; [done|]. apply Safe_ret. by eapply moves_in_bounds.
Qed.

(** Solves [Safe] goals through the structure of the parser. *)
Ltac solve_safe :=
  repeat first
    [ apply _
    | apply Safe_bind; [ |intros ?]
    | apply Safe_if
    | match goal with
      | |- Safe (match ?x with _ => _ end) => destruct x
      | x : _ * _ |- _ => destruct x
      end ].

#[export] Instance Safe_read_le n : Safe (read_le n).
Proof. unfold read_le. solve_safe. Qed.

#[export] Instance Safe_read_le_signed n : Safe (read_le_signed n).
Proof. unfold read_le_signed. solve_safe. Qed.

#[export] Instance Safe_read_u16 : Safe read_u16.
Proof. apply _. Qed.
#[export] Instance Safe_read_u32 : Safe read_u32.
Proof. apply _. Qed.
#[export] Instance Safe_read_i16 : Safe read_i16.
Proof. apply _. Qed.
#[export] Instance Safe_read_i32 : Safe read_i32.
Proof. apply _. Qed.

#[export] Instance Safe_read_string : Safe read_string.
Proof. unfold read_string. solve_safe. Qed.

Section Safety.
Context `{Ext : External} (now : DateTime).

#[export] Instance Safe_read_filetime : Safe (read_filetime now).
Proof. unfold read_filetime. solve_safe. Qed.

#[export] Instance Safe_read_dc_task_time : Safe (read_dc_task_time now).
Proof. unfold read_dc_task_time. solve_safe. Qed.

#[export] Instance Safe_read_value_arms m t : Safe m -> Safe (read_value_arms m t).
Proof. intros Hm. unfold read_value_arms, read_enum, read_wstring, read_date, read_date_and_time. solve_safe. Qed.

#[export] Instance Safe_read_value : Safe read_value.
Proof. unfold read_value. solve_safe. Qed.

#[export] Instance Safe_read_value_with_type t : Safe (read_value_with_type t).
Proof. unfold read_value_with_type. apply _. Qed.

End Safety.
