(* ===== verification/Parser.v ===== *)
(** * The message parsers (crates/tc-otel-ads: parser.rs, [AdsParser])

    One parser per message type of the PLC's write buffer (log entry v1 and
    v2, traced log entry, registration, metric, span, span events), and
    [parse_all], which splits a buffer of several messages. *)

From S2P Require Import Prelude.
From S2P Require Import Text.
From S2P Require Import External.
From S2P Require Import Models.
From S2P Require Import Protocol.
From S2P Require Import Ams.
From S2P Require Import Reader.

Definition MAX_ARGUMENTS : nat := 32.
Definition MAX_CONTEXT_VARS : nat := 64.
Definition MAX_MESSAGE_SIZE : Z := 1048576.
Definition MAX_SPAN_EVENTS : Z := 128.
Definition MAX_SPAN_ATTRIBUTES : Z := 64.
Definition MAX_METRIC_ATTRIBUTES : Z := 32.
Definition MAX_HISTOGRAM_BUCKETS : Z := 100.

Definition out_of_fuel {A} : Parser A := fun r => (OutOfFuel, r).

(** [AdsParser::remap_v2_type_id]. *)
Definition remap_v2_type_id (v2_type : Z) : Z :=
  match v2_type with
  | 100 => 20000
  | 101 => 20001
  | 102 => 20002
  | 103 => 20003
  | 104 => 20004
  | 105 => 20005
  | 106 => 20006
  | other => other
  end.

(** [format!("scope_{}_{}", scope, name)]. *)
Definition scope_key (scope : Z) (name : string) : string :=
  "scope_" +:+ dec scope +:+ "_" +:+ name.

(** A strict UTF-8 field of known length ([String::from_utf8(..).map_err(..)?]). *)
Definition read_utf8 (n : nat) (msg : string) : Parser string :=
  bs ← read_bytes n;
  ok_or (from_utf8 bs) (ParseError msg).

(** [for _ in 0..n { v.push(m?) }]. *)
Fixpoint repeat_read {A} (n : nat) (m : Parser A) : Parser (list A) :=
  match n with
  | O => mret []
  | S n => a ← m; l ← repeat_read n m; mret (a :: l)
  end.

Section Parsers.
Context `{Ext : External} (now : DateTime).

(** A type byte, remapped, and the value it announces. *)
Definition read_v2_value : Parser Value :=
  type_id ← read_u8;
  read_value_with_type (remap_v2_type_id type_id).

(** ** Log entry, protocol v1 *)

(** The argument and context loop of [parse_v1_from_reader]. *)
Fixpoint v1_items (fuel : nat) (arguments : gmap nat Value) (context : attrs)
    : Parser (gmap nat Value * attrs) :=
  match fuel with
  | O => out_of_fuel
  | S fuel =>
    n ← get_remaining;
    if (n =? 0)%nat then mret (arguments, context)
    else
      type_id ← read_u8;
      if (type_id =? 0) || (type_id =? 255) then mret (arguments, context)
      else if type_id =? 1 then
        if (MAX_ARGUMENTS <=? size arguments)%nat then
          fail (ParseError ("Too many arguments: " +:+ dec_nat (size arguments + 1) +:+
                            " exceeds maximum " +:+ dec_nat MAX_ARGUMENTS))
        else
          index ← read_u8;
          value ← read_value;
          v1_items fuel (<[Z.to_nat index := value]> arguments) context
      else if type_id =? 2 then
        if (MAX_CONTEXT_VARS <=? size context)%nat then
          fail (ParseError ("Too many context variables: " +:+ dec_nat (size context + 1) +:+
                            " exceeds maximum " +:+ dec_nat MAX_CONTEXT_VARS))
        else
          scope ← read_u8;
          name ← read_string;
          value ← read_value;
          v1_items fuel arguments (<[scope_key scope name := value]> context)
      else v1_items fuel arguments context
  end.

(** [AdsParser::parse_v1_from_reader]. *)
Definition parse_v1_from_reader : Parser AdsLogEntry :=
  version_byte ← read_u8;
  version ← ok_or (AdsProtocolVersion_from_u8 version_byte) (InvalidVersion version_byte);
  message ← read_string;
  logger ← read_string;
  level_u16 ← read_le 2;
  level ← ok_or (LogLevel_from_u8 (wrap 8 level_u16))
    (ParseError ("Invalid log level: " +:+ dec level_u16));
  plc_timestamp ← read_filetime now;
  clock_timestamp ← read_dc_task_time now;
  task_index ← read_i32;
  task_name ← read_string;
  task_cycle_counter ← read_u32;
  app_name ← read_string;
  project_name ← read_string;
  online_change_count ← read_u32;
  n ← get_remaining;
  '(arguments, context) ← v1_items (S n) ∅ ∅;
  mret {| al_version := version; al_message := message; al_logger := logger; al_level := level;
          al_plc_timestamp := plc_timestamp; al_clock_timestamp := clock_timestamp;
          al_task_index := task_index; al_task_name := task_name;
          al_task_cycle_counter := task_cycle_counter; al_app_name := app_name;
          al_project_name := project_name; al_online_change_count := online_change_count;
          al_trace_id := zeros 16; al_span_id := zeros 8; al_arguments := arguments;
          al_context := context |}.

(** ** Log entry, protocol v2 *)

(** The argument loop; keys are 1-based. *)
Fixpoint v2_arguments (count arg_idx : nat) (arguments : gmap nat Value)
    : Parser (gmap nat Value) :=
  match count with
  | O => mret arguments
  | S count =>
    if (MAX_ARGUMENTS <=? size arguments)%nat then fail (ParseError "Too many arguments")
    else
      value ← read_v2_value;
      v2_arguments count (S arg_idx) (<[(arg_idx + 1)%nat := value]> arguments)
  end.

(** The properties of one context scope. *)
Fixpoint v2_properties (count : nat) (scope : Z) (context : attrs) (context_idx : nat)
    : Parser (attrs * nat) :=
  match count with
  | O => mret (context, context_idx)
  | S count =>
    name ← read_string;
    value ← read_v2_value;
    v2_properties count scope (<[scope_key scope name := value]> context) (S context_idx)
  end.

(** The context loop: the limit is tested once per scope. *)
Fixpoint v2_context (count : nat) (context : attrs) (context_idx : nat) : Parser attrs :=
  match count with
  | O => mret context
  | S count =>
    if (MAX_CONTEXT_VARS <=? context_idx)%nat then fail (ParseError "Too many context variables")
    else
      scope ← read_u8;
      prop_count ← read_u8;
      '(context, context_idx) ← v2_properties (Z.to_nat prop_count) scope context context_idx;
      v2_context count context context_idx
  end.

(** From the level byte to the end of the context, the part that plain and
    traced v2 entries share. *)
Definition parse_v2_fields (trace_id span_id : bytes) : Parser AdsLogEntry :=
  level_byte ← read_u8;
  level ← ok_or (LogLevel_from_u8 level_byte)
    (ParseError ("Invalid log level: " +:+ dec level_byte));
  plc_timestamp ← read_filetime now;
  clock_timestamp ← read_dc_task_time now;
  task_index ← read_u8;
  cycle_counter ← read_u32;
  arg_count ← read_u8;
  context_count ← read_u8;
  message ← read_string;
  logger ← read_string;
  arguments ← v2_arguments (Z.to_nat arg_count) 0 ∅;
  context ← v2_context (Z.to_nat context_count) ∅ 0;
  mret {| al_version := V2; al_message := message; al_logger := logger; al_level := level;
          al_plc_timestamp := plc_timestamp; al_clock_timestamp := clock_timestamp;
          al_task_index := task_index; al_task_name := "";
          al_task_cycle_counter := cycle_counter; al_app_name := ""; al_project_name := "";
          al_online_change_count := 0; al_trace_id := trace_id; al_span_id := span_id;
          al_arguments := arguments; al_context := context |}.

(** The entry length, the body, and the jump to the announced end:
    [reader.pos = entry_start + entry_length]. *)
Definition with_entry_length {A} (body : Parser A) : Parser A :=
  entry_length ← read_u16;
  entry_start ← get_pos;
  a ← body;
  set_pos (entry_start + Z.to_nat entry_length);;
  mret a.

(** [AdsParser::parse_v2_from_reader]. *)
Definition parse_v2_from_reader : Parser AdsLogEntry :=
  version_byte ← read_u8;
  if negb (version_byte =? 2) then fail (InvalidVersion version_byte)
  else with_entry_length (parse_v2_fields (zeros 16) (zeros 8)).

(** [AdsParser::parse_v2_traced_from_reader]. *)
Definition parse_v2_traced_from_reader : Parser AdsLogEntry :=
  type_byte ← read_u8;
  if negb (type_byte =? 9) then
    fail (ParseError ("Invalid traced log type: " +:+ dec type_byte))
  else
    with_entry_length
      (trace_id ← read_bytes 16;
       span_id ← read_bytes 8;
       parse_v2_fields trace_id span_id).

(** ** Registration *)

(** [AdsParser::parse_registration_from_reader]. *)
Definition parse_registration_from_reader : Parser RegistrationMessage :=
  type_byte ← read_u8;
  if negb (type_byte =? 3) then
    fail (ParseError ("Invalid registration type: " +:+ dec type_byte))
  else
    task_index ← read_u8;
    task_name ← read_string;
    app_name ← read_string;
    project_name ← read_string;
    online_change_count ← read_u32;
    app_port ← read_u16;
    mret (mkRegistration task_index task_name app_name project_name online_change_count app_port).

(** ** Span events *)

(** SPAN_BEGIN, after the 12-byte header. *)
Definition parse_span_begin (local_id task_index flags dc_time : Z) : Parser TraceWireEvent :=
  parent_span_id ← read_bytes 8;
  kind ← read_u8;
  name_len ← read_u8;
  _ ← read_bytes 2;
  if 127 <? name_len then fail (ParseError "SPAN_BEGIN: name length exceeds 127")
  else
    trace_id ← read_bytes 16;
    span_id ← read_bytes 8;
    name ← read_utf8 (Z.to_nat name_len) "SPAN_BEGIN: invalid UTF-8 in name";
    traceparent ←
      (if negb (Z.land flags 2 =? 0) then
         tp_len ← read_u8;
         if 127 <? tp_len then fail (ParseError "SPAN_BEGIN: traceparent length exceeds 127")
         else
           tp ← read_utf8 (Z.to_nat tp_len) "SPAN_BEGIN: invalid UTF-8 in traceparent";
           mret (Some tp)
       else mret None);
    scope_namespace ←
      (if negb (Z.land flags 4 =? 0) then
         ns_len ← read_u8;
         if 127 <? ns_len then fail (ParseError "SPAN_BEGIN: namespace length exceeds 127")
         else read_utf8 (Z.to_nat ns_len) "SPAN_BEGIN: invalid UTF-8 in namespace"
       else mret "");
    mret (Begin local_id task_index flags dc_time parent_span_id kind name traceparent
            trace_id span_id scope_namespace).

(** The span id of the later events: the header's second byte and seven more. *)
Definition read_span_id (byte0 : Z) : Parser bytes :=
  rest ← read_bytes 7;
  mret (byte0 :: rest).

(** SPAN_ATTR, after the 12-byte header. *)
Definition parse_span_attr (local_id task_index flags dc_time : Z) : Parser TraceWireEvent :=
  span_id ← read_span_id local_id;
  value_type ← read_u8;
  key_len ← read_u8;
  value_len ← read_u8;
  _ ← read_u8;
  if 31 <? key_len then fail (ParseError "SPAN_ATTR: key length exceeds 31")
  else if 127 <? value_len then fail (ParseError "SPAN_ATTR: value length exceeds 127")
  else
    key ← read_utf8 (Z.to_nat key_len) "SPAN_ATTR: invalid UTF-8 in key";
    value ←
      match value_type with
      | 1 => v ← read_le_signed 8; mret (AI64 v)
      | 2 => v ← read_le 8; mret (AF64 v)
      | 3 => v ← read_u8; mret (ABool (negb (v =? 0)))
      | 4 =>
        v ← read_utf8 (Z.to_nat value_len) "SPAN_ATTR: invalid UTF-8 in string value";
        mret (AString v)
      | _ => fail (ParseError ("SPAN_ATTR: unknown value_type " +:+ dec value_type))
      end;
    mret (Attr span_id task_index flags dc_time key value).

(** One inline attribute of a SPAN_EVENT. *)
Definition parse_event_attr : Parser (string * AttrValue) :=
  value_type ← read_u8;
  key_len ← read_u8;
  _ ← read_u8;
  _ ← read_u8;
  if 31 <? key_len then fail (ParseError "SPAN_EVENT attr: key length exceeds 31")
  else
    key ← read_utf8 (Z.to_nat key_len) "SPAN_EVENT attr: invalid UTF-8 in key";
    value ←
      match value_type with
      | 1 => v ← read_le_signed 8; mret (AI64 v)
      | 2 => v ← read_u8; mret (ABool (negb (v =? 0)))
      | _ => fail (ParseError ("SPAN_EVENT attr: invalid value_type " +:+ dec value_type +:+
                               " (only 1=i64, 2=bool)"))
      end;
    mret (key, value).

(** SPAN_EVENT, after the 12-byte header. *)
Definition parse_span_event (local_id task_index flags dc_time : Z) : Parser TraceWireEvent :=
  span_id ← read_span_id local_id;
  name_len ← read_u8;
  attr_count ← read_u8;
  _ ← read_u16;
  if 31 <? name_len then fail (ParseError "SPAN_EVENT: name length exceeds 31")
  else if 4 <? attr_count then fail (ParseError "SPAN_EVENT: attribute count exceeds 4")
  else
    name ← read_utf8 (Z.to_nat name_len) "SPAN_EVENT: invalid UTF-8 in name";
    attributes ← repeat_read (Z.to_nat attr_count) parse_event_attr;
    mret (Event span_id task_index flags dc_time name attributes).

(** SPAN_END, after the 12-byte header. *)
Definition parse_span_end (local_id task_index flags dc_time : Z) : Parser TraceWireEvent :=
  span_id ← read_span_id local_id;
  status ← read_u8;
  msg_len ← read_u8;
  _ ← read_u16;
  if 127 <? msg_len then fail (ParseError "SPAN_END: message length exceeds 127")
  else
    message ← read_utf8 (Z.to_nat msg_len) "SPAN_END: invalid UTF-8 in message";
    mret (End span_id task_index flags dc_time status message).

(** [AdsParser::parse_v2_trace_event_from_reader]. *)
Definition parse_v2_trace_event_from_reader : Parser TraceWireEvent :=
  event_type ← read_u8;
  local_id ← read_u8;
  task_index ← read_u8;
  flags ← read_u8;
  dc_time ← read_le_signed 8;
  match event_type with
  | 5 => parse_span_begin local_id task_index flags dc_time
  | 6 => parse_span_attr local_id task_index flags dc_time
  | 7 => parse_span_event local_id task_index flags dc_time
  | 8 => parse_span_end local_id task_index flags dc_time
  | _ => fail (ParseError ("Unknown trace event type: " +:+ dec event_type))
  end.

(** ** Attributes: key, type byte, value *)

Fixpoint read_attributes (count : nat) (m : attrs) : Parser attrs :=
  match count with
  | O => mret m
  | S count =>
    key ← read_string;
    value ← read_v2_value;
    read_attributes count (<[key := value]> m)
  end.

(** ** Completed span (message type 5 of the earlier format, unused) *)

Definition parse_ads_span_event : Parser AdsSpanEvent :=
  timestamp ← read_filetime now;
  name ← read_string;
  attr_count ← read_u8;
  if MAX_SPAN_ATTRIBUTES <? attr_count then
    fail (ParseError ("Span event attribute count " +:+ dec attr_count +:+ " exceeds maximum " +:+
                      dec MAX_SPAN_ATTRIBUTES))
  else
    attributes ← read_attributes (Z.to_nat attr_count) ∅;
    mret (mkAdsSpanEvent timestamp name attributes).

Definition parse_span_body : Parser AdsSpanEntry :=
  trace_id ← read_bytes 16;
  span_id ← read_bytes 8;
  parent_span_id ← read_bytes 8;
  kind_byte ← read_u8;
  kind ← ok_or (SpanKind_from_u8 kind_byte) (ParseError ("Invalid span kind: " +:+ dec kind_byte));
  status_byte ← read_u8;
  status_code ← ok_or (SpanStatusCode_from_u8 status_byte)
    (ParseError ("Invalid span status: " +:+ dec status_byte));
  start_time ← read_filetime now;
  end_time ← read_filetime now;
  task_index ← read_u8;
  cycle_counter ← read_u32;
  attr_count ← read_u8;
  event_count ← read_u8;
  if MAX_SPAN_ATTRIBUTES <? attr_count then
    fail (ParseError ("Span attribute count " +:+ dec attr_count +:+ " exceeds maximum " +:+
                      dec MAX_SPAN_ATTRIBUTES))
  else if MAX_SPAN_EVENTS <? event_count then
    fail (ParseError ("Span event count " +:+ dec event_count +:+ " exceeds maximum " +:+
                      dec MAX_SPAN_EVENTS))
  else
    name ← read_string;
    status_message ← read_string;
    attributes ← read_attributes (Z.to_nat attr_count) ∅;
    events ← repeat_read (Z.to_nat event_count) parse_ads_span_event;
    mret (mkAdsSpanEntry trace_id span_id parent_span_id name kind status_code status_message
            start_time end_time task_index cycle_counter attributes events).

(** [AdsParser::parse_span_from_reader]. *)
Definition parse_span_from_reader : Parser AdsSpanEntry :=
  type_byte ← read_u8;
  if negb (type_byte =? 5) then fail (ParseError ("Invalid span type: " +:+ dec type_byte))
  else with_entry_length parse_span_body.

(** ** Metric *)

(** The histogram fields: bounds, counts, total count and sum. *)
Definition parse_histogram : Parser (list Z * list Z * Z * Z) :=
  bucket_count ← read_u8;
  if MAX_HISTOGRAM_BUCKETS <? bucket_count then
    fail (ParseError ("Histogram bucket count " +:+ dec bucket_count +:+ " exceeds maximum " +:+
                      dec MAX_HISTOGRAM_BUCKETS))
  else
    bounds ← repeat_read (Z.to_nat bucket_count) (read_le 8);
    counts ← repeat_read (Z.to_nat bucket_count + 1) (read_le 8);
    count ← read_le 8;
    sum ← read_le 8;
    mret (bounds, counts, count, sum).

Definition parse_metric_body : Parser AdsMetricEntry :=
  kind_byte ← read_u8;
  kind ← ok_or (MetricKind_from_u8 kind_byte)
    (ParseError ("Invalid metric kind: " +:+ dec kind_byte));
  timestamp ← read_filetime now;
  task_index ← read_u8;
  cycle_counter ← read_u32;
  attr_count ← read_u8;
  flags ← read_u8;
  if MAX_METRIC_ATTRIBUTES <? attr_count then
    fail (ParseError ("Metric attribute count " +:+ dec attr_count +:+ " exceeds maximum " +:+
                      dec MAX_METRIC_ATTRIBUTES))
  else
    name ← read_string;
    description ← read_string;
    unit ← read_string;
    value ← read_le 8;
    '(bounds, counts, count, sum) ←
      (if bool_decide (kind = Histogram) then parse_histogram else mret ([], [], 0, 0));
    attributes ← read_attributes (Z.to_nat attr_count) ∅;
    mret (mkAdsMetricEntry name description unit kind value timestamp task_index cycle_counter
            (negb (Z.land flags 1 =? 0)) attributes bounds counts count sum).

(** [AdsParser::parse_metric_from_reader]. *)
Definition parse_metric_from_reader : Parser AdsMetricEntry :=
  type_byte ← read_u8;
  if negb (type_byte =? 4) then fail (ParseError ("Invalid metric type: " +:+ dec type_byte))
  else with_entry_length parse_metric_body.

(** ** Whole buffers *)

Record ParseResult := mkResult {
  pr_entries : list AdsLogEntry;
  pr_registrations : list RegistrationMessage;
  pr_spans : list AdsSpanEntry;
  pr_metrics : list AdsMetricEntry;
  pr_trace_events : list TraceWireEvent;
}.

Definition empty_result : ParseResult := mkResult [] [] [] [] [].

Definition push_entry (acc : ParseResult) (e : AdsLogEntry) : ParseResult :=
  mkResult (pr_entries acc ++ [e]) (pr_registrations acc) (pr_spans acc) (pr_metrics acc)
    (pr_trace_events acc).
Definition push_registration (acc : ParseResult) (e : RegistrationMessage) : ParseResult :=
  mkResult (pr_entries acc) (pr_registrations acc ++ [e]) (pr_spans acc) (pr_metrics acc)
    (pr_trace_events acc).
Definition push_metric (acc : ParseResult) (e : AdsMetricEntry) : ParseResult :=
  mkResult (pr_entries acc) (pr_registrations acc) (pr_spans acc) (pr_metrics acc ++ [e])
    (pr_trace_events acc).
Definition push_trace_event (acc : ParseResult) (e : TraceWireEvent) : ParseResult :=
  mkResult (pr_entries acc) (pr_registrations acc) (pr_spans acc) (pr_metrics acc)
    (pr_trace_events acc ++ [e]).

Definition is_empty {A} (l : list A) : bool := match l with [] => true | _ => false end.

(** What one turn of the loop does. *)
Inductive step :=
| Continue (acc : ParseResult) (r : BytesReader)
| Stop (o : outcome AdsError ParseResult).

(** Runs a message parser: a parsed message is pushed, an error is handled. *)
Definition on_message {A} (m : outcome AdsError A * BytesReader)
    (push : A -> ParseResult) (on_err : AdsError -> BytesReader -> step) : step :=
  match m with
  | (Ok a, r) => Continue (push a) r
  | (Err e, r) => on_err e r
  | (Panic, _) => Stop Panic
  | (OutOfFuel, _) => Stop OutOfFuel
  end.

(** [if cond { return Err(e) } break]. *)
Definition fail_or_break (cond : bool) (acc : ParseResult) (e : AdsError) : step :=
  if cond then Stop (Err e) else Stop (Ok acc).

(** The message types on which the v2 branch accepts to resynchronise. *)
Definition is_resync_type (b : Z) : bool := in_range 1 6 (Some b) || (b =? 0) || (b =? 255).

(** The skip attempt of the v2 branch: the position after the announced entry. *)
Definition skip_v2 (data : bytes) (entry_pos : nat) : option nat :=
  if (3 <=? remaining (mkReader data entry_pos))%nat then
    match read_u16 (mkReader data (entry_pos + 1)) with
    | (Ok entry_len, _) =>
      let next_pos := (entry_pos + 3 + Z.to_nat entry_len)%nat in
      if (next_pos <? length data)%nat && (entry_pos <? next_pos)%nat then
        match data !! next_pos with
        | Some next_type => if is_resync_type next_type then Some next_pos else None
        | None => None
        end
      else None
    | _ => None
    end
  else None.

(** The [2 => ...] arm. *)
Definition step_v2 (acc : ParseResult) (r : BytesReader) : step :=
  let entry_pos := rd_pos r in
  match slice_at (rd_data r) entry_pos (entry_pos + Nat.min 40 (remaining r)) with
  | None => Stop Panic
  | Some _ =>
    on_message (parse_v2_from_reader r) (push_entry acc) (fun e r' =>
      match skip_v2 (rd_data r') entry_pos with
      | Some next_pos => Continue acc (mkReader (rd_data r') next_pos)
      | None => fail_or_break (is_empty (pr_entries acc) && is_empty (pr_registrations acc)) acc e
      end)
  end.

(** The [9 => ...] arm. *)
Definition step_traced (acc : ParseResult) (r : BytesReader) : step :=
  let entry_pos := rd_pos r in
  on_message (parse_v2_traced_from_reader r) (push_entry acc) (fun e r' =>
    if negb (is_empty (pr_entries acc)) || negb (is_empty (pr_registrations acc)) then Stop (Ok acc)
    else if (3 <=? remaining r')%nat then
      match read_u16 (mkReader (rd_data r') (entry_pos + 1)) with
      | (Ok entry_len, _) =>
        Continue acc (mkReader (rd_data r') (entry_pos + 1 + 2 + Z.to_nat entry_len))
      | (Err _, _) => Stop (Ok acc)
      | (Panic, _) => Stop Panic
      | (OutOfFuel, _) => Stop OutOfFuel
      end
    else Stop (Ok acc)).

(** One turn of the loop of [parse_all], [message_type] the byte at the
    current position. *)
Definition parse_step (message_type : Z) (acc : ParseResult) (r : BytesReader) : step :=
  let nothing := is_empty (pr_entries acc) && is_empty (pr_registrations acc) &&
                 is_empty (pr_metrics acc) in
  match message_type with
  | 1 => on_message (parse_v1_from_reader r) (push_entry acc)
           (fun e _ => fail_or_break nothing acc e)
  | 2 => step_v2 acc r
  | 3 => on_message (parse_registration_from_reader r) (push_registration acc)
           (fun _ _ => Stop (Ok acc))
  | 4 => on_message (parse_metric_from_reader r) (push_metric acc)
           (fun e _ => fail_or_break nothing acc e)
  | 9 => step_traced acc r
  | 5 | 6 | 7 | 8 =>
    on_message (parse_v2_trace_event_from_reader r) (push_trace_event acc)
      (fun e _ => fail_or_break (nothing && is_empty (pr_trace_events acc)) acc e)
  | _ => Stop (Ok acc)
  end.

Fixpoint parse_loop (fuel : nat) (acc : ParseResult) (r : BytesReader)
    : outcome AdsError ParseResult :=
  match fuel with
  | O => OutOfFuel
  | S fuel =>
    if (remaining r =? 0)%nat then Ok acc
    else
      match peek r with
      | None => Ok acc
      | Some message_type =>
        if (message_type =? 0) || (message_type =? 255) then Ok acc
        else
          match parse_step message_type acc r with
          | Continue acc r => parse_loop fuel acc r
          | Stop o => o
          end
      end
  end.

Definition size_error (data : bytes) : AdsError :=
  ParseError ("Message size " +:+ dec (len data) +:+ " exceeds maximum " +:+ dec MAX_MESSAGE_SIZE).

(** [AdsParser::parse_all]. *)
Definition parse_all (data : bytes) : outcome AdsError ParseResult :=
  if MAX_MESSAGE_SIZE <? len data then Err (size_error data)
  else parse_loop (S (length data)) empty_result (BytesReader_new data).

(** [AdsParser::parse]: a single v1 entry. *)
Definition parse (data : bytes) : outcome AdsError AdsLogEntry :=
  if MAX_MESSAGE_SIZE <? len data then Err (size_error data)
  else (parse_v1_from_reader (BytesReader_new data)).1.

End Parsers.

(** ** Safety of the message parsers *)

#[export] Instance Safe_read_utf8 n msg : Safe (read_utf8 n msg).
Proof. unfold read_utf8. solve_safe. Qed.

#[export] Instance Safe_repeat_read {A} n (m : Parser A) : Safe m -> Safe (repeat_read n m).
Proof. intros Hm. induction n; simpl; solve_safe. Qed.

(** [advances m]: a parser that ends with its own [reader.pos = ...] still
    completes, and on success has moved forward, perhaps past the end. *)
Definition advances {A} (m : Parser A) : Prop := forall r, in_bounds r ->
  completes (m r).1 /\ rd_data (m r).2 = rd_data r /\
  match (m r).1 with
  | Ok _ => (rd_pos r < rd_pos (m r).2)%nat
  | _ => moves r (m r).2
  end.

Lemma read_u8_moves r b r' : in_bounds r -> read_u8 r = (Ok b, r') ->
  r' = mkReader (rd_data r) (rd_pos r + 1) /\ in_bounds r' /\ (1 <= remaining r)%nat.
Proof.
  intros Hb. unfold read_u8. cbv [mbind Parser_bind].
  destruct (read_bytes 1 r) as [[bs|e| |] r0] eqn:Hr; try done.
  apply read_bytes_ok in Hr as (Hl & -> & Hrem); [|done].
  destruct bs as [|b' bs]; [done|]. intros [= <- <-]. split_and!; [done| |done].
  unfold in_bounds, remaining, saturating_sub in *; simpl in *. lia.
Qed.

Lemma advances_u8_bind {A} (f : Z -> Parser A) :
  (forall b, Safe (f b)) -> advances (read_u8 ≫= f).
Proof.
  intros Hf r Hr. pose proof (Safe_bind read_u8 f _ Hf r Hr) as [Hc Hm].
  split; [done|]. split; [apply Hm|].
  cbv [mbind Parser_bind] in *.
  destruct (read_u8 r) as [[b|e| |] r1] eqn:H1; simpl in *; try done.
  apply read_u8_moves in H1 as (-> & Hb1 & _); [|done].
  destruct (Hf b _ Hb1) as [_ (_ & Hp & _)]. simpl in Hp.
  destruct (f b _) as [[a|e| |] r2]; simpl in *; [lia|done..].
Qed.

Lemma advances_with_entry_length {A} (pre : Z -> bool) (e : Z -> AdsError) (body : Parser A) :
  Safe body ->
  advances (b ← read_u8; if pre b then fail (e b) else with_entry_length body).
Proof.
  intros Hbody r Hr. cbv [mbind Parser_bind].
  pose proof (Safe_read_u8 r Hr) as [Hc0 Hm0].
  destruct (read_u8 r) as [[b|?| |] r1] eqn:H1; simpl in *; try (split_and!; by try apply Hm0).
  apply read_u8_moves in H1 as (-> & Hb1 & _); [|done].
  destruct (pre b); [simpl; split_and!; done|].
  unfold with_entry_length. cbv [mbind Parser_bind].
  pose proof (Safe_read_u16 _ Hb1) as [Hc2 Hm2].
  destruct (read_u16 _) as [[n|?| |] r2]; simpl in *;
    try (split_and!; [done| |eapply moves_trans]; by try apply Hm2).
  pose proof (moves_in_bounds _ _ Hm2) as Hb2.
  pose proof (Hbody _ Hb2) as [Hc3 Hm3].
  destruct (body r2) as [[a|?| |] r3]; simpl in *;
    try (split_and!; [done|destruct Hm3 as (-> & _); by destruct Hm2 as (-> & _)
                     |eapply moves_trans; [done|by eapply moves_trans]]).
  destruct Hm2 as (Hd2 & Hp2 & _), Hm3 as (Hd3 & _). simpl in *. split_and!; [done| |lia].
  by rewrite Hd3, Hd2.
Qed.

Section Safety.
Context `{Ext : External} (now : DateTime).

#[export] Instance Safe_read_v2_value : Safe read_v2_value.
Proof. unfold read_v2_value. solve_safe. Qed.

#[export] Instance Safe_v2_arguments n i m : Safe (v2_arguments n i m).
Proof. revert i m. induction n; intros; simpl; solve_safe. Qed.

#[export] Instance Safe_v2_properties n s m i : Safe (v2_properties n s m i).
Proof. revert m i. induction n; intros; simpl; solve_safe. Qed.

#[export] Instance Safe_v2_context n m i : Safe (v2_context n m i).
Proof. revert m i. induction n; intros; simpl; solve_safe. Qed.

#[export] Instance Safe_read_attributes n m : Safe (read_attributes n m).
Proof. revert m. induction n; intros; simpl; solve_safe. Qed.

#[export] Instance Safe_parse_v2_fields t s : Safe (parse_v2_fields now t s).
Proof. unfold parse_v2_fields. solve_safe. Qed.

#[export] Instance Safe_parse_metric_body : Safe (parse_metric_body now).
Proof. unfold parse_metric_body, parse_histogram. solve_safe. Qed.

#[export] Instance Safe_parse_span_body : Safe (parse_span_body now).
Proof. unfold parse_span_body, parse_ads_span_event. solve_safe. Qed.

#[export] Instance Safe_parse_span_begin a b c d : Safe (parse_span_begin a b c d).
Proof. unfold parse_span_begin. solve_safe. Qed.

#[export] Instance Safe_parse_span_attr a b c d : Safe (parse_span_attr a b c d).
Proof. unfold parse_span_attr, read_span_id. solve_safe. Qed.

#[export] Instance Safe_parse_event_attr : Safe parse_event_attr.
Proof. unfold parse_event_attr. solve_safe. Qed.

#[export] Instance Safe_parse_span_event a b c d : Safe (parse_span_event a b c d).
Proof. unfold parse_span_event, read_span_id. solve_safe. Qed.

#[export] Instance Safe_parse_span_end a b c d : Safe (parse_span_end a b c d).
Proof. unfold parse_span_end, read_span_id. solve_safe. Qed.

(** The v1 loop never runs out of the fuel it is given: each turn consumes a
    byte. *)
Lemma v1_items_safe fuel args ctx r :
  in_bounds r -> (remaining r < fuel)%nat -> safe_at (v1_items fuel args ctx) r.
Proof.
  revert args ctx r. induction fuel as [|fuel IH]; intros args ctx r Hr Hf; [lia|].
  cbn [v1_items]. apply safe_at_bind; [by apply Safe_get_remaining|].
  intros n r0 [= <- <-] _. case_match; [by apply Safe_ret|].
  apply safe_at_bind; [by apply Safe_read_u8|]. intros t r1 H1 _.
  apply read_u8_moves in H1 as (-> & Hb1 & Hrem); [|done].
  assert (Hnext : forall args ctx r', moves (mkReader (rd_data r) (rd_pos r + 1)) r' ->
            safe_at (v1_items fuel args ctx) r').
  { intros args' ctx' r' Hm. apply IH; [by eapply moves_in_bounds|].
    destruct Hm as (Hd & Hp & _). unfold remaining, saturating_sub in *. rewrite Hd.
    simpl in *. lia. }
  repeat case_match; try (by apply Safe_ret); try (by apply Safe_fail);
    [| |by apply Hnext, moves_refl].
  all: repeat (apply safe_at_bind; [apply safe; by eapply moves_in_bounds|intros ? ? _ ?]).
  all: apply Hnext; repeat (eassumption || eapply moves_trans).
Qed.

#[export] Instance Safe_v1_tail {A} (f : gmap nat Value * attrs -> Parser A) :
  (forall p, Safe (f p)) -> Safe (n ← get_remaining; p ← v1_items (S n) ∅ ∅; f p).
Proof.
  intros Hf r Hr. apply safe_at_bind; [by apply Safe_get_remaining|]. intros n r0 [= <- <-] _.
  apply safe_at_bind; [apply v1_items_safe; [done|lia]|].
  intros p r' _ Hm. apply Hf. by eapply moves_in_bounds.
Qed.

Lemma advances_v1 : advances (parse_v1_from_reader now).
Proof.
  unfold parse_v1_from_reader. apply advances_u8_bind. intros b.
  repeat first [apply Safe_v1_tail; intros [? ?]; apply _ | apply Safe_bind; [apply _|intros ?]].
Qed.

Lemma advances_v2 : advances (parse_v2_from_reader now).
Proof. apply (advances_with_entry_length (fun b => negb (b =? 2))). apply _. Qed.

Lemma advances_v2_traced : advances (parse_v2_traced_from_reader now).
Proof. apply (advances_with_entry_length (fun b => negb (b =? 9))). solve_safe. Qed.

Lemma advances_metric : advances (parse_metric_from_reader now).
Proof. apply (advances_with_entry_length (fun b => negb (b =? 4))). apply _. Qed.

Lemma advances_span : advances (parse_span_from_reader now).
Proof. apply (advances_with_entry_length (fun b => negb (b =? 5))). apply _. Qed.

Lemma advances_registration : advances parse_registration_from_reader.
Proof. apply advances_u8_bind. solve_safe. Qed.

Lemma advances_trace_event : advances parse_v2_trace_event_from_reader.
Proof. apply advances_u8_bind. intros b. solve_safe. Qed.

(** ** Progress of the loop *)

(** A turn of the loop either stops in an ordinary way or moves on. *)
Definition step_ok (r : BytesReader) (s : step) : Prop :=
  match s with
  | Continue _ r' => rd_data r' = rd_data r /\ (rd_pos r < rd_pos r')%nat
  | Stop o => completes o
  end.

Lemma step_ok_message {A} (m : Parser A) push on_err r :
  advances m -> in_bounds r ->
  (forall e r', rd_data r' = rd_data r -> in_bounds r' -> step_ok r (on_err e r')) ->
  step_ok r (on_message (m r) push on_err).
Proof.
  intros Hm Hr He. destruct (Hm r Hr) as (Hc & Hd & Hp).
  destruct (m r) as [[a|e| |] r']; simpl in *; try done.
  apply He; [done|]. by eapply moves_in_bounds.
Qed.

Lemma step_ok_fail_or_break r c acc e : step_ok r (fail_or_break c acc e).
Proof. unfold fail_or_break. by destruct c. Qed.

Lemma skip_v2_forward data p q : skip_v2 data p = Some q -> (p < q)%nat.
Proof.
  unfold skip_v2. intros H. repeat case_match; simplify_eq. to_prop.
  by match goal with H : _ && _ = true |- _ => apply andb_true_iff in H as [_ ?%Nat.ltb_lt] end.
Qed.

Lemma step_ok_v2 acc r : in_bounds r -> step_ok r (step_v2 now acc r).
Proof.
  intros Hr. unfold step_v2.
  rewrite slice_at_spec by (unfold in_bounds, remaining, saturating_sub in *; lia).
  apply step_ok_message; [apply advances_v2|done|]. intros e r' Hd _.
  destruct (skip_v2 _ _) as [q|] eqn:Hq; [|apply step_ok_fail_or_break].
  apply skip_v2_forward in Hq. by split.
Qed.

Lemma step_ok_traced acc r :
  in_bounds r -> (rd_pos r < length (rd_data r))%nat -> step_ok r (step_traced now acc r).
Proof.
  intros Hr Hlt. unfold step_traced. apply step_ok_message; [apply advances_v2_traced|done|].
  intros e r' Hd _. repeat (case_match; [done|]).
  all: case_match; [|done].
  assert (Hb : in_bounds (mkReader (rd_data r') (rd_pos r + 1))).
  { unfold in_bounds. simpl. rewrite Hd. lia. }
  pose proof (Safe_read_u16 _ Hb) as [Hc _].
  destruct (read_u16 _) as [[n|?| |] ?]; simpl in *; try done. split; [done|lia].
Qed.

Lemma step_ok_parse_step t acc r :
  in_bounds r -> (rd_pos r < length (rd_data r))%nat -> step_ok r (parse_step now t acc r).
Proof.
  intros Hr Hlt. unfold parse_step.
  repeat case_match; try done;
    first [ by apply step_ok_v2 | by apply step_ok_traced | apply step_ok_message; try done ].
  all: auto using advances_v1, advances_registration, advances_metric, advances_trace_event,
         step_ok_fail_or_break.
Qed.

Lemma parse_loop_completes fuel acc r :
  (length (rd_data r) - rd_pos r < fuel)%nat -> completes (parse_loop now fuel acc r).
Proof.
  revert acc r. induction fuel as [|fuel IH]; intros acc r Hf; [lia|]. cbn [parse_loop].
  destruct (Nat.eqb_spec (remaining r) 0) as [|Hrem]; [done|].
  unfold remaining, saturating_sub in Hrem.
  assert (Hstep : forall t, completes (match parse_step now t acc r with
      | Continue acc r => parse_loop now fuel acc r | Stop o => o end)).
  { intros t. pose proof (step_ok_parse_step t acc r) as Hs. unfold in_bounds in Hs.
    destruct (parse_step now t acc r) as [acc' r'|o]; simpl in Hs; [|apply Hs; lia].
    destruct Hs as [Hd Hp]; [lia..|]. apply IH. rewrite Hd. lia. }
  destruct (peek r) as [t|]; [|done]. destruct (_ || _); [done|apply Hstep].
Qed.

(** C21: [parse_all] is total and never panics: on every buffer, well-formed
    or not, it ends with a result or an error; no index or slice is out of
    range and the loop always moves forward. *)
Theorem parse_all_total data : completes (parse_all now data).
Proof.
  unfold parse_all. case_match; [done|]. apply parse_loop_completes. simpl. lia.
Qed.

End Safety.
