(* ===== verification/Wire.v ===== *)
(** * The wire format (parser.rs, protocol.rs: the documented layouts)

    A reference encoder for the messages a PLC writes, following the layouts
    in the documentation comments of parser.rs and protocol.rs, and the
    theorems that the parser recovers what was encoded: typed values, log
    entries (plain and traced), registrations, span events, metrics, and whole
    buffers of them in order. *)

From S2P Require Import Prelude.
From S2P Require Import Text.
From S2P Require Import External.
From S2P Require Import Models.
From S2P Require Import Protocol.
From S2P Require Import Ams.
From S2P Require Import Reader.
From S2P Require Import Parser.

(** ** Compositional codec specification

    [consumes m enc a]: wherever the bytes [enc] stand in a buffer, [m]
    started at their beginning returns [a] and stops at their end. *)

Definition at_pos (pre enc post : bytes) (p : nat) : BytesReader :=
  mkReader (pre ++ enc ++ post) p.

Definition consumes {A} (m : Parser A) (enc : bytes) (a : A) : Prop :=
  forall pre post,
    m (at_pos pre enc post (length pre)) =
    (Ok a, at_pos pre enc post (length pre + length enc)).

Lemma consumes_ret {A} (a : A) : consumes (mret a) [] a.
Proof. intros pre post. simpl. by rewrite Nat.add_0_r. Qed.

Lemma consumes_bind {A B} (m : Parser A) (f : A -> Parser B) e1 e2 a b :
  consumes m e1 a -> consumes (f a) e2 b -> consumes (m ≫= f) (e1 ++ e2) b.
Proof.
  intros Hm Hf pre post. cbv [mbind Parser_bind].
  specialize (Hm pre (e2 ++ post)). specialize (Hf (pre ++ e1) post).
  unfold at_pos in *. rewrite length_app in Hf. rewrite <- app_assoc, Hm.
  rewrite (app_assoc pre), Hf. by rewrite length_app, Nat.add_assoc.
Qed.

(** A step that consumes nothing. *)
Lemma consumes_bind_pure {A B} (m : Parser A) (f : A -> Parser B) e a b :
  consumes m [] a -> consumes (f a) e b -> consumes (m ≫= f) e b.
Proof. intros Hm Hf. apply (consumes_bind m f [] e a b Hm Hf). Qed.

(** The last step before a pure result. *)
Lemma consumes_map {A B} (m : Parser A) (f : A -> B) e a b :
  f a = b -> consumes m e a -> consumes (x ← m; mret (f x)) e b.
Proof.
  intros <- Hm. rewrite <- (app_nil_r e). eapply consumes_bind; [done|apply consumes_ret].
Qed.

Lemma consumes_read_bytes n bs : length bs = n -> consumes (read_bytes n) bs bs.
Proof.
  intros Hn pre post. unfold at_pos. rewrite read_bytes_eq; unfold in_bounds, remaining,
    saturating_sub; simpl; rewrite ?length_app; try lia.
  rewrite drop_app_length, take_app_length' by done. by rewrite Hn.
Qed.

Lemma consumes_read_u8 b : consumes read_u8 [b] b.
Proof.
  unfold read_u8. rewrite <- (app_nil_r [b]).
  eapply consumes_bind; [by apply consumes_read_bytes|]. apply consumes_ret.
Qed.

Lemma consumes_read_le n v :
  in_width (8 * Z.of_nat n) v -> consumes (read_le n) (le_encode n v) v.
Proof.
  intros Hv. apply (consumes_map (read_bytes n) le_decode _ (le_encode n v));
    [by apply in_width_le_roundtrip | apply consumes_read_bytes, length_le_encode].
Qed.

Definition in_swidth (w v : Z) : Prop := - 2 ^ (w - 1) <= v < 2 ^ (w - 1).

Lemma consumes_read_le_signed n v :
  (0 < n)%nat -> in_swidth (8 * Z.of_nat n) v ->
  consumes (read_le_signed n) (le_encode n v) v.
Proof.
  intros Hn Hv.
  apply (consumes_map (read_bytes n) (fun bs => to_signed _ (le_decode bs)) _ (le_encode n v));
    [|apply consumes_read_bytes, length_le_encode].
  rewrite le_decode_encode_mod. change 256 with (2 ^ 8). rewrite <- Z.pow_mul_r by lia.
  apply to_signed_mod; [lia|done].
Qed.

Lemma consumes_ok_or {A} (o : option A) e a : o = Some a -> consumes (ok_or o e) [] a.
Proof. intros ->. apply consumes_ret. Qed.

Lemma consumes_if_false {A} (c : bool) (m1 m2 : Parser A) e a :
  c = false -> consumes m2 e a -> consumes (if c then m1 else m2) e a.
Proof. by intros ->. Qed.

(** ** Strings *)

(** A string field: its text is valid UTF-8 of at most 255 bytes. *)
Definition wire_string (s : string) : Prop := is_str s /\ (String.length s < 256)%nat.

Definition encode_string (s : string) : bytes := Z.of_nat (String.length s) :: bytes_of_string s.

Lemma consumes_read_string s : wire_string s -> consumes read_string (encode_string s) s.
Proof.
  intros [Hs Hl]. unfold read_string, encode_string.
  apply (consumes_bind read_u8 _ [_] (bytes_of_string s) (Z.of_nat (String.length s)));
    [apply consumes_read_u8|].
  apply consumes_if_false; [unfold MAX_STRING_LENGTH; apply Z.ltb_ge; lia|].
  apply (consumes_map (read_bytes _) from_utf8_lossy _ (bytes_of_string s));
    [by apply from_utf8_lossy_bytes_of_string|]. apply consumes_read_bytes.
  by rewrite length_bytes_of_string, Nat2Z.id.
Qed.

Lemma consumes_read_utf8 n msg s :
  is_str s -> n = String.length s -> consumes (read_utf8 n msg) (bytes_of_string s) s.
Proof.
  intros Hs ->. unfold read_utf8. rewrite <- (app_nil_r (bytes_of_string s)).
  eapply consumes_bind; [by apply consumes_read_bytes, length_bytes_of_string|].
  by apply consumes_ok_or, from_utf8_bytes_of_string.
Qed.

Lemma consumes_read_u16 v : in_width 16 v -> consumes read_u16 (le_encode 2 v) v.
Proof. apply (consumes_read_le 2). Qed.
Lemma consumes_read_u32 v : in_width 32 v -> consumes read_u32 (le_encode 4 v) v.
Proof. apply (consumes_read_le 4). Qed.
Lemma consumes_read_u64 v : in_width 64 v -> consumes (read_le 8) (le_encode 8 v) v.
Proof. apply (consumes_read_le 8). Qed.
Lemma consumes_read_i16 v : in_swidth 16 v -> consumes read_i16 (le_encode 2 v) v.
Proof. apply (consumes_read_le_signed 2). lia. Qed.
Lemma consumes_read_i32 v : in_swidth 32 v -> consumes read_i32 (le_encode 4 v) v.
Proof. apply (consumes_read_le_signed 4). lia. Qed.
Lemma consumes_read_i64 v : in_swidth 64 v -> consumes (read_le_signed 8) (le_encode 8 v) v.
Proof. apply (consumes_read_le_signed 8). lia. Qed.

Create HintDb wire discriminated.
#[export] Hint Resolve consumes_read_u8 consumes_read_u16 consumes_read_u32 consumes_read_u64
  consumes_read_i16 consumes_read_i32 consumes_read_i64 consumes_read_string consumes_ret : wire.

(** One bind of a parser against the head of an encoding. *)
Ltac consume :=
  first
    [ apply consumes_ret
    | eapply consumes_bind; [solve [eauto with wire]|]
    | eapply consumes_map; [|solve [eauto with wire]]
    | eapply consumes_bind_pure; [solve [eauto with wire]|]
    | apply consumes_if_false; [done|] ].

(** ** Typed values

    The IEC types a PLC sends, by the name of their type tag. *)

Inductive WireValue :=
| WNull
| WByte (v : Z) | WUsint (v : Z) | WWord (v : Z) | WUint (v : Z) | WDword (v : Z) | WUdint (v : Z)
| WReal (bits : Z) | WLreal (bits : Z)
| WSint (v : Z) | WInt (v : Z) | WDint (v : Z)
| WString (s : string) | WBool (b : bool) | WUlarge (v : Z) | WLarge (v : Z)
| WTime (ms : Z) | WLtime (ns100 : Z) | WDate (secs : Z) | WDt (secs : Z) | WTod (ms : Z)
| WEnum8 (v : Z) | WEnum16 (v : Z) | WEnum32 (v : Z) | WEnum64 (v : Z)
| WWstring (units : list Z).

Definition wf_value (w : WireValue) : Prop :=
  match w with
  | WNull | WBool _ => True
  | WByte v | WUsint v | WEnum8 v => in_width 8 v
  | WWord v | WUint v | WEnum16 v => in_width 16 v
  | WDword v | WUdint v | WEnum32 v | WReal v | WTime v | WDate v | WDt v | WTod v => in_width 32 v
  | WLreal v | WUlarge v | WEnum64 v | WLtime v => in_width 64 v
  | WSint v => in_swidth 8 v
  | WInt v => in_swidth 16 v
  | WDint v => in_swidth 32 v
  | WLarge v => in_swidth 64 v
  | WString s => wire_string s
  | WWstring us => Forall (in_width 16) us /\ (length us < 256)%nat
  end.

(** The v2 type byte. *)
Definition value_tag (w : WireValue) : Z :=
  match w with
  | WNull => 0 | WByte _ => 1 | WUsint _ => 9 | WWord _ => 2 | WUint _ => 10 | WDword _ => 3
  | WUdint _ => 11 | WReal _ => 4 | WLreal _ => 5 | WSint _ => 6 | WInt _ => 7 | WDint _ => 8
  | WString _ => 12 | WBool _ => 13 | WUlarge _ => 15 | WLarge _ => 17 | WTime _ => 100
  | WLtime _ => 101 | WDate _ => 102 | WDt _ => 103 | WTod _ => 104
  | WEnum8 _ | WEnum16 _ | WEnum32 _ | WEnum64 _ => 105
  | WWstring _ => 106
  end.

Definition value_payload (w : WireValue) : bytes :=
  match w with
  | WNull => []
  | WByte v | WUsint v => [v]
  | WWord v | WUint v | WInt v => le_encode 2 v
  | WDword v | WUdint v | WReal v | WDint v | WTime v | WDate v | WDt v | WTod v => le_encode 4 v
  | WLreal v | WUlarge v | WLarge v | WLtime v => le_encode 8 v
  | WSint v => [v mod 256]
  | WString s => encode_string s
  | WBool b => [if b then 1 else 0]
  | WEnum8 v => [1] ++ [v]
  | WEnum16 v => [2] ++ le_encode 2 v
  | WEnum32 v => [3] ++ le_encode 4 v
  | WEnum64 v => [15] ++ le_encode 8 v
  | WWstring us => [Z.of_nat (length us)] ++ mjoin (map (le_encode 2) us)
  end.

Definition encode_value (w : WireValue) : bytes := [value_tag w] ++ value_payload w.

Lemma u16_units_encode us :
  Forall (in_width 16) us -> u16_units (mjoin (map (le_encode 2) us)) = us.
Proof.
  induction 1 as [|u us Hu Hus IH]; [done|].
  change (le_decode (le_encode 2 u) :: u16_units (mjoin (map (le_encode 2) us)) = u :: us).
  by rewrite IH, (in_width_le_roundtrip 2).
Qed.

Lemma length_units us : length (mjoin (map (le_encode 2) us)) = (length us * 2)%nat.
Proof.
  induction us as [|u us IH]; [done|].
  change (length (le_encode 2 u ++ mjoin (map (le_encode 2) us)) = (length (u :: us) * 2)%nat).
  rewrite length_app, IH. simpl. lia.
Qed.

Section Values.
Context `{Ext : External}.

(** The JSON value the exporter sees for a typed value. *)
Definition value_of (w : WireValue) : Value :=
  match w with
  | WNull => Null
  | WByte v | WUsint v | WWord v | WUint v | WDword v | WUdint v | WSint v | WInt v | WDint v
  | WUlarge v | WLarge v | WEnum8 v | WEnum16 v | WEnum32 v | WEnum64 v => json_int v
  | WReal b => json_f32 b
  | WLreal b => json_f64 b
  | WString s => VString s
  | WBool b => VBool b
  | WTime v => VString (format_time v)
  | WLtime v => VString (format_ltime v)
  | WTod v => VString (format_tod v)
  | WDate v => VString ("D#" +:+ format_date (date_of_secs v))
  | WDt v => VString ("DT#" +:+ format_date_time (date_of_secs v))
  | WWstring us => VString (from_utf16_lossy us)
  end.

Lemma consumes_value w : wf_value w -> consumes read_v2_value (encode_value w) (value_of w).
Proof.
  intros Hw. unfold read_v2_value, encode_value.
  eapply consumes_bind; [apply consumes_read_u8|].
  destruct w; cbn [value_tag remap_v2_type_id value_payload value_of wf_value] in *;
    unfold read_value_with_type, read_value_arms, read_enum, read_wstring, read_date, read_date_and_time.
  all: try solve [repeat consume; done].
  - (* SINT *)
    eapply consumes_map; [|apply consumes_read_u8]. f_equal. f_equal.
    change 256 with (2 ^ 8). by apply to_signed_mod.
  - eapply consumes_map; [|apply consumes_read_u8]. by destruct b.
  - destruct Hw as [Hu Hl]. consume.
    eapply consumes_map; [|apply (consumes_read_bytes _ (mjoin (map (le_encode 2) units)))].
    + by rewrite u16_units_encode.
    + by rewrite length_units, Nat2Z.id.
Qed.

End Values.
#[export] Hint Resolve consumes_value : wire.

(** ** Log entries *)

Record WireLog := mkWireLog {
  wl_level : LogLevel;
  wl_filetime : Z;
  wl_dc_time : Z;
  wl_task_index : Z;
  wl_cycle : Z;
  wl_message : string;
  wl_logger : string;
  wl_args : list WireValue;
  wl_scopes : list (Z * list (string * WireValue));
  wl_padding : bytes;
}.

Definition encode_property (p : string * WireValue) : bytes :=
  encode_string p.1 ++ encode_value p.2.

Definition encode_scope (s : Z * list (string * WireValue)) : bytes :=
  [s.1] ++ [Z.of_nat (length s.2)] ++ mjoin (map encode_property s.2).

Definition encode_log_fields (w : WireLog) : bytes :=
  [LogLevel_as_u8 (wl_level w)] ++ le_encode 8 (wl_filetime w) ++ le_encode 8 (wl_dc_time w) ++
  [wl_task_index w] ++ le_encode 4 (wl_cycle w) ++ [Z.of_nat (length (wl_args w))] ++
  [Z.of_nat (length (wl_scopes w))] ++ encode_string (wl_message w) ++
  encode_string (wl_logger w) ++ mjoin (map encode_value (wl_args w)) ++
  mjoin (map encode_scope (wl_scopes w)).

(** A message of type [t]: its length and its body, padding included. *)
Definition encode_entry (t : Z) (body padding : bytes) : bytes :=
  [t] ++ le_encode 2 (len (body ++ padding)) ++ body ++ padding.

Definition encode_log (w : WireLog) : bytes :=
  encode_entry 2 (encode_log_fields w) (wl_padding w).

Definition encode_traced_log (trace_id span_id : bytes) (w : WireLog) : bytes :=
  encode_entry 9 (trace_id ++ span_id ++ encode_log_fields w) (wl_padding w).

Definition wf_property (p : string * WireValue) : Prop := wire_string p.1 /\ wf_value p.2.

(** The properties of each scope are within the limit the parser tests when
    the scope begins, [idx] properties having come before. *)
Fixpoint wf_scopes (idx : nat) (scopes : list (Z * list (string * WireValue))) : Prop :=
  match scopes with
  | [] => True
  | (scope, props) :: scopes =>
    (idx < MAX_CONTEXT_VARS)%nat /\ (length props < 256)%nat /\ Forall wf_property props /\
    wf_scopes (idx + length props) scopes
  end.

Section Logs.
Context `{Ext : External} (now : DateTime).

(** The instant a FILETIME stands for; before 1970 it means "not set". *)
Definition filetime_instant (ft : Z) : option DateTime :=
  if ft <? FILETIME_EPOCH_DIFF then Some now
  else from_timestamp ((ft - FILETIME_EPOCH_DIFF) / 10000000)
         (((ft - FILETIME_EPOCH_DIFF) mod 10000000) * 100).

(** The instant of a distributed-clock time in nanoseconds since 2000. *)
Definition dc_instant (dc : Z) : option DateTime :=
  if dc <=? 0 then Some now
  else from_timestamp (UNIX_TO_DC_EPOCH_SECS + dc / 1000000000) (dc mod 1000000000).

Record wf_log (w : WireLog) : Prop := {
  wf_wl_filetime : in_width 64 (wl_filetime w);
  wf_wl_filetime_ok : is_Some (filetime_instant (wl_filetime w));
  wf_wl_dc : in_swidth 64 (wl_dc_time w);
  wf_wl_dc_ok : is_Some (dc_instant (wl_dc_time w));
  wf_wl_cycle : in_width 32 (wl_cycle w);
  wf_wl_message : wire_string (wl_message w);
  wf_wl_logger : wire_string (wl_logger w);
  wf_wl_args : Forall wf_value (wl_args w);
  wf_wl_args_count : (length (wl_args w) <= MAX_ARGUMENTS)%nat;
  wf_wl_scopes : wf_scopes 0 (wl_scopes w);
  wf_wl_scopes_count : (length (wl_scopes w) < 256)%nat;
}.

(** The context map: later properties win. *)
Definition put_properties (scope : Z) (props : list (string * WireValue)) (m : attrs) : attrs :=
  fold_left (fun m p => <[scope_key scope p.1 := value_of p.2]> m) props m.

Definition put_scopes (scopes : list (Z * list (string * WireValue))) (m : attrs) : attrs :=
  fold_left (fun m s => put_properties s.1 s.2 m) scopes m.

(** The entry an encoded log stands for; arguments are numbered from 1. *)
Definition log_entry_of (trace_id span_id : bytes) (w : WireLog) : AdsLogEntry :=
  {| al_version := V2; al_message := wl_message w; al_logger := wl_logger w;
     al_level := wl_level w;
     al_plc_timestamp := default now (filetime_instant (wl_filetime w));
     al_clock_timestamp := default now (dc_instant (wl_dc_time w));
     al_task_index := wl_task_index w; al_task_name := "";
     al_task_cycle_counter := wl_cycle w; al_app_name := ""; al_project_name := "";
     al_online_change_count := 0; al_trace_id := trace_id; al_span_id := span_id;
     al_arguments := map_seq 1 (map value_of (wl_args w));
     al_context := put_scopes (wl_scopes w) ∅ |}.

Lemma consumes_filetime ft t :
  in_width 64 ft -> filetime_instant ft = Some t ->
  consumes (read_filetime now) (le_encode 8 ft) t.
Proof.
  intros Hw. unfold filetime_instant, read_filetime. intros Ht.
  rewrite <- (app_nil_r (le_encode 8 ft)). consume.
  case_match; [injection Ht as <-; apply consumes_ret | by apply consumes_ok_or].
Qed.

Lemma consumes_dc_task_time dc t :
  in_swidth 64 dc -> dc_instant dc = Some t ->
  consumes (read_dc_task_time now) (le_encode 8 dc) t.
Proof.
  intros Hw. unfold dc_instant, read_dc_task_time. intros Ht.
  rewrite <- (app_nil_r (le_encode 8 dc)). consume.
  case_match; [injection Ht as <-; apply consumes_ret | by apply consumes_ok_or].
Qed.

Lemma size_map_seq (l : list Value) i : size (map_seq i l : gmap nat Value) = length l.
Proof.
  revert i. induction l as [|v l IH]; intros i; [done|]. rewrite map_seq_cons.
  rewrite map_size_insert_None; [by rewrite IH|]. apply lookup_map_seq_None. lia.
Qed.

Lemma consumes_v2_arguments ws done :
  Forall wf_value ws -> (length done + length ws <= MAX_ARGUMENTS)%nat ->
  consumes (v2_arguments (length ws) (length done) (map_seq 1 done))
    (mjoin (map encode_value ws)) (map_seq 1 (done ++ map value_of ws)).
Proof.
  intros Hws. revert done. induction Hws as [|w ws Hw Hws IH]; intros done Hl.
  - rewrite app_nil_r. apply consumes_ret.
  - cbn [length] in Hl. cbn [v2_arguments length].
    change (mjoin (map encode_value (w :: ws))) with
      (encode_value w ++ mjoin (map encode_value ws)).
    apply consumes_if_false.
    { apply Nat.leb_gt. rewrite size_map_seq. lia. }
    eapply consumes_bind; [by apply consumes_value|].
    rewrite Nat.add_comm, <- map_seq_snoc.
    specialize (IH (done ++ [value_of w])).
    replace (length (done ++ [value_of w])) with (S (length done)) in IH
      by (rewrite length_app; simpl; lia).
    rewrite <- (app_assoc done) in IH. apply IH. lia.
Qed.

Lemma consumes_v2_properties props scope m idx :
  Forall wf_property props ->
  consumes (v2_properties (length props) scope m idx)
    (mjoin (map encode_property props))
    (put_properties scope props m, (idx + length props)%nat).
Proof.
  intros Hp. revert m idx. induction Hp as [|[name w] props [Hn Hw] Hps IH]; intros m idx.
  - simpl. rewrite Nat.add_0_r. apply consumes_ret.
  - change (mjoin (map encode_property ((name, w) :: props))) with
      ((encode_string name ++ encode_value w) ++ mjoin (map encode_property props)).
    rewrite <- app_assoc. cbn [v2_properties length]. simpl in Hn, Hw.
    eapply consumes_bind; [by apply consumes_read_string|].
    eapply consumes_bind; [by apply consumes_value|].
    rewrite <- Nat.add_succ_comm. apply IH.
Qed.

Lemma consumes_v2_context scopes m idx :
  wf_scopes idx scopes ->
  consumes (v2_context (length scopes) m idx) (mjoin (map encode_scope scopes))
    (put_scopes scopes m).
Proof.
  revert m idx. induction scopes as [|[scope props] scopes IH]; intros m idx Hs; [apply consumes_ret|].
  destruct Hs as (Hi & Hl & Hp & Hs).
  change (mjoin (map encode_scope ((scope, props) :: scopes))) with
    (([scope] ++ [Z.of_nat (length props)] ++ mjoin (map encode_property props)) ++
     mjoin (map encode_scope scopes)).
  rewrite <- !app_assoc. cbn [v2_context length].
  apply consumes_if_false; [by apply Nat.leb_gt|].
  do 2 consume. rewrite Nat2Z.id.
  eapply consumes_bind; [by apply consumes_v2_properties|]. by apply IH.
Qed.

Lemma LogLevel_from_as l : LogLevel_from_u8 (LogLevel_as_u8 l) = Some l.
Proof. by destruct l. Qed.

Lemma consumes_log_fields trace_id span_id w :
  wf_log w ->
  consumes (parse_v2_fields now trace_id span_id) (encode_log_fields w)
    (log_entry_of trace_id span_id w).
Proof.
  intros [Hft [t Ht] Hdc [d Hd] Hcy Hms Hlg Hargs Hac Hsc Hscc].
  unfold parse_v2_fields, encode_log_fields, log_entry_of. rewrite Ht, Hd. cbn [default].
  consume. eapply consumes_bind_pure; [apply consumes_ok_or, LogLevel_from_as|].
  eapply consumes_bind; [by apply consumes_filetime|].
  eapply consumes_bind; [by apply consumes_dc_task_time|].
  do 6 consume. rewrite !Nat2Z.id.
  eapply consumes_bind; [by apply (consumes_v2_arguments _ [])|].
  eapply consumes_map; [|by apply consumes_v2_context]. done.
Qed.

End Logs.

(** ** Length-prefixed entries *)

Lemma consumes_with_entry_length {A} (body : Parser A) enc padding a :
  consumes body enc a -> in_width 16 (len (enc ++ padding)) ->
  consumes (with_entry_length body) (le_encode 2 (len (enc ++ padding)) ++ enc ++ padding) a.
Proof.
  intros Hb Hw pre post. unfold with_entry_length. cbv [mbind Parser_bind].
  set (n := len (enc ++ padding)) in *.
  pose proof (consumes_read_u16 n Hw pre (enc ++ padding ++ post)) as H1.
  pose proof (Hb (pre ++ le_encode 2 n) (padding ++ post)) as H2.
  unfold at_pos in *. rewrite <- !app_assoc in *. rewrite H1.
  rewrite length_app in H2. cbn [get_pos rd_pos]. unfold get_pos. cbn [rd_pos]. rewrite H2.
  unfold set_pos. cbn [rd_data]. do 2 f_equal. cbv [mret Parser_ret].
  rewrite !length_app. unfold n, len. rewrite Nat2Z.id, length_app. lia.
Qed.

(** ** Registrations *)

Record wf_registration (m : RegistrationMessage) : Prop := {
  wf_rm_task_name : wire_string (rm_task_name m);
  wf_rm_app_name : wire_string (rm_app_name m);
  wf_rm_project_name : wire_string (rm_project_name m);
  wf_rm_occ : in_width 32 (rm_online_change_count m);
  wf_rm_port : in_width 16 (rm_app_port m);
}.

Definition encode_registration (m : RegistrationMessage) : bytes :=
  [3] ++ [rm_task_index m] ++ encode_string (rm_task_name m) ++ encode_string (rm_app_name m) ++
  encode_string (rm_project_name m) ++ le_encode 4 (rm_online_change_count m) ++
  le_encode 2 (rm_app_port m).

Lemma consumes_registration m :
  wf_registration m -> consumes parse_registration_from_reader (encode_registration m) m.
Proof.
  intros []. destruct m; simpl in *. unfold parse_registration_from_reader, encode_registration.
  repeat consume. done.
Qed.

(** ** Span events *)

Definition bounded_str (n : nat) (s : string) : Prop := is_str s /\ (String.length s <= n)%nat.

Definition str_len (s : string) : Z := Z.of_nat (String.length s).

Definition encode_attr_value (v : AttrValue) : Z * bytes :=
  match v with
  | AI64 n => (1, le_encode 8 n)
  | AF64 b => (2, le_encode 8 b)
  | ABool b => (3, [if b then 1 else 0])
  | AString s => (4, bytes_of_string s)
  end.

Definition wf_attr_value (v : AttrValue) : Prop :=
  match v with
  | AI64 n => in_swidth 64 n
  | AF64 b => in_width 64 b
  | ABool _ => True
  | AString s => bounded_str 127 s
  end.

(** Inline attributes of a span event are integers and booleans. *)
Definition encode_event_attr (kv : string * AttrValue) : bytes :=
  let '(tag, payload) :=
    match kv.2 with
    | AI64 n => (1, le_encode 8 n)
    | ABool b => (2, [if b then 1 else 0])
    | _ => (0, [])
    end in
  [tag] ++ [str_len kv.1] ++ [len payload] ++ [0] ++ bytes_of_string kv.1 ++ payload.

Definition wf_event_attr (kv : string * AttrValue) : Prop :=
  bounded_str 31 kv.1 /\
  match kv.2 with AI64 n => in_swidth 64 n | ABool _ => True | _ => False end.

Definition event_header (t b1 task_index flags dc_time : Z) : bytes :=
  [t] ++ [b1] ++ [task_index] ++ [flags] ++ le_encode 8 dc_time.

Definition encode_event (ev : TraceWireEvent) : bytes :=
  match ev with
  | Begin local_id task_index flags dc_time parent kind name tp trace_id span_id ns =>
    event_header 5 local_id task_index flags dc_time ++
    parent ++ [kind] ++ [str_len name] ++ [0; 0] ++ trace_id ++ span_id ++ bytes_of_string name ++
    match tp with Some tp => [str_len tp] ++ bytes_of_string tp | None => [] end ++
    (if Z.land flags 4 =? 0 then [] else [str_len ns] ++ bytes_of_string ns)
  | Attr span_id task_index flags dc_time key value =>
    let '(tag, payload) := encode_attr_value value in
    event_header 6 (hd 0 span_id) task_index flags dc_time ++
    tail span_id ++ [tag] ++ [str_len key] ++ [len payload] ++ [0] ++ bytes_of_string key ++ payload
  | Event span_id task_index flags dc_time name attributes =>
    event_header 7 (hd 0 span_id) task_index flags dc_time ++
    tail span_id ++ [str_len name] ++ [Z.of_nat (length attributes)] ++ le_encode 2 0 ++
    bytes_of_string name ++ mjoin (map encode_event_attr attributes)
  | End span_id task_index flags dc_time status message =>
    event_header 8 (hd 0 span_id) task_index flags dc_time ++
    tail span_id ++ [status] ++ [str_len message] ++ le_encode 2 0 ++ bytes_of_string message
  end.

Definition wf_event (ev : TraceWireEvent) : Prop :=
  match ev with
  | Begin local_id task_index flags dc_time parent kind name tp trace_id span_id ns =>
    in_swidth 64 dc_time /\ length parent = 8%nat /\ length trace_id = 16%nat /\
    length span_id = 8%nat /\ bounded_str 127 name /\
    (if Z.land flags 2 =? 0 then tp = None else exists s, tp = Some s /\ bounded_str 127 s) /\
    (if Z.land flags 4 =? 0 then ns = "" else bounded_str 127 ns)
  | Attr span_id task_index flags dc_time key value =>
    in_swidth 64 dc_time /\ length span_id = 8%nat /\ bounded_str 31 key /\ wf_attr_value value
  | Event span_id task_index flags dc_time name attributes =>
    in_swidth 64 dc_time /\ length span_id = 8%nat /\ bounded_str 31 name /\
    (length attributes <= 4)%nat /\ Forall wf_event_attr attributes
  | End span_id task_index flags dc_time status message =>
    in_swidth 64 dc_time /\ length span_id = 8%nat /\ bounded_str 127 message
  end.

Lemma str_len_bound n s : bounded_str n s -> (Z.of_nat n <? str_len s) = false.
Proof. intros [_ H]. unfold str_len. apply Z.ltb_ge. lia. Qed.

Lemma consumes_bounded n s msg :
  bounded_str n s -> consumes (read_utf8 (Z.to_nat (str_len s)) msg) (bytes_of_string s) s.
Proof. intros [Hs _]. apply consumes_read_utf8; [done|]. unfold str_len. lia. Qed.

Lemma consumes_read_span_id span_id :
  length span_id = 8%nat -> consumes (read_span_id (hd 0 span_id)) (tail span_id) span_id.
Proof.
  intros Hl. destruct span_id as [|b s]; [done|]. simpl in *.
  unfold read_span_id. eapply consumes_map; [done|]. apply consumes_read_bytes. lia.
Qed.

Lemma consumes_repeat_read {A B} (m : Parser A) (enc : B -> bytes) (val : B -> A) (l : list B) :
  (forall b, b ∈ l -> consumes m (enc b) (val b)) ->
  consumes (repeat_read (length l) m) (mjoin (map enc l)) (map val l).
Proof.
  induction l as [|b l IH]; intros Hl; [apply consumes_ret|].
  change (mjoin (map enc (b :: l))) with (enc b ++ mjoin (map enc l)). cbn [repeat_read length].
  eapply consumes_bind; [apply Hl; by left|].
  eapply consumes_map; [|apply IH; intros; apply Hl; by right]. done.
Qed.

Lemma consumes_event_attr kv : wf_event_attr kv -> consumes parse_event_attr (encode_event_attr kv) kv.
Proof.
  destruct kv as [k v]; intros [Hk Hv]; simpl in *. unfold parse_event_attr, encode_event_attr.
  destruct v as [n|b|b|s]; try done; cbn [fst snd]; do 4 consume;
    (apply consumes_if_false; [by apply (str_len_bound 31)|]);
    (eapply consumes_bind; [by eapply consumes_bounded|]).
  - eapply consumes_map; [done|]. by eapply consumes_map; [|apply consumes_read_i64].
  - eapply consumes_map; [done|]. eapply consumes_map; [|apply consumes_read_u8]. by destruct b.
Qed.

Lemma consumes_event_header {A} t b1 ti fl dc (k : Z -> Z -> Z -> Z -> Z -> Parser A) enc a :
  in_swidth 64 dc -> consumes (k t b1 ti fl dc) enc a ->
  consumes (t ← read_u8; b1 ← read_u8; ti ← read_u8; fl ← read_u8; dc ← read_le_signed 8;
            k t b1 ti fl dc) (event_header t b1 ti fl dc ++ enc) a.
Proof. intros Hdc Hk. unfold event_header. rewrite <- !app_assoc. by do 5 consume. Qed.

Lemma consumes_traceparent fl tp :
  (if Z.land fl 2 =? 0 then tp = None else exists s, tp = Some s /\ bounded_str 127 s) ->
  consumes (if negb (Z.land fl 2 =? 0) then
         tp_len ← read_u8;
         if 127 <? tp_len then fail (ParseError "SPAN_BEGIN: traceparent length exceeds 127")
         else
           tp ← read_utf8 (Z.to_nat tp_len) "SPAN_BEGIN: invalid UTF-8 in traceparent";
           mret (Some tp)
       else mret None)
    match tp with Some tp => [str_len tp] ++ bytes_of_string tp | None => [] end tp.
Proof.
  intros Htp. destruct (Z.land fl 2 =? 0); cbn [negb].
  - subst tp. apply consumes_ret.
  - destruct Htp as (s & -> & Hs'). consume.
    apply consumes_if_false; [by apply (str_len_bound 127)|].
    eapply consumes_map; [done|]. by eapply consumes_bounded.
Qed.

Lemma consumes_namespace fl ns :
  (if Z.land fl 4 =? 0 then ns = "" else bounded_str 127 ns) ->
  consumes (if negb (Z.land fl 4 =? 0) then
         ns_len ← read_u8;
         if 127 <? ns_len then fail (ParseError "SPAN_BEGIN: namespace length exceeds 127")
         else read_utf8 (Z.to_nat ns_len) "SPAN_BEGIN: invalid UTF-8 in namespace"
       else mret "")
    (if Z.land fl 4 =? 0 then [] else [str_len ns] ++ bytes_of_string ns) ns.
Proof.
  intros Hns. destruct (Z.land fl 4 =? 0); cbn [negb].
  - subst ns. apply consumes_ret.
  - consume. apply consumes_if_false; [by apply (str_len_bound 127)|]. by eapply consumes_bounded.
Qed.

Lemma consumes_attr_value v msg1 msg2 :
  wf_attr_value v ->
  consumes (match (encode_attr_value v).1 with
      | 1 => v ← read_le_signed 8; mret (AI64 v)
      | 2 => v ← read_le 8; mret (AF64 v)
      | 3 => v ← read_u8; mret (ABool (negb (v =? 0)))
      | 4 => v ← read_utf8 (Z.to_nat (len (encode_attr_value v).2)) msg1; mret (AString v)
      | _ => fail (ParseError msg2)
      end) (encode_attr_value v).2 v.
Proof.
  destruct v as [n|b|b|s]; cbn [wf_attr_value encode_attr_value fst snd]; intros Hv.
  - by eapply consumes_map; [|apply consumes_read_i64].
  - by eapply consumes_map; [|apply consumes_read_u64].
  - eapply consumes_map; [|apply consumes_read_u8]. by destruct b.
  - eapply consumes_map; [done|]. unfold len. rewrite length_bytes_of_string.
    by eapply consumes_bounded.
Qed.

Lemma consumes_begin local_id ti fl dc parent kind name tp tid sid ns :
  wf_event (Begin local_id ti fl dc parent kind name tp tid sid ns) ->
  consumes parse_v2_trace_event_from_reader
    (encode_event (Begin local_id ti fl dc parent kind name tp tid sid ns))
    (Begin local_id ti fl dc parent kind name tp tid sid ns).
Proof.
  intros (Hdc & Hp & Ht & Hs & Hn & Htp & Hns). cbn [encode_event].
  apply consumes_event_header; [done|]. unfold parse_span_begin.
  eapply consumes_bind; [by apply consumes_read_bytes|]. do 2 consume.
  eapply consumes_bind; [by apply consumes_read_bytes|].
  apply consumes_if_false; [by apply (str_len_bound 127)|].
  do 2 (eapply consumes_bind; [by apply consumes_read_bytes|]).
  eapply consumes_bind; [by eapply consumes_bounded|].
  eapply consumes_bind; [by apply consumes_traceparent|].
  eapply consumes_map; [done|]. by apply consumes_namespace.
Qed.

Lemma consumes_attr sid ti fl dc key v :
  wf_event (Attr sid ti fl dc key v) ->
  consumes parse_v2_trace_event_from_reader (encode_event (Attr sid ti fl dc key v))
    (Attr sid ti fl dc key v).
Proof.
  intros (Hdc & Hs & Hk & Hv). pose proof (consumes_attr_value v) as Hval.
  cbn [encode_event]. destruct (encode_attr_value v) as [tag pl] eqn:Hev.
  apply consumes_event_header; [done|]. unfold parse_span_attr.
  eapply consumes_bind; [by apply consumes_read_span_id|]. do 4 consume.
  apply consumes_if_false; [by apply (str_len_bound 31)|].
  apply consumes_if_false.
  { destruct v; simplify_eq/=; try done. unfold len. rewrite length_bytes_of_string.
    by apply (str_len_bound 127). }
  eapply consumes_bind; [by eapply consumes_bounded|]. eapply consumes_map; [done|].
  by apply Hval.
Qed.

Lemma consumes_event sid ti fl dc name al :
  wf_event (Event sid ti fl dc name al) ->
  consumes parse_v2_trace_event_from_reader (encode_event (Event sid ti fl dc name al))
    (Event sid ti fl dc name al).
Proof.
  intros (Hdc & Hs & Hn & Hl & Ha). cbn [encode_event].
  apply consumes_event_header; [done|]. unfold parse_span_event.
  eapply consumes_bind; [by apply consumes_read_span_id|]. do 2 consume.
  eapply consumes_bind; [by apply consumes_read_u16|].
  apply consumes_if_false; [by apply (str_len_bound 31)|].
  apply consumes_if_false; [apply Z.ltb_ge; lia|].
  eapply consumes_bind; [by eapply consumes_bounded|]. rewrite Nat2Z.id.
  eapply consumes_map; [|apply (consumes_repeat_read _ encode_event_attr id)].
  - by rewrite map_id.
  - intros kv Hkv. apply consumes_event_attr. rewrite Forall_forall in Ha. by apply Ha.
Qed.

Lemma consumes_end sid ti fl dc st msg :
  wf_event (End sid ti fl dc st msg) ->
  consumes parse_v2_trace_event_from_reader (encode_event (End sid ti fl dc st msg))
    (End sid ti fl dc st msg).
Proof.
  intros (Hdc & Hs & Hm). cbn [encode_event].
  apply consumes_event_header; [done|]. unfold parse_span_end.
  eapply consumes_bind; [by apply consumes_read_span_id|]. do 2 consume.
  eapply consumes_bind; [by apply consumes_read_u16|].
  apply consumes_if_false; [by apply (str_len_bound 127)|].
  eapply consumes_map; [done|]. by eapply consumes_bounded.
Qed.

Lemma consumes_trace_event ev :
  wf_event ev -> consumes parse_v2_trace_event_from_reader (encode_event ev) ev.
Proof.
  destruct ev; [apply consumes_begin|apply consumes_attr|apply consumes_event|apply consumes_end].
Qed.

(** ** Metrics *)

Record WireMetric := mkWireMetric {
  wm_kind : MetricKind;
  wm_filetime : Z;
  wm_task_index : Z;
  wm_cycle : Z;
  wm_flags : Z;
  wm_name : string;
  wm_description : string;
  wm_unit : string;
  wm_value : Z;
  wm_bounds : list Z;
  wm_counts : list Z;
  wm_count : Z;
  wm_sum : Z;
  wm_attributes : list (string * WireValue);
  wm_padding : bytes;
}.

Definition encode_histogram (w : WireMetric) : bytes :=
  [Z.of_nat (length (wm_bounds w))] ++ mjoin (map (le_encode 8) (wm_bounds w)) ++
  mjoin (map (le_encode 8) (wm_counts w)) ++ le_encode 8 (wm_count w) ++ le_encode 8 (wm_sum w).

Definition encode_metric_fields (w : WireMetric) : bytes :=
  [MetricKind_as_u8 (wm_kind w)] ++ le_encode 8 (wm_filetime w) ++ [wm_task_index w] ++
  le_encode 4 (wm_cycle w) ++ [Z.of_nat (length (wm_attributes w))] ++ [wm_flags w] ++
  encode_string (wm_name w) ++ encode_string (wm_description w) ++ encode_string (wm_unit w) ++
  le_encode 8 (wm_value w) ++
  (if bool_decide (wm_kind w = Histogram) then encode_histogram w else []) ++
  mjoin (map encode_property (wm_attributes w)).

Definition encode_metric (w : WireMetric) : bytes :=
  encode_entry 4 (encode_metric_fields w) (wm_padding w).

Lemma MetricKind_from_as k : MetricKind_from_u8 (MetricKind_as_u8 k) = Some k.
Proof. by destruct k. Qed.

Section Metrics.
Context `{Ext : External} (now : DateTime).

Record wf_metric (w : WireMetric) : Prop := {
  wf_wm_filetime : in_width 64 (wm_filetime w);
  wf_wm_filetime_ok : is_Some (filetime_instant now (wm_filetime w));
  wf_wm_cycle : in_width 32 (wm_cycle w);
  wf_wm_name : wire_string (wm_name w);
  wf_wm_description : wire_string (wm_description w);
  wf_wm_unit : wire_string (wm_unit w);
  wf_wm_value : in_width 64 (wm_value w);
  wf_wm_attributes : Forall wf_property (wm_attributes w);
  wf_wm_attr_count : (length (wm_attributes w) <= 32)%nat;
  wf_wm_histogram :
    if bool_decide (wm_kind w = Histogram)
    then Forall (in_width 64) (wm_bounds w) /\ Forall (in_width 64) (wm_counts w) /\
         (length (wm_bounds w) <= 100)%nat /\
         length (wm_counts w) = (length (wm_bounds w) + 1)%nat /\
         in_width 64 (wm_count w) /\ in_width 64 (wm_sum w)
    else wm_bounds w = [] /\ wm_counts w = [] /\ wm_count w = 0 /\ wm_sum w = 0;
}.

Definition put_attributes (l : list (string * WireValue)) (m : attrs) : attrs :=
  fold_left (fun m p => <[p.1 := value_of p.2]> m) l m.

Definition metric_of (w : WireMetric) : AdsMetricEntry :=
  {| am_name := wm_name w; am_description := wm_description w; am_unit := wm_unit w;
     am_kind := wm_kind w; am_value := wm_value w;
     am_timestamp := default now (filetime_instant now (wm_filetime w));
     am_task_index := wm_task_index w; am_task_cycle_counter := wm_cycle w;
     am_is_monotonic := negb (Z.land (wm_flags w) 1 =? 0);
     am_attributes := put_attributes (wm_attributes w) ∅;
     am_histogram_bounds := wm_bounds w; am_histogram_counts := wm_counts w;
     am_histogram_count := wm_count w; am_histogram_sum := wm_sum w |}.

Lemma consumes_read_attributes props m :
  Forall wf_property props ->
  consumes (read_attributes (length props) m) (mjoin (map encode_property props))
    (put_attributes props m).
Proof.
  intros Hp. revert m. induction Hp as [|[name w] props [Hn Hw] Hps IH]; intros m;
    [apply consumes_ret|].
  change (mjoin (map encode_property ((name, w) :: props))) with
    ((encode_string name ++ encode_value w) ++ mjoin (map encode_property props)).
  rewrite <- app_assoc. cbn [read_attributes length]. simpl in Hn, Hw.
  eapply consumes_bind; [by apply consumes_read_string|].
  eapply consumes_bind; [by apply consumes_value|]. apply IH.
Qed.

Lemma consumes_u64_list l :
  Forall (in_width 64) l ->
  consumes (repeat_read (length l) (read_le 8)) (mjoin (map (le_encode 8) l)) l.
Proof.
  intros Hl. rewrite <- (map_id l) at 3. apply consumes_repeat_read. intros v Hv.
  apply consumes_read_u64. rewrite Forall_forall in Hl. by apply Hl.
Qed.

Lemma consumes_histogram w :
  wf_metric w ->
  consumes (if bool_decide (wm_kind w = Histogram) then parse_histogram else mret ([], [], 0, 0))
    (if bool_decide (wm_kind w = Histogram) then encode_histogram w else [])
    (wm_bounds w, wm_counts w, wm_count w, wm_sum w).
Proof.
  intros [_ _ _ _ _ _ _ _ _ Hh]. case_bool_decide.
  - destruct Hh as (Hb & Hc & Hl & Hn & Hct & Hsm). unfold parse_histogram, encode_histogram.
    consume. apply consumes_if_false; [unfold MAX_HISTOGRAM_BUCKETS; apply Z.ltb_ge; lia|].
    rewrite Nat2Z.id, <- Hn.
    do 2 (eapply consumes_bind; [by apply consumes_u64_list|]). do 2 consume. done.
  - destruct Hh as (-> & -> & -> & ->). apply consumes_ret.
Qed.

Lemma consumes_metric_fields w :
  wf_metric w -> consumes (parse_metric_body now) (encode_metric_fields w) (metric_of w).
Proof.
  intros Hwf. pose proof (consumes_histogram w Hwf) as Hh.
  destruct Hwf as [Hft [t Ht] Hcy Hn Hd Hu Hv Ha Hac _].
  unfold parse_metric_body, encode_metric_fields, metric_of. rewrite Ht. cbn [default].
  consume. eapply consumes_bind_pure; [apply consumes_ok_or, MetricKind_from_as|].
  eapply consumes_bind; [by apply consumes_filetime|]. do 4 consume.
  apply consumes_if_false; [unfold MAX_METRIC_ATTRIBUTES; apply Z.ltb_ge; lia|].
  do 4 consume. eapply consumes_bind; [done|]. rewrite Nat2Z.id.
  eapply consumes_map; [|by apply consumes_read_attributes]. done.
Qed.

End Metrics.
