(* ===== verification/Batch.v ===== *)
(** * Whole buffers (parser.rs: [AdsParser::parse_all])

    A PLC packs several messages into one ADS write. The reference encoder of
    [Wire] is extended to protocol v1 entries and to buffers, and [parse_all]
    is shown to recover every message of a buffer, in order, whatever padding
    follows; then what [parse_all] does with a buffer it cannot fully parse:
    resynchronisation after a malformed v2 entry, partial results, the size
    and element limits. *)

From S2P Require Import Prelude.
From S2P Require Import Text.
From S2P Require Import External.
From S2P Require Import Models.
From S2P Require Import Protocol.
From S2P Require Import Ams.
From S2P Require Import Reader.
From S2P Require Import Parser.
From S2P Require Import Wire.

(** ** Protocol v1 entries *)

(** Type tags of protocol v1 are 16 bits wide, those of the time, enum and
    wide-string types start at 20000. *)
Definition v1_tag (w : WireValue) : Z := remap_v2_type_id (value_tag w).

Definition v1_payload (w : WireValue) : bytes :=
  match w with
  | WEnum8 v => le_encode 2 1 ++ [v]
  | WEnum16 v => le_encode 2 2 ++ le_encode 2 v
  | WEnum32 v => le_encode 2 3 ++ le_encode 4 v
  | WEnum64 v => le_encode 2 15 ++ le_encode 8 v
  | _ => value_payload w
  end.

Definition encode_v1_value (w : WireValue) : bytes := le_encode 2 (v1_tag w) ++ v1_payload w.

(** One item of the tail of a v1 entry: an argument or a context property. *)
Inductive V1Item :=
| V1Arg (index : Z) (w : WireValue)
| V1Ctx (scope : Z) (name : string) (w : WireValue).

Definition encode_v1_item (i : V1Item) : bytes :=
  match i with
  | V1Arg index w => [1] ++ [index] ++ encode_v1_value w
  | V1Ctx scope name w => [2] ++ [scope] ++ encode_string name ++ encode_v1_value w
  end.

Definition wf_v1_item (i : V1Item) : Prop :=
  match i with
  | V1Arg _ w => wf_value w
  | V1Ctx _ name w => wire_string name /\ wf_value w
  end.

Record WireV1 := mkWireV1 {
  w1_message : string;
  w1_logger : string;
  w1_level : LogLevel;
  w1_filetime : Z;
  w1_dc_time : Z;
  w1_task_index : Z;
  w1_task_name : string;
  w1_cycle : Z;
  w1_app_name : string;
  w1_project_name : string;
  w1_online_change_count : Z;
  w1_items : list V1Item;
}.

(** A v1 entry ends with the terminator 0xFF. *)
Definition encode_v1 (w : WireV1) : bytes :=
  [1] ++ encode_string (w1_message w) ++ encode_string (w1_logger w) ++
  le_encode 2 (LogLevel_as_u8 (w1_level w)) ++ le_encode 8 (w1_filetime w) ++
  le_encode 8 (w1_dc_time w) ++ le_encode 4 (w1_task_index w) ++
  encode_string (w1_task_name w) ++ le_encode 4 (w1_cycle w) ++
  encode_string (w1_app_name w) ++ encode_string (w1_project_name w) ++
  le_encode 4 (w1_online_change_count w) ++ mjoin (map encode_v1_item (w1_items w)) ++ [255].

Section V1.
Context `{Ext : External} (now : DateTime).

(** The maps the items build; a repeated key is overwritten. *)
Definition put_v1_item (m : gmap nat Value * attrs) (i : V1Item) : gmap nat Value * attrs :=
  match i with
  | V1Arg index w => (<[Z.to_nat index := value_of w]> m.1, m.2)
  | V1Ctx scope name w => (m.1, <[scope_key scope name := value_of w]> m.2)
  end.

Definition put_v1_items (l : list V1Item) (m : gmap nat Value * attrs) :=
  fold_left put_v1_item l m.

Record wf_v1 (w : WireV1) : Prop := {
  wf_w1_message : wire_string (w1_message w);
  wf_w1_logger : wire_string (w1_logger w);
  wf_w1_filetime : in_width 64 (w1_filetime w);
  wf_w1_filetime_ok : is_Some (filetime_instant now (w1_filetime w));
  wf_w1_dc : in_swidth 64 (w1_dc_time w);
  wf_w1_dc_ok : is_Some (dc_instant now (w1_dc_time w));
  wf_w1_task_index : in_swidth 32 (w1_task_index w);
  wf_w1_task_name : wire_string (w1_task_name w);
  wf_w1_cycle : in_width 32 (w1_cycle w);
  wf_w1_app_name : wire_string (w1_app_name w);
  wf_w1_project_name : wire_string (w1_project_name w);
  wf_w1_occ : in_width 32 (w1_online_change_count w);
  wf_w1_items : Forall wf_v1_item (w1_items w);
  wf_w1_count : (length (w1_items w) <= MAX_ARGUMENTS)%nat;
}.

Definition v1_entry_of (w : WireV1) : AdsLogEntry :=
  let m := put_v1_items (w1_items w) (∅, ∅) in
  {| al_version := V1; al_message := w1_message w; al_logger := w1_logger w;
     al_level := w1_level w;
     al_plc_timestamp := default now (filetime_instant now (w1_filetime w));
     al_clock_timestamp := default now (dc_instant now (w1_dc_time w));
     al_task_index := w1_task_index w; al_task_name := w1_task_name w;
     al_task_cycle_counter := w1_cycle w; al_app_name := w1_app_name w;
     al_project_name := w1_project_name w; al_online_change_count := w1_online_change_count w;
     al_trace_id := zeros 16; al_span_id := zeros 8; al_arguments := m.1; al_context := m.2 |}.

Lemma consumes_v1_value w : wf_value w -> consumes read_value (encode_v1_value w) (value_of w).
Proof.
  intros Hw. unfold read_value, encode_v1_value.
  eapply consumes_bind.
  { apply consumes_read_i16. unfold v1_tag. by destruct w. }
  unfold v1_tag.
  destruct w; cbn [value_tag remap_v2_type_id v1_payload value_payload value_of wf_value] in *;
    unfold read_value_arms, read_enum, read_wstring, read_date, read_date_and_time.
  all: try solve [repeat consume; done].
  - eapply consumes_map; [|apply consumes_read_u8]. f_equal. f_equal.
    change 256 with (2 ^ 8). by apply to_signed_mod.
  - eapply consumes_map; [|apply consumes_read_u8]. by destruct b.
  - eapply consumes_bind; [by apply consumes_read_i16|]. by consume.
  - eapply consumes_bind; [by apply consumes_read_i16|]. by consume.
  - eapply consumes_bind; [by apply consumes_read_i16|]. by consume.
  - eapply consumes_bind; [by apply consumes_read_i16|]. by consume.
  - destruct Hw as [Hu Hl]. consume.
    eapply consumes_map; [|apply (consumes_read_bytes _ (mjoin (map (le_encode 2) units)))].
    + by rewrite u16_units_encode.
    + by rewrite length_units, Nat2Z.id.
Qed.

Lemma size_put_v1_item m i :
  (size (put_v1_item m i).1 <= S (size m.1) /\ size (put_v1_item m i).2 <= S (size m.2))%nat.
Proof.
  destruct i; simpl; split; rewrite ?map_size_insert; repeat case_match; simpl; lia.
Qed.

(** A parser that looks at how much is left sees at least its own encoding. *)
Lemma consumes_remaining {A} (f : nat -> Parser A) (a : A) enc :
  (forall n, (length enc <= n)%nat -> consumes (f n) enc a) ->
  consumes (n ← get_remaining; f n) enc a.
Proof.
  intros Hf pre post. cbv [mbind Parser_bind]. unfold get_remaining.
  apply Hf. unfold remaining, saturating_sub, at_pos. simpl. rewrite !length_app. lia.
Qed.

Lemma consumes_remaining_pos {A} (m : Parser A) (a : A) (x : A) enc :
  enc <> [] -> consumes m enc a ->
  consumes (n ← get_remaining; if (n =? 0)%nat then mret x else m) enc a.
Proof.
  intros Hne Hm. apply consumes_remaining. intros n Hn. apply consumes_if_false; [|done].
  apply Nat.eqb_neq. destruct enc; [done|]. simpl in Hn. lia.
Qed.

Lemma consumes_v1_items l fuel m :
  Forall wf_v1_item l -> (length l < fuel)%nat ->
  (size m.1 + length l <= MAX_ARGUMENTS)%nat -> (size m.2 + length l <= MAX_ARGUMENTS)%nat ->
  consumes (v1_items fuel m.1 m.2) (mjoin (map encode_v1_item l) ++ [255]) (put_v1_items l m).
Proof.
  intros Hl. revert fuel m. induction Hl as [|i l Hi Hl IH]; intros fuel [args ctx] Hf Ha Hc;
    (destruct fuel as [|fuel]; [lia|]); cbn [length fst snd] in Hf, Ha, Hc; cbn [v1_items].
  - apply consumes_remaining_pos; [done|]. rewrite <- (app_nil_r (_ ++ _)).
    eapply (consumes_bind _ _ [255]); [apply consumes_read_u8|]. apply consumes_ret.
  - pose proof (size_put_v1_item (args, ctx) i) as [Hs1 Hs2]. simpl in Hs1, Hs2.
    specialize (IH fuel (put_v1_item (args, ctx) i) ltac:(lia) ltac:(lia) ltac:(lia)).
    change (mjoin (map encode_v1_item (i :: l))) with
      (encode_v1_item i ++ mjoin (map encode_v1_item l)).
    change (put_v1_items (i :: l) (args, ctx)) with
      (put_v1_items l (put_v1_item (args, ctx) i)).
    apply consumes_remaining_pos; [by destruct i|].
    destruct i as [index w|scope name w]; cbn [encode_v1_item put_v1_item fst snd] in *;
      rewrite <- !app_assoc; consume.
    + cbn [Z.eqb orb Pos.eqb]. apply consumes_if_false; [apply Nat.leb_gt; lia|]. consume.
      eapply consumes_bind; [by apply consumes_v1_value|done].
    + destruct Hi as [Hn Hw]. cbn [Z.eqb orb Pos.eqb].
      apply consumes_if_false; [apply Nat.leb_gt; unfold MAX_CONTEXT_VARS, MAX_ARGUMENTS in *; lia|].
      do 2 consume. eapply consumes_bind; [by apply consumes_v1_value|done].
Qed.

Lemma length_v1_items l : (length l <= length (mjoin (map encode_v1_item l)))%nat.
Proof.
  induction l as [|i l IH]; [done|].
  change (mjoin (map encode_v1_item (i :: l))) with
    (encode_v1_item i ++ mjoin (map encode_v1_item l)).
  rewrite length_app. destruct i; simpl; lia.
Qed.

Lemma consumes_v1 w : wf_v1 w -> consumes (parse_v1_from_reader now) (encode_v1 w) (v1_entry_of w).
Proof.
  intros [Hms Hlg Hft [t Ht] Hdc [d Hd] Hti Htn Hcy Han Hpn Hoc Hit Hct].
  unfold parse_v1_from_reader, encode_v1, v1_entry_of. rewrite Ht, Hd. cbn [default].
  consume. eapply consumes_bind_pure; [by apply consumes_ok_or|]. do 2 consume.
  eapply consumes_bind; [by apply (consumes_read_le 2); destruct (w1_level w)|].
  eapply consumes_bind_pure; [apply (consumes_ok_or _ _ (w1_level w)); by destruct (w1_level w)|].
  eapply consumes_bind; [by apply consumes_filetime|].
  eapply consumes_bind; [by apply consumes_dc_task_time|].
  do 6 consume. apply consumes_remaining. intros n Hn. rewrite length_app in Hn.
  pose proof (length_v1_items (w1_items w)) as Hl.
  pose proof (consumes_v1_items (w1_items w) (S n) (∅, ∅) Hit ltac:(lia)) as Hitems.
  cbn [fst snd] in Hitems. rewrite !map_size_empty in Hitems.
  destruct (put_v1_items (w1_items w) (∅, ∅)) as [args ctx].
  rewrite <- (app_nil_r (_ ++ [255])). eapply consumes_bind; [by apply Hitems|]. apply consumes_ret.
Qed.

End V1.

(** ** Messages *)

Inductive WireMsg :=
| MV1 (w : WireV1)
| MLog (w : WireLog)
| MTraced (trace_id span_id : bytes) (w : WireLog)
| MReg (m : RegistrationMessage)
| MEvent (ev : TraceWireEvent)
| MMetric (w : WireMetric).

Definition encode_msg (m : WireMsg) : bytes :=
  match m with
  | MV1 w => encode_v1 w
  | MLog w => encode_log w
  | MTraced t s w => encode_traced_log t s w
  | MReg m => encode_registration m
  | MEvent ev => encode_event ev
  | MMetric w => encode_metric w
  end.

Definition encode_batch (l : list WireMsg) : bytes := mjoin (map encode_msg l).

(** What may follow the last message: nothing, or zeros or the legacy
    terminator and then anything. *)
Definition is_padding (pad : bytes) : bool :=
  match pad with [] => true | b :: _ => (b =? 0) || (b =? 255) end.

Section Messages.
Context `{Ext : External} (now : DateTime).

Definition wf_msg (m : WireMsg) : Prop :=
  match m with
  | MV1 w => wf_v1 now w
  | MLog w => wf_log now w /\ in_width 16 (len (encode_log_fields w ++ wl_padding w))
  | MTraced t s w =>
    wf_log now w /\ length t = 16%nat /\ length s = 8%nat /\
    in_width 16 (len ((t ++ s ++ encode_log_fields w) ++ wl_padding w))
  | MReg m => wf_registration m
  | MEvent ev => wf_event ev
  | MMetric w => wf_metric now w /\ in_width 16 (len (encode_metric_fields w ++ wm_padding w))
  end.

(** The part of the result a message goes to. *)
Definition collect (acc : ParseResult) (m : WireMsg) : ParseResult :=
  match m with
  | MV1 w => push_entry acc (v1_entry_of now w)
  | MLog w => push_entry acc (log_entry_of now (zeros 16) (zeros 8) w)
  | MTraced t s w => push_entry acc (log_entry_of now t s w)
  | MReg m => push_registration acc m
  | MEvent ev => push_trace_event acc ev
  | MMetric w => push_metric acc (metric_of now w)
  end.

Definition msg_type (m : WireMsg) : Z := hd 0 (encode_msg m).

Lemma consumes_log w :
  wf_msg (MLog w) ->
  consumes (parse_v2_from_reader now) (encode_log w) (log_entry_of now (zeros 16) (zeros 8) w).
Proof.
  intros [Hw Hl]. unfold parse_v2_from_reader, encode_log, encode_entry.
  consume. apply consumes_if_false; [done|].
  apply consumes_with_entry_length; [by apply consumes_log_fields|done].
Qed.

Lemma consumes_traced_log t s w :
  wf_msg (MTraced t s w) ->
  consumes (parse_v2_traced_from_reader now) (encode_traced_log t s w) (log_entry_of now t s w).
Proof.
  intros (Hw & Ht & Hs & Hl). unfold parse_v2_traced_from_reader, encode_traced_log, encode_entry.
  consume. apply consumes_if_false; [done|]. apply consumes_with_entry_length; [|done].
  do 2 (eapply consumes_bind; [by apply consumes_read_bytes|]). by apply consumes_log_fields.
Qed.

Lemma consumes_metric w :
  wf_msg (MMetric w) ->
  consumes (parse_metric_from_reader now) (encode_metric w) (metric_of now w).
Proof.
  intros [Hw Hl]. unfold parse_metric_from_reader, encode_metric, encode_entry.
  consume. apply consumes_if_false; [done|].
  apply consumes_with_entry_length; [by apply consumes_metric_fields|done].
Qed.

(** A parsed message is pushed and the loop goes on behind it. *)
Lemma on_message_consumes {A} (m : Parser A) enc a push on_err pre post :
  consumes m enc a ->
  on_message (m (at_pos pre enc post (length pre))) push on_err =
  Continue (push a) (at_pos pre enc post (length pre + length enc)).
Proof. intros Hm. by rewrite Hm. Qed.

Lemma step_msg m acc pre post :
  wf_msg m ->
  parse_step now (msg_type m) acc (at_pos pre (encode_msg m) post (length pre)) =
  Continue (collect acc m) (at_pos pre (encode_msg m) post (length pre + length (encode_msg m))).
Proof.
  intros Hm. destruct m as [w|w|t s w|m|ev|w]; cbn [encode_msg collect].
  - apply on_message_consumes. by apply consumes_v1.
  - change (msg_type (MLog w)) with 2. cbn [parse_step]. unfold step_v2.
    rewrite slice_at_spec
      by (unfold at_pos, remaining, saturating_sub; cbn [rd_data rd_pos];
          rewrite ?length_app; lia).
    apply on_message_consumes. by apply consumes_log.
  - apply on_message_consumes. by apply consumes_traced_log.
  - apply on_message_consumes. by apply consumes_registration.
  - replace (parse_step now (msg_type (MEvent ev)) acc) with (fun r =>
      on_message (parse_v2_trace_event_from_reader r) (push_trace_event acc) (fun e _ =>
        fail_or_break (is_empty (pr_entries acc) && is_empty (pr_registrations acc) &&
          is_empty (pr_metrics acc) && is_empty (pr_trace_events acc)) acc e)).
    + apply on_message_consumes. by apply consumes_trace_event.
    + unfold msg_type. destruct ev as [| |  |]; cbn [encode_msg encode_event]; try done.
      by destruct (encode_attr_value _).
  - apply on_message_consumes. by apply consumes_metric.
Qed.

Lemma msg_type_valid m : 1 <= msg_type m <= 9.
Proof.
  unfold msg_type. destruct m as [| | | |ev|]; try done.
  destruct ev; try done. simpl. by destruct (encode_attr_value _).
Qed.

Lemma encode_msg_nonempty m : exists rest, encode_msg m = msg_type m :: rest.
Proof.
  unfold msg_type. destruct m as [| | | |ev|]; try (by eexists).
  destruct ev; try (by eexists). simpl. destruct (encode_attr_value _). by eexists.
Qed.

Lemma msg_type_not_padding m : (msg_type m =? 0) || (msg_type m =? 255) = false.
Proof. pose proof (msg_type_valid m). apply orb_false_iff. rewrite !Z.eqb_neq. lia. Qed.

(** At an encoded message the loop sees its type. *)
Lemma peek_msg m pre rest :
  (remaining (mkReader (pre ++ encode_msg m ++ rest) (length pre)) =? 0)%nat = false /\
  peek (mkReader (pre ++ encode_msg m ++ rest) (length pre)) = Some (msg_type m).
Proof.
  destruct (encode_msg_nonempty m) as [tl Hm].
  unfold peek, remaining, saturating_sub. cbn [rd_data rd_pos]. split.
  - apply Nat.eqb_neq. rewrite !length_app, Hm. simpl. lia.
  - rewrite lookup_app_r, Nat.sub_diag by done. by rewrite Hm.
Qed.

(** Padding ends the loop. *)
Lemma parse_loop_padding fuel acc pre pad :
  is_padding pad = true ->
  parse_loop now (S fuel) acc (mkReader (pre ++ pad) (length pre)) = Ok acc.
Proof.
  intros Hpad. cbn [parse_loop]. unfold peek. cbn [rd_data rd_pos]. case_match; [done|].
  rewrite lookup_app_r, Nat.sub_diag by done.
  destruct pad as [|b pad]; [done|]. simpl. simpl in Hpad. by rewrite Hpad.
Qed.

(** A valid beginning is parsed, then the loop goes on behind it. *)
Lemma parse_loop_prefix l rest acc pre fuel :
  Forall wf_msg l ->
  parse_loop now (length l + fuel) acc (mkReader (pre ++ encode_batch l ++ rest) (length pre)) =
  parse_loop now fuel (fold_left collect l acc)
    (mkReader (pre ++ encode_batch l ++ rest) (length pre + length (encode_batch l))).
Proof.
  intros Hl. revert acc pre. induction Hl as [|m l Hm Hl IH]; intros acc pre.
  - simpl. by rewrite Nat.add_0_r.
  - cbn [length Nat.add parse_loop fold_left].
    change (encode_batch (m :: l)) with (encode_msg m ++ encode_batch l).
    destruct (peek_msg m pre (encode_batch l ++ rest)) as [Hrem Hpeek].
    rewrite <- app_assoc, Hrem, Hpeek.
    rewrite msg_type_not_padding.
    pose proof (step_msg m acc pre (encode_batch l ++ rest) Hm) as Hs. unfold at_pos in Hs.
    rewrite Hs, (app_assoc pre), <- length_app, IH. by rewrite length_app, <- Nat.add_assoc, <- length_app.
Qed.

End Messages.

(** ** Valid buffers *)

Section Buffers.
Context `{Ext : External} (now : DateTime).

Lemma length_encode_batch l : (length l <= length (encode_batch l))%nat.
Proof.
  induction l as [|m l IH]; [done|].
  change (encode_batch (m :: l)) with (encode_msg m ++ encode_batch l).
  destruct (encode_msg_nonempty m) as [rest ->]. rewrite length_app. simpl. lia.
Qed.

(** [parse_all] on a buffer with a valid beginning. *)
Lemma parse_all_prefix l rest :
  Forall (wf_msg now) l -> len (encode_batch l ++ rest) <= MAX_MESSAGE_SIZE ->
  parse_all now (encode_batch l ++ rest) =
  parse_loop now (S (length (encode_batch l ++ rest) - length l))
    (fold_left (collect now) l empty_result)
    (mkReader (encode_batch l ++ rest) (length (encode_batch l))).
Proof.
  intros Hl Hmax. unfold parse_all. rewrite (proj2 (Z.ltb_ge _ _)) by done.
  pose proof (length_encode_batch l).
  rewrite <- (parse_loop_prefix now l rest empty_result [] _ Hl).
  unfold BytesReader_new. f_equal. rewrite length_app. lia.
Qed.

(** C2: Every message of a well-formed buffer is recovered, in order and in
    the list of its kind: log entries of both protocol versions and traced
    ones, registrations, span events and metrics, whatever padding follows. *)
Theorem parse_all_batch l pad :
  Forall (wf_msg now) l -> is_padding pad = true ->
  len (encode_batch l ++ pad) <= MAX_MESSAGE_SIZE ->
  parse_all now (encode_batch l ++ pad) = Ok (fold_left (collect now) l empty_result).
Proof.
  intros Hl Hpad Hmax. rewrite parse_all_prefix by done.
  by apply (parse_loop_padding now _ _ (encode_batch l)).
Qed.

(** ** Malformed buffers: what was parsed is kept *)

Definition extends (r r' : ParseResult) : Prop :=
  pr_entries r `prefix_of` pr_entries r' /\
  pr_registrations r `prefix_of` pr_registrations r' /\
  pr_metrics r `prefix_of` pr_metrics r' /\
  pr_trace_events r `prefix_of` pr_trace_events r'.

#[local] Instance extends_preorder : PreOrder extends.
Proof.
  split; [by intros []|]. intros r1 r2 r3 (?&?&?&?) (?&?&?&?).
  split_and!; by etrans.
Qed.

(** Some log entry or registration has been parsed. *)
Definition has_logs (r : ParseResult) : Prop := pr_entries r <> [] \/ pr_registrations r <> [].

Lemma extends_has_logs r r' : extends r r' -> has_logs r -> has_logs r'.
Proof.
  intros (H1 & H2 & _) [H|H]; [left|right]; intros E; apply H; apply prefix_nil_inv;
    by rewrite <- E.
Qed.

Definition step_keeps (acc : ParseResult) (s : step) : Prop :=
  match s with
  | Continue acc' _ => extends acc acc'
  | Stop (Ok acc') => extends acc acc'
  | Stop (Err _) => False
  | Stop _ => True
  end.

Lemma step_keeps_message {A} (m : outcome AdsError A * BytesReader) acc push on_err :
  (forall a, extends acc (push a)) -> (forall e r, step_keeps acc (on_err e r)) ->
  step_keeps acc (on_message m push on_err).
Proof. intros Hp He. destruct m as [[a|e| |] r]; simpl; auto. Qed.

Lemma no_logs_false acc :
  has_logs acc -> is_empty (pr_entries acc) && is_empty (pr_registrations acc) = false.
Proof. by intros [H|H]; destruct (pr_entries acc), (pr_registrations acc). Qed.

Lemma parse_step_keeps t acc r : has_logs acc -> step_keeps acc (parse_step now t acc r).
Proof.
  intros Hl. pose proof (no_logs_false acc Hl) as Hn.
  assert (Hpush : (forall e, extends acc (push_entry acc e)) /\
    (forall e, extends acc (push_registration acc e)) /\
    (forall e, extends acc (push_metric acc e)) /\
    (forall e, extends acc (push_trace_event acc e))).
  { split_and!; intros e; split_and!; simpl; try done; by apply prefix_app_r. }
  destruct Hpush as (H1 & H2 & H3 & H4).
  assert (Hor : negb (is_empty (pr_entries acc)) || negb (is_empty (pr_registrations acc)) = true)
    by by rewrite <- negb_andb, Hn.
  unfold parse_step, step_v2, step_traced. rewrite Hn, Hor. cbn [andb fail_or_break].
  repeat case_match; try done; apply step_keeps_message; intros; simpl; try done.
  by destruct (skip_v2 _ _).
Qed.

Lemma parse_loop_keeps fuel acc r :
  (length (rd_data r) - rd_pos r < fuel)%nat -> has_logs acc ->
  exists res, parse_loop now fuel acc r = Ok res /\ extends acc res.
Proof.
  intros Hf Hl. pose proof (parse_loop_completes now fuel acc r Hf) as Hc. clear Hf.
  enough (match parse_loop now fuel acc r with Ok res => extends acc res | Err _ => False
          | _ => True end) as H.
  { destruct (parse_loop now fuel acc r); try done. by eexists. }
  clear Hc. revert acc r Hl. induction fuel as [|fuel IH]; intros acc r Hl; [done|].
  cbn [parse_loop]. destruct (remaining r =? 0)%nat; [done|].
  destruct (peek r) as [t|]; [|done]. destruct ((t =? 0) || (t =? 255)); [done|].
  pose proof (parse_step_keeps t acc r Hl) as Hs.
  destruct (parse_step now t acc r) as [acc' r'|o]; simpl in Hs; [|by destruct o].
  pose proof (IH acc' r' (extends_has_logs _ _ Hs Hl)) as H.
  destruct (parse_loop now fuel acc' r'); try done. by etrans.
Qed.

(** Corruption behind the first log entry or registration never loses
    what came before it: whatever bytes follow a valid beginning that holds a
    log entry or a registration, [parse_all] succeeds and its result extends
    the messages of that beginning. *)
Theorem parse_all_keeps_prefix l rest :
  Forall (wf_msg now) l -> has_logs (fold_left (collect now) l empty_result) ->
  len (encode_batch l ++ rest) <= MAX_MESSAGE_SIZE ->
  exists res, parse_all now (encode_batch l ++ rest) = Ok res /\
    extends (fold_left (collect now) l empty_result) res.
Proof.
  intros Hl Hlogs Hmax. rewrite parse_all_prefix by done. pose proof (length_encode_batch l).
  apply parse_loop_keeps; [|done]. simpl. rewrite length_app. lia.
Qed.

(** ** Resynchronisation after a malformed v2 entry *)

(** A v2 entry with an arbitrary body: its announced length is right, its
    content may be anything. *)
Definition raw_v2 (body : bytes) : bytes := encode_entry 2 body [].

Lemma length_raw_v2 body : length (raw_v2 body) = (3 + length body)%nat.
Proof. unfold raw_v2, encode_entry. rewrite app_nil_r. simpl. lia. Qed.

(** Behind the entry stands the message [m]. *)
Lemma skip_v2_raw pre body m rest :
  in_width 16 (len body) ->
  skip_v2 (pre ++ raw_v2 body ++ encode_msg m ++ rest) (length pre) =
  if is_resync_type (msg_type m) then Some (length (pre ++ raw_v2 body)) else None.
Proof.
  intros Hw. set (data := pre ++ _).
  assert (Hlen : length data = (length pre + (3 + length body) + length (encode_msg m ++ rest))%nat).
  { unfold data. rewrite !length_app, length_raw_v2. lia. }
  destruct (encode_msg_nonempty m) as [tl Hm].
  assert (Hpos : (0 < length (encode_msg m ++ rest))%nat) by (rewrite Hm; simpl; lia).
  unfold skip_v2. unfold remaining, saturating_sub. cbn [rd_data rd_pos].
  replace (3 <=? length data - length pre)%nat with true by (symmetry; apply Nat.leb_le; lia).
  pose proof (consumes_read_u16 (len body) Hw (pre ++ [2]) (body ++ encode_msg m ++ rest)) as Hr.
  unfold at_pos in Hr. rewrite length_app in Hr.
  replace ((pre ++ [2]) ++ le_encode 2 (len body) ++ body ++ encode_msg m ++ rest) with data in Hr
    by (unfold data, raw_v2, encode_entry; by rewrite <- !app_assoc, !app_nil_r, app_nil_l).
  simpl (length [2]) in Hr. rewrite Hr. unfold len. rewrite Nat2Z.id.
  replace (length pre + 3 + length body)%nat with (length (pre ++ raw_v2 body))
    by (rewrite length_app, length_raw_v2; lia).
  rewrite (proj2 (Nat.ltb_lt _ _)) by (rewrite length_app, length_raw_v2; lia).
  rewrite (proj2 (Nat.ltb_lt _ _)) by (rewrite length_app, length_raw_v2; lia).
  cbn [andb]. unfold data. rewrite (app_assoc pre), lookup_app_r, Nat.sub_diag by done.
  by rewrite Hm.
Qed.

(** One turn of the loop on an entry that does not parse. *)
Lemma step_raw_v2 acc pre body m rest e :
  in_width 16 (len body) ->
  (parse_v2_from_reader now
     (mkReader (pre ++ raw_v2 body ++ encode_msg m ++ rest) (length pre))).1 = Err e ->
  parse_step now 2 acc (mkReader (pre ++ raw_v2 body ++ encode_msg m ++ rest) (length pre)) =
  if is_resync_type (msg_type m)
  then Continue acc (mkReader (pre ++ raw_v2 body ++ encode_msg m ++ rest)
                       (length (pre ++ raw_v2 body)))
  else fail_or_break (is_empty (pr_entries acc) && is_empty (pr_registrations acc)) acc e.
Proof.
  intros Hw He. cbn [parse_step]. unfold step_v2. set (r := mkReader _ _) in *.
  assert (Hr : in_bounds r) by (unfold in_bounds, r; simpl; rewrite length_app; lia).
  rewrite slice_at_spec by (unfold in_bounds, remaining, saturating_sub in *; lia).
  pose proof (advances_v2 now r Hr) as (_ & Hd & _).
  destruct (parse_v2_from_reader now r) as [o r']. cbn [fst snd] in He, Hd. subst o.
  cbn [on_message]. rewrite Hd. unfold r. cbn [rd_data rd_pos]. rewrite skip_v2_raw by done.
  by destruct (is_resync_type _).
Qed.

Lemma parse_loop_raw_v2 fuel acc pre body m rest :
  parse_loop now (S fuel) acc
    (mkReader (pre ++ raw_v2 body ++ encode_msg m ++ rest) (length pre)) =
  match parse_step now 2 acc
    (mkReader (pre ++ raw_v2 body ++ encode_msg m ++ rest) (length pre)) with
  | Continue acc r => parse_loop now fuel acc r
  | Stop o => o
  end.
Proof.
  cbn [parse_loop]. unfold peek, remaining at 1, saturating_sub. cbn [rd_data rd_pos].
  rewrite (proj2 (Nat.eqb_neq _ _)) by (rewrite !length_app, length_raw_v2; lia).
  by rewrite lookup_app_r, Nat.sub_diag by done.
Qed.

(** A malformed v2 log entry costs only itself when the next message is
    of a type the resynchronisation test accepts (1 to 6): every message
    before and behind it is recovered. *)
Theorem parse_all_resyncs l0 body m l pad e :
  Forall (wf_msg now) (l0 ++ m :: l) -> is_padding pad = true -> in_width 16 (len body) ->
  len (encode_batch l0 ++ raw_v2 body ++ encode_batch (m :: l) ++ pad) <= MAX_MESSAGE_SIZE ->
  (parse_v2_from_reader now
     (mkReader (encode_batch l0 ++ raw_v2 body ++ encode_batch (m :: l) ++ pad)
        (length (encode_batch l0)))).1 = Err e ->
  msg_type m <= 6 ->
  parse_all now (encode_batch l0 ++ raw_v2 body ++ encode_batch (m :: l) ++ pad) =
  Ok (fold_left (collect now) (l0 ++ m :: l) empty_result).
Proof.
  intros [Hl0 Hl]%Forall_app Hpad Hw Hmax He Ht. rewrite parse_all_prefix by done.
  change (encode_batch (m :: l)) with (encode_msg m ++ encode_batch l) in *.
  rewrite <- app_assoc in *. rewrite parse_loop_raw_v2, (step_raw_v2 _ _ _ _ _ _ Hw He).
  pose proof (msg_type_valid m).
  replace (is_resync_type (msg_type m)) with true
    by (symmetry; unfold is_resync_type, in_range; apply orb_true_iff; left;
        apply orb_true_iff; left; apply andb_true_iff; rewrite !Z.leb_le; lia).
  pose proof (length_encode_batch l0). pose proof (length_encode_batch (m :: l)) as Hlen.
  rewrite fold_left_app, (app_assoc _ (raw_v2 body)), (app_assoc (encode_msg m)).
  change (encode_msg m ++ encode_batch l) with (encode_batch (m :: l)).
  match goal with |- parse_loop _ ?n _ _ = _ =>
    replace n with (length (m :: l) + S (n - length (m :: l) - 1))%nat
      by (rewrite !length_app, length_raw_v2 in *; lia) end.
  rewrite parse_loop_prefix by done.
  rewrite app_assoc, <- length_app. by apply parse_loop_padding.
Qed.

(** The resynchronisation test refuses message types 7, 8 and 9: in front
    of a span event, a span end or a traced log entry, a malformed v2 entry
    makes the whole buffer fail when no log entry or registration came before,
    although the announced length leads to a valid message. *)
Theorem parse_all_resync_refused l0 body m l pad e :
  Forall (wf_msg now) (l0 ++ m :: l) -> in_width 16 (len body) ->
  len (encode_batch l0 ++ raw_v2 body ++ encode_batch (m :: l) ++ pad) <= MAX_MESSAGE_SIZE ->
  (parse_v2_from_reader now
     (mkReader (encode_batch l0 ++ raw_v2 body ++ encode_batch (m :: l) ++ pad)
        (length (encode_batch l0)))).1 = Err e ->
  7 <= msg_type m -> ~ has_logs (fold_left (collect now) l0 empty_result) ->
  parse_all now (encode_batch l0 ++ raw_v2 body ++ encode_batch (m :: l) ++ pad) = Err e.
Proof.
  intros [Hl0 Hl]%Forall_app Hw Hmax He Ht Hno. rewrite parse_all_prefix by done.
  change (encode_batch (m :: l)) with (encode_msg m ++ encode_batch l) in *.
  rewrite <- app_assoc in *. rewrite parse_loop_raw_v2, (step_raw_v2 _ _ _ _ _ _ Hw He).
  pose proof (msg_type_valid m).
  replace (is_resync_type (msg_type m)) with false
    by (symmetry; unfold is_resync_type, in_range; rewrite !orb_false_iff, andb_false_iff,
          !Z.leb_gt, !Z.eqb_neq; lia).
  unfold has_logs in Hno.
  destruct (pr_entries _); [|by destruct Hno; left]. destruct (pr_registrations _); [done|].
  by destruct Hno; right.
Qed.

End Buffers.

(** ** Limits on what a buffer can make the service allocate *)

(** [yields m P]: whatever [m] returns on a buffer of bytes satisfies [P]. *)
Definition yields {A} (m : Parser A) (P : A -> Prop) : Prop :=
  forall r a r', in_bounds r -> is_bytes (rd_data r) -> m r = (Ok a, r') -> P a.

Lemma yields_ret {A} (a : A) (P : A -> Prop) : P a -> yields (mret a) P.
Proof. by intros Ha r a' r' _ _ [= <- _]. Qed.

Lemma yields_fail {A} e (P : A -> Prop) : yields (fail e) P.
Proof. by intros r a r' _ _ [=]. Qed.

Lemma yields_bind {A B} (m : Parser A) (f : A -> Parser B) (P : A -> Prop) (Q : B -> Prop) :
  Safe m -> yields m P -> (forall a, P a -> yields (f a) Q) -> yields (m ≫= f) Q.
Proof.
  intros Hs Hm Hf r b r' Hb Hd. cbv [mbind Parser_bind].
  pose proof (Hs r Hb) as [_ Hmv].
  destruct (m r) as [[a|e| |] r1] eqn:Hr; try done. simpl in Hmv.
  apply Hf; [by eapply Hm|by eapply moves_in_bounds|]. by destruct Hmv as (-> & _).
Qed.

Lemma yields_skip {A B} (m : Parser A) (f : A -> Parser B) (Q : B -> Prop) :
  Safe m -> (forall a, yields (f a) Q) -> yields (m ≫= f) Q.
Proof. intros Hs Hf. apply (yields_bind m f (fun _ => True)); [done|by intros ?????|]. auto. Qed.

Lemma yields_map {A B} (m : Parser A) (f : A -> B) (P : A -> Prop) (Q : B -> Prop) :
  yields m P -> (forall a, P a -> Q (f a)) -> yields (a ← m; mret (f a)) Q.
Proof.
  intros Hm Hf r b r' Hb Hd. cbv [mbind Parser_bind].
  destruct (m r) as [[a|e| |] r1] eqn:Hr; try done. intros [= <- _]. apply Hf. by eapply Hm.
Qed.

Lemma yields_if {A} (c : bool) (m1 m2 : Parser A) P :
  (c = true -> yields m1 P) -> (c = false -> yields m2 P) -> yields (if c then m1 else m2) P.
Proof. destruct c; auto. Qed.

Lemma yields_read_u8 : yields read_u8 is_u8.
Proof.
  intros r a r' _ Hd. unfold read_u8, read_bytes. cbv [mbind Parser_bind].
  destruct (_ <? _)%nat; [done|].
  destruct (slice_at _ _ _) as [bs|] eqn:Hs; [|done].
  destruct bs as [|b bs]; [done|]. intros [= <- _].
  apply slice_at_is_bytes in Hs; [|done]. by inversion Hs.
Qed.

Create HintDb limits discriminated.
#[export] Hint Resolve yields_fail : limits.

(** A read whose value the limits do not depend on. *)
Ltac skip_read := apply yields_skip; [solve [solve_safe]|]; intros ?.

(** Goes through a parser to the results its limits are about. *)
Ltac limits :=
  repeat first
    [ solve [eauto with limits]
    | apply yields_fail
    | apply yields_ret
    | skip_read
    | apply yields_if; intros ? ].

Definition MAX_CONTEXT_SIZE : nat := MAX_CONTEXT_VARS - 1 + 255.

Record log_limits {Ext : External} (e : AdsLogEntry) : Prop := {
  log_limit_arguments : (size (al_arguments e) <= MAX_ARGUMENTS)%nat;
  log_limit_context : (size (al_context e) <= MAX_CONTEXT_SIZE)%nat;
}.

Record metric_limits {Ext : External} (m : AdsMetricEntry) : Prop := {
  metric_limit_attributes : Z.of_nat (size (am_attributes m)) <= MAX_METRIC_ATTRIBUTES;
  metric_limit_bounds : Z.of_nat (length (am_histogram_bounds m)) <= MAX_HISTOGRAM_BUCKETS;
  metric_limit_counts : Z.of_nat (length (am_histogram_counts m)) <= MAX_HISTOGRAM_BUCKETS + 1;
}.

Definition event_limits (ev : TraceWireEvent) : Prop :=
  match ev with
  | Event _ _ _ _ _ attributes => (length attributes <= 4)%nat
  | _ => True
  end.

Section Limits.
Context `{Ext : External} (now : DateTime).

Lemma size_insert_le `{Countable K} {V} (m : gmap K V) k v : (size (<[k:=v]> m) <= S (size m))%nat.
Proof. rewrite map_size_insert. case_match; simpl; lia. Qed.

Lemma limit_v1_items fuel args ctx :
  (size args <= MAX_ARGUMENTS)%nat -> (size ctx <= MAX_CONTEXT_VARS)%nat ->
  yields (v1_items fuel args ctx) (fun p =>
    (size p.1 <= MAX_ARGUMENTS)%nat /\ (size p.2 <= MAX_CONTEXT_VARS)%nat).
Proof.
  revert args ctx. induction fuel as [|fuel IH]; intros args ctx Ha Hc; [by intros ????? [=]|].
  cbn [v1_items]. limits; try done; apply IH; try done.
  all: etrans; [apply size_insert_le|]; to_prop; lia.
Qed.

Lemma limit_v1 : yields (parse_v1_from_reader now) log_limits.
Proof.
  unfold parse_v1_from_reader. do 15 skip_read.
  assert (Hi : yields (v1_items (S a13) ∅ ∅) (fun p =>
    (size p.1 <= MAX_ARGUMENTS)%nat /\ (size p.2 <= MAX_CONTEXT_VARS)%nat))
    by (apply limit_v1_items; rewrite map_size_empty; lia).
  intros r e r' Hb Hd. cbv [mbind Parser_bind].
  destruct (v1_items _ _ _ r) as [[[args ctx]|?| |] r1] eqn:Hr; try done. intros [= <- _].
  apply Hi in Hr as [Ha Hc]; [|done..]. split; simpl; [done|].
  unfold MAX_CONTEXT_SIZE, MAX_CONTEXT_VARS in *. simpl in *. lia.
Qed.

Lemma limit_v2_arguments n i m :
  (size m <= MAX_ARGUMENTS)%nat ->
  yields (v2_arguments n i m) (fun m => (size m <= MAX_ARGUMENTS)%nat).
Proof.
  revert i m. induction n as [|n IH]; intros i m Hm; cbn [v2_arguments]; limits.
  apply IH. etrans; [apply size_insert_le|]. to_prop; lia.
Qed.

Lemma limit_v2_properties n scope m idx :
  (size m <= idx)%nat ->
  yields (v2_properties n scope m idx) (fun p => (size p.1 <= p.2 /\ p.2 = idx + n)%nat).
Proof.
  revert m idx. induction n as [|n IH]; intros m idx Hm; cbn [v2_properties].
  - apply yields_ret. simpl. lia.
  - limits. rewrite <- Nat.add_succ_comm. apply IH. etrans; [apply size_insert_le|]. lia.
Qed.

Lemma limit_v2_context n m idx :
  (size m <= idx)%nat -> (idx <= MAX_CONTEXT_SIZE)%nat ->
  yields (v2_context n m idx) (fun m => (size m <= MAX_CONTEXT_SIZE)%nat).
Proof.
  revert m idx. induction n as [|n IH]; intros m idx Hm Hi; cbn [v2_context].
  - apply yields_ret. lia.
  - apply yields_if; intros ?; [apply yields_fail|]. skip_read.
    eapply yields_bind; [apply _|apply yields_read_u8|]. intros pc Hpc.
    eapply yields_bind; [apply _|by apply limit_v2_properties|]. intros [m' idx'] [Hs Hidx].
    cbn [fst snd] in *. to_prop. apply IH; [done|].
    unfold MAX_CONTEXT_SIZE, MAX_CONTEXT_VARS, is_u8 in *. lia.
Qed.

Lemma limit_v2_fields t s : yields (parse_v2_fields now t s) log_limits.
Proof.
  unfold parse_v2_fields. do 10 skip_read.
  eapply yields_bind; [apply _|apply limit_v2_arguments; rewrite map_size_empty; lia|].
  intros args Ha. eapply yields_map; [apply limit_v2_context; rewrite ?map_size_empty; lia|].
  by intros ctx Hc.
Qed.

Lemma limit_with_entry_length {A} (body : Parser A) P :
  Safe body -> yields body P -> yields (with_entry_length body) P.
Proof.
  intros Hs Hb. unfold with_entry_length. do 2 skip_read.
  eapply yields_bind; [done..|]. intros a2 Ha r b r' _ _ [= <- _]. done.
Qed.

Lemma limit_v2 : yields (parse_v2_from_reader now) log_limits.
Proof.
  unfold parse_v2_from_reader. skip_read. apply yields_if; intros ?; [apply yields_fail|]. apply limit_with_entry_length; [apply _|].
  apply limit_v2_fields.
Qed.

Lemma limit_v2_traced : yields (parse_v2_traced_from_reader now) log_limits.
Proof.
  unfold parse_v2_traced_from_reader. skip_read. apply yields_if; intros ?; [apply yields_fail|].
  apply limit_with_entry_length; [solve_safe|]. do 2 skip_read. apply limit_v2_fields.
Qed.

Lemma limit_repeat_read {A} n (m : Parser A) :
  Safe m -> yields (repeat_read n m) (fun l => length l = n).
Proof.
  intros Hs. induction n as [|n IH]; simpl; [by apply yields_ret|]. skip_read.
  eapply yields_map; [done|]. intros l <-. done.
Qed.

Lemma limit_read_attributes n m :
  yields (read_attributes n m) (fun m' => (size m' <= size m + n)%nat).
Proof.
  revert m. induction n as [|n IH]; intros m; cbn [read_attributes]; [apply yields_ret; lia|].
  do 2 skip_read. intros r a1 r' Hb Hd Hr. apply IH in Hr; [|done..].
  pose proof (size_insert_le m a a0). lia.
Qed.

Lemma limit_histogram :
  yields parse_histogram (fun h => Z.of_nat (length h.1.1.1) <= MAX_HISTOGRAM_BUCKETS /\
    Z.of_nat (length h.1.1.2) <= MAX_HISTOGRAM_BUCKETS + 1).
Proof.
  unfold parse_histogram. eapply yields_bind; [apply _|apply yields_read_u8|]. intros n Hn.
  apply yields_if; intros ?; [apply yields_fail|].
  eapply yields_bind; [apply _|apply limit_repeat_read, _|]. intros bounds Hbs.
  eapply yields_bind; [apply _|apply limit_repeat_read, _|]. intros counts Hcs. limits.
  simpl. to_prop. unfold is_u8 in *. lia.
Qed.

Lemma limit_metric : yields (parse_metric_from_reader now) metric_limits.
Proof.
  unfold parse_metric_from_reader. skip_read. apply yields_if; intros ?; [apply yields_fail|].
  apply limit_with_entry_length; [apply _|]. unfold parse_metric_body. do 5 skip_read.
  eapply yields_bind; [apply _|apply yields_read_u8|]. intros ac Hac. skip_read.
  apply yields_if; intros ?; [apply yields_fail|]. do 4 skip_read.
  eapply yields_bind; [apply _| |].
  { apply yields_if; intros ?; [apply limit_histogram|]. by apply yields_ret. }
  intros [[[bounds counts] count] sum] [Hbs Hcs].
  eapply yields_map; [apply limit_read_attributes|]. intros at' Hat.
  rewrite map_size_empty in Hat. to_prop. split; simpl; try done. unfold is_u8 in *. lia.
Qed.

Lemma limit_span_event a b c d : yields (parse_span_event a b c d) event_limits.
Proof.
  unfold parse_span_event, read_span_id. do 2 skip_read.
  eapply yields_bind; [apply _|apply yields_read_u8|]. intros ac Hac. skip_read.
  do 2 (apply yields_if; intros ?; [apply yields_fail|]). skip_read.
  eapply yields_map; [apply limit_repeat_read, _|]. intros l Hl. simpl. to_prop.
  unfold is_u8 in *. lia.
Qed.

Lemma limit_registration : yields parse_registration_from_reader (fun _ => True).
Proof. by intros ??? _ _ _. Qed.

Lemma limit_trace_event : yields parse_v2_trace_event_from_reader event_limits.
Proof.
  unfold parse_v2_trace_event_from_reader. do 5 skip_read.
  repeat case_match; try apply yields_fail; try apply limit_span_event;
    unfold parse_span_begin, parse_span_attr, parse_span_end, read_span_id; limits; done.
Qed.

Record result_limits (r : ParseResult) : Prop := {
  limits_entries : Forall log_limits (pr_entries r);
  limits_metrics : Forall metric_limits (pr_metrics r);
  limits_events : Forall event_limits (pr_trace_events r);
}.

Definition step_limits (r : BytesReader) (s : step) : Prop :=
  match s with
  | Continue acc r' => result_limits acc
  | Stop (Ok acc) => result_limits acc
  | Stop _ => True
  end.

Lemma step_limits_message {A} (m : Parser A) (P : A -> Prop) r push on_err :
  yields m P -> in_bounds r -> is_bytes (rd_data r) ->
  (forall a, P a -> result_limits (push a)) -> (forall e r', step_limits r (on_err e r')) ->
  step_limits r (on_message (m r) push on_err).
Proof.
  intros Hm Hb Hd Hp He. destruct (m r) as [[a|e| |] r'] eqn:Hr; simpl; auto.
  apply Hp. by eapply Hm.
Qed.

Lemma parse_step_limits t acc r :
  in_bounds r -> is_bytes (rd_data r) -> result_limits acc ->
  step_limits r (parse_step now t acc r).
Proof.
  intros Hb Hd Hacc. assert (Hfb : forall c e, step_limits r (fail_or_break c acc e))
    by (intros [] e; done).
  destruct Hacc as [H1 H2 H3].
  unfold parse_step, step_v2, step_traced. repeat case_match; try done.
  all: try (eapply step_limits_message;
    [first [apply limit_v1|apply limit_v2|apply limit_v2_traced|apply limit_metric
           |apply limit_trace_event|apply limit_registration]|done..| |]); intros; simpl; try done.
  all: try (split; simpl; try done; apply Forall_app; by split; [|constructor]).
  all: repeat case_match; simpl; done.
Qed.

Lemma parse_loop_limits fuel acc r res :
  in_bounds r \/ (length (rd_data r) < rd_pos r)%nat -> is_bytes (rd_data r) -> result_limits acc ->
  parse_loop now fuel acc r = Ok res -> result_limits res.
Proof.
  revert acc r. induction fuel as [|fuel IH]; intros acc r Hb Hd Hacc; [done|].
  cbn [parse_loop]. destruct (Nat.eqb_spec (remaining r) 0) as [|Hrem]; [by intros [= <-]|].
  unfold remaining, saturating_sub in Hrem.
  destruct Hb as [Hb|Hb]; [|lia].
  destruct (peek r) as [t|]; [|by intros [= <-]].
  destruct ((t =? 0) || (t =? 255)); [by intros [= <-]|].
  pose proof (parse_step_limits t acc r Hb Hd Hacc) as Hs.
  pose proof (step_ok_parse_step now t acc r Hb ltac:(lia)) as Hok.
  destruct (parse_step now t acc r) as [acc' r'|o]; simpl in Hs, Hok; [|by intros ->].
  destruct Hok as [Hd' _]. apply IH; [|by rewrite Hd'|done]. unfold in_bounds. lia.
Qed.

(** Limits: whatever bytes a peer sends, an accepted buffer is at most
    1 MiB long, each log entry it yields has at most 32 arguments and at most
    318 context properties (63 + 255: the limit of 64 is tested only when a
    scope begins), each metric at most 32 attributes and 100 histogram bounds,
    each span event at most 4 attributes. *)
Theorem parse_all_limits data res :
  is_bytes data -> parse_all now data = Ok res ->
  len data <= MAX_MESSAGE_SIZE /\ result_limits res.
Proof.
  intros Hd. unfold parse_all. destruct (Z.ltb_spec MAX_MESSAGE_SIZE (len data)); [done|].
  intros Hr. split; [lia|]. eapply parse_loop_limits; [left|..|done]; [|done|by split].
  unfold in_bounds. simpl. lia.
Qed.

End Limits.
