(* ===== verification/Net.v ===== *)
(** * Local address selection (crates/tc-otel-core: net.rs)

    IP addresses, and the choice of the address that stands for the host in
    [source.address] among the interfaces the operating system reports. *)

From S2P Require Import Prelude.
From S2P Require Import Text.
From S2P Require Import Ams.

(** ** The local address (net.rs)

    The network interfaces the operating system reports. *)

Inductive IpAddr := V4 (a b c d : Z) | V6 (segments : list Z).

#[export] Instance IpAddr_eq_dec : EqDecision IpAddr.
Proof. solve_decision. Defined.
#[export] Program Instance IpAddr_countable : Countable IpAddr :=
  inj_countable'
    (fun ip => match ip with V4 a b c d => inl (a, b, c, d) | V6 l => inr l end)
    (fun t => match t with inl (a, b, c, d) => V4 a b c d | inr l => V6 l end) _.
Next Obligation. by intros []. Qed.

Record Interface := mkInterface { if_loopback : bool; if_ip : IpAddr }.

Definition ipv4_to_string (a b c d : Z) : string := join "." (map dec [a; b; c; d]).

(** The loop of [detect]; [link_local] is the fallback seen so far. *)
Fixpoint detect_loop (addrs : list Interface) (link_local : option string) : string :=
  match addrs with
  | [] => default "127.0.0.1" link_local
  | iface :: addrs =>
    if if_loopback iface then detect_loop addrs link_local
    else
      match if_ip iface with
      | V6 _ => detect_loop addrs link_local
      | V4 a b c d =>
        if (a =? 169) && (b =? 254) then
          detect_loop addrs (match link_local with
                             | None => Some (ipv4_to_string a b c d)
                             | Some _ => link_local
                             end)
        else if (a =? 0) && (b =? 0) && (c =? 0) && (d =? 0) then detect_loop addrs link_local
        else ipv4_to_string a b c d
      end
  end.

(** [detect]; [None] when the interfaces cannot be listed. *)
Definition detect (addrs : option (list Interface)) : string :=
  match addrs with
  | None => "127.0.0.1"
  | Some addrs => detect_loop addrs None
  end.

(** ** The choice is right *)

Definition routable (i : Interface) : bool :=
  negb (if_loopback i) &&
  match if_ip i with
  | V4 a b c d => negb ((a =? 169) && (b =? 254)) &&
                  negb ((a =? 0) && (b =? 0) && (c =? 0) && (d =? 0))
  | V6 _ => false
  end.

Definition link_local (i : Interface) : bool :=
  negb (if_loopback i) &&
  match if_ip i with V4 a b _ _ => (a =? 169) && (b =? 254) | V6 _ => false end.

Definition address_text (i : Interface) : string :=
  match if_ip i with V4 a b c d => ipv4_to_string a b c d | V6 _ => "" end.

Lemma detect_loop_spec addrs ll :
  detect_loop addrs ll =
  match List.find routable addrs with
  | Some i => address_text i
  | None => default "127.0.0.1" (match ll with
                                 | Some s => Some s
                                 | None => address_text <$> List.find link_local addrs
                                 end)
  end.
Proof.
  revert ll. induction addrs as [|i addrs IH]; intros ll; [by destruct ll|].
  cbn [detect_loop List.find]. unfold routable at 1, link_local at 1.
  destruct (if_loopback i) eqn:Hl; [by rewrite IH|]. cbn [negb andb].
  destruct (if_ip i) as [a b c d|l] eqn:Hip; [|by rewrite IH].
  destruct ((a =? 169) && (b =? 254)) eqn:Hll; cbn [negb andb].
  - rewrite IH. destruct (List.find routable addrs); [done|]. destruct ll; [done|].
    simpl. unfold address_text. by rewrite Hip.
  - destruct ((a =? 0) && (b =? 0) && (c =? 0) && (d =? 0)); cbn [negb andb]; [by rewrite IH|].
    unfold address_text. by rewrite Hip.
Qed.

(** The address is chosen as documented: the first routable IPv4 address
    of a non-loopback interface; failing that the first link-local one;
    failing that 127.0.0.1. *)
Theorem detect_spec addrs :
  detect addrs =
  match addrs with
  | None => "127.0.0.1"
  | Some addrs =>
    match List.find routable addrs with
    | Some i => address_text i
    | None => match List.find link_local addrs with
              | Some i => address_text i
              | None => "127.0.0.1"
              end
    end
  end.
Proof.
  destruct addrs as [addrs|]; [|done]. cbn [detect]. rewrite detect_loop_spec.
  destruct (List.find routable addrs); [done|]. by destruct (List.find link_local addrs).
Qed.
