(* ===== verification/Symbol.v ===== *)
(** * The ADS symbol table (crates/tc-otel-ads: symbol.rs)

    The answer to a symbol upload: a sequence of entries of variable length,
    each with a 30-byte header and three NUL-terminated strings. The parser of
    one entry and of the table, their serialiser, and the theorems: no buffer
    makes the parser panic or run for ever, and a serialised table is read
    back. *)

From S2P Require Import Prelude.
From S2P Require Import Text.
From S2P Require Import Ams.

(** ** Upload info *)

Record AdsSymbolUploadInfo := mkUploadInfo { symbol_count : Z; symbol_size : Z }.

(** [AdsSymbolUploadInfo::parse]. *)
Definition AdsSymbolUploadInfo_parse (data : bytes) : outcome AdsError AdsSymbolUploadInfo :=
  if (length data <? 8)%nat then Err (IncompleteMessage 8 (len data))
  else
    (count <-- le_or_panic data 0 4 ;;
     size <-- le_or_panic data 4 8 ;;
     Ok (mkUploadInfo count size))%rust.

(** [AdsSymbolUploadInfo::serialize]. *)
Definition AdsSymbolUploadInfo_serialize (i : AdsSymbolUploadInfo) : bytes :=
  le_encode 4 (symbol_count i) ++ le_encode 4 (symbol_size i).

(** ** Entries *)

Record AdsSymbolEntry := mkSymbol {
  se_index_group : Z;
  se_index_offset : Z;
  se_size : Z;
  se_data_type : Z;
  se_flags : Z;
  se_name : string;
  se_type_name : string;
  se_comment : string;
}.

Definition SYMBOL_ENTRY_HEADER_SIZE : nat := 30.

(** The bytes before the first NUL, all of them without one. *)
Fixpoint until_nul (bs : bytes) : bytes :=
  match bs with
  | [] => []
  | b :: bs => if b =? 0 then [] else b :: until_nul bs
  end.

(** [parse_null_terminated_string]. *)
Definition parse_null_terminated_string (data : bytes) : outcome AdsError string :=
  match from_utf8 (until_nul data) with
  | Some s => Ok s
  | None => Err (InvalidStringEncoding (utf8_error (until_nul data)))
  end.

(** [AdsSymbolEntry::parse]: the entry and the announced entry length. *)
Definition AdsSymbolEntry_parse (data : bytes) : outcome AdsError (AdsSymbolEntry * nat) :=
  if (length data <? SYMBOL_ENTRY_HEADER_SIZE)%nat
  then Err (IncompleteMessage (Z.of_nat SYMBOL_ENTRY_HEADER_SIZE) (len data))
  else
    (entry_length <-- le_or_panic data 0 4 ;;
     index_group <-- le_or_panic data 4 8 ;;
     index_offset <-- le_or_panic data 8 12 ;;
     size <-- le_or_panic data 12 16 ;;
     data_type <-- le_or_panic data 16 20 ;;
     flags <-- le_or_panic data 20 24 ;;
     name_length <-- le_or_panic data 24 26 ;;
     type_length <-- le_or_panic data 26 28 ;;
     comment_length <-- le_or_panic data 28 30 ;;
     let n := (Z.to_nat name_length + 1)%nat in
     let t := (Z.to_nat type_length + 1)%nat in
     let c := (Z.to_nat comment_length + 1)%nat in
     let total_needed := (SYMBOL_ENTRY_HEADER_SIZE + (n + t + c))%nat in
     if (length data <? total_needed)%nat
     then Err (IncompleteMessage (Z.of_nat total_needed) (len data))
     else
       let offset := SYMBOL_ENTRY_HEADER_SIZE in
       name_bytes <-- slice_or_panic data offset (offset + n) ;;
       name <-- parse_null_terminated_string name_bytes ;;
       let offset := (offset + n)%nat in
       type_bytes <-- slice_or_panic data offset (offset + t) ;;
       type_name <-- parse_null_terminated_string type_bytes ;;
       let offset := (offset + t)%nat in
       comment_bytes <-- slice_or_panic data offset (offset + c) ;;
       comment <-- parse_null_terminated_string comment_bytes ;;
       Ok (mkSymbol index_group index_offset size data_type flags name type_name comment,
           Z.to_nat entry_length))%rust.

(** [AdsSymbolEntry::serialize], as the list of its fields. *)
Definition symbol_fields (e : AdsSymbolEntry) : list bytes :=
  let name_bytes := bytes_of_string (se_name e) in
  let type_bytes := bytes_of_string (se_type_name e) in
  let comment_bytes := bytes_of_string (se_comment e) in
  let entry_length := (SYMBOL_ENTRY_HEADER_SIZE + (length name_bytes + 1) +
                       (length type_bytes + 1) + (length comment_bytes + 1))%nat in
  [le_encode 4 (Z.of_nat entry_length); le_encode 4 (se_index_group e);
   le_encode 4 (se_index_offset e); le_encode 4 (se_size e); le_encode 4 (se_data_type e);
   le_encode 4 (se_flags e); le_encode 2 (len name_bytes); le_encode 2 (len type_bytes);
   le_encode 2 (len comment_bytes); name_bytes ++ [0]; type_bytes ++ [0]; comment_bytes ++ [0]].

Definition AdsSymbolEntry_serialize (e : AdsSymbolEntry) : bytes := mjoin (symbol_fields e).

(** ** The table *)

Fixpoint symbol_loop (fuel : nat) (data : bytes) (symbols : list AdsSymbolEntry) (offset : nat)
    : outcome AdsError (list AdsSymbolEntry) :=
  match fuel with
  | O => OutOfFuel
  | S fuel =>
    if (offset <? length data)%nat then
      if (length data <? offset + 4)%nat then Ok symbols
      else
        (tail <-- slice_or_panic data offset (length data) ;;
         r <-- AdsSymbolEntry_parse tail ;;
         let '(entry, consumed) := r in
         if (consumed =? 0)%nat then Err (ParseError "symbol entry with zero length")
         else symbol_loop fuel data (symbols ++ [entry]) (offset + consumed))%rust
    else Ok symbols
  end.

(** [parse_symbol_table]. *)
Definition parse_symbol_table (data : bytes) : outcome AdsError (list AdsSymbolEntry) :=
  symbol_loop (S (length data)) data [] 0.

(** ** Safety *)

Lemma until_nul_app s : 0 ∉ s -> until_nul (s ++ [0]) = s.
Proof.
  induction s as [|b s IH]; [done|]. rewrite not_elem_of_cons. intros [Hb Hs]. simpl.
  rewrite (proj2 (Z.eqb_neq _ _)) by done. by rewrite IH.
Qed.

Lemma until_nul_no_nul bs : 0 ∉ until_nul bs.
Proof.
  induction bs as [|b bs IH]; simpl; [apply not_elem_of_nil|].
  destruct (Z.eqb_spec b 0); [apply not_elem_of_nil|]. apply not_elem_of_cons. auto.
Qed.

(** A string read from the wire: valid UTF-8 without NUL. *)
Definition clean (s : string) : Prop := is_str s /\ 0 ∉ bytes_of_string s.

Definition clean_symbol (e : AdsSymbolEntry) : Prop :=
  clean (se_name e) /\ clean (se_type_name e) /\ clean (se_comment e).

(** The outcome is ordinary and its value satisfies [P]. *)
Definition ends_with {A} (P : A -> Prop) (m : outcome AdsError A) : Prop :=
  match m with Ok a => P a | Err _ => True | Panic | OutOfFuel => False end.

Lemma ends_bind {A B} (P : A -> Prop) (Q : B -> Prop) (m : outcome AdsError A) f :
  ends_with P m -> (forall a, P a -> ends_with Q (f a)) -> ends_with Q (outcome_bind m f).
Proof. destruct m; simpl; auto. Qed.

Lemma ends_le data a b :
  (a <= b)%nat -> (b <= length data)%nat -> ends_with (fun _ => True) (le_or_panic data a b).
Proof. intros. by rewrite le_or_panic_spec. Qed.

Lemma ends_slice data a b :
  is_bytes data -> (a <= b)%nat -> (b <= length data)%nat ->
  ends_with is_bytes (slice_or_panic data a b).
Proof. intros. rewrite slice_or_panic_spec by done. simpl. by apply Forall_take, Forall_drop. Qed.

Lemma ends_string data : is_bytes data -> ends_with clean (parse_null_terminated_string data).
Proof.
  intros Hd. unfold parse_null_terminated_string, from_utf8.
  assert (Hu : is_bytes (until_nul data)).
  { induction Hd as [|b bs Hb Hbs IH]; simpl; [constructor|]. case_match; by constructor. }
  destruct (utf8_valid _) eqn:Hv; [|done]. simpl. unfold clean, is_str.
  rewrite bytes_of_string_of_bytes by done. split; [done|apply until_nul_no_nul].
Qed.

Lemma symbol_parse_safe data :
  is_bytes data -> ends_with (fun r => clean_symbol r.1) (AdsSymbolEntry_parse data).
Proof.
  intros Hd. unfold AdsSymbolEntry_parse, SYMBOL_ENTRY_HEADER_SIZE.
  destruct (Nat.ltb_spec (length data) 30) as [|Hl]; [done|].
  do 9 (eapply ends_bind; [apply ends_le; lia|intros ? _]).
  match goal with |- ends_with _ (if ?c then _ else _) => destruct c eqn:Ht end; [done|].
  apply Nat.ltb_ge in Ht.
  do 3 (eapply ends_bind; [apply ends_slice; [done|lia..]|intros ? ?];
        eapply ends_bind; [by apply ends_string|intros ? ?]).
  done.
Qed.

Lemma symbol_loop_safe fuel data symbols offset :
  is_bytes data -> Forall clean_symbol symbols ->
  (length symbols <= offset)%nat -> (length data < offset + fuel)%nat -> (0 < fuel)%nat ->
  ends_with (fun l => Forall clean_symbol l /\ (length l <= Nat.max (length data) (length symbols))%nat)
    (symbol_loop fuel data symbols offset).
Proof.
  intros Hd. revert symbols offset. induction fuel as [|fuel IH]; intros symbols offset Hs Hn Hf H0; [lia|].
  cbn [symbol_loop]. destruct (Nat.ltb_spec offset (length data)) as [Ho|]; [|simpl; split; [done|lia]].
  destruct (Nat.ltb_spec (length data) (offset + 4)); [simpl; split; [done|lia]|].
  eapply ends_bind; [apply ends_slice; [done|lia..]|]. intros tail Ht.
  eapply ends_bind; [by apply symbol_parse_safe|]. intros [e consumed] He. simpl in He.
  destruct (Nat.eqb_spec consumed 0); [done|].
  assert (Hr : ends_with (fun l => Forall clean_symbol l /\
    (length l <= Nat.max (length data) (length (symbols ++ [e])))%nat)
    (symbol_loop fuel data (symbols ++ [e]) (offset + consumed))).
  { apply IH; [apply Forall_app; split; [done|by constructor]|rewrite length_app; simpl; lia|lia|lia]. }
  revert Hr. destruct (symbol_loop _ _ _ _); simpl; try done.
  rewrite length_app. simpl. intros [? ?]. split; [done|lia].
Qed.

(** Whatever bytes a PLC answers to a symbol upload, reading the table
    ends without a panic; what is accepted has no more entries than bytes, and
    every name, type and comment is valid UTF-8 without a NUL. *)
Theorem parse_symbol_table_safe data :
  is_bytes data ->
  completes (parse_symbol_table data) /\
  forall l, parse_symbol_table data = Ok l ->
    (length l <= length data)%nat /\ Forall clean_symbol l.
Proof.
  intros Hd. unfold parse_symbol_table.
  pose proof (symbol_loop_safe (S (length data)) data [] 0 Hd) as Hs.
  specialize (Hs ltac:(done) ltac:(simpl; lia) ltac:(lia) ltac:(lia)).
  destruct (symbol_loop _ _ _ _) as [l| | |]; simpl in Hs; try done.
  split; [done|]. intros l' [= <-]. destruct Hs as [Hc Hl]. split; [simpl in Hl; lia|done].
Qed.

(** ** Round trip *)

Record wf_symbol (e : AdsSymbolEntry) : Prop := {
  wf_se_group : in_width 32 (se_index_group e);
  wf_se_offset : in_width 32 (se_index_offset e);
  wf_se_size : in_width 32 (se_size e);
  wf_se_type : in_width 32 (se_data_type e);
  wf_se_flags : in_width 32 (se_flags e);
  wf_se_clean : clean_symbol e;
  wf_se_name : in_width 16 (len (bytes_of_string (se_name e)));
  wf_se_type_name : in_width 16 (len (bytes_of_string (se_type_name e)));
  wf_se_comment : in_width 16 (len (bytes_of_string (se_comment e)));
}.

Lemma parse_nul_string s : clean s -> parse_null_terminated_string (bytes_of_string s ++ [0]) = Ok s.
Proof.
  intros [Hs Hn]. unfold parse_null_terminated_string. rewrite until_nul_app by done.
  by rewrite from_utf8_bytes_of_string.
Qed.

Lemma length_symbol e :
  length (AdsSymbolEntry_serialize e) =
  (30 + (length (bytes_of_string (se_name e)) + 1) + (length (bytes_of_string (se_type_name e)) + 1) +
   (length (bytes_of_string (se_comment e)) + 1))%nat.
Proof.
  unfold AdsSymbolEntry_serialize, symbol_fields. simpl. rewrite !length_app. simpl.
  rewrite ?app_nil_r, ?length_app. simpl. lia.
Qed.

(** Field [i] of the entry, an integer of [n] bytes at [off]. *)
Ltac symbol_field rest e i off n :=
  let Hf := fresh in
  epose proof (le_field (E:=AdsError) [] rest (symbol_fields e) i off n _ eq_refl) as Hf;
  rewrite app_nil_l in Hf; cbn [Nat.add] in Hf;
  rewrite Hf; [cbn [outcome_bind]; clear Hf|assumption|reflexivity].

Lemma symbol_slice rest e i f off n :
  symbol_fields e !! i = Some f -> off = length (mjoin (take i (symbol_fields e))) -> n = length f ->
  slice_or_panic (E:=AdsError) (AdsSymbolEntry_serialize e ++ rest) off (off + n) = Ok f.
Proof.
  intros Hi Hoff Hn. unfold slice_or_panic, AdsSymbolEntry_serialize.
  pose proof (slice_field [] rest (symbol_fields e) i f off n Hi Hoff Hn) as Hs.
  rewrite app_nil_l in Hs. by rewrite Hs.
Qed.

Ltac symbol_offset nb tb :=
  first [ reflexivity | by rewrite length_app
        | simpl; rewrite !length_app; simpl; fold nb; fold tb; unfold SYMBOL_ENTRY_HEADER_SIZE; lia ].

Lemma symbol_parse_serialize e rest :
  wf_symbol e ->
  AdsSymbolEntry_parse (AdsSymbolEntry_serialize e ++ rest) =
  Ok (e, length (AdsSymbolEntry_serialize e)).
Proof.
  intros [Hg Ho Hsz Ht Hf (Hn & Hty & Hc) Ln Lt Lc].
  pose proof (length_symbol e) as Hlen. unfold len in *.
  set (nb := bytes_of_string (se_name e)) in *. set (tb := bytes_of_string (se_type_name e)) in *.
  set (cb := bytes_of_string (se_comment e)) in *.
  assert (He : in_width 32 (Z.of_nat (SYMBOL_ENTRY_HEADER_SIZE + (length nb + 1) + (length tb + 1) +
    (length cb + 1)))) by (unfold in_width, SYMBOL_ENTRY_HEADER_SIZE in *; lia).
  unfold AdsSymbolEntry_parse, len. unfold SYMBOL_ENTRY_HEADER_SIZE at 1.
  rewrite (proj2 (Nat.ltb_ge _ _)) by (rewrite length_app; lia).
  change (AdsSymbolEntry_serialize e) with (mjoin (symbol_fields e)) at 1 2 3 4 5 6 7 8 9.
  symbol_field rest e 0%nat 0%nat 4%nat. symbol_field rest e 1%nat 4%nat 4%nat.
  symbol_field rest e 2%nat 8%nat 4%nat. symbol_field rest e 3%nat 12%nat 4%nat.
  symbol_field rest e 4%nat 16%nat 4%nat. symbol_field rest e 5%nat 20%nat 4%nat.
  symbol_field rest e 6%nat 24%nat 2%nat. symbol_field rest e 7%nat 26%nat 2%nat.
  symbol_field rest e 8%nat 28%nat 2%nat.
  unfold len. fold nb tb cb. rewrite !Nat2Z.id. cbv zeta.
  rewrite (proj2 (Nat.ltb_ge _ _)) by (unfold SYMBOL_ENTRY_HEADER_SIZE; rewrite length_app; lia).
  rewrite (symbol_slice rest e 9 (nb ++ [0])) by (symbol_offset nb tb).
  cbn [outcome_bind]. unfold nb at 1. rewrite parse_nul_string by done. cbn [outcome_bind].
  rewrite (symbol_slice rest e 10 (tb ++ [0])) by (symbol_offset nb tb).
  cbn [outcome_bind]. unfold tb at 1. rewrite parse_nul_string by done. cbn [outcome_bind].
  rewrite (symbol_slice rest e 11 (cb ++ [0])) by (symbol_offset nb tb).
  cbn [outcome_bind]. unfold cb at 1. rewrite parse_nul_string by done. cbn [outcome_bind].
  rewrite Hlen. by destruct e.
Qed.

Lemma symbol_loop_table l symbols pre pad fuel :
  Forall wf_symbol l -> (length pad < 4)%nat ->
  (length l < fuel)%nat ->
  symbol_loop fuel (pre ++ mjoin (map AdsSymbolEntry_serialize l) ++ pad) symbols (length pre) =
  Ok (symbols ++ l).
Proof.
  intros Hl Hp. revert pre symbols fuel. induction Hl as [|e l He Hl IH]; intros pre symbols fuel Hf;
    (destruct fuel as [|fuel]; [simpl in Hf; lia|]); cbn [symbol_loop].
  - rewrite !length_app. simpl. rewrite app_nil_r. destruct (Nat.ltb_spec (length pre) (length pre + length pad)); [|done].
    by rewrite (proj2 (Nat.ltb_lt _ _)) by lia.
  - change (mjoin (map AdsSymbolEntry_serialize (e :: l))) with
      (AdsSymbolEntry_serialize e ++ mjoin (map AdsSymbolEntry_serialize l)).
    rewrite <- (app_assoc (AdsSymbolEntry_serialize e)). pose proof (length_symbol e) as Hlen.
    set (rest := mjoin _ ++ pad). rewrite (proj2 (Nat.ltb_lt _ _)) by (rewrite !length_app; lia).
    rewrite (proj2 (Nat.ltb_ge _ _)) by (rewrite !length_app; lia).
    unfold slice_or_panic. rewrite slice_at_spec by (rewrite ?length_app; lia).
    rewrite drop_app_length, take_ge by (rewrite !length_app; lia). cbn [outcome_bind].
    rewrite symbol_parse_serialize by done. cbn [outcome_bind].
    rewrite (proj2 (Nat.eqb_neq _ _)) by lia. unfold rest.
    specialize (IH (pre ++ AdsSymbolEntry_serialize e) (symbols ++ [e]) fuel).
    rewrite <- !app_assoc, length_app in IH. apply IH. simpl in Hf. lia.
Qed.

(** Each entry takes at least a byte. *)
Lemma length_table l : (length l <= length (mjoin (map AdsSymbolEntry_serialize l)))%nat.
Proof.
  induction l as [|e l IH]; [done|].
  change (mjoin (map AdsSymbolEntry_serialize (e :: l))) with
    (AdsSymbolEntry_serialize e ++ mjoin (map AdsSymbolEntry_serialize l)).
  rewrite length_app, length_symbol. simpl. lia.
Qed.

Lemma parse_table_serialize l pad :
  Forall wf_symbol l -> (length pad < 4)%nat ->
  parse_symbol_table (mjoin (map AdsSymbolEntry_serialize l) ++ pad) = Ok l.
Proof.
  intros Hl Hp. unfold parse_symbol_table. apply (symbol_loop_table l [] []); [done..|].
  rewrite length_app. pose proof (length_table l). lia.
Qed.

(** A serialised symbol table is read back, entry by entry and in order,
    and fewer than four trailing bytes are ignored. *)
Theorem symbol_table_roundtrip l pad :
  Forall wf_symbol l -> (length pad < 4)%nat ->
  parse_symbol_table (mjoin (map AdsSymbolEntry_serialize l) ++ pad) = Ok l.
Proof.
  apply parse_table_serialize.
Qed.
