(* ===== verification/Formatter.v ===== *)
(** * Message templates (crates/tc-otel-core: formatter.rs)

    A log message is a template with placeholders: [{0}] takes the argument of
    that index, [{name}] the next argument in order of first appearance or,
    without one, the context property of that name. The source scans the
    template once and keeps the names it has seen in an array of sixteen
    entries; here this scan is shown to compute the reference meaning of a
    template. *)

From S2P Require Import Prelude.
From S2P Require Import Text.
From S2P Require Import External.
From S2P Require Import Models.
From S2P Require Import Ams.

(** ** The scan *)

(** [memchr_brace] from the start of [bs]: what stands before the first
    closing brace and what stands behind it. *)
Fixpoint memchr_brace (bs : bytes) : option (bytes * bytes) :=
  match bs with
  | [] => None
  | b :: bs =>
    if b =? 125 then Some ([], bs)
    else match memchr_brace bs with
         | Some (key, rest) => Some (b :: key, rest)
         | None => None
         end
  end.

(** The fast path: the text before the next opening brace, and the rest. *)
Fixpoint literal_run (bs : bytes) : bytes * bytes :=
  match bs with
  | [] => ([], [])
  | b :: bs' => if b =? 123 then ([], bs) else let '(l, rest) := literal_run bs' in (b :: l, rest)
  end.

(** [usize::MAX] on the 64-bit targets. *)
Definition USIZE_MAX : Z := 2 ^ 64 - 1.

(** The array [seen_names] up to [seen_count], and [positional_index]. *)
Record FormatState := mkFormat {
  fs_seen : list (string * nat);
  fs_positional : nat;
}.

Definition SEEN_MAX : nat := 16.

Definition was_seen (key : string) (st : FormatState) : bool :=
  existsb (fun s => bool_decide (s.1 = key)) (fs_seen st).

Section Formatter.
Context `{Ext : External}.

(** [write_value]. *)
Fixpoint write_value (v : Value) : string :=
  match v with
  | Null => "null"
  | VBool b => if b then "true" else "false"
  | VNumber n => number_display n
  | VString s => s
  | VArray l => "[" +:+ join ", " (map write_value l) +:+ "]"
  | VObject l => "{" +:+ join ", " (map (fun kv => kv.1 +:+ "=" +:+ write_value kv.2) l) +:+ "}"
  end.

(** One placeholder: the value that replaces it, if any, and the new state. *)
Definition placeholder (arguments : gmap nat Value) (context : attrs) (key : string)
    (st : FormatState) : option Value * FormatState :=
  match parse_uint USIZE_MAX key with
  | Some index =>
    let arg_index := Z.to_nat (wrap 64 (index + 1)) in
    (arguments !! arg_index,
     if negb (was_seen key st) && (length (fs_seen st) <? SEEN_MAX)%nat
     then mkFormat (fs_seen st ++ [(key, arg_index)]) (fs_positional st + 1) else st)
  | None =>
    if bool_decide (key = "") then (None, st)
    else
      let '(arg_index, st) :=
        match List.find (fun s => bool_decide (s.1 = key)) (fs_seen st) with
        | Some (_, idx) => (idx, st)
        | None =>
          let idx := (fs_positional st + 1)%nat in
          (idx, mkFormat (if (length (fs_seen st) <? SEEN_MAX)%nat
                          then fs_seen st ++ [(key, idx)] else fs_seen st)
                  (fs_positional st + 1))
        end in
      (match arguments !! arg_index with
       | Some value => Some value
       | None => context !! key
       end, st)
  end.

(** The [while] loop over the rest of the template. *)
Fixpoint format_loop (fuel : nat) (arguments : gmap nat Value) (context : attrs)
    (st : FormatState) (result : string) (rest : bytes) : outcome Empty_set string :=
  match fuel with
  | O => OutOfFuel
  | S fuel =>
    match rest with
    | [] => Ok result
    | b :: bs =>
      if b =? 123 then
        match memchr_brace bs with
        | Some (key_bytes, rest) =>
          let key := string_of_bytes key_bytes in
          let '(value, st) := placeholder arguments context key st in
          let text := match value with
                      | Some v => write_value v
                      | None => "{" +:+ key +:+ "}"
                      end in
          format_loop fuel arguments context st (result +:+ text) rest
        | None => format_loop fuel arguments context st (result +:+ "{") bs
        end
      else
        let '(l, rest) := literal_run rest in
        format_loop fuel arguments context st (result +:+ string_of_bytes l) rest
    end
  end.

(** [MessageFormatter::format_with_context]. *)
Definition format_with_context (template : string) (arguments : gmap nat Value) (context : attrs)
    : outcome Empty_set string :=
  if negb (existsb (fun b => b =? 123) (bytes_of_string template)) then Ok template
  else format_loop (S (String.length template)) arguments context (mkFormat [] 0) ""
         (bytes_of_string template).

(** [MessageFormatter::format]. *)
Definition format (template : string) (arguments : gmap nat Value) : outcome Empty_set string :=
  if negb (existsb (fun b => b =? 123) (bytes_of_string template)) then Ok template
  else format_with_context template arguments ∅.

(** [MessageFormatter::extract_placeholders]. *)
Fixpoint extract_loop (fuel : nat) (bs : bytes) : outcome Empty_set (list string) :=
  match fuel with
  | O => OutOfFuel
  | S fuel =>
    match bs with
    | [] => Ok []
    | b :: bs =>
      if b =? 123 then
        match memchr_brace bs with
        | Some (key, rest) =>
          (l <-- extract_loop fuel rest ;;
           Ok (if bool_decide (string_of_bytes key = "") then l else string_of_bytes key :: l))%rust
        | None => extract_loop fuel bs
        end
      else extract_loop fuel bs
    end
  end.

Definition extract_placeholders (template : string) : outcome Empty_set (list string) :=
  extract_loop (S (String.length template)) (bytes_of_string template).

(** ** The meaning of a template *)

(** A template is text and placeholders, and a tail without closing brace. *)
Inductive segment := Lit (s : string) | Hole (key : string).

Definition segment_text (s : segment) : string :=
  match s with Lit s => s | Hole key => "{" +:+ key +:+ "}" end.

Definition wf_segment (s : segment) : Prop :=
  match s with
  | Lit s => 123 ∉ bytes_of_string s
  | Hole key => 125 ∉ bytes_of_string key
  end.

Definition segments_text (l : list segment) : string :=
  fold_right (fun s t => segment_text s +:+ t) "" l.

(** The keys of the placeholders in order, without the empty one. *)
Definition segment_keys (l : list segment) : list string :=
  flat_map (fun s => match s with
                     | Hole key => if bool_decide (key = "") then [] else [key]
                     | Lit _ => []
                     end) l.

(** The distinct elements of a list, in order of first appearance. *)
Definition distinct (l : list string) : list string :=
  fold_left (fun acc k => if bool_decide (k ∈ acc) then acc else acc ++ [k]) l [].

(** The position, from 1, of a key among the distinct keys. *)
Definition slot (names : list string) (key : string) : nat :=
  match list_find (key =.) names with Some (i, _) => S i | None => 0 end.

(** What a placeholder stands for: an index names the argument behind it, a
    name the argument of its slot, or else the context property. *)
Definition hole_value (names : list string) (arguments : gmap nat Value) (context : attrs)
    (key : string) : option Value :=
  match parse_uint USIZE_MAX key with
  | Some index => arguments !! Z.to_nat (wrap 64 (index + 1))
  | None =>
    if bool_decide (key = "") then None
    else match arguments !! slot names key with
         | Some v => Some v
         | None => context !! key
         end
  end.

Definition render_segment (names : list string) (arguments : gmap nat Value) (context : attrs)
    (s : segment) : string :=
  match s with
  | Lit s => s
  | Hole key =>
    match hole_value names arguments context key with
    | Some v => write_value v
    | None => segment_text (Hole key)
    end
  end.

Definition render (l : list segment) (arguments : gmap nat Value) (context : attrs) : string :=
  let names := distinct (segment_keys l) in
  fold_right (fun s t => render_segment names arguments context s +:+ t) "" l.

(** ** The scan computes the meaning *)

Lemma memchr_brace_app key rest :
  125 ∉ key -> memchr_brace (key ++ 125 :: rest) = Some (key, rest).
Proof.
  induction key as [|b key IH]; simpl; [done|]. rewrite not_elem_of_cons. intros [Hb Hk].
  rewrite (proj2 (Z.eqb_neq _ _)) by done. by rewrite IH.
Qed.

Lemma memchr_brace_none bs : 125 ∉ bs -> memchr_brace bs = None.
Proof.
  induction bs as [|b bs IH]; simpl; [done|]. rewrite not_elem_of_cons. intros [Hb Hbs].
  rewrite (proj2 (Z.eqb_neq _ _)) by done. by rewrite IH.
Qed.

Lemma memchr_brace_length bs key rest :
  memchr_brace bs = Some (key, rest) -> (length rest < length bs)%nat.
Proof.
  revert key. induction bs as [|b bs IH]; simpl; [done|]. intros key. case_match.
  - intros [= <- <-]. lia.
  - destruct (memchr_brace bs) as [[k r]|]; [|done]. intros [= <- <-]. specialize (IH _ eq_refl). lia.
Qed.

Lemma literal_run_length bs l rest : literal_run bs = (l, rest) -> (length rest <= length bs)%nat.
Proof.
  revert l. induction bs as [|b bs IH]; intros l; simpl; [by intros [= _ <-]|]. case_match.
  - by intros [= _ <-].
  - destruct (literal_run bs) as [l' r]. intros [= _ <-]. specialize (IH _ eq_refl). lia.
Qed.

Lemma literal_run_app l rest :
  123 ∉ l -> literal_run (l ++ rest) = (l ++ (literal_run rest).1, (literal_run rest).2).
Proof.
  induction l as [|b l IH]; simpl; [by destruct (literal_run rest)|].
  rewrite not_elem_of_cons. intros [Hb Hl]. rewrite (proj2 (Z.eqb_neq _ _)) by done.
  by rewrite IH.
Qed.

Section Scan.
Variables (arguments : gmap nat Value) (context : attrs).

Lemma format_loop_total fuel st result rest :
  (length rest < fuel)%nat -> exists s, format_loop fuel arguments context st result rest = Ok s.
Proof.
  revert st result rest. induction fuel as [|fuel IH]; intros st result rest Hf; [lia|].
  cbn [format_loop]. destruct rest as [|b bs]; [eauto|]. simpl in Hf. destruct (Z.eqb_spec b 123).
  - destruct (memchr_brace bs) as [[key r]|] eqn:Hm; [|apply IH; lia].
    apply memchr_brace_length in Hm. destruct (placeholder _ _ _ _). apply IH. lia.
  - simpl. rewrite (proj2 (Z.eqb_neq _ _)) by done.
    destruct (literal_run bs) as [l r] eqn:Hr. apply literal_run_length in Hr. apply IH. lia.
Qed.

Lemma format_loop_mono fuel fuel' st result rest s :
  (fuel <= fuel')%nat -> format_loop fuel arguments context st result rest = Ok s ->
  format_loop fuel' arguments context st result rest = Ok s.
Proof.
  revert fuel' st result rest. induction fuel as [|fuel IH]; intros fuel' st result rest Hf; [done|].
  destruct fuel' as [|fuel']; [lia|]. cbn [format_loop]. destruct rest as [|b bs]; [done|].
  case_match.
  - destruct (memchr_brace bs) as [[key r]|]; [destruct (placeholder _ _ _ _)|]; apply IH; lia.
  - destruct (literal_run _). apply IH. lia.
Qed.

(** The scan from a state ends with [s]. *)
Definition scans (st : FormatState) (result : string) (rest : bytes) (s : string) : Prop :=
  exists fuel, format_loop fuel arguments context st result rest = Ok s.

Lemma scans_enough st result rest s fuel :
  scans st result rest s -> (length rest < fuel)%nat ->
  format_loop fuel arguments context st result rest = Ok s.
Proof.
  intros [f Hs] Hf. destruct (format_loop_total fuel st result rest Hf) as [s' Hs'].
  apply (format_loop_mono _ (f + fuel)) in Hs; [|lia].
  apply (format_loop_mono _ (f + fuel)) in Hs' as Hs''; [|lia]. congruence.
Qed.

Lemma scans_lit st result l rest s :
  123 ∉ l -> scans st (result +:+ string_of_bytes l) rest s -> scans st result (l ++ rest) s.
Proof.
  intros Hl [fuel Hs]. destruct l as [|b l].
  { exists fuel. simpl in *. by rewrite string_app_nil_r in Hs. }
  pose proof (literal_run_app (b :: l) rest Hl) as Hrun.
  apply not_elem_of_cons in Hl as [Hb Hl]. destruct fuel as [|fuel]; [done|].
  destruct rest as [|c rest].
  - exists (S (S fuel)). cbn [format_loop app]. rewrite (proj2 (Z.eqb_neq _ _)) by done.
    change (b :: l ++ []) with ((b :: l) ++ []). rewrite Hrun. simpl (literal_run []).1.
    rewrite app_nil_r. exact Hs.
  - destruct (Z.eqb_spec c 123) as [->|Hc].
    + exists (S (S fuel)). cbn [format_loop app]. rewrite (proj2 (Z.eqb_neq b _)) by done.
      change (b :: l ++ 123 :: rest) with ((b :: l) ++ 123 :: rest). rewrite Hrun. simpl (literal_run _).1.
      rewrite app_nil_r. exact Hs.
    + exists (S fuel). cbn [format_loop app] in Hs |- *. rewrite (proj2 (Z.eqb_neq b _)) by done.
      rewrite (proj2 (Z.eqb_neq c _)) in Hs by done.
      change (b :: l ++ c :: rest) with ((b :: l) ++ c :: rest). rewrite Hrun.
      destruct (literal_run (c :: rest)) as [l' r']. simpl fst. simpl snd.
      rewrite string_of_bytes_app. by rewrite string_app_assoc.
Qed.

Lemma scans_tail st result tail :
  125 ∉ tail -> scans st result tail (result +:+ string_of_bytes tail).
Proof.
  revert result. induction tail as [|b tail IH]; intros result.
  { intros _. exists 1%nat. simpl. by rewrite string_app_nil_r. }
  rewrite not_elem_of_cons. intros [Hb Ht]. destruct (Z.eqb_spec b 123) as [->|Hn].
  - destruct (IH (result +:+ "{") Ht) as [fuel Hs]. exists (S fuel). cbn [format_loop].
    rewrite Z.eqb_refl, memchr_brace_none by done. by rewrite Hs, <- string_app_assoc.
  - change (b :: tail) with ([b] ++ tail). apply scans_lit; [by apply not_elem_of_cons; split; [|apply not_elem_of_nil]|].
    rewrite string_of_bytes_app, string_app_assoc. by apply IH.
Qed.

(** *** The names seen so far *)

(** [seen] lists the distinct keys so far, each name with its position. *)
Record seen_inv (keys : list string) (st : FormatState) : Prop := {
  sn_keys : (fs_seen st).*1 = distinct keys;
  sn_positional : fs_positional st = length (fs_seen st);
  sn_slots : forall i key idx, fs_seen st !! i = Some (key, idx) ->
    parse_uint USIZE_MAX key = None -> idx = S i;
}.

Lemma distinct_snoc keys k :
  distinct (keys ++ [k]) = if bool_decide (k ∈ distinct keys) then distinct keys else distinct keys ++ [k].
Proof. unfold distinct. by rewrite fold_left_app. Qed.

Lemma distinct_prefix keys keys' : exists m, distinct (keys ++ keys') = distinct keys ++ m.
Proof.
  revert keys. induction keys' as [|k keys' IH]; intros keys; [exists []; by rewrite !app_nil_r|].
  destruct (IH (keys ++ [k])) as [m Hm]. rewrite <- app_assoc in Hm. simpl in Hm. rewrite Hm.
  rewrite distinct_snoc. case_bool_decide; [eauto|]. exists (k :: m). by rewrite <- app_assoc.
Qed.

Lemma distinct_length keys keys' : (length (distinct keys) <= length (distinct (keys ++ keys')))%nat.
Proof. destruct (distinct_prefix keys keys') as [m ->]. rewrite length_app. lia. Qed.

Lemma was_seen_spec key st keys :
  seen_inv keys st -> was_seen key st = bool_decide (key ∈ distinct keys).
Proof.
  intros [Hk _ _]. rewrite <- Hk. apply eq_bool_prop_intro. rewrite bool_decide_spec. unfold was_seen.
  rewrite Is_true_true, existsb_exists, list_elem_of_fmap. split.
  - intros ([k i] & Hin & Hb). apply bool_decide_eq_true in Hb. exists (k, i).
    split; [by rewrite <- Hb|by apply list_elem_of_In].
  - intros (s & -> & Hin). exists s. split; [by apply list_elem_of_In|by apply bool_decide_eq_true].
Qed.

Lemma find_seen key l :
  match List.find (fun s : string * nat => bool_decide (s.1 = key)) l with
  | Some s => exists i, l !! i = Some s /\ list_find (key =.) l.*1 = Some (i, key)
  | None => key ∉ l.*1
  end.
Proof.
  induction l as [|[k idx] l IH]; [apply not_elem_of_nil|].
  rewrite fmap_cons. cbn [List.find list_find fst]. case_bool_decide as Hb.
  - subst k. exists 0%nat. split; [done|]. by rewrite decide_True.
  - destruct (List.find _ l) as [s|].
    + destruct IH as (i & Hi & Hf). exists (S i). split; [done|].
      rewrite decide_False by done. by rewrite Hf.
    + apply not_elem_of_cons. split; [congruence|done].
Qed.

Lemma list_find_prefix key (l m : list string) i :
  list_find (key =.) l = Some (i, key) -> list_find (key =.) (l ++ m) = Some (i, key).
Proof. intros Hf. by apply list_find_app_l. Qed.

Lemma slot_new names key m : key ∉ names -> slot (names ++ key :: m) key = S (length names).
Proof.
  intros Hn. unfold slot. rewrite list_find_app_r; [|by apply list_find_None, Forall_forall; intros ? ? <-].
  simpl. rewrite decide_True by done. simpl. lia.
Qed.

(** One placeholder of a template whose keys are [keys ++ [key] ++ keys']. *)
Lemma placeholder_spec keys keys' key st :
  seen_inv keys st -> key <> "" -> (length (distinct (keys ++ key :: keys')) <= SEEN_MAX)%nat ->
  (placeholder arguments context key st).1 =
    hole_value (distinct (keys ++ key :: keys')) arguments context key /\
  seen_inv (keys ++ [key]) (placeholder arguments context key st).2.
Proof.
  intros Hinv Hne Hmax. pose proof (was_seen_spec key st keys Hinv) as Hws.
  destruct Hinv as [Hk Hp Hs]. unfold placeholder, hole_value.
  replace (keys ++ key :: keys') with ((keys ++ [key]) ++ keys') in * by by rewrite <- app_assoc.
  pose proof (distinct_length (keys ++ [key]) keys') as Hle.
  destruct (distinct_prefix (keys ++ [key]) keys') as [m Hm]. rewrite Hm in *.
  rewrite distinct_snoc in *.
  assert (Hlen : length (fs_seen st) = length (distinct keys)) by by rewrite <- Hk, length_fmap.
  assert (Hsnoc : forall idx, key ∉ distinct keys ->
    (parse_uint USIZE_MAX key = None -> idx = S (length (fs_seen st))) ->
    seen_inv (keys ++ [key]) (mkFormat (fs_seen st ++ [(key, idx)]) (fs_positional st + 1))).
  { intros idx Hn Hidx. split; cbn [fs_seen fs_positional].
    - rewrite fmap_app, Hk, distinct_snoc. by rewrite bool_decide_false.
    - rewrite length_app. simpl. lia.
    - intros i k' idx' Hi. apply lookup_snoc_Some in Hi as [[_ Hi]|[-> Hi]]; [by apply Hs|].
      injection Hi as -> ->. done. }
  destruct (parse_uint USIZE_MAX key) as [index|] eqn:Hparse; simpl.
  - split; [done|]. rewrite Hws. case_bool_decide as Hin; simpl.
    + split; [by rewrite distinct_snoc, bool_decide_true|done..].
    + rewrite length_app in Hle, Hmax. simpl in Hle, Hmax. rewrite length_app in Hmax. simpl in Hmax.
      rewrite (proj2 (Nat.ltb_lt _ _)) by lia. by apply Hsnoc.
  - rewrite bool_decide_false by done. pose proof (find_seen key (fs_seen st)) as Hf.
    destruct (List.find _ _) as [[k idx]|].
    + destruct Hf as (i & Hi & Hfind). rewrite Hk in Hfind.
      assert (Hin : key ∈ distinct keys) by (apply list_find_Some in Hfind as (Hl & _ & _);
        by eapply list_elem_of_lookup_2).
      assert (k = key) as ->.
      { rewrite <- Hk in Hfind. apply list_find_Some in Hfind as (Hl & _ & _).
        rewrite list_lookup_fmap, Hi in Hl. by injection Hl. }
      rewrite bool_decide_true in * by done. unfold slot. rewrite (list_find_prefix _ _ _ _ Hfind).
      rewrite (Hs _ _ _ Hi Hparse). split; [done|].
      split; [by rewrite distinct_snoc, bool_decide_true|done..].
    + rewrite Hk in Hf. rewrite bool_decide_false in * by done.
      rewrite <- app_assoc. cbn [app]. rewrite slot_new by done.
      rewrite !length_app in Hmax. simpl in Hmax.
      rewrite (proj2 (Nat.ltb_lt _ _)) by lia.
      cbn [fst snd]. split; [|by apply Hsnoc; [done|lia]].
      by replace (fs_positional st + 1)%nat with (S (length (distinct keys))) by lia.
Qed.

Lemma scans_hole st result key rest s :
  125 ∉ bytes_of_string key ->
  (let r := placeholder arguments context key st in
   scans r.2 (result +:+ match r.1 with
                         | Some v => write_value v
                         | None => segment_text (Hole key)
                         end) rest s) ->
  scans st result (bytes_of_string (segment_text (Hole key)) ++ rest) s.
Proof.
  intros Hk [fuel Hs]. exists (S fuel). unfold segment_text. rewrite !bytes_of_string_app.
  change (bytes_of_string "{") with [123]. change (bytes_of_string "}") with [125].
  cbn [format_loop app]. rewrite Z.eqb_refl, <- app_assoc. simpl ([125] ++ rest).
  rewrite memchr_brace_app by done. rewrite string_of_bytes_of_string.
  by destruct (placeholder arguments context key st) as [v st'].
Qed.

Lemma segment_keys_app l l' : segment_keys (l ++ l') = segment_keys l ++ segment_keys l'.
Proof. unfold segment_keys. by rewrite flat_map_app. Qed.

Lemma scans_segments l0 l st result tail :
  Forall wf_segment l -> 125 ∉ bytes_of_string tail -> seen_inv (segment_keys l0) st ->
  (length (distinct (segment_keys (l0 ++ l))) <= SEEN_MAX)%nat ->
  scans st result (bytes_of_string (segments_text l +:+ tail))
    (result +:+ fold_right (fun s t => render_segment (distinct (segment_keys (l0 ++ l)))
                                         arguments context s +:+ t) "" l +:+ tail).
Proof.
  intros Hl Ht. revert l0 st result. induction Hl as [|s l Hs Hl IH]; intros l0 st result Hinv Hmax.
  { pose proof (scans_tail st result (bytes_of_string tail) Ht) as Hr.
    by rewrite string_of_bytes_of_string in Hr. }
  cbn [segments_text fold_right]. fold (segments_text l).
  rewrite <- string_app_assoc, bytes_of_string_app.
  replace (l0 ++ s :: l) with ((l0 ++ [s]) ++ l) in * by by rewrite <- app_assoc.
  rewrite <- (string_app_assoc _ _ tail), string_app_assoc.
  destruct s as [text|key]; simpl in Hs.
  - apply scans_lit; [done|]. rewrite string_of_bytes_of_string. apply IH; [|done].
    rewrite segment_keys_app. cbn [segment_keys flat_map]. by rewrite app_nil_r.
  - apply scans_hole; [done|]. cbv zeta. cbn [render_segment].
    destruct (decide (key = "")) as [->|Hne].
    + apply (IH (l0 ++ [Hole ""])); [|done]. rewrite segment_keys_app. simpl. by rewrite app_nil_r.
    + assert (Hkeys : segment_keys ((l0 ++ [Hole key]) ++ l) =
        segment_keys l0 ++ key :: segment_keys l).
      { rewrite !segment_keys_app. simpl. rewrite bool_decide_false by done. by rewrite <- app_assoc. }
      destruct (placeholder_spec (segment_keys l0) (segment_keys l) key st Hinv Hne) as [Hv Hst].
      { by rewrite <- Hkeys. }
      rewrite Hv, <- Hkeys. apply IH; [|done]. rewrite segment_keys_app. simpl.
      by rewrite bool_decide_false.
Qed.
End Scan.

(** The scan computes the meaning; the theorem at the end states it. *)
Lemma format_with_context_render l tail arguments context :
  Forall wf_segment l -> 125 ∉ bytes_of_string tail ->
  (length (distinct (segment_keys l)) <= SEEN_MAX)%nat ->
  format_with_context (segments_text l +:+ tail) arguments context =
  Ok (render l arguments context +:+ tail).
Proof.
  intros Hl Ht Hmax.
  assert (Hs : scans arguments context (mkFormat [] 0) "" (bytes_of_string (segments_text l +:+ tail))
    (render l arguments context +:+ tail)).
  { apply (scans_segments arguments context []); [done..| |done]. by split. }
  unfold format_with_context. destruct (existsb _ _) eqn:Hb; cbn [negb].
  - apply scans_enough; [done|]. rewrite length_bytes_of_string. lia.
  - f_equal. set (t := segments_text l +:+ tail) in *.
    assert (Hlit : scans arguments context (mkFormat [] 0) "" (bytes_of_string t ++ []) t).
    { apply scans_lit.
      - intros Hin. apply list_elem_of_In in Hin.
        assert (existsb (fun b => b =? 123) (bytes_of_string t) = true); [|congruence].
        apply existsb_exists. eauto using Z.eqb_refl.
      - rewrite string_of_bytes_of_string. by exists 1%nat. }
    rewrite app_nil_r in Hlit.
    pose proof (scans_enough _ _ _ _ _ _ (S (length (bytes_of_string t))) Hs ltac:(lia)).
    pose proof (scans_enough _ _ _ _ _ _ (S (length (bytes_of_string t))) Hlit ltac:(lia)). congruence.
Qed.

(** The single scan over a template computes its meaning: text is copied,
    [{n}] becomes argument [n + 1], a name the argument at the position of its
    first appearance among the distinct placeholders (a repeated name the same
    argument again) or else the context property of that name, and what has no
    value stays as it is, like an unclosed brace; for every template with at
    most sixteen distinct placeholders. *)
Theorem format_renders l tail arguments context :
  Forall wf_segment l -> 125 ∉ bytes_of_string tail ->
  (length (distinct (segment_keys l)) <= SEEN_MAX)%nat ->
  format_with_context (segments_text l +:+ tail) arguments context =
  Ok (render l arguments context +:+ tail).
Proof. apply format_with_context_render. Qed.
End Formatter.
