(* ===== verification/Registry.v ===== *)
(** * The task registry (crates/tc-otel-ads: registry.rs)

    Task metadata by (AMS Net ID, source port, task index). The lock around
    the map is held for one operation at a time, so each operation is an
    atomic step on the map. The order in which a [HashMap] is iterated is not
    specified: it is a parameter, and the theorems hold for every order. *)

From S2P Require Import Prelude.
From S2P Require Import Protocol.

Abbreviation TaskRegistry := (gmap RegistrationKey TaskMetadata).

Definition TaskRegistry_new : TaskRegistry := ∅.

Definition register (key : RegistrationKey) (metadata : TaskMetadata) (r : TaskRegistry)
    : TaskRegistry := <[key := metadata]> r.

Definition lookup_task (key : RegistrationKey) (r : TaskRegistry) : option TaskMetadata := r !! key.

Definition registry_len (r : TaskRegistry) : nat := size r.

Definition registry_is_empty (r : TaskRegistry) : bool := (size r =? 0)%nat.

Definition registry_clear (r : TaskRegistry) : TaskRegistry := ∅.

(** [Option::is_none_or]. *)
Definition is_none_or {A} (o : option A) (p : A -> bool) : bool :=
  match o with None => true | Some a => p a end.

(** The filter of [lookup_partial]. *)
Definition key_matches (ams_net_id : string) (ams_source_port task_index : option Z)
    (k : RegistrationKey) : bool :=
  bool_decide (rk_ams_net_id k = ams_net_id) &&
  is_none_or ams_source_port (fun p => rk_ams_source_port k =? p) &&
  is_none_or task_index (fun t => rk_task_index k =? t).

Section Iteration.
(** The order in which the map is iterated. *)
Variable iter : TaskRegistry -> list (RegistrationKey * TaskMetadata).

Definition lookup_partial (ams_net_id : string) (ams_source_port task_index : option Z)
    (r : TaskRegistry) : option (RegistrationKey * TaskMetadata) :=
  List.find (fun kv => key_matches ams_net_id ams_source_port task_index kv.1) (iter r).

Definition lookup_by_task (ams_net_id : string) (task_index : Z) (r : TaskRegistry) :=
  lookup_partial ams_net_id None (Some task_index) r.

Definition all_tasks (r : TaskRegistry) : list (RegistrationKey * TaskMetadata) := iter r.

(** Iteration visits every binding once. *)
Hypothesis iter_perm : forall r, iter r ≡ₚ map_to_list r.

(** A partial lookup is sound and complete for every iteration order: it
    returns a registered task that satisfies every supplied component, it
    returns one whenever there is one, and when only one registered task
    matches it is that one. *)
Theorem lookup_partial_spec net port task r :
  match lookup_partial net port task r with
  | Some (k, m) => lookup_task k r = Some m /\ key_matches net port task k = true
  | None => forall k, is_Some (lookup_task k r) -> key_matches net port task k = false
  end /\
  (forall k m, lookup_task k r = Some m -> key_matches net port task k = true ->
     (forall k', is_Some (lookup_task k' r) -> key_matches net port task k' = true -> k' = k) ->
     lookup_partial net port task r = Some (k, m)).
Proof using iter_perm.
  assert (Hin : forall k m, In (k, m) (iter r) <-> lookup_task k r = Some m).
  { intros k m. rewrite <- list_elem_of_In, iter_perm. apply elem_of_map_to_list. }
  assert (Hspec : match lookup_partial net port task r with
    | Some (k, m) => lookup_task k r = Some m /\ key_matches net port task k = true
    | None => forall k, is_Some (lookup_task k r) -> key_matches net port task k = false end).
  { unfold lookup_partial. destruct (List.find _ _) as [[k m]|] eqn:Hf.
    - apply find_some in Hf as [Hk Hm]. by apply Hin in Hk.
    - intros k [m Hk]. apply Hin in Hk. by apply (find_none _ _ Hf) in Hk. }
  split; [done|]. intros k m Hk Hm Hu. destruct (lookup_partial net port task r) as [[k' m']|].
  - destruct Hspec as [Hk' Hm']. assert (k' = k) as -> by eauto. congruence.
  - rewrite Hspec in Hm; [done|eauto].
Qed.

End Iteration.
