(* ===== verification/Diagnostics.v ===== *)
(** * Runtime diagnostics (crates/tc-otel-ads: diagnostics.rs,
      diagnostics_observer.rs)

    The diagnostic events, the decoders of the polls the engineering tool
    issues, and the observer that pairs requests with their responses. A
    decoder that returns [Option] gives [Err tt] for [None], so that a panic
    stays visible. *)

From S2P Require Import Prelude.
From S2P Require Import Text.
From S2P Require Import Ams.

(** ** Constants *)

Definition ADS_STATE_RESPONSE_MASK : Z := 1.
Definition IG_RT_SYSTEM : Z := 61952.
Definition IG_RT_USAGE : Z := 1.
Definition IO_EXCEED_COUNTER : Z := 256.
Definition IO_TASK_STATS : Z := 0.
Definition IO_RT_USAGE : Z := 15.
Definition IG_PUSH_DIAG : Z := 1296188161.
Definition IO_PUSH_BATCH : Z := 0.
Definition IO_PUSH_METRIC_AGG : Z := 2.
Definition PUSH_WIRE_VERSION : Z := 2.
Definition PUSH_BATCH_EVENT_TYPE : Z := 10.
Definition PUSH_METRIC_EVENT_TYPE : Z := 20.
Definition PUSH_METRIC_AGG_EVENT_TYPE : Z := 21.
Definition PUSH_METRIC_AGG_HEADER_SIZE : nat := 52.
Definition PUSH_METRIC_AGG_TRACE_SIZE : nat := 24.
Definition METRIC_FLAG_HAS_TRACE_CTX : Z := 1.
Definition METRIC_FLAG_RING_OVERFLOWED : Z := 2.
Definition METRIC_FLAG_HAS_SAMPLE_TS : Z := 4.
Definition METRIC_FLAG_HAS_NAMESPACE : Z := 8.
Definition METRIC_FLAG_HAS_SAMPLE_TS_DC : Z := 16.
Definition METRIC_SAMPLE_TS_SIZE : nat := 2.
Definition METRIC_SAMPLE_TS_DC_SIZE : nat := 8.
Definition METRIC_STAT_ORDER : list (Z * string) :=
  [(1, "min"); (2, "max"); (4, "mean"); (8, "sum"); (16, "count"); (32, "stddev")].
Definition PUSH_BATCH_HEADER_SIZE : nat := 80.
Definition PUSH_SAMPLE_SIZE : nat := 24.
Definition PUSH_BATCH_MAX_SAMPLES : nat := 1024.
Definition TASK_STATS_LEN : nat := 16.
Definition EXCEED_COUNTER_LEN : nat := 4.
Definition RT_USAGE_LEN : nat := 24.

(** ** Events *)

Inductive MetricBodySchema :=
| SchemaBool | SchemaNumeric | SchemaDiscrete | SchemaString | SchemaWstring
| SchemaNumericAggregated.

#[export] Instance MetricBodySchema_eq_dec : EqDecision MetricBodySchema.
Proof. solve_decision. Defined.

(** [MetricBodySchema::from_byte]. *)
Definition MetricBodySchema_from_byte (b : Z) : option MetricBodySchema :=
  match b with
  | 1 => Some SchemaBool
  | 2 => Some SchemaNumeric
  | 3 => Some SchemaDiscrete
  | 4 => Some SchemaString
  | 5 => Some SchemaWstring
  | 6 => Some SchemaNumericAggregated
  | _ => None
  end.

(** Floats are carried as their bit patterns. *)
Inductive MetricAggregateSample :=
| SampleBool (b : bool)
| SampleNumeric (bits : Z)
| SampleDiscrete (raw : bytes)
| SampleString (s : string)
| SampleWstring (s : string)
| SampleNumericAggregated (stat_mask : Z) (values : list Z).

Record MetricDescriptor := mkDescriptor {
  md_metric_id : Z;
  md_kind : Z;
  md_flags : Z;
  md_name : string;
  md_unit : string;
  md_description : string;
  md_scope_namespace : string;
  md_attributes : list (string * string);
  md_histogram_bounds : option (list Z);
}.

Record MetricSample := mkMetricSample {
  ms_metric_id : Z;
  ms_flags : Z;
  ms_dc_time : Z;
  ms_value : Z;
}.

Record DiagSample := mkDiagSample {
  ds_cycle_count : Z;
  ds_exec_time_us : Z;
  ds_dc_time : Z;
  ds_flags : Z;
}.

Record DiagBatch := mkDiagBatch {
  db_task_port : Z;
  db_task_name : string;
  db_task_obj_id : Z;
  db_window_ms : Z;
  db_cycle_count_start : Z;
  db_cycle_count_end : Z;
  db_dc_time_start : Z;
  db_dc_time_end : Z;
  db_exec_time_min_us : Z;
  db_exec_time_max_us : Z;
  db_exec_time_avg_us : Z;
  db_cycle_exceed_count : Z;
  db_rt_violation_count : Z;
  db_samples : list DiagSample;
}.

Record AggregateBatch := mkAggregate {
  ab_metric_id : Z;
  ab_task_index : Z;
  ab_flags : Z;
  ab_body_schema : MetricBodySchema;
  ab_sample_size : Z;
  ab_stat_mask : Z;
  ab_cycle_count_start : Z;
  ab_cycle_count_end : Z;
  ab_dc_time_start : Z;
  ab_dc_time_end : Z;
  ab_name : string;
  ab_unit : string;
  ab_scope_namespace : string;
  ab_trace_id : option bytes;
  ab_span_id : option bytes;
  ab_samples : list MetricAggregateSample;
  ab_sample_cycle_offsets : option (list Z);
  ab_sample_dc_times : option (list Z);
}.

Inductive DiagEvent :=
| ExceedCounter (value : Z)
| ExceedReset
| TaskStats (task_port type_marker cycle_counter cpu_ticks_100ns exec_ticks_100ns : Z)
| RtUsage (peak_latency_us system_latency_us cpu_percent : Z)
| TaskDiagBatch (b : DiagBatch)
| MetricBatch (window_ms cycle_count dc_time_start dc_time_end : Z)
    (descriptors : list MetricDescriptor) (samples : list MetricSample)
| MetricAggregateBatch (b : AggregateBatch).

(** ** Request and response decoders *)

Record PendingRequest := mkPending {
  pq_command_id : Z;
  pq_index_group : Z;
  pq_index_offset : Z;
  pq_size : Z;
  pq_target_port : Z;
}.

Definition is_known_read (ig io : Z) : bool :=
  (ig =? IG_RT_SYSTEM) && (io =? IO_EXCEED_COUNTER) ||
  (ig =? IG_RT_SYSTEM) && (io =? IO_TASK_STATS) ||
  (ig =? IG_RT_USAGE) && (io =? IO_RT_USAGE).

Definition is_known_write (ig io : Z) : bool := (ig =? IG_RT_SYSTEM) && (io =? IO_EXCEED_COUNTER).

(** The decoders return [Option]: [Err tt] is [None]. *)
Abbreviation decoded := (outcome unit).

Definition decode_request (header : AmsHeader) (payload : bytes) : decoded (Z * PendingRequest) :=
  if negb (state_flags header =? ADS_STATE_REQUEST) then Err tt
  else if (command_id header =? ADS_CMD_READ) || (command_id header =? ADS_CMD_WRITE) then
    if (length payload <? 12)%nat then Err tt
    else
      (ig <-- le_or_panic payload 0 4 ;;
       io <-- le_or_panic payload 4 8 ;;
       size <-- le_or_panic payload 8 12 ;;
       let known :=
         if command_id header =? ADS_CMD_READ then is_known_read ig io
         else if command_id header =? ADS_CMD_WRITE then is_known_write ig io
         else false in
       if negb known then Err tt
       else Ok (invoke_id header,
                mkPending (command_id header) ig io size (target_port header)))%rust
  else Err tt.

Definition decode_read_response (payload : bytes) (req : PendingRequest) : decoded DiagEvent :=
  if (length payload <? 8)%nat then Err tt
  else
    (result <-- le_or_panic payload 0 4 ;;
     rlen_w <-- le_or_panic payload 4 8 ;;
     let rlen := Z.to_nat rlen_w in
     if negb (result =? 0) then Err tt
     else
       match slice_at payload 8 (8 + rlen) with
       | None => Err tt
       | Some data =>
         let at_ ig io := (pq_index_group req =? ig) && (pq_index_offset req =? io) in
         if at_ IG_RT_SYSTEM IO_EXCEED_COUNTER && (rlen =? EXCEED_COUNTER_LEN)%nat then
           Ok (ExceedCounter (le_decode data))
         else if at_ IG_RT_SYSTEM IO_TASK_STATS && (rlen =? TASK_STATS_LEN)%nat then
           type_marker <-- le_or_panic data 2 4 ;;
           cycle_counter <-- le_or_panic data 0 2 ;;
           cpu_ticks <-- le_or_panic data 4 8 ;;
           exec_ticks <-- le_or_panic data 8 12 ;;
           Ok (TaskStats (pq_target_port req) type_marker cycle_counter cpu_ticks exec_ticks)
         else if at_ IG_RT_USAGE IO_RT_USAGE && (rlen =? RT_USAGE_LEN)%nat then
           peak <-- le_or_panic data 4 8 ;;
           latency <-- le_or_panic data 8 12 ;;
           cpu <-- le_or_panic data 16 20 ;;
           Ok (RtUsage peak latency cpu)
         else Err tt
       end)%rust.

Definition decode_write_response (req : PendingRequest) : decoded DiagEvent :=
  if is_known_write (pq_index_group req) (pq_index_offset req) then Ok ExceedReset else Err tt.

Definition decode_response (header : AmsHeader) (payload : bytes) (req : PendingRequest)
    : decoded DiagEvent :=
  if Z.land (state_flags header) ADS_STATE_RESPONSE_MASK =? 0 then Err tt
  else if pq_command_id req =? ADS_CMD_READ then decode_read_response payload req
  else if pq_command_id req =? ADS_CMD_WRITE then decode_write_response req
  else Err tt.

Definition decode_write_from_request (header : AmsHeader) (payload : bytes) : decoded DiagEvent :=
  if negb (state_flags header =? ADS_STATE_REQUEST) || negb (command_id header =? ADS_CMD_WRITE)
     || (length payload <? 12)%nat then Err tt
  else
    (ig <-- le_or_panic payload 0 4 ;;
     io <-- le_or_panic payload 4 8 ;;
     if is_known_write ig io then Ok ExceedReset else Err tt)%rust.

(** ** The observer (diagnostics_observer.rs)

    Time is the monotonic clock in milliseconds, passed to each operation. *)

Abbreviation CorrelationKey := (bytes * bytes * Z)%type.

Record PendingEntry := mkPendingEntry {
  pe_req : PendingRequest;
  pe_inserted : Z;
}.

Record DiagnosticsObserver := mkObserver {
  ob_pending : gmap CorrelationKey PendingEntry;
  ob_last_gc : Z;
}.

Definition PENDING_TTL : Z := 30000.
Definition MAX_PENDING : nat := Z.to_nat 8192.
Definition GC_INTERVAL : Z := 10000.

Definition Observer_new (now : Z) : DiagnosticsObserver := mkObserver ∅ now.

Definition pending_len (o : DiagnosticsObserver) : nat := size (ob_pending o).

Definition gc_now (now : Z) (o : DiagnosticsObserver) : DiagnosticsObserver :=
  mkObserver (filter (fun kv => now - PENDING_TTL <= pe_inserted kv.2) (ob_pending o)) now.

Definition maybe_gc (now : Z) (o : DiagnosticsObserver) : DiagnosticsObserver :=
  if now - ob_last_gc o <? GC_INTERVAL then o else gc_now now o.

(** The key of a request; a response's ends are the other way round. *)
Definition request_key (h : AmsHeader) : CorrelationKey :=
  (net_bytes (target_net_id h), net_bytes (source_net_id h), invoke_id h).
Definition response_key (h : AmsHeader) : CorrelationKey :=
  (net_bytes (source_net_id h), net_bytes (target_net_id h), invoke_id h).

(** [DiagnosticsObserver::feed]. *)
Definition feed (now : Z) (header : AmsHeader) (payload : bytes) (o : DiagnosticsObserver)
    : decoded DiagEvent * DiagnosticsObserver :=
  let o := maybe_gc now o in
  if Z.land (state_flags header) 1 =? 0 then
    match decode_write_from_request header payload with
    | Ok ev => (Ok ev, o)
    | Err _ =>
      match decode_request header payload with
      | Ok (_, req) =>
        let o := if (MAX_PENDING <=? size (ob_pending o))%nat then gc_now now o else o in
        (Err tt, mkObserver (<[request_key header := mkPendingEntry req now]> (ob_pending o))
                   (ob_last_gc o))
      | Err _ => (Err tt, o)
      | Panic => (Panic, o)
      | OutOfFuel => (OutOfFuel, o)
      end
    | Panic => (Panic, o)
    | OutOfFuel => (OutOfFuel, o)
    end
  else
    match ob_pending o !! response_key header with
    | None => (Err tt, o)
    | Some entry =>
      (decode_response header payload (pe_req entry),
       mkObserver (delete (response_key header) (ob_pending o)) (ob_last_gc o))
    end.

(** ** Decoders never panic *)

(** Discharges the reads at fixed offsets whose bounds the context gives. *)
Ltac reads_ok := rewrite ?le_or_panic_spec, ?slice_or_panic_spec by lia; cbn [outcome_bind].

Lemma decode_request_completes h p : completes (decode_request h p).
Proof.
  unfold decode_request. case_match; [done|]. case_match; [|done].
  destruct (Nat.ltb_spec (length p) 12); [done|]. reads_ok. by case_match.
Qed.

Lemma decode_write_completes h p : completes (decode_write_from_request h p).
Proof.
  unfold decode_write_from_request.
  destruct (Nat.ltb_spec (length p) 12); [by rewrite orb_true_r|].
  case_match; [done|]. reads_ok. by case_match.
Qed.

Lemma decode_response_completes h p req : completes (decode_response h p req).
Proof.
  unfold decode_response, decode_read_response, decode_write_response.
  case_match; [done|]. case_match; [|by repeat case_match].
  destruct (Nat.ltb_spec (length p) 8); [done|]. reads_ok. case_match; [done|].
  set (n := Z.to_nat _). destruct (slice_at p 8 (8 + n)) as [data|] eqn:Hs; [|done].
  apply slice_at_length in Hs. unfold TASK_STATS_LEN, RT_USAGE_LEN in *.
  repeat (case_match; try done); to_prop;
    repeat match goal with H : _ && _ = true |- _ => apply andb_true_iff in H as [? ?] end;
    to_prop; reads_ok; done.
Qed.

(** Feeding the observer any frame, at any time and in any state, ends
    without a panic. *)
Theorem feed_total now h p o : completes (feed now h p o).1.
Proof.
  pose proof (decode_write_completes h p) as Hw. pose proof (decode_request_completes h p) as Hr.
  unfold feed. case_match.
  - destruct (decode_write_from_request h p); try done.
    by destruct (decode_request h p) as [[? ?]| | |].
  - case_match; [apply decode_response_completes|done].
Qed.

(** ** Correlation *)

(** A frame the observer is fed, with its arrival time. *)
Abbreviation frame_event := (Z * AmsHeader * bytes)%type.

Definition feed_all (o : DiagnosticsObserver) (l : list frame_event) : DiagnosticsObserver :=
  fold_left (fun o f => (feed f.1.1 f.1.2 f.2 o).2) l o.

(** Arrival times are those of a monotonic clock. *)
Fixpoint times_from (t : Z) (l : list frame_event) : Prop :=
  match l with
  | [] => True
  | f :: l => t <= f.1.1 /\ times_from f.1.1 l
  end.

(** The frame belongs to another conversation than [k]. *)
Definition other_frame (k : CorrelationKey) (f : frame_event) : Prop :=
  request_key f.1.2 <> k /\ response_key f.1.2 <> k.

Lemma gc_now_keeps now o k e :
  ob_pending o !! k = Some e -> now - PENDING_TTL <= pe_inserted e ->
  ob_pending (gc_now now o) !! k = Some e.
Proof. intros Hk He. simpl. by apply map_lookup_filter_Some. Qed.

Lemma maybe_gc_keeps now o k e :
  ob_pending o !! k = Some e -> now - PENDING_TTL <= pe_inserted e ->
  ob_pending (maybe_gc now o) !! k = Some e.
Proof. intros. unfold maybe_gc. case_match; [done|]. by apply gc_now_keeps. Qed.

Lemma feed_keeps f o k e :
  ob_pending o !! k = Some e -> f.1.1 - PENDING_TTL <= pe_inserted e -> other_frame k f ->
  ob_pending (feed f.1.1 f.1.2 f.2 o).2 !! k = Some e.
Proof.
  destruct f as [[now h] p]. intros Hk He [Hq Hr]; simpl in *.
  pose proof (maybe_gc_keeps now o k e Hk He) as Hgc. unfold feed.
  case_match.
  - repeat (case_match; try done); simpl; rewrite lookup_insert_ne by done; [|done].
    by apply gc_now_keeps.
  - case_match; [|done]. simpl. by rewrite lookup_delete_ne.
Qed.

Lemma feed_all_keeps l o k e t :
  times_from t l -> Forall (fun f => f.1.1 - PENDING_TTL <= pe_inserted e) l ->
  Forall (other_frame k) l -> ob_pending o !! k = Some e ->
  ob_pending (feed_all o l) !! k = Some e.
Proof.
  revert o t. induction l as [|f l IH]; intros o t Ht Hl Ho Hk; [done|].
  inversion Hl; inversion Ho; subst. destruct Ht as [_ Ht]. simpl.
  eapply IH; eauto using feed_keeps.
Qed.

(** Request/response correlation: a recognised read request, any frames
    of other conversations, and then its response within the pending TTL make
    the observer decode that response against that request. *)
Theorem observer_correlates o l tq hq pq req tr hr pr :
  Z.land (state_flags hq) 1 = 0 -> command_id hq = ADS_CMD_READ ->
  decode_request hq pq = Ok (invoke_id hq, req) ->
  times_from tq l -> Forall (fun f => f.1.1 <= tr) l -> tq <= tr <= tq + PENDING_TTL ->
  Forall (other_frame (request_key hq)) l ->
  Z.land (state_flags hr) 1 <> 0 -> response_key hr = request_key hq ->
  (feed tr hr pr (feed_all (feed tq hq pq o).2 l)).1 = decode_response hr pr req.
Proof.
  intros Hq Hc Hd Ht Hl Htr Ho Hr Hkey.
  assert (Hw : decode_write_from_request hq pq = Err tt).
  { unfold decode_write_from_request. rewrite Hc. by rewrite orb_true_r. }
  assert (Hin : ob_pending (feed tq hq pq o).2 !! request_key hq = Some (mkPendingEntry req tq)).
  { unfold feed. rewrite Hq, Hw, Hd. simpl. by rewrite lookup_insert_eq. }
  assert (Hl' : Forall (fun f => f.1.1 - PENDING_TTL <= tq) l)
    by (eapply Forall_impl; [exact Hl|]; intros f Hf; simpl in Hf; lia).
  pose proof (feed_all_keeps l _ _ (mkPendingEntry req tq) tq Ht Hl' Ho Hin) as Hk.
  apply (maybe_gc_keeps tr) in Hk; [|simpl; lia].
  unfold feed at 1. rewrite (proj2 (Z.eqb_neq _ _)) by done. by rewrite Hkey, Hk.
Qed.

(** ** Stale entries *)

Definition fresh_since (t : Z) (o : DiagnosticsObserver) : Prop :=
  forall k e, ob_pending o !! k = Some e -> t <= pe_inserted e.

(** What the observer maintains: nothing pending is older than the TTL was at
    the last sweep. *)
Definition observer_inv (o : DiagnosticsObserver) : Prop :=
  fresh_since (ob_last_gc o - PENDING_TTL) o.

Lemma gc_now_inv now o : observer_inv (gc_now now o) /\ ob_last_gc (gc_now now o) = now.
Proof. split; [|done]. intros k e [_ H]%map_lookup_filter_Some. exact H. Qed.

Lemma maybe_gc_inv now o :
  observer_inv o -> ob_last_gc o <= now ->
  observer_inv (maybe_gc now o) /\ now - GC_INTERVAL < ob_last_gc (maybe_gc now o) <= now.
Proof.
  intros Hi Hn. unfold maybe_gc. destruct (Z.ltb_spec (now - ob_last_gc o) GC_INTERVAL).
  - split; [done|lia].
  - split; [apply gc_now_inv|]. unfold GC_INTERVAL. simpl. lia.
Qed.

Lemma feed_inv now h p o :
  observer_inv o -> ob_last_gc o <= now ->
  let o' := (feed now h p o).2 in
  observer_inv o' /\ now - GC_INTERVAL < ob_last_gc o' <= now.
Proof.
  intros Hi Hn. pose proof (maybe_gc_inv now o Hi Hn) as [Hi' Hn']. simpl. unfold feed.
  case_match.
  - repeat (case_match; try done); simpl; (split; [|unfold GC_INTERVAL in *; lia]);
      intros k pe; simpl; rewrite lookup_insert_Some; intros [[_ <-]|[_ Hk]]; simpl;
      try (unfold PENDING_TTL; lia).
    + by apply (gc_now_inv now (maybe_gc now o)) in Hk.
    + by apply Hi' in Hk.
  - case_match; [|done]. split; [|done]. intros k e. simpl.
    rewrite lookup_delete_Some. intros [_ Hk]. by apply Hi' in Hk.
Qed.

Lemma feed_all_inv l o t :
  observer_inv o -> ob_last_gc o <= t -> times_from t l ->
  observer_inv (feed_all o l) /\ ob_last_gc (feed_all o l) <= default t (fst ∘ fst <$> last l).
Proof.
  revert o t. induction l as [|f l IH]; intros o t Hi Ht Hl; [done|]. destruct Hl as [Hf Hl].
  pose proof (feed_inv f.1.1 f.1.2 f.2 o Hi ltac:(lia)) as [Hi' Hg].
  specialize (IH (feed f.1.1 f.1.2 f.2 o).2 f.1.1 Hi' ltac:(lia) Hl). rewrite last_cons.
  by destruct (last l).
Qed.

(** Orphaned requests are forgotten: after any sequence of frames fed in
    the order of a monotonic clock, no pending request is older than the TTL
    plus the sweep interval (40 s). *)
Theorem observer_forgets t0 l now h p :
  times_from t0 (l ++ [(now, h, p)]) ->
  fresh_since (now - PENDING_TTL - GC_INTERVAL) (feed_all (Observer_new t0) (l ++ [(now, h, p)])).
Proof.
  intros Hl. unfold feed_all. rewrite fold_left_app. simpl.
  assert (Hsplit : times_from t0 l /\ default t0 (fst ∘ fst <$> last l) <= now).
  { revert Hl. generalize t0. induction l as [|f l IH]; intros t [H1 H2]; simpl in *; [lia|].
    destruct (IH _ H2) as [H3 H4]. split; [done|]. fold (last (f :: l)). rewrite last_cons.
    by destruct (last l). }
  destruct Hsplit as [Hl' Hn].
  destruct (feed_all_inv l (Observer_new t0) t0) as [Hi Hg]; [|done|done|].
  { intros k e. simpl. by rewrite lookup_empty. }
  fold (feed_all (Observer_new t0) l).
  destruct (feed_inv now h p _ Hi ltac:(lia)) as [Hi' Hg'].
  intros k e Hk. apply Hi' in Hk. lia.
Qed.
