(* ===== verification/PushDecode.v ===== *)
(** * Push-diagnostic frames (crates/tc-otel-ads: diagnostics_push.rs)

    The three batch decoders for frames the PLC pushes: task diagnostics,
    metric batches with descriptors, and aggregate metric batches. [Err tt]
    is [None]; reads out of range are [Panic]. The theorems: no frame makes a
    decoder panic, well-formed frames decode to what was encoded, and what a
    decoder accepts is within the limits. *)

From S2P Require Import Prelude.
From S2P Require Import Text.
From S2P Require Import Ams.
From S2P Require Import Reader.
From S2P Require Import Diagnostics.

(** ** Readers at an offset *)

(** [bytes[off]]. *)
Definition index_or_panic {E} (data : bytes) (off : nat) : outcome E Z :=
  match byte_at data off with Some b => Ok b | None => Panic end.

(** [read_u16], [read_u32], [read_i64], [read_f32], [read_f64]. The fallback of
    [try_into().unwrap_or(..)] is never taken: the slice has the right length. *)
Definition push_read_u16 {E} (data : bytes) (off : nat) : outcome E Z :=
  le_or_panic data off (off + 2).
Definition push_read_u32 {E} (data : bytes) (off : nat) : outcome E Z :=
  le_or_panic data off (off + 4).
Definition push_read_i64 {E} (data : bytes) (off : nat) : outcome E Z :=
  (v <-- le_or_panic data off (off + 8) ;; Ok (to_signed 64 v))%rust.
Definition push_read_f32 {E} (data : bytes) (off : nat) : outcome E Z :=
  le_or_panic data off (off + 4).
Definition push_read_f64 {E} (data : bytes) (off : nat) : outcome E Z :=
  le_or_panic data off (off + 8).

(** The trailing zeros stripped, from the end. *)
Fixpoint strip_zeros_rev (l : bytes) : bytes :=
  match l with
  | 0 :: l => strip_zeros_rev l
  | _ => l
  end.
Definition strip_zeros (l : bytes) : bytes := reverse (strip_zeros_rev (reverse l)).

Definition decode_task_name (data : bytes) : string := from_utf8_lossy (strip_zeros data).

(** [for i in 0..n { v.push(f(i)?) }]. *)
Fixpoint collect_from {E A} (n i : nat) (f : nat -> outcome E A) : outcome E (list A) :=
  match n with
  | O => Ok []
  | S n => (a <-- f i ;; l <-- collect_from n (S i) f ;; Ok (a :: l))%rust
  end.

(** ** Task-diagnostic batches *)

Definition decode_diag_sample (data : bytes) (i : nat) : decoded DiagSample :=
  let off := (PUSH_BATCH_HEADER_SIZE + i * PUSH_SAMPLE_SIZE)%nat in
  (cycle_count <-- push_read_u32 data off ;;
   exec_time_us <-- push_read_u32 data (off + 4) ;;
   dc_time <-- push_read_i64 data (off + 8) ;;
   flags <-- index_or_panic data (off + 16) ;;
   Ok (mkDiagSample cycle_count exec_time_us dc_time flags))%rust.

Definition decode_batch (data : bytes) : decoded DiagEvent :=
  if (length data <? PUSH_BATCH_HEADER_SIZE)%nat then Err tt
  else
    (version <-- index_or_panic data 0 ;;
     event_type <-- index_or_panic data 1 ;;
     if negb (version =? PUSH_WIRE_VERSION) || negb (event_type =? PUSH_BATCH_EVENT_TYPE)
     then Err tt
     else
       task_obj_id <-- push_read_u32 data 4 ;;
       task_port <-- push_read_u16 data 8 ;;
       window_ms <-- push_read_u16 data 10 ;;
       count <-- push_read_u16 data 12 ;;
       cycle_count_start <-- push_read_u32 data 16 ;;
       cycle_count_end <-- push_read_u32 data 20 ;;
       dc_time_start <-- push_read_i64 data 24 ;;
       dc_time_end <-- push_read_i64 data 32 ;;
       exec_time_min_us <-- push_read_u32 data 40 ;;
       exec_time_max_us <-- push_read_u32 data 44 ;;
       exec_time_avg_us <-- push_read_u32 data 48 ;;
       cycle_exceed_count <-- push_read_u32 data 52 ;;
       rt_violation_count <-- push_read_u32 data 56 ;;
       name <-- slice_or_panic data 60 80 ;;
       let sample_count := Z.to_nat count in
       if (PUSH_BATCH_MAX_SAMPLES <? sample_count)%nat then Err tt
       else
         let total_len := (PUSH_BATCH_HEADER_SIZE + sample_count * PUSH_SAMPLE_SIZE)%nat in
         if (length data <? total_len)%nat then Err tt
         else
           samples <-- collect_from sample_count 0 (decode_diag_sample data) ;;
           Ok (TaskDiagBatch
                 {| db_task_port := task_port; db_task_name := decode_task_name name;
                    db_task_obj_id := task_obj_id; db_window_ms := window_ms;
                    db_cycle_count_start := cycle_count_start;
                    db_cycle_count_end := cycle_count_end;
                    db_dc_time_start := dc_time_start; db_dc_time_end := dc_time_end;
                    db_exec_time_min_us := exec_time_min_us;
                    db_exec_time_max_us := exec_time_max_us;
                    db_exec_time_avg_us := exec_time_avg_us;
                    db_cycle_exceed_count := cycle_exceed_count;
                    db_rt_violation_count := rt_violation_count;
                    db_samples := samples |}))%rust.

(** ** Metric batches *)

(** A text field of [n] bytes at [offset], and the offset behind it. *)
Definition take_text (data : bytes) (offset n : nat) : decoded (string * nat) :=
  if (length data <? offset + n)%nat then Err tt
  else
    (raw <-- slice_or_panic data offset (offset + n) ;;
     match from_utf8 raw with
     | Some s => Ok (s, (offset + n)%nat)
     | None => Err tt
     end)%rust.

Fixpoint parse_attributes (data : bytes) (count offset : nat)
    : decoded (list (string * string) * nat) :=
  match count with
  | O => Ok ([], offset)
  | S count =>
    if (length data <? offset + 2)%nat then Err tt
    else
      (key_len <-- index_or_panic data offset ;;
       value_len <-- index_or_panic data (offset + 1) ;;
       k <-- take_text data (offset + 2) (Z.to_nat key_len) ;;
       v <-- take_text data k.2 (Z.to_nat value_len) ;;
       rest <-- parse_attributes data count v.2 ;;
       Ok ((k.1, v.1) :: rest.1, rest.2))%rust
  end.

Definition parse_bounds (data : bytes) (kind : Z) (bucket_count offset : nat)
    : decoded (option (list Z) * nat) :=
  if (kind =? 2) && (0 <? bucket_count)%nat then
    let bounds_size := (bucket_count * 4)%nat in
    if (length data <? offset + bounds_size)%nat then Err tt
    else
      (bounds <-- collect_from bucket_count 0 (fun i => push_read_f32 data (offset + i * 4)) ;;
       Ok (Some bounds, (offset + bounds_size)%nat))%rust
  else Ok (None, offset).

Definition parse_descriptor (data : bytes) : decoded (MetricDescriptor * nat) :=
  if (length data <? 12)%nat then Err tt
  else
    (metric_id <-- push_read_u16 data 0 ;;
     kind <-- index_or_panic data 2 ;;
     flags <-- index_or_panic data 3 ;;
     name_len <-- index_or_panic data 4 ;;
     unit_len <-- index_or_panic data 5 ;;
     description_len <-- index_or_panic data 6 ;;
     attr_count <-- index_or_panic data 7 ;;
     bucket_count <-- index_or_panic data 8 ;;
     ns_len <-- index_or_panic data 9 ;;
     if (8 <? attr_count) then Err tt
     else
       name <-- take_text data 12 (Z.to_nat name_len) ;;
       unit <-- take_text data name.2 (Z.to_nat unit_len) ;;
       description <-- take_text data unit.2 (Z.to_nat description_len) ;;
       attributes <-- parse_attributes data (Z.to_nat attr_count) description.2 ;;
       bounds <-- parse_bounds data kind (Z.to_nat bucket_count) attributes.2 ;;
       ns <-- (if 0 <? ns_len then take_text data bounds.2 (Z.to_nat ns_len)
               else Ok ("", bounds.2)) ;;
       Ok ({| md_metric_id := metric_id; md_kind := kind; md_flags := flags;
              md_name := name.1; md_unit := unit.1; md_description := description.1;
              md_scope_namespace := ns.1; md_attributes := attributes.1;
              md_histogram_bounds := bounds.1 |}, ns.2))%rust.

(** The descriptor loop: [parse_descriptor(&bytes[offset..])]. *)
Fixpoint parse_descriptors (data : bytes) (count offset : nat)
    : decoded (list MetricDescriptor * nat) :=
  match count with
  | O => Ok ([], offset)
  | S count =>
    (rest <-- slice_or_panic data offset (length data) ;;
     d <-- parse_descriptor rest ;;
     ds <-- parse_descriptors data count (offset + d.2) ;;
     Ok (d.1 :: ds.1, ds.2))%rust
  end.

Fixpoint parse_samples (data : bytes) (count offset : nat) : decoded (list MetricSample * nat) :=
  match count with
  | O => Ok ([], offset)
  | S count =>
    if (length data <? offset + 16)%nat then Err tt
    else
      (metric_id <-- push_read_u16 data offset ;;
       flags <-- index_or_panic data (offset + 2) ;;
       dc_time <-- push_read_i64 data (offset + 4) ;;
       value <-- push_read_f32 data (offset + 12) ;;
       rest <-- parse_samples data count (offset + 16) ;;
       Ok (mkMetricSample metric_id flags dc_time value :: rest.1, rest.2))%rust
  end.

Definition decode_metric_batch (data : bytes) : decoded DiagEvent :=
  if (length data <? 32)%nat then Err tt
  else
    (version <-- index_or_panic data 0 ;;
     event_type <-- index_or_panic data 1 ;;
     if negb (version =? PUSH_WIRE_VERSION) || negb (event_type =? PUSH_METRIC_EVENT_TYPE)
     then Err tt
     else
       descriptor_count <-- push_read_u16 data 4 ;;
       sample_count <-- push_read_u16 data 6 ;;
       window_ms <-- push_read_u16 data 8 ;;
       cycle_count <-- push_read_u32 data 12 ;;
       dc_time_start <-- push_read_i64 data 16 ;;
       dc_time_end <-- push_read_i64 data 24 ;;
       ds <-- parse_descriptors data (Z.to_nat descriptor_count) 32 ;;
       ss <-- parse_samples data (Z.to_nat sample_count) ds.2 ;;
       if negb (ss.2 =? length data)%nat then Err tt
       else Ok (MetricBatch window_ms cycle_count dc_time_start dc_time_end ds.1 ss.1))%rust.

(** ** Aggregate metric batches *)

(** [u8::count_ones]. *)
Definition count_ones (b : Z) : nat :=
  length (List.filter (Z.testbit b) [0; 1; 2; 3; 4; 5; 6; 7]).

(** The schema-versus-sample-size test. *)
Definition sample_size_ok (schema : MetricBodySchema) (sample_size stat_mask : Z) : bool :=
  match schema with
  | SchemaBool => sample_size =? 1
  | SchemaNumeric => sample_size =? 8
  | SchemaDiscrete | SchemaString | SchemaWstring =>
    negb ((sample_size =? 0) || (65535 <? sample_size))
  | SchemaNumericAggregated =>
    let expected := Z.of_nat (count_ones stat_mask) * 8 in
    negb ((expected =? 0) || negb (sample_size =? expected))
  end.

Definition flag (flags bit : Z) : bool := negb (Z.land flags bit =? 0).

(** The trailing zero code units stripped ([while units.last() == Some(&0)]). *)
Definition decode_sample (schema : MetricBodySchema) (stat_mask : Z) (slot : bytes)
    : decoded MetricAggregateSample :=
  match schema with
  | SchemaBool => (b <-- index_or_panic slot 0 ;; Ok (SampleBool (negb (b =? 0))))%rust
  | SchemaNumeric => (v <-- push_read_f64 slot 0 ;; Ok (SampleNumeric v))%rust
  | SchemaDiscrete => Ok (SampleDiscrete slot)
  | SchemaString => Ok (SampleString (from_utf8_lossy (strip_zeros slot)))
  | SchemaWstring => Ok (SampleWstring (from_utf16_lossy (strip_zeros (u16_units slot))))
  | SchemaNumericAggregated =>
    (values <-- collect_from (count_ones stat_mask) 0 (fun k => push_read_f64 slot (k * 8)) ;;
     Ok (SampleNumericAggregated stat_mask values))%rust
  end.

(** The sample of slot [i] of the body. *)
Definition decode_slot (schema : MetricBodySchema) (stat_mask : Z) (sample_size ts_prefix : nat)
    (body : bytes) (i : nat) : decoded MetricAggregateSample :=
  let value_off := (i * (sample_size + ts_prefix) + ts_prefix)%nat in
  (slot <-- slice_or_panic body value_off (value_off + sample_size) ;;
   decode_sample schema stat_mask slot)%rust.

(** The trace context, when the flag says there is one. *)
Definition take_trace_ctx (data : bytes) (flags : Z) (offset : nat)
    : decoded (option bytes * option bytes * nat) :=
  if flag flags METRIC_FLAG_HAS_TRACE_CTX then
    if (length data <? offset + PUSH_METRIC_AGG_TRACE_SIZE)%nat then Err tt
    else
      (tid <-- slice_or_panic data offset (offset + 16) ;;
       sid <-- slice_or_panic data (offset + 16) (offset + 24) ;;
       Ok (Some tid, Some sid, (offset + PUSH_METRIC_AGG_TRACE_SIZE)%nat))%rust
  else Ok (None, None, offset).

(** The namespace, when the flag says there is one. *)
Definition take_namespace (data : bytes) (flags : Z) (offset : nat) : decoded (string * nat) :=
  if flag flags METRIC_FLAG_HAS_NAMESPACE then
    if (length data <? offset + 1)%nat then Err tt
    else
      (ns_len <-- index_or_panic data offset ;;
       take_text data (offset + 1) (Z.to_nat ns_len))%rust
  else Ok ("", offset).

(** The bytes in front of each sample. *)
Definition ts_prefix_of (flags : Z) : nat :=
  if flag flags METRIC_FLAG_HAS_SAMPLE_TS then METRIC_SAMPLE_TS_SIZE
  else if flag flags METRIC_FLAG_HAS_SAMPLE_TS_DC then METRIC_SAMPLE_TS_DC_SIZE
  else 0%nat.

Definition decode_metric_aggregate (data : bytes) : decoded DiagEvent :=
  if (length data <? PUSH_METRIC_AGG_HEADER_SIZE)%nat then Err tt
  else
    (version <-- index_or_panic data 0 ;;
     event_type <-- index_or_panic data 1 ;;
     if negb (version =? PUSH_WIRE_VERSION) || negb (event_type =? PUSH_METRIC_AGG_EVENT_TYPE)
     then Err tt
     else
       flags <-- index_or_panic data 2 ;;
       schema_byte <-- index_or_panic data 3 ;;
       match MetricBodySchema_from_byte schema_byte with
       | None => Err tt
       | Some body_schema =>
         sample_size <-- push_read_u32 data 4 ;;
         sample_count <-- push_read_u32 data 8 ;;
         metric_id <-- push_read_u32 data 12 ;;
         task_index <-- index_or_panic data 16 ;;
         stat_mask <-- index_or_panic data 17 ;;
         cycle_count_start <-- push_read_u32 data 20 ;;
         cycle_count_end <-- push_read_u32 data 24 ;;
         dc_time_start <-- push_read_i64 data 32 ;;
         dc_time_end <-- push_read_i64 data 40 ;;
         name_len <-- index_or_panic data 48 ;;
         unit_len <-- index_or_panic data 49 ;;
         if negb (sample_size_ok body_schema sample_size stat_mask) then Err tt
         else
           ctx <-- take_trace_ctx data flags PUSH_METRIC_AGG_HEADER_SIZE ;;
           name <-- take_text data ctx.2 (Z.to_nat name_len) ;;
           unit <-- take_text data name.2 (Z.to_nat unit_len) ;;
           ns <-- take_namespace data flags unit.2 ;;
           let offset := ns.2 in
           let has_ts := flag flags METRIC_FLAG_HAS_SAMPLE_TS in
           let has_ts_dc := flag flags METRIC_FLAG_HAS_SAMPLE_TS_DC in
           if has_ts && has_ts_dc then Err tt
           else
             let ts_prefix := ts_prefix_of flags in
             let size := Z.to_nat sample_size in
             let slot_stride := (size + ts_prefix)%nat in
             let count := Z.to_nat sample_count in
             let body_len := (count * slot_stride)%nat in
             if (length data <? offset + body_len)%nat then Err tt
             else
               body <-- slice_or_panic data offset (offset + body_len) ;;
               if negb (offset + body_len =? length data)%nat then Err tt
               else
                 offsets <-- (if has_ts then
                                collect_from count 0 (fun i => push_read_u16 body (i * slot_stride))
                              else Ok []) ;;
                 dc_times <-- (if has_ts_dc then
                                 collect_from count 0 (fun i => push_read_i64 body (i * slot_stride))
                               else Ok []) ;;
                 samples <-- collect_from count 0
                               (decode_slot body_schema stat_mask size ts_prefix body) ;;
                 Ok (MetricAggregateBatch
                       {| ab_metric_id := metric_id; ab_task_index := task_index;
                          ab_flags := flags; ab_body_schema := body_schema;
                          ab_sample_size := sample_size; ab_stat_mask := stat_mask;
                          ab_cycle_count_start := cycle_count_start;
                          ab_cycle_count_end := cycle_count_end;
                          ab_dc_time_start := dc_time_start; ab_dc_time_end := dc_time_end;
                          ab_name := name.1; ab_unit := unit.1; ab_scope_namespace := ns.1;
                          ab_trace_id := ctx.1.1; ab_span_id := ctx.1.2;
                          ab_samples := samples;
                          ab_sample_cycle_offsets := if has_ts then Some offsets else None;
                          ab_sample_dc_times := if has_ts_dc then Some dc_times else None |})
       end)%rust.

(** ** No decoder panics *)

Lemma index_or_panic_ok {E} data off :
  (off < length data)%nat -> exists b, index_or_panic (E:=E) data off = Ok b /\ data !! off = Some b.
Proof.
  intros H. unfold index_or_panic, byte_at. destruct (lookup_lt_is_Some_2 data off H) as [b Hb].
  rewrite Hb. eauto.
Qed.

Lemma push_read_i64_ok {E} data off :
  (off + 8 <= length data)%nat ->
  push_read_i64 (E:=E) data off = Ok (to_signed 64 (le_decode (take 8 (drop off data)))).
Proof.
  intros. unfold push_read_i64. rewrite le_or_panic_spec by lia. simpl.
  by replace (off + 8 - off)%nat with 8%nat by lia.
Qed.

(** [safe_dec Q m]: [m] does not panic, and what it returns satisfies [Q]. *)
Definition safe_dec {A} (Q : A -> Prop) (m : decoded A) : Prop :=
  match m with Ok a => Q a | Err _ => True | Panic | OutOfFuel => False end.

Lemma safe_dec_bind {A B} (P : A -> Prop) (Q : B -> Prop) (m : decoded A) (f : A -> decoded B) :
  safe_dec P m -> (forall a, P a -> safe_dec Q (f a)) -> safe_dec Q (outcome_bind m f).
Proof. destruct m; simpl; auto. Qed.

Lemma safe_dec_mono {A} (P Q : A -> Prop) (m : decoded A) :
  safe_dec P m -> (forall a, P a -> Q a) -> safe_dec Q m.
Proof. destruct m; simpl; auto. Qed.

Lemma safe_dec_if {A} (Q : A -> Prop) (c : bool) (m1 m2 : decoded A) :
  (c = true -> safe_dec Q m1) -> (c = false -> safe_dec Q m2) -> safe_dec Q (if c then m1 else m2).
Proof. destruct c; auto. Qed.

Lemma safe_dec_completes {A} (Q : A -> Prop) (m : decoded A) : safe_dec Q m -> completes m.
Proof. by destruct m. Qed.

Lemma safe_index data off : (off < length data)%nat -> safe_dec (fun _ => True) (index_or_panic data off).
Proof. intros H. by destruct (index_or_panic_ok (E:=unit) data off H) as (b & -> & _). Qed.

Lemma safe_le data a b :
  (a <= b)%nat -> (b <= length data)%nat -> safe_dec (fun _ => True) (le_or_panic data a b).
Proof. intros. by rewrite le_or_panic_spec. Qed.

Lemma safe_i64 data off :
  (off + 8 <= length data)%nat -> safe_dec (fun _ => True) (push_read_i64 data off).
Proof. intros. by rewrite push_read_i64_ok. Qed.

Lemma safe_slice data a b :
  (a <= b)%nat -> (b <= length data)%nat ->
  safe_dec (fun s => length s = (b - a)%nat) (slice_or_panic data a b).
Proof. intros. rewrite slice_or_panic_spec by done. simpl. rewrite length_take, length_drop. lia. Qed.

(** A read at an offset the context shows to be in range. *)
Tactic Notation "safe_read" "as" ident(x) :=
  eapply safe_dec_bind;
  [ unfold push_read_u16, push_read_u32, push_read_f32, push_read_f64;
    first [apply safe_index; lia | apply safe_le; lia | apply safe_i64; lia | apply safe_slice; lia]
  | intros x ? ].
Ltac safe_read := let x := fresh "x" in safe_read as x.

Lemma safe_collect {A} (Q : A -> Prop) n i (f : nat -> decoded A) :
  (forall j, (i <= j < i + n)%nat -> safe_dec Q (f j)) ->
  safe_dec (fun l => length l = n /\ Forall Q l) (collect_from n i f).
Proof.
  revert i. induction n as [|n IH]; intros i Hf; simpl; [done|].
  eapply safe_dec_bind; [apply Hf; lia|]. intros a Ha.
  eapply safe_dec_bind; [apply IH; intros; apply Hf; lia|]. intros l [Hl HQ]. simpl.
  split; [lia|by constructor].
Qed.

(** An offset that has moved on within the buffer. *)
Definition moved {A} (data : bytes) (offset : nat) (p : A * nat) : Prop :=
  (offset <= p.2 <= length data)%nat.

(** An offset that has moved on, within the buffer, by the bytes of what was read. *)
Definition moved_by {A} (size : A -> nat) (data : bytes) (offset : nat) (p : A * nat) : Prop :=
  p.2 = (offset + size p.1)%nat /\ (p.2 <= length data)%nat.

Definition attribute_size (kv : string * string) : nat := 2 + String.length kv.1 + String.length kv.2.
Definition bounds_size (b : option (list Z)) : nat := 4 * length (default [] b).

(** The bytes a descriptor takes. *)
Definition descriptor_size (d : MetricDescriptor) : nat :=
  12 + String.length (md_name d) + String.length (md_unit d) + String.length (md_description d) +
  sum_list (map attribute_size (md_attributes d)) + bounds_size (md_histogram_bounds d) +
  String.length (md_scope_namespace d).

Lemma safe_text_by data offset n : safe_dec (moved_by String.length data offset) (take_text data offset n).
Proof.
  unfold take_text. destruct (Nat.ltb_spec (length data) (offset + n)); [done|].
  eapply safe_dec_bind; [apply safe_slice; lia|]. intros raw Hraw. unfold from_utf8. destruct (utf8_valid raw); [|done].
  split; simpl; [|lia]. rewrite length_string_of_bytes, Hraw. lia.
Qed.

Lemma safe_text data offset n : safe_dec (moved data offset) (take_text data offset n).
Proof. eapply safe_dec_mono; [apply safe_text_by|]. intros p [H1 H2]. unfold moved. lia. Qed.

Lemma safe_attributes data count offset :
  (offset <= length data)%nat ->
  safe_dec (fun p => moved_by (fun l => sum_list (map attribute_size l)) data offset p /\ length p.1 = count)
    (parse_attributes data count offset).
Proof.
  revert offset. induction count as [|count IH]; intros offset Ho; cbn [parse_attributes];
    [unfold moved_by; simpl; lia|].
  destruct (Nat.ltb_spec (length data) (offset + 2)); [done|]. do 2 safe_read.
  eapply safe_dec_bind; [apply safe_text_by|]. intros k [Hk1 Hk2].
  eapply safe_dec_bind; [apply safe_text_by|]. intros v [Hv1 Hv2].
  eapply safe_dec_bind; [apply IH; lia|]. intros rest [[Hr1 Hr2] Hr3]. unfold moved_by, attribute_size in *. simpl in *. lia.
Qed.

Lemma safe_bounds data kind n offset :
  (offset <= length data)%nat -> safe_dec (moved_by bounds_size data offset) (parse_bounds data kind n offset).
Proof.
  intros Ho. unfold parse_bounds, moved_by, bounds_size. case_match; [|simpl; lia].
  destruct (Nat.ltb_spec (length data) (offset + n * 4)); [done|].
  eapply safe_dec_bind.
  - apply (safe_collect (fun _ => True)). intros j Hj. apply safe_le; nia.
  - intros l [Hl _]. simpl. lia.
Qed.

(** A descriptor has at most eight attributes. *)
Definition descriptor_ok (d : MetricDescriptor) : Prop := (length (md_attributes d) <= 8)%nat.

Lemma safe_descriptor data :
  safe_dec (fun p => moved_by descriptor_size data 0 p /\ descriptor_ok p.1) (parse_descriptor data).
Proof.
  unfold parse_descriptor. destruct (Nat.ltb_spec (length data) 12); [done|]. do 6 safe_read. safe_read as attr_count.
  do 2 safe_read. destruct (Z.ltb_spec 8 attr_count) as [|Hac]; [done|].
  do 3 (eapply safe_dec_bind; [apply safe_text_by|]; intros ? [? ?]).
  eapply safe_dec_bind; [apply safe_attributes; lia|]. intros at' [[Hat1 Hat2] Hat3].
  eapply safe_dec_bind; [apply safe_bounds; lia|]. intros bd [Hbd1 Hbd2].
  eapply (safe_dec_bind (moved_by String.length data bd.2)).
  - case_match; [apply safe_text_by|]. split; simpl; lia.
  - intros ns [Hns1 Hns2]. unfold moved_by, descriptor_size, descriptor_ok. simpl. lia.
Qed.

Lemma safe_descriptors data count offset :
  (offset <= length data)%nat ->
  safe_dec (fun p => moved_by (fun ds => sum_list (map descriptor_size ds)) data offset p /\ Forall descriptor_ok p.1)
    (parse_descriptors data count offset).
Proof.
  revert offset. induction count as [|count IH]; intros offset Ho; cbn [parse_descriptors];
    [by split; [unfold moved_by; simpl; lia|]|].
  eapply safe_dec_bind; [apply safe_slice; lia|]. intros rest Hl.
  eapply safe_dec_bind; [apply safe_descriptor|]. intros d [[Hd1 Hd2] Hok]. rewrite Hl in Hd2.
  eapply safe_dec_bind; [apply IH; lia|]. intros ds [[Hds1 Hds2] Hds3].
  split; [|by constructor]. split; cbn [fst snd]; [|lia]. rewrite Hds1, Hd1. cbn [map sum_list_with].
  unfold id. lia.
Qed.

Lemma safe_samples data count offset :
  (offset <= length data)%nat ->
  safe_dec (moved_by (fun ss => 16 * length ss)%nat data offset) (parse_samples data count offset).
Proof.
  revert offset. induction count as [|count IH]; intros offset Ho; cbn [parse_samples];
    [unfold moved_by; simpl; lia|].
  destruct (Nat.ltb_spec (length data) (offset + 16)); [done|]. do 4 safe_read.
  eapply safe_dec_bind; [apply IH; lia|]. intros rest [Hr1 Hr2]. unfold moved_by. simpl in *. lia.
Qed.

(** The form of a sample of a batch with this schema and mask. *)
Definition sample_shape (schema : MetricBodySchema) (stat_mask : Z) (s : MetricAggregateSample) : Prop :=
  match schema, s with
  | SchemaBool, SampleBool _ | SchemaNumeric, SampleNumeric _ | SchemaDiscrete, SampleDiscrete _
  | SchemaString, SampleString _ | SchemaWstring, SampleWstring _ => True
  | SchemaNumericAggregated, SampleNumericAggregated mask values =>
    mask = stat_mask /\ length values = count_ones stat_mask
  | _, _ => False
  end.

(** What an accepted event satisfies: [n] is the length of the frame. *)
Definition event_ok (n : nat) (ev : DiagEvent) : Prop :=
  match ev with
  | TaskDiagBatch b =>
    (length (db_samples b) <= PUSH_BATCH_MAX_SAMPLES)%nat /\
    (PUSH_BATCH_HEADER_SIZE + length (db_samples b) * PUSH_SAMPLE_SIZE <= n)%nat
  | MetricAggregateBatch b =>
    (length (ab_samples b) <= n)%nat /\
    (forall l, ab_sample_cycle_offsets b = Some l -> length l = length (ab_samples b)) /\
    (forall l, ab_sample_dc_times b = Some l -> length l = length (ab_samples b)) /\
    (ab_sample_cycle_offsets b = None \/ ab_sample_dc_times b = None) /\
    sample_size_ok (ab_body_schema b) (ab_sample_size b) (ab_stat_mask b) = true /\
    Forall (sample_shape (ab_body_schema b) (ab_stat_mask b)) (ab_samples b)
  | MetricBatch _ _ _ _ descriptors samples =>
    n = (32 + sum_list (map descriptor_size descriptors) + 16 * length samples)%nat /\
    Forall descriptor_ok descriptors
  | ExceedCounter _ | ExceedReset | TaskStats _ _ _ _ _ | RtUsage _ _ _ => False
  end.

Lemma safe_decode_batch data : safe_dec (event_ok (length data)) (decode_batch data).
Proof.
  unfold decode_batch. destruct (Nat.ltb_spec (length data) PUSH_BATCH_HEADER_SIZE) as [|Hl]; [done|].
  unfold PUSH_BATCH_HEADER_SIZE in Hl. do 2 safe_read. case_match; [done|].
  do 3 safe_read. eapply safe_dec_bind; [apply safe_le; lia|]. intros cnt _. do 10 safe_read.
  destruct (Nat.ltb_spec PUSH_BATCH_MAX_SAMPLES (Z.to_nat cnt)) as [|Hmax]; [done|].
  destruct (Nat.ltb_spec (length data)
    (PUSH_BATCH_HEADER_SIZE + Z.to_nat cnt * PUSH_SAMPLE_SIZE)) as [|Htot]; [done|].
  eapply safe_dec_bind.
  - apply (safe_collect (fun _ => True)). intros j Hj. unfold decode_diag_sample.
    unfold PUSH_BATCH_HEADER_SIZE, PUSH_SAMPLE_SIZE in *.
    assert (80 + j * 24 + 24 <= length data)%nat by lia. do 4 safe_read. done.
  - intros l [Hn _]. simpl. by rewrite Hn.
Qed.

Lemma safe_decode_metric_batch data : safe_dec (event_ok (length data)) (decode_metric_batch data).
Proof.
  unfold decode_metric_batch. destruct (Nat.ltb_spec (length data) 32) as [|Hl]; [done|].
  do 2 safe_read. case_match; [done|]. do 6 safe_read.
  eapply safe_dec_bind; [apply safe_descriptors; lia|]. intros ds [[Hds1 Hds2] Hok].
  eapply safe_dec_bind; [apply safe_samples; lia|]. intros ss [Hss1 Hss2].
  destruct (Nat.eqb_spec ss.2 (length data)) as [He|]; [|done]. cbn [negb]. split; [lia|done].
Qed.

Lemma safe_trace_ctx data flags offset :
  (offset <= length data)%nat ->
  safe_dec (moved data offset) (take_trace_ctx data flags offset).
Proof.
  intros Ho. unfold take_trace_ctx, moved, PUSH_METRIC_AGG_TRACE_SIZE. case_match; [|simpl; lia].
  destruct (Nat.ltb_spec (length data) (offset + 24)); [done|]. do 2 safe_read. simpl. lia.
Qed.

Lemma safe_namespace data flags offset :
  (offset <= length data)%nat -> safe_dec (moved data offset) (take_namespace data flags offset).
Proof.
  intros Ho. unfold take_namespace. case_match; [|unfold moved; simpl; lia].
  destruct (Nat.ltb_spec (length data) (offset + 1)); [done|]. safe_read.
  eapply safe_dec_mono; [apply safe_text|]. unfold moved. intros. lia.
Qed.

(** The schema test leaves every sample at least one byte, and the bytes its
    decoding reads. *)
Lemma sample_size_pos schema n mask :
  sample_size_ok schema n mask = true -> 0 <= n -> (0 < Z.to_nat n)%nat.
Proof.
  destruct schema; cbn [sample_size_ok];
    rewrite ?negb_true_iff, ?orb_false_iff, ?negb_false_iff; try lia.
Qed.

Lemma safe_decode_sample schema n mask slot :
  sample_size_ok schema n mask = true -> 0 <= n -> length slot = Z.to_nat n ->
  safe_dec (sample_shape schema mask) (decode_sample schema mask slot).
Proof.
  intros Hok Hn Hl. pose proof (sample_size_pos _ _ _ Hok Hn) as Hpos.
  destruct schema; cbn [decode_sample sample_size_ok] in *; to_prop; try done.
  - safe_read. done.
  - subst n. change (Z.to_nat 8) with 8%nat in *. safe_read. done.
  - apply negb_true_iff, orb_false_iff in Hok as [_ Hok]. apply negb_false_iff in Hok. to_prop.
    subst n. eapply safe_dec_bind.
    + apply (safe_collect (fun _ => True)). intros j Hj. unfold push_read_f64. apply safe_le; lia.
    + by intros values [Hv _].
Qed.

Lemma le_decode_nonneg bs : is_bytes bs -> 0 <= le_decode bs.
Proof. intros H. by apply le_decode_bound. Qed.

Lemma safe_u32_nonneg data off :
  is_bytes data -> (off + 4 <= length data)%nat ->
  safe_dec (fun v => 0 <= v) (push_read_u32 data off).
Proof.
  intros Hd Hl. unfold push_read_u32. rewrite le_or_panic_spec by lia. simpl.
  by apply le_decode_nonneg, Forall_take, Forall_drop.
Qed.

(** The timestamp column, present or not. *)
Lemma safe_column {A} (has : bool) n (f : nat -> decoded A) :
  (has = true -> forall j, (j < n)%nat -> safe_dec (fun _ => True) (f j)) ->
  safe_dec (fun l => has = true -> length l = n) (if has then collect_from n 0 f else Ok []).
Proof.
  intros Hf. destruct has; [|done].
  eapply safe_dec_mono; [apply (safe_collect (fun _ => True)); intros; apply Hf; [done|lia]|].
  by intros l [Hl _].
Qed.

(** The part behind the namespace: the samples and their timestamps. *)
Lemma safe_body schema mask flags size count (body : bytes) :
  sample_size_ok schema size mask = true -> 0 <= size ->
  let stride := (Z.to_nat size + ts_prefix_of flags)%nat in
  length body = (count * stride)%nat ->
  flag flags METRIC_FLAG_HAS_SAMPLE_TS && flag flags METRIC_FLAG_HAS_SAMPLE_TS_DC = false ->
  safe_dec (fun l => flag flags METRIC_FLAG_HAS_SAMPLE_TS = true -> length l = count)
    (if flag flags METRIC_FLAG_HAS_SAMPLE_TS
     then collect_from count 0 (fun i => push_read_u16 body (i * stride)) else Ok []) /\
  safe_dec (fun l => flag flags METRIC_FLAG_HAS_SAMPLE_TS_DC = true -> length l = count)
    (if flag flags METRIC_FLAG_HAS_SAMPLE_TS_DC
     then collect_from count 0 (fun i => push_read_i64 body (i * stride)) else Ok []) /\
  safe_dec (fun l => length l = count /\ Forall (sample_shape schema mask) l)
    (collect_from count 0 (decode_slot schema mask (Z.to_nat size) (ts_prefix_of flags) body)).
Proof.
  intros Hok Hn stride Hl Hex.
  assert (Hslot : forall j, (j < count)%nat -> (j * stride + stride <= length body)%nat) by nia.
  unfold ts_prefix_of in stride. split_and!.
  - apply safe_column. intros Hts j Hj. specialize (Hslot j Hj).
    unfold push_read_u16. apply safe_le; [lia|].
    revert Hslot. unfold stride. rewrite Hts. unfold METRIC_SAMPLE_TS_SIZE. lia.
  - apply safe_column. intros Hts j Hj. specialize (Hslot j Hj). apply safe_i64.
    revert Hslot. rewrite Hts, andb_true_r in Hex. unfold stride. rewrite Hts, Hex.
    unfold METRIC_SAMPLE_TS_DC_SIZE. lia.
  - apply safe_collect. intros j Hj. specialize (Hslot j ltac:(lia)). unfold decode_slot.
    fold (ts_prefix_of flags) in stride. fold stride.
    eapply safe_dec_bind; [apply safe_slice; lia|]. intros slot Hs.
    eapply safe_decode_sample; [done..|]. rewrite Hs, Nat.add_comm. apply Nat.add_sub.
Qed.

Lemma safe_decode_metric_aggregate data :
  is_bytes data -> safe_dec (event_ok (length data)) (decode_metric_aggregate data).
Proof.
  intros Hd. unfold decode_metric_aggregate, PUSH_METRIC_AGG_HEADER_SIZE.
  destruct (Nat.ltb_spec (length data) 52) as [|Hl]; [done|].
  do 2 safe_read. case_match; [done|]. safe_read as flags. safe_read.
  destruct (MetricBodySchema_from_byte _) as [schema|]; [|done].
  eapply safe_dec_bind; [by apply safe_u32_nonneg; [|lia]|]. intros size Hsize.
  safe_read as cnt. do 2 safe_read. safe_read as mask. do 6 safe_read.
  case_match; [done|]. match goal with H : negb _ = false |- _ =>
    apply negb_false_iff in H; rename H into Hok end.
  eapply safe_dec_bind; [apply safe_trace_ctx; lia|]. intros ctx Hctx. unfold moved in Hctx.
  do 2 (eapply safe_dec_bind; [apply safe_text|]; intros ? ?). unfold moved in *.
  eapply safe_dec_bind; [apply safe_namespace; lia|]. intros ns Hns. unfold moved in Hns.
  case_match eqn:Hex; [done|]. set (count := Z.to_nat cnt).
  destruct (Nat.ltb_spec (length data)
    (ns.2 + count * (Z.to_nat size + ts_prefix_of flags))) as [|Hlen]; [done|].
  eapply safe_dec_bind; [apply safe_slice; lia|]. intros body Hbody. case_match; [done|].
  destruct (safe_body schema mask flags size count body Hok Hsize) as (Hb1 & Hb2 & Hb3);
    [rewrite Hbody, Nat.add_comm; apply Nat.add_sub|done|].
  eapply safe_dec_bind; [exact Hb1|]. intros offs Hoffs.
  eapply safe_dec_bind; [exact Hb2|]. intros dcs Hdcs.
  eapply safe_dec_bind; [exact Hb3|]. intros ss [Hss Hshape]. simpl.
  pose proof (sample_size_pos _ _ _ Hok Hsize). split_and!; try done.
  - nia.
  - destruct (flag _ _); [|done]. intros l [= <-]. rewrite Hss. auto.
  - destruct (flag flags METRIC_FLAG_HAS_SAMPLE_TS_DC); [|done]. intros l [= <-]. rewrite Hss. auto.
  - apply andb_false_iff in Hex as [-> | ->]; auto.
Qed.

(** C20: Whatever bytes a PLC pushes, none of the three decoders panics, and
    what they accept is an event of its own kind, bounded by the frame: a task batch has at most 1024
    samples, all present in the frame; the header, the descriptors, with at most eight attributes each, and the samples of a metric batch make up
    exactly the bytes of the frame, texts included; an aggregate batch has no more samples
    than bytes, its sample size agrees with its schema, every sample has the
    form the schema says, and the timestamps, of which there is at most one
    kind, are one per sample. *)
Theorem push_decoders_safe data :
  is_bytes data ->
  Forall (fun m => completes m /\ forall ev, m = Ok ev -> event_ok (length data) ev)
    [decode_batch data; decode_metric_batch data; decode_metric_aggregate data].
Proof.
  intros Hd.
  assert (Hgen : forall m, safe_dec (event_ok (length data)) m ->
    completes m /\ forall ev, m = Ok ev -> event_ok (length data) ev).
  { intros m Hm. split; [by eapply safe_dec_completes|]. by intros ev ->. }
  repeat constructor; apply Hgen;
    auto using safe_decode_batch, safe_decode_metric_batch, safe_decode_metric_aggregate.
Qed.

(** ** Task-diagnostic batches decode to what was encoded *)

(** Field [i] of a block of fields inside a frame. *)
Lemma i64_field {E} (pre post : bytes) (fs : list bytes) i off v :
  fs !! i = Some (le_encode 8 v) -> - 2 ^ 63 <= v < 2 ^ 63 ->
  off = (length pre + length (mjoin (take i fs)))%nat ->
  push_read_i64 (E:=E) (pre ++ mjoin fs ++ post) off = Ok v.
Proof.
  intros Hi Hv Hoff. unfold push_read_i64, le_or_panic, slice_or_panic.
  erewrite slice_field; [|done..|by rewrite length_le_encode]. cbn [outcome_bind].
  rewrite le_decode_encode_mod. change (256 ^ Z.of_nat 8) with (2 ^ 64).
  by rewrite to_signed_mod.
Qed.

Lemma byte_field {E} (pre post : bytes) (fs : list bytes) i off b :
  fs !! i = Some [b] -> off = (length pre + length (mjoin (take i fs)))%nat ->
  index_or_panic (E:=E) (pre ++ mjoin fs ++ post) off = Ok b.
Proof.
  intros Hi Hoff. pose proof (slice_field pre post fs i [b] off 1 Hi Hoff eq_refl) as Hs.
  unfold index_or_panic, byte_at. unfold slice_at in Hs. case_bool_decide; [|done].
  injection Hs as Hs. replace (off + 1 - off)%nat with 1%nat in Hs by lia.
  destruct (drop off _) as [|b' tl] eqn:Hd; [done|]. injection Hs as ->.
  rewrite <- (Nat.add_0_r off), <- lookup_drop, Hd. done.
Qed.

Definition sample_fields (s : DiagSample) : list bytes :=
  [le_encode 4 (ds_cycle_count s); le_encode 4 (ds_exec_time_us s); le_encode 8 (ds_dc_time s);
   [ds_flags s]; replicate 7 0].

Definition encode_diag_sample (s : DiagSample) : bytes := mjoin (sample_fields s).

Record wf_diag_sample (s : DiagSample) : Prop := {
  wf_ds_cycle : in_width 32 (ds_cycle_count s);
  wf_ds_exec : in_width 32 (ds_exec_time_us s);
  wf_ds_dc : - 2 ^ 63 <= ds_dc_time s < 2 ^ 63;
}.

(** The name, padded with zeros to its 20 bytes. *)
Definition encode_name (s : string) : bytes :=
  bytes_of_string s ++ replicate (20 - String.length s) 0.

Definition header_fields (b : DiagBatch) : list bytes :=
  [[PUSH_WIRE_VERSION]; [PUSH_BATCH_EVENT_TYPE]; le_encode 2 0; le_encode 4 (db_task_obj_id b);
   le_encode 2 (db_task_port b); le_encode 2 (db_window_ms b);
   le_encode 2 (Z.of_nat (length (db_samples b))); le_encode 2 0;
   le_encode 4 (db_cycle_count_start b); le_encode 4 (db_cycle_count_end b);
   le_encode 8 (db_dc_time_start b); le_encode 8 (db_dc_time_end b);
   le_encode 4 (db_exec_time_min_us b); le_encode 4 (db_exec_time_max_us b);
   le_encode 4 (db_exec_time_avg_us b); le_encode 4 (db_cycle_exceed_count b);
   le_encode 4 (db_rt_violation_count b); encode_name (db_task_name b)].

Definition encode_diag_batch (b : DiagBatch) : bytes :=
  mjoin (header_fields b) ++ mjoin (map encode_diag_sample (db_samples b)).

(** A name that fits, is valid UTF-8 and does not end in a zero byte. *)
Definition wf_name (s : string) : Prop :=
  is_str s /\ (String.length s <= 20)%nat /\ last (bytes_of_string s) <> Some 0.

Record wf_diag_batch (b : DiagBatch) : Prop := {
  wf_db_obj_id : in_width 32 (db_task_obj_id b);
  wf_db_port : in_width 16 (db_task_port b);
  wf_db_window : in_width 16 (db_window_ms b);
  wf_db_ccs : in_width 32 (db_cycle_count_start b);
  wf_db_cce : in_width 32 (db_cycle_count_end b);
  wf_db_dcs : - 2 ^ 63 <= db_dc_time_start b < 2 ^ 63;
  wf_db_dce : - 2 ^ 63 <= db_dc_time_end b < 2 ^ 63;
  wf_db_min : in_width 32 (db_exec_time_min_us b);
  wf_db_max : in_width 32 (db_exec_time_max_us b);
  wf_db_avg : in_width 32 (db_exec_time_avg_us b);
  wf_db_exceed : in_width 32 (db_cycle_exceed_count b);
  wf_db_rtv : in_width 32 (db_rt_violation_count b);
  wf_db_name : wf_name (db_task_name b);
  wf_db_samples : Forall wf_diag_sample (db_samples b);
  wf_db_count : (length (db_samples b) <= PUSH_BATCH_MAX_SAMPLES)%nat;
}.

Lemma strip_zeros_rev_replicate n l : strip_zeros_rev (replicate n 0 ++ l) = strip_zeros_rev l.
Proof. induction n; simpl; [done|done]. Qed.

Lemma strip_zeros_pad l n : last l <> Some 0 -> strip_zeros (l ++ replicate n 0) = l.
Proof.
  intros Hl. unfold strip_zeros. rewrite reverse_app, reverse_replicate, strip_zeros_rev_replicate.
  destruct l as [|x l' _] using rev_ind; [done|]. rewrite reverse_snoc. rewrite last_snoc in Hl.
  destruct x; [done| |]; cbn [strip_zeros_rev]; by rewrite <- reverse_snoc, reverse_involutive.
Qed.

Lemma decode_task_name_encode s : wf_name s -> decode_task_name (encode_name s) = s.
Proof.
  intros (Hs & _ & Hl). unfold decode_task_name, encode_name. rewrite strip_zeros_pad by done.
  by apply from_utf8_lossy_bytes_of_string.
Qed.

Lemma length_encode_diag_sample s : length (encode_diag_sample s) = PUSH_SAMPLE_SIZE.
Proof. done. Qed.

Lemma length_header b : wf_name (db_task_name b) -> length (mjoin (header_fields b)) = PUSH_BATCH_HEADER_SIZE.
Proof.
  intros (_ & Hl & _). unfold header_fields, encode_name, PUSH_BATCH_HEADER_SIZE. simpl.
  rewrite app_nil_r, length_app, length_bytes_of_string, length_replicate. lia.
Qed.

Lemma decode_sample_at pre post s i :
  wf_diag_sample s -> length pre = (PUSH_BATCH_HEADER_SIZE + i * PUSH_SAMPLE_SIZE)%nat ->
  decode_diag_sample (pre ++ encode_diag_sample s ++ post) i = Ok s.
Proof.
  intros [Hc He Hd] Hp. unfold decode_diag_sample, encode_diag_sample. rewrite <- Hp.
  unfold push_read_u32.
  rewrite (le_field pre post (sample_fields s) 0 _ 4 (ds_cycle_count s)) by (done || simpl; lia).
  rewrite (le_field pre post (sample_fields s) 1 _ 4 (ds_exec_time_us s)) by (done || simpl; lia).
  rewrite (i64_field pre post (sample_fields s) 2 _ (ds_dc_time s)) by (done || simpl; lia).
  rewrite (byte_field pre post (sample_fields s) 3 _ (ds_flags s)) by (done || simpl; lia).
  by destruct s.
Qed.

Lemma collect_samples l pre i :
  Forall wf_diag_sample l -> length pre = (PUSH_BATCH_HEADER_SIZE + i * PUSH_SAMPLE_SIZE)%nat ->
  collect_from (length l) i (decode_diag_sample (pre ++ mjoin (map encode_diag_sample l))) = Ok l.
Proof.
  intros Hl. revert pre i. induction Hl as [|s l Hs Hl IH]; intros pre i Hp; [done|].
  cbn [length collect_from].
  change (mjoin (map encode_diag_sample (s :: l))) with
    (encode_diag_sample s ++ mjoin (map encode_diag_sample l)).
  rewrite decode_sample_at by done. cbn [outcome_bind]. rewrite app_assoc, IH; [done|].
  rewrite length_app, length_encode_diag_sample. unfold PUSH_SAMPLE_SIZE in *. lia.
Qed.

Lemma length_encode_samples l :
  length (mjoin (map encode_diag_sample l)) = (length l * PUSH_SAMPLE_SIZE)%nat.
Proof.
  induction l as [|s l IH]; [done|].
  change (mjoin (map encode_diag_sample (s :: l))) with
    (encode_diag_sample s ++ mjoin (map encode_diag_sample l)).
  by rewrite length_app, length_encode_diag_sample, IH.
Qed.

(** The next header read of the goal is field [i]. *)
Ltac header_field i :=
  first
    [ erewrite (le_field [] _ _ i); [|reflexivity|assumption|reflexivity]
    | erewrite (i64_field [] _ _ i); [|reflexivity|assumption|reflexivity]
    | erewrite (byte_field [] _ _ i); [|reflexivity|reflexivity] ]; cbn [outcome_bind].

Definition with_samples (b : DiagBatch) (samples : list DiagSample) : DiagBatch :=
  mkDiagBatch (db_task_port b) (db_task_name b) (db_task_obj_id b) (db_window_ms b)
    (db_cycle_count_start b) (db_cycle_count_end b) (db_dc_time_start b) (db_dc_time_end b)
    (db_exec_time_min_us b) (db_exec_time_max_us b) (db_exec_time_avg_us b)
    (db_cycle_exceed_count b) (db_rt_violation_count b) samples.

(** The header is read whatever stands behind it. *)
Lemma decode_batch_header b post :
  wf_diag_batch b ->
  decode_batch ([] ++ mjoin (header_fields b) ++ post) =
  if (length post <? length (db_samples b) * PUSH_SAMPLE_SIZE)%nat then Err tt
  else (samples <-- collect_from (length (db_samples b)) 0
          (decode_diag_sample ([] ++ mjoin (header_fields b) ++ post)) ;;
        Ok (TaskDiagBatch (with_samples b samples)))%rust.
Proof.
  intros [H1 H2 H3 H4 H5 H6 H7 H8 H9 H10 H11 H12 Hn Hs Hc].
  assert (Hcnt : in_width 16 (Z.of_nat (length (db_samples b))))
    by (unfold in_width, PUSH_BATCH_MAX_SAMPLES in *; lia).
  assert (Hlen : length ([] ++ mjoin (header_fields b) ++ post) =
    (PUSH_BATCH_HEADER_SIZE + length post)%nat) by by rewrite app_nil_l, length_app, length_header.
  assert (Hname : slice_or_panic (E:=unit) ([] ++ mjoin (header_fields b) ++ post) 60 (60 + 20) =
    Ok (encode_name (db_task_name b))).
  { unfold slice_or_panic. erewrite (slice_field [] _ (header_fields b) 17); [done..|].
    destruct Hn as (_ & Hl & _). unfold encode_name.
    rewrite length_app, length_bytes_of_string, length_replicate. lia. }
  unfold decode_batch. rewrite (proj2 (Nat.ltb_ge _ _)) by lia.
  unfold push_read_u16, push_read_u32.
  header_field 0%nat. header_field 1%nat. cbn [negb orb Z.eqb Pos.eqb PUSH_WIRE_VERSION
    PUSH_BATCH_EVENT_TYPE].
  header_field 3%nat. header_field 4%nat. header_field 5%nat. header_field 6%nat.
  header_field 8%nat. header_field 9%nat. header_field 10%nat. header_field 11%nat.
  header_field 12%nat. header_field 13%nat. header_field 14%nat. header_field 15%nat.
  header_field 16%nat. change 80%nat with (60 + 20)%nat. rewrite Hname. cbn [outcome_bind].
  rewrite Nat2Z.id, (proj2 (Nat.ltb_ge PUSH_BATCH_MAX_SAMPLES _)) by done. rewrite Hlen.
  rewrite decode_task_name_encode by done.
  destruct (Nat.ltb_spec (length post) (length (db_samples b) * PUSH_SAMPLE_SIZE)).
  - by rewrite (proj2 (Nat.ltb_lt _ _)) by lia.
  - by rewrite (proj2 (Nat.ltb_ge _ _)) by lia.
Qed.

Lemma decode_batch_roundtrip b :
  wf_diag_batch b -> decode_batch (encode_diag_batch b) = Ok (TaskDiagBatch b).
Proof.
  intros Hb. unfold encode_diag_batch. rewrite <- (app_nil_l (mjoin (header_fields b) ++ _)).
  rewrite decode_batch_header, length_encode_samples, Nat.ltb_irrefl by done.
  destruct Hb as [_ _ _ _ _ _ _ _ _ _ _ _ Hn Hs _]. rewrite app_nil_l.
  rewrite collect_samples; [|done|by rewrite length_header]. by destruct b.
Qed.

(** Round trip of task-diagnostic batches: every well-formed batch of up
    to 1024 samples is decoded to itself from its wire frame, and a frame cut
    short anywhere is refused. *)
Theorem decode_batch_encode b k :
  wf_diag_batch b ->
  decode_batch (take k (encode_diag_batch b)) =
  if (k <? length (encode_diag_batch b))%nat then Err tt else Ok (TaskDiagBatch b).
Proof.
  intros Hb. pose proof (length_header b ltac:(by destruct Hb)) as Hh.
  destruct (Nat.ltb_spec k (length (encode_diag_batch b))) as [Hk|Hk].
  - unfold encode_diag_batch in *. rewrite length_app, Hh, length_encode_samples in Hk.
    destruct (Nat.lt_ge_cases k PUSH_BATCH_HEADER_SIZE) as [Hs|Hs].
    + unfold decode_batch. rewrite (proj2 (Nat.ltb_lt _ _)); [done|].
      rewrite length_take. lia.
    + rewrite take_app_ge, Hh by lia. rewrite <- (app_nil_l (mjoin (header_fields b) ++ _)).
      rewrite decode_batch_header by done. rewrite (proj2 (Nat.ltb_lt _ _)); [done|].
      rewrite length_take. lia.
  - rewrite take_ge by lia. by apply decode_batch_roundtrip.
Qed.
