(* ===== verification/AggregateWire.v ===== *)
(** * Aggregate metric frames on the wire (crates/tc-otel-ads: diagnostics_push.rs)

    A reference encoder for the frames that [decode_metric_aggregate] reads, in
    the documented layout, and the theorem that the decoder returns what was
    encoded. A slot of the body may hold a text in more than one way (padding), so that
    the slots are related to the samples they hold rather than computed. *)

From S2P Require Import Prelude.
From S2P Require Import Text.
From S2P Require Import Ams.
From S2P Require Import Reader.
From S2P Require Import Wire.
From S2P Require Import Diagnostics.
From S2P Require Import PushDecode.

(** ** The layout *)

Definition schema_byte (s : MetricBodySchema) : Z :=
  match s with
  | SchemaBool => 1
  | SchemaNumeric => 2
  | SchemaDiscrete => 3
  | SchemaString => 4
  | SchemaWstring => 5
  | SchemaNumericAggregated => 6
  end.

Definition strlen (s : string) : Z := Z.of_nat (String.length s).

Definition aggregate_header (b : AggregateBatch) : list bytes :=
  [[PUSH_WIRE_VERSION]; [PUSH_METRIC_AGG_EVENT_TYPE]; [ab_flags b]; [schema_byte (ab_body_schema b)];
   le_encode 4 (ab_sample_size b); le_encode 4 (Z.of_nat (length (ab_samples b))); le_encode 4 (ab_metric_id b);
   [ab_task_index b]; [ab_stat_mask b]; le_encode 2 0; le_encode 4 (ab_cycle_count_start b);
   le_encode 4 (ab_cycle_count_end b); le_encode 4 0; le_encode 8 (ab_dc_time_start b); le_encode 8 (ab_dc_time_end b);
   [strlen (ab_name b)]; [strlen (ab_unit b)]; le_encode 2 0].

Definition context_bytes (b : AggregateBatch) : bytes :=
  match ab_trace_id b, ab_span_id b with Some t, Some s => t ++ s | _, _ => [] end.

Definition namespace_bytes (b : AggregateBatch) : bytes :=
  if flag (ab_flags b) METRIC_FLAG_HAS_NAMESPACE
  then strlen (ab_scope_namespace b) :: bytes_of_string (ab_scope_namespace b) else [].

(** What stands in front of each slot. *)
Definition stamps (b : AggregateBatch) : list bytes :=
  match ab_sample_cycle_offsets b, ab_sample_dc_times b with
  | Some l, _ => map (le_encode 2) l
  | None, Some l => map (le_encode 8) l
  | None, None => replicate (length (ab_samples b)) []
  end.

Definition rows (b : AggregateBatch) (slots : list bytes) : list bytes := zip_with app (stamps b) slots.

Definition encode_aggregate (b : AggregateBatch) (slots : list bytes) : bytes :=
  mjoin (aggregate_header b) ++ context_bytes b ++ bytes_of_string (ab_name b) ++ bytes_of_string (ab_unit b) ++
  namespace_bytes b ++ mjoin (rows b slots).

(** The slot holds the sample. *)
Inductive slot_of (mask : Z) : MetricBodySchema -> bytes -> MetricAggregateSample -> Prop :=
| slot_bool b : slot_of mask SchemaBool [Z.b2z b] (SampleBool b)
| slot_numeric v : in_width 64 v -> slot_of mask SchemaNumeric (le_encode 8 v) (SampleNumeric v)
| slot_discrete raw : slot_of mask SchemaDiscrete raw (SampleDiscrete raw)
| slot_string s n : is_str s -> last (bytes_of_string s) <> Some 0 ->
    slot_of mask SchemaString (bytes_of_string s ++ replicate n 0) (SampleString s)
| slot_wstring units n : Forall (in_width 16) units -> last units <> Some 0 ->
    slot_of mask SchemaWstring (mjoin (map (le_encode 2) (units ++ replicate n 0))) (SampleWstring (from_utf16_lossy units))
| slot_stats values : Forall (in_width 64) values -> length values = count_ones mask ->
    slot_of mask SchemaNumericAggregated (mjoin (map (le_encode 8) values)) (SampleNumericAggregated mask values).

Definition short_text (s : string) : Prop := is_str s /\ (String.length s <= 255)%nat.

Record wf_aggregate (b : AggregateBatch) : Prop := {
  wa_size : in_width 32 (ab_sample_size b);
  wa_size_ok : sample_size_ok (ab_body_schema b) (ab_sample_size b) (ab_stat_mask b) = true;
  wa_count : in_width 32 (Z.of_nat (length (ab_samples b)));
  wa_id : in_width 32 (ab_metric_id b);
  wa_ccs : in_width 32 (ab_cycle_count_start b);
  wa_cce : in_width 32 (ab_cycle_count_end b);
  wa_dcs : - 2 ^ 63 <= ab_dc_time_start b < 2 ^ 63;
  wa_dce : - 2 ^ 63 <= ab_dc_time_end b < 2 ^ 63;
  wa_name : short_text (ab_name b);
  wa_unit : short_text (ab_unit b);
  wa_namespace : if flag (ab_flags b) METRIC_FLAG_HAS_NAMESPACE then short_text (ab_scope_namespace b)
                 else ab_scope_namespace b = "";
  wa_context : if flag (ab_flags b) METRIC_FLAG_HAS_TRACE_CTX
               then exists t s, ab_trace_id b = Some t /\ ab_span_id b = Some s /\ length t = 16%nat /\ length s = 8%nat
               else ab_trace_id b = None /\ ab_span_id b = None;
  wa_stamps :
    match ab_sample_cycle_offsets b, ab_sample_dc_times b with
    | Some l, None => flag (ab_flags b) METRIC_FLAG_HAS_SAMPLE_TS = true /\
        flag (ab_flags b) METRIC_FLAG_HAS_SAMPLE_TS_DC = false /\ Forall (in_width 16) l /\ length l = length (ab_samples b)
    | None, Some l => flag (ab_flags b) METRIC_FLAG_HAS_SAMPLE_TS = false /\
        flag (ab_flags b) METRIC_FLAG_HAS_SAMPLE_TS_DC = true /\ Forall (fun v => - 2 ^ 63 <= v < 2 ^ 63) l /\
        length l = length (ab_samples b)
    | None, None => flag (ab_flags b) METRIC_FLAG_HAS_SAMPLE_TS = false /\
        flag (ab_flags b) METRIC_FLAG_HAS_SAMPLE_TS_DC = false
    | Some _, Some _ => False
    end;
}.

(** ** The pieces *)

Lemma schema_byte_read s : MetricBodySchema_from_byte (schema_byte s) = Some s.
Proof. by destruct s. Qed.

Lemma take_text_at pre s post off : is_str s -> off = length pre ->
  take_text (pre ++ bytes_of_string s ++ post) off (Z.to_nat (strlen s)) = Ok (s, (off + String.length s)%nat).
Proof.
  intros Hs ->. unfold take_text, slice_or_panic, strlen. rewrite Nat2Z.id.
  rewrite (proj2 (Nat.ltb_ge _ _)) by (rewrite !length_app, length_bytes_of_string; lia).
  rewrite slice_at_app by (done || by rewrite length_bytes_of_string). cbn [outcome_bind].
  by rewrite from_utf8_bytes_of_string.
Qed.

Lemma byte_at_mid {E} pre b post off : off = length pre -> index_or_panic (E:=E) (pre ++ b :: post) off = Ok b.
Proof. intros ->. unfold index_or_panic, byte_at. by rewrite list_lookup_middle. Qed.

Lemma take_trace_ctx_at b pre post : wf_aggregate b -> length pre = PUSH_METRIC_AGG_HEADER_SIZE ->
  take_trace_ctx (pre ++ context_bytes b ++ post) (ab_flags b) PUSH_METRIC_AGG_HEADER_SIZE =
  Ok (ab_trace_id b, ab_span_id b, (PUSH_METRIC_AGG_HEADER_SIZE + length (context_bytes b))%nat).
Proof.
  intros Hw Hp. pose proof (wa_context b Hw) as Hc. unfold take_trace_ctx, context_bytes.
  destruct (flag (ab_flags b) METRIC_FLAG_HAS_TRACE_CTX).
  - destruct Hc as (t & s & -> & -> & Ht & Hs). rewrite (proj2 (Nat.ltb_ge _ _)).
    2: { rewrite !length_app, Hp, Ht, Hs. unfold PUSH_METRIC_AGG_TRACE_SIZE. lia. }
    unfold slice_or_panic. rewrite <- app_assoc.
    rewrite (slice_at_app pre t) by (rewrite ?Hp, ?Ht; done). cbn [outcome_bind].
    rewrite (app_assoc pre t), (slice_at_app (pre ++ t) s) by (rewrite ?length_app, ?Hp, ?Ht, ?Hs; done).
    cbn [outcome_bind]. by rewrite length_app, Ht, Hs.
  - destruct Hc as [-> ->]. by rewrite Nat.add_0_r.
Qed.

Lemma take_namespace_at b pre post off : wf_aggregate b -> off = length pre ->
  take_namespace (pre ++ namespace_bytes b ++ post) (ab_flags b) off =
  Ok (ab_scope_namespace b, (off + length (namespace_bytes b))%nat).
Proof.
  intros Hw ->. pose proof (wa_namespace b Hw) as Hn. unfold take_namespace, namespace_bytes.
  destruct (flag (ab_flags b) METRIC_FLAG_HAS_NAMESPACE).
  - destruct Hn as [Hs Hl]. rewrite (proj2 (Nat.ltb_ge _ _)) by (rewrite length_app; simpl; lia).
    cbn [app]. rewrite byte_at_mid by done. cbn [outcome_bind].
    rewrite cons_middle, (app_assoc pre). rewrite take_text_at by (done || rewrite length_app; simpl; lia).
    cbn [length]. rewrite length_bytes_of_string. do 2 f_equal. lia.
  - by rewrite Hn, Nat.add_0_r.
Qed.

(** Reading a list of rows of one length, one after the other. *)
Lemma collect_rows {A} (stride : nat) (g : bytes -> nat -> decoded A) (R : bytes -> A -> Prop) rows l :
  (forall pre row post i a, R row a -> length pre = (i * stride)%nat -> g (pre ++ row ++ post) i = Ok a) ->
  Forall2 R rows l -> Forall (fun row => length row = stride) rows ->
  forall pre i, length pre = (i * stride)%nat -> collect_from (length l) i (g (pre ++ mjoin rows)) = Ok l.
Proof.
  intros Hg Hl. induction Hl as [|row a rows l Hra _ IH]; intros Hlen pre i Hp; [done|].
  apply Forall_cons in Hlen as [Hrow Hlen]. cbn [length collect_from].
  change (mjoin (row :: rows)) with (row ++ mjoin rows). rewrite (Hg _ _ _ _ _ Hra Hp). cbn [outcome_bind].
  rewrite app_assoc, IH; [done..|]. rewrite length_app. lia.
Qed.

Lemma le8_values values pre i : Forall (in_width 64) values -> length pre = (i * 8)%nat ->
  collect_from (length values) i (fun k => push_read_f64 (E:=unit) (pre ++ mjoin (map (le_encode 8) values)) (k * 8)) = Ok values.
Proof.
  intros Hv. revert pre i.
  apply (collect_rows 8 (fun data k => push_read_f64 data (k * 8)) (fun row v => row = le_encode 8 v /\ in_width 64 v)).
  - intros p row post j a [-> Ha] Hp. unfold push_read_f64, le_or_panic, slice_or_panic. rewrite <- Hp.
    rewrite slice_at_app by (done || by rewrite length_le_encode). cbn [outcome_bind]. by rewrite le_decode_encode.
  - induction Hv; constructor; auto.
  - apply Forall_map, Forall_forall. intros v _. apply length_le_encode.
Qed.

Lemma decode_sample_slot mask schema slot a : slot_of mask schema slot a -> decode_sample schema mask slot = Ok a.
Proof.
  intros Hs. destruct Hs as [b|v Hv|raw|s n Hs Hl|units n Hu Hl|values Hv Hn]; unfold decode_sample.
  - by destruct b.
  - unfold push_read_f64, le_or_panic, slice_or_panic.
    rewrite <- (app_nil_r (le_encode 8 v)), slice_at_head by (by rewrite length_le_encode). cbn [outcome_bind].
    by rewrite le_decode_encode.
  - done.
  - rewrite strip_zeros_pad by done. by rewrite from_utf8_lossy_bytes_of_string.
  - rewrite u16_units_encode, strip_zeros_pad; [done..|]. apply Forall_app. split; [done|]. by apply Forall_replicate.
  - pose proof (le8_values values [] 0 Hv eq_refl) as Hc. cbn [app] in Hc. by rewrite <- Hn, Hc.
Qed.

(** ** The body *)

(** Where the body of the frame begins. *)
Definition front (b : AggregateBatch) : bytes :=
  mjoin (aggregate_header b) ++ context_bytes b ++ bytes_of_string (ab_name b) ++ bytes_of_string (ab_unit b) ++ namespace_bytes b.

Definition stride (b : AggregateBatch) : nat := (Z.to_nat (ab_sample_size b) + ts_prefix_of (ab_flags b))%nat.

(** What the decoder makes of a body of the right length. *)
Definition decode_body (b : AggregateBatch) (body : bytes) : decoded DiagEvent :=
  let has_ts := flag (ab_flags b) METRIC_FLAG_HAS_SAMPLE_TS in
  let has_ts_dc := flag (ab_flags b) METRIC_FLAG_HAS_SAMPLE_TS_DC in
  let count := length (ab_samples b) in
  (offsets <-- (if has_ts then collect_from count 0 (fun i => push_read_u16 body (i * stride b)) else Ok []) ;;
   dc_times <-- (if has_ts_dc then collect_from count 0 (fun i => push_read_i64 body (i * stride b)) else Ok []) ;;
   samples <-- collect_from count 0
                 (decode_slot (ab_body_schema b) (ab_stat_mask b) (Z.to_nat (ab_sample_size b)) (ts_prefix_of (ab_flags b)) body) ;;
   Ok (MetricAggregateBatch
         {| ab_metric_id := ab_metric_id b; ab_task_index := ab_task_index b; ab_flags := ab_flags b;
            ab_body_schema := ab_body_schema b; ab_sample_size := ab_sample_size b; ab_stat_mask := ab_stat_mask b;
            ab_cycle_count_start := ab_cycle_count_start b; ab_cycle_count_end := ab_cycle_count_end b;
            ab_dc_time_start := ab_dc_time_start b; ab_dc_time_end := ab_dc_time_end b; ab_name := ab_name b;
            ab_unit := ab_unit b; ab_scope_namespace := ab_scope_namespace b; ab_trace_id := ab_trace_id b;
            ab_span_id := ab_span_id b; ab_samples := samples;
            ab_sample_cycle_offsets := if has_ts then Some offsets else None;
            ab_sample_dc_times := if has_ts_dc then Some dc_times else None |}))%rust.

Lemma length_aggregate_header b : length (mjoin (aggregate_header b)) = PUSH_METRIC_AGG_HEADER_SIZE.
Proof. done. Qed.

Lemma not_both_stamps b : wf_aggregate b ->
  flag (ab_flags b) METRIC_FLAG_HAS_SAMPLE_TS && flag (ab_flags b) METRIC_FLAG_HAS_SAMPLE_TS_DC = false.
Proof.
  intros Hw. pose proof (wa_stamps b Hw) as Hs.
  destruct (ab_sample_cycle_offsets b), (ab_sample_dc_times b); destruct_and?; try done;
    by repeat match goal with H : flag _ _ = _ |- _ => rewrite H end.
Qed.

(** What the decoder does behind the header. *)
Definition decode_tail (b : AggregateBatch) (data : bytes) : decoded DiagEvent :=
  (ctx <-- take_trace_ctx data (ab_flags b) PUSH_METRIC_AGG_HEADER_SIZE ;;
   name <-- take_text data ctx.2 (Z.to_nat (strlen (ab_name b))) ;;
   unit <-- take_text data name.2 (Z.to_nat (strlen (ab_unit b))) ;;
   ns <-- take_namespace data (ab_flags b) unit.2 ;;
   let offset := ns.2 in
   let has_ts := flag (ab_flags b) METRIC_FLAG_HAS_SAMPLE_TS in
   let has_ts_dc := flag (ab_flags b) METRIC_FLAG_HAS_SAMPLE_TS_DC in
   if has_ts && has_ts_dc then Err tt
   else
     let ts_prefix := ts_prefix_of (ab_flags b) in
     let size := Z.to_nat (ab_sample_size b) in
     let slot_stride := (size + ts_prefix)%nat in
     let count := Z.to_nat (Z.of_nat (length (ab_samples b))) in
     let body_len := (count * slot_stride)%nat in
     if (length data <? offset + body_len)%nat then Err tt
     else
       body <-- slice_or_panic data offset (offset + body_len) ;;
       if negb (offset + body_len =? length data)%nat then Err tt
       else
         offsets <-- (if has_ts then collect_from count 0 (fun i => push_read_u16 body (i * slot_stride)) else Ok []) ;;
         dc_times <-- (if has_ts_dc then collect_from count 0 (fun i => push_read_i64 body (i * slot_stride)) else Ok []) ;;
         samples <-- collect_from count 0 (decode_slot (ab_body_schema b) (ab_stat_mask b) size ts_prefix body) ;;
         Ok (MetricAggregateBatch
               {| ab_metric_id := ab_metric_id b; ab_task_index := ab_task_index b; ab_flags := ab_flags b;
                  ab_body_schema := ab_body_schema b; ab_sample_size := ab_sample_size b; ab_stat_mask := ab_stat_mask b;
                  ab_cycle_count_start := ab_cycle_count_start b; ab_cycle_count_end := ab_cycle_count_end b;
                  ab_dc_time_start := ab_dc_time_start b; ab_dc_time_end := ab_dc_time_end b; ab_name := name.1;
                  ab_unit := unit.1; ab_scope_namespace := ns.1; ab_trace_id := ctx.1.1;
                  ab_span_id := ctx.1.2; ab_samples := samples;
                  ab_sample_cycle_offsets := if has_ts then Some offsets else None;
                  ab_sample_dc_times := if has_ts_dc then Some dc_times else None |}))%rust.

Lemma decode_header b post : wf_aggregate b ->
  decode_metric_aggregate ([] ++ mjoin (aggregate_header b) ++ post) =
  decode_tail b ([] ++ mjoin (aggregate_header b) ++ post).
Proof.
  intros [H1 Hok H2 H3 H4 H5 H6 H7 _ _ _ _ _]. set (data := [] ++ mjoin (aggregate_header b) ++ post).
  assert (Hlen : (length data <? PUSH_METRIC_AGG_HEADER_SIZE)%nat = false).
  { apply Nat.ltb_ge. unfold data. rewrite app_nil_l, length_app, length_aggregate_header. lia. }
  assert (F0 : index_or_panic (E:=unit) data 0 = Ok (PUSH_WIRE_VERSION)) by (by apply (byte_field [] post (aggregate_header b) 0)).
  assert (F1 : index_or_panic (E:=unit) data 1 = Ok (PUSH_METRIC_AGG_EVENT_TYPE)) by (by apply (byte_field [] post (aggregate_header b) 1)).
  assert (F2 : index_or_panic (E:=unit) data 2 = Ok (ab_flags b)) by (by apply (byte_field [] post (aggregate_header b) 2)).
  assert (F3 : index_or_panic (E:=unit) data 3 = Ok (schema_byte (ab_body_schema b))) by (by apply (byte_field [] post (aggregate_header b) 3)).
  assert (F4 : push_read_u32 (E:=unit) data 4 = Ok (ab_sample_size b)) by (by apply (le_field [] post (aggregate_header b) 4)).
  assert (F5 : push_read_u32 (E:=unit) data 8 = Ok (Z.of_nat (length (ab_samples b)))) by (by apply (le_field [] post (aggregate_header b) 5)).
  assert (F6 : push_read_u32 (E:=unit) data 12 = Ok (ab_metric_id b)) by (by apply (le_field [] post (aggregate_header b) 6)).
  assert (F7 : index_or_panic (E:=unit) data 16 = Ok (ab_task_index b)) by (by apply (byte_field [] post (aggregate_header b) 7)).
  assert (F8 : index_or_panic (E:=unit) data 17 = Ok (ab_stat_mask b)) by (by apply (byte_field [] post (aggregate_header b) 8)).
  assert (F9 : push_read_u32 (E:=unit) data 20 = Ok (ab_cycle_count_start b)) by (by apply (le_field [] post (aggregate_header b) 10)).
  assert (F10 : push_read_u32 (E:=unit) data 24 = Ok (ab_cycle_count_end b)) by (by apply (le_field [] post (aggregate_header b) 11)).
  assert (F11 : push_read_i64 (E:=unit) data 32 = Ok (ab_dc_time_start b)) by (by apply (i64_field [] post (aggregate_header b) 13)).
  assert (F12 : push_read_i64 (E:=unit) data 40 = Ok (ab_dc_time_end b)) by (by apply (i64_field [] post (aggregate_header b) 14)).
  assert (F13 : index_or_panic (E:=unit) data 48 = Ok (strlen (ab_name b))) by (by apply (byte_field [] post (aggregate_header b) 15)).
  assert (F14 : index_or_panic (E:=unit) data 49 = Ok (strlen (ab_unit b))) by (by apply (byte_field [] post (aggregate_header b) 16)).
  clearbody data. unfold decode_metric_aggregate, decode_tail. rewrite Hlen.
  rewrite F0, F1. cbn [outcome_bind negb orb Z.eqb Pos.eqb PUSH_WIRE_VERSION PUSH_METRIC_AGG_EVENT_TYPE].
  rewrite F2, F3. cbn [outcome_bind]. rewrite schema_byte_read, F4, F5, F6, F7, F8, F9, F10, F11, F12, F13, F14. cbn [outcome_bind].
  by rewrite Hok.
Qed.

(** The frame as a header and the rest. *)
Definition behind_header (b : AggregateBatch) (body : bytes) : bytes :=
  context_bytes b ++ bytes_of_string (ab_name b) ++ bytes_of_string (ab_unit b) ++ namespace_bytes b ++ body.

Lemma front_header b body : front b ++ body = [] ++ mjoin (aggregate_header b) ++ behind_header b body.
Proof. unfold front, behind_header. by rewrite app_nil_l, <- !app_assoc. Qed.

(** The sections of the front, each where the one before it ends. *)
Lemma front_sections b body : wf_aggregate b -> exists o1 o2 o3,
  take_trace_ctx (front b ++ body) (ab_flags b) PUSH_METRIC_AGG_HEADER_SIZE = Ok (ab_trace_id b, ab_span_id b, o1) /\
  take_text (front b ++ body) o1 (Z.to_nat (strlen (ab_name b))) = Ok (ab_name b, o2) /\
  take_text (front b ++ body) o2 (Z.to_nat (strlen (ab_unit b))) = Ok (ab_unit b, o3) /\
  take_namespace (front b ++ body) (ab_flags b) o3 = Ok (ab_scope_namespace b, length (front b)).
Proof.
  intros Hw. pose proof Hw as [_ _ _ _ _ _ _ _ [Hn _] [Hu _] _ _ _]. rewrite front_header, app_nil_l. unfold front, behind_header.
  set (hd := mjoin (aggregate_header b)). assert (Hhd : length hd = PUSH_METRIC_AGG_HEADER_SIZE) by done. clearbody hd.
  exists (length (hd ++ context_bytes b)), (length ((hd ++ context_bytes b) ++ bytes_of_string (ab_name b))),
    (length (((hd ++ context_bytes b) ++ bytes_of_string (ab_name b)) ++ bytes_of_string (ab_unit b))). split_and!.
  - rewrite length_app, Hhd. by apply take_trace_ctx_at.
  - rewrite (app_assoc hd), take_text_at by done. by rewrite !length_app, length_bytes_of_string.
  - rewrite (app_assoc hd), (app_assoc (hd ++ _)), take_text_at by done. by rewrite !length_app, !length_bytes_of_string.
  - rewrite (app_assoc hd), (app_assoc (hd ++ _)), (app_assoc ((hd ++ _) ++ _)), take_namespace_at by done.
    by rewrite !length_app, !Nat.add_assoc.
Qed.

(** The front is read whatever stands behind it; a body that is too short or too long is refused. *)
Lemma decode_front b body : wf_aggregate b ->
  decode_metric_aggregate (front b ++ body) =
  if (length body =? length (ab_samples b) * stride b)%nat then decode_body b body else Err tt.
Proof.
  intros Hw. destruct (front_sections b body Hw) as (o1 & o2 & o3 & T1 & T2 & T3 & T4).
  assert (Hdec : decode_metric_aggregate (front b ++ body) = decode_tail b (front b ++ body)).
  { rewrite front_header. by apply decode_header. }
  rewrite Hdec. unfold decode_tail. rewrite T1. cbn [outcome_bind fst snd]. rewrite T2. cbn [outcome_bind fst snd].
  rewrite T3. cbn [outcome_bind fst snd]. rewrite T4. cbn [outcome_bind fst snd].
  rewrite (not_both_stamps b Hw), Nat2Z.id, length_app. fold (stride b).
  set (n := (length (ab_samples b) * stride b)%nat).
  destruct (Nat.ltb_spec (length (front b) + length body) (length (front b) + n)) as [Hlt|Hge].
  - by rewrite (proj2 (Nat.eqb_neq _ _)) by lia.
  - unfold slice_or_panic. rewrite slice_at_spec by (rewrite ?length_app; lia). cbn [outcome_bind].
    destruct (Nat.eqb_spec (length body) n) as [He|Hne].
    + rewrite (proj2 (Nat.eqb_eq _ _)) by lia. cbn [negb]. rewrite drop_app_length, take_ge by lia. done.
    + by rewrite (proj2 (Nat.eqb_neq _ _)) by lia.
Qed.

(** ** The samples *)

(** What holds of stamps and slots holds of the rows they make. *)
Lemma zip_rows {A B} (P : bytes -> A -> Prop) (Q : bytes -> B -> Prop) (sts slots : list bytes) la lb :
  Forall2 P sts la -> Forall2 Q slots lb -> length sts = length slots ->
  Forall2 (fun row a => exists st slot b, row = st ++ slot /\ P st a /\ Q slot b) (zip_with app sts slots) la /\
  Forall2 (fun row b => exists st slot a, row = st ++ slot /\ P st a /\ Q slot b) (zip_with app sts slots) lb.
Proof.
  intros HP. revert slots lb. induction HP as [|st a sts la Hp _ IH]; intros slots lb HQ Hlen.
  - destruct HQ; [by split|done].
  - destruct HQ as [|slot b slots lb Hq HQ]; [done|]. destruct (IH slots lb HQ) as [H1 H2]; [by injection Hlen|].
    split; constructor; eauto 10.
Qed.

Lemma stamps_lengths b : wf_aggregate b ->
  Forall2 (fun st (_ : unit) => length st = ts_prefix_of (ab_flags b)) (stamps b) (replicate (length (ab_samples b)) tt).
Proof.
  intros Hw. pose proof (wa_stamps b Hw) as Hs. unfold stamps, ts_prefix_of.
  destruct (ab_sample_cycle_offsets b) as [l|], (ab_sample_dc_times b) as [l'|]; [done|..].
  - destruct Hs as (E1 & _ & _ & <-). rewrite E1. clear. induction l; simpl; constructor; done.
  - destruct Hs as (E1 & E2 & _ & <-). rewrite E1, E2. clear. induction l'; simpl; constructor; done.
  - destruct Hs as (E1 & E2). rewrite E1, E2. clear. induction (length (ab_samples b)); simpl; by constructor.
Qed.

Section Body.
Variables (b : AggregateBatch) (slots : list bytes).
Hypothesis (Hw : wf_aggregate b).
Hypothesis (Hslots : Forall2 (slot_of (ab_stat_mask b) (ab_body_schema b)) slots (ab_samples b)).
Hypothesis (Hsize : Forall (fun slot => length slot = Z.to_nat (ab_sample_size b)) slots).

Lemma slots_sized : Forall2 (fun slot a => slot_of (ab_stat_mask b) (ab_body_schema b) slot a /\
  length slot = Z.to_nat (ab_sample_size b)) slots (ab_samples b).
Proof using Hslots Hsize.
  apply Forall2_same_length_lookup. split; [by eapply Forall2_length|]. intros i slot a Hi Ha. split.
  - by eapply Forall2_lookup_lr.
  - by eapply (Forall_lookup_1 _ _ _ _ Hsize).
Qed.

Lemma stamps_slots : length (stamps b) = length slots.
Proof using Hw Hslots.
  rewrite (Forall2_length _ _ _ (stamps_lengths b Hw)), length_replicate. symmetry. by eapply Forall2_length.
Qed.

Lemma rows_lengths : Forall (fun row => length row = stride b) (rows b slots).
Proof using Hw Hslots Hsize.
  destruct (zip_rows _ _ _ _ _ _ (stamps_lengths b Hw) slots_sized stamps_slots) as [_ H].
  apply Forall_forall. intros row Hrow. apply list_elem_of_lookup in Hrow as [i Hi].
  destruct (Forall2_lookup_l _ _ _ _ _ H Hi) as (a & _ & st & slot & [] & -> & Hst & _ & Hsl).
  rewrite length_app, Hst, Hsl. unfold stride. lia.
Qed.

Lemma rows_length : length (mjoin (rows b slots)) = (length (ab_samples b) * stride b)%nat.
Proof using Hw Hslots Hsize.
  assert (Hn : length (rows b slots) = length (ab_samples b)).
  { unfold rows. rewrite length_zip_with, stamps_slots, Nat.min_id. by eapply Forall2_length. }
  rewrite <- Hn. pose proof rows_lengths as Hl. clear Hn. induction Hl as [|row l Hrow _ IH]; [done|].
  change (mjoin (row :: l)) with (row ++ mjoin l). rewrite length_app, IH, Hrow. simpl. lia.
Qed.

(** Both kinds of stamps and the samples, read from the rows. *)
Lemma offsets_read l : ab_sample_cycle_offsets b = Some l ->
  collect_from (length (ab_samples b)) 0 (fun i => push_read_u16 (E:=unit) (mjoin (rows b slots)) (i * stride b)) = Ok l.
Proof using Hw Hslots Hsize.
  intros Hl. pose proof (wa_stamps b Hw) as Hs. rewrite Hl in Hs. destruct (ab_sample_dc_times b); [done|].
  destruct Hs as (_ & _ & Hv & Hlen). rewrite <- Hlen.
  assert (Hst : Forall2 (fun st v => st = le_encode 2 v /\ in_width 16 v) (stamps b) l).
  { unfold stamps. rewrite Hl. clear -Hv. induction Hv; constructor; auto. }
  destruct (zip_rows _ _ _ _ _ _ Hst slots_sized stamps_slots) as [Hr _].
  refine (collect_rows (stride b) (fun data i => push_read_u16 data (i * stride b)) _ _ _ _ Hr rows_lengths [] 0 eq_refl).
  intros pre row post i v (st & slot & a & -> & [-> Hv'] & _) Hp. unfold push_read_u16, le_or_panic, slice_or_panic.
  rewrite <- Hp, <- app_assoc, slice_at_app by (done || by rewrite length_le_encode). cbn [outcome_bind]. by rewrite le_decode_encode.
Qed.

Lemma dc_times_read l : ab_sample_dc_times b = Some l ->
  collect_from (length (ab_samples b)) 0 (fun i => push_read_i64 (E:=unit) (mjoin (rows b slots)) (i * stride b)) = Ok l.
Proof using Hw Hslots Hsize.
  intros Hl. pose proof (wa_stamps b Hw) as Hs. rewrite Hl in Hs. destruct (ab_sample_cycle_offsets b) eqn:Ho; [done|].
  destruct Hs as (_ & _ & Hv & Hlen). rewrite <- Hlen.
  assert (Hst : Forall2 (fun st v => st = le_encode 8 v /\ - 2 ^ 63 <= v < 2 ^ 63) (stamps b) l).
  { unfold stamps. rewrite Hl, Ho. clear -Hv. induction Hv; constructor; auto. }
  destruct (zip_rows _ _ _ _ _ _ Hst slots_sized stamps_slots) as [Hr _].
  refine (collect_rows (stride b) (fun data i => push_read_i64 data (i * stride b)) _ _ _ _ Hr rows_lengths [] 0 eq_refl).
  intros pre row post i v (st & slot & a & -> & [-> Hv'] & _) Hp. rewrite <- Hp, <- app_assoc.
  pose proof (i64_field (E:=unit) pre (slot ++ post) [le_encode 8 v] 0 (length pre) v eq_refl Hv' ltac:(simpl; lia)) as Hf.
  cbn [mjoin list_join] in Hf. by rewrite app_nil_r in Hf.
Qed.

Lemma samples_read :
  collect_from (length (ab_samples b)) 0 (decode_slot (ab_body_schema b) (ab_stat_mask b) (Z.to_nat (ab_sample_size b))
    (ts_prefix_of (ab_flags b)) (mjoin (rows b slots))) = Ok (ab_samples b).
Proof using Hw Hslots Hsize.
  destruct (zip_rows _ _ _ _ _ _ (stamps_lengths b Hw) slots_sized stamps_slots) as [_ Hr].
  refine (collect_rows (stride b) (decode_slot (ab_body_schema b) (ab_stat_mask b) (Z.to_nat (ab_sample_size b)) (ts_prefix_of (ab_flags b)))
    _ _ _ _ Hr rows_lengths [] 0 eq_refl).
  intros pre row post i a (st & slot & [] & -> & Hst & Hsl & Hlen) Hp. unfold decode_slot. fold (stride b). rewrite <- Hp, <- Hst.
  rewrite <- !app_assoc, (app_assoc pre). unfold slice_or_panic. rewrite slice_at_app by (rewrite ?length_app; lia).
  cbn [outcome_bind]. by apply decode_sample_slot.
Qed.

Lemma body_read : decode_body b (mjoin (rows b slots)) = Ok (MetricAggregateBatch b).
Proof using Hw Hslots Hsize.
  pose proof (wa_stamps b Hw) as Hs. pose proof offsets_read as Ho. pose proof dc_times_read as Hd. unfold decode_body.
  rewrite samples_read. destruct (ab_sample_cycle_offsets b) as [l|] eqn:E1, (ab_sample_dc_times b) as [l'|] eqn:E2; [done|..].
  - destruct Hs as (F1 & F2 & _). rewrite F1, F2, (Ho l eq_refl). cbn [outcome_bind]. rewrite <- E1, <- E2. by destruct b.
  - destruct Hs as (F1 & F2 & _). rewrite F1, F2, (Hd l' eq_refl). cbn [outcome_bind]. rewrite <- E1, <- E2. by destruct b.
  - destruct Hs as (F1 & F2). rewrite F1, F2. cbn [outcome_bind]. rewrite <- E1 at 1. rewrite <- E2. by destruct b.
Qed.

End Body.

Lemma encode_front b slots : encode_aggregate b slots = front b ++ mjoin (rows b slots).
Proof. unfold encode_aggregate, front. by rewrite <- !app_assoc. Qed.

(** ** Frames that are cut short *)

Lemma slice_prefix data k a b : (b <= length (take k data))%nat -> slice_at (take k data) a b = slice_at data a b.
Proof.
  intros Hb. rewrite length_take in Hb. unfold slice_at. rewrite length_take.
  destruct (decide (a <= b)%nat); [|by rewrite !bool_decide_false by lia].
  rewrite !bool_decide_true by lia. rewrite skipn_firstn_comm, take_take. do 2 f_equal. lia.
Qed.

(** On a prefix of a frame a reader fails, or reads what it reads on the frame. *)
Lemma text_prefix data k off n : take_text (take k data) off n = Err tt \/ take_text (take k data) off n = take_text data off n.
Proof.
  unfold take_text. destruct (Nat.ltb_spec (length (take k data)) (off + n)) as [|Hl]; [by left|]. right.
  unfold slice_or_panic. rewrite slice_prefix by done. rewrite length_take in Hl.
  by rewrite (proj2 (Nat.ltb_ge (length data) _)) by lia.
Qed.

Lemma ctx_prefix data k flags off :
  take_trace_ctx (take k data) flags off = Err tt \/ take_trace_ctx (take k data) flags off = take_trace_ctx data flags off.
Proof.
  unfold take_trace_ctx. destruct (flag _ _); [|by right].
  destruct (Nat.ltb_spec (length (take k data)) (off + PUSH_METRIC_AGG_TRACE_SIZE)) as [|Hl]; [by left|]. right.
  unfold slice_or_panic. unfold PUSH_METRIC_AGG_TRACE_SIZE in *. rewrite !slice_prefix by lia. rewrite length_take in Hl.
  by rewrite (proj2 (Nat.ltb_ge (length data) _)) by lia.
Qed.

Lemma namespace_prefix data k flags off :
  take_namespace (take k data) flags off = Err tt \/ take_namespace (take k data) flags off = take_namespace data flags off.
Proof.
  unfold take_namespace. destruct (flag _ _); [|by right].
  destruct (Nat.ltb_spec (length (take k data)) (off + 1)) as [|Hl]; [by left|]. rewrite length_take in Hl.
  rewrite (proj2 (Nat.ltb_ge (length data) _)) by lia. unfold index_or_panic, byte_at. rewrite lookup_take_lt by lia.
  destruct (data !! off); simpl; [apply text_prefix|by right].
Qed.

Lemma decode_cut b body k : wf_aggregate b -> length body = (length (ab_samples b) * stride b)%nat ->
  (k < length (front b ++ body))%nat -> decode_metric_aggregate (take k (front b ++ body)) = Err tt.
Proof.
  intros Hw Hlen Hk. destruct (Nat.lt_ge_cases k PUSH_METRIC_AGG_HEADER_SIZE) as [Hlt|Hge].
  { unfold decode_metric_aggregate. rewrite (proj2 (Nat.ltb_lt _ _)); [done|]. rewrite length_take. lia. }
  destruct (front_sections b body Hw) as (o1 & o2 & o3 & T1 & T2 & T3 & T4).
  assert (Hdec : decode_metric_aggregate (take k (front b ++ body)) = decode_tail b (take k (front b ++ body))).
  { rewrite front_header, app_nil_l, take_app_ge by (by rewrite length_aggregate_header). by apply (decode_header b). }
  rewrite Hdec. unfold decode_tail.
  destruct (ctx_prefix (front b ++ body) k (ab_flags b) PUSH_METRIC_AGG_HEADER_SIZE) as [-> | ->]; [done|]. rewrite T1. cbn [outcome_bind fst snd].
  destruct (text_prefix (front b ++ body) k o1 (Z.to_nat (strlen (ab_name b)))) as [-> | ->]; [done|]. rewrite T2. cbn [outcome_bind fst snd].
  destruct (text_prefix (front b ++ body) k o2 (Z.to_nat (strlen (ab_unit b)))) as [-> | ->]; [done|]. rewrite T3. cbn [outcome_bind fst snd].
  destruct (namespace_prefix (front b ++ body) k (ab_flags b) o3) as [-> | ->]; [done|]. rewrite T4. cbn [outcome_bind fst snd].
  rewrite (not_both_stamps b Hw), Nat2Z.id. fold (stride b). rewrite <- Hlen, <- length_app.
  rewrite (proj2 (Nat.ltb_lt _ _)); [done|]. rewrite length_take. lia.
Qed.

(** C8: Aggregate metric frames round-trip. Whatever its schema (bools, numbers, raw bytes, texts of both kinds, statistics), with or
    without trace context, namespace and stamps of either kind: a well-formed batch is decoded to itself from every frame
    whose slots hold its samples, and the same frame cut short anywhere or continued by any bytes is refused. *)
Theorem aggregate_roundtrip b slots :
  wf_aggregate b ->
  Forall2 (slot_of (ab_stat_mask b) (ab_body_schema b)) slots (ab_samples b) ->
  Forall (fun slot => length slot = Z.to_nat (ab_sample_size b)) slots ->
  decode_metric_aggregate (encode_aggregate b slots) = Ok (MetricAggregateBatch b) /\
  (forall extra, extra <> [] -> decode_metric_aggregate (encode_aggregate b slots ++ extra) = Err tt) /\
  (forall k, (k < length (encode_aggregate b slots))%nat ->
     decode_metric_aggregate (take k (encode_aggregate b slots)) = Err tt).
Proof.
  intros Hw Hslots Hsize. pose proof (rows_length b slots Hw Hslots Hsize) as Hlen. rewrite encode_front. split_and!.
  - rewrite decode_front by done. rewrite Hlen, Nat.eqb_refl. by apply body_read.
  - intros extra Hx. rewrite <- app_assoc, decode_front by done. rewrite (proj2 (Nat.eqb_neq _ _)); [done|].
    rewrite length_app, Hlen. destruct extra; [done|]. simpl. lia.
  - intros k Hk. by apply decode_cut.
Qed.
