(* ===== verification/Router.v ===== *)
(** * The ADS router (crates/tc-otel-ads: router.rs)

    One inbound AMS frame is dispatched on its command: every command is
    answered, and a write to the service's own port feeds the log, trace and
    push-diagnostic channels and the task registry. The channels are the
    [Mpsc] interface; the router's state is passed explicitly. *)

From S2P Require Import Prelude.
From S2P Require Import Text.
From S2P Require Import External.
From S2P Require Import Models.
From S2P Require Import Protocol.
From S2P Require Import Ams.
From S2P Require Import Reader.
From S2P Require Import Parser.
From S2P Require Import Wire.
From S2P Require Import Batch.
From S2P Require Import Registry.
From S2P Require Import Diagnostics.
From S2P Require Import PushDecode.

(** ** The router *)

Section Router.
Context `{Ext : External} `{M : Mpsc}.

Record AdsRouter := mkRouter {
  ar_ads_port : Z;
  ar_log_tx : Sender LogEntry;
  ar_metric_tx : option (Sender MetricEntry);
  ar_push_tx : option (Sender (AmsNetId * DiagEvent));
  ar_trace_tx : option (Sender (AmsNetId * Z * TraceWireEvent));
  ar_registry : TaskRegistry;
}.

Definition AdsRouter_new (ads_port : Z) (log_tx : Sender LogEntry)
    (metric_tx : option (Sender MetricEntry)) (registry : TaskRegistry) : AdsRouter :=
  mkRouter ads_port log_tx metric_tx None None registry.

Definition with_push_sender (tx : Sender (AmsNetId * DiagEvent)) (r : AdsRouter) : AdsRouter :=
  mkRouter (ar_ads_port r) (ar_log_tx r) (ar_metric_tx r) (Some tx) (ar_trace_tx r)
    (ar_registry r).

Definition with_trace_sender (tx : Sender (AmsNetId * Z * TraceWireEvent)) (r : AdsRouter)
    : AdsRouter :=
  mkRouter (ar_ads_port r) (ar_log_tx r) (ar_metric_tx r) (ar_push_tx r) (Some tx)
    (ar_registry r).

Definition set_log_tx (tx : Sender LogEntry) (r : AdsRouter) : AdsRouter :=
  mkRouter (ar_ads_port r) tx (ar_metric_tx r) (ar_push_tx r) (ar_trace_tx r) (ar_registry r).
Definition set_metric_tx (tx : option (Sender MetricEntry)) (r : AdsRouter) : AdsRouter :=
  mkRouter (ar_ads_port r) (ar_log_tx r) tx (ar_push_tx r) (ar_trace_tx r) (ar_registry r).
Definition set_registry (reg : TaskRegistry) (r : AdsRouter) : AdsRouter :=
  mkRouter (ar_ads_port r) (ar_log_tx r) (ar_metric_tx r) (ar_push_tx r) (ar_trace_tx r) reg.

(** [AdsRouter::build_response]. *)
Definition build_response (h : AmsHeader) (payload : bytes) : bytes :=
  let rh := AmsHeader_make_response h 0 in
  let rh := mkHeader (target_net_id rh) (target_port rh) (source_net_id rh) (source_port rh)
              (command_id rh) 5 (wrap 32 (len payload)) (error_code rh) (invoke_id rh) in
  AmsHeader_serialize rh ++ payload.

(** ** Writes *)

Definition task_key (net : string) (port task_index : Z) : RegistrationKey :=
  mkKey net port task_index.

Definition metadata_of (reg : RegistrationMessage) : TaskMetadata :=
  mkMetadata (rm_task_name reg) (rm_app_name reg) (rm_project_name reg)
    (rm_online_change_count reg) (rm_app_port reg).

(** The registration loop. *)
Definition register_all (net : string) (port : Z) (regs : list RegistrationMessage)
    (registry : TaskRegistry) : TaskRegistry :=
  fold_left (fun registry reg =>
    register (task_key net port (rm_task_index reg)) (metadata_of reg) registry) regs registry.

(** The metadata a v2 entry inherits; v1 entries carry their own. *)
Definition entry_metadata (net : string) (port : Z) (registry : TaskRegistry) (e : AdsLogEntry)
    : option TaskMetadata :=
  if version_eqb (al_version e) V2
  then lookup_task (task_key net port (wrap 8 (al_task_index e))) registry
  else None.

(** The body of the entry loop up to the send. *)
Definition log_entry_for (now : DateTime) (local_ip : string) (net : string) (port : Z)
    (peer : option string) (registry : TaskRegistry) (uuid : string) (e : AdsLogEntry)
    : LogEntry :=
  let m := entry_metadata net port registry e in
  let from_md {A} (f : TaskMetadata -> A) (d : A) := match m with Some m => f m | None => d end in
  let le := LogEntry_new uuid now (default local_ip peer) "" (al_message e) (al_logger e)
              (al_level e) in
  {| le_id := le_id le; le_source := le_source le; le_hostname := le_hostname le;
     le_ams_net_id := net; le_ams_source_port := port;
     le_ams_app_port := from_md tm_app_port 0;
     le_message := le_message le; le_logger := le_logger le; le_level := le_level le;
     le_plc_timestamp := al_plc_timestamp e; le_clock_timestamp := al_clock_timestamp e;
     le_task_index := al_task_index e; le_task_name := from_md tm_task_name (al_task_name e);
     le_task_cycle_counter := al_task_cycle_counter e;
     le_app_name := from_md tm_app_name (al_app_name e);
     le_project_name := from_md tm_project_name (al_project_name e);
     le_online_change_count := from_md tm_online_change_count (al_online_change_count e);
     le_trace_id := al_trace_id e; le_span_id := al_span_id e;
     le_arguments := al_arguments e; le_context := al_context e |}.

(** A sequence of [try_send]s whose results are ignored. *)
Definition send_all {A} (tx : Sender A) (l : list A) : Sender A :=
  fold_left (fun tx a => (try_send tx a).1) l tx.

(** What a write needs from its environment: the clock, the identifiers the
    entries of the buffer get, and the host's own address. *)
Record WriteEnv := mkWriteEnv {
  we_now : DateTime;
  we_uuid : nat -> string;
  we_local_ip : string;
}.

Definition log_entries_for (env : WriteEnv) (net : string) (port : Z) (peer : option string)
    (registry : TaskRegistry) (es : list AdsLogEntry) : list LogEntry :=
  imap (fun i e =>
    log_entry_for (we_now env) (we_local_ip env) net port peer registry (we_uuid env i) e) es.

(** The trace events go out tagged with their source. *)
Definition send_trace_events (net : string) (port : Z) (evs : list TraceWireEvent)
    (tx : option (Sender (AmsNetId * Z * TraceWireEvent)))
    : option (Sender (AmsNetId * Z * TraceWireEvent)) :=
  match tx with
  | None => None
  | Some tx =>
    match AmsNetId_from_str_ref net with
    | Ok net_id => Some (send_all tx (map (fun ev => (net_id, port, ev)) evs))
    | _ => Some tx
    end
  end.

(** [AdsRouter::dispatch_write_sync]; a buffer that does not parse is dropped
    ([parse_all] itself never panics, see [Parser]). *)
Definition dispatch_write_sync (env : WriteEnv) (net : string) (port : Z) (peer : option string)
    (data : bytes) (r : AdsRouter) : AdsRouter :=
  match parse_all (we_now env) data with
  | Ok pr =>
    let registry := register_all net port (pr_registrations pr) (ar_registry r) in
    mkRouter (ar_ads_port r)
      (send_all (ar_log_tx r) (log_entries_for env net port peer registry (pr_entries pr)))
      (ar_metric_tx r) (ar_push_tx r)
      (send_trace_events net port (pr_trace_events pr) (ar_trace_tx r))
      registry
  | _ => r
  end.

(** The metric loop of [dispatch_write]. *)
Definition metric_entry_for (local_ip : string) (net : string) (port : Z) (peer : option string)
    (registry : TaskRegistry) (me : AdsMetricEntry) : MetricEntry :=
  let m := lookup_task (task_key net port (wrap 8 (am_task_index me))) registry in
  let from_md {A} (f : TaskMetadata -> A) (d : A) := match m with Some m => f m | None => d end in
  {| me_name := am_name me; me_description := am_description me; me_unit := am_unit me;
     me_kind := am_kind me; me_value := am_value me; me_timestamp := am_timestamp me;
     me_source := default local_ip peer; me_hostname := ""; me_ams_net_id := net;
     me_ams_source_port := port; me_ams_app_port := from_md tm_app_port 0;
     me_task_index := am_task_index me; me_task_name := from_md tm_task_name "";
     me_task_cycle_counter := am_task_cycle_counter me;
     me_app_name := from_md tm_app_name ""; me_project_name := from_md tm_project_name "";
     me_scope_namespace := ""; me_attributes := am_attributes me;
     me_histogram_bounds := am_histogram_bounds me; me_histogram_counts := am_histogram_counts me;
     me_histogram_count := am_histogram_count me; me_histogram_sum := am_histogram_sum me;
     me_is_monotonic := am_is_monotonic me; me_trace_id := zeros 16; me_span_id := zeros 8 |}.

(** [AdsRouter::dispatch_write], which nothing calls. *)
Definition dispatch_write (env : WriteEnv) (net : string) (port : Z) (peer : option string)
    (data : bytes) (r : AdsRouter) : AdsRouter :=
  match parse_all (we_now env) data with
  | Ok pr =>
    let registry := register_all net port (pr_registrations pr) (ar_registry r) in
    mkRouter (ar_ads_port r)
      (send_all (ar_log_tx r) (log_entries_for env net port peer registry (pr_entries pr)))
      (match ar_metric_tx r with
       | None => None
       | Some tx => Some (send_all tx
           (map (metric_entry_for (we_local_ip env) net port peer registry) (pr_metrics pr)))
       end)
      (ar_push_tx r) (ar_trace_tx r) registry
  | _ => r
  end.

(** The push-diagnostic branch: the decoded event, if any. *)
Definition decode_push (wr : AdsWriteRequest) : decoded DiagEvent :=
  if index_offset wr =? IO_PUSH_BATCH then decode_batch (write_data wr)
  else if index_offset wr =? IO_PUSH_METRIC_AGG then decode_metric_aggregate (write_data wr)
  else Err tt.

Definition dispatch_push (source : AmsNetId) (wr : AdsWriteRequest) (r : AdsRouter)
    : outcome AdsError unit * AdsRouter :=
  match decode_push wr with
  | Ok ev =>
    match ar_push_tx r with
    | Some tx => (Ok tt, with_push_sender (try_send tx (source, ev)).1 r)
    | None => (Ok tt, r)
    end
  | Err _ => (Ok tt, r)
  | Panic => (Panic, r)
  | OutOfFuel => (OutOfFuel, r)
  end.

(** The [ADS_CMD_WRITE] arm behind the response. *)
Definition handle_write (env : WriteEnv) (h : AmsHeader) (peer : option string)
    (payload : bytes) (r : AdsRouter) : outcome AdsError unit * AdsRouter :=
  match AdsWriteRequest_parse payload with
  | Ok wr =>
    if target_port h =? ar_ads_port r then
      if index_group wr =? IG_PUSH_DIAG then dispatch_push (source_net_id h) wr r
      else (Ok tt, dispatch_write_sync env (AmsNetId_to_string (source_net_id h)) (source_port h)
                     peer (write_data wr) r)
    else (Ok tt, r)
  | Err _ => (Ok tt, r)
  | Panic => (Panic, r)
  | OutOfFuel => (OutOfFuel, r)
  end.

Definition not_supported : bytes := le_encode 4 ADSERR_DEVICE_SRVNOTSUPP.

(** The device-info payload: result, version 0.1, build 1, name. *)
Definition device_info : bytes :=
  le_encode 4 0 ++ [0] ++ [1] ++ le_encode 2 1 ++
  bytes_of_string "tc-otel" ++ replicate 9 0.

(** The payload of the answer to a read: that many zeros. *)
Definition read_answer (frame : bytes) : outcome AdsError bytes :=
  (read_len <-- (if (44 <=? length frame)%nat then le_or_panic frame 40 44 else Ok 0) ;;
   Ok (le_encode 4 0 ++ le_encode 4 read_len ++ replicate (Z.to_nat read_len) 0))%rust.

(** [AdsRouter::dispatch]. *)
Definition dispatch (env : WriteEnv) (frame : bytes) (peer : option string) (r : AdsRouter)
    : outcome AdsError (option bytes) * AdsRouter :=
  if (length frame <? 32)%nat then (Err (ParseError "AMS frame too short"), r)
  else
    match AmsHeader_parse frame with
    | Ok h =>
      let answer payload := (Ok (Some (build_response h payload)), r) in
      let cmd := command_id h in
      if cmd =? ADS_CMD_READ_STATE then answer [0; 0; 0; 0; 5; 0; 0; 0]
      else if cmd =? ADS_CMD_READ_DEVICE_INFO then answer device_info
      else if cmd =? ADS_CMD_READ then
        match read_answer frame with
        | Ok p => answer p
        | Err e => (Err e, r)
        | Panic => (Panic, r)
        | OutOfFuel => (OutOfFuel, r)
        end
      else if cmd =? ADS_CMD_WRITE then
        match slice_or_panic frame 32 (length frame) with
        | Ok payload =>
          match handle_write env h peer payload r with
          | (Ok _, r') => (Ok (Some (build_response h [0; 0; 0; 0])), r')
          | (Err e, r') => (Err e, r')
          | (Panic, r') => (Panic, r')
          | (OutOfFuel, r') => (OutOfFuel, r')
          end
        | Err e => (Err e, r)
        | Panic => (Panic, r)
        | OutOfFuel => (OutOfFuel, r)
        end
      else if cmd =? ADS_CMD_READ_WRITE then answer (not_supported ++ le_encode 4 0)
      else if cmd =? ADS_CMD_WRITE_CONTROL then answer not_supported
      else if cmd =? ADS_CMD_ADD_NOTIFICATION then answer (not_supported ++ le_encode 4 0)
      else if cmd =? ADS_CMD_DEL_NOTIFICATION then answer not_supported
      else if cmd =? ADS_CMD_NOTIFICATION then answer not_supported
      else answer not_supported
    | Err e => (Err e, r)
    | Panic => (Panic, r)
    | OutOfFuel => (OutOfFuel, r)
    end.


(** ** Every request is answered *)

(** The answer [resp] to the request [h]: it decodes, its ends are swapped,
    command and invoke id are echoed, it is marked as a response without AMS
    error, and its length field is right. *)
Definition answers (h : AmsHeader) (resp : bytes) : Prop :=
  exists f, AmsFrame_decode resp = Ok f /\
    target_net_id (header f) = source_net_id h /\ target_port (header f) = source_port h /\
    source_net_id (header f) = target_net_id h /\ source_port (header f) = target_port h /\
    command_id (header f) = command_id h /\ invoke_id (header f) = invoke_id h /\
    state_flags (header f) = ADS_STATE_RESPONSE /\ error_code (header f) = 0 /\
    data_length (header f) = wrap 32 (len (payload f)).

Lemma build_response_answers h p : wf_header h -> answers h (build_response h p).
Proof.
  intros [Ht Htp Hs Hsp Hc Hf Hl He Hi].
  set (rh := mkHeader (source_net_id h) (source_port h) (target_net_id h) (target_port h)
    (command_id h) 5 (wrap 32 (len p)) 0 (invoke_id h)).
  exists (mkFrame rh p). split; [|done].
  apply (AmsFrame_decode_encode (mkFrame rh p)). split; simpl; try done.
  unfold in_width, wrap. apply Z.mod_pos_bound. lia.
Qed.

Lemma read_answer_ok frame : exists p, read_answer frame = Ok p.
Proof.
  unfold read_answer. destruct (Nat.leb_spec 44 (length frame)); [|eauto].
  rewrite le_or_panic_spec by lia. eauto.
Qed.

Lemma AdsWriteRequest_parse_completes data : is_bytes data -> completes (AdsWriteRequest_parse data).
Proof.
  intros Hb. unfold AdsWriteRequest_parse. destruct (Nat.ltb_spec (length data) 12); [done|].
  rewrite !le_or_panic_spec by lia. cbn [outcome_bind]. set (n := le_decode _).
  assert (0 <= n) by (apply le_decode_nonneg, Forall_take, Forall_drop; done).
  case_match; [done|]. to_prop. unfold len in *. rewrite slice_or_panic_spec by lia. done.
Qed.

Lemma AdsWriteRequest_parse_bytes data wr :
  is_bytes data -> AdsWriteRequest_parse data = Ok wr -> is_bytes (write_data wr).
Proof.
  intros Hb. unfold AdsWriteRequest_parse. destruct (Nat.ltb_spec (length data) 12); [done|].
  rewrite !le_or_panic_spec by lia. cbn [outcome_bind]. case_match; [done|].
  unfold slice_or_panic. destruct (slice_at _ _ _) as [body|] eqn:Hs; [|done].
  cbn [outcome_bind]. intros [= <-]. by eapply slice_at_is_bytes.
Qed.

Lemma decode_push_completes wr : is_bytes (write_data wr) -> completes (decode_push wr).
Proof.
  intros Hb. unfold decode_push. repeat case_match; try done.
  - eapply safe_dec_completes, safe_decode_batch.
  - by eapply safe_dec_completes, safe_decode_metric_aggregate.
Qed.

Lemma handle_write_ok env h peer p r :
  is_bytes p -> exists r', handle_write env h peer p r = (Ok tt, r').
Proof.
  intros Hb. unfold handle_write. pose proof (AdsWriteRequest_parse_completes p Hb) as Hc.
  destruct (AdsWriteRequest_parse p) as [wr|e| |] eqn:Hp; try done; [|eauto].
  case_match; [|eauto]. case_match; [|eauto]. unfold dispatch_push.
  pose proof (decode_push_completes wr ltac:(by eapply AdsWriteRequest_parse_bytes)) as Hd.
  destruct (decode_push wr); try done; [|eauto]. case_match; eauto.
Qed.

Lemma dispatch_reply env frame peer r :
  is_bytes frame -> (32 <= length frame)%nat ->
  exists h resp r', AmsHeader_parse frame = Ok h /\
    dispatch env frame peer r = (Ok (Some resp), r') /\ answers h resp.
Proof.
  intros Hb Hl. unfold dispatch. rewrite (proj2 (Nat.ltb_ge _ _)) by lia.
  destruct (AmsHeader_parse_wf frame Hb Hl) as (h & -> & Hwf & _).
  exists h. destruct (read_answer_ok frame) as [rp ->].
  rewrite slice_or_panic_spec by lia.
  destruct (handle_write_ok env h peer (take (length frame - 32) (drop 32 frame)) r)
    as [r' ->]; [by apply Forall_take, Forall_drop|].
  repeat (case_match; [eexists _, _; split_and!; [done..|by apply build_response_answers]|]).
  eexists _, _; split_and!; [done..|by apply build_response_answers].
Qed.

(** ** Effects of a frame *)

(** Only a write request addressed to the service's own port has an
    effect: any other frame leaves channels and registry as they are. *)
Theorem dispatch_effect_only_own_writes env frame peer r :
  (forall h, AmsHeader_parse frame = Ok h ->
     command_id h <> ADS_CMD_WRITE \/ target_port h <> ar_ads_port r) ->
  (dispatch env frame peer r).2 = r.
Proof.
  intros Hh. unfold dispatch. case_match; [done|].
  destruct (AmsHeader_parse frame) as [h|e| |]; try done. specialize (Hh h eq_refl).
  assert (Hw : command_id h = ADS_CMD_WRITE -> forall p, (handle_write env h peer p r).2 = r).
  { intros Hc p. destruct Hh as [?|Hp]; [done|]. unfold handle_write.
    destruct (AdsWriteRequest_parse p); try done. by rewrite (proj2 (Z.eqb_neq _ _)). }
  repeat (case_match; try done). all: to_prop; by specialize (Hw ltac:(done) a);
    match goal with H : handle_write _ _ _ _ _ = _ |- _ => rewrite H in Hw end.
Qed.

(** C23: Every AMS frame of at least 32 bytes, whatever its command and
    content, is answered without a panic by a response that decodes, with the
    ends swapped and the command and invoke id echoed, and unless it is a write to the service's own port it
    leaves channels and registry as they are; a shorter frame is an
    error and changes nothing. *)
Theorem dispatch_answers env frame peer r :
  is_bytes frame ->
  if (length frame <? 32)%nat
  then exists e, dispatch env frame peer r = (Err e, r)
  else exists h resp r', AmsHeader_parse frame = Ok h /\
         dispatch env frame peer r = (Ok (Some resp), r') /\ answers h resp /\
         (command_id h <> ADS_CMD_WRITE \/ target_port h <> ar_ads_port r -> r' = r).
Proof.
  intros Hb. destruct (Nat.ltb_spec (length frame) 32) as [Hl|Hl].
  - exists (ParseError "AMS frame too short"). unfold dispatch. by rewrite (proj2 (Nat.ltb_lt _ _)).
  - destruct (dispatch_reply env frame peer r Hb Hl) as (h & resp & r' & Hh & Hd & Ha). exists h, resp, r'. split_and!; try done.
    intros Hw. pose proof (dispatch_effect_only_own_writes env frame peer r) as He. rewrite Hd in He. apply He.
    intros h' Hh'. congruence.
Qed.

(** A write request as it stands in an AMS frame. *)
Definition write_frame (h : AmsHeader) (wr : AdsWriteRequest) : bytes :=
  AmsFrame_encode (mkFrame h (AdsWriteRequest_serialize wr)).

Record own_write (r : AdsRouter) (h : AmsHeader) (wr : AdsWriteRequest) : Prop := {
  ow_header : wf_header h;
  ow_command : command_id h = ADS_CMD_WRITE;
  ow_port : target_port h = ar_ads_port r;
  ow_group : in_width 32 (index_group wr);
  ow_offset : in_width 32 (index_offset wr);
  ow_length : in_width 32 (len (write_data wr));
}.

Lemma dispatch_write_frame env h wr peer r :
  own_write r h wr ->
  (dispatch env (write_frame h wr) peer r).2 =
  (if index_group wr =? IG_PUSH_DIAG then (dispatch_push (source_net_id h) wr r).2
   else dispatch_write_sync env (AmsNetId_to_string (source_net_id h)) (source_port h) peer
          (write_data wr) r).
Proof.
  intros [Hwf Hc Hp Hg Ho Hl]. unfold dispatch, write_frame.
  pose proof (length_AmsFrame_encode (mkFrame h (AdsWriteRequest_serialize wr)) Hwf) as Hlen.
  rewrite (proj2 (Nat.ltb_ge _ _)) by lia. unfold AmsFrame_encode at 1. cbn [header payload].
  rewrite AmsHeader_parse_app by done. rewrite Hc. cbn [Z.eqb Pos.eqb ADS_CMD_READ_STATE
    ADS_CMD_READ_DEVICE_INFO ADS_CMD_READ ADS_CMD_WRITE].
  rewrite slice_or_panic_spec by lia. unfold AmsFrame_encode at 2. cbn [header payload].
  rewrite drop_app_length' by (symmetry; by apply length_AmsHeader_serialize).
  rewrite Hlen, take_ge by (cbn [payload]; lia). unfold handle_write.
  replace (AdsWriteRequest_parse (AdsWriteRequest_serialize wr)) with
    (Ok (E:=AdsError) wr).
  2:{ unfold AdsWriteRequest_serialize. rewrite AdsWriteRequest_head by done.
      rewrite Z.ltb_irrefl. unfold len. rewrite Nat2Z.id, take_ge by done. by destruct wr. }
  rewrite Hp, Z.eqb_refl. destruct (index_group wr =? IG_PUSH_DIAG); [|done].
  by destruct (dispatch_push (source_net_id h) wr r) as [[| | |] r'].
Qed.

(** ** Channels *)

(** Every one of these sends is accepted. *)
Fixpoint accepts_all {A} (tx : Sender A) (l : list A) : bool :=
  match l with
  | [] => true
  | a :: l => (try_send tx a).2 && accepts_all (try_send tx a).1 l
  end.

Lemma send_all_queued `{!MpscLaws M} {A} (tx : Sender A) l :
  (exists sub, sub `sublist_of` l /\ queued (send_all tx l) = queued tx ++ sub) /\
  (accepts_all tx l = true -> queued (send_all tx l) = queued tx ++ l).
Proof.
  revert tx. induction l as [|a l IH]; intros tx.
  - split; [exists []|intros _]; by rewrite app_nil_r.
  - destruct (IH (try_send tx a).1) as [(sub & Hsub & Hq) Hall].
    cbn [send_all fold_left accepts_all]. fold (send_all (try_send tx a).1 l).
    rewrite (try_send_queued A tx a) in Hq, Hall. destruct (try_send tx a).2; split.
    + exists (a :: sub). split; [by constructor|]. by rewrite Hq, <- app_assoc.
    + intros H. by rewrite (Hall H), <- app_assoc.
    + exists sub. split; [by constructor|done].
    + done.
Qed.

Lemma dispatch_log_batch_facts `{!MpscLaws M} env h ig io l pad peer r tx :
  own_write r h (mkWrite ig io (encode_batch l ++ pad)) -> ig <> IG_PUSH_DIAG ->
  Forall (wf_msg (we_now env)) l -> is_padding pad = true ->
  len (encode_batch l ++ pad) <= MAX_MESSAGE_SIZE -> ar_trace_tx r = Some tx ->
  let net := AmsNetId_to_string (source_net_id h) in
  let pr := fold_left (collect (we_now env)) l empty_result in
  let r' := (dispatch env (write_frame h (mkWrite ig io (encode_batch l ++ pad))) peer r).2 in
  let logs := log_entries_for env net (source_port h) peer (ar_registry r') (pr_entries pr) in
  let events := map (fun ev => (source_net_id h, source_port h, ev)) (pr_trace_events pr) in
  ar_registry r' = register_all net (source_port h) (pr_registrations pr) (ar_registry r) /\
  (exists sub, sub `sublist_of` logs /\ queued (ar_log_tx r') = queued (ar_log_tx r) ++ sub) /\
  (accepts_all (ar_log_tx r) logs = true ->
     queued (ar_log_tx r') = queued (ar_log_tx r) ++ logs) /\
  ar_trace_tx r' = Some (send_all tx events) /\
  ar_metric_tx r' = ar_metric_tx r /\ ar_push_tx r' = ar_push_tx r.
Proof.
  intros Hw Hg Hl Hpad Hmax Htx net pr r'.
  assert (Hr' : r' = dispatch_write_sync env net (source_port h) peer (encode_batch l ++ pad) r).
  { unfold r'. rewrite dispatch_write_frame by done. cbn [index_group write_data].
    by rewrite (proj2 (Z.eqb_neq _ _)). }
  rewrite Hr'. unfold dispatch_write_sync.
  replace (parse_all (we_now env) (encode_batch l ++ pad)) with (Ok (E:=AdsError) pr).
  2:{ rewrite parse_all_prefix by done. symmetry.
      by apply (parse_loop_padding _ _ _ (encode_batch l)). }
  cbn [ar_registry ar_log_tx ar_trace_tx ar_metric_tx ar_push_tx].
  set (logs := log_entries_for _ _ _ _ _ _).
  destruct (send_all_queued (ar_log_tx r) logs) as [H1 H2]. split_and!; try done.
  unfold send_trace_events, net. rewrite Htx, AmsNetId_from_to_string; [done|]. by destruct Hw as [[]].
Qed.

(** A log write end to end: for a write to the service's port whose data
    is a well-formed buffer of messages, the registrations of the buffer are
    entered first, the log queue gains the buffer's log entries in order,
    enriched from the updated registry (fewer only when the channel is full or
    closed, all of them when it takes them), the trace queue gains the span
    events tagged with the sender's Net ID and port; the metric channel is
    left alone: metrics in the buffer are dropped. *)
Theorem dispatch_log_batch `{!MpscLaws M} env h ig io l pad peer r tx :
  own_write r h (mkWrite ig io (encode_batch l ++ pad)) -> ig <> IG_PUSH_DIAG ->
  Forall (wf_msg (we_now env)) l -> is_padding pad = true ->
  len (encode_batch l ++ pad) <= MAX_MESSAGE_SIZE -> ar_trace_tx r = Some tx ->
  let net := AmsNetId_to_string (source_net_id h) in
  let pr := fold_left (collect (we_now env)) l empty_result in
  let r' := (dispatch env (write_frame h (mkWrite ig io (encode_batch l ++ pad))) peer r).2 in
  let logs := log_entries_for env net (source_port h) peer (ar_registry r') (pr_entries pr) in
  let events := map (fun ev => (source_net_id h, source_port h, ev)) (pr_trace_events pr) in
  ar_registry r' = register_all net (source_port h) (pr_registrations pr) (ar_registry r) /\
  (exists sub, sub `sublist_of` logs /\ queued (ar_log_tx r') = queued (ar_log_tx r) ++ sub) /\
  (accepts_all (ar_log_tx r) logs = true ->
     queued (ar_log_tx r') = queued (ar_log_tx r) ++ logs) /\
  ar_trace_tx r' = Some (send_all tx events) /\
  ar_metric_tx r' = ar_metric_tx r /\ ar_push_tx r' = ar_push_tx r.
Proof. apply dispatch_log_batch_facts. Qed.

(** ** Enrichment *)

Lemma register_all_other net port regs registry k :
  (forall reg, reg ∈ regs -> task_key net port (rm_task_index reg) <> k) ->
  register_all net port regs registry !! k = registry !! k.
Proof.
  revert registry. induction regs as [|reg regs IH]; intros registry Hk; [done|].
  cbn [register_all fold_left]. fold (register_all net port regs).
  unfold register_all in IH. rewrite IH; [|intros; apply Hk; by right].
  apply lookup_insert_ne, Hk. by left.
Qed.

(** Registrations apply to the whole buffer and the last one wins: a v2
    log entry gets task, application and project name, online-change count and
    application port of the last registration of its task in the buffer, also
    when that registration stands behind the entry; without one, those of the
    registry; and its own message, level and identifiers are untouched. *)
Theorem v2_entry_enriched now ip net port peer registry uuid e l1 reg l2 :
  al_version e = V2 -> is_u8 (al_task_index e) -> rm_task_index reg = al_task_index e ->
  (forall reg', reg' ∈ l2 -> rm_task_index reg' <> al_task_index e) ->
  let le := log_entry_for now ip net port peer
              (register_all net port (l1 ++ reg :: l2) registry) uuid e in
  le_task_name le = rm_task_name reg /\ le_app_name le = rm_app_name reg /\
  le_project_name le = rm_project_name reg /\
  le_online_change_count le = rm_online_change_count reg /\
  le_ams_app_port le = rm_app_port reg /\ le_message le = al_message e /\
  le_level le = al_level e /\ le_task_index le = al_task_index e /\
  le_trace_id le = al_trace_id e /\ le_span_id le = al_span_id e.
Proof.
  intros Hv Hi Hreg Hl2. simpl. unfold entry_metadata. rewrite Hv. cbn [version_eqb].
  unfold version_eqb, lookup_task. cbn [AdsProtocolVersion_as_u8 Z.eqb Pos.eqb].
  unfold wrap. rewrite Z.mod_small by done.
  unfold register_all. rewrite fold_left_app. cbn [fold_left].
  fold (register_all net port l1 registry).
  fold (register_all net port l2
    (register (task_key net port (rm_task_index reg)) (metadata_of reg)
       (register_all net port l1 registry))).
  rewrite register_all_other.
  - unfold register. rewrite Hreg, lookup_insert_eq. done.
  - intros reg' Hin [=]. by apply (Hl2 reg').
Qed.

(** A task-diagnostic batch pushed by a PLC arrives: the push channel
    gains exactly that batch, tagged with the sender's Net ID, when it takes
    it, and nothing else changes. *)
Theorem dispatch_push_batch `{!MpscLaws M} env h b peer r tx :
  own_write r h (mkWrite IG_PUSH_DIAG IO_PUSH_BATCH (encode_diag_batch b)) ->
  wf_diag_batch b -> ar_push_tx r = Some tx ->
  let r' := (dispatch env (write_frame h (mkWrite IG_PUSH_DIAG IO_PUSH_BATCH
               (encode_diag_batch b))) peer r).2 in
  exists tx', ar_push_tx r' = Some tx' /\
    queued tx' = (if (try_send tx (source_net_id h, TaskDiagBatch b)).2
                  then queued tx ++ [(source_net_id h, TaskDiagBatch b)] else queued tx) /\
    ar_registry r' = ar_registry r /\ ar_log_tx r' = ar_log_tx r /\
    ar_trace_tx r' = ar_trace_tx r /\ ar_metric_tx r' = ar_metric_tx r.
Proof.
  intros Hw Hb Htx. rewrite dispatch_write_frame by done.
  cbn [index_group Z.eqb Pos.eqb IG_PUSH_DIAG]. unfold dispatch_push, decode_push.
  cbn [index_offset write_data Z.eqb IO_PUSH_BATCH].
  rewrite decode_batch_roundtrip by done. rewrite Htx. eexists. split; [done|].
  split; [apply try_send_queued|done].
Qed.

End Router.
