(* ===== verification/Bridge.v ===== *)
(** * The diagnostics bridge (crates/tc-otel-service: diagnostics_bridge.rs)

    From a diagnostic event, pushed by a PLC or polled, to the metric entries
    that go out for it, and the task of service.rs that drains the push
    channel: it converts each event, completes the entries from the task
    registry and queues them. The address of the host and the clock are
    arguments; the readings of the clock during one conversion are taken as
    one, they only date entries that carry no time of their own. *)

From S2P Require Import Prelude.
From S2P Require Import Text.
From S2P Require Import External.
From S2P Require Import Float.
From S2P Require Import Ams.
From S2P Require Import Models.
From S2P Require Import Protocol.
From S2P Require Import Registry.
From S2P Require Import Diagnostics.
From S2P Require Import PushDecode.
From S2P Require Import Router.

(** ** Constants (diagnostics.rs) *)

Definition SAMPLE_FLAG_CYCLE_EXCEED : Z := 1.
Definition SAMPLE_FLAG_RT_VIOLATION : Z := 2.
Definition SAMPLE_FLAG_OVERFLOW : Z := 8.

(** [format!("{:?}", body_schema).to_lowercase()]. *)
Definition schema_label (s : MetricBodySchema) : string :=
  match s with
  | SchemaBool => "bool"
  | SchemaNumeric => "numeric"
  | SchemaDiscrete => "discrete"
  | SchemaString => "string"
  | SchemaWstring => "wstring"
  | SchemaNumericAggregated => "numericaggregated"
  end.

(** A little-endian unsigned integer of at most 8 bytes. *)
Definition discrete_bytes_to_f64 (raw : bytes) : Z := f64_of_Z (le_decode (take 8 raw)).

(** ** Times of the samples of an aggregate batch *)

(** [span_ns]; the subtraction is on [i64]. *)
Definition agg_span_ns (b : AggregateBatch) : Z :=
  Z.max (to_signed 64 (ab_dc_time_end b - ab_dc_time_start b)) 0.

(** [cycle_time_ns]. *)
Definition agg_cycle_time_ns (b : AggregateBatch) : option Z :=
  let cycles_in_window := wrap 32 (ab_cycle_count_end b - ab_cycle_count_start b) in
  if (0 <? cycles_in_window) && (0 <? agg_span_ns b)
  then Some (Z.quot (agg_span_ns b) cycles_in_window) else None.

(** Linear interpolation over the window. *)
Definition agg_linear_ts (b : AggregateBatch) (i : nat) : Z :=
  let n := length (ab_samples b) in
  if (n =? 1)%nat then ab_dc_time_start b
  else
    let denom := Z.max (Z.of_nat n - 1) 1 in
    to_signed 64 (ab_dc_time_start b + Z.quot (to_signed 64 (Z.of_nat i * agg_span_ns b)) denom).

(** [ts_ns] of sample [i]. *)
Definition agg_sample_ts (b : AggregateBatch) (i : nat) : Z :=
  match ab_sample_dc_times b ≫= (.!! i) with
  | Some dc => dc
  | None =>
    match ab_sample_cycle_offsets b ≫= (.!! i), agg_cycle_time_ns b with
    | Some o, Some cns => to_signed 64 (ab_dc_time_start b + to_signed 64 (o * cns))
    | _, _ => agg_linear_ts b i
    end
  end.

(** The walk over [METRIC_STAT_ORDER]: the set bits with their values. *)
Fixpoint stat_values (order : list (Z * string)) (stat_mask : Z) (values : list Z)
    : list (string * Z) :=
  match order with
  | [] => []
  | (bit, suffix) :: order =>
    if Z.land stat_mask bit =? 0 then stat_values order stat_mask values
    else
      match values with
      | [] => []
      | v :: values => (suffix, v) :: stat_values order stat_mask values
      end
  end.

(** The value of a sample that is one number; strings have none. *)
Definition sample_value (s : MetricAggregateSample) : option Z :=
  match s with
  | SampleBool b => Some (if b then f64_of_Z 1 else f64_of_Z 0)
  | SampleNumeric v => Some v
  | SampleDiscrete raw => Some (discrete_bytes_to_f64 raw)
  | SampleString _ | SampleWstring _ => None
  | SampleNumericAggregated _ _ => None
  end.

(** The names and values that go out for a sample. *)
Definition sample_points (name : string) (s : MetricAggregateSample) : list (string * Z) :=
  match s with
  | SampleNumericAggregated stat_mask values =>
    map (fun sv => (name +:+ "." +:+ sv.1, sv.2)) (stat_values METRIC_STAT_ORDER stat_mask values)
  | _ => match sample_value s with Some v => [(name, v)] | None => [] end
  end.

Section Bridge.
Context `{Ext : External}.
(** [local_source_address()] and [Utc::now()]. *)
Variable local : string.
Variable now : DateTime.

(** [dc_time_to_datetime] of the bridge: seconds rounded towards zero, the
    rest as a non-negative remainder. *)
Definition bridge_dc_time (dc_ns : Z) : DateTime :=
  default now (from_timestamp (946684800 + Z.quot dc_ns 1000000000) (dc_ns mod 1000000000)).

(** ** Entries *)

(** An entry with some of its fields set. *)
Definition me_set (description unit : string) (timestamp : DateTime) (source ams_net_id : string)
    (ams_source_port ams_app_port task_index : Z) (task_name app_name project_name : string)
    (scope_namespace : string) (attributes : attrs) (trace_id span_id : bytes) (m : MetricEntry)
    : MetricEntry :=
  {| me_name := me_name m; me_description := description; me_unit := unit; me_kind := me_kind m;
     me_value := me_value m; me_timestamp := timestamp; me_source := source;
     me_hostname := me_hostname m; me_ams_net_id := ams_net_id;
     me_ams_source_port := ams_source_port; me_ams_app_port := ams_app_port;
     me_task_index := task_index; me_task_name := task_name;
     me_task_cycle_counter := me_task_cycle_counter m; me_app_name := app_name;
     me_project_name := project_name; me_scope_namespace := scope_namespace;
     me_attributes := attributes; me_histogram_bounds := me_histogram_bounds m;
     me_histogram_counts := me_histogram_counts m; me_histogram_count := me_histogram_count m;
     me_histogram_sum := me_histogram_sum m; me_is_monotonic := me_is_monotonic m;
     me_trace_id := trace_id; me_span_id := span_id |}.

Definition source_or_local (m : MetricEntry) : string :=
  if String.eqb (me_source m) "" then local else me_source m.

Definition with_ams (net_id : string) (m : MetricEntry) : MetricEntry :=
  me_set (me_description m) (me_unit m) (me_timestamp m) (source_or_local m) net_id
    (me_ams_source_port m) (me_ams_app_port m) (me_task_index m) (me_task_name m) (me_app_name m)
    (me_project_name m) (me_scope_namespace m) (me_attributes m) (me_trace_id m) (me_span_id m) m.

Definition with_task (net_id : string) (task_port : Z) (task_name : string) (m : MetricEntry)
    : MetricEntry :=
  me_set (me_description m) (me_unit m) (me_timestamp m) (source_or_local m) net_id task_port
    (me_ams_app_port m) (me_task_index m) task_name (me_app_name m) (me_project_name m)
    (me_scope_namespace m) (me_attributes m) (me_trace_id m) (me_span_id m) m.

(** [with_sample_attrs]. *)
Definition with_sample_attrs (m : MetricEntry) (s : DiagSample) : MetricEntry :=
  me_set (me_description m) (me_unit m) (me_timestamp m) (me_source m) (me_ams_net_id m)
    (me_ams_source_port m) (me_ams_app_port m) (me_task_index m) (me_task_name m) (me_app_name m)
    (me_project_name m) (me_scope_namespace m)
    (<["exec_time_us" := json_int (ds_exec_time_us s)]>
       (<["dc_time_ns" := json_int (ds_dc_time s)]>
          (<["cycle_count" := json_int (ds_cycle_count s)]> (me_attributes m))))
    (me_trace_id m) (me_span_id m) m.

(** [m.timestamp = ts]. *)
Definition at_time (ts : DateTime) (m : MetricEntry) : MetricEntry :=
  me_set (me_description m) (me_unit m) ts (me_source m) (me_ams_net_id m) (me_ams_source_port m)
    (me_ams_app_port m) (me_task_index m) (me_task_name m) (me_app_name m) (me_project_name m)
    (me_scope_namespace m) (me_attributes m) (me_trace_id m) (me_span_id m) m.

(** ** Aggregate batches *)

Definition agg_attributes (b : AggregateBatch) : attrs :=
  let a : attrs :=
    <["sample_size" := json_int (ab_sample_size b)]>
      (<["body_schema" := VString (schema_label (ab_body_schema b))]>
         {["metric_id" := json_int (ab_metric_id b)]}) in
  if flag (ab_flags b) METRIC_FLAG_RING_OVERFLOWED then <["ring_overflowed" := VBool true]> a else a.

(** [build_aggregate_entry]; the entry of a sample that is one number is built
    by the same statements in line. *)
Definition build_aggregate_entry (net_id : string) (b : AggregateBatch) (ts_ns : Z)
    (point : string * Z) : MetricEntry :=
  let m := MetricEntry_gauge now point.1 point.2 in
  me_set (me_description m) (ab_unit b) (bridge_dc_time ts_ns) local net_id
    (me_ams_source_port m) (me_ams_app_port m) (ab_task_index b) (me_task_name m) (me_app_name m)
    (me_project_name m) (ab_scope_namespace b) (agg_attributes b)
    (default (me_trace_id m) (ab_trace_id b)) (default (me_span_id m) (ab_span_id b)) m.

Definition metric_aggregate_to_entries (net_id : string) (b : AggregateBatch) : list MetricEntry :=
  concat (imap (fun i s => map (build_aggregate_entry net_id b (agg_sample_ts b i))
                             (sample_points (ab_name b) s)) (ab_samples b)).

(** ** Task batches *)

(** The edge events of one sample. *)
Definition sample_edges (net_id : string) (b : DiagBatch) (s : DiagSample) : list MetricEntry :=
  let sample_ts := bridge_dc_time (ds_dc_time s) in
  let edge m :=
    at_time sample_ts (with_sample_attrs (with_task net_id (db_task_port b) (db_task_name b) m) s) in
  (if flag (ds_flags s) SAMPLE_FLAG_CYCLE_EXCEED then
     [edge (MetricEntry_sum now "tc.task.cycle_exceed_edge" (f64_of_Z 1) false);
      edge (MetricEntry_gauge now "tc.task.cycle_exceed_exec_us" (f64_of_Z (ds_exec_time_us s)))]
   else []) ++
  (if flag (ds_flags s) SAMPLE_FLAG_RT_VIOLATION then
     [edge (MetricEntry_sum now "tc.task.rt_violation_edge" (f64_of_Z 1) false)]
   else []).

Definition batch_to_metrics (net_id : string) (b : DiagBatch) : list MetricEntry :=
  let task := with_task net_id (db_task_port b) (db_task_name b) in
  let gauge name v := task (MetricEntry_gauge now name (f64_of_Z v)) in
  let sum name v mono := task (MetricEntry_sum now name (f64_of_Z v) mono) in
  let overflow_seen := existsb (fun s => flag (ds_flags s) SAMPLE_FLAG_OVERFLOW) (db_samples b) in
  [gauge "tc.task.exec_time_min_us" (db_exec_time_min_us b);
   gauge "tc.task.exec_time_max_us" (db_exec_time_max_us b);
   gauge "tc.task.exec_time_avg_us" (db_exec_time_avg_us b);
   gauge "tc.task.window_ms" (db_window_ms b);
   gauge "tc.task.sample_count" (Z.of_nat (length (db_samples b)));
   sum "tc.task.cycle_count" (db_cycle_count_end b) true;
   sum "tc.task.cycle_exceed_window" (db_cycle_exceed_count b) false;
   sum "tc.task.rt_violation_window" (db_rt_violation_count b) false] ++
  concat (map (sample_edges net_id b) (db_samples b)) ++
  [gauge "tc.task.sample_buffer_overflow" (if overflow_seen then 1 else 0)].

(** ** Metric batches *)

(** The first bucket whose bound is above the value. *)
Definition bucket_index (bounds : list Z) (value : Z) : nat :=
  match list_find (fun b => f32_lt value b = true) bounds with
  | Some (i, _) => i
  | None => length bounds
  end.

(** The entry before its metadata is filled in; [None]: the sample is
    skipped. The bucket index is never out of range. *)
Definition sample_entry (desc : MetricDescriptor) (s : MetricSample) : option MetricEntry :=
  if md_kind desc =? 0 then Some (MetricEntry_gauge now (md_name desc) (f64_of_f32 (ms_value s)))
  else if md_kind desc =? 1 then
    Some (MetricEntry_sum now (md_name desc) (f64_of_f32 (ms_value s)) (flag (md_flags desc) 1))
  else if md_kind desc =? 2 then
    match md_histogram_bounds desc with
    | Some bounds =>
      Some (MetricEntry_histogram now (md_name desc) (map f64_of_f32 bounds)
        (<[bucket_index bounds (ms_value s) := 1]> (replicate (length bounds + 1) 0))
        1 (f64_of_f32 (ms_value s)))
    | None => None
    end
  else None.

Definition metric_batch_to_entries (net_id : string) (cache : gmap Z MetricDescriptor)
    (samples : list MetricSample) : list MetricEntry :=
  omap (fun s =>
    match cache !! ms_metric_id s with
    | None => None
    | Some desc =>
      (fun m =>
         me_set (md_description desc) (md_unit desc) (bridge_dc_time (ms_dc_time s)) local net_id
           (me_ams_source_port m) (me_ams_app_port m) (me_task_index m) (me_task_name m)
           (me_app_name m) (me_project_name m) (md_scope_namespace desc)
           (foldl (fun a (kv : string * string) => <[kv.1 := VString kv.2]> a) (me_attributes m)
              (md_attributes desc))
           (me_trace_id m) (me_span_id m) m) <$> sample_entry desc s
    end) samples.

(** The descriptors by id; a later one replaces an earlier one. *)
Definition descriptor_cache (descriptors : list MetricDescriptor) : gmap Z MetricDescriptor :=
  foldl (fun c d => <[md_metric_id d := d]> c) ∅ descriptors.

(** ** Events *)

Definition diag_event_to_metrics (target : AmsNetId) (ev : DiagEvent)
    (task_names : gmap (AmsNetId * Z) string) : list MetricEntry :=
  let net := AmsNetId_to_string target in
  match ev with
  | ExceedCounter value =>
    [with_ams net (MetricEntry_sum now "tc.rt.exceed_counter" (f64_of_Z value) true)]
  | ExceedReset => [with_ams net (MetricEntry_sum now "tc.rt.exceed_counter" (f64_of_Z 0) false)]
  | RtUsage peak_latency_us system_latency_us cpu_percent =>
    [with_ams net (MetricEntry_gauge now "tc.rt.cpu_usage_percent" (f64_of_Z cpu_percent));
     with_ams net (MetricEntry_gauge now "tc.rt.system_latency_us" (f64_of_Z system_latency_us));
     with_ams net (MetricEntry_gauge now "tc.rt.peak_latency_us" (f64_of_Z peak_latency_us))]
  | TaskStats task_port _ cycle_counter cpu_ticks_100ns exec_ticks_100ns =>
    let cpu_ns := f64_mul (f64_of_Z cpu_ticks_100ns) (f64_of_Z 100) in
    let exec_ns := f64_mul (f64_of_Z exec_ticks_100ns) (f64_of_Z 100) in
    let task_name := default ("port-" +:+ dec task_port) (task_names !! (target, task_port)) in
    [with_task net task_port task_name (MetricEntry_sum now "tc.task.cpu_time_ns" cpu_ns true);
     with_task net task_port task_name (MetricEntry_sum now "tc.task.exec_time_ns" exec_ns true);
     with_task net task_port task_name
       (MetricEntry_sum now "tc.task.cycle_count" (f64_of_Z cycle_counter) true)]
  | TaskDiagBatch b => batch_to_metrics net b
  | MetricBatch _ _ _ _ descriptors samples =>
    metric_batch_to_entries net (descriptor_cache descriptors) samples
  | MetricAggregateBatch b => metric_aggregate_to_entries net b
  end.

(** ** service.rs: completion from the registry *)

(** The order in which the registry is iterated. *)
Variable iter : TaskRegistry -> list (RegistrationKey * TaskMetadata).

Definition backfill_metric (registry : TaskRegistry) (m : MetricEntry) : MetricEntry :=
  if String.eqb (me_ams_net_id m) "" then m
  else
    let port_filter := if me_ams_source_port m =? 0 then None else Some (me_ams_source_port m) in
    let task_filter := if 0 <? me_task_index m then Some (wrap 8 (me_task_index m)) else None in
    match lookup_partial iter (me_ams_net_id m) port_filter task_filter registry with
    | None => m
    | Some (k, meta) =>
      let or_old (new old : string) := if String.eqb new "" then old else new in
      me_set (me_description m) (me_unit m) (me_timestamp m) (me_source m) (me_ams_net_id m)
        (if me_ams_source_port m =? 0 then rk_ams_source_port k else me_ams_source_port m)
        (if me_ams_app_port m =? 0 then tm_app_port meta else me_ams_app_port m)
        (if me_task_index m =? 0 then rk_task_index k else me_task_index m)
        (or_old (tm_task_name meta) (me_task_name m)) (or_old (tm_app_name meta) (me_app_name m))
        (or_old (tm_project_name meta) (me_project_name m)) (me_scope_namespace m)
        (me_attributes m) (me_trace_id m) (me_span_id m) m
    end.

Definition backfill_metrics_from_registry (registry : TaskRegistry) (ms : list MetricEntry)
    : list MetricEntry := map (backfill_metric registry) ms.

Context `{MP : Mpsc}.

(** One turn of the task that drains the push channel. *)
Definition push_drain (registry : TaskRegistry) (ev : AmsNetId * DiagEvent)
    (metric_tx : option (Sender MetricEntry)) : option (Sender MetricEntry) :=
  let metrics := backfill_metrics_from_registry registry (diag_event_to_metrics ev.1 ev.2 ∅) in
  (fun tx => send_all tx metrics) <$> metric_tx.

End Bridge.

(** ** Stat values *)

(** The names of the stats a mask asks for, in order. *)
Definition set_stats (stat_mask : Z) : list string :=
  map snd (List.filter (fun bs : Z * string => flag stat_mask bs.1) METRIC_STAT_ORDER).

Lemma stat_values_zip order mask values :
  stat_values order mask values =
  zip (map snd (List.filter (fun bs : Z * string => flag mask bs.1) order)) values.
Proof.
  revert values. induction order as [|[bit suffix] order IH]; intros values; [done|].
  cbn [stat_values List.filter fst]. unfold flag at 1.
  destruct (Z.land mask bit =? 0); simpl; [apply IH|]. destruct values; [done|]. by rewrite IH.
Qed.

Lemma flag_testbit mask n : 0 <= n -> flag mask (2 ^ n) = Z.testbit mask n.
Proof.
  intros Hn. unfold flag. destruct (Z.testbit mask n) eqn:Hb.
  - apply negb_true_iff, Z.eqb_neq. intros H0.
    assert (Z.testbit (Z.land mask (2 ^ n)) n = false) as H by (by rewrite H0, Z.bits_0).
    rewrite Z.land_spec, Hb, Z.pow2_bits_true in H by done. done.
  - apply negb_false_iff, Z.eqb_eq. apply Z.bits_inj'. intros k Hk.
    rewrite Z.land_spec, Z.pow2_bits_eqb, Z.bits_0 by lia.
    destruct (Z.eqb_spec n k) as [<-|]; [by rewrite Hb|by rewrite andb_false_r].
Qed.

(** The decoder reads a value for every set bit, so none is missing. *)
Lemma set_stats_count mask : (length (set_stats mask) <= count_ones mask)%nat.
Proof.
  unfold set_stats, count_ones, METRIC_STAT_ORDER. rewrite length_map. cbn [List.filter fst].
  rewrite (flag_testbit mask 0 ltac:(lia) : flag mask 1 = _), (flag_testbit mask 1 ltac:(lia) : flag mask 2 = _),
    (flag_testbit mask 2 ltac:(lia) : flag mask 4 = _), (flag_testbit mask 3 ltac:(lia) : flag mask 8 = _),
    (flag_testbit mask 4 ltac:(lia) : flag mask 16 = _), (flag_testbit mask 5 ltac:(lia) : flag mask 32 = _).
  destruct (Z.testbit mask 0), (Z.testbit mask 1), (Z.testbit mask 2), (Z.testbit mask 3),
    (Z.testbit mask 4), (Z.testbit mask 5), (Z.testbit mask 6), (Z.testbit mask 7); simpl; lia.
Qed.

(** Points per sample. *)
Definition points_per_sample (schema : MetricBodySchema) (stat_mask : Z) : nat :=
  match schema with
  | SchemaBool | SchemaNumeric | SchemaDiscrete => 1
  | SchemaString | SchemaWstring => 0
  | SchemaNumericAggregated => length (set_stats stat_mask)
  end.

Lemma sample_points_length name schema mask s :
  sample_shape schema mask s -> length (sample_points name s) = points_per_sample schema mask.
Proof.
  destruct schema, s; cbn [sample_shape sample_points points_per_sample]; try done. intros [-> Hv].
  rewrite length_map, stat_values_zip, length_zip. fold (set_stats mask).
  pose proof (set_stats_count mask). lia.
Qed.

(** ** Aggregate batches *)

(** Blocks of equal length, one after the other. *)
Lemma lookup_concat_uniform {A} n (ls : list (list A)) i j l :
  Forall (fun l => length l = n) ls -> ls !! i = Some l -> (j < n)%nat ->
  concat ls !! (i * n + j)%nat = l !! j.
Proof.
  intros Hn. revert i. induction Hn as [|l' ls Hl' Hls IH]; intros i Hi Hj; [done|].
  destruct i as [|i]; simpl in *.
  - injection Hi as ->. by rewrite lookup_app_l by lia.
  - rewrite <- (IH i Hi Hj), lookup_app_r by lia. f_equal. lia.
Qed.

Lemma length_concat_uniform {A} n (ls : list (list A)) :
  Forall (fun l => length l = n) ls -> length (concat ls) = (length ls * n)%nat.
Proof. induction 1 as [|l ls Hl Hls IH]; simpl; [done|]. rewrite length_app. lia. Qed.

Section BridgeTheorems.
Context `{Ext : External}.
Variable local : string.
Variable now : DateTime.

(** A pushed aggregate batch becomes its points. Whatever frame the decoder
    accepts, every sample gives the same number of metric points: one for a
    boolean, numeric or discrete sample, none for a string, and one per known
    statistic of the mask for an aggregated sample, named after the statistic
    and with its value. Point [j] of sample [i] stands at its place, dated
    with the time of the sample; no value is missing or mixed up. *)
Theorem aggregate_points data b net :
  is_bytes data -> decode_metric_aggregate data = Ok (MetricAggregateBatch b) ->
  let n := points_per_sample (ab_body_schema b) (ab_stat_mask b) in
  let entries := metric_aggregate_to_entries local now net b in
  length entries = (length (ab_samples b) * n)%nat /\
  (forall i s j p, ab_samples b !! i = Some s -> sample_points (ab_name b) s !! j = Some p ->
     entries !! (i * n + j)%nat = Some (build_aggregate_entry local now net b (agg_sample_ts b i) p)) /\
  (forall i mask values j suffix, ab_samples b !! i = Some (SampleNumericAggregated mask values) ->
     set_stats (ab_stat_mask b) !! j = Some suffix ->
     exists v, values !! j = Some v /\
       entries !! (i * n + j)%nat =
         Some (build_aggregate_entry local now net b (agg_sample_ts b i) (ab_name b +:+ "." +:+ suffix, v))).
Proof.
  intros Hd Hok n entries.
  pose proof (safe_decode_metric_aggregate data Hd) as Hsafe. rewrite Hok in Hsafe.
  destruct Hsafe as (_ & _ & _ & _ & _ & Hshape).
  assert (Hall : Forall (fun l : list MetricEntry => length l = n)
    (imap (fun i s => map (build_aggregate_entry local now net b (agg_sample_ts b i))
                        (sample_points (ab_name b) s)) (ab_samples b))).
  { apply Forall_lookup. intros i l. rewrite list_lookup_imap, fmap_Some. intros (s & Hs & ->).
    rewrite length_map. apply sample_points_length. by eapply Forall_lookup_1. }
  assert (Hat : forall i s j p, ab_samples b !! i = Some s -> sample_points (ab_name b) s !! j = Some p ->
    entries !! (i * n + j)%nat = Some (build_aggregate_entry local now net b (agg_sample_ts b i) p)).
  { intros i s j p Hs Hp. unfold entries, metric_aggregate_to_entries.
    rewrite (lookup_concat_uniform n _ i j (map (build_aggregate_entry local now net b (agg_sample_ts b i))
      (sample_points (ab_name b) s))); [|done|by rewrite list_lookup_imap, Hs|].
    - by rewrite list_lookup_fmap, Hp.
    - apply lookup_lt_Some in Hp. by rewrite (sample_points_length _ _ _ _ (Forall_lookup_1 _ _ _ _ Hshape Hs)) in Hp. }
  split_and!; [|done|].
  - unfold entries, metric_aggregate_to_entries. rewrite (length_concat_uniform n) by done.
    by rewrite length_imap.
  - intros i mask values j suffix Hs Hj.
    pose proof (Forall_lookup_1 _ _ _ _ Hshape Hs) as Hsh. unfold sample_shape in Hsh.
    destruct (ab_body_schema b); try done. destruct Hsh as [-> Hv].
    destruct (lookup_lt_is_Some_2 values j) as [v Hv'].
    { apply lookup_lt_Some in Hj. pose proof (set_stats_count (ab_stat_mask b)). lia. }
    exists v. split; [done|]. eapply Hat; [done|]. cbn [sample_points].
    rewrite list_lookup_fmap, stat_values_zip. fold (set_stats (ab_stat_mask b)).
    rewrite (proj2 (lookup_zip_Some _ _ j suffix v)) by done. done.
Qed.

Lemma to_signed_id v : - 2 ^ 63 <= v < 2 ^ 63 -> to_signed 64 v = v.
Proof.
  intros Hv. rewrite <- (to_signed_mod 64 v) at 2 by lia. unfold to_signed. by rewrite Z.mod_mod.
Qed.

(** The window of a batch whose times are in order. *)
Lemma agg_span_eq b :
  0 <= ab_dc_time_end b - ab_dc_time_start b < 2 ^ 63 ->
  agg_span_ns b = ab_dc_time_end b - ab_dc_time_start b.
Proof. intros H. unfold agg_span_ns. rewrite to_signed_id; lia. Qed.

Lemma agg_linear_ts_eq b i :
  let start := ab_dc_time_start b in let span := ab_dc_time_end b - start in
  let n := length (ab_samples b) in
  - 2 ^ 63 <= start -> ab_dc_time_end b < 2 ^ 63 -> 0 <= span -> Z.of_nat n * span < 2 ^ 63 -> (i < n)%nat ->
  agg_linear_ts b i = start + Z.of_nat i * span / Z.max (Z.of_nat n - 1) 1 /\
  0 <= Z.of_nat i * span / Z.max (Z.of_nat n - 1) 1 <= span.
Proof.
  intros start span n Hs He Hspan Hn Hi. unfold agg_linear_ts. fold start n.
  assert (0 <= Z.of_nat i * span < 2 ^ 63) by nia.
  assert (Hq : 0 <= Z.of_nat i * span / Z.max (Z.of_nat n - 1) 1 <= span).
  { split; [apply Z.div_pos; lia|]. apply Z.div_le_upper_bound; nia. }
  split; [|done]. destruct (Nat.eqb_spec n 1) as [Hn1|Hn1].
  - replace i with 0%nat by lia. simpl. rewrite Z.div_0_l by lia. lia.
  - rewrite agg_span_eq by (fold start; nia). fold start span. rewrite (to_signed_id (Z.of_nat i * span)) by lia.
    rewrite Z.quot_div_nonneg by lia. apply to_signed_id. lia.
Qed.

(** The time of a sample with a cycle offset. *)
Lemma agg_offset_ts b l i o cycles :
  let start := ab_dc_time_start b in let span := ab_dc_time_end b - start in
  - 2 ^ 63 <= start -> ab_dc_time_end b < 2 ^ 63 -> 0 < span < 2 ^ 63 ->
  cycles = wrap 32 (ab_cycle_count_end b - ab_cycle_count_start b) -> 0 < cycles ->
  ab_sample_dc_times b = None -> ab_sample_cycle_offsets b = Some l -> l !! i = Some o ->
  0 <= o <= cycles ->
  agg_sample_ts b i = start + o * (span / cycles) /\ 0 <= o * (span / cycles) <= span.
Proof.
  intros start span Hs He Hspan Hc Hpos Hdc Hoff Ho Hr. unfold agg_sample_ts. rewrite Hdc, Hoff. simpl. rewrite Ho.
  unfold agg_cycle_time_ns. rewrite <- Hc, agg_span_eq by (fold start span; lia). fold start span.
  rewrite (proj2 (Z.ltb_lt 0 cycles)), (proj2 (Z.ltb_lt 0 span)), Z.quot_div_nonneg by lia. cbn [andb].
  assert (Hb : 0 <= o * (span / cycles) <= span).
  { pose proof (Z.div_pos span cycles). pose proof (Z.mul_div_le span cycles). nia. }
  split; [|done]. rewrite (to_signed_id (o * (span / cycles))) by lia. apply to_signed_id. lia.
Qed.

(** The times of the samples of an aggregate batch lie in its window. Where
    every sample carries its own time, that is its time. Otherwise, for a
    window that does not overflow: with cycle offsets inside the window every
    sample falls between the start and the end, later for a later cycle;
    without them the samples are spread evenly, in order, the first at the
    start and the last at the end. *)
Theorem aggregate_times b :
  let start := ab_dc_time_start b in let stop := ab_dc_time_end b in let n := length (ab_samples b) in
  (forall l i dc, ab_sample_dc_times b = Some l -> l !! i = Some dc -> agg_sample_ts b i = dc) /\
  (ab_sample_dc_times b = None -> - 2 ^ 63 <= start -> start <= stop < 2 ^ 63 ->
   Z.of_nat n * (stop - start) < 2 ^ 63 ->
   (forall l i o, ab_sample_cycle_offsets b = Some l -> l !! i = Some o -> (i < n)%nat ->
      0 <= o <= wrap 32 (ab_cycle_count_end b - ab_cycle_count_start b) ->
      start <= agg_sample_ts b i <= stop /\
      (start < stop -> forall j o', l !! j = Some o' -> o <= o' ->
         0 < o' <= wrap 32 (ab_cycle_count_end b - ab_cycle_count_start b) ->
         agg_sample_ts b i <= agg_sample_ts b j)) /\
   (ab_sample_cycle_offsets b = None ->
      (forall i, (i < n)%nat -> start <= agg_sample_ts b i <= stop) /\
      (forall i j, (i <= j < n)%nat -> agg_sample_ts b i <= agg_sample_ts b j) /\
      ((0 < n)%nat -> agg_sample_ts b 0 = start) /\
      ((1 < n)%nat -> agg_sample_ts b (n - 1) = stop))).
Proof.
  intros start stop n. split.
  { intros l i dc Hl Hi. unfold agg_sample_ts. by rewrite Hl; simpl; rewrite Hi. }
  intros Hdc Hs [Hss He] Hn. split.
  - intros l i o Hl Ho Hi Hr.
    assert (Hspan : stop - start < 2 ^ 63) by nia.
    destruct (agg_linear_ts_eq b i) as [Hlin Hlb]; [done..|by subst start; lia|done|done|].
    destruct (decide (0 < stop - start /\ 0 < wrap 32 (ab_cycle_count_end b - ab_cycle_count_start b)))
      as [[Hp Hc]|Hdeg].
    + destruct (agg_offset_ts b l i o _ Hs He ltac:(lia) eq_refl Hc Hdc Hl Ho Hr) as [-> Hb].
      fold start stop in Hb |- *. split; [lia|]. intros _ j o' Ho' Hoo Hr'.
      destruct (agg_offset_ts b l j o' _ Hs He ltac:(lia) eq_refl Hc Hdc Hl Ho' ltac:(lia)) as [-> Hb'].
      fold start stop. pose proof (Z.div_pos (stop - start) (wrap 32 (ab_cycle_count_end b - ab_cycle_count_start b))).
      nia.
    + assert (Hts : agg_sample_ts b i = agg_linear_ts b i).
      { unfold agg_sample_ts, agg_cycle_time_ns. rewrite Hdc, Hl. simpl. rewrite Ho.
        rewrite agg_span_eq by (fold start stop; lia). fold start stop.
        destruct (Z.ltb_spec 0 (wrap 32 (ab_cycle_count_end b - ab_cycle_count_start b)));
          destruct (Z.ltb_spec 0 (stop - start)); done || lia. }
      rewrite Hts, Hlin. fold start stop n in Hlb |- *. split; [lia|]. intros Hlt j o' _ _ Ho'. lia.
  - intros Hoff.
    assert (Hts : forall i, agg_sample_ts b i = agg_linear_ts b i)
      by (intros i; unfold agg_sample_ts; by rewrite Hdc, Hoff).
    assert (Hlin : forall i, (i < n)%nat -> agg_sample_ts b i = start + Z.of_nat i * (stop - start) / Z.max (Z.of_nat n - 1) 1 /\
      0 <= Z.of_nat i * (stop - start) / Z.max (Z.of_nat n - 1) 1 <= stop - start).
    { intros i Hi. rewrite Hts. apply agg_linear_ts_eq; unfold start, stop, n in *; lia. }
    split_and!.
    + intros i Hi. destruct (Hlin i Hi) as [-> Hb]. lia.
    + intros i j Hij. destruct (Hlin i) as [-> _]; [lia|]. destruct (Hlin j) as [-> _]; [lia|].
      apply Z.add_le_mono_l, Z.div_le_mono; nia.
    + intros H0. destruct (Hlin 0%nat H0) as [-> _]. simpl. rewrite Z.div_0_l; lia.
    + intros H1. destruct (Hlin (n - 1)%nat) as [-> _]; [lia|].
      replace (Z.of_nat (n - 1)) with (Z.max (Z.of_nat n - 1) 1) by lia.
      rewrite Z.mul_comm, Z.div_mul; lia.
Qed.

(** ** Task batches *)

Definition exceeded (s : DiagSample) : bool := flag (ds_flags s) SAMPLE_FLAG_CYCLE_EXCEED.
Definition violated (s : DiagSample) : bool := flag (ds_flags s) SAMPLE_FLAG_RT_VIOLATION.

(** The attributes that tie an edge to its cycle. *)
Definition cycle_attrs (s : DiagSample) : attrs :=
  <["exec_time_us" := json_int (ds_exec_time_us s)]>
    (<["dc_time_ns" := json_int (ds_dc_time s)]> {["cycle_count" := json_int (ds_cycle_count s)]}).

Definition named (name : string) (ms : list MetricEntry) : list MetricEntry :=
  List.filter (fun m => String.eqb (me_name m) name) ms.

Lemma named_app name l l' : named name (l ++ l') = named name l ++ named name l'.
Proof. apply List.filter_app. Qed.

(** What the edges of one name carry, over all samples. *)
Lemma edges_named name p v net b l :
  (forall s, map (fun m => (me_timestamp m, me_attributes m, me_value m))
               (named name (sample_edges local now net b s)) =
     if p s : bool then [(bridge_dc_time now (ds_dc_time s), cycle_attrs s, v s)] else []) ->
  map (fun m => (me_timestamp m, me_attributes m, me_value m))
    (named name (concat (map (sample_edges local now net b) l))) =
  map (fun s => (bridge_dc_time now (ds_dc_time s), cycle_attrs s, v s)) (List.filter p l).
Proof.
  intros Hs. induction l as [|s l IH]; [done|]. simpl. rewrite named_app, map_app, Hs, IH.
  by destruct (p s).
Qed.

Lemma edges_other name net b l :
  (forall s, named name (sample_edges local now net b s) = []) ->
  named name (concat (map (sample_edges local now net b) l)) = [].
Proof. intros Hs. induction l as [|s l IH]; [done|]. simpl. by rewrite named_app, Hs, IH. Qed.

(** The labels of a metric of a task batch. *)
Record task_metric (net : string) (b : DiagBatch) (m : MetricEntry) : Prop := {
  tmm_net : me_ams_net_id m = net;
  tmm_port : me_ams_source_port m = db_task_port b;
  tmm_task : me_task_name m = db_task_name b;
  tmm_source : me_source m = local;
  tmm_index : me_task_index m = 0;
  tmm_app_port : me_ams_app_port m = 0;
  tmm_app : me_app_name m = "";
  tmm_project : me_project_name m = "";
}.

Lemma batch_task_metric net b : Forall (task_metric net b) (batch_to_metrics local now net b).
Proof.
  apply Forall_app. split; [repeat constructor|]. apply Forall_app. split; [|repeat constructor].
  apply Forall_concat, Forall_map, Forall_forall. intros s _. unfold sample_edges.
  apply Forall_app. split; case_match; repeat constructor.
Qed.

Lemma length_edges net b l :
  length (concat (map (sample_edges local now net b) l)) =
  (2 * length (List.filter exceeded l) + length (List.filter violated l))%nat.
Proof.
  induction l as [|s l IH]; [done|]. simpl. rewrite length_app, IH. unfold sample_edges.
  fold (exceeded s) (violated s). destruct (exceeded s), (violated s); simpl; lia.
Qed.

(** A task batch becomes its metrics. Nine describe the window, the last of
    them 1.0 exactly when some sample says that samples were lost; then every
    cycle that exceeded its time gives one edge event and its execution time,
    and every real-time violation one edge event, in the order of the samples,
    dated with the cycle's own time and labelled with its counter, time and
    duration; nothing else goes out, and every metric names the PLC, the port
    and the task. *)
Theorem task_batch_metrics net b :
  let ms := batch_to_metrics local now net b in
  let seen name := map (fun m => (me_timestamp m, me_attributes m, me_value m)) (named name ms) in
  let cycle v s := (bridge_dc_time now (ds_dc_time s), cycle_attrs s, v s : Z) in
  seen "tc.task.cycle_exceed_edge" =
    map (cycle (fun _ => f64_of_Z 1)) (List.filter exceeded (db_samples b)) /\
  seen "tc.task.cycle_exceed_exec_us" =
    map (cycle (fun s => f64_of_Z (ds_exec_time_us s))) (List.filter exceeded (db_samples b)) /\
  seen "tc.task.rt_violation_edge" =
    map (cycle (fun _ => f64_of_Z 1)) (List.filter violated (db_samples b)) /\
  map me_value (named "tc.task.sample_buffer_overflow" ms) =
    [f64_of_Z (if existsb (fun s => flag (ds_flags s) SAMPLE_FLAG_OVERFLOW) (db_samples b) then 1 else 0)] /\
  map me_value (named "tc.task.cycle_count" ms) = [f64_of_Z (db_cycle_count_end b)] /\
  length ms = (9 + 2 * length (List.filter exceeded (db_samples b)) +
                 length (List.filter violated (db_samples b)))%nat /\
  Forall (task_metric net b) ms.
Proof.
  intros ms seen cycle. unfold seen, ms, batch_to_metrics. rewrite !named_app, !map_app.
  split_and!.
  - rewrite (edges_named _ exceeded (fun _ => f64_of_Z 1)); [apply app_nil_r|].
    intros s. unfold sample_edges. fold (exceeded s). by destruct (exceeded s), (flag _ _).
  - rewrite (edges_named _ exceeded (fun s => f64_of_Z (ds_exec_time_us s))); [apply app_nil_r|].
    intros s. unfold sample_edges. fold (exceeded s). by destruct (exceeded s), (flag _ _).
  - rewrite (edges_named _ violated (fun _ => f64_of_Z 1)); [apply app_nil_r|].
    intros s. unfold sample_edges. fold (violated s). by destruct (violated s), (flag _ _).
  - rewrite edges_other; [done|]. intros s. unfold sample_edges. by destruct (flag _ _), (flag _ _).
  - rewrite edges_other; [done|]. intros s. unfold sample_edges. by destruct (flag _ _), (flag _ _).
  - rewrite !length_app, length_edges. simpl. lia.
  - apply batch_task_metric.
Qed.

(** ** Histograms *)

Lemma bucket_index_spec bounds v :
  (bucket_index bounds v <= length bounds)%nat /\
  (forall b, bounds !! bucket_index bounds v = Some b -> f32_lt v b = true) /\
  (forall i b, (i < bucket_index bounds v)%nat -> bounds !! i = Some b -> f32_lt v b = false).
Proof.
  unfold bucket_index. destruct (list_find _ _) as [[i b]|] eqn:Hf.
  - apply list_find_Some in Hf as (Hi & Hb & Hmin). split_and!.
    + apply lookup_lt_Some in Hi. lia.
    + intros b' Hb'. by simplify_eq.
    + intros j b' Hj Hb'. apply not_true_is_false. by apply (Hmin j b').
  - apply list_find_None in Hf. split_and!; [done|..].
    + intros b Hb. apply lookup_lt_Some in Hb. lia.
    + intros i b _ Hb. apply not_true_is_false. by eapply Forall_lookup_1 in Hf.
Qed.

Lemma sum_list_one n i : (i < n)%nat -> foldr Z.add 0 (<[i := 1]> (replicate n 0)) = 1.
Proof.
  assert (H0 : forall n, foldr Z.add 0 (replicate n 0) = 0) by (intros k; induction k; simpl; lia).
  revert i. induction n as [|n IH]; intros i Hi; [lia|].
  destruct i as [|i]; simpl; [by rewrite H0|]. rewrite IH by lia. done.
Qed.

(** A pushed histogram observation is one valid histogram. Whatever the
    descriptors and samples of a batch, an entry of the histogram kind has one
    count more than it has bounds, as OTLP requires; it counts exactly one
    observation, in the first bucket whose upper bound is above the observed
    value (the last bucket when there is none); and its sum is that value. *)
Theorem histogram_entry_valid net cache samples m :
  m ∈ metric_batch_to_entries local now net cache samples -> me_kind m = Histogram ->
  exists s desc bounds k, s ∈ samples /\ cache !! ms_metric_id s = Some desc /\
    md_histogram_bounds desc = Some bounds /\
    me_histogram_bounds m = map f64_of_f32 bounds /\
    length (me_histogram_counts m) = S (length (me_histogram_bounds m)) /\
    me_histogram_counts m !! k = Some 1 /\
    foldr Z.add 0 (me_histogram_counts m) = me_histogram_count m /\ me_histogram_count m = 1 /\
    (forall b, bounds !! k = Some b -> f32_lt (ms_value s) b = true) /\
    (forall i b, (i < k)%nat -> bounds !! i = Some b -> f32_lt (ms_value s) b = false) /\
    me_histogram_sum m = f64_of_f32 (ms_value s).
Proof.
  unfold metric_batch_to_entries. rewrite list_elem_of_omap. intros (s & Hs & Hm) Hk.
  destruct (cache !! ms_metric_id s) as [desc|] eqn:Hd; [|done].
  apply fmap_Some in Hm as (m0 & Hm0 & ->). unfold sample_entry in Hm0.
  repeat case_match; simplify_eq; try done.
  destruct (bucket_index_spec l (ms_value s)) as (Hle & Hhit & Hmiss).
  exists s, desc, l, (bucket_index l (ms_value s)).
  cbn [me_set me_histogram_bounds me_histogram_counts me_histogram_count me_histogram_sum MetricEntry_histogram].
  rewrite length_insert, length_replicate, length_map. split_and!; try done; [lia|..].
  - apply list_lookup_insert_eq. rewrite length_replicate. lia.
  - apply sum_list_one. lia.
Qed.

(** ** Labels from the registry *)

Lemma AmsNetId_to_string_nonempty n : wf_net n -> String.eqb (AmsNetId_to_string n) "" = false.
Proof.
  intros Hn. apply String.eqb_neq. intros H. apply AmsNetId_from_to_string in Hn. by rewrite H in Hn.
Qed.

(** ** What a task batch should become, point by point *)

(** Name, kind, monotony and value; time; attributes. *)
Definition point_view (m : MetricEntry) : (string * MetricKind * bool * Z) * DateTime * attrs :=
  ((me_name m, me_kind m, me_is_monotonic m, me_value m), me_timestamp m, me_attributes m).

Definition window_points (b : DiagBatch) : list (string * MetricKind * bool * Z) :=
  [("tc.task.exec_time_min_us", Gauge, false, f64_of_Z (db_exec_time_min_us b));
   ("tc.task.exec_time_max_us", Gauge, false, f64_of_Z (db_exec_time_max_us b));
   ("tc.task.exec_time_avg_us", Gauge, false, f64_of_Z (db_exec_time_avg_us b));
   ("tc.task.window_ms", Gauge, false, f64_of_Z (db_window_ms b));
   ("tc.task.sample_count", Gauge, false, f64_of_Z (Z.of_nat (length (db_samples b))));
   ("tc.task.cycle_count", Sum, true, f64_of_Z (db_cycle_count_end b));
   ("tc.task.cycle_exceed_window", Sum, false, f64_of_Z (db_cycle_exceed_count b));
   ("tc.task.rt_violation_window", Sum, false, f64_of_Z (db_rt_violation_count b))].

(** Bit 0 of the flags: the cycle exceeded its time; bit 1: real-time violation. *)
Definition edge_points (s : DiagSample) : list (string * MetricKind * bool * Z) :=
  (if Z.testbit (ds_flags s) 0
   then [("tc.task.cycle_exceed_edge", Sum, false, f64_of_Z 1);
         ("tc.task.cycle_exceed_exec_us", Gauge, false, f64_of_Z (ds_exec_time_us s))]
   else []) ++
  (if Z.testbit (ds_flags s) 1 then [("tc.task.rt_violation_edge", Sum, false, f64_of_Z 1)] else []).

(** Nanoseconds since 2000-01-01; before that as [bridge_dc_time] has it. *)
Definition sample_instant (s : DiagSample) : DateTime :=
  if 0 <=? ds_dc_time s
  then default now (from_timestamp (946684800 + ds_dc_time s / 1000000000) (ds_dc_time s mod 1000000000))
  else bridge_dc_time now (ds_dc_time s).

Definition sample_labels (s : DiagSample) : attrs :=
  list_to_map [("cycle_count", json_int (ds_cycle_count s)); ("dc_time_ns", json_int (ds_dc_time s));
               ("exec_time_us", json_int (ds_exec_time_us s))].

Lemma sample_instant_spec s : bridge_dc_time now (ds_dc_time s) = sample_instant s.
Proof.
  unfold sample_instant, bridge_dc_time. destruct (Z.leb_spec 0 (ds_dc_time s)); [|done].
  by rewrite Z.quot_div_nonneg by lia.
Qed.

Lemma sample_labels_spec s : cycle_attrs s = sample_labels s.
Proof.
  unfold cycle_attrs, sample_labels. cbn [list_to_map foldr uncurry]. apply map_eq. intros k.
  destruct (decide (k = "exec_time_us")) as [->|]; [by simplify_map_eq|].
  destruct (decide (k = "dc_time_ns")) as [->|]; [by simplify_map_eq|].
  destruct (decide (k = "cycle_count")) as [->|]; by simplify_map_eq.
Qed.

Lemma sample_edge_points net b s :
  map point_view (sample_edges local now net b s) = map (fun p => (p, sample_instant s, sample_labels s)) (edge_points s).
Proof.
  unfold sample_edges, edge_points. rewrite <- sample_instant_spec, <- sample_labels_spec.
  rewrite <- (flag_testbit _ 0), <- (flag_testbit _ 1) by lia.
  change (2 ^ 0) with SAMPLE_FLAG_CYCLE_EXCEED. change (2 ^ 1) with SAMPLE_FLAG_RT_VIOLATION.
  by destruct (flag _ SAMPLE_FLAG_CYCLE_EXCEED), (flag _ SAMPLE_FLAG_RT_VIOLATION).
Qed.

Lemma batch_points net b :
  map point_view (batch_to_metrics local now net b) =
    map (fun p => (p, now, ∅)) (window_points b) ++
    concat (map (fun s => map (fun p => (p, sample_instant s, sample_labels s)) (edge_points s)) (db_samples b)) ++
    [(("tc.task.sample_buffer_overflow", Gauge, false,
       f64_of_Z (if existsb (fun s => Z.testbit (ds_flags s) 3) (db_samples b) then 1 else 0)), now, ∅)].
Proof.
  unfold batch_to_metrics. rewrite !map_app. f_equal. f_equal.
  - rewrite concat_map, map_map. f_equal. apply map_ext. intros s. apply sample_edge_points.
  - simpl. unfold point_view. simpl. do 4 f_equal.
    replace (existsb (fun s => flag (ds_flags s) SAMPLE_FLAG_OVERFLOW) (db_samples b)) with
      (existsb (fun s => Z.testbit (ds_flags s) 3) (db_samples b)); [done|].
    induction (db_samples b) as [|s l IH]; [done|]. cbn [existsb]. rewrite <- IH, <- (flag_testbit _ 3) by lia. done.
Qed.

Section Labels.
Variable iter : TaskRegistry -> list (RegistrationKey * TaskMetadata).

(** The only registered task on a port. *)
Definition only_task (registry : TaskRegistry) (net : string) (port : Z) (k : RegistrationKey)
    (meta : TaskMetadata) : Prop :=
  registry !! k = Some meta /\ rk_ams_net_id k = net /\ rk_ams_source_port k = port /\
  forall k', is_Some (registry !! k') -> rk_ams_net_id k' = net -> rk_ams_source_port k' = port -> k' = k.

Lemma backfill_only_task registry net b k meta m :
  (forall reg, iter reg ≡ₚ map_to_list reg) -> String.eqb net "" = false ->
  only_task registry net (db_task_port b) k meta -> db_task_port b <> 0 -> task_metric net b m ->
  let m' := backfill_metric iter registry m in
  point_view m' = point_view m /\
  me_ams_net_id m' = net /\ me_ams_source_port m' = db_task_port b /\
  me_task_index m' = rk_task_index k /\ me_ams_app_port m' = tm_app_port meta /\
  me_app_name m' = tm_app_name meta /\ me_project_name m' = tm_project_name meta /\
  me_task_name m' = (if String.eqb (tm_task_name meta) "" then db_task_name b else tm_task_name meta).
Proof.
  intros Hiter Hne (Hk & Hnet & Hport & Huniq) H0 [Hn Hp Ht _ Hi Hap Ha Hpr].
  unfold backfill_metric. rewrite Hn, Hp, Hi, Hap, Hne. cbn [Z.ltb Z.compare].
  rewrite (proj2 (Z.eqb_neq _ _) H0).
  destruct (lookup_partial_spec iter Hiter net (Some (db_task_port b)) None registry) as [_ Hone].
  unfold lookup_task in Hone. rewrite (Hone k meta Hk).
  - cbn. rewrite Ha, Hpr, Ht. destruct (String.eqb_spec (tm_app_name meta) "") as [->|_];
      destruct (String.eqb_spec (tm_project_name meta) "") as [->|_]; done.
  - unfold key_matches. rewrite bool_decide_true by done. simpl. rewrite Hport, Z.eqb_refl. done.
  - intros k' Hk'. unfold key_matches. rewrite !andb_true_iff, bool_decide_eq_true. simpl.
    rewrite Z.eqb_eq. intros [[? ?] _]. by apply Huniq.
Qed.

(** C6: A pushed task batch ends up in the metric channel. When a PLC writes a
    task batch to the service, the router queues it under the sender's Net ID
    and the task that drains the queue offers exactly these metrics
    to the metric channel, in order and all of them when it takes them: eight of the window, each with its
    name, kind and value and the time of the conversion; for each sample whose flag says so the edge event of an exceeded cycle with its
    execution time, and that of a real-time violation, at the time of the sample (nanoseconds since 2000-01-01, exact from there on) with its counter, time and duration as
    attributes; and last whether a sample says that the buffer overflowed. When one registered task
    runs on the batch's port, each carries that task's index, runtime port,
    application and project. *)
Theorem pushed_batch_reaches_metrics `{!MpscLaws MP} env h b peer r tx mtx k meta :
  (forall reg, iter reg ≡ₚ map_to_list reg) ->
  own_write r h (mkWrite IG_PUSH_DIAG IO_PUSH_BATCH (encode_diag_batch b)) -> wf_diag_batch b ->
  ar_push_tx r = Some tx -> (try_send tx (source_net_id h, TaskDiagBatch b)).2 = true ->
  let net := AmsNetId_to_string (source_net_id h) in
  only_task (ar_registry r) net (db_task_port b) k meta -> db_task_port b <> 0 ->
  let r' := (dispatch env (write_frame h (mkWrite IG_PUSH_DIAG IO_PUSH_BATCH
               (encode_diag_batch b))) peer r).2 in
  let ev := (source_net_id h, TaskDiagBatch b) in
  exists tx' ms, ar_push_tx r' = Some tx' /\ queued tx' = queued tx ++ [ev] /\
    push_drain local now iter (ar_registry r') ev (Some mtx) = Some (send_all mtx ms) /\
    (accepts_all mtx ms = true -> queued (send_all mtx ms) = queued mtx ++ ms) /\
    map point_view ms =
      map (fun p => (p, now, ∅)) (window_points b) ++
      concat (map (fun s => map (fun p => (p, sample_instant s, sample_labels s)) (edge_points s)) (db_samples b)) ++
      [(("tc.task.sample_buffer_overflow", Gauge, false,
         f64_of_Z (if existsb (fun s => Z.testbit (ds_flags s) 3) (db_samples b) then 1 else 0)), now, ∅)] /\
    Forall (fun m => me_ams_net_id m = net /\ me_ams_source_port m = db_task_port b /\
      me_task_index m = rk_task_index k /\ me_ams_app_port m = tm_app_port meta /\
      me_app_name m = tm_app_name meta /\ me_project_name m = tm_project_name meta) ms.
Proof.
  intros Hiter Hw Hb Htx Hsend net Hone Hport r' ev.
  destruct (dispatch_push_batch env h b peer r tx Hw Hb Htx) as (tx' & Htx' & Hq & Hreg & _).
  rewrite Hsend in Hq. exists tx', (map (backfill_metric iter (ar_registry r)) (batch_to_metrics local now net b)).
  assert (Hall : forall m, m ∈ batch_to_metrics local now net b -> let m' := backfill_metric iter (ar_registry r) m in
    point_view m' = point_view m /\ me_ams_net_id m' = net /\ me_ams_source_port m' = db_task_port b /\
    me_task_index m' = rk_task_index k /\ me_ams_app_port m' = tm_app_port meta /\
    me_app_name m' = tm_app_name meta /\ me_project_name m' = tm_project_name meta).
  { intros m Hm. pose proof (proj1 (Forall_forall _ _) (batch_task_metric net b) m Hm) as Htm.
    destruct (backfill_only_task (ar_registry r) net b k meta m Hiter
      (AmsNetId_to_string_nonempty _ (wf_h_source _ (ow_header _ _ _ Hw))) Hone Hport Htm)
      as (Hv & ? & ? & ? & ? & ? & ? & _). done. }
  split_and!; [done|done|..].
  - unfold push_drain, ev, r'. rewrite Hreg. done.
  - apply send_all_queued.
  - rewrite <- (batch_points net b), map_map. apply map_ext_in. intros m Hm. by apply Hall, list_elem_of_In.
  - apply Forall_map, Forall_forall. intros m Hm. by destruct (Hall m Hm) as [_ H].
Qed.

End Labels.

(** Two tasks of one PLC. *)
Definition two_tasks : TaskRegistry :=
  <[mkKey "10.0.0.2.1.1" 350 1 := mkMetadata "PlcTask" "App" "Project" 1 851]>
    {[mkKey "10.0.0.2.1.1" 351 2 := mkMetadata "MotionTask" "App" "Project" 1 851]}.

(** A metric of the whole runtime, which names no task, is labelled with
    some task of the PLC: which one depends on the iteration order of the
    registry. *)
Theorem runtime_metric_gets_some_task value :
  exists iter1 iter2 : TaskRegistry -> list (RegistrationKey * TaskMetadata),
    (forall r, iter1 r ≡ₚ map_to_list r) /\ (forall r, iter2 r ≡ₚ map_to_list r) /\
    let ms := diag_event_to_metrics local now (mkNetId [10; 0; 0; 2; 1; 1]) (ExceedCounter value) ∅ in
    map me_task_name ms = [""] /\
    exists a b, map me_task_name (backfill_metrics_from_registry iter1 two_tasks ms) = [a] /\
      map me_task_name (backfill_metrics_from_registry iter2 two_tasks ms) = [b] /\ a <> b.
Proof.
  exists map_to_list, (fun r => reverse (map_to_list r)). split; [done|].
  split; [intros r; apply reverse_Permutation|]. split; [done|].
  do 2 eexists. split_and!; [by vm_compute..|done].
Qed.

(** Times at or after 2000-01-01 are converted exactly; an earlier one that is
    not a whole second comes out one second late. *)
Lemma bridge_dc_time_exact dc :
  exists s n, bridge_dc_time now dc = default now (from_timestamp s n) /\ 0 <= n < 1000000000 /\
    s * 1000000000 + n =
      946684800 * 1000000000 + dc +
      (if (dc <? 0) && negb (dc mod 1000000000 =? 0) then 1000000000 else 0).
Proof.
  exists (946684800 + Z.quot dc 1000000000), (dc mod 1000000000). split; [done|].
  pose proof (Z.mod_pos_bound dc 1000000000 ltac:(lia)) as Hm. split; [done|].
  destruct (Z.ltb_spec dc 0) as [Hneg|Hpos]; cbn [andb];
    [destruct (Z.eqb_spec (dc mod 1000000000) 0); cbn [negb]|]; Z.to_euclidean_division_equations; lia.
Qed.

End BridgeTheorems.
