(* ===== verification/AggregatePush.v ===== *)
(** * Pushed aggregate metrics, end to end (crates/tc-otel-ads: router.rs,
      diagnostics_push.rs; crates/tc-otel-service: diagnostics_bridge.rs, service.rs)

    An aggregate frame of a PLC on its way through the decoder, the router, the push
    channel and the bridge to the metric channel: the round trip of [AggregateWire]
    joined to the dispatch of [Router] and the conversion of [Bridge]. *)

From S2P Require Import Prelude.
From S2P Require Import Text.
From S2P Require Import External.
From S2P Require Import Float.
From S2P Require Import Ams.
From S2P Require Import Models.
From S2P Require Import Protocol.
From S2P Require Import Registry.
From S2P Require Import Diagnostics.
From S2P Require Import PushDecode.
From S2P Require Import AggregateWire.
From S2P Require Import Router.
From S2P Require Import Bridge.

Section Push.
Context `{Ext : External} `{MP : Mpsc}.
Variable local : string.
Variable now : DateTime.
Variable iter : TaskRegistry -> list (RegistrationKey * TaskMetadata).

(** What the completion from the registry leaves alone. *)
Lemma backfill_keeps registry m :
  let m' := backfill_metric iter registry m in
  me_name m' = me_name m /\ me_value m' = me_value m /\ me_timestamp m' = me_timestamp m /\ me_unit m' = me_unit m /\
  me_attributes m' = me_attributes m /\ me_trace_id m' = me_trace_id m /\ me_span_id m' = me_span_id m /\
  me_ams_net_id m' = me_ams_net_id m.
Proof.
  unfold backfill_metric. destruct (String.eqb _ _); [done|]. by destruct (lookup_partial _ _ _ _ _) as [[k meta]|].
Qed.

(** The router queues what the decoder accepts. *)
Lemma dispatch_push_aggregate `{!MpscLaws MP} env h data b peer r tx :
  own_write r h (mkWrite IG_PUSH_DIAG IO_PUSH_METRIC_AGG data) ->
  decode_metric_aggregate data = Ok (MetricAggregateBatch b) -> ar_push_tx r = Some tx ->
  let r' := (dispatch env (write_frame h (mkWrite IG_PUSH_DIAG IO_PUSH_METRIC_AGG data)) peer r).2 in
  exists tx', ar_push_tx r' = Some tx' /\
    queued tx' = (if (try_send tx (source_net_id h, MetricAggregateBatch b)).2
                  then queued tx ++ [(source_net_id h, MetricAggregateBatch b)] else queued tx) /\
    ar_registry r' = ar_registry r.
Proof.
  intros Hw Hd Htx. rewrite dispatch_write_frame by done. cbn [index_group Z.eqb Pos.eqb IG_PUSH_DIAG].
  unfold dispatch_push, decode_push. cbn [index_offset write_data Z.eqb Pos.eqb IO_PUSH_BATCH IO_PUSH_METRIC_AGG].
  rewrite Hd, Htx. eexists. split; [done|]. split; [apply try_send_queued|done].
Qed.

(** C7: A pushed aggregate batch ends up in the metric channel. When a PLC writes a well-formed aggregate batch to the service, of any schema and
    with or without context and stamps, the router queues it under the sender's Net ID and the task that drains the queue offers the metric
    channel the points of its samples: as many as the schema gives per sample, the points of sample [i] at their places, each with its
    name, value and unit, the time of its sample, and the trace context and Net ID of the batch. *)
Theorem pushed_aggregate_reaches_metrics `{!MpscLaws MP} env h b slots peer r tx mtx :
  own_write r h (mkWrite IG_PUSH_DIAG IO_PUSH_METRIC_AGG (encode_aggregate b slots)) ->
  is_bytes (encode_aggregate b slots) -> wf_aggregate b ->
  Forall2 (slot_of (ab_stat_mask b) (ab_body_schema b)) slots (ab_samples b) ->
  Forall (fun slot => length slot = Z.to_nat (ab_sample_size b)) slots ->
  ar_push_tx r = Some tx -> (try_send tx (source_net_id h, MetricAggregateBatch b)).2 = true ->
  let r' := (dispatch env (write_frame h (mkWrite IG_PUSH_DIAG IO_PUSH_METRIC_AGG (encode_aggregate b slots))) peer r).2 in
  let ev := (source_net_id h, MetricAggregateBatch b) in
  let n := points_per_sample (ab_body_schema b) (ab_stat_mask b) in
  exists tx' ms, ar_push_tx r' = Some tx' /\ queued tx' = queued tx ++ [ev] /\
    push_drain local now iter (ar_registry r') ev (Some mtx) = Some (send_all mtx ms) /\
    (accepts_all mtx ms = true -> queued (send_all mtx ms) = queued mtx ++ ms) /\
    length ms = (length (ab_samples b) * n)%nat /\
    forall i s j p, ab_samples b !! i = Some s -> sample_points (ab_name b) s !! j = Some p ->
      exists m, ms !! (i * n + j)%nat = Some m /\ me_name m = p.1 /\ me_value m = p.2 /\ me_unit m = ab_unit b /\
        me_timestamp m = bridge_dc_time now (agg_sample_ts b i) /\ me_trace_id m = default (zeros 16) (ab_trace_id b) /\
        me_span_id m = default (zeros 8) (ab_span_id b) /\ me_ams_net_id m = AmsNetId_to_string (source_net_id h).
Proof.
  intros Hown Hbytes Hw Hslots Hsize Htx Hsend r' ev n.
  assert (Hd : decode_metric_aggregate (encode_aggregate b slots) = Ok (MetricAggregateBatch b)).
  { rewrite encode_front, decode_front, rows_length, Nat.eqb_refl by done. by apply body_read. }
  destruct (dispatch_push_aggregate env h _ b peer r tx Hown Hd Htx) as (tx' & Htx' & Hq & Hreg). rewrite Hsend in Hq.
  set (net := AmsNetId_to_string (source_net_id h)). set (entries := metric_aggregate_to_entries local now net b).
  destruct (aggregate_points local now _ b net Hbytes Hd) as (Hlen & Hat & _).
  exists tx', (map (backfill_metric iter (ar_registry r)) entries). split_and!; [done|done|..].
  - unfold push_drain, ev, r'. rewrite Hreg. done.
  - apply send_all_queued.
  - by rewrite length_map.
  - intros i s j p Hs Hp. exists (backfill_metric iter (ar_registry r) (build_aggregate_entry local now net b (agg_sample_ts b i) p)).
    destruct (backfill_keeps (ar_registry r) (build_aggregate_entry local now net b (agg_sample_ts b i) p)) as
      (-> & -> & -> & -> & _ & -> & -> & ->).
    split_and!; [|done..]. pose proof (Hat i s j p Hs Hp) as He. fold n entries in He. by rewrite list_lookup_fmap, He.
Qed.

End Push.
