(* ===== verification/SpanDispatcher.v ===== *)
(** * The span dispatcher (crates/tc-otel-service: span_dispatcher.rs)

    Assembles the begin, attribute, event and end messages of a PLC into
    completed spans. The state is the map of open spans, the index from span
    id to the key of its span, and the output channel; each operation is a
    function on it. The monotonic clock (milliseconds), the wall clock and the
    shared task registry are read when an event arrives: they are the
    environment of a step. The theorems: the invariant that ties index and
    map together, the bound on open spans, inheritance of the trace id,
    timeouts, and that no span is lost or emitted twice. *)

From S2P Require Import Prelude.
From S2P Require Import Text.
From S2P Require Import External.
From S2P Require Import Models.
From S2P Require Import Protocol.
From S2P Require Import Ams.
From S2P Require Import Registry.
From Stdlib Require Import Ascii.

(** ** Data *)

Record SpanKey := mkSpanKey {
  sk_ams_net_id : AmsNetId;
  sk_span_id : bytes;
}.

#[export] Instance SpanKey_eq_dec : EqDecision SpanKey.
Proof. solve_decision. Defined.
#[export] Program Instance SpanKey_countable : Countable SpanKey :=
  inj_countable' (fun k => (sk_ams_net_id k, sk_span_id k)) (fun t => mkSpanKey t.1 t.2) _.
Next Obligation. by intros []. Qed.

(** [{:?}] of a byte array. *)
Definition debug_bytes (bs : bytes) : string := "[" +:+ join ", " (map dec bs) +:+ "]".

Section SpanDispatcher.
Context `{Ext : External} `{H : Hex} `{M : Mpsc}.

Record PendingEvent := mkPendingEvent {
  pev_time : DateTime;
  pev_name : string;
  pev_attrs : list (string * AttrValue);
}.

Record PendingSpan := mkPendingSpan {
  ps_trace_id : bytes;
  ps_span_id : bytes;
  ps_parent_span_id : option bytes;
  ps_name : string;
  ps_kind : Z;
  ps_start_time : DateTime;
  ps_attrs : gmap string AttrValue;
  ps_events : list PendingEvent;
  ps_deadline : Z;
  ps_orphan_reason : option string;
  ps_ams_net_id : AmsNetId;
  ps_task_index : Z;
  ps_ams_source_port : Z;
  ps_ams_app_port : Z;
  ps_app_name : string;
  ps_project_name : string;
  ps_scope_namespace : string;
}.

Record SpanDispatcher := mkDispatcher {
  sd_pending : gmap SpanKey PendingSpan;
  sd_index : gmap bytes SpanKey;
  sd_trace_tx : Sender TraceRecord;
  sd_span_ttl : Z;
  sd_max_pending : nat;
  sd_orphans : Z;
  sd_service_name : string;
  sd_host_name : string;
}.

(** What an operation reads from outside: [Instant::now()], [Utc::now()] and
    the contents of the shared registry, when there is one. *)
Record SpanEnv := mkSpanEnv {
  env_instant : Z;
  env_utc : DateTime;
  env_registry : option TaskRegistry;
}.

Definition SpanDispatcher_new (trace_tx : Sender TraceRecord) (span_ttl : Z) (max_pending : nat)
    : SpanDispatcher := mkDispatcher ∅ ∅ trace_tx span_ttl max_pending 0 "" "".

Definition with_service_metadata (service_name host_name : string) (d : SpanDispatcher)
    : SpanDispatcher :=
  mkDispatcher (sd_pending d) (sd_index d) (sd_trace_tx d) (sd_span_ttl d) (sd_max_pending d)
    (sd_orphans d) service_name host_name.

Definition set_spans (pending : gmap SpanKey PendingSpan) (index : gmap bytes SpanKey)
    (d : SpanDispatcher) : SpanDispatcher :=
  mkDispatcher pending index (sd_trace_tx d) (sd_span_ttl d) (sd_max_pending d) (sd_orphans d)
    (sd_service_name d) (sd_host_name d).

Definition set_trace_tx (tx : Sender TraceRecord) (d : SpanDispatcher) : SpanDispatcher :=
  mkDispatcher (sd_pending d) (sd_index d) tx (sd_span_ttl d) (sd_max_pending d) (sd_orphans d)
    (sd_service_name d) (sd_host_name d).

(** [orphan_counter.fetch_add(1)]. *)
Definition count_orphan (d : SpanDispatcher) : SpanDispatcher :=
  mkDispatcher (sd_pending d) (sd_index d) (sd_trace_tx d) (sd_span_ttl d) (sd_max_pending d)
    (wrap 64 (sd_orphans d + 1)) (sd_service_name d) (sd_host_name d).

(** ** Helpers *)

Definition DC_EPOCH_OFFSET_NS : Z := 946684800000000000.

(** [dc_time_to_datetime]; the addition is on [i64], division and remainder
    round towards zero. *)
Definition dc_time_to_datetime (utc_now : DateTime) (dc_nanos : Z) : DateTime :=
  if dc_nanos <=? 0 then utc_now
  else
    let unix_nanos := to_signed 64 (dc_nanos + DC_EPOCH_OFFSET_NS) in
    let secs := Z.quot unix_nanos 1000000000 in
    let nanos := wrap 32 (Z.rem unix_nanos 1000000000) in
    default utc_now (from_timestamp secs nanos).

(** [parse_w3c_traceparent]. *)
Definition parse_w3c_traceparent (s : string) : option (bytes * bytes) :=
  match split_on "-"%char s with
  | [version; trace_hex; span_hex; _] =>
    if negb (bool_decide (version = "00")) then None
    else if negb (String.length trace_hex =? 32)%nat then None
    else
      match hex_decode trace_hex with
      | None => None
      | Some tid =>
        if negb (length tid =? 16)%nat then None
        else if negb (String.length span_hex =? 16)%nat then None
        else
          match hex_decode span_hex with
          | None => None
          | Some sid => if negb (length sid =? 8)%nat then None else Some (tid, sid)
          end
      end
  | _ => None
  end.

(** [serde_json::json!] of an attribute value. *)
Definition attr_json (v : AttrValue) : Value :=
  match v with
  | AI64 n => json_int n
  | AF64 b => json_f64 b
  | ABool b => VBool b
  | AString s => VString s
  end.

(** A list of attributes collected into a map: a later key wins. *)
Definition collect_attrs (l : list (string * AttrValue)) : attrs :=
  fold_left (fun m kv => <[kv.1 := attr_json kv.2]> m) l ∅.

(** ** Completion of a span *)

(** The record [finalise] sends. *)
Definition record_of (d : SpanDispatcher) (p : PendingSpan) (end_time : DateTime)
    (status_code : SpanStatusCode) (status_message : string) : TraceRecord :=
  let service_name :=
    if bool_decide (ps_project_name p = "") then sd_service_name d else ps_project_name p in
  {| tr_trace_id := hex_encode (ps_trace_id p);
     tr_span_id := hex_encode (ps_span_id p);
     tr_parent_span_id := default "" (hex_encode <$> ps_parent_span_id p);
     tr_name := ps_name p; tr_kind := ps_kind p;
     tr_start_time := ps_start_time p; tr_end_time := end_time;
     tr_status_code := SpanStatusCode_as_u8 status_code;
     tr_status_message := status_message;
     tr_resource_attributes :=
       <["tc.task.index" := json_int (ps_task_index p)]>
         (build_otel_resource service_name (ps_app_name p) (sd_host_name d)
            (AmsNetId_to_string (ps_ams_net_id p)) (ps_ams_app_port p) (ps_ams_source_port p));
     tr_scope_name := ps_scope_namespace p; tr_scope_attributes := ∅;
     tr_span_attributes := attr_json <$> ps_attrs p;
     tr_events := map (fun ev => mkTraceEventRecord (pev_time ev) (pev_name ev)
                                   (collect_attrs (pev_attrs ev))) (ps_events p) |}.

Definition finalise (p : PendingSpan) (end_time : DateTime) (status_code : SpanStatusCode)
    (status_message : string) (d : SpanDispatcher) : SpanDispatcher :=
  set_trace_tx
    (try_send (sd_trace_tx d) (record_of d p end_time status_code status_message)).1 d.

(** [span_ttl.as_secs()] of a duration in milliseconds. *)
Definition timeout_message (d : SpanDispatcher) : string :=
  "span did not end within " +:+ dec (sd_span_ttl d / 1000) +:+ " seconds".

Definition finalise_timed_out (env : SpanEnv) (p : PendingSpan) (d : SpanDispatcher)
    : SpanDispatcher :=
  finalise p (env_utc env) StatusError (timeout_message d) d.

(** Removal of an open span that timed out: map, index, record. *)
Definition expire (env : SpanEnv) (key : SpanKey) (d : SpanDispatcher) : SpanDispatcher :=
  match sd_pending d !! key with
  | Some p =>
    finalise_timed_out env p
      (set_spans (delete key (sd_pending d)) (delete (ps_span_id p) (sd_index d)) d)
  | None => d
  end.

Section Iteration.
(** The order in which the map of open spans is iterated. *)
Variable span_iter : gmap SpanKey PendingSpan -> list (SpanKey * PendingSpan).

(** [iter().min_by_key(|(_, p)| p.deadline)]: the first of the least. *)
Fixpoint min_by_deadline (best : SpanKey * PendingSpan) (l : list (SpanKey * PendingSpan))
    : SpanKey * PendingSpan :=
  match l with
  | [] => best
  | kv :: l =>
    min_by_deadline (if ps_deadline kv.2 <? ps_deadline best.2 then kv else best) l
  end.

Definition oldest (pending : gmap SpanKey PendingSpan) : option SpanKey :=
  match span_iter pending with
  | [] => None
  | kv :: l => Some (min_by_deadline kv l).1
  end.

Definition evict_oldest (env : SpanEnv) (d : SpanDispatcher) : SpanDispatcher :=
  match oldest (sd_pending d) with
  | Some key => expire env key d
  | None => d
  end.

Definition sweep_timed_out (env : SpanEnv) (d : SpanDispatcher) : SpanDispatcher :=
  let expired := map fst (List.filter (fun kv => ps_deadline kv.2 <=? env_instant env)
                            (span_iter (sd_pending d))) in
  fold_left (fun d key => expire env key d) expired d.

(** ** Events *)

(** The resolution of trace id and parent at the beginning of a span. *)
Definition resolve_parent (traceparent : option string) (parent_span_id trace_id : bytes)
    (d : SpanDispatcher) : bytes * option bytes * option string * SpanDispatcher :=
  match traceparent with
  | Some tp =>
    match parse_w3c_traceparent tp with
    | Some (tid, sid) => (tid, Some sid, None, d)
    | None => (trace_id, None, None, d)
    end
  | None =>
    if negb (bool_decide (parent_span_id = zeros 8)) then
      match sd_index d !! parent_span_id with
      | Some parent_key =>
        match sd_pending d !! parent_key with
        | Some parent => (ps_trace_id parent, Some parent_span_id, None, d)
        | None => (trace_id, None, Some "parent_span_id_not_in_pending", d)
        end
      | None =>
        (trace_id, None,
         Some ("parent_span_id_" +:+ debug_bytes parent_span_id +:+ "_not_found"),
         count_orphan d)
      end
    else (trace_id, None, None, d)
  end.

(** The registered names of the span's task. *)
Definition task_names (env : SpanEnv) (net_id : AmsNetId) (port task_index : Z)
    : string * string * Z :=
  match env_registry env with
  | Some reg =>
    match lookup_task (mkKey (AmsNetId_to_string net_id) port task_index) reg with
    | Some m => (tm_app_name m, tm_project_name m, tm_app_port m)
    | None => ("", "", 0)
    end
  | None => ("", "", 0)
  end.

(** Room for the new span: at capacity the oldest open span is evicted, and a
    stale entry under the same key is flushed. *)
Definition make_room (env : SpanEnv) (key : SpanKey) (d : SpanDispatcher) : SpanDispatcher :=
  expire env key
    (if (sd_max_pending d <=? size (sd_pending d))%nat then evict_oldest env d else d).

(** The open span a begin message creates. *)
Definition new_span (env : SpanEnv) (ttl : Z) (net_id : AmsNetId) (port task_index dc_time kind : Z)
    (name : string) (trace_id span_id : bytes) (parent : option bytes)
    (orphan_reason : option string) (scope_namespace : string) : PendingSpan :=
  let '(app_name, project_name, app_port) := task_names env net_id port task_index in
  {| ps_trace_id := trace_id; ps_span_id := span_id; ps_parent_span_id := parent;
     ps_name := name; ps_kind := kind;
     ps_start_time := dc_time_to_datetime (env_utc env) dc_time;
     ps_attrs := match orphan_reason with
                 | Some reason => {["TCOTEL.orphan_reason" := AString reason]}
                 | None => ∅
                 end;
     ps_events := []; ps_deadline := env_instant env + ttl;
     ps_orphan_reason := orphan_reason; ps_ams_net_id := net_id; ps_task_index := task_index;
     ps_ams_source_port := port; ps_ams_app_port := app_port; ps_app_name := app_name;
     ps_project_name := project_name; ps_scope_namespace := scope_namespace |}.

Definition on_begin (env : SpanEnv) (net_id : AmsNetId) (port task_index dc_time : Z)
    (parent_span_id : bytes) (kind : Z) (name : string) (traceparent : option string)
    (trace_id span_id : bytes) (scope_namespace : string) (d : SpanDispatcher)
    : SpanDispatcher :=
  let key := mkSpanKey net_id span_id in
  let '(final_trace_id, final_parent, orphan_reason, d) :=
    resolve_parent traceparent parent_span_id trace_id d in
  let d := make_room env key d in
  let pending := new_span env (sd_span_ttl d) net_id port task_index dc_time kind name
                   final_trace_id span_id final_parent orphan_reason scope_namespace in
  set_spans (<[key := pending]> (sd_pending d)) (<[span_id := key]> (sd_index d)) d.

(** The open span the index leads to, changed in place. *)
Definition modify_span (span_id : bytes) (f : PendingSpan -> PendingSpan) (d : SpanDispatcher)
    : SpanDispatcher :=
  match sd_index d !! span_id with
  | Some key =>
    match sd_pending d !! key with
    | Some p => set_spans (<[key := f p]> (sd_pending d)) (sd_index d) d
    | None => d
    end
  | None => d
  end.

Definition add_attr (key : string) (value : AttrValue) (p : PendingSpan) : PendingSpan :=
  mkPendingSpan (ps_trace_id p) (ps_span_id p) (ps_parent_span_id p) (ps_name p) (ps_kind p)
    (ps_start_time p) (<[key := value]> (ps_attrs p)) (ps_events p) (ps_deadline p)
    (ps_orphan_reason p) (ps_ams_net_id p) (ps_task_index p) (ps_ams_source_port p)
    (ps_ams_app_port p) (ps_app_name p) (ps_project_name p) (ps_scope_namespace p).

Definition add_event (ev : PendingEvent) (p : PendingSpan) : PendingSpan :=
  mkPendingSpan (ps_trace_id p) (ps_span_id p) (ps_parent_span_id p) (ps_name p) (ps_kind p)
    (ps_start_time p) (ps_attrs p) (ps_events p ++ [ev]) (ps_deadline p)
    (ps_orphan_reason p) (ps_ams_net_id p) (ps_task_index p) (ps_ams_source_port p)
    (ps_ams_app_port p) (ps_app_name p) (ps_project_name p) (ps_scope_namespace p).

Definition on_attr (span_id : bytes) (key : string) (value : AttrValue) (d : SpanDispatcher)
    : SpanDispatcher := modify_span span_id (add_attr key value) d.

Definition on_event_ev (env : SpanEnv) (span_id : bytes) (dc_time : Z) (name : string)
    (attributes : list (string * AttrValue)) (d : SpanDispatcher) : SpanDispatcher :=
  modify_span span_id
    (add_event (mkPendingEvent (dc_time_to_datetime (env_utc env) dc_time) name attributes)) d.

Definition end_status (status : Z) : SpanStatusCode :=
  match status with
  | 0 => StatusUnset
  | 1 => StatusOk
  | 2 => StatusError
  | _ => StatusUnset
  end.

Definition on_end (env : SpanEnv) (span_id : bytes) (dc_time status : Z) (message : string)
    (d : SpanDispatcher) : SpanDispatcher :=
  match sd_index d !! span_id with
  | Some key =>
    match sd_pending d !! key with
    | Some p =>
      finalise p (dc_time_to_datetime (env_utc env) dc_time) (end_status status) message
        (set_spans (delete key (sd_pending d)) (delete span_id (sd_index d)) d)
    | None => d
    end
  | None => d
  end.

(** [SpanDispatcher::on_event]. *)
Definition on_event (env : SpanEnv) (net_id : AmsNetId) (port : Z) (ev : TraceWireEvent)
    (d : SpanDispatcher) : SpanDispatcher :=
  match ev with
  | Begin _ task_index _ dc_time parent_span_id kind name traceparent trace_id span_id ns =>
    on_begin env net_id port task_index dc_time parent_span_id kind name traceparent trace_id
      span_id ns d
  | Attr span_id _ _ _ key value => on_attr span_id key value d
  | Event span_id _ _ dc_time name attributes =>
    on_event_ev env span_id dc_time name attributes d
  | End span_id _ _ dc_time status message => on_end env span_id dc_time status message d
  end.

(** ** Queries *)

Definition pending_count (d : SpanDispatcher) : nat := size (sd_pending d).

Definition pending_by_span_id (span_id : bytes) (d : SpanDispatcher) : option PendingSpan :=
  key ← sd_index d !! span_id; sd_pending d !! key.

(** The loop of [current_context]: the latest start so far. *)
Definition later_span (net : AmsNetId) (task_index : Z) (best : option PendingSpan)
    (kv : SpanKey * PendingSpan) : option PendingSpan :=
  if bool_decide (sk_ams_net_id kv.1 = net) && (ps_task_index kv.2 =? task_index) then
    match best with
    | None => Some kv.2
    | Some b => if datetime_gt (ps_start_time kv.2) (ps_start_time b) then Some kv.2 else best
    end
  else best.

Definition current_context (net : AmsNetId) (task_index : Z) (d : SpanDispatcher)
    : option (string * string) :=
  match fold_left (later_span net task_index) (span_iter (sd_pending d)) None with
  | Some p => Some (hex_encode (ps_trace_id p), hex_encode (ps_span_id p))
  | None => None
  end.

(** ** The invariant *)

(** Each open span is filed under its own id and sender; each index entry
    leads to an open span with that id; open spans are bounded. *)
Record span_inv (d : SpanDispatcher) : Prop := {
  si_keys : forall k p, sd_pending d !! k = Some p ->
    ps_span_id p = sk_span_id k /\ ps_ams_net_id p = sk_ams_net_id k;
  si_index : forall s k, sd_index d !! s = Some k ->
    sk_span_id k = s /\ is_Some (sd_pending d !! k);
  si_bound : (size (sd_pending d) <= Nat.max 1 (sd_max_pending d))%nat;
}.

(** Iteration visits every open span once. *)
Hypothesis span_iter_perm : forall m, span_iter m ≡ₚ map_to_list m.

Lemma elem_of_span_iter m k p : (k, p) ∈ span_iter m <-> m !! k = Some p.
Proof using span_iter_perm. rewrite span_iter_perm. apply elem_of_map_to_list. Qed.

(** The fields an operation never touches. *)
Definition same_config (d d' : SpanDispatcher) : Prop :=
  sd_span_ttl d' = sd_span_ttl d /\ sd_max_pending d' = sd_max_pending d /\
  sd_service_name d' = sd_service_name d /\ sd_host_name d' = sd_host_name d.

Lemma expire_pending env k d : sd_pending (expire env k d) = delete k (sd_pending d).
Proof.
  unfold expire. destruct (sd_pending d !! k) eqn:Hk; [done|]. by rewrite delete_id.
Qed.

Lemma expire_index env k d :
  span_inv d ->
  sd_index (expire env k d) =
  if bool_decide (is_Some (sd_pending d !! k)) then delete (sk_span_id k) (sd_index d)
  else sd_index d.
Proof.
  intros Hi. unfold expire. destruct (sd_pending d !! k) as [p|] eqn:Hk.
  - rewrite bool_decide_true by eauto. simpl. by destruct (si_keys _ Hi _ _ Hk) as [-> _].
  - rewrite bool_decide_false; [done|]. by intros [? ?].
Qed.

Lemma expire_config env k d : same_config d (expire env k d).
Proof. unfold expire. by case_match. Qed.

Lemma expire_size env k p d :
  sd_pending d !! k = Some p -> size (sd_pending d) = S (size (sd_pending (expire env k d))).
Proof.
  intros Hk. rewrite expire_pending, map_size_delete, Hk. simpl.
  assert (size (sd_pending d) <> 0)%nat; [|lia].
  intros H0%map_size_empty_inv. by rewrite H0, lookup_empty in Hk.
Qed.

Lemma expire_inv env k d : span_inv d -> span_inv (expire env k d).
Proof.
  intros Hi. pose proof (expire_config env k d) as (_ & Hm & _).
  pose proof (expire_index env k d Hi) as Hidx. pose proof (expire_pending env k d) as Hp.
  destruct Hi as [Hkeys Hindex Hbound]. split.
  - intros k' p'. rewrite Hp, lookup_delete_Some. intros [_ Hk']. by apply Hkeys.
  - intros s k'. rewrite Hidx, Hp. case_bool_decide as Hb; [rewrite lookup_delete_Some|]; intros Hs.
    + destruct Hs as [Hne Hs]. destruct (Hindex _ _ Hs) as [Hsk Hl]. split; [done|].
      rewrite lookup_delete_ne; [done|]. by intros ->.
    + destruct (Hindex _ _ Hs) as [Hsk Hl]. split; [done|].
      rewrite lookup_delete_ne; [done|]. by intros ->.
  - rewrite Hp, Hm. etrans; [|exact Hbound]. rewrite map_size_delete. destruct (sd_pending d !! k); simpl; lia.
Qed.

Lemma min_by_deadline_spec best l :
  let m := min_by_deadline best l in
  m ∈ best :: l /\ forall kv, kv ∈ best :: l -> ps_deadline m.2 <= ps_deadline kv.2.
Proof.
  revert best. induction l as [|kv l IH]; intros best; cbn [min_by_deadline].
  - split; [by left|]. intros kv. rewrite list_elem_of_singleton. by intros ->.
  - set (b := if ps_deadline kv.2 <? ps_deadline best.2 then kv else best).
    destruct (IH b) as [Hin Hmin].
    assert (Hb : (b = kv \/ b = best) /\ ps_deadline b.2 <= ps_deadline kv.2 /\
                 ps_deadline b.2 <= ps_deadline best.2).
    { unfold b. destruct (Z.ltb_spec (ps_deadline kv.2) (ps_deadline best.2)); split_and!; auto; lia. }
    destruct Hb as (Hb & Hb1 & Hb2). pose proof (Hmin b ltac:(by left)) as Hmb. split.
    + rewrite !elem_of_cons in *. destruct Hin as [Hin|Hin]; [|by auto].
      destruct Hb as [Hb|Hb]; rewrite Hin, Hb; auto.
    + intros kv'. rewrite !elem_of_cons. intros [->|[->|Hkv]]; [lia|lia|].
      apply Hmin. by right.
Qed.

(** Eviction chooses an open span with the earliest deadline. *)
Lemma oldest_spec m :
  match oldest m with
  | Some k => exists p, m !! k = Some p /\ forall k' p', m !! k' = Some p' ->
                ps_deadline p <= ps_deadline p'
  | None => m = ∅
  end.
Proof using span_iter_perm.
  unfold oldest. pose proof (elem_of_span_iter m) as Hin.
  destruct (span_iter m) as [|kv l].
  - apply map_empty. intros k. destruct (m !! k) as [p|] eqn:Hk; [|done].
    apply Hin in Hk. by apply elem_of_nil in Hk.
  - pose proof (min_by_deadline_spec kv l) as [Hm Hmin].
    destruct (min_by_deadline kv l) as [k p]. simpl in *. exists p. split; [by apply Hin|].
    intros k' p' Hk'. apply Hin in Hk'. by apply (Hmin (k', p')).
Qed.

Lemma evict_oldest_inv env d : span_inv d -> span_inv (evict_oldest env d).
Proof. intros Hi. unfold evict_oldest. case_match; [by apply expire_inv|done]. Qed.

Lemma evict_oldest_config env d : same_config d (evict_oldest env d).
Proof. unfold evict_oldest. case_match; [apply expire_config|done]. Qed.

Lemma evict_oldest_size env d :
  size (sd_pending (evict_oldest env d)) = (size (sd_pending d) - 1)%nat.
Proof using span_iter_perm.
  unfold evict_oldest. pose proof (oldest_spec (sd_pending d)) as Ho.
  destruct (oldest (sd_pending d)) as [k|].
  - destruct Ho as (p & Hk & _). rewrite (expire_size env k p d Hk). lia.
  - rewrite Ho. by rewrite map_size_empty.
Qed.

Lemma make_room_inv env key d : span_inv d -> span_inv (make_room env key d).
Proof. intros Hi. apply expire_inv. case_match; [by apply evict_oldest_inv|done]. Qed.

Lemma make_room_config env key d : same_config d (make_room env key d).
Proof.
  unfold make_room.
  destruct (expire_config env key
    (if (sd_max_pending d <=? size (sd_pending d))%nat then evict_oldest env d else d))
    as (H1 & H2 & H3 & H4).
  destruct (evict_oldest_config env d) as (G1 & G2 & G3 & G4).
  unfold same_config. rewrite H1, H2, H3, H4. by case_match.
Qed.

Lemma make_room_size env key d :
  span_inv d -> (size (sd_pending (make_room env key d)) < Nat.max 1 (sd_max_pending d))%nat.
Proof using span_iter_perm.
  intros [_ _ Hb]. unfold make_room. rewrite expire_pending.
  eapply Nat.le_lt_trans.
  { rewrite map_size_delete. instantiate (1 := size (sd_pending
      (if (sd_max_pending d <=? size (sd_pending d))%nat then evict_oldest env d else d))).
    case_match; simpl; lia. }
  destruct (Nat.leb_spec (sd_max_pending d) (size (sd_pending d))); [|lia].
  rewrite evict_oldest_size. lia.
Qed.

Lemma resolve_parent_state tp parent tid d :
  let d' := (resolve_parent tp parent tid d).2 in
  sd_pending d' = sd_pending d /\ sd_index d' = sd_index d /\ same_config d d' /\
  sd_trace_tx d' = sd_trace_tx d.
Proof. unfold resolve_parent. repeat case_match; done. Qed.

Lemma span_inv_ext d d' :
  sd_pending d' = sd_pending d -> sd_index d' = sd_index d ->
  sd_max_pending d' = sd_max_pending d -> span_inv d -> span_inv d'.
Proof. intros Hp Hx Hm [H1 H2 H3]. split; rewrite ?Hp, ?Hx, ?Hm; done. Qed.

(** The new span goes in. *)
Lemma insert_span_inv d p :
  span_inv d -> (size (sd_pending d) < Nat.max 1 (sd_max_pending d))%nat ->
  let key := mkSpanKey (ps_ams_net_id p) (ps_span_id p) in
  span_inv (set_spans (<[key := p]> (sd_pending d)) (<[ps_span_id p := key]> (sd_index d)) d).
Proof.
  intros [Hkeys Hindex Hbound] Hs key. split; simpl.
  - intros k q. rewrite lookup_insert_Some. intros [[<- <-]|[_ Hq]]; [done|by apply Hkeys].
  - intros s k. rewrite lookup_insert_Some. intros [[<- <-]|[Hne Hk]].
    + split; [done|]. rewrite lookup_insert_eq. eauto.
    + destruct (Hindex _ _ Hk) as [Hsk Hl]. split; [done|]. rewrite lookup_insert_ne; [done|].
      intros <-. by apply Hne.
  - rewrite map_size_insert. case_match; simpl; lia.
Qed.

Lemma modify_span_inv s f d :
  (forall p, ps_span_id (f p) = ps_span_id p /\ ps_ams_net_id (f p) = ps_ams_net_id p) ->
  span_inv d -> span_inv (modify_span s f d).
Proof.
  intros Hf Hi. unfold modify_span. destruct (sd_index d !! s) as [k|]; [|done].
  destruct (sd_pending d !! k) as [p|] eqn:Hk; [|done]. destruct Hi as [Hkeys Hindex Hbound].
  split; simpl.
  - intros k' q. rewrite lookup_insert_Some. intros [[<- <-]|[_ Hq]]; [|by apply Hkeys].
    destruct (Hf p) as [-> ->]. by apply Hkeys.
  - intros s' k' Hs. destruct (Hindex _ _ Hs) as [Hsk Hl]. split; [done|].
    destruct (decide (k = k')) as [->|]; [rewrite lookup_insert_eq; eauto|by rewrite lookup_insert_ne].
  - rewrite map_size_insert, Hk. done.
Qed.

Lemma new_span_key env ttl net port ti dc kind name tid sid par reason ns :
  let p := new_span env ttl net port ti dc kind name tid sid par reason ns in
  ps_ams_net_id p = net /\ ps_span_id p = sid /\ ps_trace_id p = tid /\
  ps_parent_span_id p = par /\ ps_deadline p = env_instant env + ttl.
Proof. unfold new_span. by destruct (task_names env net port ti) as [[? ?] ?]. Qed.

Lemma on_begin_inv env net port ti dc parent kind name tp tid sid ns d :
  span_inv d -> span_inv (on_begin env net port ti dc parent kind name tp tid sid ns d).
Proof using span_iter_perm.
  intros Hi. unfold on_begin. pose proof (resolve_parent_state tp parent tid d) as Hr.
  destruct (resolve_parent tp parent tid d) as [[[tid' par] reason] d1].
  destruct Hr as (Hp & Hx & (_ & Hm & _) & _). simpl in Hp, Hx, Hm.
  assert (Hi1 : span_inv d1) by by apply (span_inv_ext d).
  set (key := mkSpanKey net sid). set (d2 := make_room env key d1).
  pose proof (make_room_config env key d1) as (_ & Hm2 & _).
  pose proof (new_span_key env (sd_span_ttl d2) net port ti dc kind name tid' sid par reason ns)
    as (Hn & Hs & _).
  set (p := new_span _ _ _ _ _ _ _ _ _ _ _ _ _) in *.
  pose proof (insert_span_inv d2 p (make_room_inv env key d1 Hi1)) as Hins.
  rewrite Hn, Hs in Hins. apply Hins. unfold d2. rewrite Hm2. by apply make_room_size.
Qed.

Lemma on_end_expire env s dc st msg d :
  span_inv d ->
  span_inv (on_end env s dc st msg d) /\
  sd_max_pending (on_end env s dc st msg d) = sd_max_pending d.
Proof.
  intros Hi. unfold on_end. destruct (sd_index d !! s) as [k|] eqn:Hs; [|done].
  destruct (sd_pending d !! k) as [p|] eqn:Hk; [|done]. split; [|done].
  destruct (si_index _ Hi _ _ Hs) as [Hsk _]. destruct (si_keys _ Hi _ _ Hk) as [Hpk _].
  apply (span_inv_ext (expire env k d)); [| |by unfold expire; rewrite Hk|by apply expire_inv].
  - by rewrite expire_pending.
  - rewrite expire_index by done. rewrite bool_decide_true by eauto. by rewrite Hsk.
Qed.

Lemma on_event_inv env net port ev d : span_inv d -> span_inv (on_event env net port ev d).
Proof using span_iter_perm.
  intros Hi. destruct ev; cbn [on_event].
  - by apply on_begin_inv.
  - by apply modify_span_inv.
  - by apply modify_span_inv.
  - by apply on_end_expire.
Qed.

Lemma sweep_inv env d : span_inv d -> span_inv (sweep_timed_out env d).
Proof.
  unfold sweep_timed_out. generalize (map fst (List.filter
    (fun kv => ps_deadline kv.2 <=? env_instant env) (span_iter (sd_pending d)))).
  intros l. revert d. induction l as [|k l IH]; intros d Hi; [done|]. simpl.
  apply IH. by apply expire_inv.
Qed.

(** ** Reachable states *)

(** A step of the dispatcher's task: an event from the router's channel or a
    tick of the sweep timer. *)
Inductive span_step : SpanDispatcher -> SpanDispatcher -> Prop :=
| step_event env net port ev d : span_step d (on_event env net port ev d)
| step_sweep env d : span_step d (sweep_timed_out env d).

(** C25: In every state the dispatcher can reach, for every order of events,
    sweeps and map iteration: each open span is filed under its own span id
    and sender, each entry of the span-id index leads to an open span with
    that id (so the parent lookup never finds a dangling entry), and there are
    never more than max(1, max_pending) open spans. *)
Theorem span_inv_reachable tx ttl max_pending d :
  rtc span_step (SpanDispatcher_new tx ttl max_pending) d -> span_inv d.
Proof using span_iter_perm.
  intros Hr. assert (Hi : span_inv (SpanDispatcher_new tx ttl max_pending)).
  { split; simpl; [intros k p|intros s k|rewrite map_size_empty; lia]; by rewrite lookup_empty. }
  induction Hr as [|d1 d2 d3 Hstep _ IH]; [done|]. apply IH.
  inversion Hstep; subst; [by apply on_event_inv|by apply sweep_inv].
Qed.

(** ** Trace context *)

(** What a begin message leaves in the state. *)
Lemma on_begin_pending env net port ti dc parent kind name tp tid sid ns d :
  let key := mkSpanKey net sid in
  let d' := on_begin env net port ti dc parent kind name tp tid sid ns d in
  let res := resolve_parent tp parent tid d in
  sd_index d' !! sid = Some key /\
  sd_pending d' !! key =
    Some (new_span env (sd_span_ttl d) net port ti dc kind name res.1.1.1 sid res.1.1.2 res.1.2 ns).
Proof.
  simpl. unfold on_begin. pose proof (resolve_parent_state tp parent tid d) as Hr.
  destruct (resolve_parent tp parent tid d) as [[[tid' par] reason] d1].
  destruct Hr as (_ & _ & (Ht & _) & _). simpl in *.
  pose proof (make_room_config env (mkSpanKey net sid) d1) as (Ht2 & _).
  rewrite !lookup_insert_eq, Ht2, Ht. done.
Qed.

Lemma expire_orphans env k d : sd_orphans (expire env k d) = sd_orphans d.
Proof. unfold expire. by case_match. Qed.

Lemma on_begin_orphans env net port ti dc parent kind name tp tid sid ns d :
  sd_orphans (on_begin env net port ti dc parent kind name tp tid sid ns d) =
  sd_orphans (resolve_parent tp parent tid d).2.
Proof.
  unfold on_begin. destruct (resolve_parent tp parent tid d) as [[[tid' par] reason] d1]. simpl.
  unfold make_room. rewrite expire_orphans. case_match; [|done].
  unfold evict_oldest. case_match; [apply expire_orphans|done].
Qed.

(** A child span joins the trace of its parent: when the parent named in
    the begin message is open and no W3C traceparent is given, the new span
    gets the parent's trace id, not the one on the wire, and keeps the parent
    id; an unknown parent makes it a root span of its own trace, marked as
    orphan and counted. *)
Theorem begin_joins_parent env net port ti dc parent kind name tid sid ns d :
  span_inv d -> parent <> zeros 8 ->
  let d' := on_begin env net port ti dc parent kind name None tid sid ns d in
  exists p, pending_by_span_id sid d' = Some p /\
  match pending_by_span_id parent d with
  | Some pp => ps_trace_id p = ps_trace_id pp /\ ps_parent_span_id p = Some parent /\
               ps_attrs p = ∅ /\ sd_orphans d' = sd_orphans d
  | None => ps_trace_id p = tid /\ ps_parent_span_id p = None /\
            is_Some (ps_attrs p !! "TCOTEL.orphan_reason") /\
            sd_orphans d' = wrap 64 (sd_orphans d + 1)
  end.
Proof.
  intros Hi Hpar. simpl. rewrite on_begin_orphans.
  pose proof (on_begin_pending env net port ti dc parent kind name None tid sid ns d) as [Hx Hp].
  simpl in Hx, Hp. unfold pending_by_span_id at 1. rewrite Hx. simpl. rewrite Hp.
  eexists. split; [done|]. unfold resolve_parent, new_span, pending_by_span_id.
  rewrite bool_decide_false by done. cbn [negb].
  destruct (task_names env net port ti) as [[? ?] ?].
  destruct (sd_index d !! parent) as [pk|] eqn:Hpk; simpl.
  - destruct (si_index _ Hi _ _ Hpk) as [_ [pp Hpp]]. by rewrite Hpp.
  - split_and!; [done..| |done]. rewrite lookup_singleton_eq. eauto.
Qed.

(** ** End of a span *)

Lemma on_end_emits env s dc st msg p d :
  span_inv d -> pending_by_span_id s d = Some p ->
  let d' := on_end env s dc st msg d in
  sd_trace_tx d' = (try_send (sd_trace_tx d)
    (record_of d p (dc_time_to_datetime (env_utc env) dc) (end_status st) msg)).1 /\
  size (sd_pending d) = S (size (sd_pending d')) /\ pending_by_span_id s d' = None.
Proof.
  intros Hi. unfold pending_by_span_id, on_end.
  destruct (sd_index d !! s) as [k|] eqn:Hs; [|done]. simpl. intros Hk. rewrite Hk. simpl.
  split_and!; [done| |by rewrite lookup_delete_eq].
  pose proof (expire_size env k p d Hk) as Hsz. by rewrite expire_pending in Hsz.
Qed.

(** ** Timeouts *)

Definition timeout_record (env : SpanEnv) (d : SpanDispatcher) (p : PendingSpan) : TraceRecord :=
  record_of d p (env_utc env) StatusError (timeout_message d).

Lemma record_of_config d d' p t c m : same_config d d' -> record_of d' p t c m = record_of d p t c m.
Proof. intros (_ & _ & Hs & Hh). unfold record_of. by rewrite Hs, Hh. Qed.

Lemma timeout_record_config env d d' p :
  same_config d d' -> timeout_record env d' p = timeout_record env d p.
Proof.
  intros Hc. unfold timeout_record, timeout_message. destruct Hc as (Ht & Hc). rewrite Ht.
  by apply record_of_config.
Qed.

Lemma expire_tx env k d :
  sd_trace_tx (expire env k d) =
  match sd_pending d !! k with
  | Some p => (try_send (sd_trace_tx d) (timeout_record env d p)).1
  | None => sd_trace_tx d
  end.
Proof. unfold expire. by case_match. Qed.

(** The channel takes everything it is sent. *)
Definition roomy : Prop := forall (tx : Sender TraceRecord) a, (try_send tx a).2 = true.

Section Room.
Context `{!MpscLaws M} (Hroom : roomy).

Lemma expire_queued env k d :
  queued (sd_trace_tx (expire env k d)) =
  queued (sd_trace_tx d) ++
  match sd_pending d !! k with Some p => [timeout_record env d p] | None => [] end.
Proof using All.
  rewrite expire_tx. case_match; [|by rewrite app_nil_r].
  by rewrite try_send_queued, Hroom.
Qed.

Lemma expire_list_queued env l d :
  NoDup l.*1 -> (forall k p, (k, p) ∈ l -> sd_pending d !! k = Some p) ->
  queued (sd_trace_tx (fold_left (fun d k => expire env k d) l.*1 d)) =
  queued (sd_trace_tx d) ++ map (fun kv => timeout_record env d kv.2) l.
Proof using All.
  revert d. induction l as [|[k p] l IH]; intros d Hnd Hl; [by rewrite app_nil_r|].
  apply NoDup_cons in Hnd as [Hk Hnd]. cbn [fmap list_fmap fst fold_left].
  change (list_fmap _ _ fst l) with l.*1. rewrite IH; [|done|].
  - rewrite expire_queued, (Hl k p) by by left. rewrite <- app_assoc. simpl. do 2 f_equal.
    apply map_ext. intros [k' p']. by apply timeout_record_config, expire_config.
  - intros k' p' Hin. rewrite expire_pending, lookup_delete_ne; [by apply Hl; right|].
    intros <-. apply Hk. apply list_elem_of_fmap. by exists (k, p').
Qed.

End Room.

Lemma expire_list_pending env l d k :
  sd_pending (fold_left (fun d k => expire env k d) l d) !! k =
  if bool_decide (k ∈ l) then None else sd_pending d !! k.
Proof.
  revert d. induction l as [|k' l IH]; intros d; [done|]. cbn [fold_left]. rewrite IH, expire_pending.
  destruct (decide (k = k')) as [->|Hne].
  - rewrite lookup_delete_eq. rewrite (bool_decide_true (_ ∈ _ :: _)) by by left. by case_bool_decide.
  - rewrite lookup_delete_ne by done. rewrite (bool_decide_ext (k ∈ k' :: l) (k ∈ l)); [done|].
    rewrite elem_of_cons. split; [by intros [?|?]|by right].
Qed.

(** The open spans a sweep at [env] finds expired, in iteration order. *)
Definition expired_spans (env : SpanEnv) (d : SpanDispatcher) : list (SpanKey * PendingSpan) :=
  List.filter (fun kv => ps_deadline kv.2 <=? env_instant env) (span_iter (sd_pending d)).

Lemma elem_of_expired env d k p :
  (k, p) ∈ expired_spans env d <->
  sd_pending d !! k = Some p /\ ps_deadline p <= env_instant env.
Proof using span_iter_perm.
  unfold expired_spans. rewrite list_elem_of_In, filter_In, <- list_elem_of_In, elem_of_span_iter.
  simpl. by rewrite Z.leb_le.
Qed.

Lemma NoDup_expired env d : NoDup (expired_spans env d).*1.
Proof using span_iter_perm.
  assert (Hnd : NoDup (span_iter (sd_pending d)).*1)
    by (rewrite span_iter_perm; apply NoDup_fst_map_to_list).
  unfold expired_spans. induction (span_iter (sd_pending d)) as [|[k p] l IH]; [done|].
  apply NoDup_cons in Hnd as [Hk Hnd]. simpl. destruct (_ <=? _); [|by apply IH].
  apply NoDup_cons. split; [|by apply IH]. intros Hin. apply Hk.
  apply list_elem_of_fmap in Hin as ([k' p'] & -> & Hin).
  apply list_elem_of_fmap. exists (k', p'). split; [done|].
  apply list_elem_of_In, filter_In in Hin as [Hin _]. by apply list_elem_of_In.
Qed.

(** A sweep closes exactly the expired spans: afterwards the open spans
    are those whose deadline is still ahead, unchanged, and, when the channel
    takes them, each expired span was sent once, with status error and the
    time of the sweep as its end. *)
Theorem sweep_exact `{!MpscLaws M} env d :
  roomy ->
  sd_pending (sweep_timed_out env d) =
    filter (fun kv => env_instant env < ps_deadline kv.2) (sd_pending d) /\
  exists l, l ≡ₚ map_to_list (filter (fun kv => ps_deadline kv.2 <= env_instant env) (sd_pending d)) /\
    queued (sd_trace_tx (sweep_timed_out env d)) =
    queued (sd_trace_tx d) ++ map (fun kv => timeout_record env d kv.2) l.
Proof using span_iter_perm.
  intros Hroom. unfold sweep_timed_out. change (map fst ?l) with l.*1.
  fold (expired_spans env d). split.
  - apply map_eq. intros k. rewrite expire_list_pending, map_lookup_filter.
    destruct (sd_pending d !! k) as [p|] eqn:Hk; simpl; [|by case_bool_decide].
    assert (Hin : k ∈ (expired_spans env d).*1 <-> ps_deadline p <= env_instant env).
    { rewrite list_elem_of_fmap. split.
      - intros ([k' p'] & -> & Hin). apply elem_of_expired in Hin as [Hk' Hd]. simpl in Hk.
        congruence.
      - intros Hd. exists (k, p). split; [done|]. by apply elem_of_expired. }
    case_bool_decide as Hb; case_guard as Hg; simpl; try done; exfalso; [|apply Hb];
      rewrite Hin in *; simpl in *; lia.
  - exists (expired_spans env d). split.
    + apply NoDup_Permutation.
      * eapply NoDup_fmap_1, NoDup_expired.
      * apply NoDup_map_to_list.
      * intros [k p]. rewrite elem_of_expired, elem_of_map_to_list, map_lookup_filter_Some. done.
    + apply expire_list_queued; [done|apply NoDup_expired|].
      intros k p Hin. by apply elem_of_expired in Hin as [? _].
Qed.

(** ** No span is lost or duplicated *)

(** What the dispatcher's task receives: an event, with its environment and
    sender, or a tick of the sweep timer. *)
Abbreviation arrival := (SpanEnv * AmsNetId * Z * TraceWireEvent)%type.

Inductive span_input :=
| InEvent (a : arrival)
| InSweep (env : SpanEnv).

Definition span_run (l : list span_input) (d : SpanDispatcher) : SpanDispatcher :=
  fold_left (fun d i => match i with
                        | InEvent a => on_event a.1.1.1 a.1.1.2 a.1.2 a.2 d
                        | InSweep env => sweep_timed_out env d
                        end) l d.

(** The number of begin messages among the inputs. *)
Fixpoint begun (l : list span_input) : nat :=
  match l with
  | [] => 0
  | InEvent (_, _, _, Begin _ _ _ _ _ _ _ _ _ _ _) :: l => S (begun l)
  | _ :: l => begun l
  end.

(** Open spans plus records sent. *)
Definition spans_total (d : SpanDispatcher) : nat :=
  (size (sd_pending d) + length (queued (sd_trace_tx d)))%nat.

Section Conservation.
Context `{!MpscLaws M} (Hroom : roomy).

Lemma expire_total env k d : spans_total (expire env k d) = spans_total d.
Proof using All.
  unfold spans_total. rewrite expire_queued by done. rewrite length_app.
  destruct (sd_pending d !! k) as [p|] eqn:Hk.
  - rewrite (expire_size env k p d Hk). simpl. lia.
  - rewrite expire_pending, delete_id by done. simpl. lia.
Qed.

Lemma evict_oldest_total env d : spans_total (evict_oldest env d) = spans_total d.
Proof using All. unfold evict_oldest. case_match; [by apply expire_total|done]. Qed.

Lemma make_room_total env key d : spans_total (make_room env key d) = spans_total d.
Proof using All.
  unfold make_room. rewrite expire_total by done. case_match; [by apply evict_oldest_total|done].
Qed.

Lemma on_begin_total env net port ti dc parent kind name tp tid sid ns d :
  spans_total (on_begin env net port ti dc parent kind name tp tid sid ns d) = S (spans_total d).
Proof using All.
  unfold on_begin. pose proof (resolve_parent_state tp parent tid d) as Hr.
  destruct (resolve_parent tp parent tid d) as [[[tid' par] reason] d1].
  destruct Hr as (Hp & _ & _ & Ht). simpl in Hp, Ht.
  pose proof (make_room_total env (mkSpanKey net sid) d1) as Htot.
  unfold spans_total in *. simpl. rewrite Hp, Ht in Htot.
  rewrite map_size_insert_None; [lia|]. unfold make_room. by rewrite expire_pending, lookup_delete_eq.
Qed.

Lemma modify_span_total s f d : spans_total (modify_span s f d) = spans_total d.
Proof.
  unfold modify_span. destruct (sd_index d !! s) as [k|]; [|done].
  destruct (sd_pending d !! k) eqn:Hk; [|done]. unfold spans_total. simpl.
  by rewrite map_size_insert, Hk.
Qed.

Lemma on_end_total env s dc st msg d :
  span_inv d -> spans_total (on_end env s dc st msg d) = spans_total d.
Proof using All.
  intros Hi. destruct (pending_by_span_id s d) as [p|] eqn:Hp.
  - destruct (on_end_emits env s dc st msg p d Hi Hp) as (Htx & Hsz & _).
    unfold spans_total. rewrite Htx, try_send_queued, Hroom, length_app. simpl. lia.
  - unfold pending_by_span_id in Hp. unfold on_end.
    destruct (sd_index d !! s) as [k|] eqn:Hs; [|done]. simpl in Hp. by rewrite Hp.
Qed.

Lemma sweep_total env d : spans_total (sweep_timed_out env d) = spans_total d.
Proof using All.
  unfold sweep_timed_out. generalize (map fst (List.filter
    (fun kv => ps_deadline kv.2 <=? env_instant env) (span_iter (sd_pending d)))).
  intros l. revert d. induction l as [|k l IH]; intros d; [done|]. simpl.
  by rewrite IH, expire_total.
Qed.

Lemma span_run_total l d :
  span_inv d -> spans_total (span_run l d) = (spans_total d + begun l)%nat.
Proof using All.
  revert d. induction l as [|i l IH]; intros d Hi; [simpl; lia|]. cbn [span_run fold_left].
  destruct i as [[[[env net] port] ev]|env]; simpl.
  - fold (span_run l (on_event env net port ev d)). rewrite IH by by apply on_event_inv.
    destruct ev; cbn [on_event].
    + rewrite on_begin_total. lia.
    + unfold on_attr. by rewrite modify_span_total.
    + unfold on_event_ev. by rewrite modify_span_total.
    + by rewrite on_end_total.
  - fold (span_run l (sweep_timed_out env d)). rewrite IH by by apply sweep_inv.
    by rewrite sweep_total.
Qed.

(** Conservation: with an output channel that takes every record, after
    any sequence of events and sweeps the number of records sent plus the
    number of open spans is the number of begin messages: every span that was
    begun is open or was sent exactly once, also under eviction, timeout and
    re-use of a span id. *)
Theorem spans_conserved tx ttl max_pending l :
  let d := span_run l (SpanDispatcher_new tx ttl max_pending) in
  (length (queued (sd_trace_tx d)) + pending_count d = length (queued tx) + begun l)%nat.
Proof using All.
  cbv zeta. set (d0 := SpanDispatcher_new tx ttl max_pending).
  assert (Hi : span_inv d0).
  { split; simpl; [intros k p|intros s k|rewrite map_size_empty; lia]; by rewrite lookup_empty. }
  pose proof (span_run_total l d0 Hi) as Ht. unfold spans_total, pending_count in *.
  change (sd_pending d0) with (∅ : gmap SpanKey PendingSpan) in Ht.
  change (sd_trace_tx d0) with tx in Ht. rewrite map_size_empty in Ht. lia.
Qed.

End Conservation.

(** ** Two senders, one span id *)

(** A begin message does not touch the open spans of other keys while there is
    room. *)
Lemma on_begin_other env net port ti dc parent kind name tp tid sid ns d k :
  (size (sd_pending d) < sd_max_pending d)%nat -> k <> mkSpanKey net sid ->
  sd_pending (on_begin env net port ti dc parent kind name tp tid sid ns d) !! k =
  sd_pending d !! k.
Proof.
  intros Hs Hk. unfold on_begin. pose proof (resolve_parent_state tp parent tid d) as Hr.
  destruct (resolve_parent tp parent tid d) as [[[tid' par] reason] d1].
  destruct Hr as (Hp & _ & (_ & Hm & _) & _). simpl in Hp, Hm. simpl.
  rewrite lookup_insert_ne by done. unfold make_room.
  rewrite (proj2 (Nat.leb_gt _ _)) by (rewrite Hp, Hm; done).
  by rewrite expire_pending, lookup_delete_ne, Hp.
Qed.

(** The index is keyed by span id alone while spans are keyed by sender
    and span id: when a second PLC begins a span with the id of an open span
    of a first PLC, the end message of the first PLC closes the second PLC's
    span, and the first PLC's own span stays open with no index entry, out of
    reach of any further message. *)
Theorem shared_span_id_misdirects env a b port ti dc parent kind name tp tid sid ns
    port2 ti2 dc2 parent2 kind2 name2 tp2 tid2 ns2 ti3 fl3 dc3 st msg d :
  span_inv d -> a <> b -> (size (sd_pending d) + 1 < sd_max_pending d)%nat ->
  let d1 := on_begin env a port ti dc parent kind name tp tid sid ns d in
  let d2 := on_begin env b port2 ti2 dc2 parent2 kind2 name2 tp2 tid2 sid ns2 d1 in
  let d3 := on_event env a port (End sid ti3 fl3 dc3 st msg) d2 in
  is_Some (sd_pending d2 !! mkSpanKey b sid) /\ sd_pending d3 !! mkSpanKey b sid = None /\
  is_Some (sd_pending d3 !! mkSpanKey a sid) /\ pending_by_span_id sid d3 = None.
Proof using span_iter_perm.
  intros Hi Hab Hs d1 d2 d3.
  assert (Hkeys : mkSpanKey a sid <> mkSpanKey b sid) by by intros [= ?].
  pose proof (on_begin_pending env a port ti dc parent kind name tp tid sid ns d) as [_ Ha].
  pose proof (on_begin_pending env b port2 ti2 dc2 parent2 kind2 name2 tp2 tid2 sid ns2 d1)
    as [Hx2 Hb]. fold d1 in Ha. fold d2 in Hx2, Hb. cbv zeta in *.
  assert (Hsz : (size (sd_pending d1) < sd_max_pending d1)%nat).
  { unfold d1, on_begin. pose proof (resolve_parent_state tp parent tid d) as Hr.
    destruct (resolve_parent tp parent tid d) as [[[tid' par] reason] dr].
    destruct Hr as (Hp & _ & (_ & Hm & _) & _). simpl in Hp, Hm. simpl.
    pose proof (make_room_config env (mkSpanKey a sid) dr) as (_ & -> & _). rewrite Hm.
    unfold make_room. rewrite (proj2 (Nat.leb_gt _ _)) by (rewrite Hp, Hm; lia).
    rewrite expire_pending, Hp, map_size_insert, map_size_delete. repeat case_match; simpl; lia. }
  assert (Ha2 : is_Some (sd_pending d2 !! mkSpanKey a sid)).
  { unfold d2. rewrite on_begin_other by done. rewrite Ha. eauto. }
  assert (Hd3 : sd_pending d3 = delete (mkSpanKey b sid) (sd_pending d2) /\
                sd_index d3 = delete sid (sd_index d2)).
  { unfold d3. cbn [on_event]. unfold on_end. by rewrite Hx2, Hb. }
  destruct Hd3 as [Hp3 Hx3]. unfold pending_by_span_id. rewrite Hp3, Hx3, !lookup_delete_eq.
  rewrite lookup_delete_ne by done. split_and!; [|done..]. rewrite Hb. eauto.
Qed.

End Iteration.

(** ** W3C trace context *)

(** A W3C traceparent "00-<trace id>-<span id>-<flags>" written in hex is
    read back to its trace id and span id, whatever the flags field holds. *)
Theorem traceparent_roundtrip `{!HexLaws H} tid sid flags :
  is_bytes tid -> length tid = 16%nat -> is_bytes sid -> length sid = 8%nat ->
  45 ∉ bytes_of_string flags ->
  parse_w3c_traceparent
    ("00" +:+ "-" +:+ hex_encode tid +:+ "-" +:+ hex_encode sid +:+ "-" +:+ flags) =
  Some (tid, sid).
Proof.
  intros Ht Hlt Hs Hls Hf. unfold parse_w3c_traceparent.
  pose proof (hex_encode_no_dash tid Ht) as Hdt. pose proof (hex_encode_no_dash sid Hs) as Hds.
  change ("-" +:+ ?r) with (String "-" r).
  rewrite split_on_app by (apply (bool_decide_unpack _); vm_compute; done).
  change ("-" +:+ ?r) with (String "-" r). rewrite split_on_app by done.
  change ("-" +:+ ?r) with (String "-" r). rewrite split_on_app by done.
  rewrite split_on_absent by done.
  rewrite bool_decide_true by done. cbn [negb]. rewrite !hex_encode_length, Hlt, Hls.
  cbn [Nat.mul Nat.add Nat.eqb negb]. rewrite !hex_decode_encode by done. rewrite Hlt, Hls. done.
Qed.

(** ** Distributed-clock time *)

(** Distributed-clock times (ns since 2000) are converted exactly: for
    every positive time that does not overflow 64 bits when shifted to the Unix
    epoch (to the year 2262), the result is the instant of that many seconds
    and nanoseconds. *)
Theorem dc_time_exact utc_now dc :
  0 < dc -> dc + DC_EPOCH_OFFSET_NS < 2 ^ 63 ->
  dc_time_to_datetime utc_now dc =
  default utc_now (from_timestamp (946684800 + dc / 1000000000) (dc mod 1000000000)).
Proof.
  intros Hpos Hmax. unfold dc_time_to_datetime. rewrite (proj2 (Z.leb_gt _ _)) by done.
  set (n := dc + DC_EPOCH_OFFSET_NS) in *. unfold DC_EPOCH_OFFSET_NS in n.
  assert (Hn : to_signed 64 n = n).
  { unfold to_signed. rewrite Z.mod_small by lia. by rewrite (proj2 (Z.ltb_lt _ _)) by lia. }
  rewrite Hn, Z.quot_div_nonneg, Z.rem_mod_nonneg by lia.
  pose proof (Z.mod_pos_bound n 1000000000).
  unfold wrap. rewrite (Z.mod_small (n mod 1000000000)) by lia.
  replace n with (dc + 946684800 * 1000000000) by (unfold n; lia).
  rewrite Z.mod_add, Z.div_add by lia. by rewrite Z.add_comm.
Qed.

End SpanDispatcher.
