(* ===== verification/SpanLife.v ===== *)
(** * The life of a span (crates/tc-otel-service: span_dispatcher.rs)

    From its begin to its end message a span shares the dispatcher with the
    events of other spans and with sweeps. This file follows one span through
    any such sequence and shows what record it becomes. *)

From S2P Require Import Prelude.
From S2P Require Import Text.
From S2P Require Import External.
From S2P Require Import Models.
From S2P Require Import Protocol.
From S2P Require Import Ams.
From S2P Require Import SpanDispatcher.

Section Life.
Context `{Ext : External} `{H : Hex} `{M : Mpsc}.
Variable span_iter : gmap SpanKey PendingSpan -> list (SpanKey * PendingSpan).
Hypothesis span_iter_perm : forall m, span_iter m ≡ₚ map_to_list m.

Abbreviation on_event := (on_event span_iter).
Abbreviation on_begin := (on_begin span_iter).
Abbreviation sweep_timed_out := (sweep_timed_out span_iter).
Abbreviation span_run := (span_run span_iter).

(** ** What the inputs carry for one span *)

(** The records of the events of span [sid], in order of arrival. *)
Definition event_records (sid : bytes) (l : list span_input) : list TraceEventRecord :=
  flat_map (fun i => match i with
    | InEvent (env, _, _, Event s _ _ dc name kvs) =>
      if bool_decide (s = sid)
      then [mkTraceEventRecord (dc_time_to_datetime (env_utc env) dc) name (collect_attrs kvs)]
      else []
    | _ => []
    end) l.

(** The values set for attribute [k] of span [sid], in order of arrival. *)
Definition attr_values (sid : bytes) (k : string) (l : list span_input) : list AttrValue :=
  flat_map (fun i => match i with
    | InEvent (_, _, _, Attr s _ _ _ key v) => if bool_decide (s = sid /\ key = k) then [v] else []
    | _ => []
    end) l.

(** Inputs between begin and end of [sid]: the begin and end messages are
    those of other span ids, and sweeps come before the deadline. *)
Definition mid_input (sid : bytes) (deadline : Z) (i : span_input) : Prop :=
  match i with
  | InEvent (_, _, _, Begin _ _ _ _ _ _ _ _ _ s _) => s <> sid
  | InEvent (_, _, _, End s _ _ _ _ _) => s <> sid
  | InEvent _ => True
  | InSweep env => env_instant env < deadline
  end.

(** What an input does to the open span [sid]. *)
Definition apply_input (sid : bytes) (i : span_input) (p : PendingSpan) : PendingSpan :=
  match i with
  | InEvent (_, _, _, Attr s _ _ _ key v) => if bool_decide (s = sid) then add_attr key v p else p
  | InEvent (env, _, _, Event s _ _ dc name kvs) =>
    if bool_decide (s = sid)
    then add_event (mkPendingEvent (dc_time_to_datetime (env_utc env) dc) name kvs) p else p
  | _ => p
  end.

Definition apply_inputs (sid : bytes) (l : list span_input) (p : PendingSpan) : PendingSpan :=
  fold_left (fun p i => apply_input sid i p) l p.

(** The record depends on the span through the events and attributes that
    arrived for it, and on what its begin message fixed. *)
Lemma record_of_inputs d sid l p t c m :
  let r := record_of d (apply_inputs sid l p) t c m in
  let r0 := record_of d p t c m in
  tr_events r = tr_events r0 ++ event_records sid l /\
  (forall k, tr_span_attributes r !! k =
     match last (attr_values sid k l) with
     | Some v => Some (attr_json v)
     | None => tr_span_attributes r0 !! k
     end) /\
  (tr_trace_id r, tr_span_id r, tr_parent_span_id r, tr_name r, tr_kind r, tr_scope_name r) =
  (tr_trace_id r0, tr_span_id r0, tr_parent_span_id r0, tr_name r0, tr_kind r0, tr_scope_name r0) /\
  (tr_start_time r, tr_end_time r, tr_status_code r, tr_status_message r,
   tr_resource_attributes r) =
  (tr_start_time r0, tr_end_time r0, tr_status_code r0, tr_status_message r0,
   tr_resource_attributes r0).
Proof.
  revert p. induction l as [|i l IH]; intros p; cbv zeta.
  { simpl. by rewrite app_nil_r. }
  destruct (IH (apply_input sid i p)) as (He & Ha & H1 & H2).
  cbn [apply_inputs fold_left] in *. fold (apply_inputs sid l (apply_input sid i p)).
  unfold event_records, attr_values in *. cbn [flat_map].
  rewrite H1, H2, He. split_and!.
  - destruct i as [[[[env net] port] []]|]; simpl; try done.
    all: case_bool_decide; simpl; rewrite ?map_app, <- ?app_assoc; done.
  - intros k. rewrite Ha, last_app. case_match; [done|].
    destruct i as [[[[env net] port] []]|]; simpl; try done; [|by case_bool_decide].
    destruct (decide (span_id = sid)) as [->|Hs].
    + rewrite (bool_decide_true (sid = sid)) by done. simpl. rewrite fmap_insert.
      case_bool_decide as Hk; [destruct Hk as [_ ->]; simpl; by rewrite lookup_insert_eq|].
      rewrite lookup_insert_ne; [done|]. intros ->. by apply Hk.
    + rewrite (bool_decide_false (span_id = sid)) by done.
      rewrite bool_decide_false; [done|]. by intros [? _].
  - destruct i as [[[[env net] port] []]|]; simpl; try done; by case_bool_decide.
  - destruct i as [[[[env net] port] []]|]; simpl; try done; by case_bool_decide.
Qed.

(** ** The span stays reachable *)

(** [p] is open under [key], the index leads to it, and no other sender has an
    open span with its id. *)
Record owns (sid : bytes) (key : SpanKey) (p : PendingSpan) (d : SpanDispatcher) : Prop := {
  ow_pending : sd_pending d !! key = Some p;
  ow_index : sd_index d !! sid = Some key;
  ow_sole : forall k, is_Some (sd_pending d !! k) -> sk_span_id k = sid -> k = key;
}.

Lemma owns_ext sid key p d d' :
  sd_pending d' = sd_pending d -> sd_index d' = sd_index d -> owns sid key p d -> owns sid key p d'.
Proof. intros Hp Hx [H1 H2 H3]. split; rewrite ?Hp, ?Hx; done. Qed.

Lemma owns_lookup sid key p d : owns sid key p d -> pending_by_span_id sid d = Some p.
Proof. intros [Hp Hx _]. unfold pending_by_span_id. by rewrite Hx. Qed.

Lemma owns_id sid key p d : span_inv d -> owns sid key p d -> sk_span_id key = sid.
Proof. intros Hi [_ Hx _]. by destruct (si_index _ Hi _ _ Hx). Qed.

Lemma owns_expire env k sid key p d :
  span_inv d -> owns sid key p d -> k <> key -> owns sid key p (expire env k d).
Proof.
  intros Hi [Hp Hx Hs] Hk. split; rewrite ?expire_pending.
  - by rewrite lookup_delete_ne.
  - rewrite expire_index by done. case_bool_decide as Hb; [|done].
    rewrite lookup_delete_ne; [done|]. intros Hsid. by apply Hk, Hs.
  - intros k' [q Hq]. apply lookup_delete_Some in Hq as [_ Hq]. eauto.
Qed.

Lemma owns_begin env net port ti dc parent kind name tp tid s ns sid key p d :
  span_inv d -> owns sid key p d -> s <> sid -> (size (sd_pending d) < sd_max_pending d)%nat ->
  owns sid key p (on_begin env net port ti dc parent kind name tp tid s ns d).
Proof.
  intros Hi Ho Hs Hsz. pose proof (owns_id _ _ _ _ Hi Ho) as Hid.
  assert (Hk : mkSpanKey net s <> key) by (intros <-; by apply Hs).
  unfold SpanDispatcher.on_begin. pose proof (resolve_parent_state tp parent tid d) as Hr.
  destruct (resolve_parent tp parent tid d) as [[[tid' par] reason] d1].
  destruct Hr as (Hp & Hx & (_ & Hm & _) & _). simpl in Hp, Hx, Hm.
  unfold make_room. rewrite (proj2 (Nat.leb_gt _ _)) by (rewrite Hp, Hm; done).
  assert (Ho' : owns sid key p (expire env (mkSpanKey net s) d1)).
  { apply owns_expire; [by apply (span_inv_ext d)|by apply (owns_ext _ _ _ d)|done]. }
  destruct Ho' as [Hp' Hx' Hs']. split; simpl.
  - by rewrite lookup_insert_ne.
  - by rewrite lookup_insert_ne.
  - intros k [q Hq]. apply lookup_insert_Some in Hq as [[<- _]|[_ Hq]]; [by intros ?|eauto].
Qed.

Lemma owns_modify s f sid key p d :
  span_inv d -> owns sid key p d ->
  owns sid key (if bool_decide (s = sid) then f p else p) (modify_span s f d).
Proof.
  intros Hi Ho. pose proof (owns_id _ _ _ _ Hi Ho) as Hid. destruct Ho as [Hp Hx Hs].
  unfold modify_span. case_bool_decide as Hb.
  - subst s. rewrite Hx, Hp. split; simpl; [by rewrite lookup_insert_eq|done|].
    intros k [q Hq]. apply lookup_insert_Some in Hq as [[<- _]|[_ Hq]]; eauto.
  - destruct (sd_index d !! s) as [k|] eqn:Hk; [|done].
    destruct (si_index _ Hi _ _ Hk) as [Hsk [q Hq]]. rewrite Hq.
    assert (k <> key) by (intros ->; by rewrite Hsk in Hid).
    split; simpl; [by rewrite lookup_insert_ne|done|].
    intros k' [q' Hq']. apply lookup_insert_Some in Hq' as [[<- _]|[_ Hq']]; eauto.
Qed.

Lemma owns_end env s dc st msg sid key p d :
  span_inv d -> owns sid key p d -> s <> sid -> owns sid key p (on_end env s dc st msg d).
Proof.
  intros Hi Ho Hne. pose proof (owns_id _ _ _ _ Hi Ho) as Hid. destruct Ho as [Hp Hx Hs].
  unfold on_end. destruct (sd_index d !! s) as [k|] eqn:Hk; [|done].
  destruct (si_index _ Hi _ _ Hk) as [Hsk [q Hq]]. rewrite Hq.
  assert (k <> key) by (intros ->; by rewrite Hsk in Hid).
  split; simpl; [by rewrite lookup_delete_ne|by rewrite lookup_delete_ne|].
  intros k' [q' Hq']. apply lookup_delete_Some in Hq' as [_ Hq']. eauto.
Qed.

Lemma owns_sweep env sid key p d :
  span_inv d -> owns sid key p d -> env_instant env < ps_deadline p ->
  owns sid key p (sweep_timed_out env d).
Proof using span_iter_perm.
  intros Hi Ho Hd. unfold SpanDispatcher.sweep_timed_out. change (map fst ?l) with l.*1.
  fold (expired_spans span_iter env d).
  assert (Hl : key ∉ (expired_spans span_iter env d).*1).
  { intros Hin. apply list_elem_of_fmap in Hin as ([k q] & -> & Hin).
    apply elem_of_expired in Hin as [Hq Hdq]; [|done]. simpl in *.
    rewrite (ow_pending _ _ _ _ Ho) in Hq. simplify_eq. lia. }
  revert Hl. generalize (expired_spans span_iter env d).*1. intros l Hl. revert d Hi Ho.
  induction l as [|k l IH]; intros d Hi Ho; [done|]. apply not_elem_of_cons in Hl as [Hk Hl].
  cbn [fold_left]. apply IH; [done|by apply expire_inv|by apply owns_expire].
Qed.

(** ** Sizes and configuration *)

Lemma modify_span_same s f d :
  size (sd_pending (modify_span s f d)) = size (sd_pending d) /\ same_config d (modify_span s f d).
Proof.
  unfold modify_span. destruct (sd_index d !! s) as [k|]; [|done].
  destruct (sd_pending d !! k) eqn:Hk; [|done]. simpl. by rewrite map_size_insert, Hk.
Qed.

Lemma expire_size_le env k d : (size (sd_pending (expire env k d)) <= size (sd_pending d))%nat.
Proof. rewrite expire_pending, map_size_delete. case_match; simpl; lia. Qed.

(** An input adds at most the span it begins, and leaves the limit alone. *)
Lemma input_size i d :
  (size (sd_pending (span_run [i] d)) <= size (sd_pending d) + begun [i])%nat /\ sd_max_pending (span_run [i] d) = sd_max_pending d.
Proof using span_iter_perm.
  destruct i as [[[[env net] port] []]|env]; cbn [SpanDispatcher.span_run fold_left begun fst snd
    SpanDispatcher.on_event].
  - unfold SpanDispatcher.on_begin. pose proof (resolve_parent_state traceparent parent_span_id trace_id d) as Hr.
    destruct (resolve_parent traceparent parent_span_id trace_id d) as [[[tid' par] reason] d1].
    destruct Hr as (Hp & _ & (_ & Hm & _) & _). simpl in Hp, Hm. simpl.
    destruct (make_room_config span_iter env (mkSpanKey net span_id) d1) as (_ & -> & _).
    split; [|done]. rewrite <- Hp. unfold make_room.
    set (d2 := if (_ <=? _)%nat then _ else _). pose proof (expire_size_le env (mkSpanKey net span_id) d2).
    assert (size (sd_pending d2) <= size (sd_pending d1))%nat.
    { unfold d2. case_match; [|done]. unfold evict_oldest. case_match; [apply expire_size_le|done]. }
    rewrite map_size_insert. case_match; simpl; lia.
  - unfold on_attr. destruct (modify_span_same span_id (add_attr key value) d) as [-> (_ & -> & _)].
    split; [lia|done].
  - unfold on_event_ev. destruct (modify_span_same span_id
      (add_event (mkPendingEvent (dc_time_to_datetime (env_utc env) dc_time) name attributes)) d)
      as [-> (_ & -> & _)]. split; [lia|done].
  - unfold on_end. repeat case_match; simpl; try (split; [lia|done]).
    split; [|done]. rewrite map_size_delete. case_match; simpl; lia.
  - unfold SpanDispatcher.sweep_timed_out. rewrite Nat.add_0_r.
    generalize (map fst (List.filter
      (fun kv => ps_deadline kv.2 <=? env_instant env) (span_iter (sd_pending d)))).
    intros l. revert d. induction l as [|k l IH]; intros d; [done|]. cbn [fold_left].
    destruct (IH (expire env k d)) as [H1 H2]. pose proof (expire_size_le env k d).
    destruct (expire_config env k d) as (_ & Hm & _). split; [lia|by rewrite H2].
Qed.

Lemma input_inv i d : span_inv d -> span_inv (span_run [i] d).
Proof using span_iter_perm.
  intros Hi. destruct i as [[[[env net] port] ev]|env]; simpl;
    [by apply on_event_inv|by apply sweep_inv].
Qed.

Lemma owns_input i sid key p d :
  span_inv d -> owns sid key p d -> mid_input sid (ps_deadline p) i ->
  (begun [i] = 0 \/ size (sd_pending d) < sd_max_pending d)%nat ->
  owns sid key (apply_input sid i p) (span_run [i] d).
Proof using span_iter_perm.
  intros Hi Ho Hm Hr. destruct i as [[[[env net] port] []]|env]; simpl in *.
  - apply owns_begin; [done..|]. by destruct Hr.
  - by apply owns_modify.
  - by apply owns_modify.
  - by apply owns_end.
  - by apply owns_sweep.
Qed.

Lemma begun_cons i l : begun (i :: l) = (begun [i] + begun l)%nat.
Proof. by destruct i as [[[[? ?] ?] []]|]. Qed.

Lemma apply_input_deadline sid i p : ps_deadline (apply_input sid i p) = ps_deadline p.
Proof. destruct i as [[[[env net] port] []]|env]; simpl; try done; by case_bool_decide. Qed.

Lemma owns_run l sid key p d :
  span_inv d -> owns sid key p d -> Forall (mid_input sid (ps_deadline p)) l ->
  (begun l = 0 \/ size (sd_pending d) + begun l <= sd_max_pending d)%nat ->
  span_inv (span_run l d) /\ owns sid key (apply_inputs sid l p) (span_run l d).
Proof using span_iter_perm.
  revert p d. induction l as [|i l IH]; intros p d Hi Ho Hl Hr; [done|].
  apply Forall_cons in Hl as [Hm Hl]. rewrite begun_cons in Hr.
  destruct (input_size i d) as [Hsz Hmax].
  change (span_run (i :: l) d) with (span_run l (span_run [i] d)). cbn [apply_inputs fold_left].
  apply IH; [by apply input_inv| |by rewrite apply_input_deadline|rewrite Hmax; lia].
  apply owns_input; [done..|]. destruct (begun [i]); lia.
Qed.

(** A begin message takes possession of its span id. *)
Lemma begin_owns env net port ti dc parent kind name tp tid sid ns d :
  let res := resolve_parent tp parent tid d in
  (forall k, is_Some (sd_pending d !! k) -> sk_span_id k = sid -> k = mkSpanKey net sid) ->
  owns sid (mkSpanKey net sid)
    (new_span env (sd_span_ttl d) net port ti dc kind name res.1.1.1 sid res.1.1.2 res.1.2 ns)
    (on_begin env net port ti dc parent kind name tp tid sid ns d).
Proof.
  intros res Hsole.
  destruct (on_begin_pending span_iter env net port ti dc parent kind name tp tid sid ns d) as [Hx Hp].
  split; [done..|]. clear Hx Hp. unfold SpanDispatcher.on_begin.
  pose proof (resolve_parent_state tp parent tid d) as Hr.
  destruct (resolve_parent tp parent tid d) as [[[tid' par] reason] d1].
  destruct Hr as (Hp & _). simpl in Hp. intros k [q Hq]. simpl in Hq.
  apply lookup_insert_Some in Hq as [[<- _]|[_ Hq]]; [done|]. apply Hsole. exists q.
  rewrite <- Hp. revert Hq. unfold make_room. rewrite expire_pending, lookup_delete_Some.
  intros [_ Hq]. revert Hq. case_match; [|done]. unfold evict_oldest. case_match; [|done].
  rewrite expire_pending, lookup_delete_Some. by intros [_ ?].
Qed.

(** C3: The life of a span: from its begin to its end message, whatever
    attributes and events arrive for it, interleaved with begins, attributes,
    events and ends of other span ids and with sweeps before its deadline, as
    long as no other sender uses its id and there is room for the spans begun
    meanwhile. The end message then sends exactly one record, which carries
    the identity, parentage and times of the two messages, the events in the
    order of their arrival and for each attribute its last value, and nothing
    else but an orphan mark; and the span is closed. *)
Theorem span_lifecycle env net port ti dc parent kind name tp tid sid ns d l
    env' net' port' ti' fl dc' st msg :
  span_inv d ->
  (forall k, is_Some (sd_pending d !! k) -> sk_span_id k = sid -> k = mkSpanKey net sid) ->
  Forall (mid_input sid (env_instant env + sd_span_ttl d)) l ->
  (begun l = 0 \/ size (sd_pending d) + begun l < sd_max_pending d)%nat ->
  let res := resolve_parent tp parent tid d in
  let d1 := on_begin env net port ti dc parent kind name tp tid sid ns d in
  let d2 := span_run l d1 in
  let d3 := on_event env' net' port' (End sid ti' fl dc' st msg) d2 in
  exists r,
    sd_trace_tx d3 = (try_send (sd_trace_tx d2) r).1 /\
    pending_by_span_id sid d3 = None /\ size (sd_pending d2) = S (size (sd_pending d3)) /\
    tr_span_id r = hex_encode sid /\ tr_name r = name /\ tr_kind r = kind /\ tr_scope_name r = ns /\
    tr_trace_id r = hex_encode res.1.1.1 /\
    tr_parent_span_id r = default "" (hex_encode <$> res.1.1.2) /\
    tr_start_time r = dc_time_to_datetime (env_utc env) dc /\
    tr_end_time r = dc_time_to_datetime (env_utc env') dc' /\
    tr_status_code r = SpanStatusCode_as_u8 (end_status st) /\ tr_status_message r = msg /\
    tr_events r = event_records sid l /\
    forall k, tr_span_attributes r !! k =
      match last (attr_values sid k l) with
      | Some v => Some (attr_json v)
      | None => if bool_decide (k = "TCOTEL.orphan_reason") then VString <$> res.1.2 else None
      end.
Proof using span_iter_perm.
  intros Hi Hsole Hl Hr res d1 d2 d3.
  pose proof (begin_owns env net port ti dc parent kind name tp tid sid ns d Hsole) as Ho.
  set (p := new_span _ _ _ _ _ _ _ _ _ _ _ _ _) in Ho. fold d1 in Ho.
  assert (Hi1 : span_inv d1) by by apply on_begin_inv.
  destruct (input_size (InEvent (env, net, port,
    Begin 0 ti 0 dc parent kind name tp tid sid ns)) d) as [Hsz Hmax].
  assert (Hp : ps_deadline p = env_instant env + sd_span_ttl d) by apply new_span_key.
  destruct (owns_run l sid _ p d1 Hi1 Ho) as [Hi2 Ho2].
  { by rewrite Hp. }
  { fold d1 in Hsz, Hmax. simpl in Hsz, Hmax. fold d1 in Hsz, Hmax. rewrite Hmax. lia. }
  destruct (on_end_emits env' sid dc' st msg _ d2 Hi2 (owns_lookup _ _ _ _ Ho2)) as (Htx & Hn & Hc).
  destruct (record_of_inputs d2 sid l p (dc_time_to_datetime (env_utc env') dc')
    (end_status st) msg) as (He & Ha & H1 & H2).
  cbv zeta in *. set (r := record_of d2 (apply_inputs sid l p) _ _ _) in *. clearbody r.
  exists r. do 3 (split; [done|]).
  injection H1 as -> -> -> -> -> ->. injection H2 as -> -> -> -> _.
  rewrite He. split_and!; try (unfold p, new_span; by destruct (task_names env net port ti) as [[? ?] ?]).
  intros k. rewrite Ha. case_match; [done|]. unfold p, new_span.
  destruct (task_names env net port ti) as [[? ?] ?]. simpl. fold res.
  destruct res.1.2 as [reason|]; simpl; [|by rewrite fmap_empty, lookup_empty; case_match].
  rewrite map_fmap_singleton. case_bool_decide as Hk; [subst k; by rewrite lookup_singleton_eq|].
  by rewrite lookup_singleton_ne.
Qed.

End Life.
