(* ===== verification/ConnectionManager.v ===== *)
(** * Connection limits (crates/tc-otel-ads: connection_manager.rs)

    [try_acquire] and the drop of a [ConnectionPermit] run concurrently on
    many threads over shared state: a semaphore, a locked map of per-address
    states, and atomic counters. Each atomic access, and each section under
    the lock, is one step; a connection attempt is a thread that goes through
    the phases of [try_acquire] and later of the drop. The theorems hold for
    every interleaving. The clock is monotonic, in milliseconds. *)

From S2P Require Import Prelude.
From S2P Require Import External.
From S2P Require Import Net.

(** ** Data *)

Record ConnectionConfig := mkConnConfig {
  cc_max_connections : nat;
  cc_idle_timeout_secs : Z;
  cc_max_connections_per_ip : nat;
  cc_rate_limit_per_sec_per_ip : nat;
  cc_keepalive_interval_secs : Z;
  cc_send_buffer_size : Z;
  cc_shutdown_timeout_secs : Z;
}.

Definition ConnectionConfig_default : ConnectionConfig := mkConnConfig 100 300 10 10 60 1048576 30.

Inductive ConnectionRejection :=
| MaxConnectionsReached
| PerIpLimitReached (ip : IpAddr) (current : nat)
| RateLimitExceeded (ip : IpAddr)
| ShuttingDown.

#[export] Instance ConnectionRejection_eq_dec : EqDecision ConnectionRejection.
Proof. solve_decision. Defined.

Record IpState := mkIpState {
  is_active : nat;
  is_timestamps : list Z;
}.

Definition IpState_new : IpState := mkIpState 0 [].

(** [IpState::prune_timestamps]. *)
Definition prune_timestamps (now : Z) (s : IpState) : IpState :=
  mkIpState (is_active s) (List.filter (fun ts => now - ts <? 1000) (is_timestamps s)).

Section ConnectionManager.
Context `{SO : SemaphoreOps}.

Record ConnectionManager := mkManager {
  cm_config : ConnectionConfig;
  cm_semaphore : Semaphore;
  cm_ip_states : gmap IpAddr IpState;
  cm_active_count : Z;
  cm_shutting_down : bool;
  cm_total_accepted : Z;
  cm_total_rejected : Z;
}.

Definition ConnectionManager_new (config : ConnectionConfig) : ConnectionManager :=
  mkManager config (semaphore_new (cc_max_connections config)) ∅ 0 false 0 0.

Definition set_semaphore (s : Semaphore) (m : ConnectionManager) : ConnectionManager :=
  mkManager (cm_config m) s (cm_ip_states m) (cm_active_count m) (cm_shutting_down m)
    (cm_total_accepted m) (cm_total_rejected m).
Definition set_ip_states (l : gmap IpAddr IpState) (m : ConnectionManager) : ConnectionManager :=
  mkManager (cm_config m) (cm_semaphore m) l (cm_active_count m) (cm_shutting_down m)
    (cm_total_accepted m) (cm_total_rejected m).
Definition add_active (n : Z) (m : ConnectionManager) : ConnectionManager :=
  mkManager (cm_config m) (cm_semaphore m) (cm_ip_states m) (wrap 64 (cm_active_count m + n))
    (cm_shutting_down m) (cm_total_accepted m) (cm_total_rejected m).
Definition count_accepted (m : ConnectionManager) : ConnectionManager :=
  mkManager (cm_config m) (cm_semaphore m) (cm_ip_states m) (cm_active_count m)
    (cm_shutting_down m) (wrap 64 (cm_total_accepted m + 1)) (cm_total_rejected m).
Definition count_rejected (m : ConnectionManager) : ConnectionManager :=
  mkManager (cm_config m) (cm_semaphore m) (cm_ip_states m) (cm_active_count m)
    (cm_shutting_down m) (cm_total_accepted m) (wrap 64 (cm_total_rejected m + 1)).

(** [ConnectionManager::shutdown]. *)
Definition shutdown (m : ConnectionManager) : ConnectionManager :=
  mkManager (cm_config m) (cm_semaphore m) (cm_ip_states m) (cm_active_count m) true
    (cm_total_accepted m) (cm_total_rejected m).

(** ** The steps of [try_acquire] and of the drop *)

(** The section under the lock: the entry of the address is created, the
    per-address limit and the rate limit are tested, the connection is
    recorded. *)
Definition check_limits (now : Z) (ip : IpAddr) (m : ConnectionManager)
    : ConnectionManager * option ConnectionRejection :=
  let state := default IpState_new (cm_ip_states m !! ip) in
  if (cc_max_connections_per_ip (cm_config m) <=? is_active state)%nat then
    (set_ip_states (<[ip := state]> (cm_ip_states m)) m,
     Some (PerIpLimitReached ip (is_active state)))
  else
    let state := prune_timestamps now state in
    if (cc_rate_limit_per_sec_per_ip (cm_config m) <=? length (is_timestamps state))%nat then
      (set_ip_states (<[ip := state]> (cm_ip_states m)) m, Some (RateLimitExceeded ip))
    else
      (set_ip_states
         (<[ip := mkIpState (is_active state + 1) (is_timestamps state ++ [now])]>
            (cm_ip_states m)) m, None).

(** The section under the lock in the drop of a permit. *)
Definition release_ip (ip : IpAddr) (m : ConnectionManager) : ConnectionManager :=
  match cm_ip_states m !! ip with
  | None => m
  | Some state =>
    let active := saturating_sub (is_active state) 1 in
    if (active =? 0)%nat && match is_timestamps state with [] => true | _ => false end
    then set_ip_states (delete ip (cm_ip_states m)) m
    else set_ip_states (<[ip := mkIpState active (is_timestamps state)]> (cm_ip_states m)) m
  end.

(** Where the thread of one connection stands. *)
Inductive phase :=
| Start
| WantPermit
| HavePermit
| Refusing (r : ConnectionRejection)
| Refused (r : ConnectionRejection)
| Rejected (r : ConnectionRejection)
| Recorded
| Counted
| Connected
| Closing
| Uncounted
| Closed.

#[export] Instance phase_eq_dec : EqDecision phase.
Proof. solve_decision. Defined.

(** One atomic action of the thread of a connection from [ip]. [Connected] is
    a held permit, its next action begins the drop; [Rejected] and [Closed]
    are final. The semaphore permit, a field of the permit, is released after
    the body of [drop]. *)
Definition act (now : Z) (ip : IpAddr) (ph : phase) (m : ConnectionManager)
    : ConnectionManager * phase :=
  match ph with
  | Start => if cm_shutting_down m then (m, Refused ShuttingDown) else (m, WantPermit)
  | WantPermit =>
    match sem_try_acquire (cm_semaphore m) with
    | Some s => (set_semaphore s m, HavePermit)
    | None => (m, Refused MaxConnectionsReached)
    end
  | HavePermit =>
    match check_limits now ip m with
    | (m, None) => (m, Recorded)
    | (m, Some r) => (m, Refusing r)
    end
  | Refusing r => (set_semaphore (sem_release (cm_semaphore m)) m, Refused r)
  | Refused r => (count_rejected m, Rejected r)
  | Recorded => (add_active 1 m, Counted)
  | Counted => (count_accepted m, Connected)
  | Connected => (release_ip ip m, Closing)
  | Closing => (add_active (-1) m, Uncounted)
  | Uncounted => (set_semaphore (sem_release (cm_semaphore m)) m, Closed)
  | Rejected _ | Closed => (m, ph)
  end.

(** [ConnectionManager::try_acquire] without interruption: at most five
    actions lead from the start to a permit or a rejection. *)
Fixpoint act_n (n : nat) (now : Z) (ip : IpAddr) (ph : phase) (m : ConnectionManager)
    : ConnectionManager * phase :=
  match n with
  | O => (m, ph)
  | S n =>
    match ph with
    | Connected | Rejected _ => (m, ph)
    | _ => let '(m, ph) := act now ip ph m in act_n n now ip ph m
    end
  end.

Definition try_acquire (now : Z) (ip : IpAddr) (m : ConnectionManager)
    : ConnectionManager * phase := act_n 5 now ip Start m.

(** [impl Drop for ConnectionPermit], then the permit's fields. *)
Definition drop_permit (now : Z) (ip : IpAddr) (m : ConnectionManager) : ConnectionManager :=
  let '(m, ph) := act now ip Connected m in
  let '(m, ph) := act now ip ph m in
  (act now ip ph m).1.

(** Queries. *)
Definition active_connections (m : ConnectionManager) : Z := cm_active_count m.

Definition connections_for_ip (ip : IpAddr) (m : ConnectionManager) : nat :=
  default 0%nat (is_active <$> cm_ip_states m !! ip).

Definition connected_ips (m : ConnectionManager) : list (IpAddr * nat) :=
  map (fun kv => (kv.1, is_active kv.2))
    (List.filter (fun kv => (0 <? is_active kv.2)%nat) (map_to_list (cm_ip_states m))).

(** [wait_for_drain] polls, with a sleep of 50 ms in between, until no
    connection is active or the timeout has passed; [polls] are the active
    count and the elapsed milliseconds that the successive turns of the loop read.
    [None]: still waiting after those turns. *)
Fixpoint wait_for_drain (config : ConnectionConfig) (polls : list (Z * Z)) : option bool :=
  match polls with
  | [] => None
  | (active, elapsed) :: polls =>
    if active =? 0 then Some true
    else if 1000 * cc_shutdown_timeout_secs config <=? elapsed then Some false
    else wait_for_drain config polls
  end.

(** ** The system of concurrent connections *)

Record System := mkSystem {
  sys_mgr : ConnectionManager;
  sys_clock : Z;
  sys_threads : gmap nat (IpAddr * phase);
  (** Accepted connections and when, newest first (for the proofs only). *)
  sys_log : list (IpAddr * Z);
}.

Definition sys_init (config : ConnectionConfig) (t0 : Z) : System :=
  mkSystem (ConnectionManager_new config) t0 ∅ [].

(** The log grows when a connection is recorded. *)
Definition log_action (now : Z) (ip : IpAddr) (ph ph' : phase) (log : list (IpAddr * Z)) :=
  match ph, ph' with
  | HavePermit, Recorded => (ip, now) :: log
  | _, _ => log
  end.

Inductive sys_step : System -> System -> Prop :=
| sys_arrive s t ip :
    sys_threads s !! t = None ->
    sys_step s (mkSystem (sys_mgr s) (sys_clock s) (<[t := (ip, Start)]> (sys_threads s)) (sys_log s))
| sys_act s t ip ph m' ph' :
    sys_threads s !! t = Some (ip, ph) ->
    act (sys_clock s) ip ph (sys_mgr s) = (m', ph') ->
    sys_step s (mkSystem m' (sys_clock s) (<[t := (ip, ph')]> (sys_threads s))
                  (log_action (sys_clock s) ip ph ph' (sys_log s)))
| sys_tick s d :
    0 <= d -> sys_step s (mkSystem (sys_mgr s) (sys_clock s + d) (sys_threads s) (sys_log s))
| sys_shutdown s :
    sys_step s (mkSystem (shutdown (sys_mgr s)) (sys_clock s) (sys_threads s) (sys_log s)).


(** ** Counting threads *)

(** The threads whose connection satisfies [P]. *)
Definition count_threads (P : IpAddr * phase -> bool) (ts : gmap nat (IpAddr * phase)) : nat :=
  size (filter (fun kv => P kv.2 = true) ts).

Definition b2n (b : bool) : nat := if b then 1%nat else 0%nat.

Lemma count_insert_new P ts t x :
  ts !! t = None -> count_threads P (<[t := x]> ts) = (b2n (P x) + count_threads P ts)%nat.
Proof.
  intros Ht. unfold count_threads. destruct (P x) eqn:HP; simpl.
  - rewrite map_filter_insert_True by done. rewrite map_size_insert_None; [done|].
    apply map_lookup_filter_None. by left.
  - rewrite map_filter_insert_False by (simpl; by rewrite HP). by rewrite delete_id.
Qed.

Lemma count_empty P : count_threads P ∅ = 0%nat.
Proof. unfold count_threads. by rewrite map_filter_empty, map_size_empty. Qed.

Lemma count_update P ts t x y :
  ts !! t = Some y ->
  (count_threads P (<[t := x]> ts) + b2n (P y) = count_threads P ts + b2n (P x))%nat.
Proof.
  intros Ht. rewrite <- (insert_delete_id ts t y Ht) at 2.
  rewrite <- (insert_delete_eq ts t x).
  rewrite !count_insert_new by apply lookup_delete_eq. lia.
Qed.

(** The thread holds a semaphore permit. *)
Definition holds (x : IpAddr * phase) : bool :=
  match x.2 with
  | HavePermit | Refusing _ | Recorded | Counted | Connected | Closing | Uncounted => true
  | _ => false
  end.

(** The thread's connection is recorded for its address. *)
Definition recorded (ip : IpAddr) (x : IpAddr * phase) : bool :=
  bool_decide (x.1 = ip) &&
  match x.2 with Recorded | Counted | Connected => true | _ => false end.

(** The thread's connection is in the global count. *)
Definition counted (x : IpAddr * phase) : bool :=
  match x.2 with Counted | Connected | Closing => true | _ => false end.

Lemma count_le (P Q : IpAddr * phase -> bool) ts :
  (forall x, P x = true -> Q x = true) -> (count_threads P ts <= count_threads Q ts)%nat.
Proof.
  intros HPQ. induction ts as [|t x ts Ht IH] using map_ind.
  - by rewrite !count_empty.
  - rewrite !count_insert_new by done. specialize (HPQ x).
    destruct (P x), (Q x); simpl; try lia.
Qed.

(** ** The limits hold in every interleaving *)

Context `{!SemaphoreLaws SO}.
#[local] Set Default Proof Using "All".
(** The section under the lock. *)
Lemma check_limits_spec now ip m m' res :
  check_limits now ip m = (m', res) ->
  cm_config m' = cm_config m /\ cm_semaphore m' = cm_semaphore m /\
  cm_active_count m' = cm_active_count m /\
  (forall ip', connections_for_ip ip' m' =
     (connections_for_ip ip' m + b2n (bool_decide (ip = ip') && bool_decide (res = None)))%nat) /\
  (res = None -> (connections_for_ip ip m < cc_max_connections_per_ip (cm_config m))%nat).
Proof.
  unfold check_limits, connections_for_ip.
  destruct (Nat.leb_spec (cc_max_connections_per_ip (cm_config m))
    (is_active (default IpState_new (cm_ip_states m !! ip)))) as [Hle|Hlt];
    [|destruct (Nat.leb_spec (cc_rate_limit_per_sec_per_ip (cm_config m))
        (length (is_timestamps (prune_timestamps now (default IpState_new (cm_ip_states m !! ip))))))];
    intros [= <- <-]; simpl; split_and!; try done.
  all: try (intros ip'; destruct (decide (ip = ip')) as [<-|Hne];
    [rewrite lookup_insert_eq, (bool_decide_true (ip = ip)) by done
    |rewrite lookup_insert_ne, (bool_decide_false (ip = ip')) by done];
    destruct (cm_ip_states m !! _); simpl; lia).
  intros _. destruct (cm_ip_states m !! ip); simpl in *; lia.
Qed.

Lemma release_ip_spec ip m :
  let m' := release_ip ip m in
  cm_config m' = cm_config m /\ cm_semaphore m' = cm_semaphore m /\
  cm_active_count m' = cm_active_count m /\
  (forall ip', connections_for_ip ip' m' =
     (connections_for_ip ip' m - b2n (bool_decide (ip = ip')))%nat).
Proof.
  unfold release_ip, connections_for_ip, saturating_sub.
  destruct (cm_ip_states m !! ip) as [st|] eqn:Hst; simpl.
  - destruct (((is_active st - 1)%nat =? 0)%nat && _) eqn:Hz; simpl; split_and!; try done;
      intros ip'; destruct (decide (ip = ip')) as [<-|Hne].
    + rewrite lookup_delete_eq, Hst, bool_decide_true by done. simpl.
      apply andb_true_iff in Hz as [Hz%Nat.eqb_eq _]. lia.
    + rewrite lookup_delete_ne, bool_decide_false by done. simpl. lia.
    + rewrite lookup_insert_eq, Hst, bool_decide_true by done. done.
    + rewrite lookup_insert_ne, bool_decide_false by done. simpl. lia.
  - split_and!; try done. intros ip'. case_bool_decide; subst; rewrite ?Hst; simpl; lia.
Qed.

(** An action that leaves the address's record alone. *)
Ltac unrecorded :=
  first [ done | simpl; lia
        | intros ? _; unfold recorded; cbn [fst snd]; rewrite !andb_false_r; done ].

(** What an action of a thread does to the resources it may hold. *)
Lemma act_spec now ip ph m m' ph' :
  act now ip ph m = (m', ph') ->
  cm_config m' = cm_config m /\
  (available_permits (cm_semaphore m') + b2n (holds (ip, ph')) =
   available_permits (cm_semaphore m) + b2n (holds (ip, ph)))%nat /\
  cm_active_count m' =
    (if bool_decide (counted (ip, ph) = counted (ip, ph')) then cm_active_count m
     else wrap 64 (cm_active_count m + (if counted (ip, ph') then 1 else -1))) /\
  (forall ip', (recorded ip' (ip, ph) = true -> 0 < connections_for_ip ip' m)%nat ->
     (connections_for_ip ip' m' + b2n (recorded ip' (ip, ph)) =
      connections_for_ip ip' m + b2n (recorded ip' (ip, ph')))%nat) /\
  (forall ip', (connections_for_ip ip' m <= cc_max_connections_per_ip (cm_config m) ->
     connections_for_ip ip' m' <= cc_max_connections_per_ip (cm_config m))%nat).
Proof.
  destruct ph; cbn [act]; intros Hact.
  - destruct (cm_shutting_down m); simplify_eq; split_and!; unrecorded.
  - destruct (sem_try_acquire (cm_semaphore m)) as [sm|] eqn:Hs; simplify_eq.
    + apply sem_try_acquire_some in Hs. split_and!; unrecorded.
    + split_and!; unrecorded.
  - destruct (check_limits now ip m) as [m1 res] eqn:Hc.
    apply check_limits_spec in Hc as (Hcfg & Hsem & Hact' & Hip & Hlt).
    destruct res as [r|]; simplify_eq; rewrite Hsem, Hact'; split_and!; try done;
      intros ip' Hm; rewrite Hip; unfold recorded; cbn [fst snd];
      rewrite ?andb_true_r, ?andb_false_r; simpl; try lia.
    specialize (Hlt eq_refl).
    destruct (decide (ip = ip')) as [<-|Hne];
      [rewrite bool_decide_true by done|rewrite bool_decide_false by done]; simpl; lia.
  - simplify_eq. cbn [set_semaphore cm_semaphore]. rewrite sem_release_available.
    split_and!; unrecorded.
  - simplify_eq. split_and!; unrecorded.
  - simplify_eq. split_and!; done.
  - simplify_eq. split_and!; done.
  - simplify_eq. split_and!; done.
  - simplify_eq. pose proof (release_ip_spec ip m) as (Hcfg & Hsem & Hact & Hip). cbv zeta in *.
    rewrite Hsem, Hact. split_and!; try done; intros ip'; rewrite Hip; [|lia].
    unfold recorded. cbn [fst snd]. rewrite andb_true_r, andb_false_r. simpl.
    case_bool_decide; simpl; [intros Hpos; specialize (Hpos eq_refl)|]; lia.
  - simplify_eq. split_and!; unrecorded.
  - simplify_eq. cbn [set_semaphore cm_semaphore]. rewrite sem_release_available.
    split_and!; unrecorded.
  - simplify_eq. split_and!; done.
Qed.

Variable config : ConnectionConfig.
Hypothesis max_fits : Z.of_nat (cc_max_connections config) < 2 ^ 64.

Record sys_inv (s : System) : Prop := {
  inv_config : cm_config (sys_mgr s) = config;
  inv_permits :
    (available_permits (cm_semaphore (sys_mgr s)) + count_threads holds (sys_threads s) =
     cc_max_connections config)%nat;
  inv_active : cm_active_count (sys_mgr s) = Z.of_nat (count_threads counted (sys_threads s));
  inv_ip : forall ip,
    connections_for_ip ip (sys_mgr s) = count_threads (recorded ip) (sys_threads s);
  inv_ip_max : forall ip,
    (connections_for_ip ip (sys_mgr s) <= cc_max_connections_per_ip config)%nat;
}.

Lemma counted_le_max s : sys_inv s ->
  (count_threads counted (sys_threads s) <= cc_max_connections config)%nat.
Proof.
  intros Hi. etrans; [|rewrite <- (inv_permits _ Hi); apply Nat.le_add_l].
  apply count_le. by intros [ip []].
Qed.

Lemma sys_inv_act s t ip ph m' ph' :
  sys_inv s -> sys_threads s !! t = Some (ip, ph) ->
  act (sys_clock s) ip ph (sys_mgr s) = (m', ph') ->
  sys_inv (mkSystem m' (sys_clock s) (<[t := (ip, ph')]> (sys_threads s))
             (log_action (sys_clock s) ip ph ph' (sys_log s))).
Proof.
  intros Hi Ht Hact. pose proof (counted_le_max s Hi) as Hcm.
  destruct (act_spec _ _ _ _ _ _ Hact) as (Hcfg & Hsem & Hac & Hip & Hipm).
  pose proof (count_update holds _ t (ip, ph') (ip, ph) Ht) as Hh.
  pose proof (count_update counted _ t (ip, ph') (ip, ph) Ht) as Hc.
  destruct Hi as [Icfg Iperm Iact Iip Imax]. split; simpl.
  - by rewrite Hcfg.
  - lia.
  - rewrite Hac, Iact. case_bool_decide as Heq.
    + rewrite Heq in Hc. lia.
    + pose proof (count_le counted holds (<[t:=(ip, ph')]> (sys_threads s))
        ltac:(by intros [? []])) as Hle.
      unfold wrap. destruct (counted (ip, ph)), (counted (ip, ph')); try done; simpl in *;
        rewrite Z.mod_small; lia.
  - intros ip'. pose proof (count_update (recorded ip') _ t (ip, ph') (ip, ph) Ht) as Hr.
    specialize (Hip ip'). rewrite Iip in Hip. rewrite <- Hip in Hr; [lia|].
    intros Hrec. assert (Hpos : (b2n (recorded ip' (ip, ph)) <= count_threads (recorded ip') (sys_threads s))%nat);
      [|rewrite Hrec in Hpos; simpl in Hpos; lia].
    rewrite <- (insert_delete_id _ _ _ Ht), count_insert_new by apply lookup_delete_eq. lia.
  - intros ip'. rewrite <- Icfg. apply Hipm. rewrite Icfg. apply Imax.
Qed.

Lemma sys_inv_init t0 : sys_inv (sys_init config t0).
Proof.
  split; cbn [sys_init ConnectionManager_new sys_mgr sys_threads cm_config cm_semaphore
    cm_active_count]; rewrite ?count_empty; try done.
  - rewrite semaphore_new_available. lia.
  - intros ip. unfold connections_for_ip. simpl. rewrite lookup_empty. simpl. lia.
Qed.

Lemma sys_inv_step s s' : sys_inv s -> sys_step s s' -> sys_inv s'.
Proof.
  intros Hi Hs. inversion Hs; subst; simpl; [|by apply sys_inv_act|by destruct Hi|by destruct Hi].
  destruct Hi as [Icfg Iperm Iact Iip Imax].
  split; simpl; try done; try (intros ip'; rewrite Iip); rewrite ?count_insert_new by done; try done.
  unfold recorded. cbn [fst snd]. by rewrite andb_false_r.
Qed.

Lemma sys_inv_reachable t0 s : rtc sys_step (sys_init config t0) s -> sys_inv s.
Proof.
  intros Hr. pose proof (sys_inv_init t0) as Hi. induction Hr; eauto using sys_inv_step.
Qed.

(** C15: The connection limits hold at every moment of every interleaving: the
    active-connection count never exceeds the configured maximum, no address
    ever has more connections than the per-address maximum, and what
    [connections_for_ip] reports is exactly the number of connections from
    that address that were recorded and not yet released. *)
Theorem connection_limits t0 s ip :
  rtc sys_step (sys_init config t0) s ->
  0 <= active_connections (sys_mgr s) <= Z.of_nat (cc_max_connections config) /\
  (connections_for_ip ip (sys_mgr s) <= cc_max_connections_per_ip config)%nat /\
  connections_for_ip ip (sys_mgr s) = count_threads (recorded ip) (sys_threads s).
Proof.
  intros Hr. apply sys_inv_reachable in Hr as Hi. pose proof (counted_le_max s Hi).
  unfold active_connections. rewrite (inv_active _ Hi).
  split_and!; [lia|lia|by apply inv_ip_max|by apply inv_ip].
Qed.

(** The thread is finished. *)
Definition finished (x : IpAddr * phase) : bool :=
  match x.2 with Rejected _ | Closed => true | _ => false end.

Lemma count_none P (ts : gmap nat (IpAddr * phase)) :
  (forall t x, ts !! t = Some x -> P x = false) -> count_threads P ts = 0%nat.
Proof.
  intros HP. unfold count_threads. apply map_size_empty_iff, map_empty. intros t.
  apply map_lookup_filter_None. destruct (ts !! t) as [x|] eqn:Ht; [|by left]. right.
  intros x' [= <-]. simpl. by rewrite (HP t x Ht).
Qed.

(** Nothing leaks: once every attempt was rejected or its permit dropped,
    in whatever order that happened, all permits are back, the active count is
    zero and no address has an active connection. *)
Theorem connections_drain t0 s :
  rtc sys_step (sys_init config t0) s ->
  (forall t x, sys_threads s !! t = Some x -> finished x = true) ->
  available_permits (cm_semaphore (sys_mgr s)) = cc_max_connections config /\
  active_connections (sys_mgr s) = 0 /\
  forall ip, connections_for_ip ip (sys_mgr s) = 0%nat.
Proof.
  intros Hr Hf. apply sys_inv_reachable in Hr as [Icfg Iperm Iact Iip Imax].
  assert (Hz : forall P, (forall x, finished x = true -> P x = false) ->
    count_threads P (sys_threads s) = 0%nat) by (intros P HP; apply count_none; eauto).
  unfold active_connections. rewrite Iact. rewrite Hz in Iperm by by intros [? []].
  rewrite Hz by by intros [? []]. split_and!; [lia|done|]. intros ip. rewrite Iip. apply Hz.
  intros [ip' []]; try done; unfold recorded; simpl; by rewrite andb_false_r.
Qed.

(** ** Rate limit *)

(** The acceptance times of an address, newest first. *)
Definition times (ip : IpAddr) (log : list (IpAddr * Z)) : list Z :=
  map snd (List.filter (fun e => bool_decide (e.1 = ip)) log).

(** Those of the last second. *)
Definition recent (now : Z) (l : list Z) : list Z := List.filter (fun t => now - t <? 1000) l.

Definition timestamps_of (ip : IpAddr) (m : ConnectionManager) : list Z :=
  default [] (is_timestamps <$> cm_ip_states m !! ip).

(** Each acceptance was within the limit when it happened. *)
Fixpoint rate_ok (log : list (IpAddr * Z)) : Prop :=
  match log with
  | [] => True
  | (ip, t) :: log' =>
    (length (recent t (times ip log)) <= cc_rate_limit_per_sec_per_ip config)%nat /\ rate_ok log'
  end.

Record rate_inv (s : System) : Prop := {
  ri_config : cm_config (sys_mgr s) = config;
  ri_stamps : forall ip,
    recent (sys_clock s) (timestamps_of ip (sys_mgr s)) =
    reverse (recent (sys_clock s) (times ip (sys_log s)));
  ri_rate : rate_ok (sys_log s);
}.

Lemma recent_app now l1 l2 : recent now (l1 ++ l2) = recent now l1 ++ recent now l2.
Proof. apply List.filter_app. Qed.

Lemma recent_later now d l : 0 <= d -> recent (now + d) (recent now l) = recent (now + d) l.
Proof.
  intros Hd. unfold recent. induction l as [|t l IH]; [done|]. simpl.
  destruct (Z.ltb_spec (now - t) 1000); simpl; [by rewrite IH|].
  rewrite (proj2 (Z.ltb_ge (now + d - t) 1000)) by lia. done.
Qed.

Lemma recent_idemp now l : recent now (recent now l) = recent now l.
Proof. pose proof (recent_later now 0 l ltac:(lia)) as H. by rewrite Z.add_0_r in H. Qed.

Lemma recent_reverse now l : recent now (reverse l) = reverse (recent now l).
Proof.
  induction l as [|t l IH]; [done|]. rewrite reverse_cons, recent_app, IH. unfold recent at 2 3.
  simpl. case_match; [by rewrite reverse_cons|by rewrite app_nil_r].
Qed.

(** The lock section, for the timestamps. *)
Lemma check_limits_rate now ip m m' res :
  check_limits now ip m = (m', res) ->
  (forall ip', recent now (timestamps_of ip' m') =
     recent now (timestamps_of ip' m) ++
     (if bool_decide (ip = ip') && bool_decide (res = None) then [now] else [])) /\
  (res = None -> (length (recent now (timestamps_of ip m)) <
                  cc_rate_limit_per_sec_per_ip (cm_config m))%nat).
Proof.
  unfold check_limits, timestamps_of. set (st := default IpState_new (cm_ip_states m !! ip)).
  assert (Hst : default [] (is_timestamps <$> cm_ip_states m !! ip) = is_timestamps st)
    by (unfold st; by destruct (cm_ip_states m !! ip)).
  assert (Hother : forall ip' s', ip <> ip' ->
    default [] (is_timestamps <$> <[ip := s']> (cm_ip_states m) !! ip') =
    default [] (is_timestamps <$> cm_ip_states m !! ip'))
    by (intros; by rewrite lookup_insert_ne).
  destruct (_ <=? is_active st)%nat; [|destruct (Nat.leb_spec
    (cc_rate_limit_per_sec_per_ip (cm_config m)) (length (is_timestamps (prune_timestamps now st))))
    as [Hle|Hlt]]; intros [= <- <-]; simpl; split; try done.
  1-3: intros ip'; destruct (decide (ip = ip')) as [<-|Hne];
    [rewrite lookup_insert_eq, bool_decide_true, Hst by done; simpl
    |rewrite Hother, bool_decide_false, app_nil_r by done; done].
  - by rewrite app_nil_r.
  - fold (recent now (is_timestamps st)). by rewrite recent_idemp, app_nil_r.
  - fold (recent now (is_timestamps st)). rewrite recent_app, recent_idemp. f_equal.
    unfold recent. simpl. by rewrite Z.sub_diag.
  - rewrite Hst. intros _. exact Hlt.
Qed.

Lemma release_ip_timestamps ip ip' m : timestamps_of ip' (release_ip ip m) = timestamps_of ip' m.
Proof.
  unfold release_ip, timestamps_of. destruct (cm_ip_states m !! ip) as [st|] eqn:Hst; [|done].
  destruct (_ && _) eqn:Hz; simpl; destruct (decide (ip = ip')) as [<-|Hne].
  - rewrite lookup_delete_eq, Hst. apply andb_true_iff in Hz as [_ Hz]. simpl.
    by destruct (is_timestamps st).
  - by rewrite lookup_delete_ne.
  - by rewrite lookup_insert_eq, Hst.
  - by rewrite lookup_insert_ne.
Qed.

(** Apart from the lock sections, actions leave the per-address states alone. *)
Lemma act_ip_states now ip ph m m' ph' :
  act now ip ph m = (m', ph') -> ph <> HavePermit -> ph <> Connected ->
  cm_ip_states m' = cm_ip_states m /\ log_action now ip ph ph' = id.
Proof.
  destruct ph; cbn [act]; intros Hact Hh Hc; try done; repeat case_match; by simplify_eq.
Qed.

Lemma rate_inv_act s t ip ph m' ph' :
  rate_inv s -> sys_threads s !! t = Some (ip, ph) ->
  act (sys_clock s) ip ph (sys_mgr s) = (m', ph') ->
  rate_inv (mkSystem m' (sys_clock s) (<[t := (ip, ph')]> (sys_threads s))
             (log_action (sys_clock s) ip ph ph' (sys_log s))).
Proof.
  intros [Rcfg Rst Rok] Ht Hact.
  destruct (act_spec _ _ _ _ _ _ Hact) as (Hcfg & _). rewrite Rcfg in Hcfg.
  assert (Hsame : forall l, cm_ip_states m' = cm_ip_states (sys_mgr s) ->
    log_action (sys_clock s) ip ph ph' = id -> l = sys_log s ->
    rate_inv (mkSystem m' (sys_clock s) (<[t := (ip, ph')]> (sys_threads s))
      (log_action (sys_clock s) ip ph ph' l))).
  { intros l Hm Hl ->. rewrite Hl. split; simpl; try done. intros ip'. unfold timestamps_of.
    rewrite Hm. apply Rst. }
  destruct (decide (ph = HavePermit \/ ph = Connected)) as [[->| ->]|Hne].
  - cbn [act] in Hact. destruct (check_limits _ _ _) as [m1 res] eqn:Hc.
    apply check_limits_rate in Hc as [Hrec Hlt]. rewrite Rcfg in Hlt.
    destruct res as [r|]; simplify_eq; simpl; split; simpl; try done.
    + intros ip'. rewrite Hrec, andb_false_r, app_nil_r. apply Rst.
    + intros ip'. rewrite Hrec, Rst, andb_true_r. unfold times. simpl.
      destruct (decide (ip = ip')) as [Heq|Hne];
        [rewrite !(bool_decide_true (ip = ip')) by done
        |rewrite !(bool_decide_false (ip = ip')), app_nil_r by done; done].
      unfold recent at 2. simpl. rewrite Z.sub_diag. simpl. by rewrite reverse_cons.
    + split; [|done]. unfold times. simpl. rewrite bool_decide_true by done. simpl.
      unfold recent. simpl. rewrite Z.sub_diag. simpl.
      specialize (Hlt eq_refl). rewrite Rst, length_reverse in Hlt. apply Hlt.
  - cbn [act] in Hact. simplify_eq. split; simpl; try done.
    intros ip'. rewrite release_ip_timestamps. apply Rst.
  - apply act_ip_states in Hact as [Hm Hl]; [by apply Hsame|naive_solver..].
Qed.

Lemma rate_inv_step s s' : rate_inv s -> sys_step s s' -> rate_inv s'.
Proof.
  intros Hr Hs. inversion Hs as [ | |? d Hd| ]; subst; simpl.
  - by destruct Hr.
  - by apply rate_inv_act.
  - destruct Hr as [Rcfg Rst Rok]. split; simpl; try done. intros ip.
    rewrite <- (recent_later (sys_clock s) d (timestamps_of _ _)) by done.
    rewrite Rst, <- recent_reverse, recent_later by done. apply recent_reverse.
  - by destruct Hr.
Qed.

(** The rate limit holds over every sliding window: in no interval of one
    second are more connections accepted from one address than the configured
    rate, in every interleaving. *)
Theorem rate_limit_holds t0 s ip (w : Z) :
  rtc sys_step (sys_init config t0) s ->
  (length (List.filter (fun t => (w <=? t) && (t <? w + 1000))%Z (times ip (sys_log s))) <=
   cc_rate_limit_per_sec_per_ip config)%nat.
Proof.
  intros Hr. assert (Hi : rate_inv s).
  { assert (H0 : rate_inv (sys_init config t0)).
    { split; [done| |done]. intros ip'. unfold timestamps_of. simpl. by rewrite lookup_empty. }
    induction Hr; eauto using rate_inv_step. }
  pose proof (ri_rate _ Hi) as Hok. induction (sys_log s) as [|[ip' t] log IH]; [simpl; lia|].
  destruct Hok as [Hle Hok]. unfold times. simpl. case_bool_decide as Hip; simpl; [|by apply IH].
  subst ip'. destruct ((w <=? t) && (t <? w + 1000)) eqn:Hw; [|by apply IH].
  etrans; [|exact Hle]. unfold times, recent. simpl. rewrite bool_decide_true by done. simpl.
  rewrite Z.sub_diag. simpl. apply le_n_S.
  apply andb_true_iff in Hw as [Hw1 Hw2]. to_prop.
  induction (map snd (List.filter (fun e => bool_decide (e.1 = ip)) log)) as [|t' l IHl]; simpl; [done|].
  destruct (Z.leb_spec w t'), (Z.ltb_spec t' (w + 1000)), (Z.ltb_spec (t - t') 1000); simpl; lia.
Qed.

(** ** Entries of addresses are never removed *)

Definition stamped (m : ConnectionManager) : Prop :=
  forall ip st, cm_ip_states m !! ip = Some st -> is_timestamps st <> [].

Lemma check_limits_stamped now ip m m' res :
  check_limits now ip m = (m', res) -> (0 < cc_max_connections_per_ip (cm_config m))%nat ->
  (0 < cc_rate_limit_per_sec_per_ip (cm_config m))%nat -> stamped m ->
  stamped m' /\ dom (cm_ip_states m) ⊆ dom (cm_ip_states m').
Proof.
  intros Hc Hmax Hrate Hst. unfold check_limits in Hc.
  set (st := default IpState_new (cm_ip_states m !! ip)) in Hc.
  assert (Hins : forall st', is_timestamps st' <> [] ->
    stamped (set_ip_states (<[ip := st']> (cm_ip_states m)) m) /\
    dom (cm_ip_states m) ⊆ dom (<[ip := st']> (cm_ip_states m))).
  { intros st' Hne. split; [|rewrite dom_insert; set_solver].
    intros ip' st''. simpl. rewrite lookup_insert_Some. intros [[_ <-]|[_ H]]; [done|by eapply Hst]. }
  destruct (Nat.leb_spec (cc_max_connections_per_ip (cm_config m)) (is_active st)) as [Hle|_];
    [|destruct (Nat.leb_spec (cc_rate_limit_per_sec_per_ip (cm_config m))
        (length (is_timestamps (prune_timestamps now st)))) as [Hle|_]];
    injection Hc as <- <-; apply Hins.
  - unfold st in *. destruct (cm_ip_states m !! ip) as [st0|] eqn:H0; [by eapply Hst|].
    simpl in Hle. lia.
  - intros E. rewrite E in Hle. simpl in Hle. lia.
  - simpl. by destruct (List.filter _ _).
Qed.

Lemma stamped_act now ip ph m m' ph' :
  act now ip ph m = (m', ph') -> (0 < cc_max_connections_per_ip (cm_config m))%nat ->
  (0 < cc_rate_limit_per_sec_per_ip (cm_config m))%nat -> stamped m ->
  stamped m' /\ dom (cm_ip_states m) ⊆ dom (cm_ip_states m').
Proof.
  intros Hact Hmax Hrate Hst.
  destruct (decide (ph = HavePermit \/ ph = Connected)) as [[->| ->]|Hne].
  - cbn [act] in Hact. destruct (check_limits now ip m) as [m1 res] eqn:Hc.
    apply check_limits_stamped in Hc; [|done..]. destruct res; by simplify_eq.
  - cbn [act] in Hact. injection Hact as <- <-. unfold release_ip.
    destruct (cm_ip_states m !! ip) as [st|] eqn:H0; [|done].
    pose proof (Hst _ _ H0) as Hne. destruct (is_timestamps st) as [|ts l] eqn:Hts; [done|].
    rewrite andb_false_r. split.
    + intros ip' st'. simpl. rewrite lookup_insert_Some. intros [[_ <-]|[_ H]]; [done|by eapply Hst].
    + simpl. rewrite dom_insert. set_solver.
  - apply act_ip_states in Hact as [Hm _]; [|naive_solver..]. unfold stamped. by rewrite Hm.
Qed.

(** With any usable configuration (both per-address limits at least one)
    the cleanup in the drop of a permit never removes an entry: a recorded
    connection leaves its timestamp in the entry and only a later attempt from
    the same address prunes it, so the map of addresses only ever grows. *)
Theorem ip_entries_only_grow t0 s s' :
  (0 < cc_max_connections_per_ip config)%nat -> (0 < cc_rate_limit_per_sec_per_ip config)%nat ->
  rtc sys_step (sys_init config t0) s -> sys_step s s' ->
  dom (cm_ip_states (sys_mgr s)) ⊆ dom (cm_ip_states (sys_mgr s')).
Proof.
  intros Hmax Hrate Hr Hs.
  assert (Hstep : forall s s', cm_config (sys_mgr s) = config -> stamped (sys_mgr s) ->
    sys_step s s' -> stamped (sys_mgr s') /\
    dom (cm_ip_states (sys_mgr s)) ⊆ dom (cm_ip_states (sys_mgr s'))).
  { intros s1 s2 Hc Hst H12. revert Hc Hst. destruct H12; intros Hc Hst; simpl; try done.
    eapply stamped_act; [done|by rewrite Hc..|done]. }
  apply Hstep; [|clear Hs|done].
  - by apply sys_inv_reachable in Hr as [].
  - assert (H0 : stamped (sys_mgr (sys_init config t0))) by (intros ip st; simpl; by rewrite lookup_empty).
    pose proof (sys_inv_init t0) as Hi.
    induction Hr as [|s1 s2 s3 H12 _ IH]; [done|]. apply IH.
    + eapply Hstep; [by destruct Hi|done..].
    + by eapply sys_inv_step.
Qed.

End ConnectionManager.
