(* ===== verification/AmsDispatcher.v ===== *)
(** * Request/response dispatcher (crates/tc-otel-ads: dispatcher.rs)

    The client side of ADS: [send_request] allocates an invoke id, registers
    a one-shot channel under it, publishes the frame over MQTT or TCP and
    waits for the response that carries the id. Requests, the MQTT event task
    and the TCP reader tasks run concurrently; each atomic access and each
    section under a lock is one step, and a request is a thread that goes
    through the phases of [send_request]. Results of the network (publish,
    connect, write, the bytes that arrive) are inputs of the steps. *)

From S2P Require Import Prelude.
From S2P Require Import Text.
From S2P Require Import External.
From S2P Require Import Ams.
From S2P Require Import Net.
From Stdlib Require Import Ascii.

(** ** Constants *)

Definition AMS_HEADER_LEN : nat := 32.
Definition MAX_AMS_PAYLOAD : Z := 16 * 1024 * 1024.
Definition MAX_AMS_FRAME : Z := Z.of_nat AMS_HEADER_LEN + MAX_AMS_PAYLOAD.
Definition AMS_STATE_RESPONSE : Z := 1.

(** ** Routes *)

Inductive TransportKind := Mqtt | Tcp.

#[export] Instance TransportKind_eq_dec : EqDecision TransportKind.
Proof. solve_decision. Defined.

Abbreviation RouteTable := (gmap AmsNetId TransportKind).

Definition RouteTable_new : RouteTable := ∅.

Definition RouteTable_learn (net : AmsNetId) (kind : TransportKind) (r : RouteTable)
    : RouteTable * bool :=
  (<[net := kind]> r,
   match r !! net with Some prev => negb (bool_decide (prev = kind)) | None => true end).

Definition RouteTable_learn_if_absent (net : AmsNetId) (kind : TransportKind) (r : RouteTable)
    : RouteTable * bool :=
  match r !! net with
  | None => (<[net := kind]> r, true)
  | Some _ => (r, false)
  end.

Definition RouteTable_forget (net : AmsNetId) (r : RouteTable) : RouteTable * option TransportKind :=
  (delete net r, r !! net).

Definition RouteTable_get (net : AmsNetId) (r : RouteTable) : option TransportKind := r !! net.

Definition RouteTable_len (r : RouteTable) : nat := size r.

Definition RouteTable_is_empty (r : RouteTable) : bool := (size r =? 0)%nat.

Definition RouteTable_snapshot (r : RouteTable) : list (AmsNetId * TransportKind) := map_to_list r.

(** ** Errors *)

(** [Duration] in nanoseconds. *)
Inductive DispatcherError :=
| NoRoute (net : AmsNetId)
| TransportNotAttached (kind : TransportKind)
| Timeout (duration : Z)
| Closed
| Ads (e : AdsError)
| MqttError (msg : string).

(** ** Socket addresses (std) *)

Record SocketAddr := mkSockAddr { sa_ip : IpAddr; sa_port : Z; sa_scope_id : Z }.

#[export] Instance SocketAddr_eq_dec : EqDecision SocketAddr.
Proof. solve_decision. Defined.

(** The first longest run of zero segments: start and length. *)
Fixpoint zero_runs (pos : nat) (run best : nat * nat) (segs : list Z) : nat * nat :=
  match segs with
  | [] => best
  | 0 :: segs =>
    let run := (if (run.2 =? 0)%nat then pos else run.1, S run.2) in
    zero_runs (S pos) run (if (best.2 <? run.2)%nat then run else best) segs
  | _ :: segs => zero_runs (S pos) (O, O) best segs
  end.

(** [impl Display for Ipv6Addr]. *)
Definition ipv6_to_string (segs : list Z) : string :=
  match segs with
  | [0; 0; 0; 0; 0; 65535; x; y] =>
    "::ffff:" +:+ ipv4_to_string (x / 256) (x mod 256) (y / 256) (y mod 256)
  | _ =>
    let part l := join ":" (map lower_hex l) in
    let '(start, n) := zero_runs 0 (O, O) (O, O) segs in
    if (1 <? n)%nat then part (take start segs) +:+ "::" +:+ part (drop (start + n) segs)
    else part segs
  end.

(** [impl Display for SocketAddr]. *)
Definition SocketAddr_to_string (a : SocketAddr) : string :=
  match sa_ip a with
  | V4 x y z w => ipv4_to_string x y z w +:+ ":" +:+ dec (sa_port a)
  | V6 segs =>
    "[" +:+ ipv6_to_string segs +:+
    (if sa_scope_id a =? 0 then "" else "%" +:+ dec (sa_scope_id a)) +:+ "]:" +:+ dec (sa_port a)
  end.

(** ** Frames *)

(** [build_ams_frame]. *)
Definition build_ams_frame (target_net_id : AmsNetId) (target_port : Z) (source_net_id : AmsNetId)
    (source_port cmd state_flags invoke_id : Z) (payload : bytes) : bytes :=
  AmsHeader_serialize
    (mkHeader target_net_id target_port source_net_id source_port cmd state_flags
       (wrap 32 (len payload)) 0 invoke_id) ++ payload.

Record ResponseFrame := mkResp { rf_header : AmsHeader; rf_payload : bytes }.

Definition is_response (h : AmsHeader) : bool :=
  negb (Z.land (state_flags h) AMS_STATE_RESPONSE =? 0).

(** [parse_info_xml]. *)
Definition parse_info_xml (payload : bytes) : option bool :=
  match from_utf8 payload with
  | None => None
  | Some s =>
    let lower := to_ascii_lowercase s in
    if str_contains ">true</online>" lower then Some true
    else if str_contains ">false</online>" lower then Some false
    else None
  end.

(** [topic_net_id]. *)
Definition topic_net_id (topic prefix : string) : option AmsNetId :=
  match strip_prefix prefix topic with
  | None => None
  | Some rest =>
    match strip_prefix "/" rest with
    | None => None
    | Some rest =>
      match split_once "/" rest with
      | None => None
      | Some (net_id, _) =>
        match AmsNetId_from_str_ref net_id with Ok n => Some n | _ => None end
      end
    end
  end.

(** ** State *)

(** The sink of frames that answer no request; a trait in the source. *)
Class InboundSink := {
  SinkState : Type;
  deliver : AmsHeader -> bytes -> SinkState -> SinkState;
}.

(** [NullSink]. *)
Definition NullSink : InboundSink := {|
  SinkState := unit;
  deliver := fun _ _ s => s;
|}.

(** A sink that keeps what it is given, in order. *)
Definition channel_sink : InboundSink := {|
  SinkState := list (AmsHeader * bytes);
  deliver := fun h p s => s ++ [(h, p)];
|}.

Record MqttPeer := mkMqttPeer { mp_topic_prefix : string }.

Definition outbound_topic (p : MqttPeer) (target : AmsNetId) : string :=
  mp_topic_prefix p +:+ "/" +:+ AmsNetId_to_string target +:+ "/ams".

(** A connection is known by a number that the operating system chose. *)
Record TcpPeer := mkPeer { tp_writer : nat; tp_addr : SocketAddr }.

Record TcpState := mkTcpState {
  ts_peers : gmap AmsNetId TcpPeer;
  ts_addrs : gmap AmsNetId SocketAddr;
}.

(** What leaves the process. *)
Inductive sent :=
| SentSubscribe (topic : string)
| SentMqtt (topic : string) (frame : bytes)
| SentTcp (conn : nat) (wire : bytes).

Section AmsDispatcher.
Context `{OS : OneshotOps} `{SK : InboundSink}.

(** [ad_pending] holds the senders; channel [t] is the one that request [t]
    waits on. [ad_readers] are the running reader tasks and [ad_wire] what
    was handed to the network, oldest first. *)
Record AmsDispatcher := mkDispatcher {
  ad_source_net_id : AmsNetId;
  ad_source_port : Z;
  ad_routes : RouteTable;
  ad_pending : gmap Z nat;
  ad_invoke_counter : Z;
  ad_mqtt : option MqttPeer;
  ad_tcp : TcpState;
  ad_inbound_sink : SinkState;
  ad_channels : gmap nat (Oneshot ResponseFrame);
  ad_readers : gmap nat AmsNetId;
  ad_wire : list sent;
}.

Definition with_routes (r : RouteTable) (d : AmsDispatcher) : AmsDispatcher :=
  mkDispatcher (ad_source_net_id d) (ad_source_port d) r (ad_pending d) (ad_invoke_counter d)
    (ad_mqtt d) (ad_tcp d) (ad_inbound_sink d) (ad_channels d) (ad_readers d) (ad_wire d).
Definition with_waiters (p : gmap Z nat) (c : gmap nat (Oneshot ResponseFrame))
    (d : AmsDispatcher) : AmsDispatcher :=
  mkDispatcher (ad_source_net_id d) (ad_source_port d) (ad_routes d) p (ad_invoke_counter d)
    (ad_mqtt d) (ad_tcp d) (ad_inbound_sink d) c (ad_readers d) (ad_wire d).
Definition with_counter (n : Z) (d : AmsDispatcher) : AmsDispatcher :=
  mkDispatcher (ad_source_net_id d) (ad_source_port d) (ad_routes d) (ad_pending d) n
    (ad_mqtt d) (ad_tcp d) (ad_inbound_sink d) (ad_channels d) (ad_readers d) (ad_wire d).
Definition with_mqtt (m : MqttPeer) (d : AmsDispatcher) : AmsDispatcher :=
  mkDispatcher (ad_source_net_id d) (ad_source_port d) (ad_routes d) (ad_pending d)
    (ad_invoke_counter d) (Some m) (ad_tcp d) (ad_inbound_sink d) (ad_channels d) (ad_readers d)
    (ad_wire d).
Definition with_tcp (peers : gmap AmsNetId TcpPeer) (addrs : gmap AmsNetId SocketAddr)
    (readers : gmap nat AmsNetId) (d : AmsDispatcher) : AmsDispatcher :=
  mkDispatcher (ad_source_net_id d) (ad_source_port d) (ad_routes d) (ad_pending d)
    (ad_invoke_counter d) (ad_mqtt d) (mkTcpState peers addrs) (ad_inbound_sink d)
    (ad_channels d) readers (ad_wire d).
Definition with_inbound (k : SinkState) (d : AmsDispatcher) : AmsDispatcher :=
  mkDispatcher (ad_source_net_id d) (ad_source_port d) (ad_routes d) (ad_pending d)
    (ad_invoke_counter d) (ad_mqtt d) (ad_tcp d) k (ad_channels d) (ad_readers d) (ad_wire d).
Definition with_sent (l : list sent) (d : AmsDispatcher) : AmsDispatcher :=
  mkDispatcher (ad_source_net_id d) (ad_source_port d) (ad_routes d) (ad_pending d)
    (ad_invoke_counter d) (ad_mqtt d) (ad_tcp d) (ad_inbound_sink d) (ad_channels d)
    (ad_readers d) (ad_wire d ++ l).

Definition peers (d : AmsDispatcher) := ts_peers (ad_tcp d).
Definition addrs (d : AmsDispatcher) := ts_addrs (ad_tcp d).

(** [AmsDispatcher::with_sink]; [AmsDispatcher::new] is the same with [NullSink]. *)
Definition with_sink (net : AmsNetId) (port : Z) (sink : SinkState) : AmsDispatcher :=
  mkDispatcher net port RouteTable_new ∅ 1 None (mkTcpState ∅ ∅) sink ∅ ∅ [].

(** [attach_mqtt], up to the event loop it spawns. *)
Definition attach_mqtt (topic_prefix : string) (d : AmsDispatcher)
    : outcome DispatcherError AmsDispatcher :=
  match ad_mqtt d with
  | Some _ => Err (MqttError "MQTT transport already attached")
  | None => Ok (with_mqtt (mkMqttPeer topic_prefix) d)
  end.

(** The [ConnAck] arm of the event loop. *)
Definition on_connack (topic_prefix : string) (d : AmsDispatcher) : AmsDispatcher :=
  with_sent
    [SentSubscribe (topic_prefix +:+ "/+/ams/res");
     SentSubscribe (topic_prefix +:+ "/" +:+ AmsNetId_to_string (ad_source_net_id d) +:+ "/ams");
     SentSubscribe (topic_prefix +:+ "/+/info")] d.

Definition add_static_route (net : AmsNetId) (kind : TransportKind) (d : AmsDispatcher) :=
  with_routes (RouteTable_learn net kind (ad_routes d)).1 d.

Definition remember_addr (net : AmsNetId) (addr : SocketAddr) (d : AmsDispatcher) :=
  with_tcp (peers d) (<[net := addr]> (addrs d)) (ad_readers d) d.

Definition add_tcp_peer (net : AmsNetId) (addr : SocketAddr) (d : AmsDispatcher) :=
  remember_addr net addr (with_routes (RouteTable_learn_if_absent net Tcp (ad_routes d)).1 d).

Definition force_tcp_peer (net : AmsNetId) (addr : SocketAddr) (d : AmsDispatcher) :=
  remember_addr net addr (with_routes (RouteTable_learn net Tcp (ad_routes d)).1 d).

(** ** The table of waiting requests *)

(** [pending.insert(id, tx)] with a fresh channel; a sender that was
    registered under the id is dropped. *)
Definition pending_insert (id : Z) (t : nat) (d : AmsDispatcher) : AmsDispatcher :=
  let channels := <[t := oneshot_channel]> (ad_channels d) in
  with_waiters (<[id := t]> (ad_pending d))
    (match ad_pending d !! id with
     | Some old => alter oneshot_drop_tx old channels
     | None => channels
     end) d.

(** [pending.remove(&id)], the sender dropped. *)
Definition pending_remove (id : Z) (d : AmsDispatcher) : AmsDispatcher :=
  match ad_pending d !! id with
  | Some t => with_waiters (delete id (ad_pending d)) (alter oneshot_drop_tx t (ad_channels d)) d
  | None => d
  end.

(** The waiter of a response is taken out of the table and served. *)
Definition serve_waiter (h : AmsHeader) (body : bytes) (d : AmsDispatcher) : AmsDispatcher :=
  match ad_pending d !! invoke_id h with
  | Some t =>
    with_waiters (delete (invoke_id h) (ad_pending d))
      (alter (oneshot_send (mkResp h body)) t (ad_channels d)) d
  | None => d
  end.

(** ** What arrives over MQTT *)

(** [handle_incoming_mqtt] up to the route table: what is left to deliver. *)
Definition mqtt_receive (topic : string) (payload : bytes) (topic_prefix : string)
    (d : AmsDispatcher) : outcome AdsError (AmsDispatcher * option (AmsHeader * bytes)) :=
  if str_ends_with "/info" topic then
    match topic_net_id topic topic_prefix, parse_info_xml payload with
    | Some net, Some true => Ok (with_routes (RouteTable_learn net Mqtt (ad_routes d)).1 d, None)
    | Some net, Some false => Ok (with_routes (RouteTable_forget net (ad_routes d)).1 d, None)
    | _, _ => Ok (d, None)
    end
  else if negb (str_ends_with "/ams" topic) && negb (str_ends_with "/ams/res" topic) then Ok (d, None)
  else if (length payload <? AMS_HEADER_LEN)%nat then Ok (d, None)
  else
    (head <-- slice_or_panic payload 0 AMS_HEADER_LEN ;;
     match AmsHeader_parse head with
     | Ok header =>
       body <-- slice_or_panic payload AMS_HEADER_LEN (length payload) ;;
       let d :=
         if bool_decide (source_net_id header <> ad_source_net_id d) then
           with_routes
             (RouteTable_learn_if_absent (source_net_id header) Mqtt (ad_routes d)).1 d
         else d in
       Ok (d, Some (header, body))
     | Err _ => Ok (d, None)
     | Panic => Panic
     | OutOfFuel => OutOfFuel
     end)%rust.

(** The rest of [handle_incoming_mqtt], one section under the lock. *)
Definition mqtt_deliver (header : AmsHeader) (body : bytes) (d : AmsDispatcher) : AmsDispatcher :=
  if is_response header then
    if bool_decide (target_net_id header <> ad_source_net_id d) ||
       negb (target_port header =? ad_source_port d) then d
    else serve_waiter header body d
  else with_inbound (deliver header body (ad_inbound_sink d)) d.

Definition handle_incoming_mqtt (topic : string) (payload : bytes) (topic_prefix : string)
    (d : AmsDispatcher) : outcome AdsError AmsDispatcher :=
  (r <-- mqtt_receive topic payload topic_prefix d ;;
   Ok (match r.2 with
       | Some (header, body) => mqtt_deliver header body r.1
       | None => r.1
       end))%rust.

(** ** What arrives over TCP *)

(** The reads of one turn of the loop of [run_tcp_reader] on what the peer
    sends until it closes the connection; [None]: the loop ends. *)
Definition read_frame (stream : bytes) : option (bytes * bytes) :=
  if (length stream <? 6)%nat then None
  else
    let total_len := le_decode (take 4 (drop 2 stream)) in
    if (total_len =? 0) || (MAX_AMS_FRAME <? total_len) then None
    else
      let rest := drop 6 stream in
      if len rest <? total_len then None
      else Some (take (Z.to_nat total_len) rest, drop (Z.to_nat total_len) rest).

(** What a turn does with the frame. *)
Definition tcp_deliver (body : bytes) (d : AmsDispatcher) : outcome AdsError AmsDispatcher :=
  if (length body <? AMS_HEADER_LEN)%nat then Ok d
  else
    (head <-- slice_or_panic body 0 AMS_HEADER_LEN ;;
     match AmsHeader_parse head with
     | Ok header =>
       payload <-- slice_or_panic body AMS_HEADER_LEN (length body) ;;
       Ok (if is_response header then serve_waiter header payload d
           else with_inbound (deliver header payload (ad_inbound_sink d)) d)
     | Err _ => Ok d
     | Panic => Panic
     | OutOfFuel => OutOfFuel
     end)%rust.

Fixpoint tcp_reader_loop (fuel : nat) (stream : bytes) (d : AmsDispatcher)
    : outcome AdsError AmsDispatcher :=
  match fuel with
  | O => OutOfFuel
  | S fuel =>
    match read_frame stream with
    | None => Ok d
    | Some (body, rest) => (d <-- tcp_deliver body d ;; tcp_reader_loop fuel rest d)%rust
    end
  end.

(** The reader of connection [conn] has left its loop. *)
Definition reader_exit (conn : nat) (target : AmsNetId) (d : AmsDispatcher) : AmsDispatcher :=
  with_tcp (delete target (peers d)) (addrs d) (delete conn (ad_readers d)) d.

(** [run_tcp_reader] without interruption. *)
Definition run_tcp_reader (conn : nat) (target : AmsNetId) (stream : bytes) (d : AmsDispatcher)
    : outcome AdsError AmsDispatcher :=
  (d <-- tcp_reader_loop (S (length stream)) stream d ;; Ok (reader_exit conn target d))%rust.

(** ** [send_request] *)

Record Request := mkRequest {
  rq_target_net_id : AmsNetId;
  rq_target_port : Z;
  rq_cmd : Z;
  rq_payload : bytes;
  rq_timeout : Z;
}.

(** Where a request stands. From [PublishMqtt] and [TcpLookup] on it is in
    the table; [Cancelled] is a request whose future was dropped. *)
Inductive Phase :=
| Routing
| Allocating (transport : TransportKind)
| Registering (transport : TransportKind) (id : Z) (frame : bytes)
| PublishMqtt (id : Z) (frame : bytes)
| TcpLookup (id : Z) (frame : bytes)
| TcpAddress (id : Z) (frame : bytes)
| TcpConnect (id : Z) (frame : bytes) (addr : SocketAddr)
| TcpInsert (id : Z) (frame : bytes) (peer : TcpPeer)
| TcpWrite (id : Z) (frame : bytes) (peer : TcpPeer)
| TcpDrop (id : Z) (e : DispatcherError)
| Waiting (id : Z)
| Unregister (id : Z) (e : DispatcherError)
| Done (r : outcome DispatcherError bytes)
| Cancelled (id : option Z).

(** What the network or the runtime contributes to a step. *)
Inductive event :=
| Run
| PublishResult (error : option string)
| ConnectResult (r : nat + string)
| WriteResult (error : option string)
| Elapsed
| Cancel.

(** The result of a response that arrived in time. *)
Definition response_result (resp : ResponseFrame) : outcome DispatcherError bytes :=
  if negb (error_code (rf_header resp) =? 0) then
    Err (Ads (BufferError ("ADS error 0x" +:+ lower_hex (error_code (rf_header resp)) +:+ " from " +:+
                           AmsNetId_to_string (source_net_id (rf_header resp)))))
  else Ok (rf_payload resp).

(** The id under which a request in this Phase has been registered. *)
Definition registered_id (ph : Phase) : option Z :=
  match ph with
  | PublishMqtt id _ | TcpLookup id _ | TcpAddress id _ | TcpConnect id _ _ | TcpInsert id _ _
  | TcpWrite id _ _ | TcpDrop id _ | Waiting id | Unregister id _ => Some id
  | Cancelled id => id
  | _ => None
  end.

(** The frame of a request. *)
Definition request_frame (rq : Request) (id : Z) (d : AmsDispatcher) : bytes :=
  build_ams_frame (rq_target_net_id rq) (rq_target_port rq) (ad_source_net_id d)
    (ad_source_port d) (rq_cmd rq) 4 id (rq_payload rq).

(** [wire] of [publish_tcp]. *)
Definition tcp_wire (frame : bytes) : bytes := [0; 0] ++ le_encode 4 (len frame) ++ frame.

(** One step of request [t]; [None] when the event does not concern it. *)
Definition request_step (t : nat) (rq : Request) (ev : event) (ph : Phase) (d : AmsDispatcher)
    : option (AmsDispatcher * Phase) :=
  let target := rq_target_net_id rq in
  match ph, ev with
  | Done _, _ | Cancelled _, _ => None
  | _, Cancel => Some (d, Cancelled (registered_id ph))
  | Routing, Run =>
    match RouteTable_get target (ad_routes d) with
    | None => Some (d, Done (Err (NoRoute target)))
    | Some transport => Some (d, Allocating transport)
    end
  | Allocating transport, Run =>
    let id := ad_invoke_counter d in
    Some (with_counter (wrap 32 (id + 1)) d, Registering transport id (request_frame rq id d))
  | Registering transport id frame, Run =>
    Some (pending_insert id t d,
          match transport with Mqtt => PublishMqtt id frame | Tcp => TcpLookup id frame end)
  | PublishMqtt id frame, Run =>
    match ad_mqtt d with
    | None => Some (d, Unregister id (TransportNotAttached Mqtt))
    | Some _ => None
    end
  | PublishMqtt id frame, PublishResult error =>
    match ad_mqtt d, error with
    | Some mqtt, None => Some (with_sent [SentMqtt (outbound_topic mqtt target) frame] d, Waiting id)
    | Some _, Some e => Some (d, Unregister id (MqttError e))
    | None, _ => None
    end
  | TcpLookup id frame, Run =>
    match peers d !! target with
    | Some peer => Some (d, TcpWrite id frame peer)
    | None => Some (d, TcpAddress id frame)
    end
  | TcpAddress id frame, Run =>
    match addrs d !! target with
    | None => Some (d, Unregister id (NoRoute target))
    | Some addr => Some (d, TcpConnect id frame addr)
    end
  | TcpConnect id frame addr, ConnectResult (inr e) =>
    Some (d, Unregister id (MqttError ("tcp connect to " +:+ SocketAddr_to_string addr +:+
                                       " failed: " +:+ e)))
  | TcpConnect id frame addr, ConnectResult (inl conn) =>
    match ad_readers d !! conn with
    | Some _ => None
    | None =>
      Some (with_tcp (peers d) (addrs d) (<[conn := target]> (ad_readers d)) d,
            TcpInsert id frame (mkPeer conn addr))
    end
  | TcpInsert id frame peer, Run =>
    Some (with_tcp (<[target := peer]> (peers d)) (addrs d) (ad_readers d) d,
          TcpWrite id frame peer)
  | TcpWrite id frame peer, WriteResult None =>
    Some (with_sent [SentTcp (tp_writer peer) (tcp_wire frame)] d, Waiting id)
  | TcpWrite id frame peer, WriteResult (Some e) =>
    Some (d, TcpDrop id (MqttError ("tcp write: " +:+ e)))
  | TcpDrop id e, Run =>
    Some (with_tcp (delete target (peers d)) (addrs d) (ad_readers d) d, Unregister id e)
  | Waiting id, Run =>
    match ad_channels d !! t with
    | Some c =>
      match oneshot_poll c with
      | Some (Some resp) => Some (d, Done (response_result resp))
      | Some None => Some (d, Unregister id Closed)
      | None => None
      end
    | None => None
    end
  | Waiting id, Elapsed =>
    match ad_channels d !! t with
    | Some c =>
      match oneshot_poll c with
      | None => Some (d, Unregister id (Timeout (rq_timeout rq)))
      | Some _ => None
      end
    | None => None
    end
  | Unregister id e, Run => Some (pending_remove id d, Done (Err e))
  | _, _ => None
  end.

(** ** The system *)

(** [sy_ids], [sy_allocs] and [sy_received] are for the proofs only: the ids
    that were given out, how many, and the responses that were looked up in
    the table. [sy_task] is what the MQTT task has yet to deliver. *)
Record DispatcherSystem := mkSystem {
  sy_disp : AmsDispatcher;
  sy_threads : gmap nat (Request * Phase);
  sy_task : option (AmsHeader * bytes);
  sy_ids : gmap nat Z;
  sy_allocs : nat;
  sy_received : list ResponseFrame;
}.

Definition disp_init (net : AmsNetId) (port : Z) (sink : SinkState) : DispatcherSystem :=
  mkSystem (with_sink net port sink) ∅ None ∅ 0 [].

(** The operations a caller runs on the dispatcher besides requests. *)
Inductive admin : AmsDispatcher -> AmsDispatcher -> Prop :=
| admin_mqtt prefix d d' : attach_mqtt prefix d = Ok d' -> admin d d'
| admin_connack prefix d : admin d (on_connack prefix d)
| admin_route net kind d : admin d (add_static_route net kind d)
| admin_add net addr d : admin d (add_tcp_peer net addr d)
| admin_force net addr d : admin d (force_tcp_peer net addr d).

Inductive disp_step : DispatcherSystem -> DispatcherSystem -> Prop :=
| step_admin d d' ts k ids n rs :
    admin d d' -> disp_step (mkSystem d ts k ids n rs) (mkSystem d' ts k ids n rs)
| step_request d ts k ids n rs t rq :
    ts !! t = None ->
    disp_step (mkSystem d ts k ids n rs) (mkSystem d (<[t := (rq, Routing)]> ts) k ids n rs)
| step_act d ts k ids n rs t rq ev ph d' ph' :
    ts !! t = Some (rq, ph) -> request_step t rq ev ph d = Some (d', ph') ->
    disp_step (mkSystem d ts k ids n rs)
      (match ph' with
       | Registering _ id _ =>
         mkSystem d' (<[t := (rq, ph')]> ts) k (<[t := id]> ids) (S n) rs
       | _ => mkSystem d' (<[t := (rq, ph')]> ts) k ids n rs
       end)
| step_mqtt_receive d ts ids n rs topic payload prefix d' k :
    mqtt_receive topic payload prefix d = Ok (d', k) ->
    disp_step (mkSystem d ts None ids n rs) (mkSystem d' ts k ids n rs)
| step_mqtt_deliver d ts ids n rs h body :
    disp_step (mkSystem d ts (Some (h, body)) ids n rs)
      (mkSystem (mqtt_deliver h body d) ts None ids n
         (if is_response h then mkResp h body :: rs else rs))
| step_tcp d ts k ids n rs conn target body d' :
    ad_readers d !! conn = Some target -> tcp_deliver body d = Ok d' ->
    disp_step (mkSystem d ts k ids n rs)
      (mkSystem d' ts k ids n
         (match AmsFrame_decode body with
          | Ok f => mkResp (header f) (payload f) :: rs
          | _ => rs
          end))
| step_tcp_exit d ts k ids n rs conn target :
    ad_readers d !! conn = Some target ->
    disp_step (mkSystem d ts k ids n rs) (mkSystem (reader_exit conn target d) ts k ids n rs).

(** ** The table of waiting requests is consistent *)

Context `{!OneshotLaws OS}.
#[local] Set Default Proof Using "All".

Implicit Types (d : AmsDispatcher) (s : DispatcherSystem).

(** The channel of a registered request is open and in the table, or its
    answer is there and the table has forgotten the id. *)
Definition open_entry (d : AmsDispatcher) (t : nat) (id : Z) : Prop :=
  ad_pending d !! id = Some t /\
  exists c, ad_channels d !! t = Some c /\ oneshot_poll c = None.

Definition answered (d : AmsDispatcher) (rs : list ResponseFrame) (t : nat) (id : Z) : Prop :=
  ad_pending d !! id = None /\
  exists c resp, ad_channels d !! t = Some c /\ oneshot_poll c = Some (Some resp) /\
    resp ∈ rs /\ is_response (rf_header resp) = true /\ invoke_id (rf_header resp) = id.

(** The request holds an id, registered or not. *)
Definition held_id (ph : Phase) : option Z :=
  match ph with Registering _ id _ => Some id | _ => registered_id ph end.

(** A finished request was answered by a response with its id; the sender of
    a waiting request is never dropped by someone else. *)
Definition result_ok (ids : gmap nat Z) (rs : list ResponseFrame) (t : nat) (ph : Phase) : Prop :=
  match ph with
  | Done (Ok p) =>
    exists id resp, ids !! t = Some id /\ resp ∈ rs /\ is_response (rf_header resp) = true /\
      invoke_id (rf_header resp) = id /\ error_code (rf_header resp) = 0 /\ rf_payload resp = p
  | Done (Err Closed) | Unregister _ Closed | TcpDrop _ Closed => False
  | _ => True
  end.

Record disp_inv (s : DispatcherSystem) : Prop := {
  inv_counter : ad_invoke_counter (sy_disp s) = wrap 32 (1 + Z.of_nat (sy_allocs s));
  inv_ids : forall t id, sy_ids s !! t = Some id ->
    exists k, (k < sy_allocs s)%nat /\ id = wrap 32 (1 + Z.of_nat k);
  inv_ids_inj : forall t t' id,
    sy_ids s !! t = Some id -> sy_ids s !! t' = Some id -> t = t';
  inv_held : forall t rq ph id,
    sy_threads s !! t = Some (rq, ph) -> held_id ph = Some id -> sy_ids s !! t = Some id;
  inv_pending : forall id t, ad_pending (sy_disp s) !! id = Some t ->
    exists rq ph, sy_threads s !! t = Some (rq, ph) /\ registered_id ph = Some id;
  inv_registered : forall t rq ph id,
    sy_threads s !! t = Some (rq, ph) -> registered_id ph = Some id ->
    open_entry (sy_disp s) t id \/ answered (sy_disp s) (sy_received s) t id;
  inv_results : forall t rq ph,
    sy_threads s !! t = Some (rq, ph) -> result_ok (sy_ids s) (sy_received s) t ph;
}.

Lemma disp_init_inv net port sink : disp_inv (disp_init net port sink).
Proof.
  split; simpl; intros; try (by rewrite lookup_empty in *); done.
Qed.

(** Is it the request that moved, or another one, whose facts are kept? *)
Ltac thread_case t t' :=
  destruct (decide (t = t')) as [<-|?];
  [rewrite ?lookup_insert_eq | rewrite ?lookup_insert_ne by done; try by eauto].

Lemma answered_mono d rs rs' t id :
  (forall r, r ∈ rs -> r ∈ rs') -> answered d rs t id -> answered d rs' t id.
Proof. intros Hrs (Hp & c & resp & Hc & Hpoll & Hin & H). split; [done|]. eauto 10. Qed.

Lemma result_ok_mono ids rs rs' t ph :
  (forall r, r ∈ rs -> r ∈ rs') -> result_ok ids rs t ph -> result_ok ids rs' t ph.
Proof.
  intros Hrs. destruct ph as [| | | | | | | | | | | |[] |]; simpl; try done.
  intros (id & resp & Hid & Hin & H). exists id, resp. auto.
Qed.

(** Steps that leave the table alone. *)
Lemma inv_frame d d' ts k k' ids n rs rs' :
  ad_pending d' = ad_pending d -> ad_channels d' = ad_channels d ->
  ad_invoke_counter d' = ad_invoke_counter d -> (forall r, r ∈ rs -> r ∈ rs') ->
  disp_inv (mkSystem d ts k ids n rs) -> disp_inv (mkSystem d' ts k' ids n rs').
Proof.
  intros Hp Hc Hn Hrs [H1 H2 H3 H4 H5 H6 H7]. split; simpl in *; rewrite ?Hp, ?Hn; try done.
  - intros t rq ph id Ht Hid. destruct (H6 t rq ph id Ht Hid) as [[Ho Hch]|Ha].
    + left. split; rewrite ?Hp, ?Hc; done.
    + right. apply (answered_mono d' rs); [done|].
      destruct Ha as [Ha Hch]. split; rewrite ?Hp, ?Hc; done.
  - intros t rq ph Ht. eapply result_ok_mono; [done|]. by eapply H7.
Qed.

(** A request moves on without touching the table. *)
Lemma inv_move d ts k ids n rs t rq ph ph' :
  ts !! t = Some (rq, ph) -> registered_id ph' = registered_id ph ->
  (forall id, held_id ph' = Some id -> held_id ph = Some id) ->
  result_ok ids rs t ph' ->
  disp_inv (mkSystem d ts k ids n rs) -> disp_inv (mkSystem d (<[t := (rq, ph')]> ts) k ids n rs).
Proof.
  intros Ht Hreg Hheld Hres [H1 H2 H3 H4 H5 H6 H7]. split; simpl in *; try done.
  - intros t' rq' ph1 id. thread_case t t'.
    intros [= <- <-] Hid. eauto.
  - intros id t' Hp. destruct (H5 id t' Hp) as (rq' & ph1 & Ht' & Hid).
    destruct (decide (t = t')) as [<-|Hne].
    + rewrite lookup_insert_eq. eexists _, _. split; [done|]. congruence.
    + rewrite lookup_insert_ne by done. eauto.
  - intros t' rq' ph1 id. thread_case t t'.
    intros [= <- <-] Hid. apply (H6 t rq ph id Ht). congruence.
  - intros t' rq' ph1. thread_case t t'.
    by intros [= <- <-].
Qed.

(** A new request. *)
Lemma inv_arrive d ts k ids n rs t rq :
  ts !! t = None -> disp_inv (mkSystem d ts k ids n rs) ->
  disp_inv (mkSystem d (<[t := (rq, Routing)]> ts) k ids n rs).
Proof.
  intros Ht [H1 H2 H3 H4 H5 H6 H7]. split; simpl in *; try done.
  - intros t' rq' ph1 id. thread_case t t'. by intros [= <- <-].
  - intros id t' Hp. destruct (H5 id t' Hp) as (rq' & ph1 & Ht' & Hid).
    rewrite lookup_insert_ne by (intros ->; by simplify_eq/=). eauto.
  - intros t' rq' ph1 id. thread_case t t'. by intros [= <- <-].
  - intros t' rq' ph1. thread_case t t'. by intros [= <- <-].
Qed.

(** An id is allocated: it is new as long as the counter has not come round. *)
Lemma inv_allocate d ts k ids n rs t rq kind frame :
  ts !! t = Some (rq, Allocating kind) -> Z.of_nat n < 2 ^ 32 ->
  disp_inv (mkSystem d ts k ids n rs) ->
  disp_inv (mkSystem (with_counter (wrap 32 (ad_invoke_counter d + 1)) d)
    (<[t := (rq, Registering kind (ad_invoke_counter d) frame)]> ts) k
    (<[t := ad_invoke_counter d]> ids) (S n) rs).
Proof.
  intros Ht Hn [H1 H2 H3 H4 H5 H6 H7]. simpl in *.
  assert (Hnew : forall t', ids !! t' <> Some (ad_invoke_counter d)).
  { intros t' Hid. destruct (H2 _ _ Hid) as (j & Hj & He). rewrite H1 in He. unfold wrap in He.
    rewrite (Z.add_comm 1), (Z.add_comm 1) in He.
    assert ((Z.of_nat n - Z.of_nat j) mod 2 ^ 32 = 0) as Hz.
    { replace (Z.of_nat n - Z.of_nat j) with ((Z.of_nat n + 1) - (Z.of_nat j + 1)) by lia.
      rewrite Zminus_mod, He, Z.sub_diag. done. }
    rewrite Z.mod_small in Hz; lia. }
  split; simpl in *; try done.
  - rewrite H1. unfold wrap. rewrite Z.add_mod_idemp_l by lia. f_equal. lia.
  - intros t' id. destruct (decide (t = t')) as [<-|Hne].
    + rewrite lookup_insert_eq. intros [= <-]. exists n. split; [lia|done].
    + rewrite lookup_insert_ne by done. intros Hid. destruct (H2 _ _ Hid) as (j & Hj & ->).
      exists j. split; [lia|done].
  - intros t1 t2 id. destruct (decide (t = t1)) as [<-|H1']; destruct (decide (t = t2)) as [<-|H2'];
      rewrite ?lookup_insert_eq, ?lookup_insert_ne by done; try done.
    + intros [= <-] Hid. by apply Hnew in Hid.
    + intros Hid [= <-]. by apply Hnew in Hid.
    + eauto.
  - intros t' rq' ph1 id. thread_case t t'.
    intros [= <- <-]. done.
  - intros id t' Hp. destruct (H5 id t' Hp) as (rq' & ph1 & Ht' & Hid).
    rewrite lookup_insert_ne by (intros ->; by simplify_eq/=). eauto.
  - intros t' rq' ph1 id. thread_case t t'. by intros [= <- <-].
  - intros t' rq' ph1. thread_case t t'; [by intros [= <- <-]|].
    intros Ht'. specialize (H7 _ _ _ Ht'). unfold result_ok in *. by rewrite lookup_insert_ne by done.
Qed.

(** The table entry of an id belongs to the request that holds the id. *)
Lemma pending_owner s t rq ph id t' :
  disp_inv s -> sy_threads s !! t = Some (rq, ph) -> held_id ph = Some id ->
  ad_pending (sy_disp s) !! id = Some t' -> t' = t /\ registered_id ph = Some id.
Proof.
  intros Hs Ht Hid Hp. destruct (inv_pending s Hs id t' Hp) as (rq' & ph' & Ht' & Hid').
  assert (held_id ph' = Some id) as Hh by (by destruct ph').
  assert (t' = t) as -> by (eapply (inv_ids_inj s Hs); eapply (inv_held s Hs); eassumption).
  by simplify_eq.
Qed.

(** Other registered requests do not notice a change at [id] and [t]. *)
Lemma entries_elsewhere d d' rs t id t' id' :
  id <> id' -> t <> t' ->
  ad_pending d' !! id' = ad_pending d !! id' -> ad_channels d' !! t' = ad_channels d !! t' ->
  open_entry d t' id' \/ answered d rs t' id' -> open_entry d' t' id' \/ answered d' rs t' id'.
Proof. unfold open_entry, answered. intros _ _ -> ->. done. Qed.

Lemma inv_register d ts k ids n rs t rq kind id frame ph' :
  ts !! t = Some (rq, Registering kind id frame) ->
  registered_id ph' = Some id -> (forall rs, result_ok ids rs t ph') ->
  disp_inv (mkSystem d ts k ids n rs) ->
  disp_inv (mkSystem (pending_insert id t d) (<[t := (rq, ph')]> ts) k ids n rs).
Proof.
  intros Ht Hreg Hres Hs.
  assert (Hfree : ad_pending d !! id = None).
  { destruct (ad_pending d !! id) as [t'|] eqn:Hp; [|done].
    destruct (pending_owner _ t rq _ id t' Hs Ht eq_refl Hp) as [_ [=]]. }
  assert (Hids : ids !! t = Some id) by (by eapply (inv_held _ Hs)).
  assert (Hheld : held_id ph' = Some id) by (by destruct ph').
  unfold pending_insert. rewrite Hfree.
  destruct Hs as [H1 H2 H3 H4 H5 H6 H7]. split; simpl in *; try done.
  - intros t' rq' ph1 id1. thread_case t t'. intros [= <- <-]. congruence.
  - intros id' t'. destruct (decide (id = id')) as [<-|Hne].
    + rewrite lookup_insert_eq. intros [= <-]. rewrite lookup_insert_eq. eauto.
    + rewrite lookup_insert_ne by done. intros Hp.
      destruct (H5 id' t' Hp) as (rq' & ph1 & Ht' & Hid').
      rewrite lookup_insert_ne by (intros ->; by simplify_eq/=). eauto.
  - intros t' rq' ph1 id'. thread_case t t'.
    + intros [= <- <-] Hid'. simplify_eq. left. split; simpl; [apply lookup_insert_eq|].
      exists oneshot_channel. rewrite lookup_insert_eq. split; [done|]. apply oneshot_channel_waits.
    + intros Ht' Hid'.
      assert (id <> id').
      { intros <-. assert (ids !! t' = Some id) by (eapply H4; [done|by destruct ph1]). eauto. }
      apply (entries_elsewhere d _ rs t id); simpl; try done; [..|by eauto];
        by rewrite lookup_insert_ne.
  - intros t' rq' ph1. thread_case t t'. by intros [= <- <-].
Qed.

Lemma inv_resolve d ts k k' ids n rs h body :
  is_response h = true ->
  disp_inv (mkSystem d ts k ids n rs) ->
  disp_inv (mkSystem (serve_waiter h body d) ts k' ids n (mkResp h body :: rs)).
Proof.
  intros Hr Hs. unfold serve_waiter. destruct (ad_pending d !! invoke_id h) as [t|] eqn:Hp.
  2: { eapply inv_frame; [done..| |exact Hs]. intros. by right. }
  destruct (inv_pending _ Hs _ _ Hp) as (rq & ph & Ht & Hid).
  pose proof (inv_registered _ Hs _ _ _ _ Ht Hid) as [(_ & c & Hc & Hpoll)|[Hnone _]];
    simpl in *; [|congruence].
  assert (Hown : forall t' rq' ph' , ts !! t' = Some (rq', ph') ->
            registered_id ph' = Some (invoke_id h) -> t' = t).
  { intros t' rq' ph' Ht' Hid'. symmetry.
    by apply (pending_owner _ t' rq' ph' (invoke_id h) t Hs Ht'); [destruct ph'|]. }
  destruct Hs as [H1 H2 H3 H4 H5 H6 H7]. split; simpl in *; try done.
  - intros id' t'. rewrite lookup_delete_Some. intros [_ Hp']. eauto.
  - intros t' rq' ph' id' Ht' Hid'. destruct (decide (t = t')) as [<-|Hne].
    + simplify_eq. right. split; simpl; [apply lookup_delete_eq|].
      exists (oneshot_send (mkResp h body) c), (mkResp h body).
      rewrite lookup_alter_eq, Hc. split; [done|].
      split; [by apply oneshot_send_received|]. split; [by left|done].
    + assert (invoke_id h <> id') by (intros <-; apply Hne; symmetry; eauto).
      destruct (entries_elsewhere d (with_waiters (delete (invoke_id h) (ad_pending d))
        (alter (oneshot_send (mkResp h body)) t (ad_channels d)) d) rs t (invoke_id h) t' id')
        as [Ho|Ha]; simpl; try done; [by rewrite lookup_delete_ne|by rewrite lookup_alter_ne
        |by eauto|by left|].
      right. eapply answered_mono; [|exact Ha]. intros. by right.
  - intros t' rq' ph' Ht'. eapply result_ok_mono; [|by eauto]. intros. by right.
Qed.

Lemma inv_remove d ts k ids n rs t rq id e :
  ts !! t = Some (rq, Unregister id e) ->
  disp_inv (mkSystem d ts k ids n rs) ->
  disp_inv (mkSystem (pending_remove id d) (<[t := (rq, Done (Err e))]> ts) k ids n rs).
Proof.
  intros Ht Hs.
  assert (He : result_ok ids rs t (Done (Err e))).
  { pose proof (inv_results _ Hs _ _ _ Ht) as Hres. by destruct e; simpl in *. }
  assert (Hown : forall t', ad_pending d !! id = Some t' -> t' = t).
  { intros t' Hp. by apply (pending_owner _ t rq _ id t' Hs Ht). }
  assert (Hd : ad_pending (pending_remove id d) = delete id (ad_pending d) /\
    ad_invoke_counter (pending_remove id d) = ad_invoke_counter d /\
    forall t', t' <> t -> ad_channels (pending_remove id d) !! t' = ad_channels d !! t').
  { unfold pending_remove. destruct (ad_pending d !! id) as [t'|] eqn:Hp; simpl.
    - rewrite (Hown t' eq_refl). split_and!; [done..|]. intros. by rewrite lookup_alter_ne.
    - by rewrite delete_id. }
  destruct Hd as (Hpend & Hcnt & Hch).
  destruct Hs as [H1 H2 H3 H4 H5 H6 H7]. split; simpl in *; rewrite ?Hpend, ?Hcnt; try done.
  - intros t' rq' ph1 id1. thread_case t t'. by intros [= <- <-].
  - intros id' t'. rewrite lookup_delete_Some. intros [Hne Hp].
    destruct (H5 id' t' Hp) as (rq' & ph1 & Ht' & Hid').
    rewrite lookup_insert_ne by (intros ->; by simplify_eq/=). eauto.
  - intros t' rq' ph1 id'. thread_case t t'; [by intros [= <- <-]|].
    intros Ht' Hid'.
    assert (id <> id').
    { intros <-. assert (ids !! t' = Some id) by (eapply H4; [done|by destruct ph1]).
      assert (ids !! t = Some id) by (by eapply H4). eauto. }
    apply (entries_elsewhere d _ rs t id); try done; [|by apply Hch|by eauto].
    rewrite Hpend. by rewrite lookup_delete_ne.
  - intros t' rq' ph1. thread_case t t'. by intros [= <- <-].
Qed.

Lemma inv_finish d ts k ids n rs t rq id c resp :
  ts !! t = Some (rq, Waiting id) -> ad_channels d !! t = Some c ->
  oneshot_poll c = Some (Some resp) ->
  disp_inv (mkSystem d ts k ids n rs) ->
  disp_inv (mkSystem d (<[t := (rq, Done (response_result resp))]> ts) k ids n rs).
Proof.
  intros Ht Hc Hpoll Hs.
  destruct (inv_registered _ Hs _ _ _ _ Ht eq_refl) as [(_ & c' & Hc' & Hpoll')|Ha];
    [simpl in *; congruence|].
  destruct Ha as (Hnone & c' & resp' & Hc' & Hpoll' & Hin & Hr & Hid). simpl in *. simplify_eq.
  assert (Hids : ids !! t = Some (invoke_id (rf_header resp))) by (by eapply (inv_held _ Hs)).
  assert (Hnp : forall id', ad_pending d !! id' <> Some t).
  { intros id' Hp. destruct (inv_pending _ Hs _ _ Hp) as (rq' & ph & Ht' & Hreg).
    by simplify_eq/=. }
  destruct Hs as [H1 H2 H3 H4 H5 H6 H7]. split; simpl in *; try done.
  - intros t' rq' ph1 id1. thread_case t t'. by intros [= <- <-].
  - intros id' t' Hp. rewrite lookup_insert_ne by (intros ->; by eapply Hnp). eauto.
  - intros t' rq' ph1 id'. thread_case t t'. by intros [= <- <-].
  - intros t' rq' ph1. thread_case t t'. intros [= <- <-]. unfold response_result.
    destruct (Z.eqb_spec (error_code (rf_header resp)) 0); simpl; [|done].
    eexists _, resp. eauto 10.
Qed.

Lemma tcp_deliver_cases body d d' :
  tcp_deliver body d = Ok d' ->
  (ad_pending d' = ad_pending d /\ ad_channels d' = ad_channels d /\
   ad_invoke_counter d' = ad_invoke_counter d) \/
  exists f, AmsFrame_decode body = Ok f /\ is_response (header f) = true /\
    d' = serve_waiter (header f) (payload f) d.
Proof.
  unfold tcp_deliver, AmsFrame_decode, AMS_HEADER_LEN.
  destruct (Nat.ltb_spec (length body) 32) as [|Hl]; [intros [= <-]; by left|].
  rewrite slice_or_panic_spec by lia. cbn [outcome_bind Nat.sub]. rewrite drop_0.
  rewrite AmsHeader_parse_take by lia.
  destruct (AmsHeader_parse body) as [h| | |]; try done; cbn [outcome_bind]; [|intros [= <-]; by left].
  rewrite slice_or_panic_spec by lia. cbn [outcome_bind]. intros [= <-].
  destruct (is_response h) eqn:Hr; [|by left]. right.
  destruct (Nat.ltb_spec 32 (length body)); eexists; (split; [reflexivity|]); cbn [header payload];
    (split; [done|]); [done|].
  by rewrite (drop_ge body 32), take_nil by lia.
Qed.

Lemma admin_frame d d' :
  admin d d' ->
  ad_pending d' = ad_pending d /\ ad_channels d' = ad_channels d /\
  ad_invoke_counter d' = ad_invoke_counter d.
Proof.
  destruct 1 as [prefix d d' H| | | |]; try done.
  unfold attach_mqtt in H. by destruct (ad_mqtt d); simplify_eq.
Qed.

Lemma mqtt_receive_frame topic payload prefix d d' k :
  mqtt_receive topic payload prefix d = Ok (d', k) ->
  ad_pending d' = ad_pending d /\ ad_channels d' = ad_channels d /\
  ad_invoke_counter d' = ad_invoke_counter d.
Proof.
  unfold mqtt_receive. case_match.
  { destruct (topic_net_id topic prefix); [destruct (parse_info_xml payload) as [[]|]|];
      by intros [= <- <-]. }
  do 2 (case_match; [by intros [= <- <-]|]).
  destruct (slice_or_panic payload 0 AMS_HEADER_LEN); try done. cbn [outcome_bind].
  destruct (AmsHeader_parse a); try done; [|by intros [= <- <-]].
  destruct (slice_or_panic payload AMS_HEADER_LEN (length payload)); try done. cbn [outcome_bind].
  intros [= <- <-]. by case_bool_decide.
Qed.

(** A step of a request keeps the invariant. *)
Lemma inv_request_step d ts k ids n rs t rq ev ph d' ph' :
  ts !! t = Some (rq, ph) -> request_step t rq ev ph d = Some (d', ph') ->
  (forall kind id frame, ph' = Registering kind id frame -> Z.of_nat n < 2 ^ 32) ->
  disp_inv (mkSystem d ts k ids n rs) ->
  disp_inv (match ph' with
       | Registering _ id _ => mkSystem d' (<[t := (rq, ph')]> ts) k (<[t := id]> ids) (S n) rs
       | _ => mkSystem d' (<[t := (rq, ph')]> ts) k ids n rs
       end).
Proof.
  intros Ht Hact Hn Hs.
  destruct ph, ev; simpl in Hact; try done;
    repeat match type of Hact with
    | context [match ?x with _ => _ end] => destruct x eqn:?; try done
    end; simplify_eq;
    try (eapply inv_move; [exact Ht|done|done|done|exact Hs]);
    try (eapply inv_move;
         [exact Ht|done|done|done|eapply inv_frame; [..|exact Hs]; try done]).
  - apply inv_allocate; [done|by eapply Hn|done].
  - by eapply inv_register; [exact Ht|..].
  - by eapply inv_register; [exact Ht|..].
  - eapply inv_move; [exact Ht|done|done| |by eapply inv_frame; [..|exact Hs]].
    exact (inv_results _ Hs _ _ _ Ht).
  - by eapply inv_finish.
  - exfalso. destruct (inv_registered _ Hs _ _ _ _ Ht eq_refl) as [(_ & c & Hc & Hp)|Ha];
      simpl in *; [congruence|]. destruct Ha as (_ & c & resp & Hc & Hp & _). congruence.
  - by apply inv_remove.
Qed.

Lemma disp_step_inv s s' :
  disp_step s s' -> Z.of_nat (sy_allocs s') <= 2 ^ 32 -> disp_inv s -> disp_inv s'.
Proof.
  destruct 1 as [d d' ts k ids n rs Hadm|d ts k ids n rs t rq Ht|d ts k ids n rs t rq ev ph d' ph' Ht Hact
    |d ts ids n rs topic pl prefix d' k Hrecv|d ts ids n rs h body
    |d ts k ids n rs conn target body d' Hconn Hdel|d ts k ids n rs conn target Hconn];
    intros Hn Hs.
  - destruct (admin_frame d d' Hadm) as (? & ? & ?). by eapply inv_frame.
  - by apply inv_arrive.
  - eapply inv_request_step; [done..| |exact Hs]. intros kind id frame ->. simpl in Hn. lia.
  - destruct (mqtt_receive_frame _ _ _ _ _ _ Hrecv) as (? & ? & ?). by eapply inv_frame.
  - unfold mqtt_deliver. destruct (is_response h) eqn:Hr; [|by eapply inv_frame; [..|exact Hs]].
    destruct (bool_decide _ || _); [|by eapply inv_resolve].
    eapply inv_frame; [done..| |exact Hs]. intros. by right.
  - destruct (tcp_deliver_cases body d d' Hdel) as [(? & ? & ?)|(f & -> & Hr & ->)];
      [|by eapply inv_resolve].
    eapply inv_frame; [done..| |exact Hs]. intros. case_match; [by right|done..].
  - by eapply inv_frame; [..|exact Hs].
Qed.

(** Ids are only ever added. *)
Lemma disp_step_allocs s s' : disp_step s s' -> (sy_allocs s <= sy_allocs s')%nat.
Proof. destruct 1; simpl; try done. destruct ph'; simpl; lia. Qed.

Lemma reachable_inv net port sink s :
  rtc disp_step (disp_init net port sink) s -> Z.of_nat (sy_allocs s) <= 2 ^ 32 -> disp_inv s.
Proof.
  revert s. refine (rtc_ind_r (fun s => Z.of_nat (sy_allocs s) <= 2 ^ 32 -> disp_inv s) _ _ _).
  - intros _. apply disp_init_inv.
  - intros s s' _ Hstep IH Hn. pose proof (disp_step_allocs s s' Hstep).
    eapply disp_step_inv; [done..|]. apply IH. lia.
Qed.

(** C4: Correlation. In every run of concurrent requests, readers and the
    MQTT task, among the first 2^32 requests, a request that returned [Ok] was
    answered by a response that carried exactly the invoke id allocated for
    it, without an AMS error, and its result is that response's payload; no
    other request was given the same id; and no request fails because its
    response channel was closed. *)
Theorem request_correlation net port sink s :
  rtc disp_step (disp_init net port sink) s -> Z.of_nat (sy_allocs s) <= 2 ^ 32 ->
  forall t rq r, sy_threads s !! t = Some (rq, Done r) ->
    r <> Err Closed /\
    forall p, r = Ok p ->
      exists id resp, sy_ids s !! t = Some id /\ resp ∈ sy_received s /\
        is_response (rf_header resp) = true /\ invoke_id (rf_header resp) = id /\
        error_code (rf_header resp) = 0 /\ rf_payload resp = p /\
        forall t', sy_ids s !! t' = Some id -> t' = t.
Proof.
  intros Hreach Hn t rq r Ht. pose proof (reachable_inv net port sink s Hreach Hn) as Hs.
  pose proof (inv_results s Hs t rq _ Ht) as Hres. split.
  - intros ->. done.
  - intros p ->. destruct Hres as (id & resp & Hid & Hin & Hr & Hi & He & Hp).
    exists id, resp. split_and!; try done. intros t' Ht'. by eapply (inv_ids_inj s Hs).
Qed.

(** C33: No entry is leaked. In every reachable state each entry of the table of
    waiting requests belongs to a request that is still under way or whose
    future was dropped; when every request has returned, whatever the result,
    the table is empty. *)
Theorem pending_not_leaked net port sink s :
  rtc disp_step (disp_init net port sink) s -> Z.of_nat (sy_allocs s) <= 2 ^ 32 ->
  (forall id t, ad_pending (sy_disp s) !! id = Some t ->
     exists rq ph, sy_threads s !! t = Some (rq, ph) /\ registered_id ph = Some id) /\
  ((forall t rq ph, sy_threads s !! t = Some (rq, ph) -> exists r, ph = Done r) ->
   ad_pending (sy_disp s) = ∅).
Proof.
  intros Hreach Hn. pose proof (reachable_inv net port sink s Hreach Hn) as Hs.
  split; [by apply inv_pending|]. intros Hdone. apply map_empty. intros id.
  destruct (ad_pending (sy_disp s) !! id) as [t|] eqn:Hp; [|done].
  destruct (inv_pending s Hs id t Hp) as (rq & ph & Ht & Hid).
  destruct (Hdone t rq ph Ht) as [r ->]. done.
Qed.

(** C22: No response is lost. In every reachable state, when a request that was
    registered (even if its publication has not returned yet) has had no
    response so far and a response with its id comes in, over MQTT addressed to
    this dispatcher or over TCP, then as soon as the request waits it returns
    that response's result. *)
Theorem response_not_lost net port sink s t rq ph id h body :
  rtc disp_step (disp_init net port sink) s -> Z.of_nat (sy_allocs s) <= 2 ^ 32 ->
  sy_threads s !! t = Some (rq, ph) -> registered_id ph = Some id ->
  (forall resp, resp ∈ sy_received s -> invoke_id (rf_header resp) <> id) ->
  is_response h = true -> invoke_id h = id -> wf_header h ->
  let result := fun d => request_step t rq Run (Waiting id) d = Some (d, Done (response_result (mkResp h body))) in
  (target_net_id h = ad_source_net_id (sy_disp s) -> target_port h = ad_source_port (sy_disp s) ->
   result (mqtt_deliver h body (sy_disp s))) /\
  exists d', tcp_deliver (AmsHeader_serialize h ++ body) (sy_disp s) = Ok d' /\ result d'.
Proof.
  intros Hreach Hn Ht Hid Hfirst Hr Hh Hwf result.
  pose proof (reachable_inv net port sink s Hreach Hn) as Hs.
  destruct (inv_registered s Hs t rq ph id Ht Hid) as [(Hp & c & Hc & Hpoll)|Ha].
  2: { destruct Ha as (_ & _ & resp & _ & _ & Hin & _ & Hid'). by apply Hfirst in Hin. }
  assert (Hres : result (serve_waiter h body (sy_disp s))).
  { unfold result, serve_waiter. rewrite Hh, Hp. cbn [request_step with_waiters ad_channels].
    rewrite lookup_alter_eq, Hc. cbn [fmap option_fmap option_map].
    by rewrite (oneshot_send_received _ _ _ Hpoll). }
  split.
  - intros Hnet Hport. unfold mqtt_deliver. rewrite Hr, bool_decide_false by (intros Hc'; by apply Hc').
    rewrite Hport, Z.eqb_refl. done.
  - exists (serve_waiter h body (sy_disp s)). split; [|done]. unfold tcp_deliver, AMS_HEADER_LEN.
    pose proof (length_AmsHeader_serialize h Hwf) as Hl.
    rewrite (proj2 (Nat.ltb_ge _ _)) by (rewrite ?length_app; lia).
    rewrite slice_or_panic_spec by (rewrite ?length_app; lia). cbn [outcome_bind].
    rewrite drop_0, AmsHeader_parse_take by (rewrite ?length_app; lia).
    rewrite AmsHeader_parse_app by done.
    rewrite slice_or_panic_spec by (rewrite ?length_app; lia). cbn [outcome_bind]. rewrite Hr.
    rewrite length_app, Hl, drop_app_length' by done. by rewrite take_ge by lia.
Qed.

(** ** The TCP reader *)

(** What a turn of the reader does with a frame it could decode. *)
Definition tcp_effect (f : AmsFrame) (d : AmsDispatcher) : AmsDispatcher :=
  if is_response (header f) then serve_waiter (header f) (payload f) d
  else with_inbound (deliver (header f) (payload f) (ad_inbound_sink d)) d.

Lemma tcp_deliver_encode f d :
  wf_header (header f) -> tcp_deliver (AmsFrame_encode f) d = Ok (tcp_effect f d).
Proof.
  intros Hwf. unfold tcp_deliver, tcp_effect, AmsFrame_encode, AMS_HEADER_LEN.
  pose proof (length_AmsHeader_serialize _ Hwf) as Hl.
  rewrite (proj2 (Nat.ltb_ge _ _)) by (rewrite length_app; lia).
  rewrite slice_or_panic_spec by (rewrite ?length_app; lia). cbn [outcome_bind].
  rewrite drop_0, AmsHeader_parse_take by (rewrite length_app; lia).
  rewrite AmsHeader_parse_app by done.
  rewrite slice_or_panic_spec by (rewrite ?length_app; lia). cbn [outcome_bind].
  rewrite length_app, Hl, drop_app_length' by done. by rewrite take_ge by lia.
Qed.

Lemma tcp_deliver_total body d : is_bytes body -> exists d', tcp_deliver body d = Ok d'.
Proof.
  intros Hb. unfold tcp_deliver, AMS_HEADER_LEN.
  destruct (Nat.ltb_spec (length body) 32) as [|Hl]; [by eexists|].
  rewrite slice_or_panic_spec by lia. cbn [outcome_bind Nat.sub].
  rewrite drop_0, AmsHeader_parse_take by lia.
  destruct (AmsHeader_parse_wf body Hb Hl) as (h & -> & _).
  rewrite slice_or_panic_spec by lia. cbn [outcome_bind]. by eexists.
Qed.

Lemma read_frame_split stream body rest :
  read_frame stream = Some (body, rest) ->
  (length rest < length stream)%nat /\ exists pre, stream = pre ++ body ++ rest.
Proof.
  unfold read_frame. destruct (Nat.ltb_spec (length stream) 6); [done|].
  case_match; [done|]. case_match; [done|]. intros [= <- <-]. split.
  - rewrite !length_drop. lia.
  - exists (take 6 stream). by rewrite take_drop, take_drop.
Qed.

Lemma tcp_reader_loop_total fuel stream d :
  is_bytes stream -> (length stream < fuel)%nat ->
  exists d', tcp_reader_loop fuel stream d = Ok d'.
Proof.
  revert stream d. induction fuel as [|fuel IH]; intros stream d Hb Hf; [lia|]. cbn [tcp_reader_loop].
  destruct (read_frame stream) as [[body rest]|] eqn:Hread; [|by eexists].
  apply read_frame_split in Hread as [Hlt [pre ->]].
  apply is_bytes_app in Hb as [_ [Hb1 Hb2]%is_bytes_app].
  destruct (tcp_deliver_total body d Hb1) as [d' ->]. cbn [outcome_bind]. apply IH; [done|lia].
Qed.

(** A frame that the dispatcher may send or the reader accept. *)
Definition wf_wire (f : AmsFrame) : Prop :=
  wf_header (header f) /\ len (payload f) <= MAX_AMS_PAYLOAD.

Lemma read_frame_wire f rest :
  wf_wire f -> read_frame (tcp_wire (AmsFrame_encode f) ++ rest) = Some (AmsFrame_encode f, rest).
Proof.
  intros [Hwf Hmax]. pose proof (length_AmsHeader_serialize _ Hwf) as Hl.
  assert (Hlen : len (AmsFrame_encode f) = 32 + len (payload f)).
  { unfold len, AmsFrame_encode. rewrite length_app. lia. }
  unfold len in Hmax, Hlen. unfold MAX_AMS_PAYLOAD in Hmax.
  unfold read_frame, tcp_wire. rewrite <- !app_assoc.
  rewrite (proj2 (Nat.ltb_ge _ _)) by (rewrite !length_app, length_le_encode; simpl; lia).
  change (drop 2 ([0; 0] ++ ?l)) with l. rewrite take_app_length' by by rewrite length_le_encode.
  rewrite le_decode_encode by (unfold len; simpl; lia).
  rewrite (proj2 (Z.eqb_neq _ _)) by (unfold len; lia).
  rewrite (proj2 (Z.ltb_ge _ _)) by (unfold len, MAX_AMS_FRAME, MAX_AMS_PAYLOAD, AMS_HEADER_LEN; lia).
  cbn [orb]. rewrite (app_assoc [0; 0]), drop_app_length' by (rewrite length_app, length_le_encode; done).
  rewrite (proj2 (Z.ltb_ge _ _)) by (unfold len; rewrite length_app; lia).
  unfold len. rewrite Nat2Z.id, take_app_length, drop_app_length. done.
Qed.

Lemma tcp_reader_loop_wire fs tail fuel d :
  Forall wf_wire fs -> read_frame tail = None -> (length fs < fuel)%nat ->
  tcp_reader_loop fuel (concat (map (fun f => tcp_wire (AmsFrame_encode f)) fs) ++ tail) d =
  Ok (foldl (fun d f => tcp_effect f d) d fs).
Proof.
  intros Hfs Htail. revert fuel d. induction Hfs as [|f fs Hf Hfs IH]; intros [|fuel] d Hlt;
    cbn [tcp_reader_loop map concat foldl app]; simpl in Hlt; try lia; [by rewrite Htail|].
  rewrite <- app_assoc, read_frame_wire by done.
  rewrite tcp_deliver_encode by apply Hf. cbn [outcome_bind]. apply IH. lia.
Qed.

(** The TCP reader ends without a panic on whatever bytes the peer sends, and
    it takes a stream apart exactly as it was put together: if the peer sends
    frames of at most 16 MiB payload, each behind the prefix that
    [publish_tcp] writes, and then closes the connection, possibly in the
    middle of a frame, every complete frame is handled once and in order
    (responses to the table of requests, all else to the sink) and the
    connection leaves the table of live peers. *)
Theorem tcp_reader_stream conn target d :
  (forall stream, is_bytes stream -> exists d', run_tcp_reader conn target stream d = Ok d') /\
  (forall fs tail, Forall wf_wire fs -> read_frame tail = None ->
     run_tcp_reader conn target
       (concat (map (fun f => tcp_wire (AmsFrame_encode f)) fs) ++ tail) d =
     Ok (reader_exit conn target (foldl (fun d f => tcp_effect f d) d fs))).
Proof.
  unfold run_tcp_reader. split.
  - intros stream Hb. destruct (tcp_reader_loop_total (S (length stream)) stream d Hb) as [d' ->];
      [lia|]. by eexists.
  - intros fs tail Hfs Htail. rewrite tcp_reader_loop_wire; [done..|].
    rewrite length_app, length_concat, map_map. clear. induction fs as [|f fs IH]; simpl in *; lia.
Qed.

(** ** Routes *)

Lemma topic_net_id_topic prefix net rest :
  wf_net net ->
  topic_net_id (prefix +:+ "/" +:+ AmsNetId_to_string net +:+ "/" +:+ rest) prefix = Some net.
Proof.
  intros Hnet. unfold topic_net_id. rewrite strip_prefix_app.
  rewrite strip_prefix_app. change ("/" +:+ rest) with (String "/" rest).
  rewrite split_once_app by by apply AmsNetId_to_string_no_slash.
  by rewrite AmsNetId_from_to_string.
Qed.

(** What a topic ends with. *)
Lemma info_topic_ends prefix net :
  str_ends_with "/info" (prefix +:+ "/" +:+ AmsNetId_to_string net +:+ "/info") = true.
Proof. rewrite !string_app_assoc. apply str_ends_with_app. Qed.

(** Which route a request takes. An [/info] announcement of a peer sets or
    removes exactly that peer's route, whatever it was before (a static TCP
    route too); any other message never changes or removes a route and adds
    at most one to MQTT, for its sender; [add_tcp_peer] keeps a route that is
    known, [force_tcp_peer] does not, and both remember the address. *)
Theorem route_learning d prefix :
  (forall net payload online, wf_net net -> parse_info_xml payload = Some online ->
     handle_incoming_mqtt (prefix +:+ "/" +:+ AmsNetId_to_string net +:+ "/info") payload prefix d =
     Ok (with_routes (if online then <[net := Mqtt]> (ad_routes d) else delete net (ad_routes d)) d)) /\
  (forall topic payload d', str_ends_with "/info" topic = false ->
     handle_incoming_mqtt topic payload prefix d = Ok d' ->
     ad_routes d' = ad_routes d \/
     exists net, net <> ad_source_net_id d /\ ad_routes d !! net = None /\
       ad_routes d' = <[net := Mqtt]> (ad_routes d)) /\
  (forall net addr,
     RouteTable_get net (ad_routes (add_tcp_peer net addr d)) =
       Some (default Tcp (ad_routes d !! net)) /\
     RouteTable_get net (ad_routes (force_tcp_peer net addr d)) = Some Tcp /\
     addrs (add_tcp_peer net addr d) !! net = Some addr /\
     addrs (force_tcp_peer net addr d) !! net = Some addr).
Proof.
  split_and!.
  - intros net payload online Hnet Hxml. unfold handle_incoming_mqtt, mqtt_receive.
    rewrite info_topic_ends, Hxml. change "/info" with ("/" +:+ "info").
    rewrite topic_net_id_topic by done. by destruct online.
  - intros topic payload d' Htopic. unfold handle_incoming_mqtt.
    destruct (mqtt_receive topic payload prefix d) as [[d1 k]| | |] eqn:Hrecv; try done.
    cbn [outcome_bind fst snd]. intros [= <-].
    assert (ad_routes (match k with Some (h, body) => mqtt_deliver h body d1 | None => d1 end) =
            ad_routes d1) as ->.
    { destruct k as [[h body]|]; [|done]. unfold mqtt_deliver, serve_waiter.
      repeat (case_match; try done). }
    revert Hrecv. unfold mqtt_receive. rewrite Htopic.
    do 2 (case_match; [intros [= <- <-]; by left|]).
    destruct (slice_or_panic payload 0 AMS_HEADER_LEN) as [hd| | |]; try done. cbn [outcome_bind].
    destruct (AmsHeader_parse hd) as [h| | |]; try done; [|intros [= <- <-]; by left].
    destruct (slice_or_panic payload AMS_HEADER_LEN _) as [body| | |]; try done. cbn [outcome_bind].
    intros [= <- <-]. case_bool_decide as Hne; [|by left]. simpl. unfold RouteTable_learn_if_absent.
    destruct (ad_routes d !! source_net_id h) eqn:Hr; [by left|]. right. by exists (source_net_id h).
  - intros net addr. unfold add_tcp_peer, force_tcp_peer, remember_addr, RouteTable_learn_if_absent,
      RouteTable_learn, RouteTable_get, addrs. simpl. rewrite !lookup_insert_eq. split_and!; try done.
    destruct (ad_routes d !! net) eqn:Hr; simpl; [done|]. by rewrite lookup_insert_eq.
Qed.

(** ** Runs, executed *)

Inductive input :=
| IAttach (prefix : string)
| IAddTcp (net : AmsNetId) (addr : SocketAddr)
| IRequest (t : nat) (rq : Request)
| IAct (t : nat) (ev : event)
| IReceive (topic : string) (payload : bytes)
| IDeliver
| ITcp (conn : nat) (body : bytes)
| IExit (conn : nat).

(** The step a system takes on an input, if it can. *)
Definition exec (s : DispatcherSystem) (i : input) : option DispatcherSystem :=
  let '(mkSystem d ts k ids n rs) := s in
  match i with
  | IAttach prefix =>
    match attach_mqtt prefix d with Ok d' => Some (mkSystem d' ts k ids n rs) | _ => None end
  | IAddTcp net addr => Some (mkSystem (add_tcp_peer net addr d) ts k ids n rs)
  | IRequest t rq =>
    match ts !! t with
    | None => Some (mkSystem d (<[t := (rq, Routing)]> ts) k ids n rs)
    | Some _ => None
    end
  | IAct t ev =>
    match ts !! t with
    | None => None
    | Some (rq, ph) =>
      match request_step t rq ev ph d with
      | None => None
      | Some (d', ph') =>
        Some (match ph' with
              | Registering _ id _ => mkSystem d' (<[t := (rq, ph')]> ts) k (<[t := id]> ids) (S n) rs
              | _ => mkSystem d' (<[t := (rq, ph')]> ts) k ids n rs
              end)
      end
    end
  | IReceive topic payload =>
    match k, ad_mqtt d with
    | None, Some mqtt =>
      match mqtt_receive topic payload (mp_topic_prefix mqtt) d with
      | Ok (d', k) => Some (mkSystem d' ts k ids n rs)
      | _ => None
      end
    | _, _ => None
    end
  | IDeliver =>
    match k with
    | None => None
    | Some (h, body) =>
      Some (mkSystem (mqtt_deliver h body d) ts None ids n
              (if is_response h then mkResp h body :: rs else rs))
    end
  | ITcp conn body =>
    match ad_readers d !! conn, tcp_deliver body d with
    | Some _, Ok d' =>
      Some (mkSystem d' ts k ids n
        (match AmsFrame_decode body with
         | Ok f => mkResp (header f) (payload f) :: rs
         | _ => rs
         end))
    | _, _ => None
    end
  | IExit conn =>
    match ad_readers d !! conn with
    | Some target => Some (mkSystem (reader_exit conn target d) ts k ids n rs)
    | None => None
    end
  end.

Fixpoint run (s : DispatcherSystem) (ins : list input) : option DispatcherSystem :=
  match ins with
  | [] => Some s
  | i :: ins => match exec s i with Some s' => run s' ins | None => None end
  end.

Lemma exec_sound s i s' : exec s i = Some s' -> disp_step s s'.
Proof.
  destruct s as [d ts k ids n rs]. destruct i; simpl; intros He;
    repeat match type of He with
    | context [match ?x with _ => _ end] =>
      lazymatch x with AmsFrame_decode _ => fail | is_response _ => fail | _ => idtac end;
      lazymatch type of x with Phase => fail | _ => idtac end;
      destruct x eqn:?; try done
    end; simplify_eq.
  - eapply step_admin, admin_mqtt. eassumption.
  - eapply step_admin, admin_add.
  - by apply step_request.
  - by eapply step_act.
  - by eapply step_mqtt_receive.
  - apply step_mqtt_deliver.
  - by eapply step_tcp.
  - by eapply step_tcp_exit.
Qed.

Lemma run_sound s ins s' : run s ins = Some s' -> rtc disp_step s s'.
Proof.
  revert s. induction ins as [|i ins IH]; simpl; intros s Hr; [by simplify_eq|].
  destruct (exec s i) as [s1|] eqn:He; [|done].
  eapply rtc_l; [by eapply exec_sound|by apply IH].
Qed.

End AmsDispatcher.

(** ** Two requests that dial the same peer *)

Module Race.
Import SimpleExternal.

Definition race_us : AmsNetId := mkNetId [10; 0; 0; 1; 1; 1].
Definition race_plc : AmsNetId := mkNetId [10; 0; 0; 2; 1; 1].
Definition race_plc_addr : SocketAddr := mkSockAddr (V4 10 0 0 2) 48898 0.
Definition read_state : Request := mkRequest race_plc 851 4 [] 1000000000.

Definition idle : DispatcherSystem := disp_init (SK := channel_sink) race_us 30000 [].

(** Both requests find no connection, connect (as 0 and 1) and send; then
    the peer closes connection 0. *)
Definition both_dial : list input :=
  IAddTcp race_plc race_plc_addr ::
  flat_map (fun t => [IRequest t read_state; IAct t Run; IAct t Run; IAct t Run; IAct t Run; IAct t Run])
    [0%nat; 1%nat] ++
  flat_map (fun t => [IAct t (ConnectResult (inl t)); IAct t Run; IAct t (WriteResult None)])
    [0%nat; 1%nat] ++
  [IExit 0].

(** When two requests dial one peer at the same time, the connection that
    stays in the table is the later one; if the earlier connection then ends,
    its reader removes the table entry of the later one, which is still open
    and on which a request is waiting: the next request dials again. *)
Theorem stale_reader_drops_live_peer :
  exists s, rtc disp_step idle s /\
    peers (sy_disp s) !! race_plc = None /\
    ad_readers (sy_disp s) !! 1%nat = Some race_plc /\
    sy_threads s !! 1%nat = Some (read_state, Waiting 2) /\
    ad_pending (sy_disp s) !! 2 = Some 1%nat /\
    exists wire, SentTcp 1 wire ∈ ad_wire (sy_disp s).
Proof.
  destruct (run idle both_dial) as [s|] eqn:Hr; [|by vm_compute in Hr].
  exists s. split; [by apply (run_sound _ both_dial)|].
  vm_compute in Hr. injection Hr as <-. split_and!; [reflexivity..|].
  eexists. simpl. right. left.
Qed.

(** A request whose future is dropped while it waits leaves its entry in the
    table of waiting requests. *)
Theorem cancelled_request_leaks :
  exists s, rtc disp_step idle s /\
    sy_threads s !! 0%nat = Some (read_state, Cancelled (Some 1)) /\
    ad_pending (sy_disp s) !! 1 = Some 0%nat.
Proof.
  set (ins := [IAttach "AdsOverMqtt"; IReceive "AdsOverMqtt/10.0.0.2.1.1/info"
                (bytes_of_string "<info><online>true</online></info>");
              IRequest 0 read_state; IAct 0 Run; IAct 0 Run; IAct 0 Run;
              IAct 0 (PublishResult None); IAct 0 Cancel]).
  destruct (run idle ins) as [s|] eqn:Hr; [|by vm_compute in Hr].
  exists s. split; [by apply (run_sound _ ins)|].
  vm_compute in Hr. injection Hr as <-. split; reflexivity.
Qed.

End Race.
