(* ===== verification/Transport.v ===== *)
(** * Transports (crates/tc-otel-ads: transport/tcp.rs, transport/local_router.rs,
      transport/mqtt.rs, listener.rs)

    How frames reach the router and its answers leave: the AMS/TCP server, the
    client of a local TwinCAT router with its handshake, the MQTT transport, and
    the listener of the plain log protocol. A connection is the bytes its peer
    sends until it closes, and whether each write to it succeeds; what the
    router draws while it handles a frame is a parameter per frame. *)

From S2P Require Import Prelude.
From S2P Require Import Text.
From S2P Require Import External.
From S2P Require Import Net.
From S2P Require Import Ams.
From S2P Require Import Models.
From S2P Require Import Protocol.
From S2P Require Import Reader.
From S2P Require Import Parser.
From S2P Require Import Router.
From S2P Require Import AmsDispatcher.

Definition AMS_TCP_CMD_ADS : Z := 0.
Definition AMS_TCP_CMD_PORT_CLOSE : Z := 1.
Definition CMD_PORT_CONNECT : Z := 4096.
Definition AMS_TCP_CMD_ROUTER_NOTE : Z := 4097.
Definition TC_OTEL_REGISTER_PORT : Z := 16150.

(** The largest frame a connection accepts. *)
Definition MAX_TCP_FRAME : Z := 16 * 1048576.

(** [make_amstcp_header]. *)
Definition make_amstcp_header (cmd n : Z) : bytes := le_encode 2 cmd ++ le_encode 4 n.

(** A frame on the wire. *)
Definition amstcp (cmd : Z) (frame : bytes) : bytes := make_amstcp_header cmd (len frame) ++ frame.

(** [build_udp_discovery_response]. *)
Definition build_udp_discovery_response (net_id : AmsNetId) : bytes :=
  [3; 102; 20; 113] ++ le_encode 4 24 ++ net_bytes net_id ++ le_encode 2 48898 ++
  bytes_of_string "tc-otel-rust" ++ repeat 0 4.

(** [peer_addr.ip().to_string()]. *)
Definition IpAddr_to_string (ip : IpAddr) : string :=
  match ip with V4 a b c d => ipv4_to_string a b c d | V6 segs => ipv6_to_string segs end.

(** Why a connection ended. *)
Inductive ConnEnd := EndOfStream | BadHeader | WriteFailed | ReadFailed.

(** What a turn of a loop over a connection does: end it, or write and go on. *)
Inductive Turn := TurnEnd (e : ConnEnd) | TurnNext (rest : bytes) (written : list bytes).

Section Transport.
Context `{Ext : External} `{M : Mpsc}.

Record Served := mkServed {
  sv_router : AdsRouter;
  sv_out : list bytes;
  sv_end : ConnEnd;
}.

(** [env k] is what the router draws for the [k]-th frame, [accepts k] whether
    the [k]-th write succeeds. *)
Variable env : nat -> WriteEnv.
Variable accepts : nat -> bool.

(** One turn of the loop of [TcpAmsTransport::handle_connection]: the connection
    ends, or leaves the rest of the stream after at most one write. Its path for
    writes and its path for other commands do the same. *)
Definition tcp_turn (we : WriteEnv) (accepted : bool) (peer_ip : string) (input : bytes) (r : AdsRouter)
    : outcome unit (Turn * AdsRouter) :=
  if (length input <? 6)%nat then Ok (TurnEnd EndOfStream, r)
  else
    let reserved := le_decode (take 2 input) in
    let data_len := le_decode (take 4 (drop 2 input)) in
    let rest := drop 6 input in
    if negb (reserved =? 0) || (data_len =? 0) || (MAX_TCP_FRAME <? data_len) then Ok (TurnEnd BadHeader, r)
    else if len rest <? data_len then Ok (TurnEnd EndOfStream, r)
    else
      let data := take (Z.to_nat data_len) rest in
      let rest := drop (Z.to_nat data_len) rest in
      if (length data <? 32)%nat then Ok (TurnNext rest [], r)
      else
        match dispatch we data (Some peer_ip) r with
        | (Ok (Some response), r) =>
          Ok (if accepted then TurnNext rest [amstcp AMS_TCP_CMD_ADS response] else TurnEnd WriteFailed, r)
        | (Ok None, r) | (Err _, r) => Ok (TurnNext rest [], r)
        | (Panic, _) => Panic
        | (OutOfFuel, _) => OutOfFuel
        end.

(** [TcpAmsTransport::handle_connection]. *)
Fixpoint handle_connection (fuel : nat) (peer_ip : string) (k : nat) (input : bytes) (r : AdsRouter) (out : list bytes)
    : outcome unit Served :=
  match fuel with
  | O => OutOfFuel
  | S fuel =>
    match tcp_turn (env k) (accepts (length out)) peer_ip input r with
    | Ok (TurnEnd e, r) => Ok (mkServed r out e)
    | Ok (TurnNext rest written, r) => handle_connection fuel peer_ip (S k) rest r (out ++ written)
    | Err e => Err e
    | Panic => Panic
    | OutOfFuel => OutOfFuel
    end
  end.

(** [LocalRouterAmsTransport::frame_loop]. *)
Fixpoint frame_loop (fuel : nat) (k : nat) (input : bytes) (r : AdsRouter) (out : list bytes) : outcome unit Served :=
  match fuel with
  | O => OutOfFuel
  | S fuel =>
    if (length input <? 6)%nat then Ok (mkServed r out EndOfStream)
    else
      let cmd := le_decode (take 2 input) in
      let data_len := le_decode (take 4 (drop 2 input)) in
      let rest := drop 6 input in
      if MAX_TCP_FRAME <? data_len then Ok (mkServed r out BadHeader)
      else if len rest <? data_len then Ok (mkServed r out ReadFailed)
      else
        let data := take (Z.to_nat data_len) rest in
        let rest := drop (Z.to_nat data_len) rest in
        if cmd =? AMS_TCP_CMD_ADS then
          if (length data <? 32)%nat then frame_loop fuel (S k) rest r out
          else
            match dispatch (env k) data None r with
            | (Ok (Some response), r) =>
              if accepts (length out)
              then frame_loop fuel (S k) rest r (out ++ [amstcp AMS_TCP_CMD_ADS response])
              else Ok (mkServed r out WriteFailed)
            | (Ok None, r) | (Err _, r) => frame_loop fuel (S k) rest r out
            | (Panic, _) => Panic
            | (OutOfFuel, _) => OutOfFuel
            end
        else frame_loop fuel (S k) rest r out
  end.

(** The request of [handshake], and what it makes of the reply: the Net ID, the
    port, and the bytes behind it. *)
Definition handshake_request (register_port : Z) : bytes :=
  make_amstcp_header CMD_PORT_CONNECT 2 ++ le_encode 2 register_port.

Definition hex4 (v : Z) : string := hex_of_bytes (rev (le_encode 2 v)).

Definition handshake_reply (reply : bytes) : outcome AdsError (AmsNetId * Z * bytes) :=
  if (length reply <? 6)%nat then Err (IoError "early eof")
  else
    let cmd := le_decode (take 2 reply) in
    let n := le_decode (take 4 (drop 2 reply)) in
    let rest := drop 6 reply in
    if negb (cmd =? CMD_PORT_CONNECT) then
      Err (BufferError ("PortConnect: unexpected response cmd 0x" +:+ hex4 cmd))
    else if n <? 8 then Err (BufferError ("PortConnect: short response (" +:+ dec n +:+ " bytes)"))
    else if len rest <? n then Err (IoError "early eof")
    else
      let body := take (Z.to_nat n) rest in
      (net_id <-- slice_or_panic body 0 6 ;;
       assigned <-- le_or_panic body 6 8 ;;
       Ok (mkNetId net_id, assigned, drop (Z.to_nat n) rest))%rust.

(** A session of [LocalRouterAmsTransport::run], from the connection to the next
    attempt: what is written, and the Net ID this transport then answers to.
    [input] is what the local router sends; [written] whether the request was. *)
Record LocalRouterAmsTransport := mkLocalRouter {
  lt_register_port : Z;
  lt_local_net_id : AmsNetId;
  lt_router : AdsRouter;
}.

Definition LocalRouterAmsTransport_new (r : AdsRouter) : LocalRouterAmsTransport :=
  mkLocalRouter TC_OTEL_REGISTER_PORT (mkNetId (repeat 0 6)) r.
Definition with_register_port (port : Z) (t : LocalRouterAmsTransport) : LocalRouterAmsTransport :=
  mkLocalRouter port (lt_local_net_id t) (lt_router t).

Definition local_session (written : bool) (input : bytes) (t : LocalRouterAmsTransport)
    : outcome unit (LocalRouterAmsTransport * list bytes) :=
  if negb written then Ok (t, [])
  else
    let request := handshake_request (lt_register_port t) in
    match handshake_reply input with
    | Ok (net_id, assigned, rest) =>
      match frame_loop (S (length rest)) 0 rest (lt_router t) [] with
      | Ok sv =>
        Ok (mkLocalRouter (lt_register_port t) net_id (sv_router sv),
            request :: sv_out sv ++ [make_amstcp_header AMS_TCP_CMD_PORT_CLOSE 0])
      | Err e => Err e
      | Panic => Panic
      | OutOfFuel => OutOfFuel
      end
    | Err _ => Ok (t, [request])
    | Panic => Panic
    | OutOfFuel => OutOfFuel
    end.

(** ** MQTT *)

(** [MqttAmsTransport::run] on a message: the router's answer goes to the
    response topic of the sender. *)
Definition on_publish (prefix : string) (k : nat) (payload : bytes) (r : AdsRouter)
    : outcome unit (option (string * bytes)) * AdsRouter :=
  match dispatch (env k) payload None r with
  | (Ok (Some response), r) =>
    (Ok (if (14 <=? length payload)%nat
         then Some (prefix +:+ "/" +:+ AmsNetId_to_string (mkNetId (take 6 (drop 8 payload))) +:+ "/ams/res", response)
         else None), r)
  | (Ok None, r) | (Err _, r) => (Ok None, r)
  | (Panic, r) => (Panic, r)
  | (OutOfFuel, r) => (OutOfFuel, r)
  end.

(** The topics: subscribed to and announced on at every connection. *)
Definition subscribe_topic (prefix : string) (local : AmsNetId) : string :=
  prefix +:+ "/" +:+ AmsNetId_to_string local +:+ "/ams".
Definition info_topic (prefix : string) (local : AmsNetId) : string :=
  prefix +:+ "/" +:+ AmsNetId_to_string local +:+ "/info".

(** [info_msg] and, as the last will, [offline_info]. *)
Definition attribute (name value : string) : bytes := bytes_of_string (" " +:+ name +:+ "=") ++ [34] ++ bytes_of_string value ++ [34].
Definition info_xml (online : bool) : bytes :=
  bytes_of_string "<info><online" ++ attribute "name" "tc-otel" ++ attribute "unidirectional" "true" ++
  attribute "osVersion" "0.0.0" ++ attribute "osPlatform" "0" ++
  bytes_of_string (if online then ">true</online></info>" else ">false</online></info>").

(** What the event loop of the MQTT client reports, and what is asked of it; a
    message is published with a quality of service and may be retained. *)
Inductive MqttEvent := Publish (payload : bytes) | ConnAck | OtherEvent | PollError.
Inductive MqttAction :=
| DoSubscribe (topic : string) (qos : nat)
| DoPublish (topic : string) (qos : nat) (retain : bool) (payload : bytes).

(** The event loop of [MqttAmsTransport::run]; a request the client refuses is only
    logged. *)
Definition mqtt_event (prefix : string) (local : AmsNetId) (k : nat) (ev : MqttEvent) (r : AdsRouter)
    : outcome unit (list MqttAction) * AdsRouter :=
  match ev with
  | Publish payload =>
    match on_publish prefix k payload r with
    | (Ok (Some (topic, response)), r) => (Ok [DoPublish topic 0 false response], r)
    | (Ok None, r) => (Ok [], r)
    | (Err e, r) => (Err e, r)
    | (Panic, r) => (Panic, r)
    | (OutOfFuel, r) => (OutOfFuel, r)
    end
  | ConnAck => (Ok [DoSubscribe (subscribe_topic prefix local) 0; DoPublish (info_topic prefix local) 1 true (info_xml true)], r)
  | OtherEvent | PollError => (Ok [], r)
  end.

Fixpoint mqtt_run (prefix : string) (local : AmsNetId) (k : nat) (l : list MqttEvent) (r : AdsRouter) (out : list MqttAction)
    : outcome unit (AdsRouter * list MqttAction) :=
  match l with
  | [] => Ok (r, out)
  | ev :: l =>
    match mqtt_event prefix local k ev r with
    | (Ok acts, r) => mqtt_run prefix local (S k) l r (out ++ acts)
    | (Err e, _) => Err e
    | (Panic, _) => Panic
    | (OutOfFuel, _) => OutOfFuel
    end
  end.

(** ** The listener of the plain protocol *)

(** [ads_to_log_entry]; [uuid] and [now] are what [LogEntry::new] draws. *)
Definition ads_to_log_entry (uuid : string) (now : DateTime) (e : AdsLogEntry) (peer_ip : string) : LogEntry :=
  let entry := LogEntry_new uuid now peer_ip "" (al_message e) (al_logger e) (al_level e) in
  mkLogEntry (le_id entry) (le_source entry) (le_hostname entry) (le_ams_net_id entry) (le_ams_source_port entry)
    (le_ams_app_port entry) (le_message entry) (le_logger entry) (le_level entry) (al_plc_timestamp e)
    (al_clock_timestamp e) (al_task_index e) (al_task_name e) (al_task_cycle_counter e) (al_app_name e)
    (al_project_name e) (al_online_change_count e) (al_trace_id e) (al_span_id e) (al_arguments e) (al_context e).

Inductive ReadResult := ReadBytes (bs : bytes) | ReadError (msg : string) | TimedOut.

(** [AdsListener::handle_connection]: each read is taken for one message, and
    answered by a byte. [draw k] is what the [k]-th message draws. *)
Fixpoint listener_connection (draw : nat -> string * DateTime) (peer_ip : string) (k : nat) (reads : list ReadResult)
    (log_tx : Sender LogEntry) (acks : bytes) : outcome AdsError (Sender LogEntry * bytes) :=
  match reads with
  | [] | TimedOut :: _ | ReadBytes [] :: _ => Ok (log_tx, acks)
  | ReadError e :: _ => Err (BufferError ("Read error: " +:+ e))
  | ReadBytes data :: reads =>
    match parse (draw k).2 data with
    | Ok ads_entry =>
      let log_tx := (try_send log_tx (ads_to_log_entry (draw k).1 (draw k).2 ads_entry peer_ip)).1 in
      if accepts (length acks) then listener_connection draw peer_ip (S k) reads log_tx (acks ++ [1])
      else Ok (log_tx, acks)
    | Err _ =>
      if accepts (length acks) then listener_connection draw peer_ip (S k) reads log_tx (acks ++ [0])
      else Ok (log_tx, acks)
    | Panic => Panic
    | OutOfFuel => OutOfFuel
    end
  end.

End Transport.

(** ** Frames on a stream *)

Lemma amstcp_read cmd f rest :
  in_width 16 cmd -> in_width 32 (len f) ->
  let input := amstcp cmd f ++ rest in
  (length input <? 6)%nat = false /\ le_decode (take 2 input) = cmd /\ le_decode (take 4 (drop 2 input)) = len f /\
  (len (drop 6 input) <? len f) = false /\ take (Z.to_nat (len f)) (drop 6 input) = f /\
  drop (Z.to_nat (len f)) (drop 6 input) = rest.
Proof.
  intros Hc Hl input. unfold input, amstcp, make_amstcp_header. rewrite <- !app_assoc.
  assert (H6 : drop 6 (le_encode 2 cmd ++ le_encode 4 (len f) ++ f ++ rest) = f ++ rest).
  { rewrite app_assoc. by apply drop_app_length'. }
  rewrite H6. split_and!.
  - apply Nat.ltb_ge. rewrite !length_app, !length_le_encode. lia.
  - rewrite take_app_length' by by rewrite length_le_encode. by apply (in_width_le_roundtrip 2).
  - rewrite drop_app_length', take_app_length' by by rewrite length_le_encode. by apply (in_width_le_roundtrip 4).
  - apply Z.ltb_ge. unfold len. rewrite length_app. lia.
  - unfold len. rewrite Nat2Z.id. by apply take_app_length.
  - unfold len. rewrite Nat2Z.id. by apply drop_app_length.
Qed.

(** A frame every transport accepts. *)
Definition wire_frame (f : bytes) : Prop := is_bytes f /\ (32 <= length f)%nat /\ len f <= MAX_TCP_FRAME.

Section Theorems.
Context `{Ext : External} `{M : Mpsc}.
Variable env : nat -> WriteEnv.

(** Frames handed to the router one after the other: its answers, and what is
    left of it. *)
Fixpoint dispatch_each (peer : option string) (k : nat) (fs : list bytes) (r : AdsRouter) : list bytes * AdsRouter :=
  match fs with
  | [] => ([], r)
  | f :: fs =>
    match dispatch (env k) f peer r with
    | (Ok (Some resp), r) => let '(resps, r) := dispatch_each peer (S k) fs r in (resp :: resps, r)
    | (_, r) => dispatch_each peer (S k) fs r
    end
  end.

Lemma wire_frame_read cmd f rest : in_width 16 cmd -> wire_frame f ->
  let input := amstcp cmd f ++ rest in
  (length input <? 6)%nat = false /\ le_decode (take 2 input) = cmd /\ le_decode (take 4 (drop 2 input)) = len f /\
  (len (drop 6 input) <? len f) = false /\ take (Z.to_nat (len f)) (drop 6 input) = f /\
  drop (Z.to_nat (len f)) (drop 6 input) = rest /\
  (len f =? 0) = false /\ (MAX_TCP_FRAME <? len f) = false /\ (length f <? 32)%nat = false.
Proof.
  intros Hc (Hb & H32 & Hmax). destruct (amstcp_read cmd f rest Hc) as (H1 & H2 & H3 & H4 & H5 & H6).
  { unfold in_width, MAX_TCP_FRAME, len in *. lia. }
  split_and!; try done.
  - apply Z.eqb_neq. unfold len. lia.
  - by apply Z.ltb_ge.
  - by apply Nat.ltb_ge.
Qed.

Lemma tcp_step fuel peer k f rest r out resp r' :
  wire_frame f -> dispatch (env k) f (Some peer) r = (Ok (Some resp), r') ->
  handle_connection env (fun _ => true) (S fuel) peer k (amstcp AMS_TCP_CMD_ADS f ++ rest) r out =
  handle_connection env (fun _ => true) fuel peer (S k) rest r' (out ++ [amstcp AMS_TCP_CMD_ADS resp]).
Proof.
  intros Hf Hd. destruct (wire_frame_read AMS_TCP_CMD_ADS f rest) as (H1 & H2 & H3 & H4 & H5 & H6 & H7 & H8 & H9); [done..|].
  cbn [handle_connection]. unfold tcp_turn. cbv zeta. rewrite H1, H2, H3, H4, H5, H6, H7, H8, H9, Hd. done.
Qed.

Lemma local_step fuel k f rest r out resp r' :
  wire_frame f -> dispatch (env k) f None r = (Ok (Some resp), r') ->
  frame_loop env (fun _ => true) (S fuel) k (amstcp AMS_TCP_CMD_ADS f ++ rest) r out =
  frame_loop env (fun _ => true) fuel (S k) rest r' (out ++ [amstcp AMS_TCP_CMD_ADS resp]).
Proof.
  intros Hf Hd. destruct (wire_frame_read AMS_TCP_CMD_ADS f rest) as (H1 & H2 & H3 & H4 & H5 & H6 & H7 & H8 & H9); [done..|].
  cbn [frame_loop]. cbv zeta. rewrite H1, H2, H3, H4, H5, H6, H8, H9, Hd. done.
Qed.

(** The topic an answer to [f] is published on. *)
Definition reply_topic (prefix : string) (f : bytes) : string :=
  prefix +:+ "/" +:+ AmsNetId_to_string (mkNetId (take 6 (drop 8 f))) +:+ "/ams/res".

Definition stream_of (fs : list bytes) : bytes := concat (map (amstcp AMS_TCP_CMD_ADS) fs).

Lemma tcp_serves peer fs : Forall wire_frame fs -> forall k r out fuel, (length fs < fuel)%nat ->
  handle_connection env (fun _ => true) fuel peer k (stream_of fs) r out =
  Ok (mkServed (dispatch_each (Some peer) k fs r).2
        (out ++ map (amstcp AMS_TCP_CMD_ADS) (dispatch_each (Some peer) k fs r).1) EndOfStream).
Proof.
  unfold stream_of. induction 1 as [|f fs Hf _ IH]; intros k r out [|fuel] Hfuel; try (simpl in *; lia).
  - simpl. by rewrite app_nil_r.
  - destruct (dispatch_reply (env k) f (Some peer) r) as (h & resp & r' & _ & Hd & _); [apply Hf..|].
    cbn [map concat]. rewrite (tcp_step _ _ _ _ _ _ _ resp r') by done. rewrite IH by (simpl in *; lia).
    cbn [dispatch_each]. rewrite Hd. destruct (dispatch_each (Some peer) (S k) fs r') as [resps r'']. simpl.
    by rewrite <- app_assoc.
Qed.

Lemma local_serves fs : Forall wire_frame fs -> forall k r out fuel, (length fs < fuel)%nat ->
  frame_loop env (fun _ => true) fuel k (stream_of fs) r out =
  Ok (mkServed (dispatch_each None k fs r).2
        (out ++ map (amstcp AMS_TCP_CMD_ADS) (dispatch_each None k fs r).1) EndOfStream).
Proof.
  unfold stream_of. induction 1 as [|f fs Hf _ IH]; intros k r out [|fuel] Hfuel; try (simpl in *; lia).
  - simpl. by rewrite app_nil_r.
  - destruct (dispatch_reply (env k) f None r) as (h & resp & r' & _ & Hd & _); [apply Hf..|].
    cbn [map concat]. rewrite (local_step _ _ _ _ _ _ resp r') by done. rewrite IH by (simpl in *; lia).
    cbn [dispatch_each]. rewrite Hd. destruct (dispatch_each None (S k) fs r') as [resps r'']. simpl.
    by rewrite <- app_assoc.
Qed.

Lemma mqtt_serves prefix local fs : Forall wire_frame fs -> forall k r out,
  mqtt_run env prefix local k (map Publish fs) r out =
  Ok ((dispatch_each None k fs r).2,
      out ++ zip_with (fun f resp => DoPublish (reply_topic prefix f) 0 false resp) fs (dispatch_each None k fs r).1).
Proof.
  induction 1 as [|f fs Hf _ IH]; intros k r out; [simpl; by rewrite app_nil_r|].
  destruct (dispatch_reply (env k) f None r) as (h & resp & r' & _ & Hd & _); [apply Hf..|].
  cbn [mqtt_run mqtt_event dispatch_each map]. unfold on_publish. rewrite Hd.
  rewrite (proj2 (Nat.leb_le 14 (length f))) by (destruct Hf as (_ & ? & _); lia). rewrite IH.
  destruct (dispatch_each None (S k) fs r') as [resps r'']. simpl. by rewrite <- app_assoc.
Qed.

Lemma each_answered peer fs : Forall wire_frame fs -> forall k r,
  Forall2 (fun f resp => exists h, AmsHeader_parse f = Ok h /\ answers h resp) fs (dispatch_each peer k fs r).1.
Proof.
  induction 1 as [|f fs Hf _ IH]; intros k r; [constructor|]. cbn [dispatch_each].
  destruct (dispatch_reply (env k) f peer r) as (h & resp & r' & Hh & Hd & Ha); [apply Hf..|]. rewrite Hd.
  specialize (IH (S k) r'). destruct (dispatch_each peer (S k) fs r') as [resps r'']. constructor; [eauto|done].
Qed.

Lemma length_stream fs : (length fs <= length (stream_of fs))%nat.
Proof.
  unfold stream_of. induction fs as [|f fs IH]; [done|]. cbn [map concat]. rewrite length_app. unfold amstcp at 1.
  unfold make_amstcp_header. rewrite !length_app, !length_le_encode. simpl. lia.
Qed.

(** C19: The transports agree. Well-formed frames that arrive over a TCP connection,
    from a local TwinCAT router or as MQTT messages are handed to the router
    one by one and in order; each is answered once, over the same connection
    or on the response topic of its sender, in the order of the requests and by
    a response to that very request; a TCP connection differs only in naming
    its peer, and the local and the MQTT transport leave the same router. *)
Theorem transports_agree peer prefix local fs r :
  Forall wire_frame fs ->
  let tcp := dispatch_each (Some peer) 0 fs r in
  let other := dispatch_each None 0 fs r in
  handle_connection env (fun _ => true) (S (length (stream_of fs))) peer 0 (stream_of fs) r [] =
    Ok (mkServed tcp.2 (map (amstcp AMS_TCP_CMD_ADS) tcp.1) EndOfStream) /\
  frame_loop env (fun _ => true) (S (length (stream_of fs))) 0 (stream_of fs) r [] =
    Ok (mkServed other.2 (map (amstcp AMS_TCP_CMD_ADS) other.1) EndOfStream) /\
  mqtt_run env prefix local 0 (map Publish fs) r [] =
    Ok (other.2, zip_with (fun f resp => DoPublish (reply_topic prefix f) 0 false resp) fs other.1) /\
  Forall2 (fun f resp => exists h, AmsHeader_parse f = Ok h /\ answers h resp) fs tcp.1 /\
  Forall2 (fun f resp => exists h, AmsHeader_parse f = Ok h /\ answers h resp) fs other.1.
Proof.
  intros Hfs tcp other. pose proof (length_stream fs).
  split_and!; [rewrite tcp_serves by (done || lia); done|rewrite local_serves by (done || lia); done|
    by rewrite mqtt_serves|by apply each_answered|by apply each_answered].
Qed.

(** ** Whatever arrives *)

(** The first frame of a stream, and the stream behind it: [None] at the end, or in
    front of a header that is refused. *)
Definition next_frame (input : bytes) : option (bytes * bytes) :=
  let data_len := le_decode (take 4 (drop 2 input)) in
  if (length input <? 6)%nat || negb (le_decode (take 2 input) =? 0) || (data_len =? 0) || (MAX_TCP_FRAME <? data_len) ||
     (len (drop 6 input) <? data_len)
  then None
  else Some (take (Z.to_nat data_len) (drop 6 input), drop (Z.to_nat data_len) (drop 6 input)).

Lemma next_frame_length input f rest :
  next_frame input = Some (f, rest) -> (length f + length rest + 6 = length input)%nat.
Proof.
  unfold next_frame. intros H. case_match eqn:Hc; [done|]. simplify_eq.
  apply orb_false_iff in Hc as [Hc Hn]. apply Z.ltb_ge in Hn. unfold len in Hn.
  do 3 apply orb_false_iff in Hc as [Hc _]. apply Nat.ltb_ge in Hc. rewrite length_drop in Hn.
  rewrite length_take, !length_drop. lia.
Qed.

Lemma next_frame_bytes input f rest : is_bytes input -> next_frame input = Some (f, rest) -> is_bytes f /\ is_bytes rest.
Proof.
  unfold next_frame. intros Hb H. case_match; [done|]. simplify_eq.
  split; [by apply Forall_take, Forall_drop|by apply Forall_drop, Forall_drop].
Qed.

(** A turn takes the next frame: it ends the connection when there is none, skips
    a short one, and answers any other. *)
Lemma tcp_turn_spec we accepted peer input r :
  is_bytes input ->
  match next_frame input with
  | None => exists e, tcp_turn we accepted peer input r = Ok (TurnEnd e, r) /\ e <> WriteFailed
  | Some (f, rest) =>
    if (length f <? 32)%nat then tcp_turn we accepted peer input r = Ok (TurnNext rest [], r)
    else exists h resp r', AmsHeader_parse f = Ok h /\ answers h resp /\
      tcp_turn we accepted peer input r =
      Ok (if accepted then TurnNext rest [amstcp AMS_TCP_CMD_ADS resp] else TurnEnd WriteFailed, r')
  end.
Proof.
  intros Hb. pose proof (next_frame_bytes input) as Hf. unfold next_frame in *. unfold tcp_turn. cbv zeta in *.
  destruct (length input <? 6)%nat; [simpl; eauto|]. cbn [orb] in *.
  destruct (negb _ || (_ =? 0) || (_ <? _)); cbn [orb] in *; [eauto|].
  destruct (_ <? _); cbn [orb] in *; [eauto|].
  destruct (Hf _ _ Hb eq_refl) as [Hd _].
  destruct (Nat.ltb_spec (length (take (Z.to_nat (le_decode (take 4 (drop 2 input)))) (drop 6 input))) 32) as [|H32]; [done|].
  destruct (dispatch_reply we _ (Some peer) r Hd H32) as (h & resp & r' & Hp & -> & Ha). eauto 10.
Qed.

(** A turn of a loop consumes at least the six bytes of a header, and a frame that
    is answered at least 38. *)
Lemma tcp_total accepts peer fuel : forall k input r out,
  is_bytes input -> (length input < fuel)%nat ->
  exists sv, handle_connection env accepts fuel peer k input r out = Ok sv /\
    (38 * length (sv_out sv) <= 38 * length out + length input)%nat.
Proof.
  induction fuel as [|fuel IH]; intros k input r out Hb Hf; [lia|]. cbn [handle_connection].
  pose proof (tcp_turn_spec (env k) (accepts (length out)) peer input r Hb) as Ht.
  destruct (next_frame input) as [[f rest]|] eqn:Hn; [|destruct Ht as (e & -> & _); eexists; split; [done|simpl; lia]].
  apply next_frame_length in Hn as Hl. destruct (next_frame_bytes _ _ _ Hb Hn) as [_ Hr].
  destruct (Nat.ltb_spec (length f) 32) as [|H32].
  - rewrite Ht, app_nil_r. destruct (IH (S k) rest r out Hr ltac:(lia)) as (sv & -> & Hsv). exists sv. split; [done|lia].
  - destruct Ht as (h & resp & r' & _ & _ & ->). destruct (accepts (length out)); [|eexists; split; [done|simpl; lia]].
    destruct (IH (S k) rest r' (out ++ [amstcp AMS_TCP_CMD_ADS resp]) Hr ltac:(lia)) as (sv & -> & Hsv).
    exists sv. split; [done|]. rewrite length_app in Hsv. simpl in Hsv. lia.
Qed.

(** A connection ends without a panic whatever its peer sends and whichever
    writes fail, and never writes more frames than the input has room for. *)
Theorem tcp_connection_safe accepts peer input r :
  is_bytes input ->
  exists sv, handle_connection env accepts (S (length input)) peer 0 input r [] = Ok sv /\
    (38 * length (sv_out sv) <= length input)%nat.
Proof.
  intros Hb. destruct (tcp_total accepts peer (S (length input)) 0 input r [] Hb ltac:(lia)) as (sv & H & Hl).
  exists sv. split; [done|]. simpl in Hl. lia.
Qed.

(** The limit of a connection leaves out the header: a frame with the largest
    payload the dispatcher of this repository sends is refused, and the
    connection dropped. *)
Lemma full_frame_refused accepts fuel peer k f rest r out :
  MAX_TCP_FRAME < len f <= MAX_AMS_FRAME ->
  handle_connection env accepts (S fuel) peer k (amstcp AMS_TCP_CMD_ADS f ++ rest) r out = Ok (mkServed r out BadHeader).
Proof.
  intros Hf. destruct (amstcp_read AMS_TCP_CMD_ADS f rest) as (H1 & H2 & H3 & _); [done|..].
  { unfold MAX_AMS_FRAME, MAX_AMS_PAYLOAD, AMS_HEADER_LEN, MAX_TCP_FRAME, in_width, len in *. lia. }
  cbn [handle_connection]. unfold tcp_turn. cbv zeta. rewrite H1, H2, H3. rewrite (proj2 (Z.ltb_lt MAX_TCP_FRAME (len f))) by lia.
  by rewrite orb_true_r.
Qed.

(** ** The listener *)

Lemma parse_completes now data : completes (parse now data).
Proof.
  unfold parse. case_match; [done|]. destruct (advances_v1 now (BytesReader_new data)) as [Hc _]; [|done].
  unfold in_bounds. simpl. lia.
Qed.

Definition chunk_entry (draw : nat -> string * DateTime) (peer : string) (k : nat) (data : bytes) : option LogEntry :=
  match parse (draw k).2 data with
  | Ok e => Some (ads_to_log_entry (draw k).1 (draw k).2 e peer)
  | _ => None
  end.

(** The listener answers every read, in order, by whether it was a message, and
    offers exactly the entries of those that were to the channel. *)
Theorem listener_answers draw peer chunks k tx acks :
  Forall (fun c => c <> []) chunks ->
  listener_connection (fun _ => true) draw peer k (map ReadBytes chunks) tx acks =
  let entries := imap (fun i c => chunk_entry draw peer (k + i) c) chunks in
  Ok (send_all tx (omap id entries), acks ++ map (fun e => match e with Some _ => 1 | None => 0 end) entries).
Proof.
  intros Hc. cbv zeta. revert k tx acks. induction Hc as [|c chunks Hne _ IH]; intros k tx acks; [by rewrite app_nil_r|].
  destruct c as [|b c]; [done|]. rewrite imap_cons, Nat.add_0_r. cbn [map listener_connection]. pose proof (parse_completes (draw k).2 (b :: c)) as Hp.
  assert (Hext : imap ((fun i c => chunk_entry draw peer (k + i) c) ∘ S) chunks =
                 imap (fun i c => chunk_entry draw peer (S k + i) c) chunks).
  { apply imap_ext. intros i x _. simpl. f_equal. lia. }
  rewrite Hext. assert (He : chunk_entry draw peer k (b :: c) =
    match parse (draw k).2 (b :: c) with Ok e => Some (ads_to_log_entry (draw k).1 (draw k).2 e peer) | _ => None end) by done.
  rewrite He. destruct (parse (draw k).2 (b :: c)) as [e|e| |]; [| |done|done]; rewrite IH, <- app_assoc; done.
Qed.

(** ** The handshake *)

(** A router's reply is read back, with what follows it left on the stream. *)
Lemma handshake_read_back net port extra rest :
  wf_net net -> in_width 16 port -> in_width 32 (8 + len extra) ->
  handshake_reply (amstcp CMD_PORT_CONNECT (net_bytes net ++ le_encode 2 port ++ extra) ++ rest) =
  Ok (net, port, rest).
Proof.
  intros [Hnet _] Hp He. set (body := net_bytes net ++ le_encode 2 port ++ extra).
  assert (Hb : len body = 8 + len extra).
  { unfold body, len. rewrite !length_app, length_le_encode, Hnet. lia. }
  destruct (amstcp_read CMD_PORT_CONNECT body rest) as (H1 & H2 & H3 & H4 & H5 & H6); [done|by rewrite Hb|].
  unfold handshake_reply. cbv zeta. rewrite H1, H2, H3, H4, H5, H6.
  change (negb (CMD_PORT_CONNECT =? CMD_PORT_CONNECT)) with false. cbv iota.
  rewrite (proj2 (Z.ltb_ge (len body) 8)) by (rewrite Hb; unfold len; lia). unfold slice_or_panic at 1, body.
  rewrite (slice_at_head (net_bytes net)) by done. cbn [outcome_bind].
  rewrite (le_word_at (net_bytes net) 2 port) by done. cbn [outcome_bind]. by destruct net.
Qed.

(** A session with the local router registers the port, answers every frame, and
    releases the port at the end; the transport then answers to the Net ID the router gave. *)
Theorem local_session_serves t net port extra fs :
  wf_net net -> in_width 16 port -> in_width 32 (8 + len extra) -> Forall wire_frame fs ->
  let answers := dispatch_each None 0 fs (lt_router t) in
  local_session env (fun _ => true) true
    (amstcp CMD_PORT_CONNECT (net_bytes net ++ le_encode 2 port ++ extra) ++ stream_of fs) t =
  Ok (mkLocalRouter (lt_register_port t) net answers.2,
      [handshake_request (lt_register_port t)] ++ map (amstcp AMS_TCP_CMD_ADS) answers.1 ++
      [make_amstcp_header AMS_TCP_CMD_PORT_CLOSE 0]).
Proof.
  intros Hn Hp He Hfs answers. unfold local_session. cbn [negb]. rewrite handshake_read_back by done.
  cbv beta iota. rewrite local_serves by (done || apply Nat.lt_succ_r, length_stream). done.
Qed.

(** ** The announcement *)

Lemma info_xml_parsed online : parse_info_xml (info_xml online) = Some online.
Proof. by destruct online. Qed.

(** What the transport publishes when it is connected makes a dispatcher with the
    same prefix route to it over MQTT, and its last will takes the route away. *)
Theorem announcement_learned `{OS : OneshotOps} `{SK : InboundSink} `{!OneshotLaws OS} prefix local k r (d : AmsDispatcher) :
  wf_net local ->
  exists topic payload,
    mqtt_event env prefix local k ConnAck r =
      (Ok [DoSubscribe (subscribe_topic prefix local) 0; DoPublish topic 1 true payload], r) /\
    handle_incoming_mqtt topic payload prefix d = Ok (with_routes (<[local := Mqtt]> (ad_routes d)) d) /\
    handle_incoming_mqtt topic (info_xml false) prefix d = Ok (with_routes (delete local (ad_routes d)) d).
Proof.
  intros Hl. pose proof (info_topic_ends (OS := OS) prefix local) as Hi.
  pose proof (topic_net_id_topic (OS := OS) prefix local "info") as Ht.
  eexists _, _. split; [done|]. unfold handle_incoming_mqtt, mqtt_receive, info_topic.
  rewrite Hi, !info_xml_parsed. change "/info" with ("/" +:+ "info"). by rewrite Ht.
Qed.

End Theorems.
