(* ===== verification/ClientServer.v ===== *)
(** * A request of the dispatcher answered by the router

    The client side ([AmsDispatcher], dispatcher.rs) and the server side
    ([Router] behind the MQTT transport of [Transport], router.rs and transport/mqtt.rs) of AMS put together over MQTT: what
    [send_request] publishes is given to the transport at the target, and what the transport
    publishes to the dispatcher's MQTT task. The broker between them delivers a message to whoever subscribed to a
    filter that its topic matches. *)

From S2P Require Import Prelude.
From S2P Require Import Text.
From S2P Require Import External.
From S2P Require Import Ams.
From S2P Require Import Net.
From S2P Require Import Router.
From S2P Require Import AmsDispatcher.
From S2P Require Import Transport.
From Stdlib Require Import Ascii.

(** ** The broker *)

(** When a topic matches a filter ([+] stands for one level). *)
Class TopicMatching := {
  topic_matches : string -> string -> bool;
}.

Definition wildcard_free (s : string) : Prop := (43 ∉ bytes_of_string s) /\ (35 ∉ bytes_of_string s).

Class TopicMatchingLaws (TM : TopicMatching) : Prop := {
  topic_matches_self : forall topic, wildcard_free topic -> topic_matches topic topic = true;
  topic_matches_level : forall before level after,
    wildcard_free before -> wildcard_free after -> 47 ∉ bytes_of_string level ->
    topic_matches (before +:+ "/+/" +:+ after) (before +:+ "/" +:+ level +:+ "/" +:+ after) = true;
}.

(** Level by level. *)
Module LevelMatching.

Definition level_ok (f l : string) : bool := String.eqb f "+" || String.eqb f l.

Fixpoint levels_ok (fs ls : list string) : bool :=
  match fs, ls with
  | [], [] => true
  | f :: fs, l :: ls => level_ok f l && levels_ok fs ls
  | _, _ => false
  end.

#[export] Instance level_matching : TopicMatching := {|
  topic_matches := fun f t => levels_ok (split_on "/"%char f) (split_on "/"%char t);
|}.

Lemma levels_ok_app a fs ls : levels_ok (a ++ fs) (a ++ ls) = levels_ok fs ls.
Proof. induction a as [|x a IH]; [done|]. simpl. unfold level_ok. by rewrite String.eqb_refl, orb_true_r, IH. Qed.

Lemma levels_ok_refl a : levels_ok a a = true.
Proof. rewrite <- (app_nil_r a). by rewrite levels_ok_app. Qed.

#[export] Instance level_matching_laws : TopicMatchingLaws level_matching.
Proof.
  split; simpl; [intros; apply levels_ok_refl|]. intros before level after _ _ Hl.
  change (before +:+ "/+/" +:+ after) with (before +:+ String "/" ("+" +:+ String "/" after)).
  change ("/" +:+ level +:+ "/" +:+ after) with (String "/" (level +:+ String "/" after)).
  rewrite !split_on_sep, levels_ok_app, (split_on_absent "/"%char level) by done.
  change (split_on "/"%char "+") with ["+"]. cbn [app levels_ok]. by rewrite levels_ok_refl.
Qed.

End LevelMatching.

Section ClientServer.
Context `{OS : OneshotOps} `{SK : InboundSink} `{!OneshotLaws OS}.
Context `{EX : External} `{HX : Hex} `{M : Mpsc} `{TM : TopicMatching} `{!TopicMatchingLaws TM}.
#[local] Set Default Proof Using "All".

Record wf_request (rq : Request) : Prop := {
  wf_rq_net : wf_net (rq_target_net_id rq);
  wf_rq_port : in_width 16 (rq_target_port rq);
  wf_rq_cmd : in_width 16 (rq_cmd rq);
  wf_rq_payload : is_bytes (rq_payload rq);
}.

Definition wf_source (d : AmsDispatcher) : Prop :=
  wf_net (ad_source_net_id d) /\ in_width 16 (ad_source_port d).

Lemma request_header_wf rq id d :
  wf_request rq -> wf_source d -> in_width 32 id ->
  wf_header (mkHeader (rq_target_net_id rq) (rq_target_port rq) (ad_source_net_id d)
    (ad_source_port d) (rq_cmd rq) 4 (wrap 32 (len (rq_payload rq))) 0 id).
Proof.
  intros [] [] Hid. split; simpl; try done.
  unfold in_width, wrap. apply Z.mod_pos_bound. lia.
Qed.

Lemma request_frame_bytes rq id d :
  wf_request rq -> wf_source d -> in_width 32 id -> is_bytes (request_frame rq id d).
Proof.
  intros [[] ? ? ?] [[] ?] Hid. unfold request_frame, build_ams_frame, AmsHeader_serialize.
  rewrite !is_bytes_app. cbn [target_net_id target_port source_net_id]. split_and!; try done; apply le_encode_is_bytes.
Qed.

Lemma length_request_frame rq id d :
  wf_request rq -> wf_source d -> in_width 32 id -> (32 <= length (request_frame rq id d))%nat.
Proof.
  intros Hrq Hd Hid. unfold request_frame, build_ams_frame.
  rewrite length_app, length_AmsHeader_serialize; [lia|]. by apply request_header_wf.
Qed.

(** An answer on a response topic goes to the waiter of its id. *)
Lemma mqtt_answer_resolves topic resp f prefix d t id :
  str_ends_with "/info" topic = false -> str_ends_with "/ams/res" topic = true ->
  AmsFrame_decode resp = Ok f -> is_response (header f) = true ->
  target_net_id (header f) = ad_source_net_id d -> target_port (header f) = ad_source_port d ->
  invoke_id (header f) = id -> open_entry d t id ->
  exists d', handle_incoming_mqtt topic resp prefix d = Ok d' /\ ad_pending d' !! id = None /\
    forall rq, request_step t rq Run (Waiting id) d' =
      Some (d', Done (response_result (mkResp (header f) (payload f)))).
Proof.
  intros Hinfo Hres Hdec Hr Hnet Hport Hid [Hp (c & Hc & Hpoll)].
  unfold handle_incoming_mqtt, mqtt_receive. rewrite Hinfo, Hres, andb_false_r.
  unfold AmsFrame_decode in Hdec. unfold AMS_HEADER_LEN.
  destruct (Nat.ltb_spec (length resp) 32) as [|Hl]; [done|].
  rewrite slice_or_panic_spec by lia. cbn [outcome_bind Nat.sub].
  rewrite drop_0, AmsHeader_parse_take by lia.
  destruct (AmsHeader_parse resp) as [h| | |]; try done. cbn [outcome_bind] in *.
  rewrite slice_or_panic_spec by lia. cbn [outcome_bind fst snd].
  assert (f = mkFrame h (take (length resp - 32) (drop 32 resp))) as ->.
  { destruct (Nat.ltb_spec 32 (length resp)).
    - rewrite slice_or_panic_spec in Hdec by lia. by injection Hdec as <-.
    - injection Hdec as <-. by rewrite (drop_ge resp 32), take_nil by lia. }
  cbn [header payload] in *. set (body := take _ _).
  eexists. split; [reflexivity|]. set (d1 := if bool_decide _ then _ else d).
  assert (Hd1 : ad_source_net_id d1 = ad_source_net_id d /\ ad_source_port d1 = ad_source_port d /\
    ad_pending d1 = ad_pending d /\ ad_channels d1 = ad_channels d).
  { unfold d1. by case_bool_decide. }
  destruct Hd1 as (H1 & H2 & H3 & H4).
  unfold mqtt_deliver, serve_waiter. rewrite Hr, H1, H2, Hport, Z.eqb_refl, H3, Hid, Hp.
  rewrite bool_decide_false by (intros Hn; by apply Hn). cbn [orb negb]. split.
  - cbn. apply lookup_delete_eq.
  - intros rq. cbn [request_step with_waiters ad_channels]. rewrite H4, lookup_alter_eq, Hc.
    cbn [fmap option_fmap option_map]. by rewrite (oneshot_send_received _ _ _ Hpoll).
Qed.

(** The sender's Net ID in a frame. *)
Lemma request_frame_source rq id d :
  wf_request rq -> wf_source d -> take 6 (drop 8 (request_frame rq id d)) = net_bytes (ad_source_net_id d).
Proof.
  intros [[Ht _] ? ? ?] [[Hs _] ?]. unfold request_frame, build_ams_frame, AmsHeader_serialize. cbn [target_net_id target_port source_net_id].
  rewrite <- !app_assoc, app_assoc, drop_app_length'; [|rewrite length_app, length_le_encode; lia].
  by rewrite take_app_length'.
Qed.

(** C5: End to end over MQTT. Whatever command and payload a registered request
    carries, [send_request] publishes its frame on the topic that the transport of the target subscribes to; the transport
    gives it to its router and publishes the router's answer on the response topic of the requester; that topic matches a filter
    the dispatcher subscribes to, and the answer is
    taken by the dispatcher's MQTT task to exactly this request: it returns
    [Ok] with the payload of the router's answer, and its entry is gone. *)
Theorem request_answered_by_router env k r d t rq id prefix :
  wf_request rq -> wf_source d -> in_width 32 id -> open_entry d t id -> ad_mqtt d = Some (mkMqttPeer prefix) ->
  wildcard_free prefix ->
  let target := rq_target_net_id rq in
  let frame := request_frame rq id d in
  let request_topic := outbound_topic (mkMqttPeer prefix) target in
  let answer_topic := prefix +:+ "/" +:+ AmsNetId_to_string (ad_source_net_id d) +:+ "/ams/res" in
  exists d1 resp r' f d2,
    request_step t rq (PublishResult None) (PublishMqtt id frame) d = Some (d1, Waiting id) /\
    ad_wire d1 = ad_wire d ++ [SentMqtt request_topic frame] /\
    (exists acts, mqtt_event env prefix target k ConnAck r = (Ok acts, r) /\ DoSubscribe request_topic 0 ∈ acts) /\
    dispatch (env k) frame None r = (Ok (Some resp), r') /\
    mqtt_event env prefix target k (Publish frame) r = (Ok [DoPublish answer_topic 0 false resp], r') /\
    (exists filter, SentSubscribe filter ∈ ad_wire (on_connack prefix d1) /\ topic_matches filter answer_topic = true) /\
    AmsFrame_decode resp = Ok f /\ handle_incoming_mqtt answer_topic resp prefix d1 = Ok d2 /\
    request_step t rq Run (Waiting id) d2 = Some (d2, Done (Ok (payload f))) /\ ad_pending d2 !! id = None.
Proof.
  intros Hrq Hd Hid Hopen Hmqtt Hclean target frame request_topic answer_topic.
  pose proof (request_header_wf rq id d Hrq Hd Hid) as Hwf.
  destruct (dispatch_reply (env k) frame None r) as (h & resp & r' & Hh & Hdisp & Hans);
    [by apply request_frame_bytes|by apply length_request_frame|].
  unfold frame, request_frame, build_ams_frame in Hh. rewrite AmsHeader_parse_app in Hh by done.
  injection Hh as <-.
  destruct Hans as (f & Hdec & Hn & Hp & _ & _ & _ & Hi & Hflags & Herr & _). simpl in Hn, Hp, Hi.
  set (d1 := with_sent [SentMqtt request_topic frame] d).
  destruct (mqtt_answer_resolves answer_topic resp f prefix d1 t id) as (d2 & Hd2 & Hgone & Hact); try done.
  - unfold answer_topic. rewrite !string_app_assoc. by apply str_ends_with_other.
  - unfold answer_topic. rewrite !string_app_assoc. apply str_ends_with_app.
  - unfold is_response. by rewrite Hflags.
  - exists d1, resp, r', f, d2. split_and!; try done.
    + cbn [request_step]. by rewrite Hmqtt.
    + eexists. split; [reflexivity|]. by left.
    + unfold mqtt_event, on_publish. rewrite Hdisp.
      pose proof (length_request_frame rq id d Hrq Hd Hid) as Hl. fold frame in Hl.
      rewrite (proj2 (Nat.leb_le _ _)) by lia. unfold frame. rewrite request_frame_source by done.
      by destruct (ad_source_net_id d).
    + exists (prefix +:+ "/+/ams/res"). split.
      * apply elem_of_app. right. by left.
      * apply (topic_matches_level prefix _ "ams/res"); [done| |by apply AmsNetId_to_string_no_slash, Hd].
        split; apply (bool_decide_unpack _); by vm_compute.
    + rewrite Hact. unfold response_result. cbn [rf_header rf_payload]. by rewrite Herr.
Qed.

End ClientServer.
