(* ===== verification/Server.v ===== *)
(** * The TCP server (crates/tc-otel-ads: transport/tcp.rs)

    The accept loop of [TcpAmsTransport::run] with everything it starts: each
    connection asks the connection manager for a permit, is served frame by frame
    while it holds the permit, and gives the permit back when it ends. All
    connections run concurrently over one router. The manager's actions are those
    of ConnectionManager.v; the turns of a connection are those of Transport.v,
    one frame being handled without interruption ([dispatch] has no point at which
    it would wait). The theorems hold for every interleaving. *)

From S2P Require Import Prelude.
From S2P Require Import Text.
From S2P Require Import External.
From S2P Require Import Net.
From S2P Require Import Ams.
From S2P Require Import Router.
From S2P Require Import ConnectionManager.
From S2P Require Import Transport.

Section Server.
Context `{Ext : External} `{M : Mpsc} `{SO : SemaphoreOps}.

(** A connection: what its peer sends, what of it is still to be read, what was
    written back, and why it ended. *)
Record Connection := mkConnection {
  cn_sent : bytes;
  cn_rest : bytes;
  cn_out : list bytes;
  cn_end : option ConnEnd;
}.

Definition Connection_new (sent : bytes) : Connection := mkConnection sent sent [] None.

Record Server := mkServer {
  sr_limits : System;
  sr_conns : gmap nat Connection;
  sr_router : AdsRouter;
}.

Definition Server_new (config : ConnectionConfig) (t0 : Z) (r : AdsRouter) : Server :=
  mkServer (sys_init config t0) ∅ r.

(** A turn of connection [t]; [we] is what the router draws, [accepted] whether a
    write succeeds. *)
Definition serve_turn (we : WriteEnv) (accepted : bool) (t : nat) (ip : IpAddr) (c : Connection) (s : Server)
    : outcome unit Server :=
  match tcp_turn we accepted (IpAddr_to_string ip) (cn_rest c) (sr_router s) with
  | Ok (TurnEnd e, r) =>
    Ok (mkServer (sr_limits s) (<[t := mkConnection (cn_sent c) (cn_rest c) (cn_out c) (Some e)]> (sr_conns s)) r)
  | Ok (TurnNext rest written, r) =>
    Ok (mkServer (sr_limits s) (<[t := mkConnection (cn_sent c) rest (cn_out c ++ written) None]> (sr_conns s)) r)
  | Err e => Err e
  | Panic => Panic
  | OutOfFuel => OutOfFuel
  end.

(** The permit of a connection is dropped when its handler has returned; every other
    action of the manager is free. *)
Definition may_act (ph : phase) (c : Connection) : Prop := ph = Connected -> is_Some (cn_end c).

Inductive server_step : Server -> Server -> Prop :=
| server_accept s t ip sent :
    sys_threads (sr_limits s) !! t = None -> is_bytes sent ->
    server_step s (mkServer (mkSystem (sys_mgr (sr_limits s)) (sys_clock (sr_limits s))
                              (<[t := (ip, Start)]> (sys_threads (sr_limits s))) (sys_log (sr_limits s)))
                     (<[t := Connection_new sent]> (sr_conns s)) (sr_router s))
| server_limit s t ip ph c m' ph' :
    sys_threads (sr_limits s) !! t = Some (ip, ph) -> sr_conns s !! t = Some c -> may_act ph c ->
    act (sys_clock (sr_limits s)) ip ph (sys_mgr (sr_limits s)) = (m', ph') ->
    server_step s (mkServer (mkSystem m' (sys_clock (sr_limits s)) (<[t := (ip, ph')]> (sys_threads (sr_limits s)))
                              (log_action (sys_clock (sr_limits s)) ip ph ph' (sys_log (sr_limits s))))
                     (sr_conns s) (sr_router s))
| server_serve s t ip c we accepted s' :
    sys_threads (sr_limits s) !! t = Some (ip, Connected) -> sr_conns s !! t = Some c -> cn_end c = None ->
    serve_turn we accepted t ip c s = Ok s' ->
    server_step s s'
| server_tick s d :
    0 <= d ->
    server_step s (mkServer (mkSystem (sys_mgr (sr_limits s)) (sys_clock (sr_limits s) + d)
                              (sys_threads (sr_limits s)) (sys_log (sr_limits s))) (sr_conns s) (sr_router s))
| server_shutdown s :
    server_step s (mkServer (mkSystem (shutdown (sys_mgr (sr_limits s))) (sys_clock (sr_limits s))
                              (sys_threads (sr_limits s)) (sys_log (sr_limits s))) (sr_conns s) (sr_router s)).

(** ** What a stream asks for *)

(** The frames of a stream that are to be answered, up to its end or to a header
    that is refused. Every frame takes at least six bytes. *)
Fixpoint requests_fuel (fuel : nat) (input : bytes) : list bytes :=
  match fuel with
  | O => []
  | S fuel =>
    match next_frame input with
    | Some (f, rest) => (if (length f <? 32)%nat then [] else [f]) ++ requests_fuel fuel rest
    | None => []
    end
  end.

Definition requests (input : bytes) : list bytes := requests_fuel (S (length input)) input.

Lemma requests_enough input : forall fuel, (length input < fuel)%nat -> requests_fuel fuel input = requests input.
Proof.
  unfold requests. remember (S (length input)) as n eqn:Hn. assert (Hle : (length input < n)%nat) by lia. clear Hn.
  revert n input Hle. induction n as [|n IH]; intros input Hle [|fuel] Hf; try lia. cbn [requests_fuel].
  destruct (next_frame input) as [[f rest]|] eqn:Hnf; [|done]. apply next_frame_length in Hnf.
  f_equal. rewrite (IH rest ltac:(lia) fuel ltac:(lia)). reflexivity.
Qed.

Lemma requests_step input : requests input =
  match next_frame input with
  | Some (f, rest) => (if (length f <? 32)%nat then [] else [f]) ++ requests rest
  | None => []
  end.
Proof.
  unfold requests at 1. cbn [requests_fuel]. destruct (next_frame input) as [[f rest]|] eqn:Hnf; [|done].
  apply next_frame_length in Hnf. by rewrite requests_enough by lia.
Qed.

(** [resp] is the frame that answers the request [f]. *)
Definition reply_to (f resp : bytes) : Prop :=
  exists h answer, AmsHeader_parse f = Ok h /\ answers h answer /\ resp = amstcp AMS_TCP_CMD_ADS answer.

(** ** Invariants *)

(** A connection that was not admitted has neither read nor written anything. *)
Definition before_service (ph : phase) : Prop :=
  match ph with Connected | Closing | Uncounted | Closed => False | _ => True end.

Record conn_inv (ph : phase) (c : Connection) : Prop := {
  ci_bytes : is_bytes (cn_rest c);
  ci_answers : exists served, requests (cn_sent c) = served ++ requests (cn_rest c) /\ Forall2 reply_to served (cn_out c);
  ci_end : forall e, cn_end c = Some e -> e <> WriteFailed -> requests (cn_rest c) = [];
  ci_before : before_service ph -> c = Connection_new (cn_sent c);
  ci_closed : ~ before_service ph -> ph <> Connected -> is_Some (cn_end c);
}.

Definition server_inv (s : Server) : Prop :=
  dom (sr_conns s) = dom (sys_threads (sr_limits s)) /\
  forall t ip ph c, sys_threads (sr_limits s) !! t = Some (ip, ph) -> sr_conns s !! t = Some c -> conn_inv ph c.

Lemma conn_inv_serving c :
  is_bytes (cn_rest c) ->
  (exists served, requests (cn_sent c) = served ++ requests (cn_rest c) /\ Forall2 reply_to served (cn_out c)) ->
  (forall e, cn_end c = Some e -> e <> WriteFailed -> requests (cn_rest c) = []) ->
  conn_inv Connected c.
Proof. intros Hb Ha He. split; [done..|intros []|intros _ Hne; by destruct Hne]. Qed.

(** A turn takes a connection that is served to one whose answers are still right. *)
Lemma conn_inv_turn we accepted ip c r :
  conn_inv Connected c ->
  match tcp_turn we accepted (IpAddr_to_string ip) (cn_rest c) r with
  | Ok (TurnEnd e, _) => conn_inv Connected (mkConnection (cn_sent c) (cn_rest c) (cn_out c) (Some e))
  | Ok (TurnNext rest written, _) =>
    conn_inv Connected (mkConnection (cn_sent c) rest (cn_out c ++ written) None) /\ (length rest < length (cn_rest c))%nat
  | _ => False
  end.
Proof.
  intros [Hb (served & Hs & Ha) He _ _]. pose proof (tcp_turn_spec we accepted (IpAddr_to_string ip) (cn_rest c) r Hb) as Ht.
  pose proof (requests_step (cn_rest c)) as Hreq.
  destruct (next_frame (cn_rest c)) as [[f rest]|] eqn:Hn.
  - apply next_frame_length in Hn as Hl. destruct (next_frame_bytes _ _ _ Hb Hn) as [_ Hr].
    destruct (length f <? 32)%nat.
    + rewrite Ht. split; [|lia]. apply conn_inv_serving; simpl; [done| |done].
      exists served. by rewrite app_nil_r, Hs, Hreq.
    + destruct Ht as (h & resp & r' & Hp & Hans & ->). destruct accepted.
      * split; [|lia]. apply conn_inv_serving; simpl; [done| |done].
        exists (served ++ [f]). rewrite <- app_assoc, Hs, Hreq. split; [done|].
        apply Forall2_app; [done|]. constructor; [|done]. by exists h, resp.
      * apply conn_inv_serving; simpl; [done| |naive_solver].
        by exists served.
  - destruct Ht as (e & -> & Hw). apply conn_inv_serving; simpl; [done| |].
    + by exists served.
    + done.
Qed.

(** An action of the manager keeps it, when the permit of a connection in service is
    not dropped. *)
Lemma conn_inv_act now ip ph c m m' ph' :
  conn_inv ph c -> may_act ph c -> act now ip ph m = (m', ph') -> conn_inv ph' c.
Proof.
  intros [Hb Ha He Hbef Hcl] Hm Hact. split; try done.
  - intros H'. apply Hbef. revert H'. unfold act in Hact.
    destruct ph; repeat case_match; simplify_eq; simpl; try done.
  - intros H' Hne. destruct (decide (ph = Connected)) as [->|Hnc]; [by apply Hm|].
    apply Hcl; [|done]. intros Hx. apply H'. revert Hx Hne. unfold act in Hact.
    destruct ph; repeat case_match; simplify_eq; simpl; done.
Qed.

Lemma conn_inv_new sent : is_bytes sent -> conn_inv Start (Connection_new sent).
Proof. intros Hb. split; simpl; try done. by exists []. Qed.

Lemma server_inv_step s s' : server_inv s -> server_step s s' -> server_inv s'.
Proof.
  intros [Hd Hi] Hs. inversion Hs as [? t ip sent Ht Hb|? t ip ph c m' ph' Ht Hc Hm Ha|? t ip c we acc ? Ht Hc He Hturn|
    ? d Hpos|]; subst; clear Hs; try by split.
  - split; simpl; [by rewrite !dom_insert_L, Hd|].
    intros t' ip' ph' c'. destruct (decide (t' = t)) as [->|Hne].
    + rewrite !lookup_insert_eq. intros [= <- <-] [= <-]. by apply conn_inv_new.
    + rewrite !lookup_insert_ne by done. apply Hi.
  - split; simpl. { by rewrite dom_insert_lookup_L. }
    intros t' ip' ph'' c'. destruct (decide (t' = t)) as [->|Hne].
    + rewrite lookup_insert_eq. intros [= <- <-] Hc'. simplify_eq. by eapply conn_inv_act; [eapply Hi|..].
    + rewrite lookup_insert_ne by done. apply Hi.
  - pose proof (conn_inv_turn we acc ip c (sr_router s) (Hi _ _ _ _ Ht Hc)) as Hc'. unfold serve_turn in Hturn.
    destruct (tcp_turn _ _ _ _ _) as [[[e|rest written] r']| | |]; try done; simplify_eq; split; simpl.
    all: try (by rewrite dom_insert_lookup_L).
    all: intros t' ip' ph'' c''; destruct (decide (t' = t)) as [->|Hne];
      [rewrite lookup_insert_eq; intros ? ?; simplify_eq; first [done|by destruct Hc']|rewrite lookup_insert_ne by done; apply Hi].
Qed.

Lemma server_inv_reachable config t0 r s : rtc server_step (Server_new config t0 r) s -> server_inv s.
Proof.
  intros Hr. assert (Hi : server_inv (Server_new config t0 r)) by (split; simpl; [by rewrite !dom_empty_L|done]).
  induction Hr; eauto using server_inv_step.
Qed.

(** ** The limits *)

(** Seen from the manager, a step of the server is one of its own steps or none. *)
Lemma server_step_limits s s' : server_step s s' -> rtc sys_step (sr_limits s) (sr_limits s').
Proof.
  intros Hs. inversion Hs as [? t ip sent Ht Hb|? t ip ph c m' ph' Ht Hc Hm Ha|? t ip c we acc ? Ht Hc He Hturn|? d Hpos|];
    subst; simpl.
  - apply rtc_once. by constructor.
  - apply rtc_once. by econstructor.
  - unfold serve_turn in Hturn. repeat case_match; simplify_eq; done.
  - apply rtc_once. by constructor.
  - apply rtc_once. constructor.
Qed.

Lemma server_limits config t0 r s : rtc server_step (Server_new config t0 r) s -> rtc sys_step (sys_init config t0) (sr_limits s).
Proof.
  intros Hr. change (sys_init config t0) with (sr_limits (Server_new config t0 r)).
  induction Hr as [|x y z Hs _ IH]; [done|]. etrans; [by apply server_step_limits|done].
Qed.

(** The connections that are being served. *)
Definition serving (x : IpAddr * phase) : bool := bool_decide (x.2 = Connected).
Definition serving_ip (ip : IpAddr) (x : IpAddr * phase) : bool := bool_decide (x = (ip, Connected)).

Context `{!SemaphoreLaws SO}.

Lemma serving_limits config t0 sys :
  Z.of_nat (cc_max_connections config) < 2 ^ 64 -> rtc sys_step (sys_init config t0) sys ->
  (count_threads serving (sys_threads sys) <= cc_max_connections config)%nat /\
  (forall ip, count_threads (serving_ip ip) (sys_threads sys) <= cc_max_connections_per_ip config)%nat.
Proof using SemaphoreLaws0.
  intros Hmax Hl. apply sys_inv_reachable in Hl as Hi; [|done]. split.
  - etrans; [|rewrite <- (inv_permits _ _ Hi); apply Nat.le_add_l]. apply count_le.
    intros [ip ph] Hs. apply bool_decide_eq_true in Hs. simpl in Hs. by subst.
  - intros ip. etrans; [|apply (inv_ip_max _ _ Hi ip)]. rewrite (inv_ip _ _ Hi ip). apply count_le.
    intros [ip' ph] Hs. apply bool_decide_eq_true in Hs. simplify_eq. unfold recorded. simpl. by rewrite bool_decide_true.
Qed.

(** C18: At every moment of every interleaving of connections that arrive, are admitted,
    served and closed: no more connections are served at once than the maximum,
    nor from one address than the maximum per address; what was written to a
    connection are the answers to a prefix of the requests in its own stream, one each and
    in order, and to all of them when it ended other than by a failed write; and
    a connection that was refused was neither read from nor written to. *)
Theorem server_serves config t0 r s :
  Z.of_nat (cc_max_connections config) < 2 ^ 64 ->
  rtc server_step (Server_new config t0 r) s ->
  (count_threads serving (sys_threads (sr_limits s)) <= cc_max_connections config)%nat /\
  (forall ip, count_threads (serving_ip ip) (sys_threads (sr_limits s)) <= cc_max_connections_per_ip config)%nat /\
  (forall t c, sr_conns s !! t = Some c ->
     exists served later, requests (cn_sent c) = served ++ later /\ Forall2 reply_to served (cn_out c) /\
       forall e, cn_end c = Some e -> e <> WriteFailed -> later = []) /\
  (forall t ip rej c, sys_threads (sr_limits s) !! t = Some (ip, Rejected rej) -> sr_conns s !! t = Some c ->
     cn_out c = [] /\ cn_rest c = cn_sent c).
Proof using SemaphoreLaws0.
  intros Hmax Hr. destruct (serving_limits config t0 (sr_limits s) Hmax (server_limits _ _ _ _ Hr)) as [H1 H2].
  apply server_inv_reachable in Hr as [Hd Hc]. split_and!; [done|done|..].
  - intros t c Ht. assert (Hin : t ∈ dom (sys_threads (sr_limits s))) by (rewrite <- Hd; by eapply elem_of_dom_2).
    apply elem_of_dom in Hin as [[ip ph] Hth]. destruct (Hc _ _ _ _ Hth Ht) as [_ (served & Hs & Ha) He _ _]. eauto.
  - intros t ip rej c Hth Ht. destruct (Hc _ _ _ _ Hth Ht) as [_ _ _ Hb _]. by rewrite (Hb I).
Qed.

End Server.
