(* ===== verification/ScopeResolver.v ===== *)
(** * Scope names from symbol tables (crates/tc-otel-service: scope_resolver.rs)

    A record carries the path of a function-block instance; the resolver turns
    it into the type of the block, which it finds in the PLC's symbol table.
    [ScopeLookup], a trait in the source, is the interface between the cache
    ([ScopeResolver]) and the table ([AdsScopeLookup], [NoopLookup]): the
    theorems about the cache are proved against its laws, and the lookups are
    shown to satisfy them. The network (connect, handshake, symbol upload) is
    an argument. *)

From S2P Require Import Prelude.
From S2P Require Import Text.
From S2P Require Import Ams.
From S2P Require Import Symbol.

(** ** Values *)

Inductive ScopeValue :=
| Resolved (type_name instance_path : string)
| Raw (s : string).

Record ScopeOutcome := mkOutcome {
  so_scope_name : string;
  so_instance_path : option string;
}.

Definition into_outcome (v : ScopeValue) : ScopeOutcome :=
  match v with
  | Resolved type_name instance_path => mkOutcome type_name (Some instance_path)
  | Raw s => mkOutcome s None
  end.

(** ** The interface *)

(** The errors by their cause; nothing reads their texts. *)
Inductive LookupError :=
| InvalidNetId
| ConnectFailed
| ConnectTimedOut
| HandshakeIo
| HandshakeCommand (cmd : Z)
| HandshakeShort (n : Z)
| HandshakeTimedOut
| UploadFailed (e : AdsError)
| UploadTimedOut.

(** [LookupEnv] is what the network answers during one call. *)
Class ScopeLookup := {
  LookupState : Type;
  LookupEnv : Type;
  lookup_resolve : LookupEnv -> string -> string -> Z -> LookupState ->
    LookupState * outcome LookupError (option (string * string));
  lookup_invalidate : string -> LookupState -> LookupState;
}.

(** The symbols of every PLC, by Net ID: instance path to type name. *)
Abbreviation World := (string -> gmap string string).

(** What a lookup promises: while the PLCs' symbols stay as they are, an
    answer that is not an error is the right one; and after the invalidation
    of a PLC the lookup is right again, whatever happened to that PLC. *)
Class ScopeLookupLaws (SL : ScopeLookup) := {
  lookup_inv : World -> LookupState -> Prop;
  (** The network answers from these symbols for this Net ID and port. *)
  serves : World -> LookupEnv -> string -> Z -> Prop;
  lookup_resolve_ok : forall w e net ns port l l' r,
    lookup_inv w l -> serves w e net port -> ns <> "" ->
    lookup_resolve e net ns port l = (l', r) ->
    lookup_inv w l' /\
    forall v, r = Ok v -> v = (fun t => (t, ns)) <$> (w net !! ns);
  lookup_invalidate_ok : forall w w' net l,
    lookup_inv w l -> (forall net', net' <> net -> w' net' = w net') ->
    lookup_inv w' (lookup_invalidate net l);
}.

(** ** The resolver *)

Section ScopeResolver.
Context `{SL : ScopeLookup}.

Record ScopeResolver := mkResolver {
  sr_cache : gmap (string * string) ScopeValue;
  sr_occ_seen : gmap string Z;
  sr_lookup : LookupState;
}.

Definition ScopeResolver_new (lookup : LookupState) : ScopeResolver := mkResolver ∅ ∅ lookup.

(** The answer from the cache, [None] when the lookup has to be asked. *)
Definition resolve_cached (net ns : string) (r : ScopeResolver) : option ScopeOutcome :=
  if String.eqb ns "" then Some (mkOutcome "" None)
  else into_outcome <$> sr_cache r !! (net, ns).

(** What is done with the answer of the lookup. *)
Definition resolve_finish (net ns : string) (answer : outcome LookupError (option (string * string)))
    (r : ScopeResolver) : ScopeResolver * ScopeOutcome :=
  let insert v :=
    (mkResolver (<[(net, ns) := v]> (sr_cache r)) (sr_occ_seen r) (sr_lookup r), into_outcome v) in
  match answer with
  | Ok (Some (type_name, instance_path)) => insert (Resolved type_name instance_path)
  | Ok None => insert (Raw ns)
  | _ => (r, mkOutcome ns None)
  end.

Definition set_lookup (l : LookupState) (r : ScopeResolver) : ScopeResolver :=
  mkResolver (sr_cache r) (sr_occ_seen r) l.

(** [ScopeResolver::resolve]. *)
Definition resolve (e : LookupEnv) (net ns : string) (port : Z) (r : ScopeResolver)
    : ScopeResolver * ScopeOutcome :=
  match resolve_cached net ns r with
  | Some o => (r, o)
  | None =>
    let '(l, answer) := lookup_resolve e net ns port (sr_lookup r) in
    resolve_finish net ns answer (set_lookup l r)
  end.

(** [cache.retain(|(n, _), _| n != net_id)]. *)
Definition drop_net (net : string) (c : gmap (string * string) ScopeValue) :=
  filter (fun kv => kv.1.1 <> net) c.

Definition invalidate (net : string) (r : ScopeResolver) : ScopeResolver :=
  mkResolver (drop_net net (sr_cache r)) (delete net (sr_occ_seen r))
    (lookup_invalidate net (sr_lookup r)).

(** The section of [observe_occ] under the locks, and whether the lookup has
    to be invalidated. *)
Definition observe_locked (net : string) (occ : Z) (r : ScopeResolver) : ScopeResolver * bool :=
  match sr_occ_seen r !! net with
  | Some prev =>
    if prev =? occ then (r, false)
    else (mkResolver (drop_net net (sr_cache r)) (<[net := occ]> (sr_occ_seen r)) (sr_lookup r), true)
  | None => (mkResolver (sr_cache r) (<[net := occ]> (sr_occ_seen r)) (sr_lookup r), false)
  end.

(** [ScopeResolver::observe_occ]; the fast path in front only saves the lock. *)
Definition observe_occ (net : string) (occ : Z) (r : ScopeResolver) : ScopeResolver :=
  match sr_occ_seen r !! net with
  | Some prev => if prev =? occ then r else
      let '(r, needs_invalidate) := observe_locked net occ r in
      if needs_invalidate then set_lookup (lookup_invalidate net (sr_lookup r)) r else r
  | None =>
      let '(r, needs_invalidate) := observe_locked net occ r in
      if needs_invalidate then set_lookup (lookup_invalidate net (sr_lookup r)) r else r
  end.

(** ** The cache is transparent *)

(** The scope of an instance path, from the symbols of its PLC. *)
Definition scope_of (symbols : gmap string string) (ns : string) : ScopeValue :=
  match symbols !! ns with
  | Some t => Resolved t ns
  | None => Raw ns
  end.

Lemma drop_net_lookup net c n ns :
  drop_net net c !! (n, ns) = if decide (n = net) then None else c !! (n, ns).
Proof.
  unfold drop_net. destruct (decide (n = net)) as [->|Hne].
  - apply map_lookup_filter_None. right. intros v _ H. by apply H.
  - destruct (c !! (n, ns)) eqn:Hc.
    + by apply map_lookup_filter_Some.
    + apply map_lookup_filter_None. by left.
Qed.

(** What happens to a resolver, in order: records are resolved, counters of
    PLCs are observed, and a PLC's symbols may change when (and only when) the
    resolver sees another counter than the one it knows. *)
Inductive op :=
| OResolve (e : LookupEnv) (net ns : string) (port : Z)
| OObserve (net : string) (occ : Z)
| OChange (net : string) (symbols : gmap string string) (occ : Z)
| OInvalidate (net : string).

Definition set_symbols (net : string) (symbols : gmap string string) (w : World) : World :=
  fun n => if decide (n = net) then symbols else w n.

Definition resolver_step (wr : World * ScopeResolver) (o : op) : World * ScopeResolver :=
  let '(w, r) := wr in
  match o with
  | OResolve e net ns port => (w, (resolve e net ns port r).1)
  | OObserve net occ => (w, observe_occ net occ r)
  | OChange net symbols occ => (set_symbols net symbols w, observe_occ net occ r)
  | OInvalidate net => (w, invalidate net r)
  end.

Context {LL : ScopeLookupLaws SL}.
#[local] Set Default Proof Using "All".

(** The conditions under which the operations are the ones described. *)
Definition allowed (wr : World * ScopeResolver) (o : op) : Prop :=
  let '(w, r) := wr in
  match o with
  | OResolve e net ns port => serves w e net port
  | OChange net symbols occ => exists prev, sr_occ_seen r !! net = Some prev /\ prev <> occ
  | _ => True
  end.

Fixpoint all_allowed (wr : World * ScopeResolver) (ops : list op) : Prop :=
  match ops with
  | [] => True
  | o :: ops => allowed wr o /\ all_allowed (resolver_step wr o) ops
  end.

Record resolver_inv (w : World) (r : ScopeResolver) : Prop := {
  ri_lookup : lookup_inv w (sr_lookup r);
  ri_cache : forall net ns v, sr_cache r !! (net, ns) = Some v -> v = scope_of (w net) ns;
}.

(** One call of [resolve]: the right scope, or the namespace itself when the
    lookup failed, and then nothing is cached. *)
Lemma resolve_spec w e net ns port r r' o :
  resolver_inv w r -> serves w e net port -> resolve e net ns port r = (r', o) ->
  resolver_inv w r' /\
  (ns = "" -> o = mkOutcome "" None) /\
  (ns <> "" ->
    (o = into_outcome (scope_of (w net) ns) /\ sr_cache r' !! (net, ns) = Some (scope_of (w net) ns)) \/
    (o = mkOutcome ns None /\ sr_cache r' = sr_cache r /\ sr_cache r !! (net, ns) = None)).
Proof.
  intros [Hl Hc] Hserve. unfold resolve, resolve_cached.
  destruct (String.eqb_spec ns "") as [->|Hne].
  { intros [= <- <-]. split; [by split|]. split; [done|]. by intros []. }
  destruct (sr_cache r !! (net, ns)) as [v|] eqn:Hv; simpl.
  { intros [= <- <-]. pose proof (Hc _ _ _ Hv) as ->. split; [by split|]. split; [done|]. by left. }
  destruct (lookup_resolve e net ns port (sr_lookup r)) as [l ans] eqn:Hr.
  destruct (lookup_resolve_ok w e net ns port _ _ _ Hl Hserve Hne Hr) as [Hl' Hans].
  assert (Hins : forall v, v = scope_of (w net) ns ->
    resolver_inv w (mkResolver (<[(net, ns) := v]> (sr_cache r)) (sr_occ_seen r) l)).
  { intros v ->. split; [done|]. simpl. intros net' ns' v'.
    destruct (decide ((net, ns) = (net', ns'))) as [[= <- <-]|];
      [rewrite lookup_insert_eq; by intros [= <-]|rewrite lookup_insert_ne by done; apply Hc]. }
  destruct ans as [[[t p]|]|err| |]; simpl; intros [= <- <-].
  - specialize (Hans _ eq_refl). unfold scope_of in *.
    destruct (w net !! ns); simplify_eq/=. split; [by apply Hins|]. split; [done|].
    left. by rewrite lookup_insert_eq.
  - specialize (Hans _ eq_refl). unfold scope_of in *.
    destruct (w net !! ns); simplify_eq/=. split; [by apply Hins|]. split; [done|].
    left. by rewrite lookup_insert_eq.
  - split; [by split|]. split; [done|]. by right.
  - split; [by split|]. split; [done|]. by right.
  - split; [by split|]. split; [done|]. by right.
Qed.

(** Whether the lookup has to be asked and fails. *)
Definition lookup_failed (e : LookupEnv) (net ns : string) (port : Z) (r : ScopeResolver) : bool :=
  match sr_cache r !! (net, ns) with
  | Some _ => false
  | None => negb (is_ok (lookup_resolve e net ns port (sr_lookup r)).2)
  end.

(** The namespace itself is the answer only when the lookup fails or it is no symbol. *)
Lemma resolve_exact w e net ns port r :
  resolver_inv w r -> serves w e net port -> ns <> "" ->
  (resolve e net ns port r).2 =
    if lookup_failed e net ns port r then mkOutcome ns None else into_outcome (scope_of (w net) ns).
Proof.
  intros [Hl Hc] Hserve Hne. unfold resolve, resolve_cached, lookup_failed.
  rewrite (proj2 (String.eqb_neq _ _) Hne).
  destruct (sr_cache r !! (net, ns)) as [v|] eqn:Hv; simpl; [by rewrite (Hc _ _ _ Hv)|].
  destruct (lookup_resolve e net ns port (sr_lookup r)) as [l ans] eqn:Hr.
  destruct (lookup_resolve_ok w e net ns port _ _ _ Hl Hserve Hne Hr) as [_ Hans].
  destruct ans as [[[t p]|]|err| |]; simpl; try done; specialize (Hans _ eq_refl); unfold scope_of;
    destruct (w net !! ns); by simplify_eq/=.
Qed.

(** Dropping a PLC's entries restores the invariant after a change of it. *)
Lemma drop_inv w w' net occs r :
  resolver_inv w r -> (forall n, n <> net -> w' n = w n) ->
  resolver_inv w' (mkResolver (drop_net net (sr_cache r)) occs (lookup_invalidate net (sr_lookup r))).
Proof.
  intros [Hl Hc] Hw. split; simpl; [by eapply lookup_invalidate_ok|].
  intros n ns v. rewrite drop_net_lookup. case_decide as Hn; [done|]. rewrite Hw by done. eauto.
Qed.

Lemma step_inv wr o :
  resolver_inv wr.1 wr.2 -> allowed wr o -> resolver_inv (resolver_step wr o).1 (resolver_step wr o).2.
Proof.
  destruct wr as [w r]. simpl. intros Hi Ha. destruct o as [e net ns port|net occ|net symbols occ|net].
  - simpl. destruct (resolve e net ns port r) as [r' o] eqn:Hr. by eapply resolve_spec.
  - simpl. unfold observe_occ, observe_locked. destruct (sr_occ_seen r !! net) as [prev|] eqn:Hp.
    + destruct (prev =? occ); [done|]. simpl. by eapply drop_inv.
    + destruct Hi. by split.
  - destruct Ha as (prev & Hp & Hne). simpl. unfold observe_occ, observe_locked. rewrite Hp.
    apply Z.eqb_neq in Hne as ->. simpl. eapply drop_inv; [done|].
    intros n Hn. unfold set_symbols. by rewrite decide_False.
  - simpl. by eapply drop_inv.
Qed.

Lemma steps_inv ops wr :
  resolver_inv wr.1 wr.2 -> all_allowed wr ops ->
  resolver_inv (foldl resolver_step wr ops).1 (foldl resolver_step wr ops).2.
Proof.
  revert wr. induction ops as [|o ops IH]; intros wr Hi; simpl; [done|].
  intros [Ha Hops]. apply IH; [|done]. by apply step_inv.
Qed.

(** C17: The cache is transparent. After any sequence of resolutions, observed
    counters, symbol changes (each seen as a new OnlineChangeCnt) and
    invalidations, a resolution returns the scope that the PLC's current
    symbols give the path (type and instance path, or the path itself when it
    is no symbol), or, when the lookup fails, the path itself, and then
    nothing is cached. *)
Theorem resolver_refines_symbols w0 l0 ops e net ns port r' o :
  lookup_inv w0 l0 -> all_allowed (w0, ScopeResolver_new l0) ops ->
  let '(w, r) := foldl resolver_step (w0, ScopeResolver_new l0) ops in
  serves w e net port -> ns <> "" -> resolve e net ns port r = (r', o) ->
  o = into_outcome (scope_of (w net) ns) \/
  (o = mkOutcome ns None /\ sr_cache r' = sr_cache r /\ sr_cache r !! (net, ns) = None).
Proof.
  intros Hl Hops.
  pose proof (steps_inv ops (w0, ScopeResolver_new l0)) as Hinv.
  destruct (foldl resolver_step (w0, ScopeResolver_new l0) ops) as [w r].
  intros Hserve Hne Hr. simpl in Hinv.
  destruct (resolve_spec w e net ns port r r' o) as (_ & _ & Hres); [|done..|].
  { apply Hinv; [|done]. split; [done|]. simpl. intros n s v. by rewrite lookup_empty. }
  destruct (Hres Hne) as [[-> _]|H]; [by left|by right].
Qed.

End ScopeResolver.

(** ** A lookup that always misses *)

Definition NoopLookup : ScopeLookup := {|
  LookupState := unit;
  LookupEnv := unit;
  lookup_resolve := fun _ _ _ _ l => (l, Ok None);
  lookup_invalidate := fun _ l => l;
|}.

(** It is right for PLCs without symbols. *)
#[export, refine] Instance NoopLookup_laws : ScopeLookupLaws NoopLookup := {|
  lookup_inv := fun w _ => True;
  serves := fun w _ net _ => w net = ∅;
|}.
Proof.
  - intros w e net ns port l l' r _ Hw _ [= <- <-]. split; [done|]. intros v [= <-].
    by rewrite Hw, lookup_empty.
  - done.
Defined.

(** ** The lookup in downloaded symbol tables *)

Record AdsScopeLookup := mkAdsLookup {
  al_addr : string;
  al_source_net_id : AmsNetId;
  al_source_port : Z;
  al_tables : gmap string (gmap string string);
}.

Definition AdsScopeLookup_new (addr : string) (net : AmsNetId) (port : Z) : AdsScopeLookup :=
  mkAdsLookup addr net port ∅.

Definition AMS_TCP_CMD_PORT_CONNECT : Z := 4096.

(** What [port_connect] writes to the router. *)
Definition port_connect_request (register_port : Z) : bytes :=
  le_encode 2 AMS_TCP_CMD_PORT_CONNECT ++ le_encode 4 2 ++ le_encode 2 register_port.

(** What it makes of the bytes that come back until the router closes. *)
Definition port_connect (reply : bytes) : outcome LookupError (AmsNetId * Z) :=
  if (length reply <? 6)%nat then Err HandshakeIo
  else
    (cmd <-- le_or_panic reply 0 2 ;;
     n <-- le_or_panic reply 2 6 ;;
     if negb (cmd =? AMS_TCP_CMD_PORT_CONNECT) then Err (HandshakeCommand cmd)
     else if n <? 8 then Err (HandshakeShort n)
     else if len reply <? 6 + n then Err HandshakeIo
     else
       body <-- slice_or_panic reply 6 (6 + Z.to_nat n) ;;
       net <-- slice_or_panic body 0 6 ;;
       assigned <-- le_or_panic body 6 8 ;;
       Ok (mkNetId net, assigned))%rust.

(** [tokio::time::timeout(..)] around a result. *)
Inductive timed (A : Type) := InTime (a : A) | TimedOut.
Arguments InTime {A}.
Arguments TimedOut {A}.

(** The network during one download: the connection to the router, its reply
    to the handshake, and the result of [read_symbol_table] with the given
    source and target. *)
Record AdsEnv := mkAdsEnv {
  ae_connect : timed bool;
  ae_reply : timed (option bytes);
  ae_symbols : AmsNetId -> Z -> AmsNetId -> Z -> timed (outcome AdsError (list AdsSymbolEntry));
}.

(** [symbols.into_iter().map(|s| (s.name, s.type_name)).collect()]. *)
Definition table_of (symbols : list AdsSymbolEntry) : gmap string string :=
  foldl (fun m s => <[se_name s := se_type_name s]> m) ∅ symbols.

(** The part of [table_for] on the network. *)
Definition download (e : AdsEnv) (net : string) (port : Z) : outcome LookupError (gmap string string) :=
  match AmsNetId_from_str_ref net with
  | Err _ => Err InvalidNetId
  | Panic => Panic
  | OutOfFuel => OutOfFuel
  | Ok target =>
    match ae_connect e with
    | TimedOut => Err ConnectTimedOut
    | InTime false => Err ConnectFailed
    | InTime true =>
      match ae_reply e with
      | TimedOut => Err HandshakeTimedOut
      | InTime None => Err HandshakeIo
      | InTime (Some reply) =>
        (assigned <-- port_connect reply ;;
         match ae_symbols e assigned.1 assigned.2 target port with
         | TimedOut => Err UploadTimedOut
         | InTime (Ok symbols) => Ok (table_of symbols)
         | InTime (Err err) => Err (UploadFailed err)
         | InTime Panic => Panic
         | InTime OutOfFuel => OutOfFuel
         end)%rust
      end
    end
  end.

(** [tables.entry(net_id).or_insert(table)], and the table that stays. *)
Definition store_table (net : string) (t : gmap string string) (l : AdsScopeLookup)
    : AdsScopeLookup * gmap string string :=
  match al_tables l !! net with
  | Some t => (l, t)
  | None =>
    (mkAdsLookup (al_addr l) (al_source_net_id l) (al_source_port l) (<[net := t]> (al_tables l)), t)
  end.

(** [AdsScopeLookup::table_for]. *)
Definition table_for (e : AdsEnv) (net : string) (port : Z) (l : AdsScopeLookup)
    : AdsScopeLookup * outcome LookupError (gmap string string) :=
  match al_tables l !! net with
  | Some t => (l, Ok t)
  | None =>
    match download e net port with
    | Ok t => let '(l, t) := store_table net t l in (l, Ok t)
    | Err err => (l, Err err)
    | Panic => (l, Panic)
    | OutOfFuel => (l, OutOfFuel)
    end
  end.

Definition lookup_in_table (t : gmap string string) (ns : string) : option (string * string) :=
  (fun ty => (ty, ns)) <$> t !! ns.

(** [impl ScopeLookup for AdsScopeLookup]. *)
Definition AdsScopeLookup_resolve (e : AdsEnv) (net ns : string) (port : Z) (l : AdsScopeLookup)
    : AdsScopeLookup * outcome LookupError (option (string * string)) :=
  if String.eqb ns "" then (l, Ok None)
  else
    let '(l, t) := table_for e net port l in
    (l, (t <-- t ;; Ok (lookup_in_table t ns))%rust).

Definition AdsScopeLookup_invalidate (net : string) (l : AdsScopeLookup) : AdsScopeLookup :=
  mkAdsLookup (al_addr l) (al_source_net_id l) (al_source_port l) (delete net (al_tables l)).

Definition AdsLookup : ScopeLookup := {|
  LookupState := AdsScopeLookup;
  LookupEnv := AdsEnv;
  lookup_resolve := AdsScopeLookup_resolve;
  lookup_invalidate := AdsScopeLookup_invalidate;
|}.

(** ** The downloaded tables keep the promise

    for PLCs with one runtime each: [port_of] is its port. *)

Section OneRuntime.
Variable port_of : string -> Z.

(** Whatever source address the router assigns, the PLC uploads its symbols. *)
Definition uploads (w : World) (e : AdsEnv) (net : string) (port : Z) : Prop :=
  port = port_of net /\
  forall src sport target symbols, AmsNetId_from_str_ref net = Ok target ->
    ae_symbols e src sport target port = InTime (Ok symbols) -> table_of symbols = w net.

Lemma download_uploads w e net port t :
  uploads w e net port -> download e net port = Ok t -> t = w net.
Proof.
  intros [_ Hup]. unfold download.
  destruct (AmsNetId_from_str_ref net) as [target| | |] eqn:Hn; try done.
  destruct (ae_connect e) as [[]|]; try done. destruct (ae_reply e) as [[reply|]|]; try done.
  destruct (port_connect reply) as [[src sport]| | |]; try done. cbn [outcome_bind fst snd].
  destruct (ae_symbols e src sport target port) as [[symbols| | |]|] eqn:Hs; try done.
  intros [= <-]. by eapply Hup.
Qed.

Definition tables_right (w : World) (l : AdsScopeLookup) : Prop :=
  forall net t, al_tables l !! net = Some t -> t = w net.

#[refine] Instance AdsLookup_laws : ScopeLookupLaws AdsLookup :=
  Build_ScopeLookupLaws AdsLookup tables_right uploads _ _.
Proof using port_of.
  - intros w e net ns port l l' r Hl Hserve Hne. simpl. unfold AdsScopeLookup_resolve, table_for.
    destruct (String.eqb_spec ns "") as [|_]; [done|]. simpl in l, l'.
    destruct (al_tables l !! net) as [t|] eqn:Ht.
    { intros [= <- <-]. split; [done|]. intros v [= <-]. by rewrite <- (Hl _ _ Ht). }
    destruct (download e net port) as [t| | |] eqn:Hd.
    2-4: intros [= <- <-]; by split.
    apply (download_uploads w) in Hd as ->; [|done]. unfold store_table. rewrite Ht.
    intros [= <- <-]. split; [|by intros v [= <-]]. intros n t'. simpl.
    destruct (decide (net = n)) as [<-|Hn];
      [rewrite lookup_insert_eq; by intros [= <-]|rewrite lookup_insert_ne by done; apply Hl].
  - intros w w' net l Hl Hw n t. simpl. rewrite lookup_delete_Some. intros [Hn Ht].
    rewrite Hw by done. by apply Hl.
Defined.

End OneRuntime.

(** Runtimes are mixed up. The tables are kept by Net ID alone: once the
    symbols of one runtime of a PLC have been downloaded, every later path
    from that PLC is looked up in them, whatever runtime port its record
    names, and whatever that runtime's symbols are. *)
Theorem second_runtime_uses_first_table e net ns port l t :
  ns <> "" -> al_tables l !! net = None -> download e net port = Ok t ->
  let l1 := (AdsScopeLookup_resolve e net ns port l).1 in
  forall e' ns' port', ns' <> "" ->
    AdsScopeLookup_resolve e' net ns' port' l1 = (l1, Ok (lookup_in_table t ns')).
Proof.
  intros Hns Hl Hd l1 e' ns' port' Hns'.
  assert (Ht : al_tables l1 !! net = Some t).
  { unfold l1, AdsScopeLookup_resolve, table_for, store_table. apply String.eqb_neq in Hns as ->.
    rewrite Hl, Hd. simpl. apply lookup_insert_eq. }
  unfold AdsScopeLookup_resolve, table_for. apply String.eqb_neq in Hns' as ->. by rewrite Ht.
Qed.

(** A change that falls between the lookup and the cache is lost. If a new
    OnlineChangeCnt is observed while a resolution that missed the cache waits
    for its lookup, the resolution afterwards caches the answer from the old
    symbols, and every later resolution of that path returns it, whatever the
    new symbols are, until the counter changes again. *)
Theorem inflight_answer_outlives_change `{SL : ScopeLookup} net ns occ r t l :
  ns <> "" ->
  let r1 := observe_occ net occ (set_lookup l r) in
  let r2 := (resolve_finish net ns (Ok (Some (t, ns))) r1).1 in
  forall e port, resolve e net ns port r2 = (r2, mkOutcome t (Some ns)).
Proof.
  intros Hns r1 r2 e port. unfold resolve, resolve_cached.
  apply String.eqb_neq in Hns as ->. unfold r2. simpl. by rewrite lookup_insert_eq.
Qed.
