(* ===== verification/Browse.v ===== *)
(** * Browsing a PLC's symbols (crates/tc-otel-client: browse.rs, cache.rs)

    The client crate has its own reader of the symbol upload, which builds a
    tree with an index by name and never reads past an entry, the two ADS
    reads that fetch it through the dispatcher, and a cache of trees per PLC.
    The theorems: the reader is safe on every buffer and its index is right;
    it reads the same entries as the reader of symbol.rs ([Symbol]) from a
    table that symbol.rs has written; fetched through the dispatcher, the tree
    is the PLC's table. *)

From S2P Require Import Prelude.
From S2P Require Import Text.
From S2P Require Import External.
From S2P Require Import Ams.
From S2P Require Import Symbol.
From S2P Require Import AmsDispatcher.

Definition ADSIGRP_SYM_UPLOADINFO2 : Z := 61455.
Definition ADSIGRP_SYM_UPLOAD : Z := 61451.
Definition ADSIGRP_SYM_DT_UPLOAD : Z := 61454.

(** [ClientError]; [AdsFrom e] stands for [Ads(e.to_string())]. *)
Inductive ClientError :=
| AdsText (msg : string)
| AdsFrom (e : DispatcherError)
| SymbolNotFound (name : string)
| Decode (msg : string)
| UnknownTarget (name : string)
| Io (msg : string).

Record UploadInfo := mkInfo {
  ui_symbol_count : Z;
  ui_symbol_length : Z;
  ui_datatype_count : Z;
  ui_datatype_length : Z;
  ui_extra_count : Z;
  ui_extra_length : Z;
}.

Definition UploadInfo_BYTE_LEN : nat := 24.

Record EntryHeader := mkEntryHeader {
  eh_entry_length : Z;
  eh_igroup : Z;
  eh_ioffset : Z;
  eh_size : Z;
  eh_datatype : Z;
  eh_flags : Z;
  eh_name_length : Z;
  eh_type_length : Z;
  eh_comment_length : Z;
}.

Definition EntryHeader_BYTE_LEN : nat := 30.

Record SymbolNode := mkNode {
  sn_name : string;
  sn_type_name : string;
  sn_comment : string;
  sn_igroup : Z;
  sn_ioffset : Z;
  sn_size : Z;
  sn_datatype : Z;
  sn_flags : Z;
}.

Record SymbolTree := mkTree {
  st_nodes : list SymbolNode;
  st_index_by_name : gmap string nat;
}.

Definition SymbolTree_len (t : SymbolTree) : nat := length (st_nodes t).

Definition SymbolTree_is_empty (t : SymbolTree) : bool :=
  match st_nodes t with [] => true | _ => false end.

Definition SymbolTree_get (name : string) (t : SymbolTree) : option SymbolNode :=
  match st_index_by_name t !! name with
  | Some i => st_nodes t !! i
  | None => None
  end.

(** [iter_prefix], collected. *)
Definition iter_prefix (prefix : string) (t : SymbolTree) : list SymbolNode :=
  let needle := to_ascii_lowercase prefix in
  List.filter (fun n => match strip_prefix needle (to_ascii_lowercase (sn_name n)) with
                        | Some _ => true
                        | None => false
                        end) (st_nodes t).

(** ** Parsing *)

Definition browse_read_u16 (data : bytes) (off : nat) : outcome ClientError Z := le_or_panic data off (off + 2).
Definition browse_read_u32 (data : bytes) (off : nat) : outcome ClientError Z := le_or_panic data off (off + 4).

Definition read_ascii (data : bytes) : outcome ClientError string :=
  match from_utf8 data with
  | Some s => Ok s
  | None => Err (Decode ("non-utf8 in symbol string: " +:+ utf8_error data))
  end.

Definition parse_upload_info (data : bytes) : outcome ClientError UploadInfo :=
  if (length data <? UploadInfo_BYTE_LEN)%nat then
    Err (Decode ("upload_info: need " +:+ dec_nat UploadInfo_BYTE_LEN +:+ " bytes, got " +:+
                 dec_nat (length data)))
  else
    (symbol_count <-- browse_read_u32 data 0 ;;
     symbol_length <-- browse_read_u32 data 4 ;;
     datatype_count <-- browse_read_u32 data 8 ;;
     datatype_length <-- browse_read_u32 data 12 ;;
     extra_count <-- browse_read_u32 data 16 ;;
     extra_length <-- browse_read_u32 data 20 ;;
     Ok (mkInfo symbol_count symbol_length datatype_count datatype_length extra_count
           extra_length))%rust.

Definition parse_entry_header (data : bytes) : outcome ClientError EntryHeader :=
  if (length data <? EntryHeader_BYTE_LEN)%nat then
    Err (Decode ("entry header: need " +:+ dec_nat EntryHeader_BYTE_LEN +:+ " bytes, got " +:+
                 dec_nat (length data)))
  else
    (entry_length <-- browse_read_u32 data 0 ;;
     igroup <-- browse_read_u32 data 4 ;;
     ioffset <-- browse_read_u32 data 8 ;;
     size <-- browse_read_u32 data 12 ;;
     datatype <-- browse_read_u32 data 16 ;;
     flags <-- browse_read_u32 data 20 ;;
     name_length <-- browse_read_u16 data 24 ;;
     type_length <-- browse_read_u16 data 26 ;;
     comment_length <-- browse_read_u16 data 28 ;;
     Ok (mkEntryHeader entry_length igroup ioffset size datatype flags name_length type_length
           comment_length))%rust.

(** One turn of the loop: the node at the cursor and the cursor behind it.
    [checked_add] cannot overflow. *)
Definition parse_node (data : bytes) (limit cursor : nat) : outcome ClientError (SymbolNode * nat) :=
  (tail <-- slice_or_panic data cursor (length data) ;;
   hdr <-- parse_entry_header tail ;;
   let entry_end := (cursor + Z.to_nat (eh_entry_length hdr))%nat in
   if (limit <? entry_end)%nat then
     Err (Decode ("entry at " +:+ dec_nat cursor +:+ " overruns buffer (ends at " +:+
                  dec_nat entry_end +:+ ", limit " +:+ dec_nat limit +:+ ")"))
   else
     let strings_start := (cursor + EntryHeader_BYTE_LEN)%nat in
     let name_end := (strings_start + Z.to_nat (eh_name_length hdr))%nat in
     let type_end := (name_end + 1 + Z.to_nat (eh_type_length hdr))%nat in
     let comment_end := (type_end + 1 + Z.to_nat (eh_comment_length hdr))%nat in
     if (entry_end <? comment_end)%nat then
       Err (Decode ("strings overrun entry at cursor " +:+ dec_nat cursor))
     else
       name_bytes <-- slice_or_panic data strings_start name_end ;;
       name <-- read_ascii name_bytes ;;
       type_bytes <-- slice_or_panic data (name_end + 1) type_end ;;
       type_name <-- read_ascii type_bytes ;;
       comment_bytes <-- slice_or_panic data (type_end + 1) comment_end ;;
       comment <-- read_ascii comment_bytes ;;
       Ok (mkNode name type_name comment (eh_igroup hdr) (eh_ioffset hdr) (eh_size hdr)
             (eh_datatype hdr) (eh_flags hdr), entry_end))%rust.

(** [index_by_name.insert(name, nodes.len()); nodes.push(node)]. *)
Definition push_node (n : SymbolNode) (t : SymbolTree) : SymbolTree :=
  mkTree (st_nodes t ++ [n]) (<[sn_name n := length (st_nodes t)]> (st_index_by_name t)).

Fixpoint upload_loop (fuel : nat) (data : bytes) (limit count cursor : nat) (t : SymbolTree)
    : outcome ClientError SymbolTree :=
  match fuel with
  | O => OutOfFuel
  | S fuel =>
    if (cursor + EntryHeader_BYTE_LEN <=? limit)%nat && (length (st_nodes t) <? count)%nat then
      (r <-- parse_node data limit cursor ;;
       upload_loop fuel data limit count r.2 (push_node r.1 t))%rust
    else Ok t
  end.

(** [parse_upload]. *)
Definition parse_upload (data : bytes) (info : UploadInfo) : outcome ClientError SymbolTree :=
  let expected_bytes := Z.to_nat (ui_symbol_length info) in
  if (length data <? expected_bytes)%nat then
    Err (Decode ("symbol upload: info says " +:+ dec_nat expected_bytes +:+ " bytes, buffer has " +:+
                 dec_nat (length data)))
  else
    let limit := Nat.max expected_bytes (length data) in
    upload_loop (S (length data)) data limit (Z.to_nat (ui_symbol_count info)) 0 (mkTree [] ∅).

(** ** Fetching through the dispatcher *)

(** What [send_request] returned for a request. *)
Definition Sent : Type := Request -> outcome DispatcherError bytes.

(** [ads_read]. *)
Definition ads_read (send : Sent) (net : AmsNetId) (port index_group index_offset length_ timeout : Z)
    : outcome ClientError bytes :=
  let req := le_encode 4 index_group ++ le_encode 4 index_offset ++ le_encode 4 length_ in
  match send (mkRequest net port ADS_CMD_READ req timeout) with
  | Err e => Err (AdsFrom e)
  | Panic => Panic
  | OutOfFuel => OutOfFuel
  | Ok raw =>
    if (length raw <? 8)%nat then
      Err (Decode ("ADS read response too short: " +:+ dec_nat (length raw) +:+ " bytes"))
    else
      (result_code <-- le_or_panic raw 0 4 ;;
       if negb (result_code =? 0) then
         Err (AdsText ("ADS read ig=0x" +:+ lower_hex index_group +:+ " returned error 0x" +:+
                       lower_hex result_code))
       else
         declared <-- le_or_panic raw 4 8 ;;
         data <-- slice_or_panic raw 8 (length raw) ;;
         if len data <? declared then
           Err (Decode ("ADS read payload truncated: declared " +:+ dec declared +:+ " bytes, got " +:+
                        dec_nat (length data)))
         else slice_or_panic data 0 (Z.to_nat declared))%rust
  end.

(** [upload_via_dispatcher]. *)
Definition upload_via_dispatcher (send : Sent) (net : AmsNetId) (port timeout : Z)
    : outcome ClientError SymbolTree :=
  (info_bytes <-- ads_read send net port ADSIGRP_SYM_UPLOADINFO2 0
                    (Z.of_nat UploadInfo_BYTE_LEN) timeout ;;
   info <-- parse_upload_info info_bytes ;;
   upload_bytes <-- ads_read send net port ADSIGRP_SYM_UPLOAD 0 (ui_symbol_length info) timeout ;;
   parse_upload upload_bytes info)%rust.

(** ** The cache (cache.rs) *)

Section Cache.
Context `{EX : External}.

Record CacheEntry := mkCacheEntry { ce_tree : SymbolTree; ce_fetched_at : DateTime }.

Abbreviation SymbolTreeCache := (gmap AmsNetId CacheEntry).

Definition cache_get (target : AmsNetId) (c : SymbolTreeCache) : option SymbolTree :=
  ce_tree <$> c !! target.
Definition cache_fetched_at (target : AmsNetId) (c : SymbolTreeCache) : option DateTime :=
  ce_fetched_at <$> c !! target.
Definition cache_insert_with_time (target : AmsNetId) (t : SymbolTree) (at_ : DateTime)
    (c : SymbolTreeCache) : SymbolTreeCache := <[target := mkCacheEntry t at_]> c.
Definition cache_invalidate (target : AmsNetId) (c : SymbolTreeCache) : SymbolTreeCache :=
  delete target c.
Definition cache_invalidate_all (c : SymbolTreeCache) : SymbolTreeCache := ∅.
Definition cache_len (c : SymbolTreeCache) : nat := size c.
Definition cache_is_empty (c : SymbolTreeCache) : bool := (size c =? 0)%nat.
Definition cache_targets (c : SymbolTreeCache) : list AmsNetId := (map_to_list c).*1.

End Cache.

(** ** Safety *)

(** The run was ordinary and its value satisfies [P]. *)
Definition upload_ok {A} (P : A -> Prop) (m : outcome ClientError A) : Prop :=
  match m with Ok a => P a | Err _ => True | Panic | OutOfFuel => False end.

Lemma upload_ok_bind {A B} (P : A -> Prop) (Q : B -> Prop) m (f : A -> outcome ClientError B) :
  upload_ok P m -> (forall a, P a -> upload_ok Q (f a)) -> upload_ok Q (outcome_bind m f).
Proof. destruct m; simpl; auto; done. Qed.

Lemma upload_ok_le data a b :
  (a <= b)%nat -> (b <= length data)%nat -> upload_ok (fun _ => True) (le_or_panic data a b).
Proof. intros. by rewrite le_or_panic_spec. Qed.

Lemma upload_ok_slice data a b :
  (a <= b)%nat -> (b <= length data)%nat -> upload_ok (fun _ => True) (slice_or_panic data a b).
Proof. intros. by rewrite slice_or_panic_spec. Qed.

Lemma upload_ok_ascii data : upload_ok (fun _ => True) (read_ascii data).
Proof. unfold read_ascii. by case_match. Qed.

Lemma parse_entry_header_ok data : upload_ok (fun _ => True) (parse_entry_header data).
Proof.
  unfold parse_entry_header, browse_read_u32, browse_read_u16, EntryHeader_BYTE_LEN.
  destruct (Nat.ltb_spec (length data) 30); [done|].
  repeat (eapply upload_ok_bind; [apply upload_ok_le; lia|intros ? _]). done.
Qed.

(** A node takes at least the header and two terminators, and ends within
    the limit. *)
Lemma parse_node_ok data limit cursor :
  (limit <= length data)%nat -> (cursor + 30 <= limit)%nat ->
  upload_ok (fun r => (cursor + 32 <= r.2 <= limit)%nat) (parse_node data limit cursor).
Proof.
  intros Hlim Hc. unfold parse_node, EntryHeader_BYTE_LEN.
  eapply upload_ok_bind; [apply upload_ok_slice; lia|]. intros tail _.
  eapply upload_ok_bind; [apply parse_entry_header_ok|]. intros hdr _. cbv zeta.
  destruct (Nat.ltb_spec limit (cursor + Z.to_nat (eh_entry_length hdr))); [done|].
  match goal with |- upload_ok _ (if ?c then _ else _) => destruct c eqn:Hs end; [done|].
  apply Nat.ltb_ge in Hs.
  do 3 (eapply upload_ok_bind; [apply upload_ok_slice; lia|intros ? _];
        eapply upload_ok_bind; [apply upload_ok_ascii|intros ? _]).
  simpl. lia.
Qed.

(** The index leads every name to the last node that has it, and nothing
    else is in it. *)
Definition wf_tree (t : SymbolTree) : Prop :=
  forall name i, st_index_by_name t !! name = Some i <->
    exists n, st_nodes t !! i = Some n /\ sn_name n = name /\
      forall j m, st_nodes t !! j = Some m -> sn_name m = name -> (j <= i)%nat.

Lemma push_node_wf n t : wf_tree t -> wf_tree (push_node n t).
Proof.
  unfold wf_tree. intros Hwf name i. unfold push_node. simpl.
  destruct (decide (sn_name n = name)) as [<-|Hne].
  - rewrite lookup_insert_eq. split.
    + intros [= <-]. exists n. rewrite lookup_app_r, Nat.sub_diag by lia. split_and!; [done..|].
      intros j m Hj _. apply lookup_lt_Some in Hj. rewrite length_app in Hj. simpl in Hj. lia.
    + intros (m & Hi & _ & Hlast). f_equal.
      apply lookup_lt_Some in Hi. rewrite length_app in Hi. simpl in Hi.
      specialize (Hlast (length (st_nodes t)) n).
      rewrite lookup_app_r, Nat.sub_diag in Hlast by lia. specialize (Hlast eq_refl eq_refl). lia.
  - rewrite lookup_insert_ne by done. rewrite Hwf. split.
    + intros (m & Hi & Hm & Hlast). exists m.
      rewrite lookup_app_l by (by eapply lookup_lt_Some). split_and!; [done..|].
      intros j k Hj Hk. apply lookup_snoc_Some in Hj as [[_ Hj]|[_ <-]]; [by eapply Hlast|done].
    + intros (m & Hi & Hm & Hlast). apply lookup_snoc_Some in Hi as [[Hlt Hi]|[_ <-]]; [|done].
      exists m. split_and!; [done..|]. intros j k Hj. apply Hlast.
      rewrite lookup_app_l; [done|by eapply lookup_lt_Some].
Qed.

Lemma upload_loop_ok fuel data limit count cursor t :
  (limit <= length data)%nat -> (limit < fuel + cursor)%nat -> (cursor <= limit)%nat ->
  wf_tree t -> (32 * length (st_nodes t) <= cursor)%nat -> (length (st_nodes t) <= count)%nat ->
  upload_ok (fun t' => wf_tree t' /\ (32 * length (st_nodes t') <= limit)%nat /\
                       (length (st_nodes t') <= count)%nat)
    (upload_loop fuel data limit count cursor t).
Proof.
  intros Hlim. revert cursor t. induction fuel as [|fuel IH]; intros cursor t Hf Hcl Hwf Hn Hcnt;
    [lia|]. cbn [upload_loop]. unfold EntryHeader_BYTE_LEN.
  destruct (Nat.leb_spec (cursor + 30) limit) as [Hle|]; [|simpl; split_and!; [done|lia|lia]].
  destruct (Nat.ltb_spec (length (st_nodes t)) count) as [Hlt|]; [|simpl; split_and!; [done|lia|lia]].
  cbn [andb]. eapply upload_ok_bind; [by apply parse_node_ok|]. intros [n c] Hr. simpl in Hr.
  cbn [fst snd]. apply IH; [lia|lia|by apply push_node_wf|..]; simpl; rewrite length_app; simpl; lia.
Qed.

(** A name that occurs has a last occurrence. *)
Lemma last_named (l : list SymbolNode) name :
  Exists (fun n => sn_name n = name) l ->
  exists i n, l !! i = Some n /\ sn_name n = name /\
    forall j m, l !! j = Some m -> sn_name m = name -> (j <= i)%nat.
Proof.
  induction l as [|x l IH] using rev_ind; intros Hex; [by apply Exists_nil in Hex|].
  destruct (decide (sn_name x = name)) as [Hx|Hx].
  - exists (length l), x. rewrite lookup_app_r, Nat.sub_diag by lia. split_and!; [done..|].
    intros j m Hj _. apply lookup_lt_Some in Hj. rewrite length_app in Hj. simpl in Hj. lia.
  - apply Exists_app in Hex as [Hex|Hex]; [|by apply Exists_cons in Hex as [?|?%Exists_nil]].
    destruct (IH Hex) as (i & n & Hi & Hn & Hlast). exists i, n.
    rewrite lookup_app_l by (by eapply lookup_lt_Some). split_and!; [done..|].
    intros j m Hj Hm. apply lookup_snoc_Some in Hj as [[_ Hj]|[_ <-]]; [by eapply Hlast|done].
Qed.

Lemma get_wf name t :
  wf_tree t ->
  match SymbolTree_get name t with
  | Some n => n ∈ st_nodes t /\ sn_name n = name
  | None => Forall (fun n => sn_name n <> name) (st_nodes t)
  end.
Proof.
  unfold wf_tree. intros Hwf. unfold SymbolTree_get.
  destruct (st_index_by_name t !! name) as [i|] eqn:Hi.
  - apply Hwf in Hi as (n & Hi & Hn & _). rewrite Hi. split; [by eapply list_elem_of_lookup_2|done].
  - destruct (decide (Exists (fun n => sn_name n = name) (st_nodes t))) as [Hex|Hno].
    + apply last_named in Hex as (i & n & Hl). rewrite (proj2 (Hwf name i)) in Hi; [done|by exists n].
    + apply Forall_forall. intros n Hin Hn. apply Hno, Exists_exists. eauto.
Qed.

(** C39: Reading an uploaded symbol table ends without a panic on every byte
    string and every announced count and length. What it accepts is
    well-formed: the index leads each name to the last node of that name and
    holds no other name, so [get] finds a node exactly when there is one; there
    are at most as many nodes as announced, and at least 32 bytes were read for
    each. *)
Theorem parse_upload_wf data info :
  match parse_upload data info with
  | Ok t => wf_tree t /\ (32 * length (st_nodes t) <= length data)%nat /\
      (length (st_nodes t) <= Z.to_nat (ui_symbol_count info))%nat /\
      forall name, match SymbolTree_get name t with
        | Some n => n ∈ st_nodes t /\ sn_name n = name
        | None => Forall (fun n => sn_name n <> name) (st_nodes t)
        end
  | Err _ => True
  | Panic | OutOfFuel => False
  end.
Proof.
  unfold parse_upload. destruct (Nat.ltb_spec (length data) (Z.to_nat (ui_symbol_length info)));
    [done|]. rewrite Nat.max_r by lia.
  pose proof (upload_loop_ok (S (length data)) data (length data) (Z.to_nat (ui_symbol_count info)) 0
    (mkTree [] ∅)) as Hl.
  assert (Hwf0 : wf_tree (mkTree [] ∅)).
  { intros name i. simpl. rewrite lookup_empty. split; [done|]. by intros (n & ? & _). }
  destruct (upload_loop _ _ _ _ _ _) as [t| | |]; simpl in Hl |- *;
    [|done|apply Hl; by first [done|lia]..].
  destruct Hl as (Hwf & Hb & Hc); [first [done|lia]..|]. split_and!; [done|lia|lia|].
  intros name. by apply get_wf.
Qed.

(** ** It reads what symbol.rs writes *)

(** An entry of symbol.rs as a node. *)
Definition node_of (e : AdsSymbolEntry) : SymbolNode :=
  mkNode (se_name e) (se_type_name e) (se_comment e) (se_index_group e) (se_index_offset e)
    (se_size e) (se_data_type e) (se_flags e).

(** Field [i] of an entry, an integer of [n] bytes at [off]. *)
Ltac entry_field rest e i off n :=
  let Hf := fresh in
  epose proof (le_field (E:=ClientError) [] rest (symbol_fields e) i off n _ eq_refl) as Hf;
  rewrite app_nil_l in Hf; rewrite Hf; [cbn [outcome_bind]; clear Hf|assumption|reflexivity].

(** The three string lengths of an entry. *)
Definition strings_length (e : AdsSymbolEntry) : nat :=
  (length (bytes_of_string (se_name e)) + length (bytes_of_string (se_type_name e)) +
   length (bytes_of_string (se_comment e)))%nat.

Lemma length_serialize e : length (AdsSymbolEntry_serialize e) = (33 + strings_length e)%nat.
Proof. rewrite length_symbol. unfold strings_length. lia. Qed.

Lemma parse_entry_header_serialize e rest :
  wf_symbol e ->
  parse_entry_header (AdsSymbolEntry_serialize e ++ rest) =
  Ok (mkEntryHeader (Z.of_nat (length (AdsSymbolEntry_serialize e))) (se_index_group e)
        (se_index_offset e) (se_size e) (se_data_type e) (se_flags e)
        (len (bytes_of_string (se_name e))) (len (bytes_of_string (se_type_name e)))
        (len (bytes_of_string (se_comment e)))).
Proof.
  intros [Hg Ho Hsz Ht Hf _ Ln Lt Lc]. pose proof (length_symbol e) as Hlen.
  unfold parse_entry_header, EntryHeader_BYTE_LEN, browse_read_u32, browse_read_u16.
  rewrite (proj2 (Nat.ltb_ge _ _)) by (rewrite length_app; lia).
  assert (He : in_width 32 (Z.of_nat (SYMBOL_ENTRY_HEADER_SIZE + (length (bytes_of_string (se_name e)) + 1) +
    (length (bytes_of_string (se_type_name e)) + 1) + (length (bytes_of_string (se_comment e)) + 1)))).
  { unfold in_width, SYMBOL_ENTRY_HEADER_SIZE, len in *. lia. }
  rewrite Hlen. change (AdsSymbolEntry_serialize e) with (mjoin (symbol_fields e)).
  entry_field rest e 0%nat 0%nat 4%nat. entry_field rest e 1%nat 4%nat 4%nat.
  entry_field rest e 2%nat 8%nat 4%nat. entry_field rest e 3%nat 12%nat 4%nat.
  entry_field rest e 4%nat 16%nat 4%nat. entry_field rest e 5%nat 20%nat 4%nat.
  entry_field rest e 6%nat 24%nat 2%nat. entry_field rest e 7%nat 26%nat 2%nat.
  entry_field rest e 8%nat 28%nat 2%nat. done.
Qed.

(** Where the strings stand. *)
Lemma serialize_layout e : exists hd,
  length hd = 30%nat /\
  AdsSymbolEntry_serialize e =
  hd ++ bytes_of_string (se_name e) ++ [0] ++ bytes_of_string (se_type_name e) ++ [0] ++
  bytes_of_string (se_comment e) ++ [0].
Proof.
  exists (mjoin (take 9 (symbol_fields e))). split; [reflexivity|].
  unfold AdsSymbolEntry_serialize. rewrite <- (take_drop 9 (symbol_fields e)) at 1.
  rewrite join_app. f_equal. unfold symbol_fields. cbn [drop mjoin list_join].
  by rewrite app_nil_r, <- !app_assoc.
Qed.

Lemma read_ascii_str s : is_str s -> read_ascii (bytes_of_string s) = Ok s.
Proof. intros Hs. unfold read_ascii. by rewrite from_utf8_bytes_of_string. Qed.

Lemma slice_at_mid {E} (pre mid post data : bytes) a b :
  data = pre ++ mid ++ post -> a = length pre -> b = (a + length mid)%nat ->
  slice_or_panic (E:=E) data a b = Ok mid.
Proof. intros -> Ha Hb. unfold slice_or_panic. by rewrite slice_at_app. Qed.

Lemma parse_node_serialize pre e rest data :
  wf_symbol e -> data = pre ++ AdsSymbolEntry_serialize e ++ rest ->
  parse_node data (length data) (length pre) =
  Ok (node_of e, (length pre + length (AdsSymbolEntry_serialize e))%nat).
Proof.
  intros Hwf Hdata. unfold parse_node.
  pose proof (length_serialize e) as Hlen. unfold strings_length in Hlen.
  assert (Hd : length data = (length pre + length (AdsSymbolEntry_serialize e) + length rest)%nat)
    by (rewrite Hdata, !length_app; lia).
  rewrite (slice_at_mid pre (AdsSymbolEntry_serialize e ++ rest) []) by
    (rewrite ?app_nil_r, ?length_app; first [done|lia]).
  cbn [outcome_bind]. rewrite parse_entry_header_serialize by done. cbn [outcome_bind].
  destruct Hwf as [_ _ _ _ _ ((Hn & _) & (Hty & _) & (Hc & _)) _ _ _].
  unfold len. cbn [eh_entry_length eh_name_length eh_type_length eh_comment_length eh_igroup eh_ioffset
    eh_size eh_datatype eh_flags]. rewrite !Nat2Z.id. unfold EntryHeader_BYTE_LEN.
  rewrite (proj2 (Nat.ltb_ge _ _)) by lia. rewrite (proj2 (Nat.ltb_ge _ _)) by lia.
  destruct (serialize_layout e) as (hd & Hhd & Hlay). rewrite Hlay in Hdata.
  set (nb := bytes_of_string (se_name e)) in *. set (tb := bytes_of_string (se_type_name e)) in *.
  set (cb := bytes_of_string (se_comment e)) in *.
  rewrite (slice_at_mid (pre ++ hd) nb ([0] ++ tb ++ [0] ++ cb ++ [0] ++ rest)) by
    (rewrite ?Hdata, ?length_app, <- ?app_assoc; first [done|lia]).
  cbn [outcome_bind]. unfold nb at 1. rewrite read_ascii_str by done. cbn [outcome_bind].
  rewrite (slice_at_mid (pre ++ hd ++ nb ++ [0]) tb ([0] ++ cb ++ [0] ++ rest)) by
    (rewrite ?Hdata, ?length_app, <- ?app_assoc; first [done|simpl; lia]).
  cbn [outcome_bind]. unfold tb at 1. rewrite read_ascii_str by done. cbn [outcome_bind].
  rewrite (slice_at_mid (pre ++ hd ++ nb ++ [0] ++ tb ++ [0]) cb ([0] ++ rest)) by
    (rewrite ?Hdata, ?length_app, <- ?app_assoc; first [done|simpl; lia]).
  cbn [outcome_bind]. unfold cb at 1. rewrite read_ascii_str by done. done.
Qed.

Lemma upload_loop_table l t pre fuel data :
  Forall wf_symbol l -> data = pre ++ mjoin (map AdsSymbolEntry_serialize l) ->
  (length l < fuel)%nat ->
  upload_loop fuel data (length data) (length (st_nodes t) + length l) (length pre) t =
  Ok (foldl (fun t e => push_node (node_of e) t) t l).
Proof.
  intros Hl. revert t pre fuel. induction Hl as [|e l He Hl IH]; intros t pre fuel Hdata Hf;
    (destruct fuel as [|fuel]; [simpl in Hf; lia|]); cbn [upload_loop]; unfold EntryHeader_BYTE_LEN.
  - rewrite (proj2 (Nat.ltb_ge _ _)) by (simpl; lia). by rewrite andb_false_r.
  - change (mjoin (map AdsSymbolEntry_serialize (e :: l))) with
      (AdsSymbolEntry_serialize e ++ mjoin (map AdsSymbolEntry_serialize l)) in Hdata.
    pose proof (length_serialize e) as Hlen.
    rewrite (proj2 (Nat.leb_le _ _)) by (rewrite Hdata, !length_app; lia).
    rewrite (proj2 (Nat.ltb_lt _ _)) by (simpl; lia). cbn [andb].
    rewrite (parse_node_serialize pre e (mjoin (map AdsSymbolEntry_serialize l))) by done.
    cbn [outcome_bind fst snd foldl].
    specialize (IH (push_node (node_of e) t) (pre ++ AdsSymbolEntry_serialize e) fuel).
    rewrite length_app in IH. simpl in IH. rewrite length_app in IH. simpl in IH.
    rewrite <- IH; [f_equal; simpl; lia| |simpl in Hf; lia]. by rewrite <- app_assoc.
Qed.

Lemma push_nodes l t : st_nodes (foldl (fun t e => push_node (node_of e) t) t l) =
  st_nodes t ++ map node_of l.
Proof.
  revert t. induction l as [|e l IH]; intros t; simpl; [by rewrite app_nil_r|].
  rewrite IH. simpl. by rewrite <- app_assoc.
Qed.

Lemma parse_upload_table l info :
  Forall wf_symbol l ->
  ui_symbol_count info = Z.of_nat (length l) ->
  ui_symbol_length info = len (mjoin (map AdsSymbolEntry_serialize l)) ->
  parse_upload (mjoin (map AdsSymbolEntry_serialize l)) info =
  Ok (foldl (fun t e => push_node (node_of e) t) (mkTree [] ∅) l).
Proof.
  intros Hl Hc Hs. unfold parse_upload. rewrite Hc, Hs. unfold len. rewrite !Nat2Z.id.
  rewrite Nat.ltb_irrefl, Nat.max_id.
  apply (upload_loop_table l (mkTree [] ∅) []); [done..|].
  pose proof (length_table l). lia.
Qed.

(** The two readers of symbol tables agree. From a table that symbol.rs
    writes, the client's reader makes one node per entry, in order and with
    the same fields that symbol.rs reads back. *)
Theorem readers_agree l info :
  Forall wf_symbol l ->
  ui_symbol_count info = Z.of_nat (length l) ->
  ui_symbol_length info = len (mjoin (map AdsSymbolEntry_serialize l)) ->
  exists symbols t, parse_symbol_table (mjoin (map AdsSymbolEntry_serialize l)) = Ok symbols /\
    parse_upload (mjoin (map AdsSymbolEntry_serialize l)) info = Ok t /\
    st_nodes t = map node_of symbols /\ symbols = l.
Proof.
  intros Hl Hc Hs. exists l. eexists. split.
  - rewrite <- (app_nil_r (mjoin _)). apply parse_table_serialize; [done|simpl; lia].
  - split; [by apply parse_upload_table|]. split; [|done]. apply push_nodes.
Qed.

(** ** Through the dispatcher *)

(** The payload of a successful answer to an ADS read. *)
Definition read_reply (data : bytes) : bytes := le_encode 4 0 ++ le_encode 4 (len data) ++ data.

Lemma ads_read_reply send net port ig io n timeout data :
  in_width 32 (len data) ->
  send (mkRequest net port ADS_CMD_READ (le_encode 4 ig ++ le_encode 4 io ++ le_encode 4 n) timeout) =
    Ok (read_reply data) ->
  ads_read send net port ig io n timeout = Ok data.
Proof.
  intros Hw Hsend. unfold ads_read. rewrite Hsend. unfold read_reply.
  rewrite (proj2 (Nat.ltb_ge _ _)) by (rewrite !length_app, !length_le_encode; lia).
  assert (Hfs : le_encode 4 0 ++ le_encode 4 (len data) ++ data =
    [] ++ mjoin [le_encode 4 0; le_encode 4 (len data)] ++ data) by reflexivity.
  rewrite Hfs. rewrite (le_field [] data [le_encode 4 0; le_encode 4 (len data)] 0 0 4 0 eq_refl) by done. cbn [outcome_bind].
  change (0 =? 0) with true. cbn [negb].
  rewrite (le_field [] data [le_encode 4 0; le_encode 4 (len data)] 1 4 4 (len data) eq_refl) by done. cbn [outcome_bind].
  rewrite (slice_at_mid (le_encode 4 0 ++ le_encode 4 (len data)) data []) by
    (rewrite ?app_nil_r, ?length_app, ?length_le_encode; first [reflexivity|done]).
  cbn [outcome_bind]. rewrite Z.ltb_irrefl. unfold len. rewrite Nat2Z.id.
  apply (slice_at_mid [] data []); by rewrite ?app_nil_r.
Qed.

Lemma ads_read_error send net port ig io n timeout e :
  send (mkRequest net port ADS_CMD_READ (le_encode 4 ig ++ le_encode 4 io ++ le_encode 4 n) timeout) =
    Err e ->
  ads_read send net port ig io n timeout = Err (AdsFrom e).
Proof. intros He. unfold ads_read. by rewrite He. Qed.

(** The 24 bytes of upload information. *)
Definition info_bytes (i : UploadInfo) : bytes :=
  mjoin (map (le_encode 4) [ui_symbol_count i; ui_symbol_length i; ui_datatype_count i;
                            ui_datatype_length i; ui_extra_count i; ui_extra_length i]).

Definition wf_info (i : UploadInfo) : Prop :=
  Forall (in_width 32) [ui_symbol_count i; ui_symbol_length i; ui_datatype_count i;
                        ui_datatype_length i; ui_extra_count i; ui_extra_length i].

Lemma parse_upload_info_bytes i : wf_info i -> parse_upload_info (info_bytes i) = Ok i.
Proof.
  unfold wf_info. rewrite !Forall_cons. intros (H1 & H2 & H3 & H4 & H5 & H6 & _).
  unfold parse_upload_info, browse_read_u32. change ((length (info_bytes i) <? _)%nat) with false. cbv iota.
  assert (Hfs : info_bytes i = [] ++ info_bytes i ++ []) by by rewrite app_nil_r.
  rewrite Hfs. unfold info_bytes. set (fs := map (le_encode 4) _).
  rewrite (le_field [] [] fs 0 0 4 (ui_symbol_count i) eq_refl) by done. cbn [outcome_bind].
  rewrite (le_field [] [] fs 1 4 4 (ui_symbol_length i) eq_refl) by done. cbn [outcome_bind].
  rewrite (le_field [] [] fs 2 8 4 (ui_datatype_count i) eq_refl) by done. cbn [outcome_bind].
  rewrite (le_field [] [] fs 3 12 4 (ui_datatype_length i) eq_refl) by done. cbn [outcome_bind].
  rewrite (le_field [] [] fs 4 16 4 (ui_extra_count i) eq_refl) by done. cbn [outcome_bind].
  rewrite (le_field [] [] fs 5 20 4 (ui_extra_length i) eq_refl) by done. cbn [outcome_bind].
  by destruct i.
Qed.

(** Browsing a PLC. If the PLC answers the two reads of the upload with its
    sizes and its symbol table, [upload_via_dispatcher] returns the tree of
    exactly these symbols, in order; and an error of the dispatcher on either
    read is the error of the whole operation. *)
Theorem upload_returns_table send net port timeout l info :
  Forall wf_symbol l -> wf_info info ->
  ui_symbol_count info = Z.of_nat (length l) ->
  ui_symbol_length info = len (mjoin (map AdsSymbolEntry_serialize l)) ->
  let rq ig n := mkRequest net port ADS_CMD_READ (le_encode 4 ig ++ le_encode 4 0 ++ le_encode 4 n) timeout in
  let info_rq := rq ADSIGRP_SYM_UPLOADINFO2 24 in
  let table_rq := rq ADSIGRP_SYM_UPLOAD (ui_symbol_length info) in
  (forall e, send info_rq = Err e -> upload_via_dispatcher send net port timeout = Err (AdsFrom e)) /\
  (send info_rq = Ok (read_reply (info_bytes info)) ->
   (forall e, send table_rq = Err e -> upload_via_dispatcher send net port timeout = Err (AdsFrom e)) /\
   (send table_rq = Ok (read_reply (mjoin (map AdsSymbolEntry_serialize l))) ->
    exists t, upload_via_dispatcher send net port timeout = Ok t /\ st_nodes t = map node_of l)).
Proof.
  intros Hl Hinfo Hc Hs rq info_rq table_rq. unfold upload_via_dispatcher.
  change (Z.of_nat UploadInfo_BYTE_LEN) with 24. split.
  { intros e He. by rewrite (ads_read_error send net port _ 0 24 timeout e). }
  intros Hsend. rewrite (ads_read_reply send net port _ 0 24 timeout (info_bytes info)) by done.
  cbn [outcome_bind]. rewrite parse_upload_info_bytes by done. cbn [outcome_bind]. split.
  { intros e He. by rewrite (ads_read_error send net port _ 0 _ timeout e). }
  intros Htable. rewrite (ads_read_reply _ _ _ _ _ _ _ (mjoin (map AdsSymbolEntry_serialize l))).
  - cbn [outcome_bind]. rewrite parse_upload_table by done. eexists. split; [done|]. apply push_nodes.
  - rewrite <- Hs. unfold wf_info in Hinfo. rewrite !Forall_cons in Hinfo. by destruct Hinfo as (_ & ? & _).
  - done.
Qed.
