(* ===== verification/MetricMapper.v ===== *)
(** * The metric mapper (crates/tc-otel-core: metric_mapper.rs)

    Custom metric definitions of the configuration, by PLC symbol: a metric
    entry whose [plc.symbol] attribute names one gets its name, description,
    unit and kind from it. [validate] reports what is wrong with a list of
    definitions. The types of the definitions are those of config.rs. *)

From S2P Require Import Prelude.
From S2P Require Import Text.
From S2P Require Import External.
From S2P Require Import Models.

(** ** Definitions (config.rs) *)

Inductive MetricKindConfig := KindGauge | KindSum | KindHistogram.

Definition to_metric_kind (k : MetricKindConfig) : MetricKind :=
  match k with KindGauge => Gauge | KindSum => Sum | KindHistogram => Histogram end.

Inductive CustomMetricSource := SourcePush | SourcePoll | SourceNotification.

Inductive NotificationTransmissionMode := OnChange | Cyclic.

Record PollConfig := mkPoll { pc_interval_ms : Z }.

Record NotificationConfig := mkNotification {
  nc_min_period_ms : Z;
  nc_max_period_ms : Z;
  nc_max_delay_ms : Z;
  nc_transmission_mode : NotificationTransmissionMode;
}.

Definition default_poll_interval_ms : Z := 1000.
Definition PollConfig_default : PollConfig := mkPoll default_poll_interval_ms.

Definition default_max_period_ms : Z := 10000.
Definition default_max_delay_ms : Z := 5000.
Definition NotificationConfig_default : NotificationConfig :=
  mkNotification 0 default_max_period_ms default_max_delay_ms OnChange.

Record CustomMetricDef := mkMetricDef {
  cm_symbol : string;
  cm_metric_name : string;
  cm_description : string;
  cm_unit : string;
  cm_kind : MetricKindConfig;
  cm_is_monotonic : bool;
  cm_source : CustomMetricSource;
  cm_ams_net_id : option string;
  cm_ams_port : option Z;
  cm_ams_router_host : option string;
  cm_poll : option PollConfig;
  cm_notification : option NotificationConfig;
}.

Definition CustomMetricDef_default : CustomMetricDef :=
  mkMetricDef "" "" "" "" KindGauge false SourcePush None None None None None.

(** ** The mapper *)

Abbreviation MetricMapper := (gmap string CustomMetricDef).

Definition MetricMapper_from_config (custom_metrics : list CustomMetricDef) : MetricMapper :=
  foldl (fun defs def => <[cm_symbol def := def]> defs) ∅ custom_metrics.

Definition MetricMapper_len (m : MetricMapper) : nat := size m.
Definition MetricMapper_is_empty (m : MetricMapper) : bool := (size m =? 0)%nat.

Section Apply.
Context `{Ext : External}.

(** The fields a definition overwrites. *)
Definition overwrite (def : CustomMetricDef) (e : MetricEntry) : MetricEntry :=
  {| me_name := cm_metric_name def; me_description := cm_description def; me_unit := cm_unit def;
     me_kind := to_metric_kind (cm_kind def); me_value := me_value e; me_timestamp := me_timestamp e;
     me_source := me_source e; me_hostname := me_hostname e; me_ams_net_id := me_ams_net_id e;
     me_ams_source_port := me_ams_source_port e; me_ams_app_port := me_ams_app_port e;
     me_task_index := me_task_index e; me_task_name := me_task_name e;
     me_task_cycle_counter := me_task_cycle_counter e; me_app_name := me_app_name e;
     me_project_name := me_project_name e; me_scope_namespace := me_scope_namespace e;
     me_attributes := me_attributes e; me_histogram_bounds := me_histogram_bounds e;
     me_histogram_counts := me_histogram_counts e; me_histogram_count := me_histogram_count e;
     me_histogram_sum := me_histogram_sum e; me_is_monotonic := cm_is_monotonic def;
     me_trace_id := me_trace_id e; me_span_id := me_span_id e |}.

(** [MetricMapper::apply]; the entry and whether a mapping was applied. *)
Definition MetricMapper_apply (m : MetricMapper) (e : MetricEntry) : MetricEntry * bool :=
  if MetricMapper_is_empty m then (e, false)
  else
    match me_attributes e !! "plc.symbol" with
    | Some (VString symbol) =>
      match m !! symbol with
      | Some def => (overwrite def e, true)
      | None => (e, false)
      end
    | _ => (e, false)
    end.

End Apply.

(** ** Validation *)

Definition metric_error (i : nat) (what : string) : string :=
  "custom_metrics[" +:+ dec_nat i +:+ "]: " +:+ what.

Definition is_none {A} (o : option A) : bool := match o with None => true | Some _ => false end.

(** The rules of the source. *)
Definition source_errors (i : nat) (def : CustomMetricDef) : list string :=
  match cm_source def with
  | SourcePush => []
  | SourcePoll =>
    (if is_none (cm_ams_net_id def) then [metric_error i "source=poll requires ams_net_id"] else []) ++
    (if is_none (cm_ams_port def) then [metric_error i "source=poll requires ams_port"] else []) ++
    (if is_none (cm_poll def) then [metric_error i "source=poll requires poll config"] else [])
  | SourceNotification =>
    (if is_none (cm_ams_net_id def)
     then [metric_error i "source=notification requires ams_net_id"] else []) ++
    (if is_none (cm_ams_port def)
     then [metric_error i "source=notification requires ams_port"] else []) ++
    (if is_none (cm_notification def)
     then [metric_error i "source=notification requires notification config"] else [])
  end.

(** One turn of the loop: the errors of definition [i], and the symbols seen
    so far with the last index of each. *)
Definition def_errors (i : nat) (def : CustomMetricDef) (seen : gmap string nat) : list string :=
  (if String.eqb (cm_symbol def) "" then [metric_error i "symbol must not be empty"] else []) ++
  (if String.eqb (cm_metric_name def) "" then [metric_error i "metric_name must not be empty"] else []) ++
  (match seen !! cm_symbol def with
   | Some prev_idx =>
     if String.eqb (cm_symbol def) "" then []
     else [metric_error i ("duplicate symbol '" +:+ cm_symbol def +:+ "' (first at [" +:+
                           dec_nat prev_idx +:+ "])")]
   | None => []
   end) ++
  source_errors i def.

Fixpoint validate_from (i : nat) (seen : gmap string nat) (defs : list CustomMetricDef) : list string :=
  match defs with
  | [] => []
  | def :: defs =>
    def_errors i def seen ++ validate_from (S i) (<[cm_symbol def := i]> seen) defs
  end.

Definition MetricMapper_validate (defs : list CustomMetricDef) : list string := validate_from 0 ∅ defs.

(** ** What a valid list is *)

Definition source_complete (def : CustomMetricDef) : Prop :=
  match cm_source def with
  | SourcePush => True
  | SourcePoll => is_Some (cm_ams_net_id def) /\ is_Some (cm_ams_port def) /\ is_Some (cm_poll def)
  | SourceNotification =>
    is_Some (cm_ams_net_id def) /\ is_Some (cm_ams_port def) /\ is_Some (cm_notification def)
  end.

Record valid_defs (defs : list CustomMetricDef) : Prop := {
  vd_symbols : Forall (fun d => cm_symbol d <> "") defs;
  vd_names : Forall (fun d => cm_metric_name d <> "") defs;
  vd_sources : Forall source_complete defs;
  vd_unique : NoDup (map cm_symbol defs);
}.

Lemma source_errors_nil i def : source_errors i def = [] <-> source_complete def.
Proof.
  unfold source_errors, source_complete.
  destruct (cm_source def), (cm_ams_net_id def), (cm_ams_port def), (cm_poll def), (cm_notification def);
    simpl; rewrite ?is_Some_alt; (split; [by intros|]); (intros (? & ? & ?) || intros ?); done.
Qed.

Lemma def_errors_nil i def seen :
  def_errors i def seen = [] <->
  cm_symbol def <> "" /\ cm_metric_name def <> "" /\ seen !! cm_symbol def = None /\ source_complete def.
Proof.
  unfold def_errors. rewrite !app_nil, source_errors_nil.
  destruct (String.eqb_spec (cm_symbol def) ""), (String.eqb_spec (cm_metric_name def) "");
    destruct (seen !! cm_symbol def); simpl; naive_solver.
Qed.

Lemma validate_from_nil i seen defs :
  validate_from i seen defs = [] <->
  valid_defs defs /\ Forall (fun d => seen !! cm_symbol d = None) defs.
Proof.
  revert i seen. induction defs as [|def defs IH]; intros i seen; cbn [validate_from].
  { split; [|done]. intros _. split; [split; constructor|constructor]. }
  rewrite app_nil, def_errors_nil, IH. split.
  - intros [(Hs & Hn & Hseen & Hsrc) [[H1 H2 H3 H4] Hfresh]].
    assert (Hne : Forall (fun d => cm_symbol d <> cm_symbol def) defs).
    { eapply Forall_impl; [exact Hfresh|]. intros d Hd Heq. rewrite <- Heq in Hd.
      by rewrite lookup_insert_eq in Hd. }
    split; [split; simpl; constructor; try done|constructor; [done|]].
    + rewrite list_elem_of_fmap. intros (d & Heq & Hd).
      rewrite Forall_forall in Hne. by apply (Hne d Hd).
    + eapply Forall_impl; [apply Forall_and; split; [exact Hfresh|exact Hne]|]. simpl.
      intros d [Hd Hneq]. by rewrite lookup_insert_ne in Hd.
  - intros [[H1 H2 H3 H4] Hfresh]. simpl in H4. decompose_Forall_hyps.
    rewrite NoDup_cons, list_elem_of_fmap in H4. destruct H4 as [Hnot Hnd].
    split; [done|]. split; [by split|]. rewrite Forall_forall in *. intros d Hd.
    rewrite lookup_insert_ne; [by auto|]. intros Heq. apply Hnot. eauto.
Qed.

(** The definition that counts for a symbol is the last one. *)
Lemma from_config_lookup defs m symbol :
  foldl (fun defs def => <[cm_symbol def := def]> defs) m defs !! symbol =
  match last (filter (fun d => cm_symbol d = symbol) defs) with
  | Some d => Some d
  | None => (m : MetricMapper) !! symbol
  end.
Proof.
  revert m. induction defs as [|def defs IH] using rev_ind; intros m; [done|].
  rewrite foldl_app. simpl. rewrite filter_app. simpl.
  destruct (decide (cm_symbol def = symbol)) as [<-|Hne].
  - rewrite lookup_insert_eq, filter_cons_True, filter_nil, last_snoc by done. done.
  - rewrite lookup_insert_ne, filter_cons_False, filter_nil, app_nil_r by done. apply IH.
Qed.

Lemma from_config_size defs m :
  NoDup (map cm_symbol defs) -> Forall (fun d => (m : MetricMapper) !! cm_symbol d = None) defs ->
  size (foldl (fun defs def => <[cm_symbol def := def]> defs) m defs) = (size m + length defs)%nat.
Proof.
  revert m. induction defs as [|def defs IH]; intros m Hnd Hf; simpl in *; [lia|].
  apply NoDup_cons in Hnd as [Hnot Hnd]. apply Forall_cons in Hf as [Hdef Hf].
  rewrite IH, map_size_insert_None by done || (rewrite Forall_forall in *; intros d Hd;
    rewrite lookup_insert_ne; [by auto|]; intros Heq; apply Hnot, list_elem_of_fmap; eauto). lia.
Qed.

(** The only definition of a symbol is the one that counts. *)
Lemma from_config_unique defs def :
  NoDup (map cm_symbol defs) -> def ∈ defs ->
  MetricMapper_from_config defs !! cm_symbol def = Some def.
Proof.
  intros Hnd Hdef. unfold MetricMapper_from_config. rewrite from_config_lookup.
  destruct (last _) as [d|] eqn:Hl.
  - apply last_Some_elem_of, list_elem_of_filter in Hl as [Heq Hd]. f_equal.
    apply list_elem_of_lookup in Hd as [i Hi]. apply list_elem_of_lookup in Hdef as [j Hj].
    assert (i = j) as <- by (eapply (NoDup_lookup (map cm_symbol defs));
      [done|rewrite list_lookup_fmap, Hi; done|rewrite list_lookup_fmap, Hj; simpl; by rewrite Heq]).
    congruence.
  - apply last_None in Hl. assert (Hin : def ∈ filter (fun d => cm_symbol d = cm_symbol def) defs)
      by (by apply list_elem_of_filter). rewrite Hl in Hin. by apply not_elem_of_nil in Hin.
Qed.

(** Validation is exact and makes the mapping unambiguous: [validate] reports
    nothing for a list of definitions precisely when every symbol and metric
    name is given, every polled or subscribed definition has its target and
    its settings, and no symbol occurs twice; then the mapper has one mapping
    per definition, and an entry of any listed symbol is renamed after exactly
    that definition with its value, time, attributes and origin untouched. *)
Theorem validated_mapping `{Ext : External} defs :
  (MetricMapper_validate defs = [] <-> valid_defs defs) /\
  (MetricMapper_validate defs = [] ->
   MetricMapper_len (MetricMapper_from_config defs) = length defs /\
   forall def e, def ∈ defs -> me_attributes e !! "plc.symbol" = Some (VString (cm_symbol def)) ->
     MetricMapper_apply (MetricMapper_from_config defs) e = (overwrite def e, true)).
Proof.
  assert (Hval : MetricMapper_validate defs = [] <-> valid_defs defs).
  { unfold MetricMapper_validate. rewrite validate_from_nil. split; [by intros []|].
    intros Hv. split; [done|]. apply Forall_forall. intros d _. apply lookup_empty. }
  split; [done|]. rewrite Hval. intros [_ _ _ Hnd]. split.
  - unfold MetricMapper_len, MetricMapper_from_config. rewrite from_config_size, map_size_empty; [done..|].
    apply Forall_forall. intros d _. apply lookup_empty.
  - intros def e Hdef He. unfold MetricMapper_apply, MetricMapper_is_empty.
    pose proof (from_config_unique defs def Hnd Hdef) as Hl.
    destruct (Nat.eqb_spec (size (MetricMapper_from_config defs)) 0) as [H0|_].
    + apply map_size_empty_inv in H0. by rewrite H0, lookup_empty in Hl.
    + by rewrite He, Hl.
Qed.
