(* ===== verification/Poll.v ===== *)
(** * Reading values from a PLC (crates/tc-otel-client: client.rs, poll.rs)

    One read of a symbol through the dispatcher, the decoding of its bytes by
    the name of its IEC type, the metric entry made from a value, and the
    polling loop, one turn at a time. What the dispatcher answers, and whether
    the metric channel takes an entry, are parameters. *)

From S2P Require Import Prelude.
From S2P Require Import Text.
From S2P Require Import External.
From S2P Require Import Float.
From S2P Require Import Ams.
From S2P Require Import Models.
From S2P Require Import AmsDispatcher.
From S2P Require Import Browse.
From S2P Require Import MetricMapper.

(** ** Strings *)

(** The characters of Unicode's White_Space, in UTF-8. *)
Definition white_space : list bytes :=
  [[9]; [10]; [11]; [12]; [13]; [32]; [194; 133]; [194; 160]; [225; 154; 128]] ++
  map (fun b => [226; 128; b]) [128; 129; 130; 131; 132; 133; 134; 135; 136; 137; 138; 168; 169; 175] ++
  [[226; 129; 159]; [227; 128; 128]].

(** The text behind one of [chars]. *)
Fixpoint strip_char (chars : list bytes) (bs : bytes) : option bytes :=
  match chars with
  | [] => None
  | c :: chars =>
    if bool_decide (take (length c) bs = c) then Some (drop (length c) bs) else strip_char chars bs
  end.

Fixpoint strip_chars (fuel : nat) (chars : list bytes) (bs : bytes) : bytes :=
  match fuel with
  | O => bs
  | S fuel => match strip_char chars bs with Some bs => strip_chars fuel chars bs | None => bs end
  end.

(** [s.trim()]: in valid UTF-8 a character is recognised from either end. *)
Definition trim (s : string) : string :=
  let bs := strip_chars (String.length s) white_space (bytes_of_string s) in
  string_of_bytes (reverse (strip_chars (length bs) (map reverse white_space) (reverse bs))).

Definition upper_byte (b : Z) : Z := if in_range 97 122 (Some b) then b - 32 else b.

(** [s.to_ascii_uppercase()]. *)
Definition to_ascii_uppercase (s : string) : string :=
  string_of_bytes (map upper_byte (bytes_of_string s)).

(** ** Values *)

Inductive PlcValue :=
| PlcBool (b : bool)
| PlcI64 (v : Z)
| PlcU64 (v : Z)
| PlcF64 (bits : Z).

#[global] Instance PlcValue_eq_dec : EqDecision PlcValue.
Proof. solve_decision. Defined.

Definition as_f64 (v : PlcValue) : Z :=
  match v with
  | PlcBool b => if b then f64_of_Z 1 else f64_of_Z 0
  | PlcI64 v => f64_of_Z v
  | PlcU64 v => f64_of_Z v
  | PlcF64 bits => bits
  end.

Record SymbolMeta := mkMeta {
  sm_size : Z;
  sm_type_name : string;
  sm_index_group : Z;
  sm_index_offset : Z;
}.

#[global] Instance SymbolMeta_eq_dec : EqDecision SymbolMeta.
Proof. solve_decision. Defined.

(** The IEC types the decoder knows, and their widths in bytes. *)
Inductive scalar :=
| ScalarBool
| ScalarInt (width : nat)
| ScalarUint (width : nat)
| ScalarReal
| ScalarLreal.

Definition SCALARS : list (string * scalar) :=
  [("BOOL", ScalarBool); ("SINT", ScalarInt 1); ("USINT", ScalarUint 1); ("BYTE", ScalarUint 1);
   ("INT", ScalarInt 2); ("UINT", ScalarUint 2); ("WORD", ScalarUint 2);
   ("DINT", ScalarInt 4); ("UDINT", ScalarUint 4); ("DWORD", ScalarUint 4);
   ("LINT", ScalarInt 8); ("ULINT", ScalarUint 8); ("LWORD", ScalarUint 8);
   ("REAL", ScalarReal); ("LREAL", ScalarLreal)].

Definition scalar_of (t : string) : option scalar :=
  snd <$> List.find (fun kv => String.eqb kv.1 t) SCALARS.

Definition scalar_width (s : scalar) : nat :=
  match s with
  | ScalarBool => 1
  | ScalarInt w | ScalarUint w => w
  | ScalarReal => 4
  | ScalarLreal => 8
  end.

(** The value of the first bytes. *)
Definition scalar_value (s : scalar) (bs : bytes) : PlcValue :=
  let n := le_decode (take (scalar_width s) bs) in
  match s with
  | ScalarBool => PlcBool (negb (n =? 0))
  | ScalarInt w => PlcI64 (to_signed (8 * Z.of_nat w) n)
  | ScalarUint _ => PlcU64 n
  | ScalarReal => PlcF64 (f64_of_f32 n)
  | ScalarLreal => PlcF64 n
  end.

(** [decode_scalar]: an arm whose guard on the length fails is passed over, and
    no other arm has the same name. *)
Definition decode_scalar (type_name : string) (bs : bytes) : option PlcValue :=
  match scalar_of (to_ascii_uppercase (trim type_name)) with
  | Some s => if (scalar_width s <=? length bs)%nat then Some (scalar_value s bs) else None
  | None => None
  end.

(** ** One read *)

(** The target of [DispatcherClient]. *)
Record DispatcherClient := mkClient {
  dc_target_net_id : AmsNetId;
  dc_target_port : Z;
  dc_request_timeout : Z;
}.

Definition DispatcherClient_new (net : AmsNetId) (port : Z) : DispatcherClient := mkClient net port 5000.

(** [SymbolReader::read_raw] of [DispatcherClient]. *)
Definition read_raw (send : Sent) (c : DispatcherClient) (meta : SymbolMeta) : outcome ClientError bytes :=
  let req := le_encode 4 (sm_index_group meta) ++ le_encode 4 (sm_index_offset meta) ++
             le_encode 4 (sm_size meta) in
  match send (mkRequest (dc_target_net_id c) (dc_target_port c) ADS_CMD_READ req (dc_request_timeout c)) with
  | Err e => Err (AdsFrom e)
  | Panic => Panic
  | OutOfFuel => OutOfFuel
  | Ok raw =>
    if (length raw <? 8)%nat then
      Err (Decode ("ADS read response too short: " +:+ dec_nat (length raw) +:+ " bytes"))
    else
      (result_code <-- le_or_panic raw 0 4 ;;
       if negb (result_code =? 0) then
         Err (AdsText ("ADS read returned error 0x" +:+ lower_hex result_code))
       else
         declared_len <-- le_or_panic raw 4 8 ;;
         data <-- slice_or_panic raw 8 (length raw) ;;
         if len data <? declared_len then
           Err (Decode ("ADS read payload truncated: declared " +:+ dec declared_len +:+ " bytes, got " +:+
                        dec_nat (length data)))
         else slice_or_panic data 0 (Z.to_nat declared_len))%rust
  end.

(** [SymbolReader::read_value]. *)
Definition SymbolReader_read_value (send : Sent) (c : DispatcherClient) (meta : SymbolMeta) : outcome ClientError PlcValue :=
  (raw <-- read_raw send c meta ;;
   match decode_scalar (sm_type_name meta) raw with
   | Some v => Ok v
   | None => Err (Decode ("unsupported scalar type '" +:+ sm_type_name meta +:+ "' (size " +:+
                          dec (sm_size meta) +:+ ")"))
   end)%rust.

(** ** The entry *)

Definition datatype_label (v : PlcValue) : string :=
  match v with PlcBool _ => "bool" | PlcI64 _ => "i64" | PlcU64 _ => "u64" | PlcF64 _ => "f64" end.

Section Poll.
Context `{Ext : External}.

(** [build_metric_entry]; [now] is the clock the constructors read. *)
Definition build_metric_entry (now : DateTime) (def : CustomMetricDef) (v : PlcValue) : MetricEntry :=
  let m := match to_metric_kind (cm_kind def) with
           | Sum => MetricEntry_sum now (cm_metric_name def) (as_f64 v) (cm_is_monotonic def)
           | Gauge | Histogram => MetricEntry_gauge now (cm_metric_name def) (as_f64 v)
           end in
  {| me_name := me_name m; me_description := cm_description def; me_unit := cm_unit def;
     me_kind := me_kind m; me_value := me_value m; me_timestamp := me_timestamp m;
     me_source := "client-poll"; me_hostname := me_hostname m;
     me_ams_net_id := default (me_ams_net_id m) (cm_ams_net_id def);
     me_ams_source_port := default (me_ams_source_port m) (cm_ams_port def);
     me_ams_app_port := me_ams_app_port m; me_task_index := me_task_index m;
     me_task_name := me_task_name m; me_task_cycle_counter := me_task_cycle_counter m;
     me_app_name := me_app_name m; me_project_name := me_project_name m;
     me_scope_namespace := me_scope_namespace m;
     me_attributes := <["plc.datatype" := VString (datatype_label v)]>
                        (<["plc.symbol" := VString (cm_symbol def)]> (me_attributes m));
     me_histogram_bounds := me_histogram_bounds m; me_histogram_counts := me_histogram_counts m;
     me_histogram_count := me_histogram_count m; me_histogram_sum := me_histogram_sum m;
     me_is_monotonic := me_is_monotonic m; me_trace_id := me_trace_id m; me_span_id := me_span_id m |}.

(** ** The loop *)

Definition BACKOFF_INITIAL : Z := 250.
Definition BACKOFF_MAX : Z := 30000.

(** [Poller::new]: only the kinds that one value can be. *)
Definition Poller_new (def : CustomMetricDef) : outcome ClientError CustomMetricDef :=
  match cm_kind def with
  | KindGauge | KindSum => Ok def
  | KindHistogram => Err (Decode "poll source only supports gauge/sum kinds (histogram is push-only)")
  end.

(** The interval [Poller::spawn] ticks at. *)
Definition poll_interval_ms (def : CustomMetricDef) : Z :=
  match cm_poll def with Some c => Z.max (pc_interval_ms c) 10 | None => 1000 end.

(** What [try_send] says. *)
Inductive send_result := SentOk | SentFull | SentClosed.

Record PollLoop := mkPollLoop {
  pl_backoff : Z;
  pl_sleeps : list Z;
  pl_emitted : list MetricEntry;
  pl_stopped : bool;
}.

Definition PollLoop_new : PollLoop := mkPollLoop BACKOFF_INITIAL [] [] false.

(** One turn of [run_loop] after a tick: what the read gave (a panic of the
    blocking task included), and what the channel says to the entry.
    [pl_sleeps] and [pl_emitted] record the sleeps and the entries taken. *)
Definition poll_turn (def : CustomMetricDef) (read : outcome ClientError PlcValue) (now : DateTime)
    (channel : send_result) (s : PollLoop) : PollLoop :=
  if pl_stopped s then s
  else
    match read with
    | Ok v =>
      match channel with
      | SentOk =>
        mkPollLoop BACKOFF_INITIAL (pl_sleeps s) (pl_emitted s ++ [build_metric_entry now def v]) false
      | SentFull => mkPollLoop BACKOFF_INITIAL (pl_sleeps s) (pl_emitted s) false
      | SentClosed => mkPollLoop BACKOFF_INITIAL (pl_sleeps s) (pl_emitted s) true
      end
    | _ =>
      mkPollLoop (Z.min (pl_backoff s * 2) BACKOFF_MAX) (pl_sleeps s ++ [pl_backoff s]) (pl_emitted s) false
    end.

End Poll.

(** ** Values read back *)

(** How a PLC stores a value of a type, and the value a reader should see. *)
Inductive stores : scalar -> bytes -> PlcValue -> Prop :=
| StoresBool (b : bool) : stores ScalarBool [if b then 1 else 0] (PlcBool b)
| StoresInt w z :
    (0 < w)%nat -> - 2 ^ (8 * Z.of_nat w - 1) <= z < 2 ^ (8 * Z.of_nat w - 1) ->
    stores (ScalarInt w) (le_encode w z) (PlcI64 z)
| StoresUint w z : in_width (8 * Z.of_nat w) z -> stores (ScalarUint w) (le_encode w z) (PlcU64 z)
| StoresReal bits : in_width 32 bits -> stores ScalarReal (le_encode 4 bits) (PlcF64 (f64_of_f32 bits))
| StoresLreal bits : in_width 64 bits -> stores ScalarLreal (le_encode 8 bits) (PlcF64 bits).

Lemma stores_length s bs v : stores s bs v -> length bs = scalar_width s.
Proof. by intros []; rewrite ?length_le_encode. Qed.

Lemma stores_value s bs v rest : stores s bs v -> scalar_value s (bs ++ rest) = v.
Proof.
  intros Hs. unfold scalar_value. rewrite take_app_le by (by rewrite (stores_length s bs v)).
  rewrite take_ge by (by rewrite (stores_length s bs v)).
  destruct Hs as [b|w z Hw Hz|w z Hz|bits Hb|bits Hb].
  - by destruct b.
  - rewrite le_decode_encode_mod. change 256 with (2 ^ 8). rewrite <- Z.pow_mul_r by lia.
    rewrite to_signed_mod by lia. done.
  - by rewrite in_width_le_roundtrip.
  - by rewrite (in_width_le_roundtrip 4).
  - by rewrite (in_width_le_roundtrip 8).
Qed.

Lemma decode_scalar_stores t s bs v rest :
  scalar_of (to_ascii_uppercase (trim t)) = Some s -> stores s bs v ->
  decode_scalar t (bs ++ rest) = Some v.
Proof.
  intros Ht Hs. unfold decode_scalar. rewrite Ht, length_app, (stores_length s bs v Hs).
  rewrite (proj2 (Nat.leb_le _ _)) by lia. by rewrite (stores_value s bs v).
Qed.

(** The reader of values and the reader of symbol tables unwrap an answer the
    same way; only the texts of their errors differ. *)
Lemma read_raw_ads_read send c meta :
  let r := ads_read send (dc_target_net_id c) (dc_target_port c) (sm_index_group meta) (sm_index_offset meta)
             (sm_size meta) (dc_request_timeout c) in
  (forall d, read_raw send c meta = Ok d <-> r = Ok d) /\ (completes (read_raw send c meta) <-> completes r).
Proof.
  unfold read_raw, ads_read. cbv zeta. destruct (send _) as [raw|e| |]; [|done..].
  destruct (length raw <? 8)%nat; [done|]. destruct (le_or_panic raw 0 4) as [rc|e| |]; simpl; [|done..].
  destruct (negb (rc =? 0)); [done|].
  destruct (le_or_panic raw 4 8); simpl; [|done..]. by destruct (slice_or_panic raw 8 _).
Qed.

Lemma read_raw_completes send c meta :
  (forall rq, completes (send rq)) -> completes (read_raw send c meta).
Proof.
  intros Hsend. unfold read_raw. specialize (Hsend (mkRequest (dc_target_net_id c) (dc_target_port c) ADS_CMD_READ
    (le_encode 4 (sm_index_group meta) ++ le_encode 4 (sm_index_offset meta) ++ le_encode 4 (sm_size meta))
    (dc_request_timeout c))).
  destruct (send _) as [raw|e| |]; try done. destruct (Nat.ltb_spec (length raw) 8) as [Hs|Hl]; [done|].
  rewrite !le_or_panic_spec by lia. cbn [outcome_bind]. destruct (negb _); [done|].
  rewrite slice_or_panic_spec by lia. cbn [outcome_bind].
  destruct (Z.ltb_spec (len (take (length raw - 8) (drop 8 raw))) (le_decode (take (8 - 4) (drop 4 raw)))) as [|Hle];
    [done|].
  unfold len in Hle. by rewrite slice_or_panic_spec by lia.
Qed.

(** A polled value is the value the PLC stores. When the PLC answers the read
    with the bytes of a scalar of the symbol's type (its name in any case and
    with white space around it), [SymbolReader_read_value] returns that value: sign,
    width and float format are right for every supported type, and bytes
    behind the value do not matter. Whatever the dispatcher answers, the read
    ends without a panic, and a type that is not supported is an error. *)
Theorem polled_value send c meta :
  (forall rq, completes (send rq)) ->
  completes (SymbolReader_read_value send c meta) /\
  (forall s bs v rest,
     scalar_of (to_ascii_uppercase (trim (sm_type_name meta))) = Some s -> stores s bs v ->
     in_width 32 (len (bs ++ rest)) ->
     send (mkRequest (dc_target_net_id c) (dc_target_port c) ADS_CMD_READ
             (le_encode 4 (sm_index_group meta) ++ le_encode 4 (sm_index_offset meta) ++
              le_encode 4 (sm_size meta)) (dc_request_timeout c)) = Ok (read_reply (bs ++ rest)) ->
     SymbolReader_read_value send c meta = Ok v) /\
  (scalar_of (to_ascii_uppercase (trim (sm_type_name meta))) = None ->
   exists e, SymbolReader_read_value send c meta = Err e).
Proof.
  intros Hsend. pose proof (read_raw_completes send c meta Hsend) as Hc. unfold SymbolReader_read_value. split_and!.
  - destruct (read_raw send c meta); try done. simpl. by case_match.
  - intros s bs v rest Ht Hs Hw Hr. apply ads_read_reply in Hr; [|done].
    apply (proj1 (read_raw_ads_read send c meta)) in Hr. rewrite Hr. cbn [outcome_bind].
    by rewrite (decode_scalar_stores _ s bs v).
  - intros Ht. destruct (read_raw send c meta) as [raw|e| |]; try done; simpl; [|by exists e].
    unfold decode_scalar. rewrite Ht. by eexists.
Qed.

(** ** The loop *)

Section PollTheorems.
Context `{Ext : External}.
Variable def : CustomMetricDef.

Abbreviation turn := (outcome ClientError PlcValue * DateTime * send_result)%type.

(** Reference: the entries of the successful reads that the channel took, up to
    the one that found it closed. *)
Fixpoint expected_entries (l : list turn) : list MetricEntry :=
  match l with
  | [] => []
  | (Ok v, now, SentOk) :: l => build_metric_entry now def v :: expected_entries l
  | (Ok _, _, SentClosed) :: _ => []
  | _ :: l => expected_entries l
  end.

(** Reference: the sleeps; [k] reads have failed in a row. *)
Fixpoint expected_sleeps (k : nat) (l : list turn) : list Z :=
  match l with
  | [] => []
  | (Ok _, _, SentClosed) :: _ => []
  | (Ok _, _, _) :: l => expected_sleeps 0 l
  | _ :: l => Z.min (BACKOFF_INITIAL * 2 ^ Z.of_nat k) BACKOFF_MAX :: expected_sleeps (S k) l
  end.

Definition poll_step (s : PollLoop) (t : turn) : PollLoop := poll_turn def t.1.1 t.1.2 t.2 s.

Lemma poll_stopped l s : pl_stopped s = true -> foldl poll_step s l = s.
Proof.
  intros Hs. induction l as [|t l IH]; [done|]. simpl. unfold poll_step at 2, poll_turn. by rewrite Hs, IH.
Qed.

Lemma backoff_doubles k :
  Z.min (Z.min (BACKOFF_INITIAL * 2 ^ Z.of_nat k) BACKOFF_MAX * 2) BACKOFF_MAX =
  Z.min (BACKOFF_INITIAL * 2 ^ Z.of_nat (S k)) BACKOFF_MAX.
Proof.
  rewrite Nat2Z.inj_succ, Z.pow_succ_r by lia. unfold BACKOFF_INITIAL, BACKOFF_MAX.
  assert (0 < 2 ^ Z.of_nat k) by (apply Z.pow_pos_nonneg; lia). lia.
Qed.

Lemma poll_run_from l : forall k sleeps emitted,
  let s := foldl poll_step
             (mkPollLoop (Z.min (BACKOFF_INITIAL * 2 ^ Z.of_nat k) BACKOFF_MAX) sleeps emitted false) l in
  pl_emitted s = emitted ++ expected_entries l /\ pl_sleeps s = sleeps ++ expected_sleeps k l.
Proof.
  induction l as [|[[r now] ch] l IH]; intros k sleeps emitted; [by rewrite !app_nil_r|]. cbn [foldl].
  assert (Hinit : BACKOFF_INITIAL = Z.min (BACKOFF_INITIAL * 2 ^ Z.of_nat 0) BACKOFF_MAX) by done.
  set (s := poll_step _ _). destruct r as [v|e| |].
  2-4: assert (Hs : s = mkPollLoop (Z.min (BACKOFF_INITIAL * 2 ^ Z.of_nat (S k)) BACKOFF_MAX)
         (sleeps ++ [Z.min (BACKOFF_INITIAL * 2 ^ Z.of_nat k) BACKOFF_MAX]) emitted false)
         by (rewrite <- backoff_doubles; done);
       destruct (IH (S k) (sleeps ++ [Z.min (BACKOFF_INITIAL * 2 ^ Z.of_nat k) BACKOFF_MAX]) emitted) as [He Hl];
       rewrite Hs, He, Hl, <- app_assoc; done.
  destruct ch; cbn [expected_entries expected_sleeps].
  - destruct (IH 0%nat sleeps (emitted ++ [build_metric_entry now def v])) as [He Hl].
    rewrite <- Hinit in He, Hl. split; [|exact Hl]. rewrite <- app_assoc in He. exact He.
  - destruct (IH 0%nat sleeps emitted) as [He Hl]. rewrite <- Hinit in He, Hl. by split.
  - rewrite poll_stopped by done. by rewrite !app_nil_r.
Qed.

(** The polling loop survives failures and emits what was read. Over any
    sequence of turns the entries sent are those of the successful reads, in
    order, until the channel is found closed; a failed read (or one whose task
    panicked) emits nothing and only sleeps: 250 ms after the first failure,
    twice as long after each further one in a row, at most 30 s, and from
    250 ms again after a success. *)
Theorem poll_run l :
  let s := foldl poll_step PollLoop_new l in
  pl_emitted s = expected_entries l /\ pl_sleeps s = expected_sleeps 0 l.
Proof. apply (poll_run_from l 0%nat [] []). Qed.

End PollTheorems.
