(* ===== verification/Notify.v ===== *)
(** * Notifications (crates/tc-otel-client: notify.rs)

    Subscriptions to symbols: their attributes and wire form, the frames of
    samples a PLC sends, and the notifier that keeps subscriptions in line
    with the configuration. The source's trait [NotificationBackend] is a
    class with laws; the implementation on top of the dispatcher discharges
    them for a PLC that answers as ADS documents. *)

From S2P Require Import Prelude.
From S2P Require Import Text.
From S2P Require Import External.
From S2P Require Import Ams.
From S2P Require Import Models.
From S2P Require Import Router.
From S2P Require Import AmsDispatcher.
From S2P Require Import Browse.
From S2P Require Import MetricMapper.
From S2P Require Import Poll.

(** ** Attributes *)

#[global] Instance NotificationTransmissionMode_eq_dec : EqDecision NotificationTransmissionMode.
Proof. solve_decision. Defined.

(** Durations are in milliseconds: the source makes them from whole ones. *)
Record NotifAttrs := mkAttrs {
  na_length : Z;
  na_trans_mode : NotificationTransmissionMode;
  na_max_delay : Z;
  na_cycle_time : Z;
}.

#[global] Instance NotifAttrs_eq_dec : EqDecision NotifAttrs.
Proof. solve_decision. Defined.

Definition NotifAttrs_from_def (def : CustomMetricDef) (size : Z) : ClientError + NotifAttrs :=
  match cm_notification def with
  | None => inl (Decode ("metric '" +:+ cm_metric_name def +:+
                         "' has source=notification but no notification config"))
  | Some cfg =>
    inr (mkAttrs size (nc_transmission_mode cfg) (nc_max_delay_ms cfg) (Z.max (nc_min_period_ms cfg) 10))
  end.

Definition trans_mode_code (m : NotificationTransmissionMode) : Z :=
  match m with OnChange => 4 | Cyclic => 3 end.

(** [(d.as_nanos() / 100) as u32]. *)
Definition to_100ns (ms : Z) : Z := wrap 32 (ms * 1000000 / 100).

Definition serialize_tail (a : NotifAttrs) : bytes :=
  le_encode 4 (trans_mode_code (na_trans_mode a)) ++ le_encode 4 (to_100ns (na_max_delay a)) ++
  le_encode 4 (to_100ns (na_cycle_time a)) ++ zeros 16.

(** ** Frames of samples *)

(** [for _ in 0..nsamples] of one stamp: the samples read and the offset
    behind them. *)
Fixpoint notif_samples (n : nat) (data : bytes) (offset : nat)
    : outcome Empty_set (list (Z * bytes) * nat) :=
  match n with
  | O => Ok ([], offset)
  | S n =>
    if (length data <? offset + 8)%nat then Ok ([], offset)
    else
      (handle <-- le_or_panic data offset (offset + 4) ;;
       sample_size <-- le_or_panic data (offset + 4) (offset + 8) ;;
       let offset := (offset + 8)%nat in
       let size := Z.to_nat sample_size in
       if (length data <? offset + size)%nat then Ok ([], offset)
       else
         raw <-- slice_or_panic data offset (offset + size) ;;
         rest <-- notif_samples n data (offset + size) ;;
         Ok ((handle, raw) :: rest.1, rest.2))%rust
  end.

(** [for _ in 0..nstamps]. *)
Fixpoint notif_stamps (n : nat) (data : bytes) (offset : nat) : outcome Empty_set (list (Z * bytes)) :=
  match n with
  | O => Ok []
  | S n =>
    if (length data <? offset + 12)%nat then Ok []
    else
      (nsamples <-- le_or_panic data (offset + 8) (offset + 12) ;;
       out <-- notif_samples (Z.to_nat nsamples) data (offset + 12) ;;
       rest <-- notif_stamps n data out.2 ;;
       Ok (out.1 ++ rest))%rust
  end.

Definition parse_notification_payload (data : bytes) : outcome Empty_set (list (Z * bytes)) :=
  if (length data <? 8)%nat then Ok []
  else
    (nstamps <-- le_or_panic data 4 8 ;;
     notif_stamps (Z.to_nat nstamps) data 8)%rust.

(** [NotificationSink::deliver]; [tx] is the unbounded std channel. *)
Definition NotificationSink_deliver (h : AmsHeader) (payload : bytes) (tx : list (list (Z * bytes)))
    : outcome Empty_set (list (list (Z * bytes))) :=
  if negb (command_id h =? ADS_CMD_NOTIFICATION) then Ok tx
  else
    (samples <-- parse_notification_payload payload ;;
     Ok (match samples with [] => tx | _ => tx ++ [samples] end))%rust.

(** ** Backends *)

Class NotificationBackend := {
  BackendState : Type;
  backend_subscribe : NotifAttrs -> SymbolMeta -> BackendState -> BackendState * (ClientError + Z);
  backend_unsubscribe : Z -> BackendState -> BackendState * (ClientError + unit);
}.

(** What a backend promises, in terms of the handles that are active: a new
    subscription gets a handle of its own, an ended one is gone, and a call
    that fails leaves the other handles as they were. *)
Class BackendLaws (NB : NotificationBackend) := {
  active : BackendState -> gset Z;
  subscribe_ok : forall a m b b' h,
    backend_subscribe a m b = (b', inr h) -> (h ∉ active b) /\ (active b' = {[h]} ∪ active b);
  subscribe_err : forall a m b b' e,
    backend_subscribe a m b = (b', inl e) -> active b ⊆ active b';
  unsubscribe_any : forall h b b' r,
    h ∈ active b -> backend_unsubscribe h b = (b', r) -> active b ∖ {[h]} ⊆ active b';
}.

(** ** The notifier *)

Section Notifier.
Context `{Ext : External} `{MP : Mpsc} `{NB : NotificationBackend}.

Record Subscription := mkSub {
  su_def : CustomMetricDef;
  su_meta : SymbolMeta;
  su_attrs : NotifAttrs;
}.

Record Notifier := mkNotifier {
  nf_backend : BackendState;
  nf_tx : Sender MetricEntry;
  nf_subs : gmap Z Subscription;
  nf_by_symbol : gmap string Z;
}.

Definition Notifier_new (backend : BackendState) (tx : Sender MetricEntry) : Notifier :=
  mkNotifier backend tx ∅ ∅.

(** Operations change the notifier and may fail; a failure keeps the changes
    made so far. *)
Definition NM (A : Type) : Type := Notifier -> Notifier * (ClientError + A).

Definition nm_ret {A} (a : A) : NM A := fun n => (n, inr a).

Definition nm_bind {A B} (m : NM A) (f : A -> NM B) : NM B := fun n =>
  match m n with
  | (n, inr a) => f a n
  | (n, inl e) => (n, inl e)
  end.

Definition subscribe (def : CustomMetricDef) (meta : SymbolMeta) : NM Z := fun n =>
  match NotifAttrs_from_def def (sm_size meta) with
  | inl e => (n, inl e)
  | inr attrs =>
    match backend_subscribe attrs meta (nf_backend n) with
    | (b, inl e) => (mkNotifier b (nf_tx n) (nf_subs n) (nf_by_symbol n), inl e)
    | (b, inr handle) =>
      (mkNotifier b (nf_tx n) (<[handle := mkSub def meta attrs]> (nf_subs n))
         (<[cm_symbol def := handle]> (nf_by_symbol n)), inr handle)
    end
  end.

Definition unsubscribe (handle : Z) : NM unit := fun n =>
  let by_symbol := match nf_subs n !! handle with
                   | Some sub => delete (cm_symbol (su_def sub)) (nf_by_symbol n)
                   | None => nf_by_symbol n
                   end in
  let '(b, r) := backend_unsubscribe handle (nf_backend n) in
  (mkNotifier b (nf_tx n) (delete handle (nf_subs n)) by_symbol, r).

(** *** Reconciliation *)

Abbreviation wanted := (CustomMetricDef * SymbolMeta * NotifAttrs)%type.

(** The desired subscriptions by symbol; a later definition replaces an earlier
    one, and one without settings fails the whole. *)
Fixpoint desired_map (desired : list (CustomMetricDef * SymbolMeta)) (m : gmap string wanted)
    : ClientError + gmap string wanted :=
  match desired with
  | [] => inr m
  | (def, meta) :: desired =>
    match NotifAttrs_from_def def (sm_size meta) with
    | inl e => inl e
    | inr attrs => desired_map desired (<[cm_symbol def := (def, meta, attrs)]> m)
    end
  end.

(** The snapshot of the current state. *)
Definition current (n : Notifier) : gmap string (Z * NotifAttrs) :=
  omap (fun h => (fun s => (h, su_attrs s)) <$> nf_subs n !! h) (nf_by_symbol n).

Record ReconcileReport := mkReport {
  rr_added : list string;
  rr_removed : list string;
  rr_changed : list string;
}.

(** Pass 1 on one subscription; the desired map, the removed symbols and the
    changed ones are threaded through. *)
Definition pass1_one (acc : gmap string wanted * list string * gset string)
    (sub : string * (Z * NotifAttrs)) : NM (gmap string wanted * list string * gset string) :=
  let '(desired, removed, changed) := acc in
  let '(sym, (handle, old_attrs)) := sub in
  match desired !! sym with
  | None => nm_bind (unsubscribe handle) (fun _ => nm_ret (desired, removed ++ [sym], changed))
  | Some w =>
    if decide (w.2 = old_attrs) then nm_ret (delete sym desired, removed, changed)
    else nm_bind (unsubscribe handle) (fun _ => nm_ret (desired, removed, {[sym]} ∪ changed))
  end.

Fixpoint pass1 (subs : list (string * (Z * NotifAttrs)))
    (acc : gmap string wanted * list string * gset string)
    : NM (gmap string wanted * list string * gset string) :=
  match subs with
  | [] => nm_ret acc
  | sub :: subs => nm_bind (pass1_one acc sub) (pass1 subs)
  end.

(** Pass 2: what is left in the desired map. *)
Fixpoint pass2 (todo : list (string * wanted)) (changed_syms : gset string) (added changed : list string)
    : NM (list string * list string) :=
  match todo with
  | [] => nm_ret (added, changed)
  | (sym, (def, meta, _)) :: todo =>
    nm_bind (subscribe def meta) (fun _ =>
      if decide (sym ∈ changed_syms) then pass2 todo changed_syms added (changed ++ [sym])
      else pass2 todo changed_syms (added ++ [sym]) changed)
  end.

(** The orders in which the two hash maps are iterated. *)
Variable iter_current : gmap string (Z * NotifAttrs) -> list (string * (Z * NotifAttrs)).
Variable iter_desired : gmap string wanted -> list (string * wanted).

Definition reconcile (desired : list (CustomMetricDef * SymbolMeta)) : NM ReconcileReport := fun n =>
  match desired_map desired ∅ with
  | inl e => (n, inl e)
  | inr m =>
    nm_bind (pass1 (iter_current (current n)) (m, [], ∅)) (fun '(m, removed, changed_syms) =>
    nm_bind (pass2 (iter_desired m) changed_syms [] []) (fun '(added, changed) =>
    nm_ret (mkReport added removed changed))) n
  end.

(** [dispatch_sample]: the entry of [build_metric_entry] with another source. *)
Definition with_source (src : string) (m : MetricEntry) : MetricEntry :=
  {| me_name := me_name m; me_description := me_description m; me_unit := me_unit m; me_kind := me_kind m;
     me_value := me_value m; me_timestamp := me_timestamp m; me_source := src;
     me_hostname := me_hostname m; me_ams_net_id := me_ams_net_id m;
     me_ams_source_port := me_ams_source_port m; me_ams_app_port := me_ams_app_port m;
     me_task_index := me_task_index m; me_task_name := me_task_name m;
     me_task_cycle_counter := me_task_cycle_counter m; me_app_name := me_app_name m;
     me_project_name := me_project_name m; me_scope_namespace := me_scope_namespace m;
     me_attributes := me_attributes m; me_histogram_bounds := me_histogram_bounds m;
     me_histogram_counts := me_histogram_counts m; me_histogram_count := me_histogram_count m;
     me_histogram_sum := me_histogram_sum m; me_is_monotonic := me_is_monotonic m;
     me_trace_id := me_trace_id m; me_span_id := me_span_id m |}.

Definition dispatch_sample (now : DateTime) (handle : Z) (data : bytes) (n : Notifier) : Notifier :=
  match nf_subs n !! handle with
  | None => n
  | Some sub =>
    match decode_scalar (sm_type_name (su_meta sub)) data with
    | None => n
    | Some value =>
      mkNotifier (nf_backend n)
        (try_send (nf_tx n) (with_source "client-notify" (build_metric_entry now (su_def sub) value))).1
        (nf_subs n) (nf_by_symbol n)
    end
  end.

(** One batch in the loop of [spawn_dispatcher]. *)
Definition dispatch_batch (now : DateTime) (samples : list (Z * bytes)) (n : Notifier) : Notifier :=
  foldl (fun n s => dispatch_sample now s.1 s.2 n) n samples.

(** What the std channel of batches says to [recv_timeout]. *)
Inductive received :=
| Received (samples : list (Z * bytes))
| RecvTimeout
| RecvDisconnected.

(** [DispatcherNotificationBackend::recv_timeout]: a timeout is an empty batch,
    [None] ends the loop. *)
Definition recv_timeout (r : received) : option (list (Z * bytes)) :=
  match r with
  | Received samples => Some samples
  | RecvTimeout => Some []
  | RecvDisconnected => None
  end.

(** The loop of [spawn_dispatcher] over what its calls of [recv_timeout] meet. *)
Fixpoint dispatcher_loop (turns : list (DateTime * received)) (n : Notifier) : Notifier :=
  match turns with
  | [] => n
  | (now, r) :: turns =>
    match recv_timeout r with
    | Some samples => dispatcher_loop turns (dispatch_batch now samples n)
    | None => n
    end
  end.

End Notifier.

(** ** Frames of samples *)

Definition encode_sample (s : Z * bytes) : bytes := le_encode 4 s.1 ++ le_encode 4 (len s.2) ++ s.2.

Definition encode_stamp (st : Z * list (Z * bytes)) : bytes :=
  le_encode 8 st.1 ++ le_encode 4 (Z.of_nat (length st.2)) ++ mjoin (map encode_sample st.2).

(** The body of a notification frame in the documented layout. *)
Definition encode_notification (total : Z) (stamps : list (Z * list (Z * bytes))) : bytes :=
  le_encode 4 total ++ le_encode 4 (Z.of_nat (length stamps)) ++ mjoin (map encode_stamp stamps).

Definition wf_sample (s : Z * bytes) : Prop := in_width 32 s.1 /\ in_width 32 (len s.2).

Definition wf_stamp (st : Z * list (Z * bytes)) : Prop :=
  in_width 32 (Z.of_nat (length st.2)) /\ Forall wf_sample st.2.

Lemma le_at {E} pre post k v off :
  in_width (8 * Z.of_nat k) v -> off = length pre ->
  le_or_panic (E:=E) (pre ++ le_encode k v ++ post) off (off + k) = Ok v.
Proof. intros Hv Hoff. by apply le_word_at. Qed.

Lemma slice_at_piece {E} (pre x post : bytes) a b :
  a = length pre -> b = (length pre + length x)%nat ->
  slice_or_panic (E:=E) (pre ++ x ++ post) a b = Ok x.
Proof.
  intros -> ->. unfold slice_or_panic. by rewrite (slice_at_app pre x post).
Qed.

Lemma notif_samples_encode l pre post :
  Forall wf_sample l ->
  notif_samples (length l) (pre ++ mjoin (map encode_sample l) ++ post) (length pre) =
  Ok (l, (length pre + length (mjoin (map encode_sample l)))%nat).
Proof.
  intros Hl. revert pre. induction Hl as [|[h raw] l [Hh Hr] Hl IH]; intros pre.
  { cbn. by rewrite Nat.add_0_r. }
  cbn [notif_samples length map].
  change (mjoin (encode_sample (h, raw) :: map encode_sample l)) with
    (encode_sample (h, raw) ++ mjoin (map encode_sample l)).
  set (rest := mjoin (map encode_sample l)) in *. unfold encode_sample. cbn [fst snd] in *.
  rewrite (proj2 (Nat.ltb_ge _ _)) by (rewrite !length_app, !length_le_encode; lia).
  rewrite <- !app_assoc, le_at by done. cbn [outcome_bind].
  assert (Hsize : le_or_panic (E:=Empty_set) (pre ++ le_encode 4 h ++ le_encode 4 (len raw) ++ raw ++ rest ++ post)
    (length pre + 4) (length pre + 8) = Ok (len raw)).
  { rewrite (app_assoc pre). replace (length pre + 8)%nat with (length pre + 4 + 4)%nat by lia.
    apply le_at; [done|]. by rewrite length_app, length_le_encode. }
  rewrite Hsize. cbn [outcome_bind]. unfold len. rewrite Nat2Z.id. fold (len raw).
  rewrite (proj2 (Nat.ltb_ge _ _)) by (rewrite !length_app, !length_le_encode; lia).
  rewrite (app_assoc pre), (app_assoc (pre ++ _)).
  rewrite slice_at_piece by (rewrite !length_app, !length_le_encode; lia). cbn [outcome_bind].
  rewrite (app_assoc _ raw).
  replace (length pre + 8 + length raw)%nat with (length (((pre ++ le_encode 4 h) ++ le_encode 4 (len raw)) ++ raw))
    by (rewrite !length_app, !length_le_encode; lia).
  rewrite IH. cbn [outcome_bind fst snd]. f_equal. f_equal.
  rewrite !length_app, !length_le_encode. lia.
Qed.

Lemma notif_stamps_encode stamps pre post :
  Forall wf_stamp stamps ->
  notif_stamps (length stamps) (pre ++ mjoin (map encode_stamp stamps) ++ post) (length pre) =
  Ok (concat stamps.*2).
Proof.
  intros Hl. revert pre. induction Hl as [|[ts l] stamps [Hn Hl] Hs IH]; intros pre; [done|].
  cbn [notif_stamps length map fmap list_fmap concat snd].
  change (mjoin (encode_stamp (ts, l) :: map encode_stamp stamps)) with
    (encode_stamp (ts, l) ++ mjoin (map encode_stamp stamps)).
  set (rest := mjoin (map encode_stamp stamps)) in *. unfold encode_stamp. cbn [fst snd] in *.
  rewrite (proj2 (Nat.ltb_ge _ _)) by (rewrite !length_app, !length_le_encode; lia).
  rewrite <- !app_assoc.
  assert (Hcount : le_or_panic (E:=Empty_set) (pre ++ le_encode 8 ts ++ le_encode 4 (Z.of_nat (length l)) ++
    mjoin (map encode_sample l) ++ rest ++ post) (length pre + 8) (length pre + 12) = Ok (Z.of_nat (length l))).
  { rewrite (app_assoc pre). replace (length pre + 12)%nat with (length pre + 8 + 4)%nat by lia.
    apply le_at; [done|]. by rewrite length_app, length_le_encode. }
  rewrite Hcount. cbn [outcome_bind]. rewrite Nat2Z.id, (app_assoc pre), (app_assoc (pre ++ _)).
  replace (length pre + 12)%nat with (length ((pre ++ le_encode 8 ts) ++ le_encode 4 (Z.of_nat (length l))))
    by (rewrite !length_app, !length_le_encode; lia).
  rewrite notif_samples_encode by done. cbn [outcome_bind fst snd].
  rewrite (app_assoc _ (mjoin (map encode_sample l))), <- length_app, IH. done.
Qed.

Lemma notification_roundtrip_eq total stamps post :
  in_width 32 total -> in_width 32 (Z.of_nat (length stamps)) -> Forall wf_stamp stamps ->
  parse_notification_payload (encode_notification total stamps ++ post) = Ok (concat stamps.*2).
Proof.
  intros Ht Hn Hs. unfold parse_notification_payload, encode_notification.
  rewrite (proj2 (Nat.ltb_ge _ _)) by (rewrite !length_app, !length_le_encode; lia).
  rewrite <- !app_assoc.
  assert (Hc : le_or_panic (E:=Empty_set) (le_encode 4 total ++ le_encode 4 (Z.of_nat (length stamps)) ++
    mjoin (map encode_stamp stamps) ++ post) 4 8 = Ok (Z.of_nat (length stamps))).
  { apply (le_at (le_encode 4 total) _ 4); [done|]. by rewrite length_le_encode. }
  rewrite Hc. cbn [outcome_bind]. rewrite Nat2Z.id, (app_assoc (le_encode 4 total)).
  replace 8%nat with (length (le_encode 4 total ++ le_encode 4 (Z.of_nat (length stamps))))
    by (rewrite !length_app, !length_le_encode; lia).
  by rewrite notif_stamps_encode.
Qed.

(** Every sample of a notification frame arrives. For a frame in the
    documented layout, whatever its total length says and whatever bytes
    follow, the parser returns the samples of all stamps in order, each with
    its handle and its bytes. *)
Theorem notification_roundtrip total stamps post :
  in_width 32 total -> in_width 32 (Z.of_nat (length stamps)) -> Forall wf_stamp stamps ->
  parse_notification_payload (encode_notification total stamps ++ post) = Ok (concat stamps.*2).
Proof. apply notification_roundtrip_eq. Qed.

(** The bytes of a sample stand in the frame. *)
Definition piece_of (data : bytes) (s : Z * bytes) : Prop :=
  exists off, (off + length s.2 <= length data)%nat /\ take (length s.2) (drop off data) = s.2.

Definition samples_size (l : list (Z * bytes)) : nat := sum_list_with (fun s => 8 + length s.2)%nat l.

Lemma notif_samples_bounds n data : forall off,
  (off <= length data)%nat ->
  exists l off', notif_samples n data off = Ok (l, off') /\
    (off + samples_size l <= off' <= length data)%nat /\ Forall (piece_of data) l.
Proof.
  induction n as [|n IH]; intros off Hoff; cbn [notif_samples].
  { exists [], off. split_and!; [done|simpl; lia..|constructor]. }
  destruct (Nat.ltb_spec (length data) (off + 8)) as [Hs|Hl].
  { exists [], off. split_and!; [done|simpl; lia..|constructor]. }
  rewrite !le_or_panic_spec by lia. cbn [outcome_bind].
  set (size := Z.to_nat _). destruct (Nat.ltb_spec (length data) (off + 8 + size)) as [Ht|Hfit].
  { exists [], (off + 8)%nat. split_and!; [done|simpl; lia..|constructor]. }
  rewrite slice_or_panic_spec by lia. cbn [outcome_bind].
  destruct (IH (off + 8 + size)%nat) as (l & off' & -> & Hsum & Hp); [lia|]. cbn [outcome_bind fst snd].
  set (raw := take (off + 8 + size - (off + 8)) (drop (off + 8) data)).
  assert (Hraw : length raw = size) by (unfold raw; rewrite length_take, length_drop; lia).
  eexists _, off'. split; [done|]. split; [simpl; lia|]. constructor; [|done].
  exists (off + 8)%nat. cbn [snd]. rewrite Hraw. split; [lia|]. unfold raw.
  by rewrite (Nat.add_comm (off + 8) size), Nat.add_sub.
Qed.

Lemma notif_stamps_bounds n data : forall off,
  (off <= length data)%nat ->
  exists l, notif_stamps n data off = Ok l /\ (off + samples_size l <= length data)%nat /\
    Forall (piece_of data) l.
Proof.
  induction n as [|n IH]; intros off Hoff; cbn [notif_stamps].
  { exists []. split_and!; [done|simpl; lia|constructor]. }
  destruct (Nat.ltb_spec (length data) (off + 12)) as [Hs|Hl].
  { exists []. split_and!; [done|simpl; lia|constructor]. }
  rewrite le_or_panic_spec by lia. cbn [outcome_bind].
  destruct (notif_samples_bounds (Z.to_nat (le_decode (take (off + 12 - (off + 8)) (drop (off + 8) data)))) data
    (off + 12)) as (l & off' & -> & Hsum & Hp); [lia|]. cbn [outcome_bind fst snd].
  destruct (IH off') as (l' & -> & Hsum' & Hp'); [lia|]. cbn [outcome_bind].
  exists (l ++ l'). split; [done|]. split; [|by apply Forall_app].
  unfold samples_size in *. rewrite sum_list_with_app. lia.
Qed.

(** C38: No frame hurts the client. Whatever bytes a PLC sends, and whatever
    counts and sizes they announce, parsing ends without a panic, every sample
    is a piece of the frame, and together with their headers the samples are
    not longer than the frame. *)
Theorem notification_bounds data :
  exists l, parse_notification_payload data = Ok l /\ (samples_size l <= length data)%nat /\
    Forall (piece_of data) l.
Proof.
  unfold parse_notification_payload. destruct (Nat.ltb_spec (length data) 8) as [Hs|Hl].
  { exists []. split_and!; [done|simpl; lia|constructor]. }
  rewrite le_or_panic_spec by lia. cbn [outcome_bind].
  destruct (notif_stamps_bounds (Z.to_nat (le_decode (take (8 - 4) (drop 4 data)))) data 8) as (l & -> & ? & ?);
    [lia|]. exists l. split_and!; [done|lia|done].
Qed.

(** A sample whose announced size is not there ends only its own stamp: the
    parser goes on behind the sample's header, so the bytes that are there are
    taken for the next stamp and can yield a sample of any handle. *)
Lemma truncated_sample_misread :
  parse_notification_payload
    (le_encode 4 0 ++ le_encode 4 2 ++
     le_encode 8 0 ++ le_encode 4 1 ++ le_encode 4 1 ++ le_encode 4 100 ++
     (zeros 8 ++ le_encode 4 1 ++ le_encode 4 77 ++ le_encode 4 2 ++ [5; 6])) = Ok [(77, [5; 6])].
Proof. by vm_compute. Qed.

(** ** Keeping subscriptions in line *)

Section NotifierTheorems.
Context `{Ext : External} `{MP : Mpsc} `{NB : NotificationBackend} {NL : BackendLaws NB}.

(** The subscriptions by symbol. *)
Definition entries (n : Notifier) : gmap string (Z * Subscription) :=
  omap (fun h => (fun s => (h, s)) <$> nf_subs n !! h) (nf_by_symbol n).

(** The two tables agree, every subscription is active at the PLC, and its
    attributes are those of its definition. *)
Record notifier_inv (n : Notifier) : Prop := {
  ni_index : forall sym h,
    nf_by_symbol n !! sym = Some h <-> exists s, nf_subs n !! h = Some s /\ cm_symbol (su_def s) = sym;
  ni_active : dom (nf_subs n) ⊆ active (nf_backend n);
  ni_attrs : forall h s, nf_subs n !! h = Some s ->
    NotifAttrs_from_def (su_def s) (sm_size (su_meta s)) = inr (su_attrs s);
}.

Lemma entries_lookup n sym h s :
  entries n !! sym = Some (h, s) <-> nf_by_symbol n !! sym = Some h /\ nf_subs n !! h = Some s.
Proof.
  unfold entries. rewrite lookup_omap, bind_Some. split.
  - intros (h' & Hh & He). apply fmap_Some in He as (s' & Hs & [= -> ->]). done.
  - intros [Hh Hs]. exists h. by rewrite Hs.
Qed.

Lemma current_entries n : current n = (fun e => (e.1, su_attrs e.2)) <$> entries n.
Proof.
  apply map_eq. intros sym. unfold current, entries. rewrite lookup_fmap, !lookup_omap.
  destruct (nf_by_symbol n !! sym) as [h|]; simpl; [|done]. by destruct (nf_subs n !! h).
Qed.

Lemma new_inv b tx : notifier_inv (Notifier_new b tx).
Proof.
  split; simpl; [|set_solver|intros h s; by rewrite lookup_empty].
  intros sym h. rewrite lookup_empty. split; [done|]. intros (s & Hs & _). by rewrite lookup_empty in Hs.
Qed.

(** What ending a subscription does, whether or not the PLC agreed. *)
Lemma unsubscribe_spec n n' r sym h s :
  notifier_inv n -> entries n !! sym = Some (h, s) -> unsubscribe h n = (n', r) ->
  notifier_inv n' /\ entries n' = delete sym (entries n).
Proof using NL.
  intros [Hix Hact Hat] [Hh Hs]%entries_lookup. unfold unsubscribe. rewrite Hs.
  assert (Hsym : cm_symbol (su_def s) = sym).
  { apply Hix in Hh as (s' & Hs' & <-). by simplify_eq. }
  destruct (backend_unsubscribe h (nf_backend n)) as [b r0] eqn:Hb. intros [= <- <-].
  apply unsubscribe_any in Hb; [|apply Hact, elem_of_dom; by exists s]. rewrite Hsym.
  assert (Hne : forall sym' h', sym' <> sym -> nf_by_symbol n !! sym' = Some h' -> h' <> h).
  { intros sym' h' Hd (s' & Hs' & <-)%Hix ->. simplify_eq. }
  split.
  - split; simpl.
    + intros sym' h'. rewrite lookup_delete_Some, Hix. setoid_rewrite lookup_delete_Some. split.
      * intros [Hd (s' & Hs' & <-)]. exists s'. split_and!; [|done|done].
        intros <-. simplify_eq.
      * intros (s' & [Hd Hs'] & Hsym'). split; [|by exists s'].
        intros <-. rewrite <- Hsym in Hsym'.
        assert (nf_by_symbol n !! cm_symbol (su_def s) = Some h') by (apply Hix; by exists s'). congruence.
    + rewrite dom_delete_L. set_solver.
    + intros h' s' [_ Hs']%lookup_delete_Some. by eapply Hat.
  - apply map_eq. intros sym'. unfold entries. cbn [nf_by_symbol nf_subs]. rewrite lookup_omap.
    destruct (decide (sym' = sym)) as [->|Hd]; [by rewrite !lookup_delete_eq|].
    rewrite !lookup_delete_ne, lookup_omap by done.
    destruct (nf_by_symbol n !! sym') as [h'|] eqn:Hh'; simpl; [|done].
    rewrite lookup_delete_ne; [done|]. intros ->. by apply (Hne sym' h').
Qed.

(** What a new subscription does to a symbol that has none. *)
Lemma subscribe_spec n n' r def meta attrs :
  notifier_inv n -> entries n !! cm_symbol def = None ->
  NotifAttrs_from_def def (sm_size meta) = inr attrs -> subscribe def meta n = (n', r) ->
  notifier_inv n' /\
  entries n' = match r with
               | inr h => <[cm_symbol def := (h, mkSub def meta attrs)]> (entries n)
               | inl _ => entries n
               end.
Proof using NL.
  intros [Hix Hact Hat] Hnone Hfrom. unfold subscribe. rewrite Hfrom.
  destruct (backend_subscribe attrs meta (nf_backend n)) as [b [e|h]] eqn:Hb; intros [= <- <-].
  - apply subscribe_err in Hb. split; [|done]. split; simpl; [done|set_solver|done].
  - apply subscribe_ok in Hb as [Hfresh Hb].
    assert (Hh : nf_subs n !! h = None) by (apply not_elem_of_dom; set_solver).
    assert (Hsym : nf_by_symbol n !! cm_symbol def = None).
    { destruct (nf_by_symbol n !! cm_symbol def) as [h'|] eqn:E; [|done].
      pose proof E as (s' & Hs' & _)%Hix. unfold entries in Hnone. rewrite lookup_omap, E in Hnone.
      simpl in Hnone. by rewrite Hs' in Hnone. }
    split.
    + split; simpl.
      * intros sym' h'. rewrite lookup_insert_Some, Hix. setoid_rewrite lookup_insert_Some. split.
        -- intros [[<- <-]|[Hd (s' & Hs' & <-)]]; [eexists; split; [by left|done]|].
           exists s'. split; [|done]. right. split; [|done]. intros <-. congruence.
        -- intros (s' & [[<- <-]|[Hd Hs']] & <-); [by left|]. right. split; [|by exists s'].
           intros Heq. assert (nf_by_symbol n !! cm_symbol (su_def s') = Some h') by (apply Hix; by exists s').
           congruence.
      * rewrite dom_insert_L. set_solver.
      * intros h' s' [[<- <-]|[_ Hs']]%lookup_insert_Some; [done|by eapply Hat].
    + apply map_eq. intros sym'. unfold entries. cbn [nf_by_symbol nf_subs]. rewrite lookup_omap.
      destruct (decide (sym' = cm_symbol def)) as [->|Hd].
      * rewrite !lookup_insert_eq. simpl. by rewrite lookup_insert_eq.
      * rewrite !lookup_insert_ne, lookup_omap by done.
        destruct (nf_by_symbol n !! sym') as [h'|] eqn:Hh'; simpl; [|done].
        apply Hix in Hh' as (s' & Hs' & _). rewrite lookup_insert_ne by congruence. done.
Qed.

Abbreviation wanted := (CustomMetricDef * SymbolMeta * NotifAttrs)%type.

(** What pass 1 decides about a symbol, from the desired map and the old
    attributes. *)
Inductive verdict := Keep | Change | Remove.

Definition verdict_of (m : gmap string wanted) (sym : string) (a : NotifAttrs) : verdict :=
  match m !! sym with
  | None => Remove
  | Some w => if decide (w.2 = a) then Keep else Change
  end.

Abbreviation pass_state := (gmap string wanted * list string * gset string)%type.

Lemma pass1_one_spec n n1 r sym h s (acc : pass_state) :
  notifier_inv n -> entries n !! sym = Some (h, s) ->
  pass1_one acc (sym, (h, su_attrs s)) n = (n1, r) ->
  notifier_inv n1 /\ (forall k, k <> sym -> entries n1 !! k = entries n !! k) /\
  forall acc1, r = inr acc1 ->
    (forall k, k <> sym -> acc1.1.1 !! k = acc.1.1 !! k) /\
    match verdict_of acc.1.1 sym (su_attrs s) with
    | Keep => entries n1 !! sym = Some (h, s) /\ acc1.1.1 !! sym = None /\
              acc1.1.2 = acc.1.2 /\ acc1.2 = acc.2
    | Change => entries n1 !! sym = None /\ acc1.1.1 !! sym = acc.1.1 !! sym /\
                acc1.1.2 = acc.1.2 /\ acc1.2 = {[sym]} ∪ acc.2
    | Remove => entries n1 !! sym = None /\ acc1.1.1 !! sym = None /\
                acc1.1.2 = acc.1.2 ++ [sym] /\ acc1.2 = acc.2
    end.
Proof using NL.
  intros Hinv Hs. destruct acc as [[m removed] changed]. unfold pass1_one, verdict_of, nm_bind, nm_ret.
  cbn [fst snd]. destruct (m !! sym) as [w|] eqn:Hm; [destruct (decide (w.2 = su_attrs s)) as [Heq|Hne]|].
  - intros [= <- <-]. split_and!; [done..|]. intros acc1 [= <-]. cbn [fst snd].
    split; [intros k Hk; by rewrite lookup_delete_ne|]. split_and!; [done| |done|done]. apply lookup_delete_eq.
  - destruct (unsubscribe h n) as [n2 [e|[]]] eqn:Hu; intros [= <- <-];
      destruct (unsubscribe_spec n n2 _ sym h s Hinv Hs Hu) as [Hinv2 He];
      (split; [done|]); (split; [intros k Hk; by rewrite He, lookup_delete_ne|]); [done|].
    intros acc1 [= <-]. cbn [fst snd]. split_and!; try done. by rewrite He, lookup_delete_eq.
  - destruct (unsubscribe h n) as [n2 [e|[]]] eqn:Hu; intros [= <- <-];
      destruct (unsubscribe_spec n n2 _ sym h s Hinv Hs Hu) as [Hinv2 He];
      (split; [done|]); (split; [intros k Hk; by rewrite He, lookup_delete_ne|]); [done|].
    intros acc1 [= <-]. cbn [fst snd]. split_and!; try done. by rewrite He, lookup_delete_eq.
Qed.

Lemma elem_of_key {B} (k : string) (b : B) l : (k, b) ∈ l -> k ∈ l.*1.
Proof. intros H. apply list_elem_of_fmap. by exists (k, b). Qed.

(** The decisions about a list, the first one apart. *)
Lemma verdict_cons (subs : list (string * (Z * NotifAttrs))) sym0 h0 a0 (m m1 : gmap string wanted) :
  sym0 ∉ subs.*1 -> (forall k, k <> sym0 -> m1 !! k = m !! k) ->
  forall sym v,
    (exists h a, (sym, (h, a)) ∈ (sym0, (h0, a0)) :: subs /\ verdict_of m sym a = v) <->
    (sym = sym0 /\ verdict_of m sym0 a0 = v) \/
    exists h a, (sym, (h, a)) ∈ subs /\ verdict_of m1 sym a = v.
Proof.
  intros Hnotin Hm1 sym v. unfold verdict_of. split.
  - intros (h & a & [[= -> -> ->]|Hsub]%elem_of_cons & Hva); [by left|]. right. exists h, a.
    split; [done|]. rewrite Hm1; [done|]. intros ->. by apply elem_of_key in Hsub.
  - intros [[-> Hva]|(h & a & Hsub & Hva)]; [exists h0, a0; split; [by left|done]|].
    exists h, a. split; [by right|]. rewrite <- Hm1; [done|]. intros ->. by apply elem_of_key in Hsub.
Qed.

(** What pass 1 leaves of a symbol. *)
Definition after_pass1 (n n' : Notifier) (acc acc' : pass_state) (sym : string) (a : NotifAttrs) : Prop :=
  match verdict_of acc.1.1 sym a with
  | Keep => entries n' !! sym = entries n !! sym /\ acc'.1.1 !! sym = None
  | Change => entries n' !! sym = None /\ acc'.1.1 !! sym = acc.1.1 !! sym
  | Remove => entries n' !! sym = None /\ acc'.1.1 !! sym = None
  end.

Lemma pass1_spec subs : forall n (acc : pass_state) n' r,
  notifier_inv n -> NoDup subs.*1 ->
  (forall sym h a, (sym, (h, a)) ∈ subs -> exists s, entries n !! sym = Some (h, s) /\ su_attrs s = a) ->
  pass1 subs acc n = (n', r) ->
  notifier_inv n' /\
  forall acc', r = inr acc' ->
    (forall sym, sym ∉ subs.*1 -> entries n' !! sym = entries n !! sym /\ acc'.1.1 !! sym = acc.1.1 !! sym) /\
    (forall sym h a, (sym, (h, a)) ∈ subs -> after_pass1 n n' acc acc' sym a) /\
    (forall sym, sym ∈ acc'.1.2 <-> sym ∈ acc.1.2 \/
       exists h a, (sym, (h, a)) ∈ subs /\ verdict_of acc.1.1 sym a = Remove) /\
    (forall sym, sym ∈ acc'.2 <-> sym ∈ acc.2 \/
       exists h a, (sym, (h, a)) ∈ subs /\ verdict_of acc.1.1 sym a = Change).
Proof using NL.
  induction subs as [|[sym0 [h0 a0]] subs IH]; intros n acc n' r Hinv Hnd Hin; cbn [pass1].
  { intros [= <- <-]. split; [done|]. intros acc' [= <-]. split_and!; try done.
    - intros sym h a H. by apply not_elem_of_nil in H.
    - intros sym. split; [by left|]. intros [?|(h & a & H & _)]; [done|]. by apply not_elem_of_nil in H.
    - intros sym. split; [by left|]. intros [?|(h & a & H & _)]; [done|]. by apply not_elem_of_nil in H. }
  cbn [fmap list_fmap fst] in Hnd. apply NoDup_cons in Hnd as [Hnotin Hnd].
  destruct (Hin sym0 h0 a0) as (s0 & Hs0 & <-); [by left|].
  unfold nm_bind. destruct (pass1_one acc (sym0, (h0, su_attrs s0)) n) as [n1 r1] eqn:Hone.
  destruct (pass1_one_spec n n1 r1 sym0 h0 s0 acc Hinv Hs0 Hone) as (Hinv1 & Hrest & Hres).
  destruct r1 as [e|acc1]; [intros [= <- <-]; by split|]. intros Hp.
  destruct (Hres acc1 eq_refl) as [Hm1 Hsym0].
  destruct (IH n1 acc1 n' r Hinv1 Hnd) as [Hinv' Hfin]; [|done|].
  { intros sym h a Hsub. assert (sym <> sym0) by (intros ->; by apply elem_of_key in Hsub).
    rewrite Hrest by done. apply Hin. by right. }
  split; [done|]. intros acc' ->. destruct (Hfin acc' eq_refl) as (Hout & Hpass & Hrem & Hch).
  assert (Hne : forall sym h a, (sym, (h, a)) ∈ subs -> sym <> sym0)
    by (intros sym h a Hsub ->; by apply elem_of_key in Hsub).
  assert (Hv : forall sym a, sym <> sym0 -> verdict_of acc1.1.1 sym a = verdict_of acc.1.1 sym a)
    by (intros sym a Hd; unfold verdict_of; by rewrite Hm1).
  pose proof (verdict_cons subs sym0 h0 (su_attrs s0) acc.1.1 acc1.1.1 Hnotin Hm1) as Hex.
  destruct (Hout sym0 Hnotin) as [He0 Hm0]. split_and!.
  - intros sym [Hd Hn]%not_elem_of_cons. destruct (Hout sym Hn) as [-> ->]. by rewrite Hrest, Hm1.
  - intros sym h a [[= -> -> ->]|Hsub]%elem_of_cons.
    + unfold after_pass1. rewrite He0, Hm0. by destruct (verdict_of _ _ _); destruct Hsym0 as (-> & -> & _).
    + specialize (Hpass sym h a Hsub). apply Hne in Hsub. unfold after_pass1 in *.
      rewrite Hv in Hpass by done. rewrite Hrest, Hm1 in Hpass by done. exact Hpass.
  - intros sym. rewrite Hrem, Hex. destruct (verdict_of acc.1.1 sym0 (su_attrs s0)); destruct Hsym0 as (_ & _ & -> & _);
      rewrite ?elem_of_app, ?list_elem_of_singleton; intuition congruence.
  - intros sym. rewrite Hch, Hex. destruct (verdict_of acc.1.1 sym0 (su_attrs s0)); destruct Hsym0 as (_ & _ & _ & ->);
      rewrite ?elem_of_union, ?elem_of_singleton; intuition congruence.
Qed.

(** Pass 2 adds exactly the listed symbols. *)
Lemma pass2_spec todo changed_syms : forall n added changed n' r,
  notifier_inv n -> NoDup todo.*1 ->
  (forall sym def meta a, (sym, (def, meta, a)) ∈ todo ->
     cm_symbol def = sym /\ NotifAttrs_from_def def (sm_size meta) = inr a /\ entries n !! sym = None) ->
  pass2 todo changed_syms added changed n = (n', r) ->
  notifier_inv n' /\
  forall acc, r = inr acc ->
    (forall sym, sym ∉ todo.*1 -> entries n' !! sym = entries n !! sym) /\
    (forall sym def meta a, (sym, (def, meta, a)) ∈ todo ->
       exists h, entries n' !! sym = Some (h, mkSub def meta a)) /\
    (forall sym, sym ∈ acc.1 <-> sym ∈ added \/ (sym ∈ todo.*1 /\ sym ∉ changed_syms)) /\
    (forall sym, sym ∈ acc.2 <-> sym ∈ changed \/ (sym ∈ todo.*1 /\ sym ∈ changed_syms)).
Proof using NL.
  induction todo as [|[sym0 [[def0 meta0] a0]] todo IH]; intros n added changed n' r Hinv Hnd Hin; cbn [pass2].
  { intros [= <- <-]. split; [done|]. intros acc [= <-]. cbn [fst snd fmap list_fmap].
    split_and!; [done|intros ???? H; by apply not_elem_of_nil in H|..]; intros sym;
      rewrite elem_of_nil; intuition. }
  cbn [fmap list_fmap fst] in Hnd. apply NoDup_cons in Hnd as [Hnotin Hnd].
  destruct (Hin sym0 def0 meta0 a0) as (Hsym & Hfrom & Hnone); [by left|]. unfold nm_bind.
  destruct (subscribe def0 meta0 n) as [n1 [e|h]] eqn:Hs; subst sym0;
    destruct (subscribe_spec n n1 _ def0 meta0 a0 Hinv Hnone Hfrom Hs) as [Hinv1 He];
    [intros [= <- <-]; by split|].
  assert (Hin1 : forall sym def meta a, (sym, (def, meta, a)) ∈ todo ->
    cm_symbol def = sym /\ NotifAttrs_from_def def (sm_size meta) = inr a /\ entries n1 !! sym = None).
  { intros sym def meta a Hsub. destruct (Hin sym def meta a) as (? & ? & ?); [by right|].
    split_and!; [done..|]. rewrite He, lookup_insert_ne; [done|]. intros <-. by apply elem_of_key in Hsub. }
  set (added1 := if decide (cm_symbol def0 ∈ changed_syms) then added else added ++ [cm_symbol def0]).
  set (changed1 := if decide (cm_symbol def0 ∈ changed_syms) then changed ++ [cm_symbol def0] else changed).
  intros Hp. assert (Hp' : pass2 todo changed_syms added1 changed1 n1 = (n', r)).
  { unfold added1, changed1. rewrite <- Hp. by destruct (decide _). }
  destruct (IH n1 added1 changed1 n' r Hinv1 Hnd Hin1 Hp') as [Hinv' Hfin]. split; [done|].
  intros acc ->. destruct (Hfin acc eq_refl) as (Hout & Hdone & Hadd & Hch).
  cbn [fmap list_fmap fst]. split_and!.
  - intros sym [Hd Hn]%not_elem_of_cons. by rewrite Hout, He, lookup_insert_ne by done.
  - intros sym def meta a [[= -> -> -> ->]|Hsub]%elem_of_cons; [|by apply Hdone].
    exists h. by rewrite Hout, He, lookup_insert_eq.
  - intros sym. rewrite Hadd. unfold added1.
    destruct (decide _); rewrite ?elem_of_app, ?list_elem_of_singleton, elem_of_cons; intuition congruence.
  - intros sym. rewrite Hch. unfold changed1.
    destruct (decide _); rewrite ?elem_of_app, ?list_elem_of_singleton, elem_of_cons; intuition congruence.
Qed.

(** The desired map: every entry belongs to its symbol, with its attributes. *)
Lemma desired_map_wf desired : forall m0 m sym def meta a,
  desired_map desired m0 = inr m -> m !! sym = Some (def, meta, a) ->
  (forall sym def meta a, m0 !! sym = Some (def, meta, a) ->
     cm_symbol def = sym /\ NotifAttrs_from_def def (sm_size meta) = inr a) ->
  cm_symbol def = sym /\ NotifAttrs_from_def def (sm_size meta) = inr a.
Proof.
  induction desired as [|[d mt] desired IH]; intros m0 m sym def meta a; simpl.
  { intros [= ->] Hm H0. by apply H0. }
  destruct (NotifAttrs_from_def d (sm_size mt)) as [e|a0] eqn:Hf; [done|]. intros Hd Hm H0.
  eapply IH; [done..|]. intros sym' def' meta' a' [[<- [= <- <- <-]]|[_ H]]%lookup_insert_Some; [done|].
  by apply H0.
Qed.

Section Reconcile.
Variable iter_current : gmap string (Z * NotifAttrs) -> list (string * (Z * NotifAttrs)).
Variable iter_desired : gmap string wanted -> list (string * wanted).
Hypothesis iter_current_perm : forall m, iter_current m ≡ₚ map_to_list m.
Hypothesis iter_desired_perm : forall m, iter_desired m ≡ₚ map_to_list m.

Lemma iter_current_nodup n : NoDup (iter_current (current n)).*1.
Proof using iter_current_perm. rewrite iter_current_perm. apply NoDup_fst_map_to_list. Qed.

Lemma elem_of_iter_current n sym h a :
  (sym, (h, a)) ∈ iter_current (current n) <-> exists s, entries n !! sym = Some (h, s) /\ su_attrs s = a.
Proof using iter_current_perm.
  rewrite iter_current_perm, elem_of_map_to_list, current_entries, lookup_fmap, fmap_Some. split.
  - intros ([h' s] & Hs & [= -> ->]). by exists s.
  - intros (s & Hs & <-). by exists (h, s).
Qed.

(** What a symbol is to be after the reconciliation. *)
Definition reconciled (n n' : Notifier) (m : gmap string wanted) (sym : string) : Prop :=
  match m !! sym with
  | None => entries n' !! sym = None
  | Some w =>
    match entries n !! sym with
    | Some (h, s) =>
      if decide (w.2 = su_attrs s) then entries n' !! sym = Some (h, s)
      else exists h', entries n' !! sym = Some (h', mkSub w.1.1 w.1.2 w.2)
    | None => exists h', entries n' !! sym = Some (h', mkSub w.1.1 w.1.2 w.2)
    end
  end.

(** Pass 1 over all subscriptions. *)
Lemma pass1_all n (m : gmap string wanted) n1 r :
  notifier_inv n -> pass1 (iter_current (current n)) (m, [], ∅) n = (n1, r) ->
  notifier_inv n1 /\
  forall m1 removed changed_syms, r = inr (m1, removed, changed_syms) ->
    (forall sym,
       match entries n !! sym, m !! sym with
       | None, _ => entries n1 !! sym = None /\ m1 !! sym = m !! sym
       | Some _, None => entries n1 !! sym = None /\ m1 !! sym = None
       | Some (h, s), Some w =>
         if decide (w.2 = su_attrs s) then entries n1 !! sym = Some (h, s) /\ m1 !! sym = None
         else entries n1 !! sym = None /\ m1 !! sym = Some w
       end) /\
    (forall sym, sym ∈ removed <-> is_Some (entries n !! sym) /\ m !! sym = None) /\
    (forall sym, sym ∈ changed_syms <-> exists h s w, entries n !! sym = Some (h, s) /\ m !! sym = Some w /\
       w.2 <> su_attrs s).
Proof using NL iter_current_perm.
  intros Hinv H1. destruct (pass1_spec _ n (m, [], ∅) n1 r Hinv (iter_current_nodup n)) as [Hinv1 Hp1];
    [by intros sym h a Hin%elem_of_iter_current|done|].
  split; [done|]. intros m1 removed changed_syms ->.
  destruct (Hp1 _ eq_refl) as (Hout & Hpass & Hrem & Hch). cbn [fst snd] in *. unfold verdict_of in *. split_and!.
  - intros sym. destruct (entries n !! sym) as [[h s]|] eqn:He.
    + assert (Hin : (sym, (h, su_attrs s)) ∈ iter_current (current n)) by (apply elem_of_iter_current; by exists s).
      specialize (Hpass sym h (su_attrs s) Hin). unfold after_pass1, verdict_of in Hpass. cbn [fst snd] in Hpass.
      destruct (m !! sym) as [w|]; [|done]. rewrite He in Hpass. by destruct (decide _).
    + destruct (Hout sym) as [-> ->]; [|done]. intros ([sym' [h a]] & -> & Hin)%list_elem_of_fmap.
      apply elem_of_iter_current in Hin as (s & Hs & _). simpl in He. congruence.
  - intros sym. rewrite Hrem. setoid_rewrite elem_of_iter_current. split.
    + intros [H|(h & a & (s & Hs & <-) & Hv)]; [by apply elem_of_nil in H|]. split; [by eexists|].
      destruct (m !! sym); [by destruct (decide _)|done].
    + intros [[[h s] Hs] Hm]. right. exists h, (su_attrs s). split; [by exists s|]. by rewrite Hm.
  - intros sym. rewrite Hch. setoid_rewrite elem_of_iter_current. split.
    + intros [H|(h & a & (s & Hs & <-) & Hv)]; [by apply not_elem_of_empty in H|].
      destruct (m !! sym) as [w|]; [|done]. exists h, s, w. by destruct (decide _).
    + intros (h & s & w & Hs & Hm & Hne). right. exists h, (su_attrs s). split; [by exists s|].
      rewrite Hm. by destruct (decide _).
Qed.

Lemma elem_of_iter_desired (m : gmap string wanted) sym w : (sym, w) ∈ iter_desired m <-> m !! sym = Some w.
Proof using iter_desired_perm. by rewrite iter_desired_perm, elem_of_map_to_list. Qed.

Lemma elem_of_desired_keys (m : gmap string wanted) sym : sym ∈ (iter_desired m).*1 <-> is_Some (m !! sym).
Proof using iter_desired_perm.
  rewrite list_elem_of_fmap. split.
  - intros ([k w] & -> & Hin%elem_of_iter_desired). by exists w.
  - intros [w Hw]. exists (sym, w). by rewrite elem_of_iter_desired.
Qed.

Lemma reconcile_spec desired n n' r m :
  notifier_inv n -> desired_map desired ∅ = inr m -> reconcile iter_current iter_desired desired n = (n', r) ->
  notifier_inv n' /\
  forall rep, r = inr rep ->
    (forall sym, reconciled n n' m sym) /\
    (forall sym, sym ∈ rr_removed rep <-> is_Some (entries n !! sym) /\ m !! sym = None) /\
    (forall sym, sym ∈ rr_added rep <-> entries n !! sym = None /\ is_Some (m !! sym)) /\
    (forall sym, sym ∈ rr_changed rep <-> exists h s w, entries n !! sym = Some (h, s) /\ m !! sym = Some w /\
       w.2 <> su_attrs s).
Proof using NL iter_current_perm iter_desired_perm.
  intros Hinv Hm. unfold reconcile, nm_bind, nm_ret. rewrite Hm.
  destruct (pass1 (iter_current (current n)) (m, [], ∅) n) as [n1 r1] eqn:H1.
  destruct (pass1_all n m n1 r1 Hinv H1) as [Hinv1 Hp1].
  destruct r1 as [e|[[m1 removed] changed_syms]]; [intros [= <- <-]; by split|].
  destruct (Hp1 _ _ _ eq_refl) as (Htab & Hrem & Hch).
  assert (Hsub : forall sym w, m1 !! sym = Some w -> m !! sym = Some w /\ entries n1 !! sym = None).
  { intros sym w Hw. specialize (Htab sym). destruct (entries n !! sym) as [[h s]|], (m !! sym) as [w'|];
      [destruct (decide _)|..]; destruct Htab as [-> Ht]; by simplify_eq. }
  destruct (pass2 (iter_desired m1) changed_syms [] [] n1) as [n2 r2] eqn:H2.
  destruct (pass2_spec (iter_desired m1) changed_syms n1 [] [] n2 r2 Hinv1) as [Hinv2 Hp2]; [| |done|].
  { rewrite iter_desired_perm. apply NoDup_fst_map_to_list. }
  { intros sym def meta a Hin%elem_of_iter_desired. destruct (Hsub sym _ Hin) as [Hw Hn].
    destruct (desired_map_wf desired ∅ m sym def meta a Hm Hw) as [? ?]; [|done].
    intros ????. by rewrite lookup_empty. }
  destruct r2 as [e|[added changed]]; intros [= <- <-]; (split; [done|]); [done|].
  intros rep [= <-]. destruct (Hp2 _ eq_refl) as (Hout & Hdone & Hadd & Hchg). cbn [fst snd rr_removed rr_added rr_changed] in *.
  setoid_rewrite elem_of_desired_keys in Hadd. setoid_rewrite elem_of_desired_keys in Hchg. split_and!.
  - intros sym. unfold reconciled. specialize (Htab sym).
    assert (Hkeep : m1 !! sym = None -> entries n2 !! sym = entries n1 !! sym).
    { intros Hn. apply Hout. rewrite elem_of_desired_keys, Hn. by intros [? ?]. }
    assert (Hnew : forall w, m1 !! sym = Some w -> exists h', entries n2 !! sym = Some (h', mkSub w.1.1 w.1.2 w.2)).
    { intros [[def meta] a] Hw. apply Hdone. by apply elem_of_iter_desired. }
    destruct (entries n !! sym) as [[h s]|], (m !! sym) as [w|]; [destruct (decide _)|..];
      destruct Htab as [He Hm1]; first [by rewrite Hkeep|by apply Hnew].
  - done.
  - intros sym. rewrite Hadd, Hch, elem_of_nil. specialize (Htab sym).
    destruct (entries n !! sym) as [[h s]|], (m !! sym) as [w|] eqn:Hmw; [destruct (decide _)|..];
      destruct Htab as [He ->]; rewrite ?is_Some_alt; naive_solver.
  - intros sym. rewrite Hchg, Hch, elem_of_nil. specialize (Htab sym).
    destruct (entries n !! sym) as [[h s]|], (m !! sym) as [w|] eqn:Hmw; [destruct (decide _)|..];
      destruct Htab as [He ->]; rewrite ?is_Some_alt; naive_solver.
Qed.

(** When everything is as desired, pass 1 does nothing but tick it off. *)
Lemma pass1_noop subs n removed changed : forall m : gmap string wanted,
  NoDup subs.*1 -> (forall sym h a, (sym, (h, a)) ∈ subs -> verdict_of m sym a = Keep) ->
  exists m1, pass1 subs (m, removed, changed) n = (n, inr (m1, removed, changed)) /\
    forall sym, m1 !! sym = if decide (sym ∈ subs.*1) then None else m !! sym.
Proof.
  induction subs as [|[sym0 [h0 a0]] subs IH]; intros m Hnd Hkeep; cbn [pass1].
  { exists m. split; [done|]. intros sym. case_decide as H; [by apply elem_of_nil in H|done]. }
  cbn [fmap list_fmap fst] in Hnd. apply NoDup_cons in Hnd as [Hnotin Hnd].
  pose proof (Hkeep sym0 h0 a0 ltac:(by left)) as H0. unfold verdict_of in H0. unfold nm_bind, pass1_one.
  destruct (m !! sym0) as [w|]; [|done]. destruct (decide (w.2 = a0)); [|done]. unfold nm_ret.
  destruct (IH (delete sym0 m) Hnd) as (m1 & Hp & Hm1).
  { intros sym h a Hin. unfold verdict_of. rewrite lookup_delete_ne; [apply (Hkeep sym h a); by right|].
    intros <-. by apply elem_of_key in Hin. }
  exists m1. split; [done|]. intros sym. rewrite Hm1. cbn [fmap list_fmap fst].
  destruct (decide (sym = sym0)) as [->|Hne].
  - rewrite lookup_delete_eq. case_decide; [done|]. rewrite decide_True; [done|by left].
  - rewrite lookup_delete_ne by done. case_decide as H.
    + rewrite decide_True; [done|by right].
    + rewrite decide_False; [done|]. by intros [?|?]%elem_of_cons.
Qed.

Lemma reconcile_noop desired n m :
  desired_map desired ∅ = inr m ->
  (forall sym, snd <$> current n !! sym = snd <$> m !! sym) ->
  reconcile iter_current iter_desired desired n = (n, inr (mkReport [] [] [])).
Proof using iter_current_perm iter_desired_perm.
  intros Hm Hsame. unfold reconcile. rewrite Hm.
  assert (Hin : forall sym h a, (sym, (h, a)) ∈ iter_current (current n) <-> current n !! sym = Some (h, a))
    by (intros sym h a; by rewrite iter_current_perm, elem_of_map_to_list).
  destruct (pass1_noop (iter_current (current n)) n [] ∅ m (iter_current_nodup n)) as (m1 & Hp & Hm1).
  { intros sym h a Hc%Hin. specialize (Hsame sym). rewrite Hc in Hsame. unfold verdict_of.
    destruct (m !! sym) as [w|]; [|done]. injection Hsame as <-. by rewrite decide_True. }
  unfold nm_bind. rewrite Hp.
  assert (m1 = ∅) as ->.
  { apply map_empty. intros sym. rewrite Hm1. case_decide as H; [done|]. specialize (Hsame sym).
    destruct (current n !! sym) as [[h a]|] eqn:Hc.
    - exfalso. apply H. by eapply elem_of_key, Hin.
    - by destruct (m !! sym). }
  assert (iter_desired ∅ = []) as -> by (apply Permutation_nil_r; by rewrite iter_desired_perm, map_to_list_empty).
  done.
Qed.

Lemma reconciled_same n n' m sym :
  reconciled n n' m sym -> snd <$> current n' !! sym = snd <$> m !! sym.
Proof.
  unfold reconciled. rewrite current_entries, lookup_fmap. destruct (m !! sym) as [w|]; [|by intros ->].
  destruct (entries n !! sym) as [[h s]|]; [destruct (decide _) as [Hw|]|].
  - intros ->. simpl. by rewrite Hw.
  - by intros [h' ->].
  - by intros [h' ->].
Qed.

(** The desired map holds the last definition of each symbol. *)
Lemma desired_map_last desired sym : forall m0 m,
  desired_map desired m0 = inr m ->
  fst <$> m !! sym = match last (filter (fun d => cm_symbol d.1 = sym) desired) with
                     | Some d => Some d
                     | None => fst <$> m0 !! sym
                     end.
Proof.
  induction desired as [|[d mt] desired IH]; intros m0 m; simpl; [by intros [= ->]|].
  destruct (NotifAttrs_from_def d (sm_size mt)) as [e|a]; [done|]. intros ->%IH. rewrite filter_cons. simpl.
  destruct (decide (cm_symbol d = sym)) as [<-|Hne].
  - rewrite last_cons, lookup_insert_eq. by destruct (last _).
  - by rewrite lookup_insert_ne.
Qed.

Lemma reconcile_inv desired n n' r :
  notifier_inv n -> reconcile iter_current iter_desired desired n = (n', r) -> notifier_inv n'.
Proof using NL iter_current_perm iter_desired_perm.
  intros Hinv Hr. destruct (desired_map desired ∅) as [e|m] eqn:Hm.
  - unfold reconcile in Hr. rewrite Hm in Hr. by injection Hr as <- <-.
  - by destruct (reconcile_spec desired n n' r m Hinv Hm Hr).
Qed.

(** C29: Reconciliation reaches the desired subscriptions and is idempotent. From
    a consistent notifier, whatever the PLC answers, the notifier stays
    consistent: both tables agree and every subscription it knows is active.
    When the call succeeds, each symbol is as the last definition for it says:
    a subscription with the same attributes is left alone, one with others is
    replaced, a missing one is added, and one that is no longer wanted is
    gone; the report lists exactly the added, removed and changed symbols; and
    the same call again changes nothing and asks the PLC for nothing. *)
Theorem reconcile_exact desired n n' r :
  notifier_inv n -> reconcile iter_current iter_desired desired n = (n', r) ->
  notifier_inv n' /\
  forall rep, r = inr rep ->
    exists m, (forall sym, fst <$> m !! sym = last (filter (fun d => cm_symbol d.1 = sym) desired)) /\
      (forall sym, reconciled n n' m sym) /\
      (forall sym, sym ∈ rr_removed rep <-> is_Some (entries n !! sym) /\ m !! sym = None) /\
      (forall sym, sym ∈ rr_added rep <-> entries n !! sym = None /\ is_Some (m !! sym)) /\
      (forall sym, sym ∈ rr_changed rep <-> exists h s w, entries n !! sym = Some (h, s) /\ m !! sym = Some w /\
         w.2 <> su_attrs s) /\
      reconcile iter_current iter_desired desired n' = (n', inr (mkReport [] [] [])).
Proof using NL iter_current_perm iter_desired_perm.
  intros Hinv Hr. destruct (desired_map desired ∅) as [e|m] eqn:Hm.
  { unfold reconcile in Hr. rewrite Hm in Hr. injection Hr as <- <-. by split. }
  destruct (reconcile_spec desired n n' r m Hinv Hm Hr) as [Hinv' Hrep]. split; [done|].
  intros rep Heq. destruct (Hrep rep Heq) as (Hsym & Hrem & Hadd & Hch). exists m. split_and!; try done.
  - intros sym. rewrite (desired_map_last desired sym ∅ m Hm). by destruct (last _).
  - eapply reconcile_noop; [done|]. intros sym. by eapply reconciled_same.
Qed.

End Reconcile.

(** A second subscription of a symbol hides the first: its handle stays
    subscribed, but the symbol leads to the new one; and ending the first then
    removes the symbol of the second, which no reconciliation sees any more. *)
Lemma resubscribe_orphans n def meta n1 n2 h1 h2 n3 r :
  notifier_inv n -> entries n !! cm_symbol def = None ->
  subscribe def meta n = (n1, inr h1) -> subscribe def meta n1 = (n2, inr h2) ->
  unsubscribe h1 n2 = (n3, r) ->
  is_Some (nf_subs n3 !! h2) /\ current n3 !! cm_symbol def = None.
Proof using NL.
  intros Hinv Hnone H1 H2 H3.
  destruct (NotifAttrs_from_def def (sm_size meta)) as [e|attrs] eqn:Hf; [unfold subscribe in H1; by rewrite Hf in H1|].
  destruct (subscribe_spec n n1 _ def meta attrs Hinv Hnone Hf H1) as [Hinv1 He1].
  assert (Hs1 : nf_subs n1 !! h1 = Some (mkSub def meta attrs)).
  { eapply (entries_lookup n1 (cm_symbol def)). by rewrite He1, lookup_insert_eq. }
  unfold subscribe in H2. rewrite Hf in H2.
  destruct (backend_subscribe attrs meta (nf_backend n1)) as [b [e|h]] eqn:Hb; [done|]. injection H2 as <- <-.
  apply subscribe_ok in Hb as [Hfresh _].
  assert (h1 <> h) by (intros ->; apply Hfresh, (ni_active n1 Hinv1), elem_of_dom; by eexists).
  unfold unsubscribe in H3. cbn [nf_subs nf_by_symbol nf_backend] in H3.
  rewrite lookup_insert_ne, Hs1 in H3 by done. destruct (backend_unsubscribe h1 b). injection H3 as <- <-.
  split.
  - cbn [nf_subs]. rewrite lookup_delete_ne, lookup_insert_eq by done. by eexists.
  - unfold current. cbn [nf_by_symbol]. by rewrite lookup_omap, lookup_delete_eq.
Qed.

End NotifierTheorems.

(** ** Samples become metrics *)

Section Dispatch.
Context `{Ext : External} `{MP : Mpsc} `{NB : NotificationBackend}.

(** The entry of a sample: none for an unknown handle or a type that is not a
    scalar. *)
Definition sample_metric (now : DateTime) (n : Notifier) (s : Z * bytes) : option MetricEntry :=
  sub ← nf_subs n !! s.1;
  v ← decode_scalar (sm_type_name (su_meta sub)) s.2;
  Some (with_source "client-notify" (build_metric_entry now (su_def sub) v)).

Lemma dispatch_batch_sends now samples : forall n,
  dispatch_batch now samples n =
  mkNotifier (nf_backend n) (send_all (nf_tx n) (omap (sample_metric now n) samples)) (nf_subs n) (nf_by_symbol n).
Proof.
  unfold dispatch_batch. induction samples as [|s samples IH]; intros n; [by destruct n|]. simpl.
  assert (Hs : dispatch_sample now s.1 s.2 n =
    match sample_metric now n s with
    | Some m => mkNotifier (nf_backend n) (try_send (nf_tx n) m).1 (nf_subs n) (nf_by_symbol n)
    | None => n
    end).
  { unfold dispatch_sample, sample_metric. destruct (nf_subs n !! s.1) as [sub|]; simpl; [|done].
    by destruct (decode_scalar _ _). }
  rewrite Hs, IH. by destruct (sample_metric now n s).
Qed.

(** The turns before the channel is found disconnected. *)
Fixpoint connected_turns (turns : list (DateTime * received)) : list (DateTime * list (Z * bytes)) :=
  match turns with
  | [] => []
  | (now, r) :: turns =>
    match r with
    | Received samples => (now, samples) :: connected_turns turns
    | RecvTimeout => connected_turns turns
    | RecvDisconnected => []
    end
  end.

Lemma send_all_app {A} (l k : list A) s : send_all s (l ++ k) = send_all (send_all s l) k.
Proof. apply fold_left_app. Qed.

(** The whole loop offers the channel the entries of every batch, in order. *)
Lemma dispatcher_loop_sends turns : forall n,
  dispatcher_loop turns n =
  mkNotifier (nf_backend n)
    (send_all (nf_tx n) (concat (map (fun t => omap (sample_metric t.1 n) t.2) (connected_turns turns))))
    (nf_subs n) (nf_by_symbol n).
Proof.
  induction turns as [|[now r] turns IH]; intros n; [by destruct n|]. destruct r as [samples| |]; simpl.
  - rewrite IH, dispatch_batch_sends. cbn. by rewrite send_all_app.
  - by rewrite IH.
  - by destruct n.
Qed.

(** C30: What a PLC notifies ends up in the metric channel. When a frame of
    samples in the documented layout is delivered to the sink and the batch is
    dispatched, the metric channel is offered one entry per sample of a known
    subscription and a scalar type, in the order of the frame, named after the
    definition and with the decoded value; samples of other handles, or of
    types that are no scalars, are passed over, and subscriptions do not
    change. All of them are queued when the channel takes them. *)
Theorem notifications_become_metrics `{!MpscLaws MP} now h total stamps post n :
  command_id h = ADS_CMD_NOTIFICATION -> in_width 32 total -> in_width 32 (Z.of_nat (length stamps)) ->
  Forall wf_stamp stamps -> concat stamps.*2 <> [] ->
  let ms := omap (sample_metric now n) (concat stamps.*2) in
  exists batch, NotificationSink_deliver h (encode_notification total stamps ++ post) [] = Ok [batch] /\
    dispatch_batch now batch n =
      mkNotifier (nf_backend n) (send_all (nf_tx n) ms) (nf_subs n) (nf_by_symbol n) /\
    (accepts_all (nf_tx n) ms = true -> queued (send_all (nf_tx n) ms) = queued (nf_tx n) ++ ms).
Proof.
  intros Hcmd Ht Hn Hs Hne ms. exists (concat stamps.*2). split_and!.
  - unfold NotificationSink_deliver. rewrite Hcmd, Z.eqb_refl. cbn [negb].
    rewrite (notification_roundtrip_eq total stamps post Ht Hn Hs). cbn [outcome_bind].
    by destruct (concat stamps.*2).
  - apply dispatch_batch_sends.
  - apply send_all_queued.
Qed.

End Dispatch.

(** ** The backend on top of the dispatcher *)

Section DispatcherBackend.
(** A PLC behind the dispatcher: its state, and what [send_request] returns. *)
Variable Plc : Type.
Variable send_to : Request -> Plc -> Plc * (DispatcherError + bytes).

Record DispatcherNotificationBackend := mkBackend {
  db_bound : bool;
  db_target_net_id : AmsNetId;
  db_target_port : Z;
  db_request_timeout : Z;
  db_plc : Plc;
}.

Definition with_plc (p : Plc) (b : DispatcherNotificationBackend) : DispatcherNotificationBackend :=
  mkBackend (db_bound b) (db_target_net_id b) (db_target_port b) (db_request_timeout b) p.

Definition not_bound : ClientError := AdsText "dispatcher not yet bound to backend".

(** The body of AddDeviceNotification. *)
Definition add_notification_request (a : NotifAttrs) (meta : SymbolMeta) : bytes :=
  le_encode 4 (sm_index_group meta) ++ le_encode 4 (sm_index_offset meta) ++ le_encode 4 (sm_size meta) ++
  serialize_tail a.

(** The answer to it; the indices are in range after the test of the length. *)
Definition add_notification_answer (raw : bytes) : ClientError + Z :=
  if (length raw <? 8)%nat then
    inl (Decode ("ADS AddNotification response too short: " +:+ dec_nat (length raw) +:+ " bytes"))
  else
    let result := le_decode (take 4 raw) in
    if negb (result =? 0) then inl (AdsText ("ADS AddNotification returned error 0x" +:+ lower_hex result))
    else inr (le_decode (take 4 (drop 4 raw))).

Definition dispatcher_subscribe (a : NotifAttrs) (meta : SymbolMeta) (b : DispatcherNotificationBackend)
    : DispatcherNotificationBackend * (ClientError + Z) :=
  if negb (db_bound b) then (b, inl not_bound)
  else
    match send_to (mkRequest (db_target_net_id b) (db_target_port b) ADS_CMD_ADD_NOTIFICATION
                     (add_notification_request a meta) (db_request_timeout b)) (db_plc b) with
    | (p, inl e) => (with_plc p b, inl (AdsFrom e))
    | (p, inr raw) => (with_plc p b, add_notification_answer raw)
    end.

Definition del_notification_answer (raw : bytes) : ClientError + unit :=
  if (length raw <? 4)%nat then
    inl (Decode ("ADS DelNotification response too short: " +:+ dec_nat (length raw) +:+ " bytes"))
  else
    let result := le_decode (take 4 raw) in
    if negb (result =? 0) then inl (AdsText ("ADS DelNotification returned error 0x" +:+ lower_hex result))
    else inr tt.

Definition dispatcher_unsubscribe (handle : Z) (b : DispatcherNotificationBackend)
    : DispatcherNotificationBackend * (ClientError + unit) :=
  if negb (db_bound b) then (b, inl not_bound)
  else
    match send_to (mkRequest (db_target_net_id b) (db_target_port b) ADS_CMD_DEL_NOTIFICATION
                     (le_encode 4 handle) (db_request_timeout b)) (db_plc b) with
    | (p, inl e) => (with_plc p b, inl (AdsFrom e))
    | (p, inr raw) => (with_plc p b, del_notification_answer raw)
    end.

#[local] Instance DispatcherBackend : NotificationBackend := {|
  BackendState := DispatcherNotificationBackend;
  backend_subscribe := dispatcher_subscribe;
  backend_unsubscribe := dispatcher_unsubscribe;
|}.

(** The handles a PLC serves. Documented: an answer with result 0 names a handle
    that was free and is now served; any other answer, or none, ends no
    notification; and a request to end one ends at most that one. *)
Variable handles : Plc -> gset Z.
Hypothesis plc_add : forall net port body t p p' raw h,
  send_to (mkRequest net port ADS_CMD_ADD_NOTIFICATION body t) p = (p', inr raw) ->
  add_notification_answer raw = inr h -> (h ∉ handles p) /\ (handles p' = {[h]} ∪ handles p).
Hypothesis plc_add_other : forall net port body t p p' r,
  send_to (mkRequest net port ADS_CMD_ADD_NOTIFICATION body t) p = (p', r) -> handles p ⊆ handles p'.
Hypothesis plc_del : forall net port h t p p' r,
  h ∈ handles p ->
  send_to (mkRequest net port ADS_CMD_DEL_NOTIFICATION (le_encode 4 h) t) p = (p', r) ->
  handles p ∖ {[h]} ⊆ handles p'.

(** The backend keeps what the interface promises. *)
#[refine, local] Instance DispatcherBackend_laws : BackendLaws DispatcherBackend :=
  {| active := fun b => handles (db_plc b) |}.
Proof using plc_add plc_add_other plc_del.
  - intros a m b b' h. simpl. unfold dispatcher_subscribe. destruct (negb _); [done|].
    destruct (send_to _ _) as [p [e|raw]] eqn:Hs; [done|]. intros [= <- Ha]. by eapply plc_add.
  - intros a m b b' e. simpl. unfold dispatcher_subscribe. destruct (negb _); [by intros [= <- <-]|].
    destruct (send_to _ _) as [p [e'|raw]] eqn:Hs; intros [= <- _]; by eapply plc_add_other.
  - intros h b b' r Hh. simpl. unfold dispatcher_unsubscribe. destruct (negb _); [intros [= <- <-]; set_solver|].
    destruct (send_to _ _) as [p [e|raw]] eqn:Hs; intros [= <- _]; by eapply plc_del.
Defined.

(** The notifier and the dispatcher's backend work together: with a PLC that
    answers as ADS documents, every subscription the notifier knows after any
    sequence of reconciliations, successful or not, is served by the PLC under
    its handle, and the two tables of the notifier agree. *)
Theorem notifier_matches_plc `{Ext : External} `{MP : Mpsc} b tx ic id runs :
  (forall m, ic m ≡ₚ map_to_list m) -> (forall m, id m ≡ₚ map_to_list m) ->
  let n := foldl (fun n desired => (reconcile ic id desired n).1) (Notifier_new b tx) runs in
  notifier_inv (NL := DispatcherBackend_laws) n /\
  (forall h, is_Some (nf_subs n !! h) -> h ∈ handles (db_plc (nf_backend n))).
Proof using plc_add plc_add_other plc_del.
  intros Hic Hid n.
  assert (Hinv : notifier_inv (NL := DispatcherBackend_laws) n).
  { unfold n. induction runs as [|desired runs IH] using rev_ind; [apply new_inv|].
    rewrite foldl_app. simpl. destruct (reconcile ic id desired _) as [n' r] eqn:Hr.
    by eapply (reconcile_inv (NL := DispatcherBackend_laws)). }
  split; [done|]. intros h Hh%elem_of_dom. by apply (ni_active n Hinv).
Qed.

End DispatcherBackend.
