(* ===== verification/Config.v ===== *)
(** * Configuration (crates/tc-otel-core: config.rs, config_watcher.rs;
    crates/tc-otel-service: config_watcher.rs)

    The settings with their defaults, their validation, the masking of secrets
    for the web interface, the difference of two settings, and the watcher
    that publishes a changed configuration file. Loading a file is a parameter;
    so are the derived serde conversions, except that of the receiver section,
    which the masking looks into. *)

From S2P Require Import Prelude.
From S2P Require Import Text.
From S2P Require Import External.
From S2P Require Import Models.
From S2P Require Import MetricMapper.
From S2P Require Import Poll.

(** ** The sections *)

Inductive LogFormat := FormatJson | FormatText.

Record LoggingConfig := mkLogging {
  lc_log_level : string;
  lc_format : LogFormat;
  lc_output_path : option string;
}.

Definition LoggingConfig_default : LoggingConfig := mkLogging "info" FormatJson None.

Record TlsConfig := mkTls {
  tls_enabled : bool;
  tls_cert_path : option string;
  tls_key_path : option string;
  tls_ca_cert_path : option string;
  tls_require_client_cert : bool;
  tls_client_cert_path : option string;
  tls_client_key_path : option string;
  tls_insecure_skip_verify : bool;
  tls_min_version : string;
  tls_max_version : string;
  tls_ciphers : list string;
}.

Definition default_min_tls_version : string := "TLSv1_2".
Definition default_max_tls_version : string := "TLSv1_3".

Definition TlsConfig_default : TlsConfig :=
  mkTls false None None None false None None false default_min_tls_version default_max_tls_version [].

Definition default_tcp_host : string := "0.0.0.0".
Definition default_ams_net_id : string := "0.0.0.0.1.1".
Definition default_ams_tcp_port : Z := 48898.
Definition default_ads_port : Z := 16150.
Definition default_max_connections : Z := 100.
Definition default_idle_timeout_secs : Z := 300.
Definition default_max_connections_per_ip : Z := 10.
Definition default_rate_limit_per_sec_per_ip : Z := 10.
Definition default_keepalive_interval_secs : Z := 60.
Definition default_send_buffer_size : Z := 1048576.

Record TcpTransportConfig := mkTcpTransport {
  tt_host : string;
  tt_port : Z;
  tt_max_connections : Z;
}.

Definition TcpTransportConfig_default : TcpTransportConfig :=
  mkTcpTransport default_tcp_host default_ams_tcp_port default_max_connections.

Record MqttTlsConfig := mkMqttTls {
  mt_ca_cert_path : string;
  mt_client_cert_path : option string;
  mt_client_key_path : option string;
  mt_insecure_skip_verify : bool;
}.

Record MqttTransportConfig := mkMqttTransport {
  mq_broker : string;
  mq_topic_prefix : string;
  mq_client_id : string;
  mq_username : option string;
  mq_password : option string;
  mq_tls : option MqttTlsConfig;
}.

Definition default_mqtt_prefix : string := "AdsOverMqtt".
Definition default_mqtt_client_id : string := "tc-otel".

Definition MqttTransportConfig_default : MqttTransportConfig :=
  mkMqttTransport "localhost:1883" default_mqtt_prefix default_mqtt_client_id None None None.

Record LocalRouterTransportConfig := mkLocalRouter {
  lr_router_host : string;
  lr_router_port : Z;
}.

Definition default_local_router_host : string := "127.0.0.1".

Definition LocalRouterTransportConfig_default : LocalRouterTransportConfig :=
  mkLocalRouter default_local_router_host default_ams_tcp_port.

Inductive TransportConfig :=
| TransportTcp (c : TcpTransportConfig)
| TransportMqtt (c : MqttTransportConfig)
| TransportLocalRouter (c : LocalRouterTransportConfig).

Definition TransportConfig_default : TransportConfig := TransportTcp TcpTransportConfig_default.

Definition as_mqtt (t : TransportConfig) : option MqttTransportConfig :=
  match t with TransportMqtt c => Some c | _ => None end.

Record ReceiverConfig := mkReceiver {
  rc_host : string;
  rc_http_port : Z;
  rc_grpc_port : Z;
  rc_max_body_size : Z;
  rc_request_timeout_secs : Z;
  rc_ams_net_id : string;
  rc_ams_tcp_port : Z;
  rc_ads_port : Z;
  rc_max_connections : Z;
  rc_idle_timeout_secs : Z;
  rc_max_connections_per_ip : Z;
  rc_rate_limit_per_sec_per_ip : Z;
  rc_keepalive_interval_secs : Z;
  rc_send_buffer_size : Z;
  rc_https_only : bool;
  rc_tls : TlsConfig;
  rc_transport : TransportConfig;
}.

Definition ReceiverConfig_default : ReceiverConfig :=
  mkReceiver "127.0.0.1" 4318 4317 (4 * 1024 * 1024) 30 "0.0.0.0.1.1" 48898 16150 default_max_connections
    default_idle_timeout_secs default_max_connections_per_ip default_rate_limit_per_sec_per_ip
    default_keepalive_interval_secs default_send_buffer_size false TlsConfig_default TransportConfig_default.

Record OutputConfig := mkOutput {
  oc_output_type : string;
  oc_settings : Value;
}.

Inductive WireFormat := WireJson | WireProtobuf.

Definition WireFormat_default : WireFormat := WireProtobuf.

(** The [export] section; the exporter has a type of the same name. *)
Record ExportSection := mkExportSection {
  es_endpoint : string;
  es_batch_size : Z;
  es_flush_interval_ms : Z;
  es_timeout_secs : Z;
  es_max_retries : Z;
  es_format : WireFormat;
}.

Definition default_export_endpoint : string := "http://victoria-logs:9428/insert/jsonline".
Definition default_batch_size : Z := 2000.
Definition default_flush_interval_ms : Z := 1000.
Definition default_export_timeout_secs : Z := 10.
Definition default_max_retries : Z := 3.

Definition ExportSection_default : ExportSection :=
  mkExportSection default_export_endpoint default_batch_size default_flush_interval_ms
    default_export_timeout_secs default_max_retries WireFormat_default.

Record WebConfig := mkWeb {
  wb_enabled : bool;
  wb_host : string;
  wb_port : Z;
}.

Definition default_web_enabled : bool := true.
Definition default_web_host : string := "127.0.0.1".
Definition default_web_port : Z := 8080.

Definition WebConfig_default : WebConfig := mkWeb default_web_enabled default_web_host default_web_port.

Record MetricsConfig := mkMetrics {
  mc_cycle_time_enabled : bool;
  mc_cycle_time_window : Z;
  mc_custom_metrics : list CustomMetricDef;
  mc_export_enabled : bool;
  mc_export_endpoint : option string;
  mc_export_batch_size : Z;
  mc_export_flush_interval_ms : Z;
  mc_export_format : option WireFormat;
}.

Definition default_cycle_time_enabled : bool := true.
Definition default_cycle_time_window : Z := 1000.
Definition default_metrics_batch_size : Z := 1000.
Definition default_metrics_flush_interval_ms : Z := 5000.

Definition MetricsConfig_default : MetricsConfig :=
  mkMetrics default_cycle_time_enabled default_cycle_time_window [] false None default_metrics_batch_size
    default_metrics_flush_interval_ms None.

Record TracesExportConfig := mkTracesExport {
  te_endpoint : option string;
  te_batch_size : Z;
  te_flush_interval_ms : Z;
  te_format : option WireFormat;
}.

Definition default_traces_batch_size : Z := 100.
Definition default_traces_flush_interval_ms : Z := 1000.

Definition TracesExportConfig_default : TracesExportConfig :=
  mkTracesExport None default_traces_batch_size default_traces_flush_interval_ms None.

Record TracesConfig := mkTraces {
  tc_enabled : bool;
  tc_span_ttl_secs : Z;
  tc_max_pending_spans : Z;
  tc_export : TracesExportConfig;
}.

Definition default_span_ttl_secs : Z := 10.
Definition default_max_pending_spans : Z := 1024.

Definition TracesConfig_default : TracesConfig :=
  mkTraces false default_span_ttl_secs default_max_pending_spans TracesExportConfig_default.

Record ServiceConfig := mkService {
  sc_name : string;
  sc_display_name : string;
  sc_worker_threads : option Z;
  sc_channel_capacity : Z;
  sc_shutdown_timeout_secs : Z;
}.

Definition ServiceConfig_default : ServiceConfig :=
  mkService "tc-otel" "tc-otel - TwinCAT OpenTelemetry Service" None 50000 30.

Record DiagnosticsTargetConfig := mkDiagnosticsTarget {
  dt_ams_net_id : string;
  dt_poll_interval_ms : Z;
  dt_exceed_counter : bool;
  dt_rt_usage : bool;
  dt_task_ports : list Z;
  dt_rt_port : Z;
  dt_task_names : gmap string string;
}.

Record DiagnosticsConfig := mkDiagnostics {
  dg_enabled : bool;
  dg_targets : list DiagnosticsTargetConfig;
}.

(** What serde gives a target that names only its Net ID. *)
Definition default_diagnostics_poll_interval_ms : Z := 1000.
Definition default_diagnostics_task_ports : list Z := [340; 350; 351].
Definition default_diagnostics_rt_port : Z := 200.
Definition DiagnosticsTarget_named (ams_net_id : string) : DiagnosticsTargetConfig :=
  mkDiagnosticsTarget ams_net_id default_diagnostics_poll_interval_ms true true default_diagnostics_task_ports
    default_diagnostics_rt_port ∅.

Definition DiagnosticsConfig_default : DiagnosticsConfig := mkDiagnostics false [].

Record AppSettings := mkSettings {
  st_logging : LoggingConfig;
  st_receiver : ReceiverConfig;
  st_export : ExportSection;
  st_outputs : list OutputConfig;
  st_service : ServiceConfig;
  st_web : WebConfig;
  st_metrics : MetricsConfig;
  st_diagnostics : DiagnosticsConfig;
  st_traces : TracesConfig;
}.

Definition AppSettings_default : AppSettings :=
  mkSettings LoggingConfig_default ReceiverConfig_default ExportSection_default [] ServiceConfig_default
    WebConfig_default MetricsConfig_default DiagnosticsConfig_default TracesConfig_default.

(** The derived [PartialEq]. *)
#[global] Instance LogFormat_eq_dec : EqDecision LogFormat.
Proof. solve_decision. Defined.
#[global] Instance LoggingConfig_eq_dec : EqDecision LoggingConfig.
Proof. solve_decision. Defined.
#[global] Instance TlsConfig_eq_dec : EqDecision TlsConfig.
Proof. solve_decision. Defined.
#[global] Instance TcpTransportConfig_eq_dec : EqDecision TcpTransportConfig.
Proof. solve_decision. Defined.
#[global] Instance MqttTlsConfig_eq_dec : EqDecision MqttTlsConfig.
Proof. solve_decision. Defined.
#[global] Instance MqttTransportConfig_eq_dec : EqDecision MqttTransportConfig.
Proof. solve_decision. Defined.
#[global] Instance LocalRouterTransportConfig_eq_dec : EqDecision LocalRouterTransportConfig.
Proof. solve_decision. Defined.
#[global] Instance TransportConfig_eq_dec : EqDecision TransportConfig.
Proof. solve_decision. Defined.
#[global] Instance ReceiverConfig_eq_dec : EqDecision ReceiverConfig.
Proof. solve_decision. Defined.
#[global] Instance OutputConfig_eq_dec : EqDecision OutputConfig.
Proof. solve_decision. Defined.
#[global] Instance WireFormat_eq_dec : EqDecision WireFormat.
Proof. solve_decision. Defined.
#[global] Instance ExportSection_eq_dec : EqDecision ExportSection.
Proof. solve_decision. Defined.
#[global] Instance WebConfig_eq_dec : EqDecision WebConfig.
Proof. solve_decision. Defined.
#[global] Instance MetricKindConfig_eq_dec : EqDecision MetricKindConfig.
Proof. solve_decision. Defined.
#[global] Instance CustomMetricSource_eq_dec : EqDecision CustomMetricSource.
Proof. solve_decision. Defined.
#[global] Instance TransmissionMode_eq_dec : EqDecision NotificationTransmissionMode.
Proof. solve_decision. Defined.
#[global] Instance PollConfig_eq_dec : EqDecision PollConfig.
Proof. solve_decision. Defined.
#[global] Instance NotificationConfig_eq_dec : EqDecision NotificationConfig.
Proof. solve_decision. Defined.
#[global] Instance CustomMetricDef_eq_dec : EqDecision CustomMetricDef.
Proof. solve_decision. Defined.
#[global] Instance MetricsConfig_eq_dec : EqDecision MetricsConfig.
Proof. solve_decision. Defined.
#[global] Instance ServiceConfig_eq_dec : EqDecision ServiceConfig.
Proof. solve_decision. Defined.
#[global] Instance DiagnosticsTargetConfig_eq_dec : EqDecision DiagnosticsTargetConfig.
Proof. solve_decision. Defined.
#[global] Instance DiagnosticsConfig_eq_dec : EqDecision DiagnosticsConfig.
Proof. solve_decision. Defined.

(** ** Validation *)

(** [s.to_uppercase()] and [s.to_lowercase()] map Unicode text. *)
Class CaseMapping := {
  to_uppercase : string -> string;
  to_lowercase : string -> string;
}.

(** Documented: on ASCII text they are the ASCII mappings. *)
Class CaseLaws (CM : CaseMapping) : Prop := {
  to_uppercase_ascii : forall s, Forall (fun b => 0 <= b < 128) (bytes_of_string s) ->
    to_uppercase s = to_ascii_uppercase s;
  to_lowercase_ascii : forall s, Forall (fun b => 0 <= b < 128) (bytes_of_string s) ->
    to_lowercase s = to_ascii_lowercase s;
}.

Definition WEAK_CIPHER_PATTERNS : list string :=
  ["DES"; "RC4"; "RC2"; "MD5"; "NULL"; "EXPORT"; "anon"; "ADH"; "AECDH"].

Definition VALID_TLS_VERSIONS : list string := ["TLSv1_0"; "TLSv1_1"; "TLSv1_2"; "TLSv1_3"].

Definition MIN_ACCEPTABLE_TLS_VERSION : string := "TLSv1_2".

Definition error_if (c : bool) (msg : string) : list string := if c then [msg] else [].

Definition from_errors (errors : list string) : outcome (list string) unit :=
  match errors with [] => Ok tt | _ => Err errors end.

Definition errors_of (r : outcome (list string) unit) : list string :=
  match r with Err e => e | _ => [] end.

Definition tls_version_ord (version : string) : Z :=
  if String.eqb version "TLSv1_0" then 0
  else if String.eqb version "TLSv1_1" then 1
  else if String.eqb version "TLSv1_2" then 2
  else if String.eqb version "TLSv1_3" then 3
  else 0.

Definition quoted (s : string) : string :=
  String (ascii_of_byte 34) (s +:+ String (ascii_of_byte 34) "").

(** The [Debug] of [VALID_TLS_VERSIONS]. *)
Definition valid_versions_text : string :=
  "[" +:+ String.concat ", " (map quoted VALID_TLS_VERSIONS) +:+ "]".

Definition validate_tls_version (version : string) : option string :=
  if existsb (String.eqb version) VALID_TLS_VERSIONS then None
  else Some ("invalid TLS version '" +:+ version +:+ "': must be one of " +:+ valid_versions_text).

Definition check_minimum_acceptable_version (version : string) : option string :=
  if tls_version_ord version <? tls_version_ord MIN_ACCEPTABLE_TLS_VERSION then
    Some ("TLS version '" +:+ version +:+ "' is below minimum acceptable version (" +:+
          MIN_ACCEPTABLE_TLS_VERSION +:+ ")")
  else None.

Definition opt_error (o : option string) (f : string -> string) : list string :=
  match o with Some e => [f e] | None => [] end.

Definition is_none {A} (o : option A) : bool := match o with None => true | Some _ => false end.

Section Validation.
Context `{CM : CaseMapping}.

Definition validate_cipher_suite (cipher : string) : option string :=
  let upper := to_uppercase cipher in
  match List.find (fun weak => str_contains weak upper) WEAK_CIPHER_PATTERNS with
  | Some weak => Some ("weak cipher suite '" +:+ cipher +:+ "': contains banned pattern '" +:+ weak +:+ "'")
  | None => None
  end.

Definition TlsConfig_validate (t : TlsConfig) : outcome (list string) unit :=
  if negb (tls_enabled t) then Ok tt
  else from_errors (
    error_if (tls_insecure_skip_verify t)
      "insecure_skip_verify=true is not allowed: certificate verification must not be disabled" ++
    error_if (is_none (tls_cert_path t)) "TLS enabled but cert_path is not set" ++
    error_if (is_none (tls_key_path t)) "TLS enabled but key_path is not set" ++
    error_if (tls_require_client_cert t && is_none (tls_ca_cert_path t))
      "require_client_cert=true but ca_cert_path is not set: CA certificate is needed to verify client certificates" ++
    opt_error (validate_tls_version (tls_min_version t)) (fun e => "min_version: " +:+ e) ++
    opt_error (validate_tls_version (tls_max_version t)) (fun e => "max_version: " +:+ e) ++
    opt_error (check_minimum_acceptable_version (tls_min_version t)) (fun e => e) ++
    error_if (tls_version_ord (tls_max_version t) <? tls_version_ord (tls_min_version t))
      ("min_version (" +:+ tls_min_version t +:+ ") is greater than max_version (" +:+ tls_max_version t +:+ ")") ++
    omap validate_cipher_suite (tls_ciphers t)).

(** [s.starts_with(pat)]. *)
Definition starts_with (pat s : string) : bool := match strip_prefix pat s with Some _ => true | None => false end.

Definition validate_endpoint (r : ReceiverConfig) (endpoint : string) : outcome string unit :=
  let lower := to_lowercase endpoint in
  if rc_https_only r && starts_with "http://" lower then
    Err ("endpoint '" +:+ endpoint +:+
         "' uses HTTP but https_only is enabled: only HTTPS endpoints are allowed")
  else if tls_enabled (rc_tls r) && starts_with "http://" lower then
    Err ("endpoint '" +:+ endpoint +:+ "' uses HTTP but TLS is enabled: cannot downgrade from HTTPS to HTTP")
  else Ok tt.

Definition ReceiverConfig_validate (r : ReceiverConfig) : outcome (list string) unit :=
  from_errors (errors_of (TlsConfig_validate (rc_tls r)) ++
    error_if (rc_https_only r && negb (tls_enabled (rc_tls r)))
      "https_only=true but TLS is not enabled: enable TLS to enforce HTTPS-only mode").

Definition port_error (name : string) (port : Z) : list string :=
  error_if (negb ((1 <=? port) && (port <=? 65535))) (name +:+ " " +:+ dec port +:+ " out of range [1, 65535]").

Definition zero_error (name : string) (n : Z) : list string := error_if (n =? 0) (name +:+ " must be > 0").

Definition transport_errors (t : TransportConfig) : list string :=
  match t with
  | TransportTcp tcp => port_error "receiver.transport.tcp.port" (tt_port tcp)
  | TransportMqtt _ => []
  | TransportLocalRouter lr => port_error "receiver.transport.local_router.router_port" (lr_router_port lr)
  end.

Definition AppSettings_validate (s : AppSettings) : outcome (list string) unit :=
  let r := st_receiver s in
  from_errors (errors_of (ReceiverConfig_validate r) ++
    port_error "receiver.http_port" (rc_http_port r) ++ port_error "receiver.grpc_port" (rc_grpc_port r) ++
    port_error "receiver.ams_tcp_port" (rc_ams_tcp_port r) ++ port_error "receiver.ads_port" (rc_ads_port r) ++
    transport_errors (rc_transport r) ++
    port_error "web.port" (wb_port (st_web s)) ++
    zero_error "export.batch_size" (es_batch_size (st_export s)) ++
    zero_error "export.flush_interval_ms" (es_flush_interval_ms (st_export s)) ++
    zero_error "export.timeout_secs" (es_timeout_secs (st_export s)) ++
    zero_error "service.channel_capacity" (sc_channel_capacity (st_service s)) ++
    (match sc_worker_threads (st_service s) with
     | Some n => error_if (n =? 0) "service.worker_threads must be > 0 if set"
     | None => []
     end) ++
    zero_error "metrics.cycle_time_window" (mc_cycle_time_window (st_metrics s)) ++
    zero_error "metrics.export_batch_size" (mc_export_batch_size (st_metrics s)) ++
    zero_error "metrics.export_flush_interval_ms" (mc_export_flush_interval_ms (st_metrics s)) ++
    (if tc_enabled (st_traces s) then
       zero_error "traces.span_ttl_secs" (tc_span_ttl_secs (st_traces s)) ++
       zero_error "traces.max_pending_spans" (tc_max_pending_spans (st_traces s))
     else [])).

End Validation.

(** ** Secrets *)

Definition MASKED_SENTINEL : string := "***MASKED***".

(** [val.get_mut(key)] followed by an update of what is there. *)
Fixpoint update_entry (key : string) (f : Value -> Value) (m : list (string * Value)) : list (string * Value) :=
  match m with
  | [] => []
  | (k, v) :: m => if String.eqb k key then (k, f v) :: m else (k, v) :: update_entry key f m
  end.

Definition update_field (key : string) (f : Value -> Value) (v : Value) : Value :=
  match v with VObject m => VObject (update_entry key f m) | _ => v end.

Definition get_field (key : string) (v : Value) : option Value :=
  match v with VObject m => snd <$> List.find (fun kv => String.eqb kv.1 key) m | _ => None end.

Definition mask_value (v : Value) : Value :=
  match v with
  | VString s => if String.eqb s "" then v else VString MASKED_SENTINEL
  | _ => v
  end.

Definition mask_transport (t : Value) : Value :=
  match get_field "type" t with
  | Some (VString type_str) =>
    if String.eqb type_str "mqtt" then update_field "username" mask_value (update_field "password" mask_value t)
    else t
  | _ => t
  end.

(** The derived [Serialize] of the sections; objects have their keys sorted. *)
Class SettingsSerde := {
  logging_value : LoggingConfig -> Value;
  export_value : ExportSection -> Value;
  outputs_value : list OutputConfig -> Value;
  service_value : ServiceConfig -> Value;
  web_value : WebConfig -> Value;
  metrics_value : MetricsConfig -> Value;
  diagnostics_value : DiagnosticsConfig -> Value;
  traces_value : TracesConfig -> Value;
  tls_value : TlsConfig -> Value;
  mqtt_tls_value : MqttTlsConfig -> Value;
}.

Definition opt_value {A} (f : A -> Value) (o : option A) : Value :=
  match o with Some a => f a | None => Null end.

Section Secrets.
Context `{SS : SettingsSerde}.

Definition transport_value (t : TransportConfig) : Value :=
  match t with
  | TransportTcp c =>
    VObject [("host", VString (tt_host c)); ("max_connections", json_int (tt_max_connections c));
             ("port", json_int (tt_port c)); ("type", VString "tcp")]
  | TransportMqtt c =>
    VObject [("broker", VString (mq_broker c)); ("client_id", VString (mq_client_id c));
             ("password", opt_value VString (mq_password c)); ("tls", opt_value mqtt_tls_value (mq_tls c));
             ("topic_prefix", VString (mq_topic_prefix c)); ("type", VString "mqtt");
             ("username", opt_value VString (mq_username c))]
  | TransportLocalRouter c =>
    VObject [("router_host", VString (lr_router_host c)); ("router_port", json_int (lr_router_port c));
             ("type", VString "local_router")]
  end.

Definition receiver_value (r : ReceiverConfig) : Value :=
  VObject [("ads_port", json_int (rc_ads_port r)); ("ams_net_id", VString (rc_ams_net_id r));
    ("ams_tcp_port", json_int (rc_ams_tcp_port r)); ("grpc_port", json_int (rc_grpc_port r));
    ("host", VString (rc_host r)); ("http_port", json_int (rc_http_port r));
    ("https_only", VBool (rc_https_only r)); ("idle_timeout_secs", json_int (rc_idle_timeout_secs r));
    ("keepalive_interval_secs", json_int (rc_keepalive_interval_secs r));
    ("max_body_size", json_int (rc_max_body_size r)); ("max_connections", json_int (rc_max_connections r));
    ("max_connections_per_ip", json_int (rc_max_connections_per_ip r));
    ("rate_limit_per_sec_per_ip", json_int (rc_rate_limit_per_sec_per_ip r));
    ("request_timeout_secs", json_int (rc_request_timeout_secs r));
    ("send_buffer_size", json_int (rc_send_buffer_size r)); ("tls", tls_value (rc_tls r));
    ("transport", transport_value (rc_transport r))].

(** [serde_json::to_value(self)]. *)
Definition settings_value (s : AppSettings) : Value :=
  VObject [("diagnostics", diagnostics_value (st_diagnostics s)); ("export", export_value (st_export s));
    ("logging", logging_value (st_logging s)); ("metrics", metrics_value (st_metrics s));
    ("outputs", outputs_value (st_outputs s)); ("receiver", receiver_value (st_receiver s));
    ("service", service_value (st_service s)); ("traces", traces_value (st_traces s));
    ("web", web_value (st_web s))].

Definition to_masked_json (s : AppSettings) : Value :=
  update_field "receiver" (update_field "transport" mask_transport) (settings_value s).

End Secrets.

Definition set_transport (t : TransportConfig) (s : AppSettings) : AppSettings :=
  let r := st_receiver s in
  mkSettings (st_logging s)
    (mkReceiver (rc_host r) (rc_http_port r) (rc_grpc_port r) (rc_max_body_size r) (rc_request_timeout_secs r)
       (rc_ams_net_id r) (rc_ams_tcp_port r) (rc_ads_port r) (rc_max_connections r) (rc_idle_timeout_secs r)
       (rc_max_connections_per_ip r) (rc_rate_limit_per_sec_per_ip r) (rc_keepalive_interval_secs r)
       (rc_send_buffer_size r) (rc_https_only r) (rc_tls r) t)
    (st_export s) (st_outputs s) (st_service s) (st_web s) (st_metrics s) (st_diagnostics s) (st_traces s).

(** A secret that is the sentinel is replaced by the current one, if there is an
    MQTT transport at present. *)
Definition merge_secret (new : option string) (current : option (option string)) : option string :=
  match new with
  | Some s => if String.eqb s MASKED_SENTINEL then match current with Some c => c | None => new end else new
  | None => None
  end.

Definition merge_secrets_from (s current : AppSettings) : AppSettings :=
  match rc_transport (st_receiver s) with
  | TransportMqtt m =>
    let cur := as_mqtt (rc_transport (st_receiver current)) in
    set_transport (TransportMqtt (mkMqttTransport (mq_broker m) (mq_topic_prefix m) (mq_client_id m)
      (merge_secret (mq_username m) (mq_username <$> cur)) (merge_secret (mq_password m) (mq_password <$> cur))
      (mq_tls m))) s
  | _ => s
  end.

(** ** Differences *)

Record ConfigDiff := mkDiff {
  export_changed : bool;
  logging_changed : bool;
  receiver_changed : bool;
  service_changed : bool;
  outputs_changed : bool;
  web_changed : bool;
  metrics_changed : bool;
  diagnostics_changed : bool;
}.

Definition ConfigDiff_compute (old new : AppSettings) : ConfigDiff :=
  mkDiff (bool_decide (st_export old <> st_export new)) (bool_decide (st_logging old <> st_logging new))
    (bool_decide (st_receiver old <> st_receiver new)) (bool_decide (st_service old <> st_service new))
    (bool_decide (st_outputs old <> st_outputs new)) (bool_decide (st_web old <> st_web new))
    (bool_decide (st_metrics old <> st_metrics new)) (bool_decide (st_diagnostics old <> st_diagnostics new)).

Definition has_hot_reloadable_changes (d : ConfigDiff) : bool :=
  export_changed d || logging_changed d || metrics_changed d || diagnostics_changed d.

Definition has_restart_required_changes (d : ConfigDiff) : bool :=
  receiver_changed d || service_changed d || outputs_changed d || web_changed d.

Definition ConfigDiff_is_empty (d : ConfigDiff) : bool :=
  negb (export_changed d) && negb (logging_changed d) && negb (receiver_changed d) && negb (service_changed d) &&
  negb (outputs_changed d) && negb (web_changed d) && negb (metrics_changed d) && negb (diagnostics_changed d).

(** ** Loading *)

(** [tc_otel_core::Error]. *)
Inductive CoreError :=
| CoreProtocolError (msg : string)
| CoreInvalidFormatError (msg : string)
| CoreNetworkError (msg : string)
| CoreConnectionError (msg : string)
| CoreConfigError (msg : string)
| CoreInvalidConfig (msg : string)
| CoreOutputError (msg : string)
| CoreDatabaseError (msg : string)
| CoreIOError (msg : string)
| CoreJsonError (msg : string)
| CoreInternalError (msg : string).

Definition CoreError_to_string (e : CoreError) : string :=
  match e with
  | CoreProtocolError m => "Protocol error: " +:+ m
  | CoreInvalidFormatError m => "Invalid format: " +:+ m
  | CoreNetworkError m => "Network error: " +:+ m
  | CoreConnectionError m => "Connection error: " +:+ m
  | CoreConfigError m => "Configuration error: " +:+ m
  | CoreInvalidConfig m => "Invalid configuration: " +:+ m
  | CoreOutputError m => "Output error: " +:+ m
  | CoreDatabaseError m => "Database error: " +:+ m
  | CoreIOError m => "IO error: " +:+ m
  | CoreJsonError m => "JSON error: " +:+ m
  | CoreInternalError m => "Internal error: " +:+ m
  end.

(** [AppSettings::from_json_file] and [from_toml_file], which differ in the parser of the format; [read_to_string] is
    the file system's. *)
Definition load_settings (read_to_string : string -> string + string) (from_str : string -> string + AppSettings) (path : string)
    : outcome CoreError AppSettings :=
  match read_to_string path with
  | inl e => Err (CoreIOError e)
  | inr content =>
    match from_str content with
    | inl e => Err (CoreConfigError ("Failed to parse config: " +:+ e))
    | inr s => Ok s
    end
  end.

(** ** The watcher *)

Section Watcher.
(** Modification times. *)
Context {Time : Type} `{!EqDecision Time}.

(** [cw_published] is the value in the watch channel, [cw_sent] the values that
    were sent, [cw_stopped] whether the channel was found closed. *)
Record ConfigWatcher := mkWatcher {
  cw_last_modified : option Time;
  cw_published : AppSettings;
  cw_sent : list AppSettings;
  cw_stopped : bool;
}.

Definition ConfigWatcher_new (initial : AppSettings) (mtime : option Time) : ConfigWatcher :=
  mkWatcher mtime initial [] false.

(** What one turn of [run] meets: the modification time, what the file holds
    when it is read afterwards (or that it does not parse), and whether a
    receiver is left. *)
Record Observation := mkObservation {
  ob_mtime : option Time;
  ob_file : option AppSettings;
  ob_open : bool;
}.

Definition watch_turn (w : ConfigWatcher) (o : Observation) : ConfigWatcher :=
  if cw_stopped w then w
  else if decide (ob_mtime o = cw_last_modified w) then w
  else
    let w := mkWatcher (ob_mtime o) (cw_published w) (cw_sent w) false in
    match ob_file o with
    | None => w
    | Some new_settings =>
      if ConfigDiff_is_empty (ConfigDiff_compute (cw_published w) new_settings) then w
      else if ob_open o then
        mkWatcher (cw_last_modified w) new_settings (cw_sent w ++ [new_settings]) false
      else mkWatcher (cw_last_modified w) (cw_published w) (cw_sent w) true
    end.

End Watcher.

(** ** Validation accepts exactly the sound settings *)

Lemma from_errors_ok l : from_errors l = Ok tt <-> l = [].
Proof. by destruct l. Qed.

Lemma error_if_nil c msg : error_if c msg = [] <-> c = false.
Proof. by destruct c. Qed.

Lemma opt_error_nil o f : opt_error o f = [] <-> o = None.
Proof. by destruct o. Qed.

Definition port_ok (p : Z) : Prop := 1 <= p <= 65535.

Lemma port_error_nil name p : port_error name p = [] <-> port_ok p.
Proof. unfold port_error, port_ok. rewrite error_if_nil. lia. Qed.

Lemma zero_error_nil name n : zero_error name n = [] <-> n <> 0.
Proof. unfold zero_error. rewrite error_if_nil. lia. Qed.

Lemma is_none_false {A} (o : option A) : is_none o = false <-> is_Some o.
Proof. destruct o; split; intros H; try done; by destruct H. Qed.

Lemma omap_nil {A B} (f : A -> option B) l : omap f l = [] <-> Forall (fun a => f a = None) l.
Proof.
  induction l as [|a l IH]; [done|]. cbn [omap list_omap]. rewrite Forall_cons, <- IH.
  destruct (f a); [split; [done|by intros []]|tauto].
Qed.

Lemma valid_version v : validate_tls_version v = None <-> v ∈ VALID_TLS_VERSIONS.
Proof.
  unfold validate_tls_version. destruct (existsb (String.eqb v) VALID_TLS_VERSIONS) eqn:He; split; try done.
  - intros _. apply existsb_exists in He as (w & Hw%list_elem_of_In & <-%String.eqb_eq). done.
  - intros Hv. assert (existsb (String.eqb v) VALID_TLS_VERSIONS = true); [|congruence].
    apply existsb_exists. exists v. split; [by apply list_elem_of_In|apply String.eqb_refl].
Qed.

(** A version that is valid and not too old. *)
Lemma acceptable_version v :
  v ∈ VALID_TLS_VERSIONS /\ check_minimum_acceptable_version v = None <-> v = "TLSv1_2" \/ v = "TLSv1_3".
Proof.
  unfold VALID_TLS_VERSIONS. rewrite !elem_of_cons, elem_of_nil. split.
  - intros [[->|[->|[->|[->|[]]]]] H]; vm_compute in H; auto; discriminate H.
  - intros [->| ->]; split; auto.
Qed.

Section ValidationTheorems.
Context `{CM : CaseMapping}.

(** What TLS settings must be. *)
Record tls_sound (t : TlsConfig) : Prop := {
  ts_verify : tls_insecure_skip_verify t = false;
  ts_cert : is_Some (tls_cert_path t) /\ is_Some (tls_key_path t);
  ts_ca : tls_require_client_cert t = true -> is_Some (tls_ca_cert_path t);
  ts_versions : tls_min_version t = "TLSv1_2" /\ tls_max_version t = "TLSv1_2" \/
                tls_min_version t = "TLSv1_2" /\ tls_max_version t = "TLSv1_3" \/
                tls_min_version t = "TLSv1_3" /\ tls_max_version t = "TLSv1_3";
  ts_ciphers : forall c weak, c ∈ tls_ciphers t -> weak ∈ WEAK_CIPHER_PATTERNS ->
    str_contains weak (to_uppercase c) = false;
}.

Lemma cipher_ok c :
  validate_cipher_suite c = None <->
  forall weak, weak ∈ WEAK_CIPHER_PATTERNS -> str_contains weak (to_uppercase c) = false.
Proof.
  unfold validate_cipher_suite. destruct (List.find _ _) as [w|] eqn:Hf; split; try done.
  - apply find_some in Hf as [Hw%list_elem_of_In Hc]. intros H. rewrite (H w Hw) in Hc. done.
  - intros _ weak Hw%list_elem_of_In. by apply (find_none _ _ Hf).
Qed.

Lemma tls_validate_sound t : TlsConfig_validate t = Ok tt <-> tls_enabled t = false \/ tls_sound t.
Proof.
  unfold TlsConfig_validate. destruct (tls_enabled t); cbn [negb]; [|by split; [left|]].
  rewrite from_errors_ok, !app_nil, !error_if_nil, !opt_error_nil, !valid_version, omap_nil, !is_none_false.
  assert (Hv : forall mn mx, (mn ∈ VALID_TLS_VERSIONS /\ check_minimum_acceptable_version mn = None) /\
      mx ∈ VALID_TLS_VERSIONS /\ (tls_version_ord mx <? tls_version_ord mn) = false <->
    mn = "TLSv1_2" /\ mx = "TLSv1_2" \/ mn = "TLSv1_2" /\ mx = "TLSv1_3" \/ mn = "TLSv1_3" /\ mx = "TLSv1_3").
  { intros mn mx. rewrite acceptable_version. unfold VALID_TLS_VERSIONS. rewrite !elem_of_cons, elem_of_nil. split.
    - intros ([->| ->] & [->|[->|[->|[->|[]]]]] & H); vm_compute in H; auto; discriminate H.
    - intros [[-> ->]|[[-> ->]|[-> ->]]]; split_and!; auto. }
  rewrite andb_false_iff, is_none_false. specialize (Hv (tls_min_version t) (tls_max_version t)). split.
  - intros (H1 & H2 & H3 & H4 & H5 & H6 & H7 & H8 & H9). right. split; [done|done| |by apply Hv|].
    + intros Hr. destruct H4 as [H4|H4]; [congruence|done].
    + rewrite Forall_forall in H9. intros c weak Hc Hw. by apply (proj1 (cipher_ok c) (H9 c Hc)).
  - intros [H|[H1 [H2 H3] H4 H5 H6]]; [done|]. apply Hv in H5 as ([? ?] & ? & ?). split_and!; try done.
    + destruct (tls_require_client_cert t); [right; by apply H4|by left].
    + apply Forall_forall. intros c Hc. apply cipher_ok. intros weak Hw. by apply H6.
Qed.

(** The TCP or router port of the transport. *)
Definition transport_port_ok (t : TransportConfig) : Prop :=
  match t with
  | TransportTcp c => port_ok (tt_port c)
  | TransportMqtt _ => True
  | TransportLocalRouter c => port_ok (lr_router_port c)
  end.

Record settings_sound (s : AppSettings) : Prop := {
  ss_tls : tls_enabled (rc_tls (st_receiver s)) = false \/ tls_sound (rc_tls (st_receiver s));
  ss_https : rc_https_only (st_receiver s) = true -> tls_enabled (rc_tls (st_receiver s)) = true;
  ss_ports : Forall port_ok [rc_http_port (st_receiver s); rc_grpc_port (st_receiver s);
    rc_ams_tcp_port (st_receiver s); rc_ads_port (st_receiver s); wb_port (st_web s)];
  ss_transport : transport_port_ok (rc_transport (st_receiver s));
  ss_positive : Forall (fun n => n <> 0) [es_batch_size (st_export s); es_flush_interval_ms (st_export s);
    es_timeout_secs (st_export s); sc_channel_capacity (st_service s); mc_cycle_time_window (st_metrics s);
    mc_export_batch_size (st_metrics s); mc_export_flush_interval_ms (st_metrics s)];
  ss_workers : sc_worker_threads (st_service s) <> Some 0;
  ss_traces : tc_enabled (st_traces s) = true ->
    tc_span_ttl_secs (st_traces s) <> 0 /\ tc_max_pending_spans (st_traces s) <> 0;
}.

Lemma errors_of_from l : errors_of (from_errors l) = l.
Proof. by destruct l. Qed.

Lemma errors_of_tls t : errors_of (TlsConfig_validate t) = [] <-> TlsConfig_validate t = Ok tt.
Proof.
  unfold TlsConfig_validate. destruct (tls_enabled t); [|done]. cbn [negb].
  by rewrite errors_of_from, from_errors_ok.
Qed.

Lemma validate_sound s : AppSettings_validate s = Ok tt <-> settings_sound s.
Proof.
  unfold AppSettings_validate, ReceiverConfig_validate. cbv zeta.
  rewrite from_errors_ok, !app_nil, errors_of_from, app_nil, errors_of_tls, tls_validate_sound,
    !port_error_nil, !zero_error_nil, error_if_nil.
  assert (Ht : transport_errors (rc_transport (st_receiver s)) = [] <-> transport_port_ok (rc_transport (st_receiver s))).
  { destruct (rc_transport (st_receiver s)); simpl; [apply port_error_nil|done|apply port_error_nil]. }
  assert (Hw : match sc_worker_threads (st_service s) with
      | Some n => error_if (n =? 0) "service.worker_threads must be > 0 if set" | None => [] end = [] <->
    sc_worker_threads (st_service s) <> Some 0).
  { destruct (sc_worker_threads (st_service s)) as [n|]; [|done]. rewrite error_if_nil, Z.eqb_neq.
    split; [by intros H [= ->]|by intros H ->]. }
  assert (Htr : (if tc_enabled (st_traces s) then zero_error "traces.span_ttl_secs" (tc_span_ttl_secs (st_traces s)) ++
       zero_error "traces.max_pending_spans" (tc_max_pending_spans (st_traces s)) else []) = [] <->
    (tc_enabled (st_traces s) = true -> tc_span_ttl_secs (st_traces s) <> 0 /\ tc_max_pending_spans (st_traces s) <> 0)).
  { destruct (tc_enabled (st_traces s)); [rewrite app_nil, !zero_error_nil; tauto|done]. }
  assert (Hh : rc_https_only (st_receiver s) && negb (tls_enabled (rc_tls (st_receiver s))) = false <->
    (rc_https_only (st_receiver s) = true -> tls_enabled (rc_tls (st_receiver s)) = true)).
  { destruct (rc_https_only (st_receiver s)), (tls_enabled (rc_tls (st_receiver s))); simpl; intuition. }
  rewrite Ht, Hw, Htr, Hh. split.
  - intros ([? ?] & ? & ? & ? & ? & ? & ? & ? & ? & ? & ? & ? & ? & ? & ? & ?).
    split; try done; by repeat first [apply Forall_nil_2|apply Forall_cons_2].
  - intros [? ? Hp ? Hz ? ?].
    repeat match goal with H : Forall _ (_ :: _) |- _ => apply Forall_cons_1 in H as [? H] end.
    by split_and!.
Qed.

End ValidationTheorems.

(** The validation accepts exactly the sound settings: with TLS on, a
    certificate and key, certificate verification, TLS 1.2 or 1.3 with the
    minimum not above the maximum, a CA when clients need certificates, and no
    cipher whose upper-case name contains a banned pattern; HTTPS-only needs TLS;
    ports lie in 1..65535; sizes, intervals, timeouts and capacities the
    workers rely on are not zero; and the default settings are accepted. *)
Theorem settings_validated `{CM : CaseMapping} :
  (forall s, AppSettings_validate s = Ok tt <-> settings_sound s) /\
  AppSettings_validate AppSettings_default = Ok tt.
Proof. split; [apply validate_sound|done]. Qed.

(** ** A banned pattern that bans nothing *)

(** An upper-case ASCII text has no byte in a..z, so the pattern [anon] does
    not occur in it. *)
Lemma strip_prefix_spec p s r : strip_prefix p s = Some r -> s = p +:+ r.
Proof.
  revert s. induction p as [|a p IH]; intros s; simpl; [by intros [= ->]|].
  destruct s as [|b s]; [done|]. destruct (Ascii.eqb_spec a b) as [<-|]; [|done]. by intros ->%IH.
Qed.

Lemma contains_byte pat s b :
  b ∈ bytes_of_string pat -> str_contains pat s = true -> b ∈ bytes_of_string s.
Proof.
  intros Hb. induction s as [|c s IH]; cbn [str_contains].
  - destruct (strip_prefix pat "") as [r|] eqn:Hp; [|done]. intros _.
    apply strip_prefix_spec in Hp as ->. rewrite bytes_of_string_app, elem_of_app. by left.
  - destruct (strip_prefix pat (String c s)) as [r|] eqn:Hp.
    + intros _. apply strip_prefix_spec in Hp as ->. rewrite bytes_of_string_app, elem_of_app. by left.
    + intros H. right. by apply IH.
Qed.

(** The pattern for anonymous key exchange never matches: the name is compared
    in upper case, the pattern is in lower case. *)
Lemma anon_never_banned `{CM : CaseMapping} `{!CaseLaws CM} c :
  Forall (fun b => 0 <= b < 128) (bytes_of_string c) -> str_contains "anon" (to_uppercase c) = false.
Proof.
  intros Hc. apply not_true_is_false. intros H. rewrite to_uppercase_ascii in H by done.
  apply (contains_byte _ _ 97) in H; [|by left]. unfold to_ascii_uppercase in H.
  rewrite bytes_of_string_of_bytes in H.
  - apply list_elem_of_fmap in H as (b & Hb & _). unfold upper_byte, in_range in Hb.
    destruct (Z.leb_spec 97 b), (Z.leb_spec b 122); simpl in Hb; lia.
  - apply Forall_fmap. eapply Forall_impl; [exact Hc|]. intros b Hb. unfold compose, is_u8, upper_byte, in_range.
    cbv beta in Hb.
    destruct (Z.leb_spec 97 b), (Z.leb_spec b 122); simpl; lia.
Qed.

Lemma anon_cipher_accepted `{CM : CaseMapping} `{!CaseLaws CM} :
  validate_cipher_suite "TLS_DH_anon_WITH_AES_128_CBC_SHA" = None.
Proof.
  unfold validate_cipher_suite. rewrite to_uppercase_ascii; [by vm_compute|].
  apply (bool_decide_unpack _). by vm_compute.
Qed.

(** ** Secrets stay in the service *)

Definition mask_secret (o : option string) : option string :=
  match o with
  | Some s => Some (if String.eqb s "" then s else MASKED_SENTINEL)
  | None => None
  end.

Definition set_secrets (u p : option string) (m : MqttTransportConfig) : MqttTransportConfig :=
  mkMqttTransport (mq_broker m) (mq_topic_prefix m) (mq_client_id m) u p (mq_tls m).

(** The settings whose JSON the web interface shows. *)
Definition mask_settings (s : AppSettings) : AppSettings :=
  match rc_transport (st_receiver s) with
  | TransportMqtt m => set_transport (TransportMqtt (set_secrets (mask_secret (mq_username m)) (mask_secret (mq_password m)) m)) s
  | _ => s
  end.

Lemma mask_value_opt o : mask_value (opt_value VString o) = opt_value VString (mask_secret o).
Proof. destruct o as [s|]; [|done]. simpl. by destruct (String.eqb s ""). Qed.

Lemma set_transport_same s : set_transport (rc_transport (st_receiver s)) s = s.
Proof. by destruct s as [? [] ? ? ? ? ? ? ?]. Qed.

Lemma set_transport_twice t t' s : set_transport t (set_transport t' s) = set_transport t s.
Proof. done. Qed.

Lemma mask_transport_value `{SS : SettingsSerde} s :
  mask_transport (transport_value (rc_transport (st_receiver s))) =
  transport_value (rc_transport (st_receiver (mask_settings s))).
Proof.
  unfold mask_settings. destruct (rc_transport (st_receiver s)) as [c|m|c] eqn:Ht; rewrite ?Ht; [done| |done].
  unfold mask_transport. cbn [set_transport st_receiver rc_transport]. simpl.
  by rewrite <- !mask_value_opt.
Qed.

Lemma masked_json_value `{SS : SettingsSerde} s : to_masked_json s = settings_value (mask_settings s).
Proof.
  unfold to_masked_json, settings_value. cbn [update_field update_entry String.eqb Ascii.eqb Bool.eqb].
  assert (Hr : update_field "transport" mask_transport (receiver_value (st_receiver s)) =
    receiver_value (st_receiver (mask_settings s))).
  { unfold receiver_value. cbn [update_field update_entry String.eqb Ascii.eqb Bool.eqb].
    rewrite mask_transport_value. unfold mask_settings.
    by destruct (rc_transport (st_receiver s)). }
  rewrite Hr. unfold mask_settings. by destruct (rc_transport (st_receiver s)).
Qed.

Lemma merge_mask_secret o : merge_secret (mask_secret o) (Some o) = o.
Proof.
  destruct o as [s|]; [|done]. simpl. destruct (String.eqb_spec s "") as [->|Hs]; [done|].
  by rewrite String.eqb_refl.
Qed.

(** A secret of edited settings as it is saved: the sentinel stands for the secret in use, if an
    MQTT transport is in use; any other text, or none, is kept. *)
Definition saved_secret (get : MqttTransportConfig -> option string) (m : MqttTransportConfig) (current : AppSettings)
    : option string :=
  match rc_transport (st_receiver current) with
  | TransportMqtt c => if bool_decide (get m = Some MASKED_SENTINEL) then get c else get m
  | _ => get m
  end.

Lemma merge_secret_saved get m current :
  merge_secret (get m) (get <$> as_mqtt (rc_transport (st_receiver current))) = saved_secret get m current.
Proof.
  unfold saved_secret. destruct (get m) as [x|] eqn:Hx, (rc_transport (st_receiver current)) as [c|c|c];
    simpl; try done; destruct (String.eqb_spec x MASKED_SENTINEL) as [->|Hn]; try done.
  by rewrite bool_decide_false by congruence.
Qed.

Lemma merge_secrets_mqtt s current m : rc_transport (st_receiver s) = TransportMqtt m ->
  merge_secrets_from s current =
  set_transport (TransportMqtt (set_secrets (saved_secret mq_username m current) (saved_secret mq_password m current) m)) s.
Proof. intros Ht. unfold merge_secrets_from. by rewrite Ht, !merge_secret_saved. Qed.

Lemma merge_masked s : merge_secrets_from (mask_settings s) s = s.
Proof.
  unfold mask_settings, merge_secrets_from. destruct (rc_transport (st_receiver s)) as [c|m|c] eqn:Ht; [by rewrite Ht| |by rewrite Ht].
  cbn [set_transport st_receiver rc_transport set_secrets mq_username mq_password mq_broker mq_topic_prefix mq_client_id mq_tls].
  cbn [as_mqtt fmap option_fmap option_map]. rewrite !merge_mask_secret.
  rewrite <- (set_transport_same s) at 2. rewrite Ht. by destruct m.
Qed.

(** C35: Secrets do not leave with the configuration, and survive its editing. The
    JSON shown is that of the settings in which a non-empty MQTT user name or
    password is the sentinel, everything else unchanged, so any two pairs of non-empty
    secrets show the same JSON (an empty secret is shown as empty). When settings come back,
    however edited, merging changes nothing of them but the two secrets, and each of these on its own: a
    secret that is still the sentinel becomes the current one, and one that was typed in, emptied
    or removed stays as it came; without a current MQTT transport, or with another
    transport in the settings that came, nothing changes. So the settings as shown, sent back, are
    the current ones. *)
Theorem secrets_masked `{SS : SettingsSerde} :
  (forall s, to_masked_json s = settings_value (mask_settings s)) /\
  (forall s m u p u' p', u <> "" -> p <> "" -> u' <> "" -> p' <> "" ->
     to_masked_json (set_transport (TransportMqtt (set_secrets (Some u) (Some p) m)) s) =
     to_masked_json (set_transport (TransportMqtt (set_secrets (Some u') (Some p') m)) s)) /\
  (forall s current m, rc_transport (st_receiver s) = TransportMqtt m ->
     merge_secrets_from s current =
     set_transport (TransportMqtt (set_secrets (saved_secret mq_username m current) (saved_secret mq_password m current) m)) s) /\
  (forall s current, (forall m, rc_transport (st_receiver s) <> TransportMqtt m) -> merge_secrets_from s current = s) /\
  (forall s, merge_secrets_from (mask_settings s) s = s).
Proof.
  split_and!.
  - apply masked_json_value.
  - intros s m u p u' p' Hu Hp Hu' Hp'. rewrite !masked_json_value. unfold mask_settings.
    cbn [set_transport st_receiver rc_transport set_secrets mq_username mq_password mask_secret].
    by rewrite !(proj2 (String.eqb_neq _ "")).
  - apply merge_secrets_mqtt.
  - intros s current Ht. unfold merge_secrets_from. destruct (rc_transport (st_receiver s)) as [c|m|c]; try done. by destruct (Ht m).
  - apply merge_masked.
Qed.

(** ** The watcher publishes what the file says *)

(** Equal in every section that the difference looks at. *)
Definition same_sections (a b : AppSettings) : Prop :=
  st_export a = st_export b /\ st_logging a = st_logging b /\ st_receiver a = st_receiver b /\
  st_service a = st_service b /\ st_outputs a = st_outputs b /\ st_web a = st_web b /\
  st_metrics a = st_metrics b /\ st_diagnostics a = st_diagnostics b.

Lemma diff_empty a b : ConfigDiff_is_empty (ConfigDiff_compute a b) = true <-> same_sections a b.
Proof.
  assert (Hb : forall P `{Decision P}, negb (bool_decide (~ P)) = true <-> P).
  { intros P HP. rewrite negb_true_iff, bool_decide_eq_false. split; [apply dec_stable|tauto]. }
  unfold ConfigDiff_is_empty, ConfigDiff_compute, same_sections.
  cbn [export_changed logging_changed receiver_changed service_changed outputs_changed web_changed
    metrics_changed diagnostics_changed]. rewrite !andb_true_iff, !Hb. tauto.
Qed.

(** Every difference is one that can be applied while running or one that needs
    a restart. *)
Lemma diff_classified a b :
  ConfigDiff_is_empty (ConfigDiff_compute a b) =
  negb (has_hot_reloadable_changes (ConfigDiff_compute a b)) &&
  negb (has_restart_required_changes (ConfigDiff_compute a b)).
Proof.
  unfold ConfigDiff_is_empty, has_hot_reloadable_changes, has_restart_required_changes.
  destruct (ConfigDiff_compute a b) as [[] [] [] [] [] [] [] []]; done.
Qed.

Section WatcherTheorems.
Context {Time : Type} `{!EqDecision Time}.

(** Reference: the last settings that could be read when the modification time
    had changed. *)
Fixpoint last_read (mtime : option Time) (cur : AppSettings) (obs : list Observation) : AppSettings :=
  match obs with
  | [] => cur
  | o :: obs =>
    if decide (ob_mtime o = mtime) then last_read mtime cur obs
    else last_read (ob_mtime o) (default cur (ob_file o)) obs
  end.

Lemma watch_run_from obs : forall mtime published sent cur,
  Forall (fun o => ob_open o = true) obs -> same_sections published cur ->
  let w := foldl watch_turn (mkWatcher mtime published sent false) obs in
  cw_stopped w = false /\ same_sections (cw_published w) (last_read mtime cur obs) /\
  exists more, cw_sent w = sent ++ more /\ cw_published w = default published (last more) /\
    forall i a b, (published :: more) !! i = Some a -> more !! i = Some b -> ~ same_sections a b.
Proof.
  induction obs as [|o obs IH]; intros mtime published sent cur Hopen Hsame; cbn [foldl last_read].
  { split; [done|]. split; [done|]. exists []. by rewrite app_nil_r. }
  apply Forall_cons in Hopen as [Ho Hopen].
  assert (Hturn : watch_turn (mkWatcher mtime published sent false) o =
    if decide (ob_mtime o = mtime) then mkWatcher mtime published sent false
    else match ob_file o with
         | Some new => if ConfigDiff_is_empty (ConfigDiff_compute published new)
                       then mkWatcher (ob_mtime o) published sent false
                       else mkWatcher (ob_mtime o) new (sent ++ [new]) false
         | None => mkWatcher (ob_mtime o) published sent false
         end) by (unfold watch_turn; simpl; by rewrite Ho).
  rewrite Hturn. clear Hturn. destruct (decide (ob_mtime o = mtime)) as [Hm|Hm]; [by apply IH|].
  destruct (ob_file o) as [new|]; cbn [default]; [|by apply IH].
  destruct (ConfigDiff_is_empty (ConfigDiff_compute published new)) eqn:Hd.
  { apply IH; [done|]. by apply diff_empty. }
  destruct (IH (ob_mtime o) new (sent ++ [new]) new Hopen) as (Hst & Hp & more & Hs & Hl & Hn).
  { by repeat split. }
  split; [done|]. split; [done|]. exists (new :: more). split; [by rewrite Hs, <- app_assoc|]. split.
  - rewrite Hl, last_cons. by destruct (last more).
  - intros [|i] a b; simpl.
    + intros [= <-] [= <-] H%diff_empty. congruence.
    + by apply (Hn i).
Qed.

(** C37: The watcher publishes what the file says. Over any sequence of turns with a
    subscriber left, the published settings agree with the last settings that
    could be read after a change of the modification time (the initial ones, if
    none), in every section but traces; a file that does not parse is passed
    over; the settings sent end with the published ones, and each differs from
    the one before. *)
Theorem watcher_follows_file initial mtime (obs : list (Observation (Time := Time))) :
  Forall (fun o => ob_open o = true) obs ->
  let w := foldl watch_turn (ConfigWatcher_new initial mtime) obs in
  cw_stopped w = false /\ same_sections (cw_published w) (last_read mtime initial obs) /\
  cw_published w = default initial (last (cw_sent w)) /\
  forall i a b, (initial :: cw_sent w) !! i = Some a -> cw_sent w !! i = Some b -> ~ same_sections a b.
Proof.
  intros Hopen. cbv zeta.
  destruct (watch_run_from obs mtime initial [] initial Hopen) as (H1 & H2 & more & H3 & H4 & H5); [by repeat split|].
  simpl in H3. unfold ConfigWatcher_new. rewrite H3. done.
Qed.

(** A configuration that the validation refuses is published all the same. *)
Lemma watcher_publishes_unsound `{CM : CaseMapping} :
  exists s, AppSettings_validate s <> Ok tt /\
    cw_published (watch_turn (ConfigWatcher_new AppSettings_default (None : option Z)) (mkObservation (Some 1) (Some s) true)) = s.
Proof.
  exists (mkSettings LoggingConfig_default ReceiverConfig_default
    (mkExportSection default_export_endpoint 0 0 0 0 WireJson) [] ServiceConfig_default WebConfig_default
    MetricsConfig_default DiagnosticsConfig_default TracesConfig_default).
  split; [|by vm_compute]. intros H%validate_sound. destruct H as [_ _ _ _ H _ _].
  by apply Forall_cons_1 in H as [H _].
Qed.

(** A change of the traces section alone is not seen. *)
Lemma traces_change_unseen s t :
  ConfigDiff_is_empty (ConfigDiff_compute s
    (mkSettings (st_logging s) (st_receiver s) (st_export s) (st_outputs s) (st_service s) (st_web s)
       (st_metrics s) (st_diagnostics s) t)) = true.
Proof. by apply diff_empty. Qed.

End WatcherTheorems.
