(* ===== verification/DiagPoller.v ===== *)
(** * The diagnostics poller (crates/tc-otel-ads: diagnostics_poller.rs;
      crates/tc-otel-service: service.rs)

    The collector that reads the diagnostics of a PLC itself: the frames it
    publishes, the answers it takes, the discovery of task names, and the task
    of the service that drains its events. Its concurrent tasks (one ticker per
    target, the discoveries, the MQTT loop, the drain) are events of a system,
    one per step between two waits. Times are milliseconds of the monotonic
    clock. *)

From S2P Require Import Prelude.
From S2P Require Import Text.
From S2P Require Import External.
From S2P Require Import Ams.
From S2P Require Import Models.
From S2P Require Import Protocol.
From S2P Require Import Registry.
From S2P Require Import Diagnostics.
From S2P Require Import Router.
From S2P Require Import Bridge.
From S2P Require Import Config.

Definition DEFAULT_RT_PORT : Z := 200.
Definition POLLER_SOURCE_PORT : Z := 30001.
Definition PUSH_SUSPEND_WINDOW : Z := 10000.

Record TargetConfig := mkTarget {
  tg_net_id : AmsNetId;
  tg_poll_interval : Z;
  tg_exceed_counter : bool;
  tg_rt_usage : bool;
  tg_task_ports : list Z;
  tg_rt_port : Z;
  tg_task_names : gmap Z string;
}.

Definition TargetConfig_with_defaults (net_id : AmsNetId) : TargetConfig :=
  mkTarget net_id 1000 true true [340; 350; 351] DEFAULT_RT_PORT ∅.

Record PollerConfig := mkPollerConfig {
  pc_broker_host : string;
  pc_broker_port : Z;
  pc_client_id : string;
  pc_topic_prefix : string;
  pc_local_net_id : AmsNetId;
  pc_targets : list TargetConfig;
}.

Record PlannedPoll := mkPlanned {
  pp_target_net_id : AmsNetId;
  pp_target_port : Z;
  pp_index_group : Z;
  pp_index_offset : Z;
  pp_read_size : Z;
  pp_invoke_id : Z;
  pp_frame : bytes;
}.

(** ** Frames *)

Definition build_read_device_info_frame (source_net_id : AmsNetId) (source_port : Z) (target_net_id : AmsNetId)
    (target_port invoke_id : Z) : bytes :=
  AmsHeader_serialize (mkHeader target_net_id target_port source_net_id source_port ADS_CMD_READ_DEVICE_INFO
    ADS_STATE_REQUEST 0 0 invoke_id).

(** [str::trim] removes the white space of Unicode at both ends. *)
Definition white_space : list bytes :=
  map utf8_encode ([9; 10; 11; 12; 13; 32; 133; 160; 5760] ++ map (fun i => 8192 + Z.of_nat i) (seq 0 11) ++
    [8232; 8233; 8239; 8287; 12288]).

Fixpoint strip_any (pats : list bytes) (bs : bytes) : option bytes :=
  match pats with
  | [] => None
  | p :: pats => if decide (take (length p) bs = p) then Some (drop (length p) bs) else strip_any pats bs
  end.

Fixpoint trim_front (fuel : nat) (pats : list bytes) (bs : bytes) : bytes :=
  match fuel with
  | O => bs
  | S fuel => match strip_any pats bs with Some bs => trim_front fuel pats bs | None => bs end
  end.

Definition trim_bytes (bs : bytes) : bytes :=
  let front := trim_front (length bs) white_space bs in
  rev (trim_front (length front) (map (@rev Z) white_space) (rev front)).

(** The bytes up to a zero, or all sixteen. *)
Fixpoint until_zero (bs : bytes) : bytes :=
  match bs with [] => [] | b :: bs => if b =? 0 then [] else b :: until_zero bs end.

Definition parse_device_info_name (body : bytes) : option string :=
  if (length body <? 24)%nat then None
  else if negb (le_decode (take 4 body) =? 0) then None
  else
    let name_bytes := until_zero (take 16 (drop 8 body)) in
    if utf8_valid name_bytes then
      let name := trim_bytes name_bytes in
      match name with [] => None | _ => Some (string_of_bytes name) end
    else None.

(** The header of a read request. *)
Definition read_header (source_net_id : AmsNetId) (source_port : Z) (target_net_id : AmsNetId)
    (target_port invoke_id : Z) : AmsHeader :=
  mkHeader target_net_id target_port source_net_id source_port ADS_CMD_READ ADS_STATE_REQUEST 12 0 invoke_id.

Definition build_read_frame (source_net_id : AmsNetId) (source_port : Z) (target_net_id : AmsNetId)
    (target_port index_group index_offset read_length invoke_id : Z) : bytes :=
  AmsHeader_serialize (read_header source_net_id source_port target_net_id target_port invoke_id) ++
  le_encode 4 index_group ++ le_encode 4 index_offset ++ le_encode 4 read_length.

(** ** Planning *)

(** [invoke_counter.fetch_add(1)] on an [AtomicU32]: what is left behind. *)
Definition next_id (counter : Z) : Z := (counter + 1) mod 2 ^ 32.

Definition planned (source : AmsNetId) (target : AmsNetId) (port ig io size invoke : Z) : PlannedPoll :=
  mkPlanned target port ig io size invoke
    (build_read_frame source POLLER_SOURCE_PORT target port ig io size invoke).

Definition min_port (ports : list Z) : option Z :=
  match ports with [] => None | p :: ps => Some (foldl Z.min p ps) end.

Definition task_polls (source : AmsNetId) (target : TargetConfig) (ports : list Z) (c : Z) : list PlannedPoll * Z :=
  foldl (fun acc port =>
    (acc.1 ++ [planned source (tg_net_id target) port IG_RT_SYSTEM IO_TASK_STATS (Z.of_nat TASK_STATS_LEN) acc.2],
     next_id acc.2)) ([], c) ports.

Definition build_polls_for_target (target : TargetConfig) (source_net_id : AmsNetId) (invoke_counter : Z)
    : list PlannedPoll * Z :=
  let '(exceed, c) :=
    if tg_exceed_counter target then
      let port := default (tg_rt_port target) (min_port (tg_task_ports target)) in
      ([planned source_net_id (tg_net_id target) port IG_RT_SYSTEM IO_EXCEED_COUNTER 4 invoke_counter],
       next_id invoke_counter)
    else ([], invoke_counter) in
  let '(usage, c) :=
    if tg_rt_usage target then
      ([planned source_net_id (tg_net_id target) (tg_rt_port target) IG_RT_USAGE IO_RT_USAGE
          (Z.of_nat RT_USAGE_LEN) c], next_id c)
    else ([], c) in
  let '(tasks, c) := task_polls source_net_id target (tg_task_ports target) c in
  (exceed ++ usage ++ tasks, c).

(** ** The poller *)

Section Poller.
Context `{MP : Mpsc}.

Record DiagnosticsPoller := mkPoller {
  dp_config : PollerConfig;
  dp_observer : DiagnosticsObserver;
  dp_invoke_counter : Z;
  dp_event_tx : Sender (AmsNetId * DiagEvent);
  dp_task_names : gmap (AmsNetId * Z) string;
  dp_pending_device_info : gmap Z (AmsNetId * Z);
  dp_push_seen : gmap AmsNetId Z;
}.

(** The names of the configuration. *)
Definition seeded_names (targets : list TargetConfig) : gmap (AmsNetId * Z) string :=
  foldl (fun m t => map_fold (fun port name m => <[(tg_net_id t, port) := name]> m) m (tg_task_names t)) ∅ targets.

Definition DiagnosticsPoller_new (now : Z) (config : PollerConfig) (event_tx : Sender (AmsNetId * DiagEvent))
    : DiagnosticsPoller :=
  mkPoller config (Observer_new now) 1 event_tx (seeded_names (pc_targets config)) ∅ ∅.

Definition with_observer (o : DiagnosticsObserver) (p : DiagnosticsPoller) : DiagnosticsPoller :=
  mkPoller (dp_config p) o (dp_invoke_counter p) (dp_event_tx p) (dp_task_names p) (dp_pending_device_info p)
    (dp_push_seen p).

Definition with_counter (c : Z) (p : DiagnosticsPoller) : DiagnosticsPoller :=
  mkPoller (dp_config p) (dp_observer p) c (dp_event_tx p) (dp_task_names p) (dp_pending_device_info p)
    (dp_push_seen p).

Definition with_names (names : gmap (AmsNetId * Z) string) (pending : gmap Z (AmsNetId * Z)) (p : DiagnosticsPoller)
    : DiagnosticsPoller :=
  mkPoller (dp_config p) (dp_observer p) (dp_invoke_counter p) (dp_event_tx p) names pending (dp_push_seen p).

Definition with_events (tx : Sender (AmsNetId * DiagEvent)) (p : DiagnosticsPoller) : DiagnosticsPoller :=
  mkPoller (dp_config p) (dp_observer p) (dp_invoke_counter p) tx (dp_task_names p) (dp_pending_device_info p)
    (dp_push_seen p).

(** service.rs: the drain notes the time of the last event of a target. *)
Definition note_seen (now : Z) (net : AmsNetId) (p : DiagnosticsPoller) : DiagnosticsPoller :=
  mkPoller (dp_config p) (dp_observer p) (dp_invoke_counter p) (dp_event_tx p) (dp_task_names p)
    (dp_pending_device_info p) (<[net := now]> (dp_push_seen p)).

Definition suspended (now : Z) (net : AmsNetId) (p : DiagnosticsPoller) : bool :=
  match dp_push_seen p !! net with
  | Some last_push => now - last_push <? PUSH_SUSPEND_WINDOW
  | None => false
  end.

(** A tick of [target_loop] up to the loop over the polls. *)
Definition target_tick (now : Z) (target : TargetConfig) (p : DiagnosticsPoller)
    : DiagnosticsPoller * list PlannedPoll :=
  if suspended now (tg_net_id target) p then (p, [])
  else
    let '(polls, c) := build_polls_for_target target (pc_local_net_id (dp_config p)) (dp_invoke_counter p) in
    (with_counter c p, polls).

Definition request_topic (p : DiagnosticsPoller) (net : AmsNetId) : string :=
  pc_topic_prefix (dp_config p) +:+ "/" +:+ AmsNetId_to_string net +:+ "/ams".

(** The body of the loop over the polls: the request is tracked, then
    published. *)
Definition poll_send (now : Z) (poll : PlannedPoll) (p : DiagnosticsPoller)
    : DiagnosticsPoller * option (string * bytes) :=
  match AmsHeader_parse (pp_frame poll) with
  | Ok header =>
    (with_observer (feed now header (drop 32 (pp_frame poll)) (dp_observer p)).2 p,
     Some (request_topic p (pp_target_net_id poll), pp_frame poll))
  | _ => (p, None)
  end.

Definition on_response (now : Z) (payload : bytes) (p : DiagnosticsPoller) : DiagnosticsPoller :=
  match AmsHeader_parse payload with
  | Ok header =>
    if negb (bool_decide (target_net_id header = pc_local_net_id (dp_config p))) then p
    else if (length payload <? 32)%nat then p
    else
      let body := drop 32 payload in
      if command_id header =? ADS_CMD_READ_DEVICE_INFO then
        let pending := delete (invoke_id header) (dp_pending_device_info p) in
        match dp_pending_device_info p !! invoke_id header with
        | Some key =>
          match parse_device_info_name body with
          | Some name => with_names (<[key := name]> (dp_task_names p)) pending p
          | None => with_names (dp_task_names p) pending p
          end
        | None => with_names (dp_task_names p) pending p
        end
      else
        let '(event, o) := feed now header body (dp_observer p) in
        let p := with_observer o p in
        match event with
        | Ok ev => with_events (try_send (dp_event_tx p) (source_net_id header, ev)).1 p
        | _ => p
        end
  | _ => p
  end.

(** One turn of the loop of [discover_task_names]. *)
Definition discover_one (target : TargetConfig) (port : Z) (p : DiagnosticsPoller)
    : DiagnosticsPoller * (string * bytes) :=
  let invoke := dp_invoke_counter p in
  (with_names (dp_task_names p) (<[invoke := (tg_net_id target, port)]> (dp_pending_device_info p))
     (with_counter (next_id invoke) p),
   (request_topic p (tg_net_id target),
    build_read_device_info_frame (pc_local_net_id (dp_config p)) POLLER_SOURCE_PORT (tg_net_id target) port invoke)).

(** service.rs: a turn of the task that drains the events of the poller. *)
Section Drain.
Context `{EX : External}.
Variable local : string.
Variable clock : DateTime.
Variable iter : TaskRegistry -> list (RegistrationKey * TaskMetadata).

Definition poll_drain (now : Z) (registry : TaskRegistry) (ev : AmsNetId * DiagEvent)
    (metric_tx : option (Sender MetricEntry)) (p : DiagnosticsPoller)
    : DiagnosticsPoller * option (Sender MetricEntry) :=
  let p := note_seen now ev.1 p in
  let metrics := backfill_metrics_from_registry iter registry (diag_event_to_metrics local clock ev.1 ev.2 (dp_task_names p)) in
  (p, (fun tx => send_all tx metrics) <$> metric_tx).

End Drain.

(** service.rs, [build_poller_config]: [names_iter] is the order in which the
    map of names is iterated. *)
Section Build.
Variable names_iter : gmap string string -> list (string * string).

Definition poller_task_names (names : gmap string string) : gmap Z string :=
  foldl (fun m kv => match parse_uint 65535 kv.1 with Some port => <[port := kv.2]> m | None => m end) ∅
    (names_iter names).

(** An error carries the text that is not a Net ID. *)
Definition build_poller_target (t : DiagnosticsTargetConfig) : outcome (string * AdsError) TargetConfig :=
  match AmsNetId_from_str_ref (dt_ams_net_id t) with
  | Ok net_id =>
    Ok (mkTarget net_id (dt_poll_interval_ms t) (dt_exceed_counter t) (dt_rt_usage t) (dt_task_ports t)
          (dt_rt_port t) (poller_task_names (dt_task_names t)))
  | Err e => Err (dt_ams_net_id t, e)
  | Panic => Panic
  | OutOfFuel => OutOfFuel
  end.

Fixpoint build_poller_targets (l : list DiagnosticsTargetConfig) : outcome (string * AdsError) (list TargetConfig) :=
  match l with
  | [] => Ok []
  | t :: l => (t <-- build_poller_target t ;; l <-- build_poller_targets l ;; Ok (t :: l))%rust
  end.

Definition build_poller_config (broker_host : string) (broker_port : Z) (mqtt_cfg : MqttTransportConfig)
    (local_net_id : AmsNetId) (targets : list DiagnosticsTargetConfig) : outcome (string * AdsError) PollerConfig :=
  (parsed <-- build_poller_targets targets ;;
   Ok (mkPollerConfig broker_host broker_port (mq_client_id mqtt_cfg +:+ "-diag") (mq_topic_prefix mqtt_cfg)
         local_net_id parsed))%rust.

End Build.

(** ** The system *)

(** Each target has a ticker with the polls it has yet to send. *)
Record PollerSystem := mkSystem {
  sy_poller : DiagnosticsPoller;
  sy_queues : list (list PlannedPoll);
  sy_published : list (string * bytes);
}.

Inductive PollerEvent :=
| EvTick (now : Z) (i : nat)
| EvSend (now : Z) (i : nat)
| EvDiscover (i : nat) (port : Z)
| EvFrame (now : Z) (payload : bytes)
| EvDrained (now : Z) (net : AmsNetId).

Definition System_new (now : Z) (config : PollerConfig) (event_tx : Sender (AmsNetId * DiagEvent)) : PollerSystem :=
  mkSystem (DiagnosticsPoller_new now config event_tx) (map (fun _ => []) (pc_targets config)) [].

(** An event that a task is not ready for changes nothing: a ticker ticks only
    when all its polls are sent. *)
Definition poller_event (s : PollerSystem) (e : PollerEvent) : PollerSystem :=
  match e with
  | EvTick now i =>
    match pc_targets (dp_config (sy_poller s)) !! i, sy_queues s !! i with
    | Some target, Some [] =>
      let '(p, polls) := target_tick now target (sy_poller s) in
      mkSystem p (<[i := polls]> (sy_queues s)) (sy_published s)
    | _, _ => s
    end
  | EvSend now i =>
    match sy_queues s !! i with
    | Some (poll :: polls) =>
      let '(p, out) := poll_send now poll (sy_poller s) in
      mkSystem p (<[i := polls]> (sy_queues s)) (sy_published s ++ match out with Some o => [o] | None => [] end)
    | _ => s
    end
  | EvDiscover i port =>
    match pc_targets (dp_config (sy_poller s)) !! i with
    | Some target =>
      if bool_decide (port ∈ tg_task_ports target) then
        let '(p, out) := discover_one target port (sy_poller s) in
        mkSystem p (sy_queues s) (sy_published s ++ [out])
      else s
    | None => s
    end
  | EvFrame now payload => mkSystem (on_response now payload (sy_poller s)) (sy_queues s) (sy_published s)
  | EvDrained now net => mkSystem (note_seen now net (sy_poller s)) (sy_queues s) (sy_published s)
  end.

End Poller.

(** ** What is planned *)

(** The reads a target is due: port, index group and offset, and size. *)
Definition due_reads (target : TargetConfig) : list (Z * (Z * Z * Z)) :=
  (if tg_exceed_counter target
   then [(default (tg_rt_port target) (min_port (tg_task_ports target)), (IG_RT_SYSTEM, IO_EXCEED_COUNTER, 4))] else []) ++
  (if tg_rt_usage target then [(tg_rt_port target, (IG_RT_USAGE, IO_RT_USAGE, 24))] else []) ++
  map (fun port => (port, (IG_RT_SYSTEM, IO_TASK_STATS, 16))) (tg_task_ports target).

Definition poll_of (source net : AmsNetId) (id : Z) (q : Z * (Z * Z * Z)) : PlannedPoll :=
  planned source net q.1 q.2.1.1 q.2.1.2 q.2.2 id.

(** Consecutive numbers from [c]. *)
Fixpoint numbered (source net : AmsNetId) (c : Z) (l : list (Z * (Z * Z * Z))) : list PlannedPoll :=
  match l with [] => [] | q :: l => poll_of source net c q :: numbered source net (c + 1) l end.

Lemma next_id_small c : 0 <= c -> c + 1 < 2 ^ 32 -> next_id c = c + 1.
Proof. intros. unfold next_id. apply Z.mod_small. lia. Qed.

Lemma numbered_app source net c l1 l2 :
  numbered source net c (l1 ++ l2) = numbered source net c l1 ++ numbered source net (c + Z.of_nat (length l1)) l2.
Proof.
  revert c. induction l1 as [|q l1 IH]; intros c; simpl; [by rewrite Z.add_0_r|].
  rewrite IH. do 3 f_equal. lia.
Qed.

(** As long as the counter does not wrap. *)
Lemma task_polls_numbered source target ports c :
  0 <= c -> c + Z.of_nat (length ports) < 2 ^ 32 ->
  task_polls source target ports c =
  (numbered source (tg_net_id target) c (map (fun port => (port, (IG_RT_SYSTEM, IO_TASK_STATS, 16))) ports),
   c + Z.of_nat (length ports)).
Proof.
  intros Hc. unfold task_polls. induction ports as [|port ports IH] using rev_ind; intros Hn; [by rewrite Z.add_0_r|].
  rewrite length_app in Hn. simpl in Hn. rewrite foldl_app, IH by lia. simpl. rewrite map_app, numbered_app, length_map.
  rewrite next_id_small, length_app by lia. simpl. f_equal. lia.
Qed.

Lemma build_polls_numbered target source c :
  0 <= c -> c + Z.of_nat (length (due_reads target)) < 2 ^ 32 ->
  build_polls_for_target target source c =
  (numbered source (tg_net_id target) c (due_reads target), c + Z.of_nat (length (due_reads target))).
Proof.
  intros Hc. unfold due_reads, build_polls_for_target. rewrite !length_app, length_map, !numbered_app.
  destruct (tg_exceed_counter target), (tg_rt_usage target); cbn [length numbered app]; intros Hn;
    rewrite ?(next_id_small c) by lia; rewrite ?(next_id_small (c + 1)) by lia; rewrite task_polls_numbered by lia;
    cbn [app fst snd]; change (Z.of_nat 1) with 1; change (Z.of_nat 0) with 0; rewrite ?Z.add_0_r;
    f_equal; first [done|lia].
Qed.

(** ** Planned polls are recognised *)

Definition known_read (q : Z * Z * Z) : Prop :=
  q ∈ [(IG_RT_SYSTEM, IO_EXCEED_COUNTER, 4); (IG_RT_USAGE, IO_RT_USAGE, 24); (IG_RT_SYSTEM, IO_TASK_STATS, 16)].

Definition wf_target (t : TargetConfig) : Prop :=
  wf_net (tg_net_id t) /\ in_width 16 (tg_rt_port t) /\ Forall (in_width 16) (tg_task_ports t).

Record wf_poller (c : PollerConfig) : Prop := {
  wp_local : wf_net (pc_local_net_id c);
  wp_targets : Forall wf_target (pc_targets c);
}.

(** A poll of [source] with a number the counter can have. *)
Definition sound_poll (source : AmsNetId) (p : PlannedPoll) : Prop :=
  exists net id q, p = poll_of source net id q /\ wf_net net /\ in_width 16 q.1 /\ in_width 32 id /\ known_read q.2.

Lemma min_port_width ports rt :
  in_width 16 rt -> Forall (in_width 16) ports -> in_width 16 (default rt (min_port ports)).
Proof.
  intros Hr Hp. destruct ports as [|p ports]; [done|]. simpl. inversion Hp as [|? ? H1 H2]; subst. clear Hp.
  revert p H1. induction H2 as [|q ports Hq _ IH]; intros p Hp; [done|]. simpl. apply IH. unfold in_width in *. lia.
Qed.

Lemma due_reads_known t :
  wf_target t -> Forall (fun q => in_width 16 q.1 /\ known_read q.2) (due_reads t).
Proof.
  intros (_ & Hr & Hp). unfold due_reads. rewrite !Forall_app, Forall_map. split_and!.
  - case_match; [|done]. constructor; [|done]. split; [by apply min_port_width|]. left.
  - case_match; [|done]. constructor; [|done]. split; [done|]. right. left.
  - eapply Forall_impl; [exact Hp|]. intros port Hport. split; [done|]. right. right. left.
Qed.

Lemma numbered_sound source net c l :
  wf_net net -> 0 <= c -> c + Z.of_nat (length l) < 2 ^ 32 ->
  Forall (fun q => in_width 16 q.1 /\ known_read q.2) l ->
  Forall (fun p => sound_poll source p /\ c <= pp_invoke_id p < c + Z.of_nat (length l)) (numbered source net c l).
Proof.
  intros Hnet. revert c. induction l as [|q l IH]; intros c Hc Hn Hl; [constructor|].
  inversion Hl as [|? ? [Hq Hk] Hl']; subst. cbn [length numbered] in *. constructor.
  - split; [|simpl; lia]. exists net, c, q. unfold in_width at 2. split_and!; [done..|lia|lia|done].
  - eapply Forall_impl; [apply IH; [lia|lia|done]|]. intros p [? ?]. split; [done|lia].
Qed.

Lemma numbered_NoDup source net c l : NoDup (map pp_invoke_id (numbered source net c l)).
Proof.
  revert c. induction l as [|q l IH]; intros c; [constructor|]. cbn [numbered map]. constructor; [|done].
  assert (H : forall c' l, c < c' -> c ∉ map pp_invoke_id (numbered source net c' l)).
  { clear. intros c' l. revert c'. induction l as [|q l IH]; intros c' Hc; [apply not_elem_of_nil|].
    cbn [numbered map]. rewrite not_elem_of_cons. split; [simpl; lia|]. apply IH. lia. }
  apply H. simpl. lia.
Qed.

(** The header of a poll, and the request the observer sees in it. *)
Definition poll_header (source : AmsNetId) (p : PlannedPoll) : AmsHeader :=
  read_header source POLLER_SOURCE_PORT (pp_target_net_id p) (pp_target_port p) (pp_invoke_id p).

Definition poll_request (p : PlannedPoll) : PendingRequest :=
  mkPending ADS_CMD_READ (pp_index_group p) (pp_index_offset p) (pp_read_size p) (pp_target_port p).

Lemma sound_poll_header source p : wf_net source -> sound_poll source p -> wf_header (poll_header source p).
Proof. intros Hs (net & id & q & -> & Hn & Hq & Hi & _). by split. Qed.

Lemma sound_poll_frame source p :
  wf_net source -> sound_poll source p ->
  AmsHeader_parse (pp_frame p) = Ok (poll_header source p) /\
  decode_request (poll_header source p) (drop 32 (pp_frame p)) = Ok (pp_invoke_id p, poll_request p).
Proof.
  intros Hs Hp. pose proof (sound_poll_header source p Hs Hp) as Hw.
  pose proof (length_AmsHeader_serialize _ Hw) as Hlen.
  destruct Hp as (net & id & [port [[ig io] size]] & -> & Hn & Hq & Hi & Hk).
  cbn [poll_of planned pp_frame pp_invoke_id pp_index_group pp_index_offset pp_read_size pp_target_port fst snd] in *.
  unfold build_read_frame. split; [by apply AmsHeader_parse_app|].
  change (read_header source POLLER_SOURCE_PORT net port id) with (poll_header source (poll_of source net id (port, (ig, io, size)))).
  rewrite drop_app_length' by done. unfold decode_request. cbn [state_flags command_id poll_header read_header].
  cbn [Z.eqb Pos.eqb negb orb ADS_STATE_REQUEST ADS_CMD_READ].
  assert (Hw3 : in_width 32 ig /\ in_width 32 io /\ in_width 32 size /\ is_known_read ig io = true).
  { unfold known_read in Hk. rewrite !elem_of_cons in Hk.
    destruct Hk as [[= -> -> ->]|[[= -> -> ->]|[[= -> -> ->]|Hk]]]; [done..|]. by apply elem_of_nil in Hk. }
  destruct Hw3 as (Hig & Hio & Hsz & Hkn). rewrite !length_app, !length_le_encode. cbn [Nat.ltb Nat.leb Nat.add].
  destruct (three_words (E:=unit) ig io size [] Hig Hio Hsz) as (H1 & H2 & H3). rewrite app_nil_r in H1, H2, H3.
  rewrite H1, H2, H3. cbn [outcome_bind]. rewrite Hkn. done.
Qed.

(** ** Numbers are not reused *)

Section Runs.
Context `{MP : Mpsc}.

Definition run (s : PollerSystem) (evs : list PollerEvent) : PollerSystem := foldl poller_event s evs.

(** The polls planned and not sent. *)
Definition unsent (s : PollerSystem) : list PlannedPoll := concat (sy_queues s).

(** How many numbers an event, and a run, draws. *)
Definition draws (s : PollerSystem) (e : PollerEvent) : nat :=
  match e with
  | EvTick now i =>
    match pc_targets (dp_config (sy_poller s)) !! i, sy_queues s !! i with
    | Some target, Some [] =>
      if suspended now (tg_net_id target) (sy_poller s) then 0 else length (due_reads target)
    | _, _ => 0
    end
  | EvDiscover _ _ => 1
  | _ => 0
  end.

Fixpoint drawn (s : PollerSystem) (evs : list PollerEvent) : Z :=
  match evs with [] => 0 | e :: evs => Z.of_nat (draws s e) + drawn (poller_event s e) evs end.

(** After [n] numbers: the counter stands behind them, and the polls not yet
    sent are sound and have different ones. *)
Record system_inv (cfg : PollerConfig) (n : Z) (s : PollerSystem) : Prop := {
  si_config : dp_config (sy_poller s) = cfg;
  si_counter : 1 <= dp_invoke_counter (sy_poller s) <= 1 + n;
  si_unsent : Forall (fun p => sound_poll (pc_local_net_id cfg) p /\
                1 <= pp_invoke_id p < dp_invoke_counter (sy_poller s)) (unsent s);
  si_distinct : NoDup (map pp_invoke_id (unsent s));
}.

Lemma queue_update (qs : list (list PlannedPoll)) i q :
  qs !! i = Some q ->
  exists rest, concat qs ≡ₚ q ++ rest /\ forall q', concat (<[i := q']> qs) ≡ₚ q' ++ rest.
Proof.
  intros Hq. exists (concat (take i qs ++ drop (S i) qs)).
  assert (H : forall q', concat (take i qs ++ q' :: drop (S i) qs) ≡ₚ q' ++ concat (take i qs ++ drop (S i) qs)).
  { intros q'. rewrite !concat_app. cbn [concat]. by rewrite Permutation_app_swap_app. }
  split.
  - rewrite <- H. by rewrite take_drop_middle.
  - intros q'. rewrite <- H. rewrite insert_take_drop by by apply lookup_lt_Some in Hq. done.
Qed.

(** The three ways in which an event changes what is unsent. *)
Lemma event_unsent s e :
  unsent (poller_event s e) ≡ₚ unsent s \/
  (exists now i target, e = EvTick now i /\ pc_targets (dp_config (sy_poller s)) !! i = Some target /\
     sy_queues s !! i = Some [] /\ unsent (poller_event s e) ≡ₚ (target_tick now target (sy_poller s)).2 ++ unsent s) \/
  (exists now i poll rest, e = EvSend now i /\ sy_queues s !! i = Some (poll :: rest) /\
     unsent s ≡ₚ poll :: unsent (poller_event s e)).
Proof.
  destruct e as [now i|now i|i port|now payload|now net]; simpl.
  - destruct (pc_targets _ !! i) as [target|] eqn:Ht; [|by left].
    destruct (sy_queues s !! i) as [[|poll rest]|] eqn:Hq; [|by left..]. right. left. exists now, i, target.
    destruct (target_tick now target (sy_poller s)) as [p polls]. split_and!; [done..|].
    destruct (queue_update _ _ _ Hq) as (r & H1 & H2). unfold unsent. cbn [sy_queues]. by rewrite H2, H1.
  - destruct (sy_queues s !! i) as [[|poll rest]|] eqn:Hq; [by left| |by left]. right. right.
    exists now, i, poll, rest. destruct (poll_send now poll (sy_poller s)) as [p out]. split_and!; [done..|].
    destruct (queue_update _ _ _ Hq) as (r & H1 & H2). unfold unsent. cbn [sy_queues]. by rewrite H2, H1.
  - left. repeat case_match; done.
  - by left.
  - by left.
Qed.

(** What an event leaves of the rest of the poller. *)
Lemma on_response_frame now payload p :
  let p' := on_response now payload p in
  dp_config p' = dp_config p /\ dp_invoke_counter p' = dp_invoke_counter p /\ dp_push_seen p' = dp_push_seen p.
Proof.
  simpl. unfold on_response. destruct (AmsHeader_parse payload); try done.
  destruct (feed _ _ _ _) as [ev o]. repeat (case_match; try done).
Qed.

Lemma tick_inv cfg n s now i target :
  wf_poller cfg -> system_inv cfg n s -> pc_targets (dp_config (sy_poller s)) !! i = Some target ->
  sy_queues s !! i = Some [] ->
  1 + n + Z.of_nat (draws s (EvTick now i)) < 2 ^ 32 ->
  exists k, target_tick now target (sy_poller s) =
    (with_counter (dp_invoke_counter (sy_poller s) + Z.of_nat k) (sy_poller s),
     numbered (pc_local_net_id cfg) (tg_net_id target) (dp_invoke_counter (sy_poller s)) (take k (due_reads target))) /\
    k = draws s (EvTick now i) /\ length (take k (due_reads target)) = k /\ wf_target target.
Proof.
  intros Hw [Hcfg Hc _ _] Ht Hq Hn. exists (draws s (EvTick now i)). unfold draws in *. rewrite Ht, Hq in *.
  assert (Htw : wf_target target).
  { rewrite Hcfg in Ht. exact (Forall_lookup_1 _ _ _ _ (wp_targets cfg Hw) Ht). }
  unfold target_tick. destruct (suspended _ _ _).
  - split_and!; [|done..]. rewrite Z.add_0_r. by destruct (sy_poller s).
  - rewrite Hcfg, build_polls_numbered by lia. rewrite take_ge by lia. by split_and!.
Qed.

Lemma event_counter cfg n s e :
  wf_poller cfg -> system_inv cfg n s -> 1 + n + Z.of_nat (draws s e) < 2 ^ 32 ->
  dp_config (sy_poller (poller_event s e)) = cfg /\
  dp_invoke_counter (sy_poller s) <= dp_invoke_counter (sy_poller (poller_event s e)) <=
    dp_invoke_counter (sy_poller s) + Z.of_nat (draws s e).
Proof.
  intros Hw Hi Hn. pose proof (si_config _ _ _ Hi) as Hcfg. pose proof (si_counter _ _ _ Hi) as Hc.
  destruct e as [now i|now i|i port|now payload|now net].
  - pose proof (fun target => tick_inv cfg n s now i target Hw Hi) as H. revert H. unfold draws, poller_event.
    destruct (pc_targets _ !! i) as [target|] eqn:Ht; [|intros _; simpl; split; [done|lia]].
    destruct (sy_queues s !! i) as [[|poll rest]|] eqn:Hq; [|intros _; simpl; split; [done|lia]..].
    intros H. destruct (H target eq_refl eq_refl) as (k & -> & Hk & _).
    { revert Hn. unfold draws. by rewrite Ht, Hq. }
    rewrite <- Hk. simpl. split; [done|lia].
  - unfold poller_event, poll_send. destruct (sy_queues s !! i) as [[|poll rest]|]; [|destruct (AmsHeader_parse _)|];
      simpl; split; (done || lia).
  - unfold poller_event, discover_one. destruct (pc_targets _ !! i); [|simpl; split; [done|lia]].
    case_match; simpl in *; rewrite ?next_id_small by lia; split; (done || lia).
  - destruct (on_response_frame now payload (sy_poller s)) as (H1 & H2 & _). simpl in *. rewrite H1, H2.
    split; [done|lia].
  - simpl. split; [done|lia].
Qed.

Lemma event_inv cfg n s e :
  wf_poller cfg -> system_inv cfg n s -> 1 + n + Z.of_nat (draws s e) < 2 ^ 32 ->
  system_inv cfg (n + Z.of_nat (draws s e)) (poller_event s e).
Proof.
  intros Hw Hi Hn. destruct (event_counter cfg n s e Hw Hi Hn) as [H1 H2]. destruct (event_unsent s e) as [Hu|[(now & i & target & -> & Ht & Hq & Hu)|(now & i & poll & rest & -> & Hq & Hu)]].
  - destruct Hi as [_ Hc Hf Hd]. split; [done|lia|..].
    + rewrite Hu. eapply Forall_impl; [exact Hf|]. intros p [? ?]. split; [done|lia].
    + by rewrite Hu.
  - destruct (tick_inv cfg n s now i target Hw Hi Ht Hq Hn) as (k & Htick & Hk & Hlen & Htw). rewrite <- Hk in *.
    destruct Hi as [Hcfg Hc Hf Hd].
    assert (Hp : sy_poller (poller_event s (EvTick now i)) =
      with_counter (dp_invoke_counter (sy_poller s) + Z.of_nat k) (sy_poller s)).
    { simpl. rewrite Ht, Hq, Htick. done. }
    rewrite Htick in Hu. cbn [snd] in Hu. split; [done|lia|..].
    + rewrite Hu, Hp. apply Forall_app. split.
      * eapply Forall_impl; [apply numbered_sound; [apply Htw|lia|rewrite Hlen; lia|apply Forall_take, due_reads_known, Htw]|].
        intros p [? ?]. split; [done|]. simpl. lia.
      * eapply Forall_impl; [exact Hf|]. intros p [? ?]. split; [done|]. simpl. lia.
    + rewrite Hu, map_app. apply NoDup_app. split_and!; [apply numbered_NoDup| |done].
      intros x Hx1 Hx2. apply list_elem_of_fmap in Hx1 as (p1 & -> & Hp1). apply list_elem_of_fmap in Hx2 as (p2 & Heq & Hp2).
      rewrite Forall_forall in Hf. destruct (Hf _ Hp2) as [_ ?].
      pose proof (numbered_sound (pc_local_net_id cfg) (tg_net_id target) (dp_invoke_counter (sy_poller s))
        (take k (due_reads target)) (proj1 Htw) ltac:(lia) ltac:(rewrite Hlen; lia)
        (Forall_take _ _ _ (due_reads_known _ Htw))) as Hs. rewrite Forall_forall in Hs.
      destruct (Hs _ Hp1) as [_ ?]. lia.
  - destruct Hi as [Hcfg Hc Hf Hd]. rewrite Hu in Hf, Hd. simpl in Hd.
    inversion Hf as [|? ? _ Hf']; inversion Hd as [|? ? _ Hd']; subst. split; [done|simpl in *; lia| |done].
    eapply Forall_impl; [exact Hf'|]. intros p [? ?]. split; [done|lia].
Qed.

Lemma drawn_nonneg s evs : 0 <= drawn s evs.
Proof. revert s. induction evs as [|e evs IH]; intros s; simpl; [lia|]. specialize (IH (poller_event s e)). lia. Qed.

Lemma drawn_app s l1 l2 : drawn s (l1 ++ l2) = drawn s l1 + drawn (run s l1) l2.
Proof. revert s. induction l1 as [|e l1 IH]; intros s; simpl; [done|]. rewrite IH. simpl. lia. Qed.

Lemma run_inv cfg n s evs :
  wf_poller cfg -> system_inv cfg n s -> 1 + n + drawn s evs < 2 ^ 32 ->
  system_inv cfg (n + drawn s evs) (run s evs).
Proof.
  intros Hw. revert n s. induction evs as [|e evs IH]; intros n s Hi Hn; simpl in *; [by rewrite Z.add_0_r|].
  pose proof (drawn_nonneg (poller_event s e) evs). rewrite Z.add_assoc. apply IH; [|lia].
  apply event_inv; [done..|lia].
Qed.

Lemma System_new_inv now cfg tx : system_inv cfg 0 (System_new now cfg tx).
Proof.
  split; [done|simpl; lia|..]; replace (unsent (System_new now cfg tx)) with (@nil PlannedPoll); try constructor;
    unfold unsent; cbn [System_new sy_queues]; induction (pc_targets cfg); done.
Qed.

(** ** The answer to a poll *)

(** [x] was drawn and belongs to no poll that is still to be sent. *)
Definition spent (x : Z) (s : PollerSystem) : Prop :=
  1 <= x < dp_invoke_counter (sy_poller s) /\ x ∉ map pp_invoke_id (unsent s).

Lemma event_spent cfg n s e x :
  wf_poller cfg -> system_inv cfg n s -> 1 + n + Z.of_nat (draws s e) < 2 ^ 32 -> spent x s -> spent x (poller_event s e).
Proof.
  intros Hw Hi Hn [Hx Hnot]. destruct (event_counter cfg n s e Hw Hi Hn) as [_ Hc]. split; [lia|].
  destruct (event_unsent s e) as [Hu|[(now & i & target & -> & Ht & Hq & Hu)|(now & i & poll & rest & -> & Hq & Hu)]].
  - by rewrite Hu.
  - destruct (tick_inv cfg n s now i target Hw Hi Ht Hq Hn) as (k & Htick & Hk & Hlen & Htw).
    pose proof (si_counter _ _ _ Hi) as Hcount. rewrite Htick in Hu. rewrite Hu, map_app, not_elem_of_app. split; [|done].
    intros Hin. apply list_elem_of_fmap in Hin as (p & -> & Hp).
    pose proof (numbered_sound (pc_local_net_id cfg) (tg_net_id target) (dp_invoke_counter (sy_poller s))
      (take k (due_reads target)) (proj1 Htw) ltac:(lia) ltac:(rewrite Hlen; lia)
      (Forall_take _ _ _ (due_reads_known _ Htw))) as Hs. rewrite Forall_forall in Hs. destruct (Hs _ Hp) as [_ ?]. lia.
  - rewrite Hu in Hnot. cbn [map] in Hnot. by apply not_elem_of_cons in Hnot as [_ ?].
Qed.

(** An event before [t] that is not a frame of the conversation [k]. *)
Definition unrelated (k : CorrelationKey) (t : Z) (e : PollerEvent) : Prop :=
  match e with
  | EvSend now _ => now <= t
  | EvFrame now payload => now <= t /\ forall h, AmsHeader_parse payload = Ok h -> other_frame k (now, h, drop 32 payload)
  | _ => True
  end.

Lemma event_awaits cfg n s e net x entry :
  wf_poller cfg -> system_inv cfg n s -> spent x s ->
  let k := (net_bytes net, net_bytes (pc_local_net_id cfg), x) in
  unrelated k (pe_inserted entry + PENDING_TTL) e ->
  ob_pending (dp_observer (sy_poller s)) !! k = Some entry ->
  ob_pending (dp_observer (sy_poller (poller_event s e))) !! k = Some entry.
Proof.
  intros Hw Hi [_ Hx] k Hun Hk. destruct e as [now i|now i|i port|now payload|now nt]; simpl in Hun; unfold poller_event.
  - destruct (pc_targets _ !! i), (sy_queues s !! i) as [[|]|]; try done. unfold target_tick.
    destruct (suspended _ _ _); [done|]. by destruct (build_polls_for_target _ _ _).
  - destruct (sy_queues s !! i) as [[|poll rest]|] eqn:Hq; try done.
    destruct (queue_update _ _ _ Hq) as (r & Hr & _). pose proof (si_unsent _ _ _ Hi) as Hf. unfold unsent in *.
    rewrite Hr in Hf, Hx. cbn [app map] in Hx. apply not_elem_of_cons in Hx as [Hx _].
    inversion Hf as [|? ? [Hs _] _]; subst.
    destruct (sound_poll_frame _ _ (wp_local _ Hw) Hs) as [Hparse _]. unfold poll_send. rewrite Hparse. simpl.
    apply (feed_keeps (now, poll_header (pc_local_net_id cfg) poll, drop 32 (pp_frame poll))); [done|simpl; lia|].
    split; simpl; intros Heq; injection Heq; intros; by subst.
  - destruct (pc_targets _ !! i); [|done]. unfold discover_one. by case_match.
  - destruct Hun as [Hnow Hother]. simpl. unfold on_response.
    destruct (AmsHeader_parse payload) as [h| | |]; try done. specialize (Hother h eq_refl).
    pose proof (feed_keeps (now, h, drop 32 payload) (dp_observer (sy_poller s)) k entry Hk ltac:(simpl; lia) Hother) as Hfeed.
    simpl in Hfeed. destruct (feed now h _ _) as [ev o]. simpl in Hfeed. repeat (case_match; try done).
  - done.
Qed.

Lemma run_awaits cfg n s evs net x entry :
  wf_poller cfg -> system_inv cfg n s -> 1 + n + drawn s evs < 2 ^ 32 -> spent x s ->
  let k := (net_bytes net, net_bytes (pc_local_net_id cfg), x) in
  Forall (unrelated k (pe_inserted entry + PENDING_TTL)) evs ->
  ob_pending (dp_observer (sy_poller s)) !! k = Some entry ->
  ob_pending (dp_observer (sy_poller (run s evs))) !! k = Some entry.
Proof.
  intros Hw. revert n s. induction evs as [|e evs IH]; intros n s Hi Hn Hx k Hall Hk; [done|].
  inversion Hall; subst. simpl in *. pose proof (drawn_nonneg (poller_event s e) evs).
  eapply (IH (n + Z.of_nat (draws s e))); [|lia| |done|].
  - apply event_inv; [done..|lia].
  - eapply event_spent; [done|exact Hi|lia|done].
  - by eapply event_awaits.
Qed.

(** What a PLC answers to a poll. *)
Definition answer_header (source : AmsNetId) (p : PlannedPoll) (data : bytes) : AmsHeader :=
  mkHeader source POLLER_SOURCE_PORT (pp_target_net_id p) (pp_target_port p) ADS_CMD_READ ADS_STATE_RESPONSE
    (8 + len data) 0 (pp_invoke_id p).

Definition answer_frame (source : AmsNetId) (p : PlannedPoll) (data : bytes) : bytes :=
  AmsHeader_serialize (answer_header source p data) ++ le_encode 4 0 ++ le_encode 4 (len data) ++ data.

(** The little-endian field of bytes [a] to [b]. *)
Definition field (data : bytes) (a b : nat) : Z := le_decode (take (b - a) (drop a data)).

(** The event the data stand for. *)
Definition poll_value (p : PlannedPoll) (data : bytes) : DiagEvent :=
  if pp_index_group p =? IG_RT_USAGE then RtUsage (field data 4 8) (field data 8 12) (field data 16 20)
  else if pp_index_offset p =? IO_EXCEED_COUNTER then ExceedCounter (field data 0 4)
  else TaskStats (pp_target_port p) (field data 2 4) (field data 0 2) (field data 4 8) (field data 8 12).

Lemma answer_decodes source p data :
  sound_poll source p -> Z.of_nat (length data) = pp_read_size p ->
  decode_response (answer_header source p data) (le_encode 4 0 ++ le_encode 4 (len data) ++ data) (poll_request p) =
  Ok (poll_value p data).
Proof.
  intros (net & id & [port [[ig io] size]] & -> & _ & _ & _ & Hk) Hlen.
  cbn [poll_of planned pp_read_size fst snd] in Hlen.
  assert (Hsz : length data = Z.to_nat size) by lia. unfold decode_response. cbn [answer_header state_flags Z.land].
  change (Z.land ADS_STATE_RESPONSE ADS_STATE_RESPONSE_MASK =? 0) with false. cbn [poll_request pq_command_id].
  change (ADS_CMD_READ =? ADS_CMD_READ) with true. unfold decode_read_response. rewrite !length_app, !length_le_encode.
  rewrite (proj2 (Nat.ltb_ge _ _)) by lia.
  assert (Hcase : size = 4 /\ ig = IG_RT_SYSTEM /\ io = IO_EXCEED_COUNTER \/ size = 24 /\ ig = IG_RT_USAGE /\ io = IO_RT_USAGE \/
                  size = 16 /\ ig = IG_RT_SYSTEM /\ io = IO_TASK_STATS).
  { unfold known_read in Hk. rewrite !elem_of_cons, elem_of_nil in Hk.
    destruct Hk as [[= -> -> ->]|[[= -> -> ->]|[[= -> -> ->]|[]]]]; tauto. }
  assert (Hw : in_width 32 (len data)) by (unfold in_width, len; lia).
  assert (H0 : in_width 32 0) by (unfold in_width; lia).
  pose proof (le_word_at (E:=unit) [] 4 0 (le_encode 4 (len data) ++ data) 0 4 eq_refl eq_refl H0) as H1.
  rewrite app_nil_l in H1. rewrite H1, (le_word_at (le_encode 4 0) 4 (len data)) by done. clear H0 H1.
  cbn [outcome_bind]. change (negb (0 =? 0)) with false. cbv iota.
  assert (Hslice : slice_at (le_encode 4 0 ++ le_encode 4 (len data) ++ data) 8 (8 + Z.to_nat (len data)) = Some data).
  { unfold len at 2. rewrite Nat2Z.id, app_assoc.
    pose proof (slice_at_app (le_encode 4 0 ++ le_encode 4 (len data)) data [] 8 (8 + length data)) as H.
    rewrite app_nil_r in H. by apply H. }
  cbv zeta. rewrite Hslice. replace (Z.to_nat (len data)) with (Z.to_nat size) by (unfold len; lia).
  unfold poll_value, field. cbn [poll_of planned pp_index_group pp_index_offset pp_target_port fst snd].
  destruct Hcase as [(-> & -> & ->)|[(-> & -> & ->)|(-> & -> & ->)]].
  - rewrite drop_0, (take_ge data (4 - 0)) by (simpl; lia). done.
  - cbn -[le_decode le_or_panic take drop]. by reads_ok.
  - cbn -[le_decode le_or_panic take drop]. by reads_ok.
Qed.

(** Sending tracks the poll. *)
Lemma send_awaits cfg n s now i poll rest :
  wf_poller cfg -> system_inv cfg n s -> sy_queues s !! i = Some (poll :: rest) ->
  let s' := poller_event s (EvSend now i) in
  sound_poll (pc_local_net_id cfg) poll /\ spent (pp_invoke_id poll) s' /\
  (request_topic (sy_poller s) (pp_target_net_id poll), pp_frame poll) ∈ sy_published s' /\
  ob_pending (dp_observer (sy_poller s')) !!
    (net_bytes (pp_target_net_id poll), net_bytes (pc_local_net_id cfg), pp_invoke_id poll) =
  Some (mkPendingEntry (poll_request poll) now).
Proof.
  intros Hw Hi Hq s'. destruct (queue_update _ _ _ Hq) as (r & Hr & Hr').
  pose proof (si_unsent _ _ _ Hi) as Hf. pose proof (si_distinct _ _ _ Hi) as Hd. unfold unsent in Hf, Hd.
  rewrite Hr in Hf, Hd. cbn [app map] in Hd. inversion Hf as [|? ? [Hs Hid] _]. inversion Hd as [|? ? Hnot _]. subst.
  destruct (sound_poll_frame _ _ (wp_local _ Hw) Hs) as [Hparse Hdec].
  assert (Hs' : s' = mkSystem (with_observer (feed now (poll_header (pc_local_net_id cfg) poll)
    (drop 32 (pp_frame poll)) (dp_observer (sy_poller s))).2 (sy_poller s)) (<[i := rest]> (sy_queues s))
    (sy_published s ++ [(request_topic (sy_poller s) (pp_target_net_id poll), pp_frame poll)])).
  { unfold s', poller_event, poll_send. by rewrite Hq, Hparse. }
  rewrite Hs'. split_and!; [done|..].
  - split; [done|]. unfold unsent. cbn [sy_queues]. by rewrite Hr'.
  - apply elem_of_app. right. by left.
  - simpl. unfold feed. change (Z.land (state_flags (poll_header (pc_local_net_id cfg) poll)) 1 =? 0) with true. cbv iota.
    replace (decode_write_from_request (poll_header (pc_local_net_id cfg) poll) (drop 32 (pp_frame poll))) with (@Err unit DiagEvent tt) by done.
    rewrite Hdec. cbn [snd ob_pending]. apply lookup_insert_eq.
Qed.

Lemma answer_header_wf source p data :
  wf_net source -> sound_poll source p -> Z.of_nat (length data) = pp_read_size p -> wf_header (answer_header source p data).
Proof.
  intros Hs (net & id & [port [[ig io] size]] & -> & Hn & Hq & Hi & Hk) Hlen.
  cbn [poll_of planned pp_read_size fst snd] in Hlen.
  assert (Hsz : 0 <= size <= 24).
  { unfold known_read in Hk. rewrite !elem_of_cons, elem_of_nil in Hk.
    destruct Hk as [[= -> -> ->]|[[= -> -> ->]|[[= -> -> ->]|[]]]]; lia. }
  split; try done; simpl; unfold in_width, len; lia.
Qed.

Lemma on_response_answer now cfg p poll data entry :
  wf_poller cfg -> dp_config p = cfg -> sound_poll (pc_local_net_id cfg) poll ->
  Z.of_nat (length data) = pp_read_size poll ->
  let k := (net_bytes (pp_target_net_id poll), net_bytes (pc_local_net_id cfg), pp_invoke_id poll) in
  ob_pending (dp_observer p) !! k = Some entry -> now - PENDING_TTL <= pe_inserted entry ->
  pe_req entry = poll_request poll ->
  exists o, ob_pending o !! k = None /\
    on_response now (answer_frame (pc_local_net_id cfg) poll data) p =
    with_events (try_send (dp_event_tx p) (pp_target_net_id poll, poll_value poll data)).1 (with_observer o p).
Proof.
  intros Hw Hcfg Hs Hlen k Hk Hnow Hreq. set (local := pc_local_net_id cfg) in *.
  pose proof (answer_header_wf local poll data (wp_local _ Hw) Hs Hlen) as Hh.
  pose proof (length_AmsHeader_serialize _ Hh) as Hl. unfold on_response, answer_frame.
  rewrite AmsHeader_parse_app by done. cbn [answer_header target_net_id command_id]. rewrite Hcfg.
  rewrite bool_decide_true by done. cbn [negb]. rewrite length_app, Hl. cbn [Nat.ltb Nat.leb Nat.add].
  rewrite drop_app_length' by done. change (ADS_CMD_READ =? ADS_CMD_READ_DEVICE_INFO) with false. cbv iota zeta.
  unfold feed. cbn [state_flags answer_header]. change (Z.land ADS_STATE_RESPONSE 1 =? 0) with false. cbv iota.
  change (response_key (answer_header local poll data)) with k.
  rewrite (maybe_gc_keeps _ _ _ _ Hk Hnow), Hreq, answer_decodes by done.
  eexists. split; [|reflexivity]. apply lookup_delete_eq.
Qed.

(** C27: Every poll the poller sends is answered by its event. Whatever happened
    before and happens in between (ticks and polls of any targets, name
    discoveries, frames of other conversations, drained events), a poll that
    was sent is a read request its own observer tracks, and the PLC's answer
    within the TTL offers exactly one event to the channel, tagged with the PLC
    and with the values at their places in the data, and ends the tracking:
    numbers of requests under way are never reused before the 32-bit counter
    wraps. *)
Theorem polls_answered cfg tx now0 evs1 i poll rest t1 evs2 t2 data :
  wf_poller cfg ->
  let s0 := System_new now0 cfg tx in
  let s1 := run s0 evs1 in
  sy_queues s1 !! i = Some (poll :: rest) ->
  1 + drawn s0 (evs1 ++ EvSend t1 i :: evs2) < 2 ^ 32 ->
  let k := (net_bytes (pp_target_net_id poll), net_bytes (pc_local_net_id cfg), pp_invoke_id poll) in
  Forall (unrelated k (t1 + PENDING_TTL)) evs2 -> t2 <= t1 + PENDING_TTL ->
  Z.of_nat (length data) = pp_read_size poll ->
  let s2 := run s1 (EvSend t1 i :: evs2) in
  (request_topic (sy_poller s1) (pp_target_net_id poll), pp_frame poll) ∈ sy_published (poller_event s1 (EvSend t1 i)) /\
  AmsHeader_parse (pp_frame poll) = Ok (poll_header (pc_local_net_id cfg) poll) /\
  exists o, ob_pending o !! k = None /\
    on_response t2 (answer_frame (pc_local_net_id cfg) poll data) (sy_poller s2) =
    with_events (try_send (dp_event_tx (sy_poller s2)) (pp_target_net_id poll, poll_value poll data)).1
      (with_observer o (sy_poller s2)).
Proof.
  intros Hw s0 s1 Hq Hn k Hun Ht2 Hlen s2. rewrite drawn_app in Hn. fold s1 in Hn. cbn [drawn] in Hn.
  change (Z.of_nat (draws s1 (EvSend t1 i))) with 0 in Hn.
  pose proof (drawn_nonneg (poller_event s1 (EvSend t1 i)) evs2) as Hpos.
  pose proof (run_inv cfg 0 s0 evs1 Hw (System_new_inv now0 cfg tx) ltac:(lia)) as Hi. fold s1 in Hi.
  destruct (send_awaits cfg _ s1 t1 i poll rest Hw Hi Hq) as (Hs & Hx & Hpub & Hk).
  pose proof (event_inv cfg _ s1 (EvSend t1 i) Hw Hi) as Hi'.
  change (Z.of_nat (draws s1 (EvSend t1 i))) with 0 in Hi'. specialize (Hi' ltac:(lia)).
  pose proof (run_awaits cfg _ _ evs2 (pp_target_net_id poll) (pp_invoke_id poll) (mkPendingEntry (poll_request poll) t1)
    Hw Hi' ltac:(lia) Hx Hun Hk) as Hk2.
  pose proof (si_config _ _ _ (run_inv cfg _ _ evs2 Hw Hi' ltac:(lia))) as Hcfg.
  split_and!; [done|by apply sound_poll_frame; [apply Hw|]|].
  eapply on_response_answer; [done|exact Hcfg|done|done|exact Hk2|simpl; lia|done].
Qed.

(** ** Suspension *)

Lemma event_seen s e t net :
  (exists t', dp_push_seen (sy_poller s) !! net = Some t' /\ t <= t') ->
  (forall now net', e = EvDrained now net' -> t <= now) ->
  exists t', dp_push_seen (sy_poller (poller_event s e)) !! net = Some t' /\ t <= t'.
Proof.
  intros (t' & Hs & Ht) He. destruct e as [now i|now i|i port|now payload|now net']; unfold poller_event.
  - destruct (pc_targets _ !! i), (sy_queues s !! i) as [[|]|]; eauto. unfold target_tick.
    destruct (suspended _ _ _); [eauto|]. destruct (build_polls_for_target _ _ _). eauto.
  - destruct (sy_queues s !! i) as [[|]|]; eauto. unfold poll_send. destruct (AmsHeader_parse _); eauto.
  - destruct (pc_targets _ !! i); [|eauto]. unfold discover_one. case_match; eauto.
  - destruct (on_response_frame now payload (sy_poller s)) as (_ & _ & H). simpl in *. rewrite H. eauto.
  - simpl. destruct (decide (net' = net)) as [->|Hne].
    + exists now. rewrite lookup_insert_eq. split; [done|]. by eapply He.
    + exists t'. by rewrite lookup_insert_ne.
Qed.

(** The answers to the poller's own polls suspend it: the drain of its events
    notes their time as that of a pushed event, so that for ten seconds after
    an answer no tick of the target plans a poll, whatever its interval. *)
Theorem answers_suspend_polling s t net evs now i target :
  let s' := run (poller_event s (EvDrained t net)) evs in
  (forall now net', EvDrained now net' ∈ evs -> t <= now) -> now < t + PUSH_SUSPEND_WINDOW ->
  pc_targets (dp_config (sy_poller s')) !! i = Some target -> tg_net_id target = net ->
  poller_event s' (EvTick now i) = s'.
Proof.
  intros s' Hevs Hnow Ht <-.
  assert (Hseen : exists t', dp_push_seen (sy_poller s') !! tg_net_id target = Some t' /\ t <= t').
  { unfold s'. clear s' Ht. assert (H0 : exists t', dp_push_seen (sy_poller (poller_event s (EvDrained t (tg_net_id target)))) !!
      tg_net_id target = Some t' /\ t <= t') by (exists t; simpl; by rewrite lookup_insert_eq).
    revert H0. generalize (poller_event s (EvDrained t (tg_net_id target))). unfold run.
    induction evs as [|e evs IH]; intros s0 H0; [done|]. simpl. apply IH.
    - intros now' net' Hin. eapply Hevs. by right.
    - apply event_seen; [done|]. intros now' net' ->. eapply Hevs. by left. }
  destruct Hseen as (t' & Hs & Ht'). unfold poller_event. rewrite Ht.
  destruct (sy_queues s' !! i) as [[|]|] eqn:Hq; [|done..].
  unfold target_tick, suspended. rewrite Hs, (proj2 (Z.ltb_lt _ _)) by lia. rewrite list_insert_id by done. by destruct s'.
Qed.

(** Discovery overrides a configured name. *)
Lemma discovery_overrides_config now p target port name0 name h body :
  dp_task_names p !! (tg_net_id target, port) = Some name0 ->
  wf_header h -> target_net_id h = pc_local_net_id (dp_config p) -> command_id h = ADS_CMD_READ_DEVICE_INFO ->
  invoke_id h = dp_invoke_counter p -> parse_device_info_name body = Some name ->
  dp_task_names (on_response now (AmsHeader_serialize h ++ body) (discover_one target port p).1) !! (tg_net_id target, port) =
  Some name.
Proof.
  intros _ Hw Htgt Hcmd Hid Hname. pose proof (length_AmsHeader_serialize _ Hw) as Hl. unfold on_response.
  rewrite AmsHeader_parse_app by done. unfold discover_one.
  cbn [fst with_names with_counter dp_config dp_pending_device_info dp_task_names]. rewrite bool_decide_true by done. cbn [negb]. rewrite length_app, Hl. cbn [Nat.ltb Nat.leb Nat.add].
  rewrite drop_app_length' by done. rewrite Hcmd. change (ADS_CMD_READ_DEVICE_INFO =? ADS_CMD_READ_DEVICE_INFO) with true.
  cbv iota zeta. rewrite Hid, lookup_insert_eq, Hname. simpl. apply lookup_insert_eq.
Qed.

End Runs.
