(* ===== verification/AdsClient.v ===== *)
(** * The direct ADS client (crates/tc-otel-ads: ads_client.rs)

    Read requests and responses, and the client that reads a PLC's symbol table
    over a TCP connection. The connection is the peer at its other end: bytes
    that are written to it make it send bytes, which wait until they are read;
    reading more than it ever sends is an error, as on a connection that was
    closed. *)

From S2P Require Import Prelude.
From S2P Require Import Text.
From S2P Require Import Ams.
From S2P Require Import Symbol.

Definition ADSIGRP_SYM_UPLOADINFO : Z := 61452.
Definition SYM_UPLOAD : Z := 61451.

(** ** Messages *)

Record AdsReadRequest := mkReadRequest { rr_index_group : Z; rr_index_offset : Z; rr_read_length : Z }.

Definition AdsReadRequest_serialize (r : AdsReadRequest) : bytes :=
  le_encode 4 (rr_index_group r) ++ le_encode 4 (rr_index_offset r) ++ le_encode 4 (rr_read_length r).

Definition AdsReadRequest_parse (data : bytes) : outcome AdsError AdsReadRequest :=
  if (length data <? 12)%nat then Err (IncompleteMessage 12 (len data))
  else
    (ig <-- le_or_panic data 0 4 ;;
     io <-- le_or_panic data 4 8 ;;
     n <-- le_or_panic data 8 12 ;;
     Ok (mkReadRequest ig io n))%rust.

Record AdsReadResponse := mkReadResponse { rs_result : Z; rs_data : bytes }.

Definition AdsReadResponse_parse (data : bytes) : outcome AdsError AdsReadResponse :=
  if (length data <? 8)%nat then Err (IncompleteMessage 8 (len data))
  else
    (result <-- le_or_panic data 0 4 ;;
     read_length <-- le_or_panic data 4 8 ;;
     if len data <? 8 + read_length then Err (IncompleteMessage (8 + read_length) (len data))
     else
       d <-- slice_or_panic data 8 (8 + Z.to_nat read_length) ;;
       Ok (mkReadResponse result d))%rust.

Definition AdsReadResponse_serialize (r : AdsReadResponse) : bytes :=
  le_encode 4 (rs_result r) ++ le_encode 4 (len (rs_data r)) ++ rs_data r.

Definition build_read_request_frame (source_net_id : AmsNetId) (source_port : Z) (target_net_id : AmsNetId)
    (target_port index_group index_offset read_length invoke_id : Z) : AmsTcpFrame :=
  let payload := AdsReadRequest_serialize (mkReadRequest index_group index_offset read_length) in
  mkTcpFrame (mkTcp 0 (32 + len payload))
    (mkHeader target_net_id target_port source_net_id source_port ADS_CMD_READ ADS_STATE_REQUEST (len payload) 0
       invoke_id) payload.

Definition build_read_response_frame (request : AmsTcpFrame) (result_code : Z) (data : bytes) : AmsTcpFrame :=
  AmsTcpFrame_make_response request 0 (AdsReadResponse_serialize (mkReadResponse result_code data)).

(** ** The client *)

(** [{:#06x}] and [{:#010x}]. *)
Definition hex_padded (n : nat) (v : Z) : string := "0x" +:+ hex_of_bytes (rev (le_encode n v)).

Section Client.
(** The peer: its state, and what it sends when bytes reach it. *)
Context {Peer : Type} (peer : bytes -> Peer -> Peer * bytes).

Record AdsClient := mkClient {
  ac_source_net_id : AmsNetId;
  ac_source_port : Z;
  ac_target_net_id : AmsNetId;
  ac_target_port : Z;
  ac_invoke_id : Z;
  ac_peer : Peer;
  ac_unread : bytes;
}.

(** [from_stream], and [connect] once the connection is there. *)
Definition AdsClient_from_stream (p : Peer) (source_net_id : AmsNetId) (source_port : Z) (target_net_id : AmsNetId)
    (target_port : Z) : AdsClient :=
  mkClient source_net_id source_port target_net_id target_port 1 p [].

Definition client_op (A : Type) : Type := AdsClient -> outcome AdsError A * AdsClient.

Definition op_lift {A} (r : outcome AdsError A) : client_op A := fun c => (r, c).

Definition op_bind {A B} (m : client_op A) (f : A -> client_op B) : client_op B := fun c =>
  let '(r, c) := m c in
  match r with
  | Ok a => f a c
  | Err e => (Err e, c)
  | Panic => (Panic, c)
  | OutOfFuel => (OutOfFuel, c)
  end.

(** [invoke_id.fetch_add(1)]. *)
Definition fetch_id : client_op Z := fun c =>
  (Ok (ac_invoke_id c),
   mkClient (ac_source_net_id c) (ac_source_port c) (ac_target_net_id c) (ac_target_port c)
     ((ac_invoke_id c + 1) mod 2 ^ 32) (ac_peer c) (ac_unread c)).

Definition write_all (bs : bytes) : client_op unit := fun c =>
  let '(p, sent) := peer bs (ac_peer c) in
  (Ok tt, mkClient (ac_source_net_id c) (ac_source_port c) (ac_target_net_id c) (ac_target_port c)
            (ac_invoke_id c) p (ac_unread c ++ sent)).

Definition read_exact (n : nat) : client_op bytes := fun c =>
  if (length (ac_unread c) <? n)%nat then
    (Err (IoError "early eof"), mkClient (ac_source_net_id c) (ac_source_port c) (ac_target_net_id c)
       (ac_target_port c) (ac_invoke_id c) (ac_peer c) [])
  else
    (Ok (take n (ac_unread c)), mkClient (ac_source_net_id c) (ac_source_port c) (ac_target_net_id c)
       (ac_target_port c) (ac_invoke_id c) (ac_peer c) (drop n (ac_unread c))).

(** What [ads_read] makes of the rest of a frame. *)
Definition check_response (rest : bytes) : outcome AdsError AdsReadResponse :=
  if (length rest <? 32)%nat then Err (IncompleteMessage 32 (len rest))
  else
    (h <-- slice_or_panic rest 0 32 ;;
     resp_ams <-- AmsHeader_parse h ;;
     if negb (state_flags resp_ams =? ADS_STATE_RESPONSE) then
       Err (ParseError ("expected response state flags " +:+ hex_padded 2 ADS_STATE_RESPONSE +:+ ", got " +:+
                        hex_padded 2 (state_flags resp_ams)))
     else if negb (error_code resp_ams =? 0) then
       Err (ParseError ("ADS error code: " +:+ hex_padded 4 (error_code resp_ams)))
     else
       payload <-- slice_or_panic rest 32 (length rest) ;;
       AdsReadResponse_parse payload)%rust.

Definition client_read (index_group index_offset read_length : Z) : client_op AdsReadResponse := fun c =>
  op_bind fetch_id (fun invoke_id =>
  op_bind (write_all (AmsTcpFrame_serialize
    (build_read_request_frame (ac_source_net_id c) (ac_source_port c) (ac_target_net_id c) (ac_target_port c)
       index_group index_offset read_length invoke_id))) (fun _ =>
  op_bind (read_exact 6) (fun tcp_buf =>
  op_bind (op_lift (AmsTcpHeader_parse tcp_buf)) (fun resp_tcp =>
  op_bind (read_exact (Z.to_nat (tcp_data_length resp_tcp))) (fun rest =>
  op_lift (check_response rest)))))) c.

Definition read_symbol_info : client_op AdsSymbolUploadInfo :=
  op_bind (client_read ADSIGRP_SYM_UPLOADINFO 0 8) (fun response =>
  op_lift (if negb (rs_result response =? 0)
           then Err (ParseError ("ADS READ error for symbol info: " +:+ hex_padded 4 (rs_result response)))
           else AdsSymbolUploadInfo_parse (rs_data response))).

Definition read_symbol_table : client_op (list AdsSymbolEntry) :=
  op_bind read_symbol_info (fun info =>
  op_bind (client_read SYM_UPLOAD 0 (symbol_size info)) (fun response =>
  op_lift (if negb (rs_result response =? 0)
           then Err (ParseError ("ADS READ error for symbol table: " +:+ hex_padded 4 (rs_result response)))
           else parse_symbol_table (rs_data response)))).

End Client.

(** ** Messages are read back *)

Lemma read_request_roundtrip r :
  in_width 32 (rr_index_group r) -> in_width 32 (rr_index_offset r) -> in_width 32 (rr_read_length r) ->
  AdsReadRequest_parse (AdsReadRequest_serialize r) = Ok r.
Proof.
  intros H1 H2 H3. unfold AdsReadRequest_parse, AdsReadRequest_serialize.
  destruct (three_words (E:=AdsError) _ _ _ [] H1 H2 H3) as (E1 & E2 & E3). rewrite app_nil_r in E1, E2, E3.
  rewrite E1, E2, E3. by destruct r.
Qed.

Lemma read_response_roundtrip r :
  in_width 32 (rs_result r) -> in_width 32 (len (rs_data r)) ->
  AdsReadResponse_parse (AdsReadResponse_serialize r) = Ok r.
Proof.
  intros H1 H2. unfold AdsReadResponse_parse, AdsReadResponse_serialize. rewrite !length_app, !length_le_encode.
  rewrite (proj2 (Nat.ltb_ge _ _)) by lia.
  pose proof (le_word_at (E:=AdsError) [] 4 (rs_result r) (le_encode 4 (len (rs_data r)) ++ rs_data r) 0 4 eq_refl eq_refl H1) as E1.
  rewrite app_nil_l in E1. rewrite E1, (le_word_at (le_encode 4 (rs_result r)) 4 (len (rs_data r))) by done. cbn [outcome_bind].
  rewrite (proj2 (Z.ltb_ge _ _)) by (unfold len; rewrite !length_app, !length_le_encode; lia).
  unfold slice_or_panic. rewrite (app_assoc (le_encode 4 (rs_result r))).
  pose proof (slice_at_app (le_encode 4 (rs_result r) ++ le_encode 4 (len (rs_data r))) (rs_data r) [] 8
    (8 + Z.to_nat (len (rs_data r)))) as Hs.
  rewrite app_nil_r in Hs. rewrite Hs by (done || unfold len; lia). by destruct r.
Qed.

Section Theorems.
Context {Peer : Type} (peer : bytes -> Peer -> Peer * bytes).

Record wf_client (c : AdsClient (Peer := Peer)) : Prop := {
  wc_source : wf_net (ac_source_net_id c);
  wc_source_port : in_width 16 (ac_source_port c);
  wc_target : wf_net (ac_target_net_id c);
  wc_target_port : in_width 16 (ac_target_port c);
  wc_invoke : in_width 32 (ac_invoke_id c);
}.

(** A PLC at the other end: it keeps the data that can be read, and answers each
    well-formed read request with what it keeps under it. *)
Definition serves (store : AdsReadRequest -> bytes) : Prop :=
  forall f rq p, AmsTcpFrame_parse f = Ok rq -> forall r, AdsReadRequest_parse (tcp_payload rq) = Ok r ->
    (peer f p).2 = AmsTcpFrame_serialize (build_read_response_frame rq 0 (store r)).

(** The client after an exchange. *)
Definition after_exchange (bs : bytes) (c : AdsClient (Peer := Peer)) : AdsClient :=
  mkClient (ac_source_net_id c) (ac_source_port c) (ac_target_net_id c) (ac_target_port c)
    ((ac_invoke_id c + 1) mod 2 ^ 32) (peer bs (ac_peer c)).1 [].

Lemma after_exchange_wf bs c : wf_client c -> wf_client (after_exchange bs c).
Proof. intros []. split; try done. simpl. apply Z.mod_pos_bound. lia. Qed.

Lemma wrap_small w v : in_width w v -> wrap w v = v.
Proof. intros H. unfold wrap. by apply Z.mod_small. Qed.

Lemma check_response_ok rest h payload :
  wf_header h -> state_flags h = ADS_STATE_RESPONSE -> error_code h = 0 -> rest = AmsHeader_serialize h ++ payload ->
  check_response rest = AdsReadResponse_parse payload.
Proof.
  intros Hw Hf He ->. pose proof (length_AmsHeader_serialize h Hw) as Hl. unfold check_response.
  rewrite length_app, Hl. rewrite (proj2 (Nat.ltb_ge _ _)) by lia. unfold slice_or_panic.
  rewrite (slice_at_head (AmsHeader_serialize h)) by done. cbn [outcome_bind].
  rewrite <- (app_nil_r (AmsHeader_serialize h)) at 1. rewrite AmsHeader_parse_app by done. cbn [outcome_bind].
  rewrite Hf, He. change (negb (ADS_STATE_RESPONSE =? ADS_STATE_RESPONSE)) with false.
  change (negb (0 =? 0)) with false. cbv iota.
  pose proof (slice_at_app (AmsHeader_serialize h) payload [] 32 (32 + length payload)) as Hs.
  rewrite app_nil_r in Hs. rewrite Hs by done. done.
Qed.

Lemma read_exact_app n (a b : bytes) s sp t tp i p :
  length a = n ->
  read_exact n (mkClient (Peer := Peer) s sp t tp i p (a ++ b)) = (Ok a, mkClient s sp t tp i p b).
Proof.
  intros Hn. unfold read_exact. cbn [ac_unread]. rewrite length_app, (proj2 (Nat.ltb_ge _ _)) by lia.
  rewrite take_app_length', drop_app_length' by done. reflexivity.
Qed.

Lemma client_read_served store c ig io n :
  serves store -> wf_client c -> ac_unread c = [] ->
  in_width 32 ig -> in_width 32 io -> in_width 32 n ->
  let data := store (mkReadRequest ig io n) in
  in_width 32 (40 + len data) ->
  let f := build_read_request_frame (ac_source_net_id c) (ac_source_port c) (ac_target_net_id c) (ac_target_port c)
             ig io n (ac_invoke_id c) in
  client_read peer ig io n c = (Ok (mkReadResponse 0 data), after_exchange (AmsTcpFrame_serialize f) c).
Proof.
  intros Hs Hc Hun Hig Hio Hn data Hd f. set (fb := AmsTcpFrame_serialize f).
  assert (Hparse : AmsTcpFrame_parse fb = Ok f).
  { destruct Hc. apply AmsTcpFrame_parse_serialize; try done. }
  pose proof (Hs fb f (ac_peer c) Hparse _ (read_request_roundtrip (mkReadRequest ig io n) Hig Hio Hn)) as Hans.
  fold data in Hans. set (payload := AdsReadResponse_serialize (mkReadResponse 0 data)) in *.
  assert (Hpl : len payload = 8 + len data).
  { unfold payload, AdsReadResponse_serialize, len. cbn [rs_result rs_data].
    rewrite !length_app, !length_le_encode. lia. }
  set (r := build_read_response_frame f 0 data) in *.
  assert (Hr : r = mkTcpFrame (mkTcp 0 (32 + len payload))
    (mkHeader (ac_source_net_id c) (ac_source_port c) (ac_target_net_id c) (ac_target_port c) ADS_CMD_READ
       ADS_STATE_RESPONSE (len payload) 0 (ac_invoke_id c)) payload).
  { unfold r, build_read_response_frame, AmsTcpFrame_make_response. fold payload.
    rewrite (wrap_small 32 (len payload)) by (unfold in_width, len in *; lia).
    rewrite (wrap_small 32 (32 + len payload)) by (unfold in_width, len in *; lia). reflexivity. }
  assert (Hwf : wf_header (ams_header r)).
  { rewrite Hr. destruct Hc. split; try done. simpl. unfold in_width, len in *. lia. }
  pose proof (length_AmsHeader_serialize _ Hwf) as Hhl.
  unfold client_read, op_bind, fetch_id, write_all. fold f. fold fb. cbn [ac_peer ac_unread].
  rewrite (surjective_pairing (peer fb (ac_peer c))), Hans, Hun. cbn [app].
  change (AmsTcpFrame_serialize r) with
    (AmsTcpHeader_serialize (tcp_header r) ++ AmsHeader_serialize (ams_header r) ++ tcp_payload r).
  assert (Ht : length (AmsTcpHeader_serialize (tcp_header r)) = 6%nat) by done.
  rewrite read_exact_app by done. cbv iota. unfold op_lift at 1.
  rewrite AmsTcpHeader_parse_serialize by (rewrite Hr; simpl; unfold in_width, len in *; lia). cbv iota.
  rewrite <- (app_nil_r (AmsHeader_serialize (ams_header r) ++ tcp_payload r)).
  rewrite read_exact_app by (rewrite length_app, Hhl, Hr; cbn [tcp_payload tcp_header tcp_data_length]; unfold len; lia).
  cbv iota. unfold op_lift. rewrite (check_response_ok _ (ams_header r) (tcp_payload r) Hwf) by by rewrite Hr.
  rewrite Hr at 1. cbn [tcp_payload]. unfold payload.
  rewrite read_response_roundtrip by (cbn [rs_result rs_data]; unfold in_width, len in *; lia). reflexivity.
Qed.

(** A PLC that keeps a symbol table. *)
Definition keeps_table (store : AdsReadRequest -> bytes) (table : list AdsSymbolEntry) (pad : bytes) : Prop :=
  let bs := mjoin (map AdsSymbolEntry_serialize table) ++ pad in
  store (mkReadRequest ADSIGRP_SYM_UPLOADINFO 0 8) =
    AdsSymbolUploadInfo_serialize (mkUploadInfo (Z.of_nat (length table)) (len bs)) /\
  store (mkReadRequest SYM_UPLOAD 0 (len bs)) = bs.

Lemma upload_info_roundtrip i :
  in_width 32 (symbol_count i) -> in_width 32 (symbol_size i) ->
  AdsSymbolUploadInfo_parse (AdsSymbolUploadInfo_serialize i) = Ok i.
Proof.
  intros H1 H2. unfold AdsSymbolUploadInfo_parse, AdsSymbolUploadInfo_serialize. rewrite length_app, !length_le_encode.
  change (4 + 4 <? 8)%nat with false. cbv iota.
  pose proof (le_word_at (E:=AdsError) [] 4 (symbol_count i) (le_encode 4 (symbol_size i)) 0 4 eq_refl eq_refl H1) as E1.
  pose proof (le_word_at (E:=AdsError) (le_encode 4 (symbol_count i)) 4 (symbol_size i) [] 4 8 eq_refl eq_refl H2) as E2.
  rewrite app_nil_l in E1. rewrite app_nil_r in E2. rewrite E1, E2. by destruct i.
Qed.

(** C28: The client reads the table a PLC keeps. Two requests are framed, sent and
    answered in order over the connection; the size the first answer announces
    is what the second asks for; what comes back is the table, entry by entry,
    and nothing is left unread. *)
Theorem symbol_table_read store table pad c :
  serves store -> keeps_table store table pad -> Forall wf_symbol table -> (length pad < 4)%nat ->
  len (mjoin (map AdsSymbolEntry_serialize table) ++ pad) < 2 ^ 32 - 40 ->
  wf_client c -> ac_unread c = [] ->
  exists c', read_symbol_table peer c = (Ok table, c') /\ ac_unread c' = [] /\ wf_client c'.
Proof.
  intros Hs [Hinfo Htab] Hwf Hpad Hlen Hc Hun. set (bs := mjoin (map AdsSymbolEntry_serialize table) ++ pad) in *.
  assert (Hcount : Z.of_nat (length table) <= len bs).
  { pose proof (length_table table). unfold bs, len. rewrite length_app. lia. }
  unfold read_symbol_table, read_symbol_info, op_bind at 1 2.
  rewrite (client_read_served store) by (done || (rewrite ?Hinfo; unfold in_width, ADSIGRP_SYM_UPLOADINFO, len in *; simpl; lia)).
  unfold op_lift at 1. cbn [rs_result rs_data Z.eqb negb]. rewrite Hinfo, upload_info_roundtrip
    by (cbn [symbol_count symbol_size]; unfold in_width, len in *; lia).
  cbn [symbol_size]. unfold op_bind at 1.
  rewrite (client_read_served store) by
    (first [done|by apply after_exchange_wf|rewrite ?Htab; unfold in_width, SYM_UPLOAD, len in *; lia]).
  unfold op_lift. cbn [rs_result rs_data Z.eqb negb]. rewrite Htab. unfold bs. rewrite parse_table_serialize by done.
  eexists. split; [reflexivity|]. split; [done|]. by apply after_exchange_wf, after_exchange_wf.
Qed.

(** ** Whatever is answered *)

Lemma read_response_ends data : is_bytes data -> ends_with (fun r => is_bytes (rs_data r)) (AdsReadResponse_parse data).
Proof.
  intros Hd. unfold AdsReadResponse_parse. destruct (Nat.ltb_spec (length data) 8) as [|Hl]; [done|].
  rewrite !le_or_panic_spec by lia. cbn [outcome_bind].
  set (n := le_decode _). destruct (Z.ltb_spec (len data) (8 + n)) as [|Hn]; [done|].
  rewrite slice_or_panic_spec by (unfold len in Hn; lia). simpl. by apply Forall_take, Forall_drop.
Qed.

Lemma check_response_ends rest : is_bytes rest -> ends_with (fun r => is_bytes (rs_data r)) (check_response rest).
Proof.
  intros Hb. unfold check_response. destruct (Nat.ltb_spec (length rest) 32) as [|Hl]; [done|].
  rewrite slice_or_panic_spec by lia. cbn [outcome_bind].
  destruct (AmsHeader_parse_wf (take (32 - 0) (drop 0 rest))) as (h & -> & _ & _).
  { by apply Forall_take, Forall_drop. }
  { rewrite length_take, length_drop. lia. }
  cbn [outcome_bind]. case_match; [done|]. case_match; [done|].
  rewrite slice_or_panic_spec by lia. cbn [outcome_bind]. apply read_response_ends. by apply Forall_take, Forall_drop.
Qed.

(** An operation that keeps what is unread bytes, and ends. *)
Definition safe_op {A} (P : A -> Prop) (m : client_op (Peer := Peer) A) : Prop :=
  forall c, is_bytes (ac_unread c) -> ends_with P (m c).1 /\ is_bytes (ac_unread (m c).2).

Lemma safe_bind {A B} (P : A -> Prop) (Q : B -> Prop) (m : client_op A) f :
  safe_op P m -> (forall a, P a -> safe_op Q (f a)) -> safe_op Q (op_bind m f).
Proof.
  intros Hm Hf c Hc. destruct (Hm c Hc) as [H1 H2]. unfold op_bind. destruct (m c) as [[a|e| |] c']; simpl in *; try done.
  by apply Hf.
Qed.

Lemma safe_lift {A} (P : A -> Prop) r : ends_with P r -> safe_op P (op_lift r).
Proof. by intros H c Hc. Qed.

Lemma safe_read_exact n : safe_op is_bytes (read_exact n).
Proof.
  intros c Hc. unfold read_exact. case_match; simpl; [split; [done|constructor]|].
  split; [by apply Forall_take|by apply Forall_drop].
Qed.

Hypothesis peer_bytes : forall bs p, is_bytes (peer bs p).2.

Lemma safe_write bs : safe_op (fun _ => True) (write_all peer bs).
Proof using peer_bytes.
  intros c Hc. unfold write_all. specialize (peer_bytes bs (ac_peer c)). destruct (peer bs (ac_peer c)) as [p out].
  simpl in *. split; [done|]. by apply Forall_app.
Qed.

Lemma safe_client_read ig io n : safe_op (fun r => is_bytes (rs_data r)) (client_read peer ig io n).
Proof using peer_bytes.
  intros c Hc. unfold client_read.
  refine (safe_bind (fun _ => True) _ _ _ _ _ c Hc); [done|intros id _].
  eapply safe_bind; [apply safe_write|intros _ _]. eapply safe_bind; [apply safe_read_exact|intros tcp_buf Htcp].
  eapply (safe_bind (fun _ => True)); [apply safe_lift|intros resp_tcp _].
  { unfold AmsTcpHeader_parse. destruct (Nat.ltb_spec (length tcp_buf) 6); [done|]. by rewrite !le_or_panic_spec by lia. }
  eapply safe_bind; [apply safe_read_exact|intros rest Hrest]. apply safe_lift. by apply check_response_ends.
Qed.

(** No answer makes the client panic or hang. Whatever bytes the other end
    sends, reading the symbol table ends with a table or an error, and a table
    has only names, types and comments that are valid text without a NUL. *)
Theorem client_total c :
  is_bytes (ac_unread c) -> ends_with (Forall clean_symbol) (read_symbol_table peer c).1.
Proof using peer_bytes.
  intros Hc. cut (safe_op (Forall clean_symbol) (read_symbol_table peer)); [intros H; by apply H|].
  unfold read_symbol_table, read_symbol_info.
  eapply (safe_bind (fun _ => True)); [eapply safe_bind; [apply safe_client_read|intros r Hr]|intros info _].
  - apply safe_lift. case_match; [done|]. unfold AdsSymbolUploadInfo_parse.
    destruct (Nat.ltb_spec (length (rs_data r)) 8); [done|]. by rewrite !le_or_panic_spec by lia.
  - eapply safe_bind; [apply safe_client_read|intros r Hr]. apply safe_lift. case_match; [done|].
    destruct (parse_symbol_table_safe (rs_data r) Hr) as [Hcomp Hl]. destruct (parse_symbol_table _) as [l| | |]; try done.
    simpl. by apply Hl.
Qed.

(** A response is not compared with the request: its number, its ends and its
    command may be any. *)
Lemma foreign_response_accepted h h' payload :
  wf_header h -> wf_header h' -> state_flags h = ADS_STATE_RESPONSE -> state_flags h' = ADS_STATE_RESPONSE ->
  error_code h = 0 -> error_code h' = 0 ->
  check_response (AmsHeader_serialize h ++ payload) = check_response (AmsHeader_serialize h' ++ payload).
Proof. intros. by rewrite (check_response_ok _ h payload), (check_response_ok _ h' payload). Qed.

End Theorems.
