(* ===== verification/ClientBridge.v ===== *)
(** * The client bridge (crates/tc-otel-service: client_bridge.rs)

    Drives the polled and the subscribed custom metrics: definitions are grouped
    by target, targets that are no longer wanted are dropped, and each wanted
    one is rebuilt: a route is found, the symbol table is uploaded, and pollers
    and subscriptions are set up for the symbols it has. What the network does
    during a rebuild is a parameter of the operation. *)

From S2P Require Import Prelude.
From S2P Require Import Text.
From S2P Require Import External.
From S2P Require Import Ams.
From S2P Require Import Models.
From S2P Require Import Protocol.
From S2P Require Import AmsDispatcher.
From S2P Require Import Browse.
From S2P Require Import MetricMapper.
From S2P Require Import Poll.
From S2P Require Import Notify.
From S2P Require Import Config.

Definition BRIDGE_AMS_PORT : Z := 851.
Definition REQUEST_TIMEOUT : Z := 5000.

(** ** Targets *)

(** The key of a target is its Net ID. *)
Record TargetDescriptor := mkDescr {
  td_ams_net_id : AmsNetId;
  td_ams_port : Z;
  td_router_host : option string;
}.

Inductive TargetError := MissingNetId | InvalidNetId (text : string) (e : AdsError).

Definition TargetDescriptor_from_def (def : CustomMetricDef) : TargetError + TargetDescriptor :=
  match cm_ams_net_id def with
  | None => inl MissingNetId
  | Some id_str =>
    match AmsNetId_from_str_ref id_str with
    | Ok netid =>
      inr (mkDescr netid (default BRIDGE_AMS_PORT (cm_ams_port def))
             (match cm_ams_router_host def with Some s => if String.eqb s "" then None else Some s | None => None end))
    | Err e => inl (InvalidNetId id_str e)
    | _ => inl MissingNetId
    end
  end.

Definition is_push (d : CustomMetricDef) : bool := match cm_source d with SourcePush => true | _ => false end.

(** The definitions to drive. *)
Definition wanted (s : AppSettings) : list CustomMetricDef :=
  List.filter (fun d => negb (is_push d)) (mc_custom_metrics (st_metrics s)).

Abbreviation targets := (gmap AmsNetId (TargetDescriptor * list CustomMetricDef)).

(** The entry of the first definition of a target is kept; later definitions are
    added to it. *)
Definition add_def (m : targets) (def : CustomMetricDef) : targets :=
  match TargetDescriptor_from_def def with
  | inr tgt =>
    match m !! td_ams_net_id tgt with
    | Some (t, defs) => <[td_ams_net_id tgt := (t, defs ++ [def])]> m
    | None => <[td_ams_net_id tgt := (tgt, [def])]> m
    end
  | inl _ => m
  end.

Definition by_target (defs : list CustomMetricDef) : targets := foldl add_def ∅ defs.

(** ** The bridge *)

Section Bridge.
Context `{Ext : External} `{MP : Mpsc} `{NB : NotificationBackend}.

Record TargetState := mkTargetState {
  ts_descr : TargetDescriptor;
  ts_notifier : Notifier;
  ts_pollers : list (CustomMetricDef * SymbolMeta);
}.

Record ClientBridge := mkBridge {
  cb_metric_tx : Sender MetricEntry;
  cb_cache : gmap AmsNetId CacheEntry;
  cb_state : gmap AmsNetId TargetState;
}.

(** What a rebuild meets: whether MQTT could be attached, whether a route was
    announced within the grace period, what the name of a router resolves to,
    whether a route is announced later, how the PLC answers requests, the
    backend for its notifications, and the time of the upload. The service's
    own Net ID only fills the source of the frames, which is in [tw_send]. *)
Record TargetWorld := mkWorld {
  tw_attached : bool;
  tw_announced : bool;
  tw_resolve : string -> option (option string);
  tw_announced_late : bool;
  tw_send : Sent;
  tw_backend : AmsNetId -> Z -> BackendState;
  tw_now : DateTime;
}.

(** The static TCP peer that is added when no route was announced. *)
Definition tcp_fallback (w : TargetWorld) (tgt : TargetDescriptor) : option string :=
  if tw_announced w then None
  else match td_router_host tgt with
       | Some host => match tw_resolve w (host +:+ ":48898") with Some (Some addr) => Some addr | _ => None end
       | None => None
       end.

Definition route_ready (w : TargetWorld) (tgt : TargetDescriptor) : bool :=
  tw_announced w || match tcp_fallback w tgt with Some _ => true | None => false end || tw_announced_late w.

Definition meta_of (node : SymbolNode) : SymbolMeta :=
  mkMeta (sn_size node) (sn_type_name node) (sn_igroup node) (sn_ioffset node).

Definition resolve_meta (cache : gmap AmsNetId CacheEntry) (target : AmsNetId) (def : CustomMetricDef) : option SymbolMeta :=
  tree ← cache_get target cache; node ← SymbolTree_get (cm_symbol def) tree; Some (meta_of node).

(** The loop over the definitions: the notifier and the pollers so far. A pushed
    metric does not come here. *)
Fixpoint register_defs (cache : gmap AmsNetId CacheEntry) (target : AmsNetId) (defs : list CustomMetricDef) (n : Notifier)
    (pollers : list (CustomMetricDef * SymbolMeta)) : outcome unit (Notifier * list (CustomMetricDef * SymbolMeta)) :=
  match defs with
  | [] => Ok (n, pollers)
  | def :: defs =>
    match resolve_meta cache target def with
    | None => register_defs cache target defs n pollers
    | Some meta =>
      match cm_source def with
      | SourcePoll =>
        match Poller_new def with
        | Ok _ => register_defs cache target defs n (pollers ++ [(def, meta)])
        | _ => register_defs cache target defs n pollers
        end
      | SourceNotification => register_defs cache target defs (subscribe def meta n).1 pollers
      | SourcePush => Panic
      end
    end
  end.

Definition remove_state (key : AmsNetId) (b : ClientBridge) : ClientBridge :=
  mkBridge (cb_metric_tx b) (cb_cache b) (delete key (cb_state b)).

(** [rebuild_target]: whatever goes wrong, the previous state is gone. *)
Definition rebuild_target (w : TargetWorld) (tgt : TargetDescriptor) (defs : list CustomMetricDef) (b : ClientBridge)
    : outcome unit ClientBridge :=
  let key := td_ams_net_id tgt in
  let b := remove_state key b in
  if negb (tw_attached w) then Ok b
  else if negb (route_ready w tgt) then Ok b
  else
    match upload_via_dispatcher (tw_send w) key (td_ams_port tgt) REQUEST_TIMEOUT with
    | Ok tree =>
      let cache := cache_insert_with_time key tree (tw_now w) (cb_cache b) in
      (r <-- register_defs cache key defs (Notifier_new (tw_backend w key (td_ams_port tgt)) (cb_metric_tx b)) [] ;;
       Ok (mkBridge (cb_metric_tx b) cache (<[key := mkTargetState tgt r.1 r.2]> (cb_state b))))%rust
    | Err _ => Ok b
    | Panic => Panic
    | OutOfFuel => OutOfFuel
    end.

Definition drop_unwanted (desired : targets) (b : ClientBridge) : ClientBridge :=
  mkBridge (cb_metric_tx b)
    (foldr cache_invalidate (cb_cache b)
       (map fst (map_to_list (filter (fun kv => desired !! kv.1 = None) (cb_state b)))))
    (filter (fun kv => is_Some (desired !! kv.1)) (cb_state b)).

(** [iter] is the order in which the map of targets is iterated, [world] what
    each target meets. *)
Variable iter : targets -> list (AmsNetId * (TargetDescriptor * list CustomMetricDef)).
Variable world : AmsNetId -> TargetWorld.

Fixpoint rebuild_all (l : list (AmsNetId * (TargetDescriptor * list CustomMetricDef))) (b : ClientBridge)
    : outcome unit ClientBridge :=
  match l with
  | [] => Ok b
  | (k, (tgt, defs)) :: l => (b <-- rebuild_target (world k) tgt defs b ;; rebuild_all l b)%rust
  end.

Definition bridge_reconcile (s : AppSettings) (b : ClientBridge) : outcome unit ClientBridge :=
  let desired := by_target (wanted s) in
  rebuild_all (iter desired) (drop_unwanted desired b).

End Bridge.

Section Task.
Context `{Ext : External} `{MP : Mpsc} `{NB : NotificationBackend}.

(** [ClientBridge::new]. *)
Definition ClientBridge_new (metric_tx : Sender MetricEntry) (cache : gmap AmsNetId CacheEntry) : ClientBridge :=
  mkBridge metric_tx cache ∅.

(** What a reconciliation meets: the order in which it visits the targets, and the network. *)
Record Meeting := mkMeeting {
  me_iter : targets -> list (AmsNetId * (TargetDescriptor * list CustomMetricDef));
  me_world : AmsNetId -> TargetWorld;
}.

(** The task of [ClientBridge::spawn]: it reconciles with the settings it finds and then with each that the channel
    shows it, until the channel is closed. *)
Fixpoint bridge_run (l : list (Meeting * AppSettings)) (b : ClientBridge) : outcome unit ClientBridge :=
  match l with
  | [] => Ok b
  | (m, s) :: l => (b <-- bridge_reconcile (me_iter m) (me_world m) s b ;; bridge_run l b)%rust
  end.

End Task.

(** ** Grouping *)

(** The definition names the target [k]. *)
Definition for_target (k : AmsNetId) (d : CustomMetricDef) : bool :=
  match TargetDescriptor_from_def d with inr t => bool_decide (td_ams_net_id t = k) | inl _ => false end.

(** What is wanted of a target: its first definition says how it is reached. *)
Definition group (k : AmsNetId) (defs : list CustomMetricDef) : option (TargetDescriptor * list CustomMetricDef) :=
  match List.filter (for_target k) defs with
  | [] => None
  | d :: ds => match TargetDescriptor_from_def d with inr t => Some (t, d :: ds) | inl _ => None end
  end.

Lemma for_target_spec k d : for_target k d = true -> exists t, TargetDescriptor_from_def d = inr t /\ td_ams_net_id t = k.
Proof.
  unfold for_target. destruct (TargetDescriptor_from_def d) as [e|t]; [done|]. intros H%bool_decide_eq_true. eauto.
Qed.

Lemma group_app k defs d :
  group k (defs ++ [d]) =
  if for_target k d then
    match group k defs with
    | Some (t, ds) => Some (t, ds ++ [d])
    | None => match TargetDescriptor_from_def d with inr t => Some (t, [d]) | inl _ => None end
    end
  else group k defs.
Proof.
  unfold group. rewrite List.filter_app. cbn [List.filter]. destruct (for_target k d) eqn:Hd; [|by rewrite app_nil_r].
  destruct (List.filter (for_target k) defs) as [|d0 ds] eqn:Hf; simpl; [done|].
  assert (H0 : for_target k d0 = true).
  { assert (Hin : In d0 (List.filter (for_target k) defs)) by (rewrite Hf; by left). by apply List.filter_In in Hin as [_ Hin]. }
  apply for_target_spec in H0 as (t & -> & _). done.
Qed.

Lemma by_target_group defs k : by_target defs !! k = group k defs.
Proof.
  unfold by_target. induction defs as [|d defs IH] using rev_ind; [apply lookup_empty|].
  rewrite foldl_app, group_app, <- IH. cbn [foldl]. generalize (foldl add_def ∅ defs). intros m.
  unfold add_def, for_target.
  destruct (TargetDescriptor_from_def d) as [e|t] eqn:Ht; [done|].
  destruct (decide (td_ams_net_id t = k)) as [<-|Hne].
  - rewrite bool_decide_true by done. destruct (m !! td_ams_net_id t) as [[t0 ds]|]; by rewrite lookup_insert_eq.
  - rewrite bool_decide_false by done. destruct (m !! td_ams_net_id t) as [[t0 ds]|]; by rewrite lookup_insert_ne.
Qed.

Lemma group_key k defs t ds : group k defs = Some (t, ds) -> td_ams_net_id t = k /\ ds = List.filter (for_target k) defs.
Proof.
  unfold group. destruct (List.filter (for_target k) defs) as [|d l] eqn:Hf; [done|].
  assert (H0 : for_target k d = true).
  { assert (Hin : In d (List.filter (for_target k) defs)) by (rewrite Hf; by left). by apply List.filter_In in Hin as [_ Hin]. }
  apply for_target_spec in H0 as (t' & -> & Hk). by intros [= <- <-].
Qed.

Lemma group_no_push k s t ds : group k (wanted s) = Some (t, ds) -> Forall (fun d => cm_source d <> SourcePush) ds.
Proof.
  intros [_ ->]%group_key. apply Forall_forall. intros d Hd%list_elem_of_In%List.filter_In.
  destruct Hd as [Hd _]. apply List.filter_In in Hd as [_ Hd]. unfold is_push in Hd. by intros Heq; rewrite Heq in Hd.
Qed.

(** ** Rebuilding *)

Section Reconcile.
Context `{Ext : External} `{MP : Mpsc} `{NB : NotificationBackend}.

(** The definitions of a source whose symbol the tree has, with its place. *)
Definition located (keep : CustomMetricDef -> bool) (tree : SymbolTree) (defs : list CustomMetricDef)
    : list (CustomMetricDef * SymbolMeta) :=
  omap (fun d => if keep d then (fun n => (d, meta_of n)) <$> SymbolTree_get (cm_symbol d) tree else None) defs.

Definition pollable (d : CustomMetricDef) : bool :=
  match cm_source d, cm_kind d with SourcePoll, (KindGauge | KindSum) => true | _, _ => false end.

Definition notified (d : CustomMetricDef) : bool := match cm_source d with SourceNotification => true | _ => false end.

Definition subscribe_all (n : Notifier) (l : list (CustomMetricDef * SymbolMeta)) : Notifier :=
  foldl (fun n dm => (subscribe dm.1 dm.2 n).1) n l.

Lemma register_defs_spec cache k tree defs :
  cache_get k cache = Some tree -> Forall (fun d => cm_source d <> SourcePush) defs ->
  forall n pollers, register_defs cache k defs n pollers =
    Ok (subscribe_all n (located notified tree defs), pollers ++ located pollable tree defs).
Proof.
  intros Hc. induction 1 as [|d defs Hd _ IH]; intros n pollers; [by rewrite app_nil_r|].
  cbn [register_defs located omap list_omap]. unfold resolve_meta. rewrite Hc. cbn [mbind option_bind].
  unfold pollable, notified, Poller_new.
  destruct (SymbolTree_get (cm_symbol d) tree) as [node|]; cbn [mbind option_bind fmap option_fmap option_map].
  - destruct (cm_source d); [done| |].
    + destruct (cm_kind d); rewrite IH; cbn [app]; rewrite <- ?app_assoc; done.
    + rewrite IH. done.
  - rewrite IH. destruct (cm_source d), (cm_kind d); done.
Qed.

(** The table a target serves, when it can be reached. *)
Definition served (w : TargetWorld) (tgt : TargetDescriptor) : option SymbolTree :=
  if tw_attached w && route_ready w tgt then
    match upload_via_dispatcher (tw_send w) (td_ams_net_id tgt) (td_ams_port tgt) REQUEST_TIMEOUT with
    | Ok tree => Some tree
    | _ => None
    end
  else None.

(** What a rebuild leaves of the target, given its table. *)
Definition rebuilt (w : TargetWorld) (tgt : TargetDescriptor) (defs : list CustomMetricDef) (tx : Sender MetricEntry)
    (tree : SymbolTree) : TargetState :=
  mkTargetState tgt
    (subscribe_all (Notifier_new (tw_backend w (td_ams_net_id tgt) (td_ams_port tgt)) tx) (located notified tree defs))
    (located pollable tree defs).

Definition uploads (w : TargetWorld) (tgt : TargetDescriptor) : Prop :=
  completes (upload_via_dispatcher (tw_send w) (td_ams_net_id tgt) (td_ams_port tgt) REQUEST_TIMEOUT).

Lemma rebuild_target_spec w tgt defs b :
  uploads w tgt -> Forall (fun d => cm_source d <> SourcePush) defs ->
  let k := td_ams_net_id tgt in
  rebuild_target w tgt defs b = Ok
    match served w tgt with
    | Some tree =>
      mkBridge (cb_metric_tx b) (cache_insert_with_time k tree (tw_now w) (cb_cache b))
        (<[k := rebuilt w tgt defs (cb_metric_tx b) tree]> (cb_state b))
    | None => remove_state k b
    end.
Proof.
  intros Hu Hd k. unfold rebuild_target, served, uploads in *. fold k in Hu |- *.
  destruct (tw_attached w); [|done]. destruct (route_ready w tgt); [|done]. cbn [negb andb].
  destruct (upload_via_dispatcher _ _ _ _) as [tree|e| |]; try done.
  rewrite (register_defs_spec _ _ tree); [|unfold cache_get, cache_insert_with_time; by rewrite lookup_insert_eq|done].
  cbn [outcome_bind fst snd app cb_metric_tx cb_cache cb_state remove_state]. by rewrite insert_delete_eq.
Qed.

(** What the bridge has of a target after its rebuild. *)
Definition matches (w : TargetWorld) (tgt : TargetDescriptor) (defs : list CustomMetricDef) (b : ClientBridge) : Prop :=
  let k := td_ams_net_id tgt in
  match served w tgt with
  | Some tree => cache_get k (cb_cache b) = Some tree /\ cb_state b !! k = Some (rebuilt w tgt defs (cb_metric_tx b) tree)
  | None => cb_state b !! k = None
  end.

Lemma rebuild_all_spec world l b :
  NoDup l.*1 -> Forall (fun e => td_ams_net_id e.2.1 = e.1 /\ uploads (world e.1) e.2.1 /\
    Forall (fun d => cm_source d <> SourcePush) e.2.2) l ->
  exists b', rebuild_all world l b = Ok b' /\ cb_metric_tx b' = cb_metric_tx b /\
    (forall k, k ∉ l.*1 -> cb_state b' !! k = cb_state b !! k /\ cb_cache b' !! k = cb_cache b !! k) /\
    Forall (fun e => matches (world e.1) e.2.1 e.2.2 b') l.
Proof.
  revert b. induction l as [|[k [tgt defs]] l IH]; intros b Hnd Hl; [by exists b|].
  inversion Hl as [|? ? (Hk & Hu & Hp) Hl']. inversion Hnd as [|? ? Hnot Hnd']. subst. simpl in *. subst k.
  rewrite rebuild_target_spec by done. cbn [outcome_bind].
  match goal with |- context [rebuild_all world l ?x] => set (b1 := x) end.
  destruct (IH b1 Hnd' Hl') as (b' & Hb' & Htx & Hout & Hall). exists b'. rewrite Hb'.
  assert (Hone : cb_metric_tx b1 = cb_metric_tx b /\ matches (world (td_ams_net_id tgt)) tgt defs b1 /\
    forall k, k <> td_ams_net_id tgt -> cb_state b1 !! k = cb_state b !! k /\ cb_cache b1 !! k = cb_cache b !! k).
  { unfold matches, b1. destruct (served (world (td_ams_net_id tgt)) tgt) as [tree|]; simpl.
    - split_and!; [done|unfold cache_get, cache_insert_with_time; by rewrite lookup_insert_eq|by rewrite lookup_insert_eq|].
      intros k Hne. unfold cache_insert_with_time. by rewrite !lookup_insert_ne by done.
    - split_and!; [done|apply lookup_delete_eq|]. intros k Hne. by rewrite lookup_delete_ne by done. }
  destruct Hone as (Htx1 & Hm & Hrest). split_and!; [done|by rewrite Htx|..].
  - intros k Hk'. apply not_elem_of_cons in Hk' as [Hne Hnin]. destruct (Hout k Hnin) as [-> ->]. by apply Hrest.
  - constructor; [|done]. simpl. revert Hm. unfold matches, cache_get. destruct (Hout _ Hnot) as [-> ->]. by rewrite Htx.
Qed.

Lemma foldr_invalidate keys (c : gmap AmsNetId CacheEntry) k :
  foldr cache_invalidate c keys !! k = if decide (k ∈ keys) then None else c !! k.
Proof.
  induction keys as [|k' keys IH]; [done|]. cbn [foldr]. unfold cache_invalidate at 1.
  destruct (decide (k' = k)) as [->|Hne].
  - rewrite lookup_delete_eq. by rewrite decide_True by by left.
  - rewrite lookup_delete_ne by done. rewrite IH. apply decide_ext. rewrite elem_of_cons. naive_solver.
Qed.

Lemma drop_unwanted_spec desired b k :
  cb_state (drop_unwanted desired b) !! k = (if decide (is_Some (desired !! k)) then cb_state b !! k else None) /\
  cb_cache (drop_unwanted desired b) !! k =
    (if decide (desired !! k = None /\ is_Some (cb_state b !! k)) then None else cb_cache b !! k).
Proof.
  split; simpl.
  - destruct (decide (is_Some (desired !! k))) as [Hd|Hd].
    + destruct (cb_state b !! k) as [ts|] eqn:Hs.
      * by apply map_lookup_filter_Some.
      * apply map_lookup_filter_None. by left.
    + apply map_lookup_filter_None. right. intros ts _. simpl. done.
  - rewrite foldr_invalidate. apply decide_ext. rewrite list_elem_of_fmap. split.
    + intros ([k' ts] & -> & Hin%elem_of_map_to_list). apply map_lookup_filter_Some in Hin as [Hs Hd]. simpl in *. eauto.
    + intros [Hd [ts Hs]]. exists (k, ts). split; [done|]. apply elem_of_map_to_list, map_lookup_filter_Some. done.
Qed.

Lemma bridge_reconciled iter world s b :
  (forall m, iter m ≡ₚ map_to_list m) ->
  (forall k t ds, group k (wanted s) = Some (t, ds) -> uploads (world k) t) ->
  exists b', bridge_reconcile iter world s b = Ok b' /\ cb_metric_tx b' = cb_metric_tx b /\
    forall k,
      match group k (wanted s) with
      | None => cb_state b' !! k = None /\ (is_Some (cb_state b !! k) -> cb_cache b' !! k = None)
      | Some (t, ds) => matches (world k) t ds b'
      end.
Proof.
  intros Hiter Hup. unfold bridge_reconcile. set (desired := by_target (wanted s)).
  assert (Hin : forall k t ds, (k, (t, ds)) ∈ iter desired <-> group k (wanted s) = Some (t, ds)).
  { intros k t ds. rewrite (Hiter desired), elem_of_map_to_list. unfold desired. by rewrite by_target_group. }
  destruct (rebuild_all_spec world (iter desired) (drop_unwanted desired b)) as (b' & Hb' & Htx & Hout & Hall).
  - rewrite (Hiter desired). apply NoDup_fst_map_to_list.
  - apply Forall_forall. intros [k [t ds]] Hk%Hin. simpl. split_and!; [by apply group_key in Hk as [? _]|by eapply Hup|].
    by eapply group_no_push.
  - exists b'. split_and!; [done|done|]. intros k. rewrite Forall_forall in Hall.
    destruct (group k (wanted s)) as [[t ds]|] eqn:Hg.
    + by apply (Hall (k, (t, ds))), Hin.
    + assert (Hnot : k ∉ (iter desired).*1).
      { rewrite list_elem_of_fmap. intros ([k' [t ds]] & -> & Hk%Hin). simpl in Hg. by rewrite Hg in Hk. }
      destruct (Hout k Hnot) as [-> ->]. destruct (drop_unwanted_spec desired b k) as [-> ->].
      assert (Hd : desired !! k = None) by (unfold desired; by rewrite by_target_group).
      rewrite Hd, decide_False by (intros [? [=]]). split; [done|]. intros Hs. by rewrite decide_True.
Qed.

(** What a meeting promises. *)
Definition fair (x : Meeting * AppSettings) : Prop :=
  (forall m, me_iter x.1 m ≡ₚ map_to_list m) /\
  forall k t ds, group k (wanted x.2) = Some (t, ds) -> uploads (me_world x.1 k) t.

Lemma bridge_run_total l b : Forall fair l -> exists b', bridge_run l b = Ok b' /\ cb_metric_tx b' = cb_metric_tx b.
Proof.
  intros Hl. revert b. induction Hl as [|[m s] l [Hi Hu] _ IH]; intros b; simpl; [eauto|].
  destruct (bridge_reconciled (me_iter m) (me_world m) s b Hi Hu) as (b1 & -> & Htx & _). simpl.
  destruct (IH b1) as (b' & -> & Htx'). exists b'. split; [done|congruence].
Qed.

Lemma bridge_run_app l l' b : bridge_run (l ++ l') b = (b <-- bridge_run l b ;; bridge_run l' b)%rust.
Proof.
  revert b. induction l as [|[m s] l IH]; intros b; simpl; [done|]. by destruct (bridge_reconcile _ _ s b); simpl.
Qed.

(** C26: The bridge runs exactly what the last configuration says. Its task, started with an empty bridge, survives
    any sequence of configurations without a panic, and whatever it ran before and in whichever order
    the targets are visited: a target that no definition names any more is
    gone, with its cached symbols; a target that could be reached has its
    fresh table in the cache and runs a poller for each polled gauge or sum,
    and has subscribed each notified metric, whose symbol the table has, in
    the order of the configuration and at the address the table gives; a
    target that could not be reached runs nothing. *)
Theorem bridge_exact (earlier : list (Meeting * AppSettings)) iter world s metric_tx cache :
  Forall fair earlier ->
  (forall m, iter m ≡ₚ map_to_list m) ->
  (forall k t ds, group k (wanted s) = Some (t, ds) -> uploads (world k) t) ->
  exists b b', bridge_run earlier (ClientBridge_new metric_tx cache) = Ok b /\
    bridge_run (earlier ++ [(mkMeeting iter world, s)]) (ClientBridge_new metric_tx cache) = Ok b' /\
    cb_metric_tx b' = metric_tx /\
    forall k,
      match group k (wanted s) with
      | None => cb_state b' !! k = None /\ (is_Some (cb_state b !! k) -> cb_cache b' !! k = None)
      | Some (t, ds) => matches (world k) t ds b'
      end.
Proof.
  intros He Hiter Hup. destruct (bridge_run_total earlier (ClientBridge_new metric_tx cache) He) as (b & Hb & Htx).
  destruct (bridge_reconciled iter world s b Hiter Hup) as (b' & Hb' & Htx' & Hk). exists b, b'.
  rewrite bridge_run_app, Hb. cbn [outcome_bind bridge_run me_iter me_world]. rewrite Hb'. cbn [outcome_bind].
  rewrite Htx', Htx. done.
Qed.

(** ** What is left behind *)

(** A second definition of a target with another port is read from the first
    one's port: the port of a target is that of its first definition. *)
Lemma first_port_wins d1 d2 t1 t2 :
  TargetDescriptor_from_def d1 = inr t1 -> TargetDescriptor_from_def d2 = inr t2 ->
  td_ams_net_id t1 = td_ams_net_id t2 ->
  group (td_ams_net_id t2) [d1; d2] = Some (t1, [d1; d2]).
Proof.
  intros H1 H2 Heq. unfold group. cbn [List.filter]. unfold for_target. rewrite H1, H2.
  rewrite (bool_decide_true (td_ams_net_id t1 = td_ams_net_id t2)), bool_decide_true by done. by rewrite H1.
Qed.

(** A rebuild subscribes again and ends nothing: what was active at the PLC
    before it, the subscriptions of the state it replaces included, is active
    after it. *)
Lemma rebuild_keeps_subscriptions {NL : BackendLaws NB} w tgt defs tx tree :
  active (tw_backend w (td_ams_net_id tgt) (td_ams_port tgt)) ⊆
  active (nf_backend (ts_notifier (rebuilt w tgt defs tx tree))).
Proof.
  unfold rebuilt, subscribe_all. cbn [ts_notifier].
  set (n0 := Notifier_new _ tx). change (tw_backend w (td_ams_net_id tgt) (td_ams_port tgt)) with (nf_backend n0).
  generalize (located notified tree defs). intros l. clearbody n0. revert n0. induction l as [|[d m] l IH]; intros n0; [done|].
  cbn [foldl fst snd]. etrans; [|apply IH]. unfold subscribe. destruct (NotifAttrs_from_def _ _); [done|].
  destruct (backend_subscribe _ _ _) as [bk [e|h]] eqn:Hb; simpl.
  - by eapply subscribe_err.
  - apply subscribe_ok in Hb as [_ ->]. set_solver.
Qed.

End Reconcile.
