(* ===== verification/LogPath.v ===== *)
(** * From entries to queued records (crates/tc-otel-service: dispatcher.rs,
    trace_dispatcher.rs)

    The dispatchers of the three pillars: they complete an entry with the name
    of the host and of the service, format the message of a log, apply custom
    metric definitions, resolve the logger or namespace to the type of its
    function block, and queue the record for the batching worker of
    [Worker]. *)

From S2P Require Import Prelude.
From S2P Require Import Text.
From S2P Require Import External.
From S2P Require Import Models.
From S2P Require Import Formatter.
From S2P Require Import ScopeResolver.
From S2P Require Import MetricMapper.

Section Dispatchers.
Context `{Ext : External} `{MP : Mpsc} `{SL : ScopeLookup}.

(** [if s.is_empty() { s = default }]. *)
Definition or_default (s default_ : string) : string := if String.eqb s "" then default_ else s.

(** The three conditions under which the resolver is asked. *)
Definition resolvable (net scope : string) (app_port : Z) : bool :=
  negb (String.eqb net "") && negb (String.eqb scope "") && negb (app_port =? 0).

(** The attribute for the instance a scope was resolved from. *)
Definition insert_instance (path : option string) (m : attrs) : attrs :=
  match path with
  | Some path => <["plc.instance_path" := VString path]> m
  | None => m
  end.

(** ** Logs *)

Record LogDispatcher := mkLogDispatcher {
  ld_export_tx : Sender LogRecord;
  ld_host_name : string;
  ld_default_service_name : string;
  ld_scope_resolver : ScopeResolver;
}.

(** The entry with host and project filled in. *)
Definition log_backfill (d : LogDispatcher) (e : LogEntry) : LogEntry :=
  {| le_id := le_id e; le_source := le_source e;
     le_hostname := or_default (le_hostname e) (ld_host_name d);
     le_ams_net_id := le_ams_net_id e; le_ams_source_port := le_ams_source_port e;
     le_ams_app_port := le_ams_app_port e; le_message := le_message e; le_logger := le_logger e;
     le_level := le_level e; le_plc_timestamp := le_plc_timestamp e;
     le_clock_timestamp := le_clock_timestamp e; le_task_index := le_task_index e;
     le_task_name := le_task_name e; le_task_cycle_counter := le_task_cycle_counter e;
     le_app_name := le_app_name e;
     le_project_name := or_default (le_project_name e) (ld_default_service_name d);
     le_online_change_count := le_online_change_count e; le_trace_id := le_trace_id e;
     le_span_id := le_span_id e; le_arguments := le_arguments e; le_context := le_context e |}.

(** The record with its scope and body set. *)
Definition set_log_scope (scope : string) (path : option string) (r : LogRecord) : LogRecord :=
  mkLogRecord (lr_timestamp r) (lr_body r) (lr_severity_number r) (lr_severity_text r)
    (lr_trace_id r) (lr_span_id r) (lr_resource_attributes r) scope (lr_scope_attributes r)
    (insert_instance path (lr_log_attributes r)).

Definition set_log_body (body : string) (r : LogRecord) : LogRecord :=
  mkLogRecord (lr_timestamp r) (VString body) (lr_severity_number r) (lr_severity_text r)
    (lr_trace_id r) (lr_span_id r) (lr_resource_attributes r) (lr_scope_name r)
    (lr_scope_attributes r) (lr_log_attributes r).

(** The suffix that carries the trace context in the body. *)
Definition trace_suffix (r : LogRecord) : string :=
  if String.eqb (lr_trace_id r) "" then ""
  else " [trace_id=" +:+ lr_trace_id r +:+ " span_id=" +:+ lr_span_id r +:+ "]".

(** [LogDispatcher::dispatch] up to the send: the resolver afterwards, and the
    record. [env] is what the network answers meanwhile. *)
Definition log_record_of (env : LookupEnv) (entry : LogEntry) (d : LogDispatcher)
    : outcome Empty_set (ScopeResolver * LogRecord) :=
  let entry := log_backfill d entry in
  (body <-- (if existsb (fun b => b =? 123) (bytes_of_string (le_message entry))
             then format_with_context (le_message entry) (le_arguments entry) (le_context entry)
             else Ok (le_message entry)) ;;
   let net := le_ams_net_id entry in
   let resolver := if String.eqb net "" then ld_scope_resolver d
                   else observe_occ net (le_online_change_count entry) (ld_scope_resolver d) in
   let record := LogRecord_from_log_entry entry in
   let '(resolver, record) :=
     if resolvable net (lr_scope_name record) (le_ams_app_port entry) then
       let '(resolver, o) := resolve env net (lr_scope_name record) (le_ams_app_port entry) resolver in
       (resolver, set_log_scope (so_scope_name o) (so_instance_path o) record)
     else (resolver, record) in
   Ok (resolver, set_log_body (body +:+ trace_suffix record) record))%rust.

Definition LogDispatcher_dispatch (env : LookupEnv) (entry : LogEntry) (d : LogDispatcher)
    : outcome Empty_set LogDispatcher :=
  (r <-- log_record_of env entry d ;;
   Ok (mkLogDispatcher (try_send (ld_export_tx d) r.2).1 (ld_host_name d)
         (ld_default_service_name d) r.1))%rust.

(** [LogDispatcher::is_otlp_endpoint]. *)
Definition is_otlp_endpoint (endpoint : string) : bool := str_contains "/v1/logs" endpoint.

(** ** Metrics *)

Record MetricDispatcher := mkMetricDispatcher {
  mdp_export_tx : Sender MetricRecord;
  mdp_mapper : MetricMapper;
  mdp_default_service_name : string;
  mdp_host_name : string;
  mdp_scope_resolver : ScopeResolver;
}.

Definition metric_backfill (d : MetricDispatcher) (e : MetricEntry) : MetricEntry :=
  {| me_name := me_name e; me_description := me_description e; me_unit := me_unit e;
     me_kind := me_kind e; me_value := me_value e; me_timestamp := me_timestamp e;
     me_source := me_source e; me_hostname := or_default (me_hostname e) (mdp_host_name d);
     me_ams_net_id := me_ams_net_id e; me_ams_source_port := me_ams_source_port e;
     me_ams_app_port := me_ams_app_port e; me_task_index := me_task_index e;
     me_task_name := me_task_name e; me_task_cycle_counter := me_task_cycle_counter e;
     me_app_name := me_app_name e;
     me_project_name := or_default (me_project_name e) (mdp_default_service_name d);
     me_scope_namespace := me_scope_namespace e; me_attributes := me_attributes e;
     me_histogram_bounds := me_histogram_bounds e; me_histogram_counts := me_histogram_counts e;
     me_histogram_count := me_histogram_count e; me_histogram_sum := me_histogram_sum e;
     me_is_monotonic := me_is_monotonic e; me_trace_id := me_trace_id e;
     me_span_id := me_span_id e |}.

Definition set_metric_scope (scope : string) (path : option string) (r : MetricRecord) : MetricRecord :=
  mkMetricRecord (mr_name r) (mr_description r) (mr_unit r) (mr_kind r) (mr_timestamp r) (mr_value r)
    (mr_is_monotonic r) (mr_resource_attributes r) scope (insert_instance path (mr_attributes r))
    (mr_histogram_bounds r) (mr_histogram_counts r) (mr_histogram_count r) (mr_histogram_sum r)
    (mr_trace_id r) (mr_span_id r).

(** [MetricDispatcher::dispatch] up to the send. *)
Definition metric_record_of (env : LookupEnv) (entry : MetricEntry) (d : MetricDispatcher)
    : ScopeResolver * MetricRecord :=
  let entry := metric_backfill d (MetricMapper_apply (mdp_mapper d) entry).1 in
  let net := me_ams_net_id entry in
  let record := MetricRecord_from_metric_entry entry in
  if resolvable net (mr_scope_name record) (me_ams_app_port entry) then
    let '(resolver, o) :=
      resolve env net (mr_scope_name record) (me_ams_app_port entry) (mdp_scope_resolver d) in
    (resolver, set_metric_scope (so_scope_name o) (so_instance_path o) record)
  else (mdp_scope_resolver d, record).

Definition MetricDispatcher_dispatch (env : LookupEnv) (entry : MetricEntry) (d : MetricDispatcher)
    : MetricDispatcher :=
  let '(resolver, record) := metric_record_of env entry d in
  mkMetricDispatcher (try_send (mdp_export_tx d) record).1 (mdp_mapper d)
    (mdp_default_service_name d) (mdp_host_name d) resolver.

(** ** Traces *)

Definition set_trace_scope (scope : string) (path : option string) (r : TraceRecord) : TraceRecord :=
  mkTraceRecord (tr_trace_id r) (tr_span_id r) (tr_parent_span_id r) (tr_name r) (tr_kind r)
    (tr_start_time r) (tr_end_time r) (tr_status_code r) (tr_status_message r)
    (tr_resource_attributes r) scope (tr_scope_attributes r)
    (insert_instance path (tr_span_attributes r)) (tr_events r).

(** [.and_then(|v| v.as_str()).unwrap_or("")]. *)
Definition attr_str (m : attrs) (k : string) : string :=
  match m !! k with Some (VString s) => s | _ => "" end.

(** [.and_then(|v| v.as_u64()).unwrap_or(0) as u16]. *)
Definition attr_u16 (m : attrs) (k : string) : Z :=
  match m !! k with
  | Some (VNumber (NInt z)) => if 0 <=? z then wrap 16 z else 0
  | _ => 0
  end.

(** [resolve_scope] of trace_dispatcher.rs, applied to each record as it is
    received. *)
Definition resolve_scope (env : LookupEnv) (resolver : ScopeResolver) (r : TraceRecord)
    : ScopeResolver * TraceRecord :=
  if String.eqb (tr_scope_name r) "" then (resolver, r)
  else
    let net := attr_str (tr_resource_attributes r) "plc.ams_net_id" in
    let app_port := attr_u16 (tr_resource_attributes r) "plc.ams_app_port" in
    if String.eqb net "" || (app_port =? 0) then (resolver, r)
    else
      let '(resolver, o) := resolve env net (tr_scope_name r) app_port resolver in
      (resolver, set_trace_scope (so_scope_name o) (so_instance_path o) r).

End Dispatchers.

(** ** Logs keep their meaning *)

Section LogTheorems.
Context `{Ext : External} `{MP : Mpsc} `{SL : ScopeLookup} {LL : ScopeLookupLaws SL}.

(** Observing a counter while the symbols stay as they are. *)
Lemma observe_occ_inv w net occ r : resolver_inv w r -> resolver_inv w (observe_occ net occ r).
Proof using LL. intros Hr. by apply (step_inv (w, r) (OObserve net occ)). Qed.

(** What the resolver [r] makes of a scope. When the lookup has to be asked and fails, the scope as it is; otherwise what the
    symbols of the PLC say: its type and itself as the instance, or, when it is no symbol, the scope as it is. *)
Definition resolved_scope (w : World) (env : LookupEnv) (net scope : string) (port : Z) (r : ScopeResolver)
    (name : string) (path : option string) : Prop :=
  if lookup_failed env net scope port r then name = scope /\ path = None
  else match w net !! scope with
       | Some t => name = t /\ path = Some scope
       | None => name = scope /\ path = None
       end.

Lemma resolve_scope_of w env net scope port r :
  resolver_inv w r -> serves w env net port -> scope <> "" ->
  resolver_inv w (resolve env net scope port r).1 /\
  resolved_scope w env net scope port r (so_scope_name (resolve env net scope port r).2)
    (so_instance_path (resolve env net scope port r).2).
Proof using LL.
  intros Hr Hs Hne. split.
  - destruct (resolve env net scope port r) as [r' o] eqn:Hres. by destruct (resolve_spec w env net scope port r r' o Hr Hs Hres).
  - unfold resolved_scope. rewrite (resolve_exact w env net scope port r Hr Hs Hne).
    destruct (lookup_failed _ _ _ _ _); [done|]. unfold scope_of. by destruct (w net !! scope).
Qed.

(** C12: A dispatched log keeps its meaning. For a message with at most sixteen
    distinct placeholders, [dispatch] queues exactly one record (when the
    channel takes it): its body is the rendered message, followed by the trace
    context when there is one; its attributes are those of the entry, and with
    an instance path exactly when the logger is among the PLC's
    symbols and the resolver, which has seen the counter of the entry, has it in its cache or its lookup succeeds;
    its type is then the scope, and otherwise the logger itself is the
    scope; service and host are the entry's, or the configured ones when the
    entry has none. The resolver stays right for the current symbols. *)
Theorem dispatched_log w env entry d l tail :
  resolver_inv w (ld_scope_resolver d) -> serves w env (le_ams_net_id entry) (le_ams_app_port entry) ->
  Forall wf_segment l -> 125 ∉ bytes_of_string tail ->
  (length (distinct (segment_keys l)) <= SEEN_MAX)%nat ->
  le_message entry = segments_text l +:+ tail ->
  exists d' rec base, LogDispatcher_dispatch env entry d = Ok d' /\
    ld_export_tx d' = (try_send (ld_export_tx d) rec).1 /\ resolver_inv w (ld_scope_resolver d') /\
    base = LogRecord_from_log_entry (log_backfill d entry) /\
    lr_body rec = VString (render l (le_arguments entry) (le_context entry) +:+ tail +:+ trace_suffix base) /\
    lr_resource_attributes rec = lr_resource_attributes base /\
    lr_trace_id rec = lr_trace_id base /\ lr_span_id rec = lr_span_id base /\
    exists path, lr_log_attributes rec = insert_instance path (lr_log_attributes base) /\
      if resolvable (le_ams_net_id entry) (le_logger entry) (le_ams_app_port entry)
      then resolved_scope w env (le_ams_net_id entry) (le_logger entry) (le_ams_app_port entry)
             (observe_occ (le_ams_net_id entry) (le_online_change_count entry) (ld_scope_resolver d)) (lr_scope_name rec) path
      else lr_scope_name rec = le_logger entry /\ path = None.
Proof using LL.
  intros Hr Hs Hl Ht Hmax Hmsg. unfold LogDispatcher_dispatch, log_record_of. cbv zeta.
  set (e := log_backfill d entry). set (base := LogRecord_from_log_entry e).
  assert (Hbody : (if existsb (fun b => b =? 123) (bytes_of_string (le_message e))
     then format_with_context (le_message e) (le_arguments e) (le_context e) else Ok (le_message e)) =
     Ok (render l (le_arguments entry) (le_context entry) +:+ tail)).
  { change (le_message e) with (le_message entry). rewrite Hmsg.
    pose proof (format_with_context_render l tail (le_arguments entry) (le_context entry) Hl Ht Hmax) as Hf.
    destruct (existsb _ _) eqn:Hb; [done|]. unfold format_with_context in Hf. by rewrite Hb in Hf. }
  rewrite Hbody. cbn [outcome_bind].
  change (le_ams_net_id e) with (le_ams_net_id entry). change (lr_scope_name base) with (le_logger entry).
  change (le_ams_app_port e) with (le_ams_app_port entry).
  set (r := if String.eqb (le_ams_net_id entry) "" then _ else _).
  assert (Hr' : resolver_inv w r) by (unfold r; destruct (String.eqb _ _); [done|by apply observe_occ_inv]).
  destruct (resolvable _ _ _) eqn:Hres.
  - assert (Hne : le_ams_net_id entry <> "" /\ le_logger entry <> "").
    { unfold resolvable in Hres. apply andb_true_iff in Hres as [Hres _].
      apply andb_true_iff in Hres as [Hnet Hres]. by apply negb_true_iff, String.eqb_neq in Hnet, Hres. }
    destruct Hne as [Hnet Hne]. assert (Hobs : r = observe_occ (le_ams_net_id entry) (le_online_change_count entry) (ld_scope_resolver d))
      by (unfold r; by rewrite (proj2 (String.eqb_neq _ _) Hnet)).
    destruct (resolve_scope_of w env (le_ams_net_id entry) (le_logger entry) (le_ams_app_port entry) r Hr' Hs Hne)
      as [Hinv Hsc].
    rewrite <- Hobs. destruct (resolve env _ _ _ r) as [r' o]. cbn [fst snd] in *.
    eexists _, _, base. split; [done|]. split; [done|]. split; [done|]. split; [done|].
    split; [by rewrite string_app_assoc|]. split_and!; [done..|]. by exists (so_instance_path o).
  - eexists _, _, base. split; [done|]. split; [done|]. split; [done|]. split; [done|].
    split; [by rewrite string_app_assoc|]. split_and!; [done..|]. by exists None.
Qed.

End LogTheorems.

(** ** The pillars agree on a scope *)

Section Pillars.
Context `{Ext : External} `{MP : Mpsc} `{SL : ScopeLookup}.

Lemma insert_if_eq c k v (m : attrs) : insert_if c k v m !! k = if c then Some v else m !! k.
Proof. unfold insert_if. destruct c; [apply lookup_insert_eq|done]. Qed.

(** What the resource of a record says of the PLC and its runtime. *)
Lemma resource_net project app host net app_port port :
  attr_str (build_otel_resource project app host net app_port port) "plc.ams_net_id" = net.
Proof.
  unfold build_otel_resource, attr_str. rewrite !insert_if_ne, insert_if_eq, insert_if_ne by done.
  unfold nonempty. case_bool_decide as Hn; cbn [negb]; [|done]. subst net.
  destruct (build_service_instance_id _ _ _); rewrite ?lookup_insert_ne by done;
    by rewrite insert_if_ne, lookup_empty by done.
Qed.

Lemma resource_app_port project app host net app_port port :
  0 <= app_port < 2 ^ 16 ->
  attr_u16 (build_otel_resource project app host net app_port port) "plc.ams_app_port" = app_port.
Proof.
  intros Hp. unfold build_otel_resource, attr_u16. rewrite insert_if_ne, insert_if_eq by done.
  destruct (Z.ltb_spec 0 app_port) as [Hpos|Hzero].
  - unfold json_int. rewrite (proj2 (Z.leb_le 0 app_port)) by lia. apply Z.mod_small. lia.
  - rewrite !insert_if_ne by done. destruct (build_service_instance_id _ _ _);
      rewrite ?lookup_insert_ne by done; rewrite insert_if_ne, lookup_empty by done; lia.
Qed.

Lemma existsb_brace_false s : 123 ∉ bytes_of_string s -> existsb (fun b => b =? 123) (bytes_of_string s) = false.
Proof.
  intros H. apply not_true_is_false. rewrite existsb_exists. intros (b & Hb & ->%Z.eqb_eq).
  by apply H, list_elem_of_In.
Qed.

Lemma resolve_hit env net ns port r v :
  ns <> "" -> sr_cache r !! (net, ns) = Some v -> resolve env net ns port r = (r, into_outcome v).
Proof.
  intros Hne Hc. unfold resolve, resolve_cached. by rewrite (proj2 (String.eqb_neq _ _) Hne), Hc.
Qed.

Lemma observe_occ_same net occ r : sr_occ_seen r !! net = Some occ -> observe_occ net occ r = r.
Proof. intros Hs. unfold observe_occ. by rewrite Hs, Z.eqb_refl. Qed.

(** A definition does not change where an entry comes from. *)
Lemma apply_keeps_origin m e :
  let e' := (MetricMapper_apply m e).1 in
  me_ams_net_id e' = me_ams_net_id e /\ me_scope_namespace e' = me_scope_namespace e /\
  me_ams_app_port e' = me_ams_app_port e.
Proof. unfold MetricMapper_apply. by repeat case_match. Qed.

Lemma resolvable_true net ns port : net <> "" -> ns <> "" -> 0 < port -> resolvable net ns port = true.
Proof.
  intros Hn Hs Hp. unfold resolvable.
  rewrite (proj2 (String.eqb_neq _ _) Hn), (proj2 (String.eqb_neq _ _) Hs), (proj2 (Z.eqb_neq _ _)) by lia.
  done.
Qed.

Lemma insert_instance_lookup path m :
  insert_instance (Some path) m !! "plc.instance_path" = Some (VString path).
Proof. apply lookup_insert_eq. Qed.

(** Logs, metrics and spans of one function block share one scope. When the
    resolver knows the namespace, a log, a metric and a finished span of that
    PLC, runtime and namespace get the same scope and the same instance path
    (each as an attribute of its own kind), and the resolver is not changed;
    the span names its PLC and runtime only by the attributes of its
    resource. *)
Theorem pillars_share_scope env r net ns port v le me se ldp mdp :
  net <> "" -> ns <> "" -> 0 < port < 2 ^ 16 -> sr_cache r !! (net, ns) = Some v ->
  le_ams_net_id le = net -> le_logger le = ns -> le_ams_app_port le = port ->
  sr_occ_seen r !! net = Some (le_online_change_count le) -> 123 ∉ bytes_of_string (le_message le) ->
  me_ams_net_id me = net -> me_scope_namespace me = ns -> me_ams_app_port me = port ->
  se_ams_net_id se = net -> se_scope_namespace se = ns -> se_ams_app_port se = port ->
  ld_scope_resolver ldp = r -> mdp_scope_resolver mdp = r ->
  exists lrec, log_record_of env le ldp = Ok (r, lrec) /\
  let '(r2, mrec) := metric_record_of env me mdp in
  let '(r3, trec) := resolve_scope env r (TraceRecord_from_span_entry se) in
  let o := into_outcome v in
  r2 = r /\ r3 = r /\
  lr_scope_name lrec = so_scope_name o /\ mr_scope_name mrec = so_scope_name o /\
  tr_scope_name trec = so_scope_name o /\
  forall path, so_instance_path o = Some path ->
    lr_log_attributes lrec !! "plc.instance_path" = Some (VString path) /\
    mr_attributes mrec !! "plc.instance_path" = Some (VString path) /\
    tr_span_attributes trec !! "plc.instance_path" = Some (VString path).
Proof.
  intros Hnet Hns Hport Hc Hl1 Hl2 Hl3 Hocc Hmsg Hm1 Hm2 Hm3 Hs1 Hs2 Hs3 Hlr Hmr.
  pose proof (resolvable_true net ns port Hnet Hns ltac:(lia)) as Hres.
  assert (Hlog : exists lrec, log_record_of env le ldp = Ok (r, lrec) /\
    lr_scope_name lrec = so_scope_name (into_outcome v) /\
    exists m, lr_log_attributes lrec = insert_instance (so_instance_path (into_outcome v)) m).
  { unfold log_record_of. cbv zeta.
    cbn [le_message le_ams_net_id le_online_change_count le_ams_app_port log_backfill LogRecord_from_log_entry
      lr_scope_name le_logger].
    rewrite existsb_brace_false by done. cbn [outcome_bind].
    rewrite Hl1, Hl2, Hl3, Hlr, (proj2 (String.eqb_neq _ _) Hnet), observe_occ_same, Hres, (resolve_hit _ _ _ _ _ v) by done.
    eexists. split; [done|]. split; [done|]. by eexists. }
  destruct Hlog as (lrec & Hrec & Hscope & lm & Hattr). exists lrec. split; [done|].
  unfold metric_record_of, resolve_scope. cbv zeta.
  destruct (apply_keeps_origin (mdp_mapper mdp) me) as (Ho1 & Ho2 & Ho3).
  cbn [me_ams_net_id me_scope_namespace me_ams_app_port metric_backfill MetricRecord_from_metric_entry
    mr_scope_name TraceRecord_from_span_entry tr_scope_name tr_resource_attributes].
  rewrite Ho1, Ho2, Ho3, Hm1, Hm2, Hm3, Hres, Hmr, (resolve_hit _ _ _ _ _ v) by done.
  rewrite resource_net, resource_app_port, Hs1, Hs2, Hs3 by lia.
  rewrite (proj2 (String.eqb_neq _ _) Hns), (proj2 (String.eqb_neq _ _) Hnet), (proj2 (Z.eqb_neq _ _)) by lia.
  cbn [orb]. rewrite (resolve_hit _ _ _ _ _ v) by done. split_and!; try done.
  intros path Hpath. rewrite Hattr. cbn [mr_attributes set_metric_scope tr_span_attributes set_trace_scope].
  rewrite Hpath, !insert_instance_lookup. done.
Qed.

End Pillars.
