(* ===== verification/Worker.v ===== *)
(** * The batching workers (crates/tc-otel-service: dispatcher.rs,
    trace_dispatcher.rs)

    Records queued for export are collected by one task per pillar: it waits in
    a [select!] for a record, for the flush interval or for a new
    configuration, and hands full or due batches to detached tasks that post
    them, at most [MAX_INFLIGHT_FLUSHES] at a time; a batch that finds no
    permit is dropped. The workers of the log and the metric pillar have these
    branches; the one of the trace pillar has no configuration branch. *)

From S2P Require Import Prelude.
From S2P Require Import Text.
From S2P Require Import External.

(** The caps of dispatcher.rs and of trace_dispatcher.rs. *)
Definition MAX_INFLIGHT_FLUSHES : nat := 16.
Definition MAX_INFLIGHT_TRACE_FLUSHES : nat := 32.

(** [tokio::time::interval] of a period in milliseconds panics when it is zero; a worker makes a new
    interval only for a new period. *)
Definition make_interval (ms : Z) : outcome Empty_set Z := if ms =? 0 then Panic else Ok ms.
Definition remake_interval (new cur : Z) : outcome Empty_set Z := if new =? cur then Ok cur else make_interval new.

Section Worker.
(** The records, and the exporter a batch is posted with (endpoint, format
    and retries); [Cfg] is what a configuration gives the worker. *)
Context {R X : Type} `{SO : SemaphoreOps}.

Record WorkerConfig := mkWorkerConfig {
  wc_exporter : X;
  wc_batch_size : nat;
  wc_flush_interval : Z;
}.

(** A worker makes its interval before its loop. *)
Definition start_worker (cfg : WorkerConfig) : outcome Empty_set WorkerConfig :=
  (_ <-- make_interval (wc_flush_interval cfg) ;; Ok cfg)%rust.

(** The worker between two turns of its loop. [bw_queue] is the channel,
    [bw_open] whether a sender is left, [bw_config_rx] whether the
    configuration is still watched, [bw_running] the posts under way. For the
    theorems only: [bw_received], the records taken from the channel,
    [bw_flushed], the batches given to [spawn_flush], each with whether it got a
    permit and is posted ([false]: it was dropped), [bw_largest], the largest
    batch size configured so far. *)
Record BatchWorker := mkWorker {
  bw_queue : list R;
  bw_open : bool;
  bw_config : WorkerConfig;
  bw_config_rx : bool;
  bw_batch : list R;
  bw_inflight : Semaphore;
  bw_running : list (X * list R);
  bw_received : list R;
  bw_flushed : list (bool * list R);
  bw_largest : nat;
}.

Definition BatchWorker_new (cfg : WorkerConfig) (config_rx : bool) (max_inflight : nat) : BatchWorker :=
  mkWorker [] true cfg config_rx [] (semaphore_new max_inflight) [] [] []
    (wc_batch_size cfg).

(** [spawn_flush] of the batch, which is replaced by an empty one. *)
Definition spawn_flush (w : BatchWorker) : BatchWorker :=
  match sem_try_acquire (bw_inflight w) with
  | Some inflight =>
    mkWorker (bw_queue w) (bw_open w) (bw_config w) (bw_config_rx w) [] inflight
      (bw_running w ++ [(wc_exporter (bw_config w), bw_batch w)]) (bw_received w)
      (bw_flushed w ++ [(true, bw_batch w)]) (bw_largest w)
  | None =>
    mkWorker (bw_queue w) (bw_open w) (bw_config w) (bw_config_rx w) [] (bw_inflight w)
      (bw_running w) (bw_received w) (bw_flushed w ++ [(false, bw_batch w)]) (bw_largest w)
  end.

(** [Some(record) = rx.recv()]. *)
Definition on_record (r : R) (queue : list R) (w : BatchWorker) : BatchWorker :=
  let batch := bw_batch w ++ [r] in
  let w' := mkWorker queue (bw_open w) (bw_config w) (bw_config_rx w) batch (bw_inflight w)
              (bw_running w) (bw_received w ++ [r]) (bw_flushed w) (bw_largest w) in
  if (wc_batch_size (bw_config w) <=? length batch)%nat then spawn_flush w' else w'.

(** [_ = interval.tick()]. *)
Definition on_tick (w : BatchWorker) : BatchWorker :=
  match bw_batch w with [] => w | _ => spawn_flush w end.

(** The configuration branch; [None]: the watch channel was closed. *)
Definition on_config (new : option WorkerConfig) (w : BatchWorker) : BatchWorker :=
  match new with
  | None =>
    mkWorker (bw_queue w) (bw_open w) (bw_config w) false (bw_batch w) (bw_inflight w)
      (bw_running w) (bw_received w) (bw_flushed w) (bw_largest w)
  | Some cfg =>
    mkWorker (bw_queue w) (bw_open w) cfg (bw_config_rx w) (bw_batch w) (bw_inflight w)
      (bw_running w) (bw_received w) (bw_flushed w) (Nat.max (bw_largest w) (wc_batch_size cfg))
  end.

(** ** [select!] *)

(** What a branch of [select!] shows when it is polled: it is disabled when
    its future has completed with a value its pattern refuses. *)
Inductive branch := Pending | Completed | Disabled.

#[global] Instance branch_eq_dec : EqDecision branch.
Proof. solve_decision. Defined.

(** [Some(record) = rx.recv()]: [recv] returns [None] once the channel is
    closed and drained. *)
Definition recv_branch (w : BatchWorker) : branch :=
  match bw_queue w with
  | _ :: _ => Completed
  | [] => if bw_open w then Pending else Disabled
  end.

(** [_ = interval.tick()], with an irrefutable pattern. *)
Definition tick_branch (due : bool) : branch := if due then Completed else Pending.

(** [result = async { .. }], with an irrefutable pattern; without a watch
    channel it is [pending()]. *)
Definition config_branch (changed : bool) (w : BatchWorker) : branch :=
  if bw_config_rx w then (if changed then Completed else Pending) else Pending.

(** The [else] branch of the log and the metric worker runs when all other
    branches are disabled. *)
Definition else_branch (due changed : bool) (w : BatchWorker) : bool :=
  bool_decide (recv_branch w = Disabled /\ tick_branch due = Disabled /\
               config_branch changed w = Disabled).

(** One turn of the loop, or a step of the environment; the result is
    [None] when the worker has stopped. *)
Inductive worker_step : BatchWorker -> option BatchWorker -> Prop :=
| StepRecord w r queue :
    bw_queue w = r :: queue -> worker_step w (Some (on_record r queue w))
| StepTick w : worker_step w (Some (on_tick w))
| StepConfig w cfg :
    bw_config_rx w = true -> worker_step w (Some (on_config cfg w))
| StepElse w due changed : else_branch due changed w = true -> worker_step w None
(** A sender queues a record, or the last sender is dropped. *)
| StepSend w r :
    bw_open w = true ->
    worker_step w (Some (mkWorker (bw_queue w ++ [r]) true (bw_config w) (bw_config_rx w)
      (bw_batch w) (bw_inflight w) (bw_running w) (bw_received w) (bw_flushed w) (bw_largest w)))
| StepClose w :
    worker_step w (Some (mkWorker (bw_queue w) false (bw_config w) (bw_config_rx w)
      (bw_batch w) (bw_inflight w) (bw_running w) (bw_received w) (bw_flushed w) (bw_largest w)))
(** A post ends, well or not, and drops its permit. *)
| StepPosted w before post after :
    bw_running w = before ++ post :: after ->
    worker_step w (Some (mkWorker (bw_queue w) (bw_open w) (bw_config w) (bw_config_rx w)
      (bw_batch w) (sem_release (bw_inflight w)) (before ++ after) (bw_received w) (bw_flushed w) (bw_largest w))).

Inductive worker_reachable (w0 : BatchWorker) : BatchWorker -> Prop :=
| ReachInit : worker_reachable w0 w0
| ReachStep w w' : worker_reachable w0 w -> worker_step w (Some w') -> worker_reachable w0 w'.

(** ** The invariant *)

(** The batches that got a permit. *)
Definition granted (fs : list (bool * list R)) : list (list R) := (filter (fun f => f.1 = true) fs).*2.

Record worker_inv (max_inflight : nat) (w : BatchWorker) : Prop := {
  wi_records : bw_received w = concat (bw_flushed w).*2 ++ bw_batch w;
  wi_permits : (available_permits (bw_inflight w) + length (bw_running w) = max_inflight)%nat;
  wi_running : (bw_running w).*2 `sublist_of` granted (bw_flushed w);
  wi_sizes : Forall (fun f => (1 <= length f.2 <= Nat.max 1 (bw_largest w))%nat) (bw_flushed w);
  wi_config : (wc_batch_size (bw_config w) <= bw_largest w)%nat;
  wi_batch : (length (bw_batch w) < Nat.max 1 (bw_largest w))%nat;
}.

Context `{SL : !SemaphoreLaws SO}.

Lemma granted_app fs fs' : granted (fs ++ fs') = granted fs ++ granted fs'.
Proof. unfold granted. by rewrite filter_app, fmap_app. Qed.

(** Handing over a batch of an admissible size. *)
Lemma spawn_flush_inv n w :
  bw_received w = concat (bw_flushed w).*2 ++ bw_batch w ->
  (available_permits (bw_inflight w) + length (bw_running w) = n)%nat ->
  (bw_running w).*2 `sublist_of` granted (bw_flushed w) ->
  Forall (fun f => (1 <= length f.2 <= Nat.max 1 (bw_largest w))%nat) (bw_flushed w) ->
  (wc_batch_size (bw_config w) <= bw_largest w)%nat ->
  (1 <= length (bw_batch w) <= Nat.max 1 (bw_largest w))%nat ->
  worker_inv n (spawn_flush w).
Proof using SL.
  intros Hr Hp Hg Hs Hc Hb. unfold spawn_flush. destruct (sem_try_acquire _) as [s|] eqn:Ha.
  - apply sem_try_acquire_some in Ha. split; simpl; [..|done|lia].
    + by rewrite fmap_app, concat_app, Hr; simpl; rewrite !app_nil_r.
    + rewrite length_app. simpl. lia.
    + rewrite granted_app, fmap_app. by apply sublist_app.
    + apply Forall_app. split; [done|by apply Forall_singleton].
  - split; simpl; [|done|..|done|lia].
    + by rewrite fmap_app, concat_app, Hr; simpl; rewrite !app_nil_r.
    + rewrite granted_app. by apply sublist_inserts_r.
    + apply Forall_app. split; [done|by apply Forall_singleton].
Qed.

Lemma worker_step_inv n w w' : worker_inv n w -> worker_step w (Some w') -> worker_inv n w'.
Proof using SL.
  intros [Hr Hp Hg Hs Hc Hb] Hstep.
  inversion Hstep as [? r queue Hq|?|? cfg Hrx| | | |? before post after Hrun]; subst.
  - unfold on_record. cbv zeta. destruct (Nat.leb_spec (wc_batch_size (bw_config w)) (length (bw_batch w ++ [r])))
      as [Hfull|Hroom]; rewrite length_app in *; simpl in *.
    + apply spawn_flush_inv; simpl; rewrite ?length_app; simpl; try done; [by rewrite Hr, app_assoc|lia].
    + split; simpl; rewrite ?length_app; simpl; try done; [by rewrite Hr, app_assoc|lia].
  - unfold on_tick. destruct (bw_batch w) as [|r l] eqn:Hbw; [by split; rewrite ?Hbw|].
    apply spawn_flush_inv; rewrite ?Hbw; simpl in *; done || lia.
  - destruct cfg as [cfg|]; split; simpl; try done; try lia.
    eapply Forall_impl; [done|]. simpl. lia.
  - by split.
  - by split.
  - split; simpl; try done; rewrite Hrun in *.
    + rewrite sem_release_available. rewrite !length_app in *. simpl in *. lia.
    + etrans; [|done]. rewrite !fmap_app. apply sublist_app; [done|]. by apply sublist_cons.
Qed.

Lemma reachable_worker_inv n cfg crx w :
  worker_reachable (BatchWorker_new cfg crx n) w -> worker_inv n w.
Proof using SL.
  induction 1 as [|w w' Hw IH Hs]; [|by eapply worker_step_inv].
  split; simpl; try done; [|lia]. rewrite semaphore_new_available. lia.
Qed.

(** Batching loses nothing but what it says. In every reachable state of a
    worker, whatever records, ticks, configurations and finished posts came in
    which order, the records taken from the channel are, in order, those of
    the batches handed over and of the batch being filled: none is lost,
    doubled or reordered. No batch is empty or larger than the largest size
    configured, never more posts than the cap are under way, they post batches that got
    a permit, and a batch is dropped exactly when that many are. *)
Theorem worker_conserves n cfg crx w :
  worker_reachable (BatchWorker_new cfg crx n) w ->
  bw_received w = concat (bw_flushed w).*2 ++ bw_batch w /\
  Forall (fun f => (1 <= length f.2 <= Nat.max 1 (bw_largest w))%nat) (bw_flushed w) /\
  (length (bw_batch w) < Nat.max 1 (bw_largest w))%nat /\
  (length (bw_running w) <= n)%nat /\
  (bw_running w).*2 `sublist_of` granted (bw_flushed w) /\
  bw_flushed (spawn_flush w) =
    bw_flushed w ++ [(negb (bool_decide (length (bw_running w) = n)), bw_batch w)].
Proof using SL.
  intros Hw. destruct (reachable_worker_inv _ _ _ _ Hw) as [Hr Hp Hg Hs _ Hb]. split_and!; [done..|lia|done|].
  unfold spawn_flush. destruct (sem_try_acquire _) as [s|] eqn:Ha; simpl.
  - apply sem_try_acquire_some in Ha. by rewrite bool_decide_false by lia.
  - apply sem_try_acquire_none in Ha. by rewrite bool_decide_true by lia.
Qed.

(** ** What is posted while permits are free *)

(** Since the batches were [fs], every batch that [spawn_flush] was given got its permit, and these batches and the
    one being filled hold the records [rs]. *)
Definition posted_since (fs : list (bool * list R)) (w : BatchWorker) (rs : list R) : Prop :=
  exists new, bw_flushed w = fs ++ new /\ Forall (fun f => f.1 = true) new /\ concat new.*2 ++ bw_batch w = rs.

Lemma posted_since_now w : posted_since (bw_flushed w) w (bw_batch w).
Proof. exists []. by rewrite app_nil_r. Qed.

Lemma spawn_flush_posts fs w rs : (0 < available_permits (bw_inflight w))%nat -> posted_since fs w rs ->
  posted_since fs (spawn_flush w) rs /\ bw_batch (spawn_flush w) = [].
Proof using SL.
  intros Hav (new & Hf & Hn & Hrs). unfold spawn_flush.
  destruct (sem_try_acquire _) as [s|] eqn:Ha; [|apply sem_try_acquire_none in Ha; lia].
  split; [|done]. exists (new ++ [(true, bw_batch w)]). simpl. rewrite Hf, <- app_assoc, Forall_app, Forall_singleton.
  split_and!; [done..|]. by rewrite fmap_app, concat_app, <- Hrs; simpl; rewrite !app_nil_r.
Qed.

Lemma on_record_posts fs r queue w rs : (0 < available_permits (bw_inflight w))%nat -> posted_since fs w rs ->
  posted_since fs (on_record r queue w) (rs ++ [r]).
Proof using SL.
  intros Hav (new & Hf & Hn & Hrs). unfold on_record. set (w' := mkWorker _ _ _ _ _ _ _ _ _ _).
  assert (Hw' : posted_since fs w' (rs ++ [r])) by (exists new; by rewrite <- Hrs, <- app_assoc).
  destruct (_ <=? _)%nat; [|done]. by apply spawn_flush_posts.
Qed.

Lemma on_tick_posts fs w rs : (0 < available_permits (bw_inflight w))%nat -> posted_since fs w rs ->
  posted_since fs (on_tick w) rs /\ bw_batch (on_tick w) = [].
Proof using SL.
  intros Hav Hp. unfold on_tick. destruct (bw_batch w) eqn:Hb; [done|]. by apply spawn_flush_posts.
Qed.

(** A record waits for one interval at most: at the tick everything taken
    from the channel so far has been handed over, in order. *)
Theorem tick_hands_over n cfg crx w :
  worker_reachable (BatchWorker_new cfg crx n) w ->
  bw_batch (on_tick w) = [] /\ concat (bw_flushed (on_tick w)).*2 = bw_received w.
Proof using SL.
  intros Hw. destruct (reachable_worker_inv _ _ _ _ Hw) as [Hr _ _ _ _ _]. unfold on_tick, spawn_flush.
  destruct (bw_batch w) eqn:Hb; [by rewrite Hr, app_nil_r|].
  destruct (sem_try_acquire _); simpl; rewrite fmap_app, concat_app, Hr; simpl; by rewrite !app_nil_r.
Qed.

End Worker.

(** A worker never stops. The [else] branch that would flush the last batch
    and wait for the posts under way needs every branch to be disabled, but the
    ticking branch never is: with the channel closed and drained the worker
    keeps ticking. *)
Theorem worker_never_stops {R X} `{SO : SemaphoreOps} (w : BatchWorker (R:=R) (X:=X)) :
  ~ worker_step w None /\ worker_step w (Some (on_tick w)).
Proof.
  split; [|constructor]. intros Hs. inversion Hs as [| | |? due changed He| | |]; subst.
  apply bool_decide_eq_true in He as (_ & Ht & _). by destruct due.
Qed.
