(* ===== verification/Export.v ===== *)
(** * OTLP encoders (crates/tc-otel-export: proto_common.rs, logs_proto.rs,
    metrics_proto.rs, traces_proto.rs)

    The requests that are sent to an OTLP endpoint, before protobuf encoding:
    records are grouped by resource, then by scope. The message types of the
    opentelemetry-proto crate appear with the fields the sources set; the
    constants among those fields (empty schema urls, zero counts) are left
    out. The text of a JSON value, the nanoseconds of an instant and the
    iteration order of a [HashMap] are parameters. *)

From stdpp Require Import sorting.
From S2P Require Import Prelude.
From S2P Require Import Text.
From S2P Require Import External.
From S2P Require Import Models.

Set Warnings "-register-all".

(** ** What the encoders use of other crates *)

Class Encoding `{EX : External} := {
  (** [dt.timestamp_nanos_opt()]. *)
  timestamp_nanos_opt : DateTime -> option Z;
  (** [serde_json::to_string]. *)
  json_to_string : Value -> string;
  (** The order in which a map of attributes is iterated. *)
  attrs_iter : attrs -> list (string * Value);
}.

(** Documented: the text determines the value, control characters in it are
    escaped, and an iteration visits every entry once. *)
Class EncodingLaws `(EN : Encoding) : Prop := {
  json_to_string_inj : forall v v', json_to_string v = json_to_string v' -> v = v';
  json_to_string_clean : forall v, 31 ∉ bytes_of_string (json_to_string v);
  attrs_iter_perm : forall m, attrs_iter m ≡ₚ map_to_list m;
}.

(** ** Identifiers in hexadecimal *)

(** [u8::from_str_radix(pair, 16)] of two bytes: a sign is accepted. *)
Definition nibble (b : Z) : option Z :=
  if in_range 48 57 (Some b) then Some (b - 48)
  else if in_range 97 102 (Some b) then Some (b - 87)
  else if in_range 65 70 (Some b) then Some (b - 55)
  else None.

Definition hex_pair (a b : Z) : option Z :=
  if a =? 43 then nibble b
  else match nibble a, nibble b with Some x, Some y => Some (16 * x + y) | _, _ => None end.

(** [s.is_char_boundary(i)] for [i] within [s]: a slice elsewhere panics. *)
Definition is_char_boundary (bs : bytes) (i : nat) : bool :=
  match bs !! i with Some b => negb (in_range 128 191 (Some b)) | None => true end.

(** The loop of [decode_fixed_hex]; [n] pairs are left. *)
Fixpoint hex_loop (n : nat) (bs : bytes) : outcome unit bytes :=
  match n with
  | O => Ok []
  | S n =>
    if negb (is_char_boundary bs 0 && is_char_boundary bs 2) then Panic
    else
      match bs with
      | a :: b :: bs =>
        match hex_pair a b with
        | None => Err tt
        | Some x => (r <-- hex_loop n bs ;; Ok (x :: r))%rust
        end
      | _ => Panic
      end
  end.

(** [decode_fixed_hex]; a malformed pair makes the result empty. *)
Definition decode_fixed_hex (s : string) (expected_bytes : nat) : outcome unit bytes :=
  if negb (String.length s =? expected_bytes * 2)%nat || String.eqb s "" then Ok []
  else
    match hex_loop expected_bytes (bytes_of_string s) with
    | Err _ => Ok []
    | r => r
    end.

Definition decode_trace_id_hex (s : string) : outcome unit bytes := decode_fixed_hex s 16.
Definition decode_span_id_hex (s : string) : outcome unit bytes := decode_fixed_hex s 8.

Definition is_ascii (s : string) : Prop := Forall (fun b => b < 128) (bytes_of_string s).

Lemma ascii_boundary bs i : Forall (fun b => b < 128) bs -> is_char_boundary bs i = true.
Proof.
  intros Hb. unfold is_char_boundary. destruct (bs !! i) as [b|] eqn:Hi; [|done].
  pose proof (Forall_lookup_1 _ _ _ _ Hb Hi) as Hlt. simpl in Hlt. unfold in_range.
  destruct (Z.leb_spec 128 b); [lia|done].
Qed.

Lemma hex_loop_ascii n bs :
  Forall (fun b => b < 128) bs -> length bs = (n * 2)%nat -> completes (hex_loop n bs).
Proof.
  revert bs. induction n as [|n IH]; intros bs Hb Hl; [done|]. cbn [hex_loop].
  rewrite !ascii_boundary by done. cbn [andb negb].
  destruct bs as [|a [|b bs]]; [done|done|]. rewrite !Forall_cons in Hb. destruct Hb as (_ & _ & Hb).
  destruct (hex_pair a b); [|done]. specialize (IH bs Hb). simpl in Hl.
  assert (length bs = (n * 2)%nat) as Hl' by lia. specialize (IH Hl').
  by destruct (hex_loop n bs).
Qed.

Lemma decode_ascii s n : is_ascii s -> exists bs, decode_fixed_hex s n = Ok bs.
Proof.
  intros Hs. unfold decode_fixed_hex.
  destruct (Nat.eqb_spec (String.length s) (n * 2)) as [Hl|]; [|by eexists].
  destruct (String.eqb s ""); [by eexists|]. cbn [negb orb].
  pose proof (hex_loop_ascii n (bytes_of_string s) Hs) as Hc.
  rewrite length_bytes_of_string in Hc. specialize (Hc Hl).
  destruct (hex_loop n (bytes_of_string s)); try done; by eexists.
Qed.

Lemma nibble_hex_digit n : 0 <= n < 16 ->
  nibble (byte_of_ascii (hex_digit n)) = Some n /\ byte_of_ascii (hex_digit n) <> 43 /\
  byte_of_ascii (hex_digit n) < 128.
Proof.
  apply (forall_below (fun n => nibble (byte_of_ascii (hex_digit n)) = Some n /\
    byte_of_ascii (hex_digit n) <> 43 /\ byte_of_ascii (hex_digit n) < 128)). vm_compute. done.
Qed.

Lemma hex_loop_hex bs :
  is_bytes bs -> hex_loop (length bs) (bytes_of_string (hex_of_bytes bs)) = Ok bs /\
  is_ascii (hex_of_bytes bs).
Proof.
  induction 1 as [|b bs Hb Hbs [IH Hascii]]; [by split; [|constructor]|].
  unfold is_u8 in Hb. pose proof (Z.mod_pos_bound b 16).
  assert (0 <= b / 16 < 16) as Hq by (split; [apply Z.div_pos | apply Z.div_lt_upper_bound]; lia).
  destruct (nibble_hex_digit (b / 16)) as (H1 & H1' & H1''); [done|].
  destruct (nibble_hex_digit (b mod 16)) as (H2 & H2' & H2''); [lia|].
  assert (Hall : is_ascii (hex_of_bytes (b :: bs))).
  { unfold is_ascii. rewrite SimpleExternal.bytes_of_hex_cons. by repeat constructor. }
  split; [|done]. unfold is_ascii in Hall. cbn [length hex_loop]. rewrite !ascii_boundary by done.
  rewrite SimpleExternal.bytes_of_hex_cons. cbn [andb negb]. unfold hex_pair.
  rewrite (proj2 (Z.eqb_neq _ _)) by done. rewrite H1, H2, IH. simpl. do 2 f_equal.
  pose proof (Z.div_mod b 16). lia.
Qed.

(** Identifiers survive the export. The hexadecimal text of a trace or span
    id (16 or 8 bytes) is decoded to the same bytes; any text of ASCII
    characters is decoded without a panic, to that many bytes or to none; but a
    text of the right length whose characters straddle a pair panics. *)
Theorem hex_ids_decode :
  (forall bs, is_bytes bs -> length bs = 16%nat -> decode_trace_id_hex (hex_of_bytes bs) = Ok bs) /\
  (forall bs, is_bytes bs -> length bs = 8%nat -> decode_span_id_hex (hex_of_bytes bs) = Ok bs) /\
  (forall s n, is_ascii s -> exists bs, decode_fixed_hex s n = Ok bs /\ (length bs = n \/ bs = [])) /\
  (exists s, is_str s /\ String.length s = 16%nat /\ decode_span_id_hex s = Panic).
Proof.
  assert (Hdec : forall n bs, is_bytes bs -> length bs = S n ->
    decode_fixed_hex (hex_of_bytes bs) (S n) = Ok bs).
  { intros n bs Hb Hl. unfold decode_fixed_hex. rewrite SimpleExternal.length_hex_of_bytes, Hl.
    rewrite Nat.mul_comm, Nat.eqb_refl. cbn [negb orb].
    destruct bs as [|b bs]; [done|]. change (String.eqb (hex_of_bytes (b :: bs)) "") with false.
    rewrite <- Hl. by rewrite (proj1 (hex_loop_hex (b :: bs) Hb)). }
  assert (Hlen : forall n bs r, hex_loop n bs = Ok r -> length r = n).
  { induction n as [|n IH]; intros bs r; cbn [hex_loop]; [by intros [= <-]|].
    case_match; [done|]. destruct bs as [|a [|b bs]]; [done..|]. destruct (hex_pair a b); [|done].
    destruct (hex_loop n bs) eqn:Hr; try done. intros [= <-]. simpl. by erewrite IH. }
  split_and!.
  - intros bs Hb Hl. by apply (Hdec 15%nat).
  - intros bs Hb Hl. by apply (Hdec 7%nat).
  - intros s n Hs. destruct (decode_ascii s n Hs) as [bs Hd]. exists bs. split; [done|].
    unfold decode_fixed_hex in Hd. case_match; [simplify_eq; by right|].
    destruct (hex_loop n (bytes_of_string s)) eqn:Hh; simplify_eq; [left; by eapply Hlen|by right].
  - exists (string_of_bytes (48 :: 195 :: 169 :: replicate 13 48)). split; [|split]; by vm_compute.
Qed.

(** ** Values *)

Inductive AnyValue :=
| BoolValue (b : bool)
| StringValue (s : string)
| IntValue (i : Z)
| DoubleValue (bits : Z)
| ArrayValue (l : list AnyValue)
| KvlistValue (l : list (string * AnyValue)).

(** A serde_json number is an [i64], a [u64] or an [f64]. *)
Definition number_to_any_value (n : Number) : AnyValue :=
  match n with
  | NInt z => IntValue (if z <? 2 ^ 63 then z else to_signed 64 z)
  | NFloat bits => DoubleValue bits
  end.

Fixpoint json_to_any_value (v : Value) : option AnyValue :=
  match v with
  | Null => None
  | VBool b => Some (BoolValue b)
  | VString s => Some (StringValue s)
  | VNumber n => Some (number_to_any_value n)
  | VArray items =>
    Some (ArrayValue ((fix go l :=
      match l with
      | [] => []
      | v :: l => match json_to_any_value v with Some av => av :: go l | None => go l end
      end) items))
  | VObject m =>
    Some (KvlistValue ((fix go l :=
      match l with
      | [] => []
      | (k, v) :: l => match json_to_any_value v with Some av => (k, av) :: go l | None => go l end
      end) m))
  end.

(** ** Grouping *)

(** [entry(key).or_insert(..).push(record)] of a [BTreeMap], kept sorted. *)
Fixpoint btree_push {A R} (key : string) (a : A) (r : R) (m : list (string * (A * list R)))
    : list (string * (A * list R)) :=
  match m with
  | [] => [(key, (a, [r]))]
  | (k, (b, rs)) :: m =>
    match String.compare key k with
    | Lt => (key, (a, [r])) :: (k, (b, rs)) :: m
    | Eq => (k, (b, rs ++ [r])) :: m
    | Gt => (k, (b, rs)) :: btree_push key a r m
    end
  end.

(** The push into the first bucket of that name, or into a new last one. *)
Fixpoint bucket_push {R} (key : string) (r : R) (m : list (string * list R)) : list (string * list R) :=
  match m with
  | [] => [(key, [r])]
  | (k, rs) :: m => if String.eqb k key then (k, rs ++ [r]) :: m else (k, rs) :: bucket_push key r m
  end.

(** The inner grouping of logs and metrics. *)
Definition group_by_bucket {R} (key : R -> string) (records : list R) : list (string * list R) :=
  foldl (fun m r => bucket_push (key r) r m) [] records.

(** [group_records_by_scope] of traces: the order in which scopes were first
    seen, and a map of buckets. *)
Definition scope_push {R} (key : R -> string) (s : list string * gmap string (list R)) (r : R)
    : list string * gmap string (list R) :=
  let '(order, buckets) := s in
  let k := key r in
  (match buckets !! k with None => order ++ [k] | Some _ => order end,
   <[k := default [] (buckets !! k) ++ [r]]> buckets).

(** The buckets, taken out of the map in order; [remove(&k).unwrap()]. *)
Fixpoint take_buckets {R} (order : list string) (buckets : gmap string (list R))
    : outcome unit (list (string * list R)) :=
  match order with
  | [] => Ok []
  | k :: order =>
    match buckets !! k with
    | None => Panic
    | Some b => (rest <-- take_buckets order (delete k buckets) ;; Ok ((k, b) :: rest))%rust
    end
  end.

Definition group_records_by_scope {R} (key : R -> string) (records : list R)
    : outcome unit (list (string * list R)) :=
  let '(order, buckets) := foldl (scope_push key) ([], ∅) records in
  take_buckets order buckets.

(** ** Reference: grouping *)

(** Each element once, at its first place. *)
Fixpoint first_seen (l : list string) : list string :=
  match l with
  | [] => []
  | k :: l => k :: filter (fun k' => k' <> k) (first_seen l)
  end.

Definition with_key {R} (key : R -> string) (k : string) (l : list R) : list R :=
  filter (fun r => key r = k) l.

(** One bucket for each key, in order of first occurrence, with the records
    of that key in their order. *)
Definition group_ref {R} (key : R -> string) (l : list R) : list (string * list R) :=
  map (fun k => (k, with_key key k l)) (first_seen (map key l)).

Lemma first_seen_elem k (ks : list string) : k ∈ first_seen ks <-> k ∈ ks.
Proof.
  induction ks as [|a ks IH]; simpl; [done|].
  rewrite !elem_of_cons, list_elem_of_filter, IH.
  destruct (decide (k = a)); intuition.
Qed.

Lemma first_seen_nodup (ks : list string) : NoDup (first_seen ks).
Proof.
  induction ks as [|a ks IH]; simpl; constructor.
  - rewrite list_elem_of_filter. by intros [[] _].
  - by apply NoDup_filter.
Qed.

Lemma first_seen_snoc (ks : list string) k :
  first_seen (ks ++ [k]) = first_seen ks ++ (if decide (k ∈ ks) then [] else [k]).
Proof.
  induction ks as [|a ks IH]; cbn [first_seen app].
  - by rewrite decide_False by apply not_elem_of_nil.
  - rewrite IH, filter_app. f_equal. f_equal. destruct (decide (k ∈ ks)) as [Hin|Hin].
    + rewrite decide_True by by right. done.
    + destruct (decide (k = a)) as [->|Hne].
      * rewrite decide_True by by left. by rewrite filter_cons_False by (intros Hn; by apply Hn).
      * rewrite decide_False by (rewrite elem_of_cons; intuition congruence).
        by rewrite filter_cons_True.
Qed.

Lemma bucket_push_spec {R} k0 (r : R) (f : string -> list R) (ks : list string) :
  NoDup ks -> f k0 = [] \/ k0 ∈ ks ->
  bucket_push k0 r (map (fun k => (k, f k)) ks) =
  map (fun k => (k, f k ++ (if decide (k0 = k) then [r] else [])))
    (ks ++ (if decide (k0 ∈ ks) then [] else [k0])).
Proof.
  induction 1 as [|k ks Hk Hks IH]; intros Hf; cbn [map bucket_push].
  - rewrite decide_False by apply not_elem_of_nil. simpl. rewrite decide_True by done.
    destruct Hf as [->|H]; [done|by apply not_elem_of_nil in H].
  - destruct (String.eqb_spec k k0) as [<-|Hne].
    + rewrite (decide_True (P := k ∈ k :: ks)) by by left. rewrite app_nil_r. cbn [map].
      rewrite decide_True by done. f_equal. apply map_ext_in. intros k' Hin%list_elem_of_In.
      rewrite decide_False, app_nil_r by (by intros ->). done.
    + rewrite IH by (destruct Hf as [?|Hf]; [by left|right; by apply elem_of_cons in Hf as [->|?]]).
      rewrite (decide_ext (k0 ∈ k :: ks) (k0 ∈ ks)) by (rewrite elem_of_cons; intuition congruence).
      cbn [app map]. by rewrite (decide_False (P := k0 = k)), app_nil_r by congruence.
Qed.

Section Grouping.
Context {R : Type} (key : R -> string).
Implicit Types (l : list R) (r : R) (k : string).

Lemma with_key_snoc k l r :
  with_key key k (l ++ [r]) = with_key key k l ++ (if decide (key r = k) then [r] else []).
Proof. unfold with_key. by rewrite filter_app. Qed.

Lemma with_key_absent k l : k ∉ map key l -> with_key key k l = [].
Proof.
  intros Hk. unfold with_key. apply filter_none, Forall_forall. intros r Hr <-.
  apply Hk, list_elem_of_fmap. eauto.
Qed.

Lemma group_by_bucket_ref l : group_by_bucket key l = group_ref key l.
Proof.
  unfold group_by_bucket, group_ref. induction l as [|r l IH] using rev_ind; [done|].
  rewrite foldl_app, IH. cbn [foldl]. rewrite bucket_push_spec.
  - rewrite (map_app key). cbn [map]. rewrite first_seen_snoc.
    rewrite (decide_ext (key r ∈ first_seen (map key l)) (key r ∈ map key l)) by apply first_seen_elem.
    apply map_ext. intros k. by rewrite with_key_snoc.
  - apply first_seen_nodup.
  - destruct (decide (key r ∈ map key l)) as [H|H]; [right; by apply first_seen_elem|left].
    by apply with_key_absent.
Qed.

(** The buckets of the map after a sequence of pushes. *)
Lemma scope_push_ref l :
  exists buckets, foldl (scope_push key) ([], ∅) l = (first_seen (map key l), buckets) /\
    forall k, buckets !! k = if decide (k ∈ map key l) then Some (with_key key k l) else None.
Proof.
  induction l as [|r l (buckets & Hf & Hb)] using rev_ind.
  - exists ∅. split; [done|]. intros k. by rewrite lookup_empty, decide_False by apply not_elem_of_nil.
  - rewrite foldl_app, Hf. cbn [foldl scope_push]. eexists. split.
    + rewrite map_app. cbn [map]. rewrite first_seen_snoc, Hb. f_equal.
      by case_decide; rewrite ?app_nil_r.
    + intros k. rewrite map_app, with_key_snoc. cbn [map].
      destruct (decide (key r = k)) as [<-|Hne].
      * rewrite lookup_insert_eq, (decide_True (P := _ ∈ map key l ++ _)) by set_solver.
        case_decide as Hd; [done|]. by rewrite with_key_absent.
      * rewrite lookup_insert_ne, Hb, app_nil_r by done.
        by rewrite (decide_ext (k ∈ map key l ++ [key r]) (k ∈ map key l)) by set_solver.
Qed.

Lemma take_buckets_ref (order : list string) (buckets : gmap string (list R)) f :
  NoDup order -> (forall k, k ∈ order -> buckets !! k = Some (f k)) ->
  take_buckets order buckets = Ok (map (fun k => (k, f k)) order).
Proof.
  intros Hnd. revert buckets. induction Hnd as [|k order Hk Hnd IH]; intros buckets Hb; [done|].
  cbn [take_buckets map]. rewrite Hb by by left. rewrite IH; [done|].
  intros k' Hk'. rewrite lookup_delete_ne by (by intros ->). apply Hb. by right.
Qed.

Lemma group_records_by_scope_ref l : group_records_by_scope key l = Ok (group_ref key l).
Proof.
  unfold group_records_by_scope. destruct (scope_push_ref l) as (buckets & -> & Hb).
  apply (take_buckets_ref _ _ (fun k => with_key key k l)); [apply first_seen_nodup|].
  intros k Hk. rewrite first_seen_elem in Hk. by rewrite Hb, decide_True.
Qed.

(** Every record is in exactly one bucket. *)
Lemma group_ref_perm l : concat (map snd (group_ref key l)) ≡ₚ l.
Proof.
  unfold group_ref. rewrite map_map. simpl.
  assert (Hgen : forall ks : list string, NoDup ks ->
    concat (map (fun k => with_key key k l) ks) ≡ₚ filter (fun r => key r ∈ ks) l).
  { induction 1 as [|k ks Hk Hks IH]; simpl.
    - rewrite filter_none; [done|]. apply Forall_forall. intros r _. apply not_elem_of_nil.
    - rewrite IH. unfold with_key. clear IH. induction l as [|r l IHl]; [done|].
      rewrite !filter_cons. destruct (decide (key r = k)) as [<-|Hne].
      + rewrite (decide_False (P := key r ∈ ks)), decide_True by (set_solver || done).
        simpl. by rewrite IHl.
      + rewrite (decide_ext (key r ∈ k :: ks) (key r ∈ ks)) by set_solver. case_decide; [|done].
        rewrite <- Permutation_middle. by rewrite IHl. }
  rewrite Hgen by apply first_seen_nodup. rewrite filter_all; [done|].
  apply Forall_forall. intros r Hr. apply first_seen_elem, list_elem_of_fmap. eauto.
Qed.

End Grouping.

(** ** The entries of a BTreeMap *)

Lemma str_compare_refl s : String.compare s s = Eq.
Proof. induction s as [|a s IH]; simpl; [done|]. unfold Ascii.compare. by rewrite N.compare_refl. Qed.

(** Byte order, strictly. *)
Definition str_lt (a b : string) : Prop := String.compare a b = Lt.

Lemma str_lt_le a b : str_lt a b <-> String.le a b /\ a <> b.
Proof.
  unfold str_lt, String.le, String.leb. destruct (String.compare a b) eqn:Hc; split; try done.
  - apply String.compare_eq_iff in Hc. by intros [_ []].
  - intros _. split; [done|]. intros ->. rewrite str_compare_refl in Hc. done.
  - by intros [[] _].
Qed.

#[local] Instance str_lt_trans : Transitive str_lt.
Proof.
  intros a b c. rewrite !str_lt_le. intros [H1 N1] [H2 N2]. split; [by etrans|].
  intros ->. by apply N1, (anti_symm String.le).
Qed.

Lemma btree_push_concat {A R} k (a : A) (r : R) (m : list (string * (A * list R))) :
  concat (map (fun e => e.2.2) (btree_push k a r m)) ≡ₚ concat (map (fun e => e.2.2) m) ++ [r].
Proof.
  induction m as [|[k' [b rs]] m IH]; simpl; [done|].
  destruct (String.compare k k'); simpl.
  - rewrite <- !app_assoc. apply Permutation_app_head. apply Permutation_app_comm.
  - apply (Permutation_app_comm [r] (rs ++ _)).
  - rewrite IH. by rewrite app_assoc.
Qed.

Lemma btree_push_keys {A R} k (a : A) (r : R) (m : list (string * (A * list R))) k' :
  k' ∈ map fst (btree_push k a r m) <-> k' = k \/ k' ∈ map fst m.
Proof.
  induction m as [|[k1 [b rs]] m IH]; simpl; [set_solver|].
  destruct (String.compare k k1) eqn:Hc; simpl; rewrite ?elem_of_cons, ?IH; [|tauto|tauto].
  apply String.compare_eq_iff in Hc as ->. tauto.
Qed.

Lemma btree_push_sorted {A R} k (a : A) (r : R) (m : list (string * (A * list R))) :
  StronglySorted str_lt (map fst m) -> StronglySorted str_lt (map fst (btree_push k a r m)).
Proof.
  induction m as [|[k1 [b rs]] m IH]; simpl; intros Hs; [by repeat constructor|].
  apply StronglySorted_inv in Hs as [Hs Hall].
  destruct (String.compare k k1) eqn:Hc; simpl.
  - by constructor.
  - constructor; [by constructor|]. constructor; [done|].
    eapply Forall_impl; [exact Hall|]. intros x Hx. by trans k1.
  - constructor; [by apply IH|]. apply Forall_forall. intros x Hx.
    apply btree_push_keys in Hx as [->|Hx].
    + unfold str_lt. rewrite String.compare_antisym, Hc. done.
    + rewrite Forall_forall in Hall. by apply Hall.
Qed.

(** The entry of another key is kept, the entry of this key gets the record. *)
Lemma btree_push_entry {A R} k (a : A) (r : R) (m : list (string * (A * list R))) k' a' rs' :
  StronglySorted str_lt (map fst m) ->
  (k', (a', rs')) ∈ btree_push k a r m ->
  (k' <> k /\ (k', (a', rs')) ∈ m) \/
  (k' = k /\ ((exists rs, (k, (a', rs)) ∈ m /\ rs' = rs ++ [r]) \/
              (k ∉ map fst m /\ a' = a /\ rs' = [r]))).
Proof.
  induction m as [|[k1 [b rs]] m IH]; simpl; intros Hs.
  { rewrite list_elem_of_singleton. intros [= -> -> ->]. right. split; [done|]. right.
    split; [apply not_elem_of_nil|done]. }
  apply StronglySorted_inv in Hs as [Hs Hall]. rewrite Forall_forall in Hall.
  assert (Hneq : forall k2 e, (k2, e) ∈ m -> str_lt k1 k2).
  { intros k2 e He. apply Hall, list_elem_of_fmap. by exists (k2, e). }
  destruct (String.compare k k1) eqn:Hc; rewrite elem_of_cons.
  - apply String.compare_eq_iff in Hc as ->. intros [[= -> -> ->]|Hin].
    + right. split; [done|]. left. exists rs. split; [by left|done].
    + left. split; [|by right]. intros ->. by apply Hneq, str_lt_le in Hin as [_ []].
  - intros [[= -> -> ->]|Hin].
    + right. split; [done|]. right. split_and!; [|done..]. rewrite elem_of_cons.
      intros [->|Hk]; [by rewrite str_compare_refl in Hc|].
      apply Hall in Hk. assert (str_lt k k) as [_ []]%str_lt_le by (by trans k1). done.
    + left. split; [|done]. intros ->. apply elem_of_cons in Hin as [[= -> _ _]|Hin];
        [by rewrite str_compare_refl in Hc|].
      apply Hneq in Hin. assert (str_lt k k) as [_ []]%str_lt_le by (by trans k1). done.
  - assert (Hk1 : k1 <> k) by (intros ->; by rewrite str_compare_refl in Hc).
    intros [[= -> -> ->]|Hin]; [left; split; [done|by left]|].
    destruct (IH Hs Hin) as [[? ?]|[-> [(rs0 & ? & ->)|(Hno & -> & ->)]]].
    + left. split; [done|by right].
    + right. split; [done|]. left. exists rs0. split; [by right|done].
    + right. split; [done|]. right. split_and!; [|done..]. rewrite elem_of_cons. naive_solver.
Qed.

(** ** Fingerprints *)

Section Encoders.
Context `{EN : Encoding}.

(** The entries of a [BTreeMap] collected from the entries of a map. *)
Definition key_le (a b : string * Value) : Prop := String.le a.1 b.1.

#[local] Instance key_le_dec : RelDecision key_le.
Proof. intros a b. unfold key_le. apply _. Defined.

Definition btree_of (l : list (string * Value)) : list (string * Value) := merge_sort key_le l.

Fixpoint fingerprint_loop (l : list (string * Value)) : string :=
  match l with
  | [] => ""
  | (k, v) :: l => k +:+ "=" +:+ json_to_string v +:+ String (ascii_of_byte 31) (fingerprint_loop l)
  end.

Definition resource_fingerprint (m : attrs) : string := fingerprint_loop (btree_of (attrs_iter m)).

(** [group_records_by_resource]. *)
Definition group_records_by_resource {R} (resource_of : R -> attrs) (records : list R)
    : list (attrs * list R) :=
  map snd (foldl (fun m r => btree_push (resource_fingerprint (resource_of r)) (resource_of r) r m)
             [] records).

(** ** Attributes and times *)

Definition build_attributes (m : attrs) : list (string * AnyValue) :=
  omap (fun kv => (fun av => (kv.1, av)) <$> json_to_any_value kv.2) (attrs_iter m).

(** [Resource]. *)
Definition build_resource (m : attrs) : list (string * AnyValue) := build_attributes m.

Definition datetime_to_unix_nano (ts : DateTime) : Z := Z.max (default 0 (timestamp_nanos_opt ts)) 0.

(** ** Requests *)

Definition SCOPE_NAME : string := "tc-otel".
Definition CRATE_VERSION : string := "0.1.2".

Record InstrumentationScope := mkScope {
  is_name : string;
  is_version : string;
  is_attributes : list (string * AnyValue);
}.

(** [ResourceLogs], [ResourceMetrics], [ResourceSpans]: a resource and, for
    each scope, what was recorded in it. *)
Record ResourceBlock (P : Type) := mkBlock {
  rb_resource : list (string * AnyValue);
  rb_scopes : list (InstrumentationScope * list P);
}.
Arguments mkBlock {P}.
Arguments rb_resource {P}.
Arguments rb_scopes {P}.

(** The elements in order, up to the first that does not succeed. *)
Fixpoint traverse {A B} (f : A -> outcome unit B) (l : list A) : outcome unit (list B) :=
  match l with
  | [] => Ok []
  | a :: l => (b <-- f a ;; bs <-- traverse f l ;; Ok (b :: bs))%rust
  end.

Record ProtoLogRecord := mkProtoLog {
  pl_time_unix_nano : Z;
  pl_observed_time_unix_nano : Z;
  pl_severity_number : Z;
  pl_severity_text : string;
  pl_body : option AnyValue;
  pl_attributes : list (string * AnyValue);
  pl_trace_id : bytes;
  pl_span_id : bytes;
}.

Definition build_log_record (r : LogRecord) : outcome unit ProtoLogRecord :=
  let ts := datetime_to_unix_nano (lr_timestamp r) in
  let body := match lr_body r with
              | VString s => Some (StringValue s)
              | Null => None
              | other => Some (StringValue (json_to_string other))
              end in
  (trace_id <-- decode_trace_id_hex (lr_trace_id r) ;;
   span_id <-- decode_span_id_hex (lr_span_id r) ;;
   Ok (mkProtoLog ts ts (lr_severity_number r) (lr_severity_text r) body
         (build_attributes (lr_log_attributes r)) trace_id span_id))%rust.

(** The scope under which logs and metrics are filed. *)
Definition export_scope_key (name : string) : string := if String.eqb name "" then SCOPE_NAME else name.

(** The scope attributes of the first record stand for the bucket. *)
Definition log_scope (name : string) (bucket : list LogRecord) : InstrumentationScope :=
  mkScope name CRATE_VERSION
    (match bucket with r :: _ => build_attributes (lr_scope_attributes r) | [] => [] end).

(** logs_proto.rs, [build_request]. *)
Definition build_logs_request (records : list LogRecord) : outcome unit (list (ResourceBlock ProtoLogRecord)) :=
  traverse (fun g : attrs * list LogRecord =>
    (scopes <-- traverse (fun b : string * list LogRecord =>
                  (logs <-- traverse build_log_record b.2 ;; Ok (log_scope b.1 b.2, logs))%rust)
                (group_by_bucket (fun r => export_scope_key (lr_scope_name r)) g.2) ;;
     Ok (mkBlock (build_resource g.1) scopes))%rust)
    (group_records_by_resource lr_resource_attributes records).

Record Exemplar := mkExemplar {
  ex_time_unix_nano : Z;
  ex_span_id : bytes;
  ex_trace_id : bytes;
  ex_value : Z;
}.

Definition build_exemplars (r : MetricRecord) (ts : Z) : outcome unit (list Exemplar) :=
  if String.eqb (mr_trace_id r) "" && String.eqb (mr_span_id r) "" then Ok []
  else
    (trace_id <-- decode_trace_id_hex (mr_trace_id r) ;;
     span_id <-- decode_span_id_hex (mr_span_id r) ;;
     match trace_id, span_id with
     | [], [] => Ok []
     | _, _ => Ok [mkExemplar ts span_id trace_id (mr_value r)]
     end)%rust.

Record NumberDataPoint := mkPoint {
  ndp_attributes : list (string * AnyValue);
  ndp_time_unix_nano : Z;
  ndp_exemplars : list Exemplar;
  ndp_value : Z;
}.

Record HistogramDataPoint := mkHistogramPoint {
  hdp_attributes : list (string * AnyValue);
  hdp_time_unix_nano : Z;
  hdp_count : Z;
  hdp_sum : Z;
  hdp_bucket_counts : list Z;
  hdp_explicit_bounds : list Z;
  hdp_exemplars : list Exemplar;
}.

(** Sums and histograms are cumulative. *)
Inductive MetricData :=
| GaugeData (p : NumberDataPoint)
| SumData (p : NumberDataPoint) (is_monotonic : bool)
| HistogramData (p : HistogramDataPoint).

Record Metric := mkMetric {
  pm_name : string;
  pm_description : string;
  pm_unit : string;
  pm_data : MetricData;
}.

Definition build_number_data_point (r : MetricRecord) : outcome unit NumberDataPoint :=
  let ts := datetime_to_unix_nano (mr_timestamp r) in
  (ex <-- build_exemplars r ts ;;
   Ok (mkPoint (build_attributes (mr_attributes r)) ts ex (mr_value r)))%rust.

Definition build_histogram_data_point (r : MetricRecord) : outcome unit HistogramDataPoint :=
  let ts := datetime_to_unix_nano (mr_timestamp r) in
  (ex <-- build_exemplars r ts ;;
   Ok (mkHistogramPoint (build_attributes (mr_attributes r)) ts (mr_histogram_count r)
         (mr_histogram_sum r) (mr_histogram_counts r) (mr_histogram_bounds r) ex))%rust.

(** The [debug_assert_eq!] on the lengths of a histogram is not part of a
    release build. *)
Definition build_metric (r : MetricRecord) : outcome unit Metric :=
  (data <-- match mr_kind r with
            | Gauge => (p <-- build_number_data_point r ;; Ok (GaugeData p))%rust
            | Sum => (p <-- build_number_data_point r ;; Ok (SumData p (mr_is_monotonic r)))%rust
            | Histogram => (p <-- build_histogram_data_point r ;; Ok (HistogramData p))%rust
            end ;;
   Ok (mkMetric (mr_name r) (mr_description r) (mr_unit r) data))%rust.

(** metrics_proto.rs, [build_request]. *)
Definition build_metrics_request (records : list MetricRecord) : outcome unit (list (ResourceBlock Metric)) :=
  traverse (fun g : attrs * list MetricRecord =>
    (scopes <-- traverse (fun b : string * list MetricRecord =>
                  (ms <-- traverse build_metric b.2 ;; Ok (mkScope b.1 CRATE_VERSION [], ms))%rust)
                (group_by_bucket (fun r => export_scope_key (mr_scope_name r)) g.2) ;;
     Ok (mkBlock (build_resource g.1) scopes))%rust)
    (group_records_by_resource mr_resource_attributes records).

Record ProtoSpanEvent := mkProtoEvent {
  pe_time_unix_nano : Z;
  pe_name : string;
  pe_attributes : list (string * AnyValue);
}.

Record ProtoSpan := mkProtoSpan {
  psp_trace_id : bytes;
  psp_span_id : bytes;
  psp_parent_span_id : bytes;
  psp_name : string;
  psp_kind : Z;
  psp_start_time_unix_nano : Z;
  psp_end_time_unix_nano : Z;
  psp_attributes : list (string * AnyValue);
  psp_events : list ProtoSpanEvent;
  psp_status_message : string;
  psp_status_code : Z;
}.

Definition build_span (r : TraceRecord) : outcome unit ProtoSpan :=
  (trace_id <-- decode_trace_id_hex (tr_trace_id r) ;;
   span_id <-- decode_span_id_hex (tr_span_id r) ;;
   parent <-- decode_span_id_hex (tr_parent_span_id r) ;;
   Ok (mkProtoSpan trace_id span_id parent (tr_name r) (tr_kind r)
         (datetime_to_unix_nano (tr_start_time r)) (datetime_to_unix_nano (tr_end_time r))
         (build_attributes (tr_span_attributes r))
         (map (fun ev => mkProtoEvent (datetime_to_unix_nano (ter_timestamp ev)) (ter_name ev)
                           (build_attributes (ter_attributes ev))) (tr_events r))
         (tr_status_message r) (tr_status_code r)))%rust.

(** traces_proto.rs, [build_request]. *)
Definition build_traces_request (records : list TraceRecord) : outcome unit (list (ResourceBlock ProtoSpan)) :=
  traverse (fun g : attrs * list TraceRecord =>
    (buckets <-- group_records_by_scope tr_scope_name g.2 ;;
     scopes <-- traverse (fun b : string * list TraceRecord =>
                  (spans <-- traverse build_span b.2 ;;
                   Ok (mkScope (export_scope_key b.1) CRATE_VERSION [], spans))%rust) buckets ;;
     Ok (mkBlock (build_resource g.1) scopes))%rust)
    (group_records_by_resource tr_resource_attributes records).

(** ** The resource of a record decides its block *)

Section BTree.
Context {R : Type} (key : R -> string) (res : R -> attrs).

Record btree_inv (l : list R) (m : list (string * (attrs * list R))) : Prop := {
  bi_sorted : StronglySorted str_lt (map fst m);
  bi_entries : forall k a rs, (k, (a, rs)) ∈ m ->
    rs = with_key key k l /\ exists r rs', rs = r :: rs' /\ a = res r;
  bi_keys : forall k, k ∈ map fst m <-> k ∈ map key l;
  bi_perm : concat (map (fun e => e.2.2) m) ≡ₚ l;
}.

Lemma btree_fold_inv l : btree_inv l (foldl (fun m r => btree_push (key r) (res r) r m) [] l).
Proof.
  induction l as [|r l [Hs He Hk Hp]] using rev_ind.
  { split; simpl; [constructor|set_solver|done|done]. }
  rewrite foldl_app. cbn [foldl]. split.
  - by apply btree_push_sorted.
  - intros k a rs Hin. rewrite with_key_snoc.
    apply btree_push_entry in Hin as [[Hne Hin]|[-> [(rs0 & Hin & ->)|(Hno & -> & ->)]]]; [..|done].
    + rewrite decide_False, app_nil_r by done. by apply He.
    + rewrite decide_True by done. apply He in Hin as [-> (r0 & rs' & -> & ->)].
      split; [done|]. exists r0, (rs' ++ [r]). done.
    + rewrite decide_True, with_key_absent by (try done; by rewrite <- Hk). split; [done|]. eauto.
  - intros k. rewrite btree_push_keys, Hk, map_app, elem_of_app. simpl.
    rewrite list_elem_of_singleton. tauto.
  - rewrite btree_push_concat, Hp. done.
Qed.

End BTree.

(** ** Requests hold every record once, in its place *)

Lemma traverse_forall {A B} (g : A -> outcome unit B) (Q : A -> B -> Prop) l :
  (forall a, a ∈ l -> exists b, g a = Ok b /\ Q a b) ->
  exists bs, traverse g l = Ok bs /\ Forall2 Q l bs.
Proof.
  induction l as [|a l IH]; intros H; [by exists []|].
  destruct (H a) as (b & Hb & HQ); [by left|].
  destruct IH as (bs & Hbs & HQs); [intros; apply H; by right|].
  exists (b :: bs). simpl. rewrite Hb. simpl. rewrite Hbs. split; [done|by constructor].
Qed.

Lemma traverse_cons_inv {A B} (g : A -> outcome unit B) a l bs :
  traverse g (a :: l) = Ok bs -> exists b bs', g a = Ok b /\ traverse g l = Ok bs' /\ bs = b :: bs'.
Proof.
  simpl. destruct (g a) as [b| | |]; simpl; try done.
  destruct (traverse g l) as [bs'| | |]; simpl; try done. intros [= <-]. eauto.
Qed.

Lemma traverse_app_inv {A B} (g : A -> outcome unit B) l l' bs :
  traverse g (l ++ l') = Ok bs ->
  exists bs1 bs2, traverse g l = Ok bs1 /\ traverse g l' = Ok bs2 /\ bs = bs1 ++ bs2.
Proof.
  revert bs. induction l as [|a l IH]; intros bs H; [by exists [], bs|].
  apply traverse_cons_inv in H as (b & bs' & Hb & Hbs & ->).
  destruct (IH bs' Hbs) as (bs1 & bs2 & H1 & H2 & ->). exists (b :: bs1), bs2.
  simpl. by rewrite Hb, H1.
Qed.

Lemma traverse_perm {A B} (g : A -> outcome unit B) l l' bs :
  l ≡ₚ l' -> traverse g l = Ok bs -> exists bs', traverse g l' = Ok bs' /\ bs' ≡ₚ bs.
Proof.
  intros Hp. revert bs. induction Hp as [|a l l' Hp IH|a b l|l1 l2 l3 H12 IH12 H23 IH23]; intros bs H.
  - eauto.
  - apply traverse_cons_inv in H as (b & bs' & Hb & Hbs & ->).
    destruct (IH bs' Hbs) as (bs2 & H2 & Hp2). exists (b :: bs2). simpl. rewrite Hb, H2.
    split; [done|by constructor].
  - apply traverse_cons_inv in H as (x & bs1 & Hx & H1 & ->).
    apply traverse_cons_inv in H1 as (y & bs2 & Hy & H2 & ->).
    exists (y :: x :: bs2). simpl. rewrite Hx, Hy, H2. split; [done|constructor].
  - destruct (IH12 bs H) as (bs2 & H2 & Hp2). destruct (IH23 bs2 H2) as (bs3 & H3 & Hp3).
    exists bs3. split; [done|by rewrite Hp3].
Qed.

(** What is built from the parts of a grouping is what is built from all. *)
Lemma traverse_concat {A B C} (g : A -> outcome unit B) (f : C -> list A) (cs : list C) (pss : list (list B)) :
  Forall2 (fun c ps => exists bs, traverse g (f c) = Ok bs /\ ps ≡ₚ bs) cs pss ->
  forall bs, traverse g (concat (map f cs)) = Ok bs -> concat pss ≡ₚ bs.
Proof.
  induction 1 as [|c ps cs pss (bs & Hb & Hp) HF IH]; simpl; intros bs0 H; [by simplify_eq|].
  apply traverse_app_inv in H as (bs1 & bs2 & H1 & H2 & ->).
  rewrite Hb in H1. injection H1 as <-. by rewrite Hp, (IH bs2 H2).
Qed.

Lemma traverse_part {A B} (g : A -> outcome unit B) l bs (l' : list A) :
  traverse g l = Ok bs -> (forall a, a ∈ l' -> a ∈ l) -> exists bs', traverse g l' = Ok bs'.
Proof.
  intros H Hsub. destruct (traverse_forall g (fun _ _ => True) l') as (bs' & Hb & _); [|by exists bs'].
  intros a Ha%Hsub. clear -H Ha. revert bs H. induction Ha as [a l|a b l Ha IH]; intros bs H;
    apply traverse_cons_inv in H as (x & bs' & Hx & H & ->); eauto.
Qed.

Context `{!EncodingLaws EN}.
#[local] Set Default Proof Using "All".

(** A key that the fingerprint can tell apart: no equals sign, no unit
    separator. *)
Definition clean_key (k : string) : Prop := 61 ∉ bytes_of_string k /\ 31 ∉ bytes_of_string k.

Definition clean_attrs (m : attrs) : Prop := forall k v, m !! k = Some v -> clean_key k.

Lemma fingerprint_loop_inj l l' :
  Forall (fun kv => clean_key kv.1) l -> Forall (fun kv => clean_key kv.1) l' ->
  fingerprint_loop l = fingerprint_loop l' -> l = l'.
Proof.
  intros Hl. revert l'. induction Hl as [|[k v] l [Hk Hk'] Hl IH]; intros [|[k1 v1] l1] H1 Hf;
    [done|exfalso|exfalso|].
  - simpl in Hf. by destruct k1.
  - simpl in Hf. by destruct k.
  - apply Forall_cons in H1 as [[Hk1 Hk1'] H1]. cbn [fingerprint_loop] in Hf.
    apply (f_equal bytes_of_string) in Hf.
    rewrite !bytes_of_string_app in Hf.
    change (bytes_of_string "=") with [61] in Hf.
    change (bytes_of_string (String (ascii_of_byte 31) ?s)) with (31 :: bytes_of_string s) in Hf.
    apply sep_app_inj in Hf as [<-%bytes_of_string_inj Hf]; [|done..].
    apply sep_app_inj in Hf as [Hv%bytes_of_string_inj Hf%bytes_of_string_inj];
      [|apply json_to_string_clean..].
    apply json_to_string_inj in Hv as <-. f_equal. by apply IH.
Qed.

Lemma btree_of_perm l : btree_of l ≡ₚ l.
Proof. apply merge_sort_Permutation. Qed.

#[local] Instance key_le_trans : Transitive key_le.
Proof. intros a b c. unfold key_le. apply (transitivity (R := String.le)). Qed.
#[local] Instance key_le_total : Total key_le.
Proof. intros a b. unfold key_le. apply (total String.le). Qed.

(** The order of iteration does not matter: keys are unique. *)
Lemma btree_of_unique l l' : NoDup (map fst l) -> l ≡ₚ l' -> btree_of l = btree_of l'.
Proof.
  intros Hnd Hp. eapply (StronglySorted_unique_strong key_le).
  - intros [k v] [k' v'] H1 H2 Hle Hge. unfold key_le in *. simpl in *.
    assert (k = k') as <- by (by apply (anti_symm String.le)).
    rewrite btree_of_perm in H1, H2. rewrite <- Hp in H2. f_equal.
    apply (elem_of_list_to_map_1 (M := gmap string)) in H1, H2; [|done..]. congruence.
  - apply StronglySorted_merge_sort; apply _.
  - apply StronglySorted_merge_sort; apply _.
  - by rewrite !btree_of_perm.
Qed.

Lemma fingerprint_iff (m m' : attrs) l l' :
  clean_attrs m -> clean_attrs m' -> l ≡ₚ map_to_list m -> l' ≡ₚ map_to_list m' ->
  fingerprint_loop (btree_of l) = fingerprint_loop (btree_of l') <-> m = m'.
Proof.
  assert (Hclean : forall (m : attrs) l, clean_attrs m -> l ≡ₚ map_to_list m ->
            Forall (fun kv => clean_key kv.1) (btree_of l)).
  { intros m0 l0 Hm Hl. apply Forall_forall. intros [k v] Hin. rewrite btree_of_perm, Hl in Hin.
    apply elem_of_map_to_list in Hin. by eapply Hm. }
  intros Hm Hm' Hl Hl'. split.
  - intros Hf%fingerprint_loop_inj; [|by apply (Hclean m)|by apply (Hclean m')].
    apply map_to_list_inj. rewrite <- Hl, <- Hl', <- (btree_of_perm l), <- (btree_of_perm l').
    by rewrite Hf.
  - intros <-. f_equal. apply btree_of_unique; [|by rewrite Hl, Hl'].
    rewrite Hl. apply NoDup_fst_map_to_list.
Qed.

(** The fingerprint of a resource identifies it: whatever the order in which
    the two maps are iterated, two resources have the same fingerprint exactly
    when they are the same map, for keys without an equals sign or the unit
    separator. *)
Theorem resource_fingerprint_exact (m m' : attrs) l l' :
  clean_attrs m -> clean_attrs m' -> l ≡ₚ map_to_list m -> l' ≡ₚ map_to_list m' ->
  (fingerprint_loop (btree_of l) = fingerprint_loop (btree_of l') <-> m = m') /\
  resource_fingerprint m = fingerprint_loop (btree_of l).
Proof.
  intros Hm Hm' Hl Hl'. split; [by apply fingerprint_iff|].
  apply (fingerprint_iff m m); try done. apply attrs_iter_perm.
Qed.

Lemma fingerprint_eq m m' :
  clean_attrs m -> clean_attrs m' -> resource_fingerprint m = resource_fingerprint m' <-> m = m'.
Proof. intros. apply fingerprint_iff; try done; apply attrs_iter_perm. Qed.

Lemma group_by_resource_spec {R} (res : R -> attrs) (l : list R) :
  Forall (fun r => clean_attrs (res r)) l ->
  let gs := group_records_by_resource res l in
  concat (map snd gs) ≡ₚ l /\ NoDup (map fst gs) /\
  Forall (fun g => g.2 <> [] /\ g.2 = filter (fun r => res r = g.1) l) gs.
Proof.
  intros Hclean gs. subst gs. unfold group_records_by_resource.
  destruct (btree_fold_inv (fun r => resource_fingerprint (res r)) res l) as [Hs He Hk Hp].
  set (m := foldl _ _ _) in *. rewrite Forall_forall in Hclean.
  assert (Hent : forall k a rs, (k, (a, rs)) ∈ m ->
    k = resource_fingerprint a /\ clean_attrs a /\ rs <> [] /\ rs = filter (fun r => res r = a) l).
  { intros k a rs Hin. destruct (He k a rs Hin) as [Hrs (r & rs' & Hr & ->)].
    assert (Hr' : r ∈ with_key (fun r => resource_fingerprint (res r)) k l)
      by (rewrite <- Hrs, Hr; by left).
    apply list_elem_of_filter in Hr' as [<- Hrl]. split_and!; [done|by apply Hclean|by rewrite Hr|].
    rewrite Hrs. unfold with_key. apply filter_iff_in. intros r' Hr'.
    apply fingerprint_eq; by apply Hclean. }
  rewrite !map_map. split_and!; [done| |].
  - assert (Hnd : NoDup (map fst m)).
    { clear -Hs. induction Hs as [|k ks Hks IH Hall]; constructor; [|done].
      intros Hin. rewrite Forall_forall in Hall. apply Hall in Hin. by apply str_lt_le in Hin as [_ []]. }
    clear -Hent Hnd. induction m as [|[k [a rs]] m IH]; simpl in *; [constructor|].
    apply NoDup_cons in Hnd as [Hk Hnd]. constructor; [|apply IH; set_solver].
    intros (k' & Heq & Hin)%list_elem_of_fmap. destruct k' as [k' [a' rs']]. simpl in Heq. subst a'.
    apply Hk. apply list_elem_of_fmap. exists (k', (a, rs')). split; [|done]. simpl.
    destruct (Hent k a rs) as [-> _]; [by left|]. by destruct (Hent k' a rs') as [-> _]; [by right|].
  - rewrite Forall_forall. intros g (e & -> & Hin)%list_elem_of_fmap. destruct e as [k [a rs]]. simpl.
    by destruct (Hent k a rs Hin) as (_ & _ & ? & ?).
Qed.

(** The blocks of a request over records of any kind: [build] converts one
    record, [groups] is the inner grouping, [mkscope] names its groups. *)
Section Request.
Context {R P : Type} (res : R -> attrs) (scope : R -> string).
Context (mkscope : string -> list R -> InstrumentationScope) (build : R -> outcome unit P).

Definition build_scope (b : string * list R) : outcome unit (InstrumentationScope * list P) :=
  (ps <-- traverse build b.2 ;; Ok (mkscope b.1 b.2, ps))%rust.

Definition build_block (groups : list R -> outcome unit (list (string * list R))) (g : attrs * list R)
    : outcome unit (ResourceBlock P) :=
  (buckets <-- groups g.2 ;;
   scopes <-- traverse build_scope buckets ;;
   Ok (mkBlock (build_resource g.1) scopes))%rust.

(** The records of one resource and scope. *)
Definition records_of (m : attrs) (k : string) (l : list R) : list R :=
  filter (fun r => scope r = k) (filter (fun r => res r = m) l).

(** The block of resource [m]: one scope for each scope name of its records,
    in order of first occurrence, with exactly the records of that scope. *)
Definition block_of (l : list R) (m : attrs) (b : ResourceBlock P) : Prop :=
  rb_resource b = build_resource m /\
  Forall2 (fun k sc => sc.1 = mkscope k (records_of m k l) /\
                       traverse build (records_of m k l) = Ok sc.2)
    (first_seen (map scope (filter (fun r => res r = m) l))) (rb_scopes b).

Lemma build_block_spec groups l m rs bs :
  (forall l, groups l = Ok (group_ref scope l)) ->
  rs = filter (fun r => res r = m) l -> traverse build rs = Ok bs ->
  exists b, build_block groups (m, rs) = Ok b /\ block_of l m b /\
    concat (map snd (rb_scopes b)) ≡ₚ bs.
Proof.
  intros Hg Hrs Hbs. unfold build_block. rewrite Hg. cbn [outcome_bind fst snd].
  destruct (traverse_forall build_scope (fun b sc => sc.1 = mkscope b.1 b.2 /\ traverse build b.2 = Ok sc.2)
    (group_ref scope rs)) as (scopes & Hs & HF).
  { intros [k b] Hin. destruct (traverse_part build rs bs b Hbs) as [ps Hps].
    { intros r Hr. unfold group_ref in Hin. apply list_elem_of_fmap in Hin as (k' & [= -> ->] & _).
      by apply list_elem_of_filter in Hr as [_ ?]. }
    exists (mkscope k b, ps). unfold build_scope. simpl. by rewrite Hps. }
  rewrite Hs. cbn [outcome_bind]. eexists. split; [reflexivity|]. split; [split; [done|]|].
  - simpl. unfold group_ref in HF. rewrite Forall2_fmap_l in HF. subst rs.
    eapply Forall2_impl; [exact HF|]. intros k sc [H1 H2]. done.
  - simpl. destruct (traverse_perm build rs (concat (map snd (group_ref scope rs))) bs) as (bs' & Hb & Hp);
      [by rewrite group_ref_perm|done|].
    rewrite <- Hp. eapply (traverse_concat build snd (group_ref scope rs)); [|done].
    rewrite Forall2_fmap_r. eapply Forall2_impl; [exact HF|]. intros b sc [_ H2]. eauto.
Qed.

Lemma build_request_spec groups l bs :
  (forall l, groups l = Ok (group_ref scope l)) ->
  Forall (fun r => clean_attrs (res r)) l -> traverse build l = Ok bs ->
  exists blocks, traverse (build_block groups) (group_records_by_resource res l) = Ok blocks /\
    concat (map (fun b => concat (map snd (rb_scopes b))) blocks) ≡ₚ bs /\
    exists ms, NoDup ms /\ (forall m, m ∈ ms <-> exists r, r ∈ l /\ res r = m) /\
      Forall2 (block_of l) ms blocks.
Proof.
  intros Hg Hclean Hbs. destruct (group_by_resource_spec res l Hclean) as (Hp & Hnd & Hall).
  set (gs := group_records_by_resource res l) in *. rewrite Forall_forall in Hall.
  destruct (traverse_perm build l (concat (map snd gs)) bs) as (bs' & Hb' & Hpb); [by rewrite Hp|done|].
  destruct (traverse_forall (build_block groups) (fun g b => block_of l g.1 b /\
    exists ps, traverse build g.2 = Ok ps /\ concat (map snd (rb_scopes b)) ≡ₚ ps) gs)
    as (blocks & Hbl & HF).
  { intros [m rs] Hin. destruct (Hall _ Hin) as [_ Hrs]. simpl in Hrs.
    destruct (traverse_part build l bs rs Hbs) as [ps Hps].
    { intros r Hr. subst rs. by apply list_elem_of_filter in Hr as [_ ?]. }
    destruct (build_block_spec groups l m rs ps Hg Hrs Hps) as (b & Hb & Hblk & Hperm).
    exists b. split; [done|]. split; [done|]. eauto. }
  exists blocks. split; [done|]. split.
  - rewrite <- Hpb. eapply (traverse_concat build snd gs); [|done].
    rewrite Forall2_fmap_r. eapply Forall2_impl; [exact HF|]. intros g b [_ H]. exact H.
  - exists (map fst gs). split; [done|]. split.
    + intros m. split.
      * intros (g & -> & Hin)%list_elem_of_fmap. destruct (Hall _ Hin) as [Hne Hrs].
        destruct g.2 as [|r rs] eqn:Hg2; [done|]. exists r.
        assert (Hr : r ∈ filter (fun r => res r = g.1) l) by (rewrite <- Hrs; by left).
        by apply list_elem_of_filter in Hr as [<- ?].
      * intros (r & Hr & <-). rewrite <- Hp in Hr. apply list_elem_of_In, in_concat in Hr.
        destruct Hr as (rs & Hin & Hr). apply list_elem_of_In, list_elem_of_fmap in Hin as (g & -> & Hin).
        apply list_elem_of_In in Hr. destruct (Hall _ Hin) as [_ Hrs]. rewrite Hrs in Hr.
        apply list_elem_of_filter in Hr as [-> _]. apply list_elem_of_fmap. eauto.
    + rewrite Forall2_fmap_l. eapply Forall2_impl; [exact HF|]. by intros g b [H _].
Qed.

End Request.

(** ** The three requests *)

Definition log_ids_ascii (r : LogRecord) : Prop := is_ascii (lr_trace_id r) /\ is_ascii (lr_span_id r).

Lemma build_log_record_ok r : log_ids_ascii r -> exists p, build_log_record r = Ok p.
Proof.
  intros [Ht Hs]. unfold build_log_record, decode_trace_id_hex, decode_span_id_hex.
  destruct (decode_ascii _ 16 Ht) as [t ->]. destruct (decode_ascii _ 8 Hs) as [sp ->].
  by eexists.
Qed.

(** C16: A log request holds every record once and in its place. For records whose
    ids are ASCII and whose resource keys the fingerprint can tell apart, there
    is exactly one block per resource; in it one scope per logger in order of
    first appearance (an empty logger counts as tc-otel), under which stand
    exactly the records of that resource and logger, in their order; taken
    together the blocks are a permutation of the converted records. *)
Theorem logs_request_complete records :
  Forall log_ids_ascii records -> Forall (fun r => clean_attrs (lr_resource_attributes r)) records ->
  exists logs blocks, traverse build_log_record records = Ok logs /\
    build_logs_request records = Ok blocks /\
    concat (map (fun b => concat (map snd (rb_scopes b))) blocks) ≡ₚ logs /\
    exists ms, NoDup ms /\ (forall m, m ∈ ms <-> exists r, r ∈ records /\ lr_resource_attributes r = m) /\
      Forall2 (block_of lr_resource_attributes (fun r => export_scope_key (lr_scope_name r)) log_scope
                 build_log_record records) ms blocks.
Proof.
  intros Hids Hclean. rewrite Forall_forall in Hids.
  destruct (traverse_forall build_log_record (fun _ _ => True) records) as (logs & Hlogs & _).
  { intros r Hr. destruct (build_log_record_ok r) as [p Hp]; [by apply Hids|eauto]. }
  destruct (build_request_spec lr_resource_attributes (fun r => export_scope_key (lr_scope_name r)) log_scope
    build_log_record (fun l => Ok (group_by_bucket (fun r => export_scope_key (lr_scope_name r)) l)) records logs)
    as (blocks & Hb & Hp & Hms); [|done..|by exists logs, blocks].
  intros l. by rewrite group_by_bucket_ref.
Qed.

Definition metric_ids_ascii (r : MetricRecord) : Prop := is_ascii (mr_trace_id r) /\ is_ascii (mr_span_id r).

Lemma build_metric_ok r : metric_ids_ascii r -> exists p, build_metric r = Ok p.
Proof.
  intros [Ht Hs].
  assert (Hex : forall ts, exists ex, build_exemplars r ts = Ok ex).
  { intros ts. unfold build_exemplars, decode_trace_id_hex, decode_span_id_hex.
    case_match; [by eexists|].
    destruct (decode_ascii _ 16 Ht) as [t ->]. destruct (decode_ascii _ 8 Hs) as [sp ->].
    simpl. destruct t, sp; by eexists. }
  unfold build_metric, build_number_data_point, build_histogram_data_point. cbv zeta.
  destruct (Hex (datetime_to_unix_nano (mr_timestamp r))) as [ex ->]. destruct (mr_kind r); by eexists.
Qed.

(** A metric request holds every record once and in its place: for records
    whose ids are ASCII and whose resource keys the fingerprint can tell apart
    there is one block per resource, in it one scope per scope name (an empty
    one counts as tc-otel) with exactly its metrics in order, and the blocks
    together are a permutation of the converted records. *)
Theorem metrics_request_complete records :
  Forall metric_ids_ascii records -> Forall (fun r => clean_attrs (mr_resource_attributes r)) records ->
  exists ps blocks, traverse build_metric records = Ok ps /\
    build_metrics_request records = Ok blocks /\
    concat (map (fun b => concat (map snd (rb_scopes b))) blocks) ≡ₚ ps /\
    exists ms, NoDup ms /\ (forall m, m ∈ ms <-> exists r, r ∈ records /\ mr_resource_attributes r = m) /\
      Forall2 (block_of mr_resource_attributes (fun r => export_scope_key (mr_scope_name r))
                 (fun k _ => mkScope k CRATE_VERSION []) build_metric records) ms blocks.
Proof.
  intros Hids Hclean. rewrite Forall_forall in Hids.
  destruct (traverse_forall build_metric (fun _ _ => True) records) as (ps & Hps & _).
  { intros r Hr. destruct (build_metric_ok r) as [p Hp]; [by apply Hids|eauto]. }
  destruct (build_request_spec mr_resource_attributes (fun r => export_scope_key (mr_scope_name r))
    (fun k _ => mkScope k CRATE_VERSION []) build_metric
    (fun l => Ok (group_by_bucket (fun r => export_scope_key (mr_scope_name r)) l)) records ps)
    as (blocks & Hb & Hp & Hms); [|done..|by exists ps, blocks].
  intros l. by rewrite group_by_bucket_ref.
Qed.

Definition span_ids_ascii (r : TraceRecord) : Prop :=
  is_ascii (tr_trace_id r) /\ is_ascii (tr_span_id r) /\ is_ascii (tr_parent_span_id r).

Lemma build_span_ok r : span_ids_ascii r -> exists p, build_span r = Ok p.
Proof.
  intros (Ht & Hs & Hp). unfold build_span, decode_trace_id_hex, decode_span_id_hex.
  destruct (decode_ascii _ 16 Ht) as [t ->]. destruct (decode_ascii _ 8 Hs) as [sp ->].
  destruct (decode_ascii _ 8 Hp) as [pp ->]. by eexists.
Qed.

(** A trace request holds every span once and in its place, for records
    whose ids are ASCII and whose resource keys the fingerprint can tell apart:
    one block per resource, in it one scope per scope name with exactly its
    spans in order, and the blocks together are a permutation of the converted
    spans. The grouping by scope goes through a hash map and an order list, and
    no bucket is missing from the map when it is taken out. Spans without a
    scope and spans of the scope tc-otel stay two groups, under one name. *)
Theorem traces_request_complete records :
  Forall span_ids_ascii records -> Forall (fun r => clean_attrs (tr_resource_attributes r)) records ->
  exists ps blocks, traverse build_span records = Ok ps /\
    build_traces_request records = Ok blocks /\
    concat (map (fun b => concat (map snd (rb_scopes b))) blocks) ≡ₚ ps /\
    exists ms, NoDup ms /\ (forall m, m ∈ ms <-> exists r, r ∈ records /\ tr_resource_attributes r = m) /\
      Forall2 (block_of tr_resource_attributes tr_scope_name
                 (fun k _ => mkScope (export_scope_key k) CRATE_VERSION []) build_span records) ms blocks.
Proof.
  intros Hids Hclean. rewrite Forall_forall in Hids.
  destruct (traverse_forall build_span (fun _ _ => True) records) as (ps & Hps & _).
  { intros r Hr. destruct (build_span_ok r) as [p Hp]; [by apply Hids|eauto]. }
  destruct (build_request_spec tr_resource_attributes tr_scope_name
    (fun k _ => mkScope (export_scope_key k) CRATE_VERSION []) build_span
    (group_records_by_scope tr_scope_name) records ps)
    as (blocks & Hb & Hp & Hms); [|done..|by exists ps, blocks].
  intros l. apply group_records_by_scope_ref.
Qed.

End Encoders.

Arguments mkBlock {P}.
Arguments rb_resource {P}.
Arguments rb_scopes {P}.

(** Integers in attributes: an integer of the [i64] range is exported as it
    is; a [u64] above it becomes the negative number with the same bits. *)
Theorem number_export z :
  (- 2 ^ 63 <= z < 2 ^ 63 -> json_to_any_value (json_int z) = Some (IntValue z)) /\
  (2 ^ 63 <= z < 2 ^ 64 -> json_to_any_value (json_int z) = Some (IntValue (z - 2 ^ 64))).
Proof.
  split; intros Hz; cbn [json_to_any_value json_int number_to_any_value].
  - by rewrite (proj2 (Z.ltb_lt _ _)) by lia.
  - rewrite (proj2 (Z.ltb_ge _ _)) by lia. unfold to_signed. rewrite Z.mod_small by lia.
    by rewrite (proj2 (Z.ltb_ge _ _)) by lia.
Qed.

(** ** A simple instance *)

Module SimpleEncoding.
Import SimpleExternal.

(** The text of a value is its number in an enumeration of all values. *)
Definition simple_nanos (d : Z * Z) : option Z := Some (1000000000 * d.1 + d.2).

#[export] Instance simple_encoding : @Encoding simple_external :=
  @Build_Encoding simple_external simple_nanos (fun v => dec (Z.pos (encode v))) map_to_list.

#[export] Instance simple_encoding_laws : EncodingLaws simple_encoding.
Proof.
  split; cbn [json_to_string attrs_iter simple_encoding].
  - intros v v' H%dec_inj. injection H as H. by apply encode_inj in H.
  - intros v Hin. pose proof (dec_digits (Z.pos (encode v))) as Hd. rewrite Forall_forall in Hd.
    apply Hd in Hin; [|lia]. unfold is_digit in Hin. lia.
  - done.
Qed.

End SimpleEncoding.
