(* ===== verification/Protobuf.v ===== *)
(** * The wire format of protocol buffers

    A message on the wire is a sequence of fields, each a tag and a value of one
    of four kinds; strings, bytes and nested messages are all sequences of
    bytes. [prost] writes and reads these sequences: it is a parameter, of which
    only this is used, that reading gives back what was written. Which tag means which
    field of which message is said by the message types of the program
    ([Grpc]). Groups are not modelled. *)

From S2P Require Import Prelude.
From S2P Require Import Text.

Inductive FieldValue :=
| FVarint (n : Z)
| FFixed64 (n : Z)
| FLen (b : bytes)
| FFixed32 (n : Z).

Abbreviation Field := (Z * FieldValue)%type.

Definition wf_field (f : Field) : Prop :=
  0 < f.1 /\
  match f.2 with
  | FVarint n | FFixed64 n => 0 <= n < 2 ^ 64
  | FLen b => is_bytes b
  | FFixed32 n => 0 <= n < 2 ^ 32
  end.

Class ProtoWire := {
  encode_fields : list Field -> bytes;
  (** [None]: the bytes are no sequence of fields. *)
  decode_fields : bytes -> option (list Field);
}.

Class ProtoWireLaws (PW : ProtoWire) : Prop := {
  encode_fields_bytes : forall l, Forall wf_field l -> is_bytes (encode_fields l);
  decode_encode_fields : forall l, Forall wf_field l -> decode_fields (encode_fields l) = Some l;
}.

(** ** The fields of a message in turn *)

(** A message type says what a field does to a value of it; [None] is an error. *)
Fixpoint merge_all {A} (merge : A -> Field -> option A) (cur : A) (fs : list Field) : option A :=
  match fs with
  | [] => Some cur
  | f :: fs => merge cur f ≫= fun cur => merge_all merge cur fs
  end.

Lemma merge_all_app {A} (merge : A -> Field -> option A) cur fs fs' :
  merge_all merge cur (fs ++ fs') = merge_all merge cur fs ≫= fun cur => merge_all merge cur fs'.
Proof. revert cur. induction fs as [|f fs IH]; intros cur; simpl; [done|]. by destruct (merge cur f); simpl. Qed.

(** A repeated field whose values go to the end of a list in the value. *)
Lemma merge_all_repeated {A B C X} (merge : A -> Field -> option A) (put : C -> list B -> A) (field : X -> Field) (f : X -> B) xs :
  (forall a l x, x ∈ xs -> merge (put a l) (field x) = Some (put a (l ++ [f x]))) ->
  forall a l, merge_all merge (put a l) (map field xs) = Some (put a (l ++ map f xs)).
Proof.
  induction xs as [|x xs IH]; intros Hm a l; simpl; [by rewrite app_nil_r|].
  rewrite Hm by by left. simpl. rewrite IH by (intros; apply Hm; by right). by rewrite <- app_assoc.
Qed.

(** ** Values of fields *)

Definition merge_string (v : FieldValue) : option string := match v with FLen b => from_utf8 b | _ => None end.
Definition merge_bytes (v : FieldValue) : option bytes := match v with FLen b => Some b | _ => None end.
Definition merge_bool (v : FieldValue) : option bool := match v with FVarint n => Some (negb (n =? 0)) | _ => None end.
Definition merge_int64 (v : FieldValue) : option Z := match v with FVarint n => Some (to_signed 64 n) | _ => None end.
Definition merge_int32 (v : FieldValue) : option Z := match v with FVarint n => Some (to_signed 32 n) | _ => None end.
Definition merge_uint32 (v : FieldValue) : option Z := match v with FVarint n => Some (wrap 32 n) | _ => None end.
Definition merge_fixed64 (v : FieldValue) : option Z := match v with FFixed64 n => Some n | _ => None end.
Definition merge_fixed32 (v : FieldValue) : option Z := match v with FFixed32 n => Some n | _ => None end.

(** ** The format itself *)

Module WireFormat.

Fixpoint varint_fuel (fuel : nat) (z : Z) : bytes :=
  match fuel with
  | O => [z]
  | S fuel => if z <? 128 then [z] else (128 + z mod 128) :: varint_fuel fuel (z / 128)
  end.

Definition varint (z : Z) : bytes := varint_fuel (Z.to_nat (Z.log2 z)) z.

Fixpoint read_varint (bs : bytes) : option (Z * bytes) :=
  match bs with
  | [] => None
  | b :: bs =>
    if b <? 128 then Some (b, bs)
    else r ← read_varint bs; Some (b - 128 + 128 * r.1, r.2)
  end.

Definition wire_field (f : Field) : bytes :=
  match f.2 with
  | FVarint n => varint (f.1 * 8) ++ varint n
  | FFixed64 n => varint (f.1 * 8 + 1) ++ le_encode 8 n
  | FLen b => varint (f.1 * 8 + 2) ++ varint (Z.of_nat (length b)) ++ b
  | FFixed32 n => varint (f.1 * 8 + 5) ++ le_encode 4 n
  end.

Definition read_field (bs : bytes) : option (Field * bytes) :=
  '(key, bs) ← read_varint bs;
  let tag := key / 8 in
  match key mod 8 with
  | 0 => '(n, bs) ← read_varint bs; Some ((tag, FVarint n), bs)
  | 1 => if (length bs <? 8)%nat then None else Some ((tag, FFixed64 (le_decode (take 8 bs))), drop 8 bs)
  | 2 => '(n, bs) ← read_varint bs;
         if Z.of_nat (length bs) <? n then None else Some ((tag, FLen (take (Z.to_nat n) bs)), drop (Z.to_nat n) bs)
  | 5 => if (length bs <? 4)%nat then None else Some ((tag, FFixed32 (le_decode (take 4 bs))), drop 4 bs)
  | _ => None
  end.

Fixpoint read_fields (fuel : nat) (bs : bytes) : option (list Field) :=
  match bs, fuel with
  | [], _ => Some []
  | _, O => None
  | _, S fuel => '(f, bs) ← read_field bs; fs ← read_fields fuel bs; Some (f :: fs)
  end.

#[export] Instance wire_format : ProtoWire := {|
  encode_fields := fun l => concat (map wire_field l);
  decode_fields := fun bs => read_fields (length bs) bs;
|}.

Lemma varint_fuel_spec fuel z rest : 0 <= z < 128 * 2 ^ Z.of_nat fuel ->
  is_bytes (varint_fuel fuel z) /\ read_varint (varint_fuel fuel z ++ rest) = Some (z, rest) /\ varint_fuel fuel z <> [].
Proof.
  revert z. induction fuel as [|fuel IH]; intros z Hz; cbn [varint_fuel].
  - simpl in Hz. split_and!; [|cbn [app read_varint]; by rewrite (proj2 (Z.ltb_lt _ _)) by lia|done].
    constructor; [unfold is_u8; lia|constructor].
  - rewrite Nat2Z.inj_succ, Z.pow_succ_r in Hz by lia. destruct (Z.ltb_spec z 128).
    + split_and!; [|cbn [app read_varint]; by rewrite (proj2 (Z.ltb_lt _ _)) by lia|done].
      constructor; [unfold is_u8; lia|constructor].
    + destruct (IH (z / 128)) as (Hb & Hr & _); [Z.to_euclidean_division_equations; nia|].
      pose proof (Z.mod_pos_bound z 128 ltac:(lia)) as Hm. split_and!; [constructor; [unfold is_u8; lia|done]| |done].
      cbn [app read_varint]. rewrite (proj2 (Z.ltb_ge _ _)) by lia. rewrite Hr. cbn [mbind option_bind fst snd].
      do 2 f_equal. pose proof (Z.div_mod z 128). lia.
Qed.

Lemma varint_spec z rest : 0 <= z ->
  is_bytes (varint z) /\ read_varint (varint z ++ rest) = Some (z, rest) /\ varint z <> [].
Proof.
  intros Hz. apply varint_fuel_spec. split; [done|]. rewrite Z2Nat.id by apply Z.log2_nonneg.
  destruct (Z.eq_dec z 0) as [->|]; [done|]. pose proof (Z.log2_spec z ltac:(lia)) as [_ Hl].
  rewrite Z.pow_succ_r in Hl by apply Z.log2_nonneg. lia.
Qed.

Lemma read_wire_field f rest : wf_field f ->
  is_bytes (wire_field f) /\ read_field (wire_field f ++ rest) = Some (f, rest) /\ wire_field f <> [].
Proof.
  destruct f as [tag v]. intros [Ht Hv]. cbn [fst snd] in *.
  assert (Hkey : forall w tail, 0 <= w < 8 -> is_bytes (varint (tag * 8 + w)) /\
    read_varint (varint (tag * 8 + w) ++ tail) = Some (tag * 8 + w, tail) /\ varint (tag * 8 + w) <> [])
    by (intros; apply varint_spec; lia).
  assert (Hdiv : forall w, 0 <= w < 8 -> (tag * 8 + w) / 8 = tag /\ (tag * 8 + w) mod 8 = w).
  { intros w Hw. rewrite Z.add_comm, Z.div_add, Z.mod_add by lia. rewrite Z.div_small, Z.mod_small by lia. lia. }
  unfold read_field. destruct v as [n|n|b|n]; cbn [wire_field fst snd]; rewrite <- ?app_assoc.
  - rewrite <- (Z.add_0_r (tag * 8)). destruct (Hkey 0 (varint n ++ rest)) as (Hb & Hr & Hn); [lia|].
    destruct (varint_spec n rest) as (Hb' & Hr' & _); [lia|].
    rewrite Hr. cbn [mbind option_bind]. destruct (Hdiv 0) as [-> ->]; [lia|]. rewrite Hr'.
    split_and!; [by apply is_bytes_app|done|by intros [? _]%app_eq_nil].
  - destruct (Hkey 1 (le_encode 8 n ++ rest)) as (Hb & Hr & Hn); [lia|].
    rewrite Hr. cbn [mbind option_bind]. destruct (Hdiv 1) as [-> ->]; [lia|].
    rewrite length_app, length_le_encode. rewrite (proj2 (Nat.ltb_ge _ _)) by lia.
    rewrite take_app_length', drop_app_length' by by rewrite length_le_encode. rewrite le_decode_encode by done.
    split_and!; [apply is_bytes_app; split; [done|apply le_encode_is_bytes]|done|by intros [? _]%app_eq_nil].
  - destruct (Hkey 2 (varint (Z.of_nat (length b)) ++ b ++ rest)) as (Hb & Hr & Hn); [lia|].
    destruct (varint_spec (Z.of_nat (length b)) (b ++ rest)) as (Hb' & Hr' & _); [lia|].
    rewrite Hr. cbn [mbind option_bind]. destruct (Hdiv 2) as [-> ->]; [lia|]. rewrite Hr'. cbn [mbind option_bind].
    rewrite length_app, (proj2 (Z.ltb_ge _ _)), Nat2Z.id by lia.
    rewrite take_app_length, drop_app_length.
    split_and!; [rewrite !is_bytes_app; done|done|by intros [? _]%app_eq_nil].
  - destruct (Hkey 5 (le_encode 4 n ++ rest)) as (Hb & Hr & Hn); [lia|].
    rewrite Hr. cbn [mbind option_bind]. destruct (Hdiv 5) as [-> ->]; [lia|].
    rewrite length_app, length_le_encode. rewrite (proj2 (Nat.ltb_ge _ _)) by lia.
    rewrite take_app_length', drop_app_length' by by rewrite length_le_encode. rewrite le_decode_encode by done.
    split_and!; [apply is_bytes_app; split; [done|apply le_encode_is_bytes]|done|by intros [? _]%app_eq_nil].
Qed.

Lemma read_wire_fields l : Forall wf_field l -> forall fuel, (length (concat (map wire_field l)) <= fuel)%nat ->
  read_fields fuel (concat (map wire_field l)) = Some l.
Proof.
  induction 1 as [|f l Hf Hl IH]; intros fuel Hfuel; [by destruct fuel|]. cbn [map concat] in *.
  destruct (read_wire_field f (concat (map wire_field l)) Hf) as (_ & Hr & Hn).
  rewrite length_app in Hfuel. assert (0 < length (wire_field f))%nat by (destruct (wire_field f); [done|simpl; lia]).
  destruct fuel as [|fuel]; [lia|]. destruct (wire_field f ++ concat (map wire_field l)) as [|b bs] eqn:Hbs.
  { apply app_eq_nil in Hbs as [? _]. done. }
  cbn [read_fields]. rewrite Hr. cbn [mbind option_bind]. rewrite IH by lia. done.
Qed.

#[export] Instance wire_format_laws : ProtoWireLaws wire_format.
Proof.
  split; simpl; intros l Hl.
  - unfold is_bytes. apply Forall_concat, Forall_map. eapply Forall_impl; [done|]. intros f Hf.
    apply (read_wire_field f [] Hf).
  - by apply read_wire_fields.
Qed.

End WireFormat.
