(* ===== verification/Jsonl.v ===== *)
(** * The JSON lines of the log exporter (crates/tc-otel-service: dispatcher.rs)

    For an endpoint that is not OTLP the log worker writes one JSON object per
    line, directly into a buffer. Texts are lists of bytes here; a character
    beyond ASCII has only bytes above 127 and is copied. *)

From S2P Require Import Prelude.
From S2P Require Import Text.
From S2P Require Import External.
From S2P Require Import Models.
From S2P Require Import Export.

(** ** Strings *)

Definition hex_byte (d : Z) : Z := if d <? 10 then 48 + d else 87 + d.

(** One character of [push_json_escaped]; [write!(buf, "\\u{:04x}", c)]. *)
Definition escape_byte (b : Z) : bytes :=
  if b =? 34 then [92; 34]
  else if b =? 92 then [92; 92]
  else if b =? 10 then [92; 110]
  else if b =? 13 then [92; 114]
  else if b =? 9 then [92; 116]
  else if b <? 32 then [92; 117; 48; 48; hex_byte (b / 16); hex_byte (b mod 16)]
  else [b].

Definition push_json_escaped (s : string) : bytes := mjoin (map escape_byte (bytes_of_string s)).

(** ** A reader of JSON strings *)

Definition hex_value (b : Z) : option Z :=
  if (48 <=? b) && (b <=? 57) then Some (b - 48)
  else if (97 <=? b) && (b <=? 102) then Some (b - 87)
  else if (65 <=? b) && (b <=? 70) then Some (b - 55)
  else None.

(** The short escapes of JSON. *)
Definition unescape_short (c : Z) : option Z :=
  if c =? 34 then Some 34 else if c =? 92 then Some 92 else if c =? 47 then Some 47
  else if c =? 98 then Some 8 else if c =? 102 then Some 12 else if c =? 110 then Some 10
  else if c =? 114 then Some 13 else if c =? 116 then Some 9 else None.

(** What follows an opening quote, up to the closing one: the text and the
    rest. A control character is not allowed; of [\uxxxx] only the ASCII range
    is read, the encoder writes no other. *)
Fixpoint read_json_string (fuel : nat) (bs : bytes) : option (bytes * bytes) :=
  match fuel with
  | O => None
  | S fuel =>
    match bs with
    | [] => None
    | b :: bs =>
      if b =? 34 then Some ([], bs)
      else if b <? 32 then None
      else if b =? 92 then
        match bs with
        | 117 :: 48 :: 48 :: x :: y :: rest =>
          match hex_value x, hex_value y with
          | Some x, Some y =>
            if 16 * x + y <? 128
            then (fun r => ((16 * x + y) :: r.1, r.2)) <$> read_json_string fuel rest
            else None
          | _, _ => None
          end
        | c :: rest =>
          match unescape_short c with
          | Some v => (fun r => (v :: r.1, r.2)) <$> read_json_string fuel rest
          | None => None
          end
        | [] => None
        end
      else (fun r => (b :: r.1, r.2)) <$> read_json_string fuel bs
    end
  end.

Lemma read_escape_byte fuel b rest :
  0 <= b < 256 ->
  read_json_string (S fuel) (escape_byte b ++ rest) = (fun r => (b :: r.1, r.2)) <$> read_json_string fuel rest.
Proof.
  intros Hb.
  assert (Hctl : forall b, 0 <= b < 32 -> hex_value (hex_byte (b / 16)) = Some (b / 16) /\
    hex_value (hex_byte (b mod 16)) = Some (b mod 16)).
  { intros c Hc. apply (forall_below (fun c => hex_value (hex_byte (c / 16)) = Some (c / 16) /\
      hex_value (hex_byte (c mod 16)) = Some (c mod 16)) 32); [done|lia]. }
  unfold escape_byte.
  destruct (Z.eqb_spec b 34) as [->|H34]; [done|]. destruct (Z.eqb_spec b 92) as [->|H92]; [done|].
  destruct (Z.eqb_spec b 10) as [->|H10]; [done|]. destruct (Z.eqb_spec b 13) as [->|H13]; [done|].
  destruct (Z.eqb_spec b 9) as [->|H9]; [done|]. destruct (Z.ltb_spec b 32) as [Hc|Hc].
  - destruct (Hctl b) as [Hx Hy]; [lia|]. cbn [app read_json_string Z.eqb Z.ltb Z.compare Pos.compare Pos.compare_cont Pos.eqb].
    rewrite Hx, Hy. replace (16 * (b / 16) + b mod 16) with b by (pose proof (Z.div_mod b 16); lia).
    by rewrite (proj2 (Z.ltb_lt b 128)) by lia.
  - cbn [app read_json_string]. rewrite (proj2 (Z.eqb_neq b 34)), (proj2 (Z.ltb_ge b 32)), (proj2 (Z.eqb_neq b 92)) by lia.
    done.
Qed.

Lemma read_escaped fuel bs rest :
  is_bytes bs -> (length bs < fuel)%nat ->
  read_json_string fuel (mjoin (map escape_byte bs) ++ 34 :: rest) = Some (bs, rest).
Proof.
  intros Hb. revert fuel. induction Hb as [|b bs Hb Hbs IH]; intros fuel Hf; (destruct fuel as [|fuel]; [simpl in *; lia|]).
  - done.
  - change (mjoin (map escape_byte (b :: bs))) with (escape_byte b ++ mjoin (map escape_byte bs)).
    simpl in Hf. rewrite <- app_assoc, read_escape_byte, IH by (exact Hb || lia). done.
Qed.

Lemma escape_byte_no_newline b : 0 <= b < 256 -> 10 ∉ escape_byte b.
Proof.
  intros Hb. apply (forall_below (fun b => 10 ∉ escape_byte b) 256); [by vm_compute|lia].
Qed.

Lemma escaped_no_newline s : 10 ∉ push_json_escaped s.
Proof.
  unfold push_json_escaped. rewrite list_elem_of_join. intros (l & Hl & Hin).
  apply list_elem_of_fmap in Hin as (b & -> & Hb).
  pose proof (bytes_of_string_is_bytes s) as Hs. unfold is_bytes in Hs. rewrite Forall_forall in Hs.
  by apply (escape_byte_no_newline b (Hs b Hb)).
Qed.

(** ** Lines *)

Section Lines.
Context `{EN : Encoding}.
(** [dt.to_rfc3339()]. *)
Variable to_rfc3339 : DateTime -> string.

Definition text (s : string) : bytes := bytes_of_string s.

Definition push_json_value (v : Value) : bytes :=
  match v with
  | Null => text "null"
  | VBool b => text (if b then "true" else "false")
  | VNumber n => text (number_display n)
  | VString s => [34] ++ push_json_escaped s ++ [34]
  | VArray _ | VObject _ => text (json_to_string v)
  end.

Definition push_json_key_value (kv : string * Value) : bytes :=
  [34] ++ push_json_escaped kv.1 ++ [34; 58] ++ push_json_value kv.2.

(** The entries of a map, each behind a comma. *)
Definition push_attrs (m : attrs) : bytes := mjoin (map (fun kv => 44 :: push_json_key_value kv) (attrs_iter m)).

(** The line of one record. The severity texts are the six level names, on
    which [to_lowercase] is [to_ascii_lowercase]. *)
Definition jsonl_line (r : LogRecord) : bytes :=
  [123; 34] ++ text "_msg" ++ [34; 58] ++ push_json_value (lr_body r) ++
  [44; 34] ++ text "_time" ++ [34; 58; 34] ++ text (to_rfc3339 (lr_timestamp r)) ++ [34] ++
  [44; 34] ++ text "level" ++ [34; 58; 34] ++ push_json_escaped (to_ascii_lowercase (lr_severity_text r)) ++ [34] ++
  [44; 34] ++ text "severity_number" ++ [34; 58] ++ text (dec (lr_severity_number r)) ++
  push_attrs (lr_scope_attributes r) ++ push_attrs (lr_resource_attributes r) ++
  push_attrs (lr_log_attributes r) ++ [125].

(** The payload of [flush_batch_owned]. *)
Definition jsonl_payload (batch : list LogRecord) : bytes :=
  mjoin (map (fun r => jsonl_line r ++ [10]) batch).

(** ** One line per record *)

(** The lines of a text in which every line is terminated. *)
Fixpoint lines_of (acc bs : bytes) : list bytes :=
  match bs with
  | [] => []
  | b :: bs => if b =? 10 then acc :: lines_of [] bs else lines_of (acc ++ [b]) bs
  end.

Lemma lines_of_line acc l bs : 10 ∉ l -> lines_of acc (l ++ 10 :: bs) = (acc ++ l) :: lines_of [] bs.
Proof.
  revert acc. induction l as [|b l IH]; intros acc Hl; simpl.
  - by rewrite app_nil_r.
  - rewrite not_elem_of_cons in Hl. destruct Hl as [Hb Hl]. rewrite (proj2 (Z.eqb_neq b 10)) by done.
    rewrite IH by done. by rewrite <- app_assoc.
Qed.

(** The texts of third-party types are on one line. *)
Hypothesis rfc3339_line : forall t, 10 ∉ text (to_rfc3339 t).
Hypothesis number_line : forall n, 10 ∉ text (number_display n).
Hypothesis json_line : forall v, 10 ∉ text (json_to_string v).

Lemma value_line v : 10 ∉ push_json_value v.
Proof using number_line json_line.
  destruct v as [|b|n|s| |]; cbn [push_json_value]; [|destruct b|apply number_line| |apply json_line..].
  1-3: by apply (bool_decide_unpack _); vm_compute.
  rewrite !elem_of_app, !list_elem_of_singleton. pose proof (escaped_no_newline s). intros [?|[?|?]]; done.
Qed.

Lemma attrs_line m : 10 ∉ push_attrs m.
Proof using number_line json_line.
  unfold push_attrs. rewrite list_elem_of_join. intros (l & Hl & Hin).
  apply list_elem_of_fmap in Hin as ([k v] & -> & _). unfold push_json_key_value in Hl. cbn [fst snd] in Hl.
  rewrite elem_of_cons, !elem_of_app, !elem_of_cons, elem_of_nil in Hl.
  pose proof (escaped_no_newline k). pose proof (value_line v).
  destruct Hl as [?|[[?|[]]|[?|[[?|[?|[]]]|?]]]]; done.
Qed.

Lemma dec_no_newline z : 10 ∉ text (dec z).
Proof.
  assert (Hpos : forall n, 0 <= n -> 10 ∉ text (dec n)).
  { intros n Hn Hin. pose proof (dec_digits n Hn) as Hd. rewrite Forall_forall in Hd.
    apply Hd in Hin. unfold is_digit in Hin. lia. }
  destruct z as [|p|p]; [by apply Hpos..|]. change (dec (Zneg p)) with ("-" +:+ dec (Zpos p)).
  unfold text. rewrite bytes_of_string_app, elem_of_app. intros [H|H]; [|by apply (Hpos (Zpos p))].
  by apply list_elem_of_singleton in H.
Qed.

Lemma jsonl_line_no_newline r : 10 ∉ jsonl_line r.
Proof using rfc3339_line number_line json_line.
  unfold jsonl_line.
  repeat match goal with |- _ ∉ (_ ++ _)%list => apply not_elem_of_app; split end;
    first [apply value_line|apply attrs_line|apply escaped_no_newline|apply dec_no_newline|apply rfc3339_line
          |by apply (bool_decide_unpack _); vm_compute].
Qed.

(** The payload of a batch is one line per record, in order: no message,
    attribute name or attribute value, whatever characters it has, can end a
    line or start a new one. *)
Theorem jsonl_one_line_per_record batch :
  lines_of [] (jsonl_payload batch) = map jsonl_line batch.
Proof using rfc3339_line number_line json_line.
  unfold jsonl_payload. induction batch as [|r batch IH]; [done|].
  change (mjoin (map (fun r => jsonl_line r ++ [10]) (r :: batch))) with
    ((jsonl_line r ++ [10]) ++ mjoin (map (fun r => jsonl_line r ++ [10]) batch)).
  rewrite <- app_assoc. change ([10] ++ ?l) with (10 :: l).
  rewrite lines_of_line by apply jsonl_line_no_newline. by rewrite IH.
Qed.

End Lines.

(** Texts survive the escaping: a JSON reader that stands behind the opening
    quote of a text the encoder wrote reads back exactly that text, for every
    text, and stops at the closing quote the encoder put there. *)
Theorem escaped_text_reads_back s rest :
  read_json_string (S (String.length s)) (push_json_escaped s ++ 34 :: rest) = Some (bytes_of_string s, rest).
Proof.
  apply read_escaped; [apply bytes_of_string_is_bytes|]. rewrite length_bytes_of_string. lia.
Qed.
