(* ===== verification/Exporter.v ===== *)
(** * The exporter (crates/tc-otel-export: exporter.rs, error.rs)

    Retries with back-off around a post, and the OTLP/JSON payloads. What the
    network does is a parameter: the answer to each attempt. The request
    headers (authorisation with environment variables) are not modelled. *)

From S2P Require Import Prelude.
From S2P Require Import Text.
From S2P Require Import External.
From S2P Require Import Float.
From S2P Require Import Models.
From S2P Require Import Export.
From Stdlib Require Import Ascii.

Inductive OtelError :=
| InvalidRequest (s : string)
| ExportFailed (s : string)
| ReceiverError (s : string)
| JsonError (s : string)
| HttpError (s : string)
| SerializationError (s : string)
| OtelInternal (s : string).

(** [OtelExporter::is_retryable_error]. *)
Definition is_retryable_error (e : OtelError) : bool :=
  match e with
  | ExportFailed msg => negb (str_contains "HTTP 4" msg)
  | HttpError _ => true
  | _ => false
  end.

(** What comes back from a post: a success status, another status (its
    [Display], such as 503 Service Unavailable), or no answer. *)
Inductive attempt :=
| Posted
| Answered (status : string)
| NotSent (error : string).

(** [send_payload]. *)
Definition send_payload (endpoint : string) (a : attempt) : outcome OtelError unit :=
  if String.eqb (to_ascii_lowercase endpoint) "stdout" then Ok tt
  else
    match a with
    | Posted => Ok tt
    | Answered status => Err (ExportFailed ("HTTP " +:+ status +:+ " from " +:+ endpoint))
    | NotSent e => Err (HttpError ("Request failed: " +:+ e))
    end.

(** The result of a loop: what it returns, how often it tried, and the waits
    in between. *)
Record Sending := mkSending {
  sg_result : outcome OtelError unit;
  sg_attempts : nat;
  sg_delays : list Z;
}.

(** [(delay_ms * 2).min(5000)] on [u64]. *)
Definition next_delay (delay_ms : Z) : Z := Z.min (wrap 64 (delay_ms * 2)) 5000.

Definition after_wait (delay_ms : Z) (s : Sending) : Sending :=
  mkSending (sg_result s) (S (sg_attempts s)) (delay_ms :: sg_delays s).

(** [send_with_retry]; [k] attempts were made before. *)
Fixpoint retry_loop (fuel : nat) (endpoint : string) (max_retries : nat) (backend : nat -> attempt)
    (k retry_count : nat) (delay_ms : Z) : Sending :=
  match fuel with
  | O => mkSending OutOfFuel 0 []
  | S fuel =>
    match send_payload endpoint (backend k) with
    | Err e =>
      if negb (is_retryable_error e) then mkSending (Err e) 1 []
      else if (max_retries <? S retry_count)%nat then mkSending (Err e) 1 []
      else after_wait delay_ms
             (retry_loop fuel endpoint max_retries backend (S k) (S retry_count) (next_delay delay_ms))
    | r => mkSending r 1 []
    end
  end.

Definition send_with_retry (endpoint : string) (max_retries : nat) (retry_delay_ms : Z)
    (backend : nat -> attempt) : Sending :=
  retry_loop (S max_retries) endpoint max_retries backend 0 0 retry_delay_ms.

(** [send_metrics_with_retry] and [send_traces_with_retry]: the loop written
    out around the post. *)
Fixpoint retry_loop_inline (fuel : nat) (endpoint : string) (max_retries : nat)
    (backend : nat -> attempt) (k retry_count : nat) (delay_ms : Z) : Sending :=
  match fuel with
  | O => mkSending OutOfFuel 0 []
  | S fuel =>
    match backend k with
    | Posted => mkSending (Ok tt) 1 []
    | Answered status =>
      let err := ExportFailed ("HTTP " +:+ status +:+ " from " +:+ endpoint) in
      if negb (is_retryable_error err) then mkSending (Err err) 1 []
      else if (max_retries <? S retry_count)%nat then mkSending (Err err) 1 []
      else after_wait delay_ms
             (retry_loop_inline fuel endpoint max_retries backend (S k) (S retry_count) (next_delay delay_ms))
    | NotSent e =>
      let err := HttpError ("Request failed: " +:+ e) in
      if (max_retries <? S retry_count)%nat then mkSending (Err err) 1 []
      else after_wait delay_ms
             (retry_loop_inline fuel endpoint max_retries backend (S k) (S retry_count) (next_delay delay_ms))
    end
  end.

Definition send_metrics_with_retry (endpoint : string) (max_retries : nat) (retry_delay_ms : Z)
    (backend : nat -> attempt) : Sending :=
  retry_loop_inline (S max_retries) endpoint max_retries backend 0 0 retry_delay_ms.

(** [send_traces_with_retry], statement for statement the same. *)
Definition send_traces_with_retry (endpoint : string) (max_retries : nat) (retry_delay_ms : Z)
    (backend : nat -> attempt) : Sending :=
  retry_loop_inline (S max_retries) endpoint max_retries backend 0 0 retry_delay_ms.

(** ** The loops end *)

(** A failure after which the loop goes on. *)
Definition transient (endpoint : string) (a : attempt) : Prop :=
  exists e, send_payload endpoint a = Err e /\ is_retryable_error e = true.

(** The wait after [k] failures. *)
Definition backoff (retry_delay_ms : Z) (k : nat) : Z := Z.min (retry_delay_ms * 2 ^ Z.of_nat k) 5000.

Lemma next_delay_backoff d k : 0 <= d <= 5000 -> next_delay (backoff d k) = backoff d (S k).
Proof.
  intros Hd. unfold next_delay, backoff. assert (0 < 2 ^ Z.of_nat k) by (apply Z.pow_pos_nonneg; lia).
  unfold wrap. rewrite Z.mod_small by nia. rewrite Nat2Z.inj_succ, Z.pow_succ_r by lia. nia.
Qed.

Lemma send_payload_completes endpoint a : completes (send_payload endpoint a).
Proof. unfold send_payload. destruct (String.eqb _ _), a; done. Qed.

Lemma retry_loop_spec fuel endpoint max backend d k :
  0 <= d <= 5000 -> (k <= max)%nat -> (S max - k <= fuel)%nat ->
  exists n, (k + n <= max)%nat /\ (forall j, (j < n)%nat -> transient endpoint (backend (k + j)%nat)) /\
    retry_loop fuel endpoint max backend k k (backoff d k) =
      mkSending (send_payload endpoint (backend (k + n)%nat)) (S n) (map (backoff d) (seq k n)) /\
    forall e, send_payload endpoint (backend (k + n)%nat) = Err e ->
      is_retryable_error e = false \/ (k + n)%nat = max.
Proof.
  intros Hd. revert k. induction fuel as [|fuel IH]; intros k Hk Hf; [lia|]. cbn [retry_loop].
  pose proof (send_payload_completes endpoint (backend k)) as Hc.
  destruct (send_payload endpoint (backend k)) as [u|e| |] eqn:Hp; [|..|done|done].
  - exists 0%nat. rewrite Nat.add_0_r, Hp. split_and!; [lia|intros j ?; lia|done|done].
  - destruct (is_retryable_error e) eqn:Hr; cbn [negb].
    2:{ exists 0%nat. rewrite Nat.add_0_r, Hp. split_and!; [lia|intros j ?; lia|done|]. intros ? [= <-]. by left. }
    destruct (Nat.ltb_spec max (S k)) as [Hlast|Hmore].
    { exists 0%nat. rewrite Nat.add_0_r, Hp. split_and!; [lia|intros j ?; lia|done|]. intros ? [= <-]. right. lia. }
    destruct (IH (S k)) as (n & Hn & Htr & Heq & Hend); [lia..|].
    exists (S n). rewrite next_delay_backoff, Heq by done. replace (k + S n)%nat with (S k + n)%nat by lia.
    split_and!; [lia| |done|done].
    intros [|j] Hj; [rewrite Nat.add_0_r; by exists e|].
    replace (k + S j)%nat with (S k + j)%nat by lia. apply Htr. lia.
Qed.

Lemma retry_loops_agree fuel endpoint max backend : String.eqb (to_ascii_lowercase endpoint) "stdout" = false ->
  forall k c delay, retry_loop_inline fuel endpoint max backend k c delay = retry_loop fuel endpoint max backend k c delay.
Proof.
  intros Hout. induction fuel as [|fuel IH]; intros k c delay; [done|]. cbn [retry_loop retry_loop_inline].
  unfold send_payload. rewrite Hout. destruct (backend k); cbn [negb is_retryable_error]; rewrite ?IH; done.
Qed.

(** Which answers are retried: a status exactly when
    it is not of the 400 group, so that redirections and informational
    answers are repeated as well as server errors; provided reason phrase and
    endpoint do not spell the searched text themselves. *)
Lemma answered_transient endpoint digit rest :
  String.eqb (to_ascii_lowercase endpoint) "stdout" = false ->
  str_contains "HTTP 4" (rest +:+ " from " +:+ endpoint) = false -> Ascii.eqb digit "H" = false ->
  transient endpoint (Answered (String digit rest)) <-> digit <> "4"%char.
Proof.
  intros Hout Hrest Hd. unfold transient, send_payload. rewrite Hout.
  assert (Hc : str_contains "HTTP 4" ("HTTP " +:+ String digit rest +:+ " from " +:+ endpoint) =
      Ascii.eqb "4" digit || str_contains "HTTP 4" (String digit (rest +:+ " from " +:+ endpoint))).
  { clear. by destruct digit as [[] [] [] [] [] [] [] []]. }
    assert (Hc' : str_contains "HTTP 4" (String digit (rest +:+ " from " +:+ endpoint)) = false).
    { cbn [str_contains]. rewrite Hrest. cbn [strip_prefix]. rewrite Ascii.eqb_sym, Hd. done. }
  split.
  - intros (e & [= <-] & Hr). cbn [is_retryable_error] in Hr. apply negb_true_iff in Hr. rewrite Hc in Hr.
      apply orb_false_iff in Hr as [Hr _]. apply Ascii.eqb_neq in Hr. congruence.
  - intros Hne. eexists. split; [done|]. cbn [is_retryable_error]. rewrite Hc, Hc'.
      rewrite (proj2 (Ascii.eqb_neq _ _)) by congruence. done.
Qed.

(** What an attempt means: it may be repeated when there was no answer, or one whose status does not begin with a 4. *)
Definition may_repeat (a : attempt) : bool :=
  match a with
  | Posted => false
  | Answered (String c _) => negb (Ascii.eqb c "4")
  | Answered EmptyString => true
  | NotSent _ => true
  end.

(** The result an attempt stands for. *)
Definition attempt_result (endpoint : string) (a : attempt) : outcome OtelError unit :=
  match a with
  | Posted => Ok tt
  | Answered status => Err (ExportFailed ("HTTP " +:+ status +:+ " from " +:+ endpoint))
  | NotSent e => Err (HttpError ("Request failed: " +:+ e))
  end.

(** A status begins with a character other than H, and neither its rest nor the endpoint spells the text that is searched for. *)
Definition plain_answer (endpoint : string) (a : attempt) : Prop :=
  match a with
  | Answered status => exists digit rest, status = String digit rest /\ Ascii.eqb digit "H" = false /\
      str_contains "HTTP 4" (rest +:+ " from " +:+ endpoint) = false
  | _ => True
  end.

Lemma transient_may_repeat endpoint a :
  String.eqb (to_ascii_lowercase endpoint) "stdout" = false -> plain_answer endpoint a ->
  transient endpoint a <-> may_repeat a = true.
Proof.
  intros Hout Hp. destruct a as [|status|e]; cbn [may_repeat].
  - unfold transient, send_payload. rewrite Hout. split; [by intros (e & ? & _)|done].
  - destruct Hp as (digit & rest & -> & Hd & Hc).
    rewrite (answered_transient endpoint digit rest Hout Hc Hd). 
    destruct (Ascii.eqb_spec digit "4") as [->|Hne]; simpl; split; try done; congruence.
  - unfold transient, send_payload. rewrite Hout. split; [done|]. intros _. by eexists.
Qed.

(** C31: Retrying is bounded and does what it says. For an endpoint that is not stdout, a configured delay of at most five
    seconds and every behaviour of the
    network (statuses are digits and a reason, and neither they nor the endpoint spell the text "HTTP 4" that the code searches for), the loops of the log, the metric and the trace exporter end alike: after [n]
    retries, at most the configured number. Before the last
    attempt there was no answer or one whose status does not begin with a 4, each time; the result is that of the last attempt, which
    was the first to succeed or to be answered with such a status, or the last one allowed;
    the waits double from the configured one up to five seconds. *)
Theorem retry_bounded endpoint max d backend :
  0 <= d <= 5000 -> String.eqb (to_ascii_lowercase endpoint) "stdout" = false ->
  (forall k, plain_answer endpoint (backend k)) ->
  exists n, (n <= max)%nat /\ (forall j, (j < n)%nat -> may_repeat (backend j) = true) /\
    (may_repeat (backend n) = false \/ n = max) /\
    let sending := mkSending (attempt_result endpoint (backend n)) (S n)
                     (map (fun k => Z.min (d * 2 ^ Z.of_nat k) 5000) (seq 0 n)) in
    send_with_retry endpoint max d backend = sending /\
    send_metrics_with_retry endpoint max d backend = sending /\
    send_traces_with_retry endpoint max d backend = sending.
Proof.
  intros Hd Hout Hp.
  destruct (retry_loop_spec (S max) endpoint max backend d 0 Hd) as (n & Hn & Htr & Heq & Hend); [lia..|].
  cbn [Nat.add] in *. assert (Hres : send_payload endpoint (backend n) = attempt_result endpoint (backend n)).
  { unfold send_payload. by rewrite Hout. }
  assert (Hs : send_with_retry endpoint max d backend = mkSending (attempt_result endpoint (backend n)) (S n)
    (map (backoff d) (seq 0 n))).
  { unfold send_with_retry. rewrite <- Hres, <- Heq. f_equal. unfold backoff. simpl. lia. }
  exists n. cbv zeta. unfold send_metrics_with_retry, send_traces_with_retry. rewrite retry_loops_agree by done.
  split_and!; try done.
  - intros j Hj. apply (transient_may_repeat endpoint); auto.
  - destruct (may_repeat (backend n)) eqn:Hm; [|by left]. apply (transient_may_repeat endpoint) in Hm as (e & He & Hr); [|done..].
    destruct (Hend e He) as [Hf|]; [congruence|by right].
Qed.

(** ** OTLP/JSON payloads *)

Section Payloads.
Context `{EN : Encoding}.

(** [json!] of an object, and an entry set afterwards: a [serde_json] map is
    sorted by key. *)
Definition obj (l : list (string * Value)) : Value := VObject (btree_of l).

(** [format!("{}", ts.timestamp_nanos_opt().unwrap_or(0) as u64)]. *)
Definition time_text (ts : DateTime) : Value := VString (dec (wrap 64 (default 0 (timestamp_nanos_opt ts)))).

(** [Number::as_i64], [Number::as_f64]. *)
Definition number_as_i64 (n : Number) : option Z :=
  match n with
  | NInt z => if (- 2 ^ 63 <=? z) && (z <? 2 ^ 63) then Some z else None
  | NFloat _ => None
  end.
Definition number_as_f64 (n : Number) : Z := match n with NInt z => f64_of_Z z | NFloat b => b end.

Definition to_otlp_value (v : Value) : Value :=
  match v with
  | VString s => obj [("stringValue", VString s)]
  | VNumber n =>
    match number_as_i64 n with
    | Some i => obj [("intValue", VString (dec i))]
    | None => obj [("doubleValue", json_f64 (number_as_f64 n))]
    end
  | VBool b => obj [("boolValue", VBool b)]
  | _ => obj [("stringValue", VString (json_to_string v))]
  end.

Definition to_otlp_attributes (m : attrs) : Value :=
  VArray (map (fun kv => obj [("key", VString kv.1); ("value", to_otlp_value kv.2)]) (attrs_iter m)).

(** [as_str().unwrap_or("")]. *)
Definition as_str (v : Value) : string := match v with VString s => s | _ => "" end.

(** An entry that is set only when the text is not empty. *)
Definition set_text (k s : string) : list (string * Value) := if String.eqb s "" then [] else [(k, VString s)].

(** The log record of [build_otel_payload]. *)
Definition log_json (r : LogRecord) : Value :=
  obj ([("timeUnixNano", time_text (lr_timestamp r));
        ("body", obj [("stringValue", VString (as_str (lr_body r)))]);
        ("severityNumber", json_int (lr_severity_number r));
        ("severityText", VString (lr_severity_text r));
        ("attributes", to_otlp_attributes (lr_log_attributes r))] ++
       set_text "traceId" (lr_trace_id r) ++ set_text "spanId" (lr_span_id r)).

Definition log_block_json (r : LogRecord) : Value :=
  obj [("resource", obj [("attributes", to_otlp_attributes (lr_resource_attributes r))]);
       ("scopeLogs", VArray [obj
          [("scope", obj [("name", VString (export_scope_key (lr_scope_name r)));
                          ("attributes", to_otlp_attributes (lr_scope_attributes r))]);
           ("logRecords", VArray [log_json r])]])].

Definition build_otel_payload (records : list LogRecord) : string :=
  json_to_string (obj [("resourceLogs", VArray (map log_block_json records))]).

(** [build_metric_data_point]. *)
Definition metric_point_json (r : MetricRecord) : Value :=
  let time := time_text (mr_timestamp r) in
  obj ([("timeUnixNano", time); ("asDouble", json_f64 (mr_value r));
        ("attributes", to_otlp_attributes (mr_attributes r))] ++
       (if negb (String.eqb (mr_trace_id r) "") || negb (String.eqb (mr_span_id r) "") then
          [("exemplars", VArray [obj [("timeUnixNano", time); ("asDouble", json_f64 (mr_value r));
                                      ("traceId", VString (mr_trace_id r)); ("spanId", VString (mr_span_id r))]])]
        else [])).

Definition metric_json (r : MetricRecord) : Value :=
  let named kind data :=
    obj [("name", VString (mr_name r)); ("description", VString (mr_description r));
         ("unit", VString (mr_unit r)); (kind, data)] in
  match mr_kind r with
  | Gauge => named "gauge" (obj [("dataPoints", VArray [metric_point_json r])])
  | Sum => named "sum" (obj [("dataPoints", VArray [metric_point_json r]);
                             ("aggregationTemporality", json_int 2); ("isMonotonic", VBool (mr_is_monotonic r))])
  | Histogram =>
    named "histogram"
      (obj [("dataPoints", VArray [obj
               [("timeUnixNano", time_text (mr_timestamp r));
                ("attributes", to_otlp_attributes (mr_attributes r));
                ("count", VString (dec (mr_histogram_count r)));
                ("sum", json_f64 (mr_histogram_sum r));
                ("bucketCounts", VArray (map (fun c => VString (dec c)) (mr_histogram_counts r)));
                ("explicitBounds", VArray (map json_f64 (mr_histogram_bounds r)))]]);
            ("aggregationTemporality", json_int 2)])
  end.

Definition metric_block_json (r : MetricRecord) : Value :=
  obj [("resource", obj [("attributes", to_otlp_attributes (mr_resource_attributes r))]);
       ("scopeMetrics", VArray [obj
          [("scope", obj [("name", VString (export_scope_key (mr_scope_name r)))]);
           ("metrics", VArray [metric_json r])]])].

Definition build_otel_metrics_payload (records : list MetricRecord) : string :=
  json_to_string (obj [("resourceMetrics", VArray (map metric_block_json records))]).

Definition span_event_json (ev : TraceEventRecord) : Value :=
  obj [("timeUnixNano", time_text (ter_timestamp ev)); ("name", VString (ter_name ev));
       ("attributes", to_otlp_attributes (ter_attributes ev))].

Definition span_json (r : TraceRecord) : Value :=
  obj [("traceId", VString (tr_trace_id r)); ("spanId", VString (tr_span_id r));
       ("parentSpanId", VString (tr_parent_span_id r)); ("name", VString (tr_name r));
       ("kind", json_int (tr_kind r)); ("startTimeUnixNano", time_text (tr_start_time r));
       ("endTimeUnixNano", time_text (tr_end_time r));
       ("attributes", to_otlp_attributes (tr_span_attributes r));
       ("status", obj [("code", json_int (tr_status_code r)); ("message", VString (tr_status_message r))]);
       ("events", VArray (map span_event_json (tr_events r)))].

Definition span_block_json (r : TraceRecord) : Value :=
  obj [("resource", obj [("attributes", to_otlp_attributes (tr_resource_attributes r))]);
       ("scopeSpans", VArray [obj
          [("scope", obj [("name", VString (export_scope_key (tr_scope_name r)));
                          ("attributes", to_otlp_attributes (tr_scope_attributes r))]);
           ("spans", VArray [span_json r])]])].

Definition build_otel_traces_payload (records : list TraceRecord) : string :=
  json_to_string (obj [("resourceSpans", VArray (map span_block_json records))]).

(** ** The two wire formats agree *)

(** An OTLP/JSON value and the protobuf value it stands for. *)
Inductive otlp_same : Value -> AnyValue -> Prop :=
| SameString s : otlp_same (obj [("stringValue", VString s)]) (StringValue s)
| SameBool b : otlp_same (obj [("boolValue", VBool b)]) (BoolValue b)
| SameInt i : otlp_same (obj [("intValue", VString (dec i))]) (IntValue i)
| SameDouble b : otlp_same (obj [("doubleValue", json_f64 b)]) (DoubleValue b).

Definition same_attribute (j : Value) (kv : string * AnyValue) : Prop :=
  exists v, j = obj [("key", VString kv.1); ("value", v)] /\ otlp_same v kv.2.

Definition same_attributes (j : Value) (l : list (string * AnyValue)) : Prop :=
  exists js, j = VArray js /\ Forall2 same_attribute js l.

(** Values as the PLC sends them: texts, truth values, integers of 64 bits
    with a sign, and floats. *)
Definition flat_value (v : Value) : Prop :=
  match v with
  | VString _ | VBool _ | VNumber (NFloat _) => True
  | VNumber (NInt z) => - 2 ^ 63 <= z < 2 ^ 63
  | _ => False
  end.

Definition flat_attrs (m : attrs) : Prop := Forall (fun kv => flat_value kv.2) (attrs_iter m).

Lemma flat_value_same v : flat_value v -> exists av, json_to_any_value v = Some av /\ otlp_same (to_otlp_value v) av.
Proof.
  destruct v as [|b|[z|bits]|s| |]; simpl; try done; intros H.
  - eexists. split; [done|constructor].
  - rewrite (proj2 (Z.leb_le _ _)), (proj2 (Z.ltb_lt _ _)) by lia. eexists. split; [done|constructor].
  - eexists. split; [done|constructor].
  - eexists. split; [done|constructor].
Qed.

Lemma flat_attrs_same m : flat_attrs m -> same_attributes (to_otlp_attributes m) (build_attributes m).
Proof.
  unfold flat_attrs, same_attributes, to_otlp_attributes, build_attributes. intros Hf.
  eexists. split; [done|]. induction Hf as [|[k v] l Hv Hl IH]; [constructor|]. simpl.
  destruct (flat_value_same v Hv) as (av & -> & Hsame). simpl. constructor; [|done]. by eexists.
Qed.

(** An entry of a JSON object. *)
Definition json_field (k : string) (v : Value) : option Value :=
  match v with
  | VObject l => snd <$> (snd <$> list_find (fun kv => kv.1 = k) l)
  | _ => None
  end.

(** The two wire formats say the same of a log. For a record with a text
    body, a time after 1970, attributes of the kinds a PLC sends and its ids
    printed in hexadecimal (or absent), the JSON log record and the protobuf
    one have the same time, severity, body, attributes and identifiers, and
    resource and scope of the JSON block are those of the protobuf block. *)
Theorem log_formats_agree r p t :
  build_log_record r = Ok p -> timestamp_nanos_opt (lr_timestamp r) = Some t -> 0 <= t < 2 ^ 63 ->
  flat_attrs (lr_log_attributes r) -> flat_attrs (lr_resource_attributes r) ->
  (exists s, lr_body r = VString s) ->
  (lr_trace_id r = "" \/ exists id, is_bytes id /\ length id = 16%nat /\ lr_trace_id r = hex_of_bytes id) ->
  (lr_span_id r = "" \/ exists id, is_bytes id /\ length id = 8%nat /\ lr_span_id r = hex_of_bytes id) ->
  let j := log_json r in
  json_field "timeUnixNano" j = Some (VString (dec (pl_time_unix_nano p))) /\
  json_field "severityNumber" j = Some (json_int (pl_severity_number p)) /\
  json_field "severityText" j = Some (VString (pl_severity_text p)) /\
  (exists b v, pl_body p = Some b /\ json_field "body" j = Some v /\ otlp_same v b) /\
  (exists a, json_field "attributes" j = Some a /\ same_attributes a (pl_attributes p)) /\
  json_field "traceId" j = (if decide (pl_trace_id p = []) then None else Some (VString (hex_of_bytes (pl_trace_id p)))) /\
  json_field "spanId" j = (if decide (pl_span_id p = []) then None else Some (VString (hex_of_bytes (pl_span_id p)))) /\
  exists a, json_field "resource" (log_block_json r) = Some (obj [("attributes", a)]) /\
    same_attributes a (build_resource (lr_resource_attributes r)).
Proof.
  intros Hp Ht Hr Hlog Hres [s Hbody] Htid Hsid j. destruct hex_ids_decode as (Hd16 & Hd8 & _).
  assert (Htr : exists id, decode_trace_id_hex (lr_trace_id r) = Ok id /\ (id = [] <-> lr_trace_id r = "") /\
    (id <> [] -> lr_trace_id r = hex_of_bytes id)).
  { destruct Htid as [->|(id & Hb & Hl & ->)]; [by exists []|]. exists id. rewrite Hd16 by done.
    destruct id as [|b id]; [done|]. split_and!; done. }
  assert (Hsp : exists id, decode_span_id_hex (lr_span_id r) = Ok id /\ (id = [] <-> lr_span_id r = "") /\
    (id <> [] -> lr_span_id r = hex_of_bytes id)).
  { destruct Hsid as [->|(id & Hb & Hl & ->)]; [by exists []|]. exists id. rewrite Hd8 by done.
    destruct id as [|b id]; [done|]. split_and!; done. }
  destruct Htr as (tid & Htd & Htn & Hth). destruct Hsp as (sid & Hsd & Hsn & Hsh).
  unfold build_log_record in Hp. rewrite Htd, Hsd, Hbody in Hp. cbn [outcome_bind] in Hp. injection Hp as <-.
  cbn [pl_time_unix_nano pl_severity_number pl_severity_text pl_body pl_attributes pl_trace_id pl_span_id].
  assert (Htime : time_text (lr_timestamp r) = VString (dec (datetime_to_unix_nano (lr_timestamp r)))).
  { unfold time_text, datetime_to_unix_nano. rewrite Ht. simpl. f_equal. f_equal. unfold wrap.
    rewrite Z.mod_small, Z.max_l; lia. }
  assert (Hopt : forall (s : string) (id : bytes), (id = [] <-> s = "") -> (id <> [] -> s = hex_of_bytes id) ->
    (if decide (id = []) then None else Some (VString (hex_of_bytes id))) =
    if String.eqb s "" then None else Some (VString s)).
  { intros s' id Hn Hh. destruct (String.eqb_spec s' "") as [He|He]; case_decide as Hd; [done|..].
    - by apply Hn in He.
    - by apply Hn in Hd.
    - by rewrite Hh. }
  rewrite (Hopt _ _ Htn Hth), (Hopt _ _ Hsn Hsh). unfold j, log_json, set_text. rewrite Hbody, Htime.
  assert (Hres' := flat_attrs_same _ Hres). assert (Hlog' := flat_attrs_same _ Hlog).
  destruct (String.eqb (lr_trace_id r) ""), (String.eqb (lr_span_id r) "");
    (split_and!; [done..| | |done|done|by eexists]);
    (eexists _, _; split; [done|]; split; [done|constructor]) || (eexists; by split).
Qed.

(** Where the formats differ: a null attribute is a text in JSON and left out
    in protobuf; an unsigned integer beyond the signed range is a rounded
    float in JSON and a negative integer in protobuf; a time before 1970 is a
    huge number in JSON and zero in protobuf. *)
Lemma formats_differ :
  (to_otlp_value Null = obj [("stringValue", VString (json_to_string Null))] /\
   json_to_any_value Null = None) /\
  (forall z, 2 ^ 63 <= z < 2 ^ 64 ->
     to_otlp_value (json_int z) = obj [("doubleValue", json_f64 (f64_of_Z z))] /\
     json_to_any_value (json_int z) = Some (IntValue (z - 2 ^ 64))) /\
  (forall ts t, timestamp_nanos_opt ts = Some t -> - 2 ^ 63 <= t < 0 ->
     time_text ts = VString (dec (t + 2 ^ 64)) /\ datetime_to_unix_nano ts = 0).
Proof.
  split_and!; [done|done| |].
  - intros z Hz. split; [|by apply number_export].
    unfold to_otlp_value, json_int, number_as_i64. by rewrite (proj2 (Z.ltb_ge z (2 ^ 63))), andb_false_r by lia.
  - intros ts t Ht Hr. unfold time_text, datetime_to_unix_nano. rewrite Ht. simpl. split; [|lia].
    f_equal. f_equal. unfold wrap. rewrite <- (Z.mod_add t 1) by lia. apply Z.mod_small. lia.
Qed.

End Payloads.
