(* ===== verification/Grpc.v ===== *)
(** * Receiving logs (crates/tc-otel-export: grpc.rs, receiver.rs)

    The OTLP/gRPC log service: the message types of the repository and how a
    body is read with them, their
    conversion to log entries and the service that queues them; and the
    HTTP receiver. The theorems follow a log entry from the encoders of
    [Export] through the wire, laid out as OTLP is specified, to the entry the service queues. *)

From stdpp Require Import sorting.
From S2P Require Import Prelude.
From S2P Require Import Text.
From S2P Require Import External.
From S2P Require Import Models.
From S2P Require Import LogPath.
From S2P Require Import Export.
From S2P Require Import Protobuf.

Set Warnings "-register-all".

(** ** Messages *)

(** [AnyValue]; [GNone] is one whose [value] is not set. A [KeyValue] is a key
    with an optional value. *)
Inductive GValue :=
| GNone
| GString (s : string)
| GBool (b : bool)
| GInt (i : Z)
| GDouble (bits : Z)
| GArray (l : list GValue)
| GKvlist (l : list (string * option GValue))
| GBytes (b : bytes).

Abbreviation GKeyValue := (string * option GValue)%type.

Record GLogRecord := mkGLog {
  gl_time_unix_nano : Z;
  gl_observed_time_unix_nano : Z;
  gl_severity_number : Z;
  gl_severity_text : string;
  gl_body : option GValue;
  gl_attributes : list GKeyValue;
  gl_dropped_attributes_count : Z;
  gl_flags : Z;
  gl_trace_id : bytes;
  gl_span_id : bytes;
}.

Record GScope := mkGScope {
  gs_name : string;
  gs_version : string;
  gs_attributes : list GKeyValue;
  gs_dropped_attributes_count : Z;
}.

Record GScopeLogs := mkGScopeLogs {
  gsl_scope : option GScope;
  gsl_log_records : list GLogRecord;
  gsl_schema_url : string;
}.

(** A resource: its attributes and how many were dropped. *)
Record GResourceLogs := mkGResourceLogs {
  grl_resource : option (list GKeyValue * Z);
  grl_scope_logs : list GScopeLogs;
  grl_schema_url : string;
}.

Record ExportLogsPartialSuccess := mkPartialSuccess {
  rejected_log_records : Z;
  error_message : string;
}.

(** ** Reading a request *)

Section Reading.
Context `{PW : ProtoWire}.
















End Reading.

(** ** Conversion *)

(** [serde_json::Map] is a [BTreeMap]: insertion keeps the keys sorted and
    replaces the value of a key that is there. *)
Fixpoint map_insert (key : string) (v : Value) (m : list (string * Value)) : list (string * Value) :=
  match m with
  | [] => [(key, v)]
  | (k, w) :: m =>
    match String.compare key k with
    | Lt => (key, v) :: (k, w) :: m
    | Eq => (k, v) :: m
    | Gt => (k, w) :: map_insert key v m
    end
  end.

Definition map_collect (l : list (string * Value)) : list (string * Value) :=
  foldl (fun m kv => map_insert kv.1 kv.2 m) [] l.

Section Grpc.
Context `{EN : Encoding}.

Fixpoint any_value_to_json (av : GValue) : Value :=
  match av with
  | GString s => VString s
  | GBool b => VBool b
  | GInt i => json_int i
  | GDouble d => json_f64 d
  | GArray l => VArray (map any_value_to_json l)
  | GKvlist l =>
    VObject (map_collect (map (fun '(k, o) =>
      (k, match o with Some v => any_value_to_json v | None => Null end)) l))
  | GBytes b => VString (hex_of_bytes b)
  | GNone => Null
  end.

Definition find_attr (attrs : list GKeyValue) (key : string) : option GKeyValue :=
  List.find (fun kv => String.eqb kv.1 key) attrs.

Definition extract_string_attr (attrs : list GKeyValue) (key : string) : string :=
  match find_attr attrs key with
  | Some (_, Some (GString s)) => s
  | _ => ""
  end.

Definition extract_int_attr (attrs : list GKeyValue) (key : string) : Z :=
  match find_attr attrs key with
  | Some (_, Some (GInt i)) => to_signed 32 i
  | _ => 0
  end.

Definition has_attr (attrs : list GKeyValue) (key : string) : bool :=
  existsb (fun kv => String.eqb kv.1 key) attrs.

Definition severity_to_log_level (n : Z) : LogLevel :=
  if (1 <=? n) && (n <=? 4) then LTrace
  else if (5 <=? n) && (n <=? 8) then LDebug
  else if (9 <=? n) && (n <=? 12) then LInfo
  else if (13 <=? n) && (n <=? 16) then LWarn
  else if (17 <=? n) && (n <=? 20) then LError
  else if (21 <=? n) && (n <=? 24) then LFatal
  else LInfo.

Definition received_message (body : option GValue) : string :=
  match body with
  | None => ""
  | Some (GString s) => s
  | Some GNone => ""
  | Some other => json_to_string (any_value_to_json other)
  end.

Definition received_context (attributes : list GKeyValue) : attrs :=
  foldl (fun (m : attrs) kv =>
    if String.eqb kv.1 "source.address" then m
    else <[kv.1 := match kv.2 with Some v => any_value_to_json v | None => Null end]> m) ∅ attributes.

(** The entry of one record; [uuid] and [now] are what [LogEntry::new] draws. *)
Definition received_entry (uuid : string) (now : DateTime) (resource_attrs : list GKeyValue) (logger : string)
    (r : GLogRecord) : LogEntry :=
  let source := extract_string_attr (gl_attributes r) "source.address" in
  let e := LogEntry_new uuid now (if String.eqb source "" then "otel-grpc" else source)
             (extract_string_attr resource_attrs "host.name") (received_message (gl_body r)) logger
             (severity_to_log_level (gl_severity_number r)) in
  let task_index := if has_attr resource_attrs "tc.task.index" then extract_int_attr resource_attrs "tc.task.index"
                    else extract_int_attr resource_attrs "process.pid" in
  let task_name := if has_attr resource_attrs "tc.task.name" then extract_string_attr resource_attrs "tc.task.name"
                   else extract_string_attr resource_attrs "process.command_line" in
  let plc_timestamp :=
    if 0 <? gl_time_unix_nano r then
      default (le_plc_timestamp e)
        (from_timestamp (gl_time_unix_nano r / 1000000000) (gl_time_unix_nano r mod 1000000000))
    else le_plc_timestamp e in
  mkLogEntry (le_id e) (le_source e) (le_hostname e) (le_ams_net_id e) (le_ams_source_port e) (le_ams_app_port e)
    (le_message e) (le_logger e) (le_level e) plc_timestamp (le_clock_timestamp e) task_index task_name
    (le_task_cycle_counter e) (extract_string_attr resource_attrs "service.instance.id")
    (extract_string_attr resource_attrs "service.name") (le_online_change_count e)
    (if (length (gl_trace_id r) =? 16)%nat then gl_trace_id r else le_trace_id e)
    (if (length (gl_span_id r) =? 8)%nat then gl_span_id r else le_span_id e)
    (le_arguments e) (received_context (gl_attributes r)).

(** The records in the order of the three nested loops, each with the
    attributes of its resource and the name of its scope. *)
Definition request_items (request : list GResourceLogs) : list (list GKeyValue * string * GLogRecord) :=
  concat (map (fun rl =>
    let resource_attrs := match grl_resource rl with Some (a, _) => a | None => [] end in
    concat (map (fun sl =>
      let logger := match gsl_scope sl with Some s => gs_name s | None => "" end in
      map (fun r => (resource_attrs, logger, r)) (gsl_log_records sl)) (grl_scope_logs rl))) request).

(** [env i] is what the [i]-th call of [LogEntry::new] draws. *)
Definition convert_request_to_entries (env : nat -> string * DateTime) (request : list GResourceLogs)
    : list LogEntry :=
  imap (fun i it => received_entry (env i).1 (env i).2 it.1.1 it.1.2 it.2) (request_items request).

(** ** The service *)

Context `{MP : Mpsc}.

(** The loop of [export]: the channel and how many records it refused. *)
Fixpoint send_counting (entries : list LogEntry) (tx : Sender LogEntry) (rejected : Z) : Sender LogEntry * Z :=
  match entries with
  | [] => (tx, rejected)
  | e :: entries =>
    let '(tx, sent) := try_send tx e in
    send_counting entries tx (if sent then rejected else rejected + 1)
  end.

(** [LogsServiceImpl::export]. *)
Definition grpc_export (env : nat -> string * DateTime) (request : list GResourceLogs) (tx : Sender LogEntry)
    : Sender LogEntry * option ExportLogsPartialSuccess :=
  let entries := convert_request_to_entries env request in
  let total := Z.of_nat (length entries) in
  let '(tx, rejected) := send_counting entries tx 0 in
  (tx, if 0 <? rejected
       then Some (mkPartialSuccess rejected
              ("Channel full: " +:+ dec rejected +:+ "/" +:+ dec total +:+ " log records rejected"))
       else None).

(** [LogsServiceServer::call]: the response, or the gRPC status "12"
    (unimplemented) for any other path. *)
Definition LOGS_EXPORT_PATH : string := "/opentelemetry.proto.collector.logs.v1.LogsService/Export".

Definition LogsServiceServer_call (path : string) (env : nat -> string * DateTime) (request : list GResourceLogs)
    (tx : Sender LogEntry) : Sender LogEntry * (option ExportLogsPartialSuccess + string) :=
  if String.eqb path LOGS_EXPORT_PATH then
    let '(tx, r) := grpc_export env request tx in (tx, inl r)
  else (tx, inr "12").

(** A call with its body: [ProstDecoder], with [decode_logs_request] as [decode], refuses a body that is no request with the
    status [internal]. *)
Inductive GrpcReply :=
| GrpcResponse (partial_success : option ExportLogsPartialSuccess)
| GrpcInternal (message : string)
| GrpcStatus (code : string).

Definition LogsServiceServer_request (decode : bytes -> string + list GResourceLogs) (path : string)
    (env : nat -> string * DateTime) (body : bytes) (tx : Sender LogEntry) : Sender LogEntry * GrpcReply :=
  match decode body with
  | inl e => (tx, if String.eqb path LOGS_EXPORT_PATH then GrpcInternal e else GrpcStatus "12")
  | inr request =>
    match LogsServiceServer_call path env request tx with
    | (tx, inl r) => (tx, GrpcResponse r)
    | (tx, inr code) => (tx, GrpcStatus code)
    end
  end.

(** mapping.rs, [OtelMapping]. *)
Definition log_entry_to_record (e : LogEntry) : LogRecord := LogRecord_from_log_entry e.
Definition metric_entry_to_record (e : MetricEntry) : MetricRecord := MetricRecord_from_metric_entry e.
Definition span_entry_to_record (e : SpanEntry) : TraceRecord := TraceRecord_from_span_entry e.

(** receiver.rs, [handle_logs_request]: the status and the text. The payload
    is not looked at. *)
Definition handle_logs_request (uuid : string) (now : DateTime) (payload : Value) (tx : Sender LogEntry)
    : Sender LogEntry * (Z * string) :=
  let '(tx, sent) := try_send tx (LogEntry_new uuid now "otel" "unknown" "test" "default" LInfo) in
  (tx, if sent then (200, "Received") else (500, "Channel full")).

End Grpc.

(** ** The wire *)

(** OTLP as it is specified (opentelemetry/proto): the tags and kinds of the fields of the messages that the encoder of
    the program fills. A number, text or byte field with its default value is left out. *)
Section Layout.
Context `{PW : ProtoWire}.








End Layout.







(** ** What is sent arrives *)






Section Arrival.
Context `{PW : ProtoWire} `{!ProtoWireLaws PW}.
#[local] Set Default Proof Using "All".




















End Arrival.

(** ** Values survive *)



Section Values.
Context `{EX : External}.






End Values.

(** ** Attributes survive *)


Section Attributes.
Context `{EN : Encoding} {ENL : EncodingLaws EN}.













End Attributes.

(** ** Records survive *)





Section Records.
Context `{EN : Encoding} {ENL : EncodingLaws EN}.



End Records.

(** ** A log entry through the wire *)

Section LogEntries.
Context `{EN : Encoding}.












Context {ENL : EncodingLaws EN}.





End LogEntries.

(** ** The service queues what it acknowledges *)

Lemma sublist_full {A} (l k : list A) : l `sublist_of` k -> (length k <= length l)%nat -> l = k.
Proof.
  induction 1 as [|a l k Hlk IH|a l k Hlk IH]; simpl; intros Hlen; [done| |].
  - rewrite IH by lia. done.
  - apply sublist_length in Hlk. lia.
Qed.

Section Service.
Context `{EN : Encoding} `{MP : Mpsc} {ML : MpscLaws MP}.

Lemma send_counting_spec entries : forall (tx : Sender LogEntry) rejected tx' rejected',
  send_counting entries tx rejected = (tx', rejected') ->
  exists accepted, accepted `sublist_of` entries /\ queued tx' = queued tx ++ accepted /\
    rejected' = rejected + (Z.of_nat (length entries) - Z.of_nat (length accepted)).
Proof using ML.
  induction entries as [|e entries IH]; intros tx rejected tx' rejected'; cbn [send_counting].
  - intros [= <- <-]. exists []. rewrite app_nil_r. split_and!; [done|done|simpl; lia].
  - pose proof (try_send_queued _ tx e) as Hq. destruct (try_send tx e) as [tx1 sent]. simpl in Hq.
    intros (acc & Hsub & Hacc & Hr)%IH. destruct sent.
    + exists (e :: acc). split_and!; [by constructor|by rewrite Hacc, Hq, <- app_assoc|simpl; lia].
    + exists acc. split_and!; [by constructor|by rewrite Hacc, Hq|simpl; lia].
Qed.

(** A body that is no request changes nothing, on whatever path. *)
Lemma undecodable_refused decode path env body (tx : Sender LogEntry) e :
  decode body = inl e -> exists reply, LogsServiceServer_request decode path env body tx = (tx, reply) /\
    (reply = GrpcInternal e /\ path = LOGS_EXPORT_PATH \/ reply = GrpcStatus "12" /\ path <> LOGS_EXPORT_PATH).
Proof.
  intros Hd. unfold LogsServiceServer_request. rewrite Hd. eexists. split; [done|].
  destruct (String.eqb_spec path LOGS_EXPORT_PATH); [by left|by right].
Qed.

(** The answer of the log service is honest. Of the records of a request some
    are queued, in order, and the others are counted: the response has no
    partial success exactly when every record was queued, and else says how
    many were refused; a request on another path queues nothing. *)
Theorem grpc_export_counts path env request (tx : Sender LogEntry) tx' r :
  LogsServiceServer_call path env request tx = (tx', r) ->
  let entries := convert_request_to_entries env request in
  exists accepted, accepted `sublist_of` entries /\ queued tx' = queued tx ++ accepted /\
    match r with
    | inr status => path <> LOGS_EXPORT_PATH /\ status = "12" /\ accepted = []
    | inl None => path = LOGS_EXPORT_PATH /\ accepted = entries
    | inl (Some ps) => path = LOGS_EXPORT_PATH /\
        rejected_log_records ps + Z.of_nat (length accepted) = Z.of_nat (length entries) /\ 0 < rejected_log_records ps
    end.
Proof using ML.
  unfold LogsServiceServer_call, grpc_export. intros H. cbv zeta in H |- *.
  set (entries := convert_request_to_entries env request) in *.
  destruct (String.eqb_spec path LOGS_EXPORT_PATH) as [->|Hne].
  - destruct (send_counting entries tx 0) as [tx1 rejected] eqn:Hs.
    apply send_counting_spec in Hs as (acc & Hsub & Hq & Hr). injection H as <- <-. exists acc.
    split_and!; [done|done|]. destruct (Z.ltb_spec 0 rejected) as [Hpos|Hle].
    + split_and!; [done|simpl; lia|simpl; lia].
    + split; [done|]. apply sublist_full; [done|lia].
  - injection H as <- <-. exists []. rewrite app_nil_r. split_and!; try done. apply sublist_nil_l.
Qed.

End Service.
