(* ===== verification/Delivery.v ===== *)
(** * From batches to requests (crates/tc-otel-export: exporter.rs;
    crates/tc-otel-service: dispatcher.rs, trace_dispatcher.rs)

    Which request a batch becomes: the endpoint and the format that the
    settings give each pillar, the body and its content type, and the
    authorisation header with its environment variables. The requests go
    through the retry loops of [Exporter]; the environment and the bytes
    of a protobuf message are parameters. *)

From Stdlib Require Import Ascii.
From S2P Require Import Prelude.
From S2P Require Import Text.
From S2P Require Import External.
From S2P Require Import Models.
From S2P Require Import MetricMapper.
From S2P Require Import Poll.
From S2P Require Import LogPath.
From S2P Require Import Worker.
From S2P Require Import Export.
From S2P Require Import Jsonl.
From S2P Require Import Exporter.
From S2P Require Import Config.

(** ** Text *)

(** [s.replace(pat, to)] for a pattern that is not empty. *)
Fixpoint replace_fuel (fuel : nat) (pat to s : string) : string :=
  match fuel with
  | O => s
  | S fuel =>
    match strip_prefix pat s with
    | Some rest => to +:+ replace_fuel fuel pat to rest
    | None => match s with EmptyString => EmptyString | String c s => String c (replace_fuel fuel pat to s) end
    end
  end.

Definition str_replace (pat to s : string) : string := replace_fuel (S (String.length s)) pat to s.

(** The names of the pattern [[A-Za-z_][A-Za-z0-9_]*]. *)
Definition name_start (c : ascii) : bool :=
  let b := byte_of_ascii c in in_range 65 90 (Some b) || in_range 97 122 (Some b) || (b =? 95).

Definition name_char (c : ascii) : bool := name_start c || in_range 48 57 (Some (byte_of_ascii c)).

(** The longest run of name characters. *)
Fixpoint take_name (s : string) : string * string :=
  match s with
  | EmptyString => (EmptyString, EmptyString)
  | String c s' => if name_char c then let '(n, r) := take_name s' in (String c n, r) else (EmptyString, s)
  end.

(** A match of the regular expression at the start of [s]: the name and the
    rest behind the closing brace. *)
Definition var_ref (s : string) : option (string * string) :=
  match strip_prefix "${" s with
  | Some s =>
    match take_name s with
    | (String c n, String d r) => if name_start c && Ascii.eqb d "}" then Some (String c n, r) else None
    | _ => None
    end
  | None => None
  end.

Section Environment.
(** [std::env::var]. *)
Variable env : string -> option string.

Definition var_value (name : string) : string := default ("${" +:+ name +:+ "}") (env name).

(** [re.replace_all]: the leftmost matches, each replaced by the variable. *)
Fixpoint expand_fuel (fuel : nat) (s : string) : string :=
  match fuel with
  | O => s
  | S fuel =>
    match var_ref s with
    | Some (name, rest) => var_value name +:+ expand_fuel fuel rest
    | None => match s with EmptyString => EmptyString | String c s => String c (expand_fuel fuel s) end
    end
  end.

Definition expand_env_vars (template : string) : string := expand_fuel (S (String.length template)) template.

(** ** The exporter's configuration *)

Record ExportConfig := mkExportConfig {
  ec_endpoint : string;
  ec_batch_size : Z;
  ec_max_retries : Z;
  ec_retry_delay_ms : Z;
  ec_timeout_secs : Z;
  ec_auth_header : option string;
  ec_format : WireFormat;
}.

Definition ExportConfig_default : ExportConfig :=
  mkExportConfig (default "https://localhost:4318/v1/logs" (env "OTEL_EXPORTER_OTLP_ENDPOINT")) 100 3 100 30
    (env "OTEL_EXPORTER_OTLP_HEADERS") WireFormat_default.

(** [OtelExporter::new]. *)
Definition OtelExporter_new (endpoint : string) (batch_size max_retries : Z) : ExportConfig :=
  let d := ExportConfig_default in
  mkExportConfig endpoint batch_size max_retries (ec_retry_delay_ms d) (ec_timeout_secs d) (ec_auth_header d)
    (ec_format d).

(** [with_config]: whether the HTTP client accepts only https addresses. *)
Definition client_https_only (c : ExportConfig) : bool :=
  let is_local := str_contains "localhost" (ec_endpoint c) || str_contains "127.0.0.1" (ec_endpoint c) ||
                  str_contains "otel-collector" (ec_endpoint c) || starts_with "http://" (ec_endpoint c) in
  negb is_local.

(** ** Requests *)

Record HttpRequest := mkHttpRequest {
  hr_url : string;
  hr_content_type : string;
  hr_authorization : option string;
  hr_body : bytes;
}.

(** The bytes of the three protobuf messages. *)
Context `{EN : Encoding}.
Variable encode_logs : list (ResourceBlock ProtoLogRecord) -> bytes.
Variable encode_metrics : list (ResourceBlock Metric) -> bytes.
Variable encode_traces : list (ResourceBlock ProtoSpan) -> bytes.

Definition post (c : ExportConfig) (url content_type : string) (body : bytes) : HttpRequest :=
  mkHttpRequest url content_type (expand_env_vars <$> ec_auth_header c) body.

(** The body of a batch in the configured format and its content type. *)
Definition batch_body {R P} (format : WireFormat) (json : list R -> string)
    (proto : list R -> outcome unit P) (encode : P -> bytes) (records : list R) : outcome unit (bytes * string) :=
  match format with
  | WireJson => Ok (bytes_of_string (json records), "application/json")
  | WireProtobuf => (req <-- proto records ;; Ok (encode req, "application/x-protobuf"))%rust
  end.

(** What exporting a batch does: the request that is posted (again and again, if
    it fails), if any, and how the loop ends. [backend] answers the attempts. *)
Definition exported : Type := option HttpRequest * Sending.

Definition nothing_to_send : exported := (None, mkSending (Ok tt) 0 []).

(** The sink stdout prints the body and posts nothing. *)
Definition export_batch (c : ExportConfig) (records : list LogRecord) (backend : nat -> attempt)
    : outcome unit exported :=
  match records with
  | [] => Ok nothing_to_send
  | _ =>
    (b <-- batch_body (ec_format c) build_otel_payload build_logs_request encode_logs records ;;
     Ok (if String.eqb (to_ascii_lowercase (ec_endpoint c)) "stdout" then None
         else Some (post c (ec_endpoint c) b.2 b.1),
         send_with_retry (ec_endpoint c) (Z.to_nat (ec_max_retries c)) (ec_retry_delay_ms c) backend))%rust
  end.

(** [export]. *)
Definition export_one (c : ExportConfig) (record : LogRecord) (backend : nat -> attempt) : outcome unit exported :=
  export_batch c [record] backend.

Definition metrics_endpoint (endpoint : string) : string :=
  str_replace "/insert/jsonline" "/v1/metrics" (str_replace "/v1/logs" "/v1/metrics" endpoint).

Definition export_metrics_batch (c : ExportConfig) (records : list MetricRecord) (backend : nat -> attempt)
    : outcome unit exported :=
  match records with
  | [] => Ok nothing_to_send
  | _ =>
    let endpoint := metrics_endpoint (ec_endpoint c) in
    (b <-- batch_body (ec_format c) build_otel_metrics_payload build_metrics_request encode_metrics records ;;
     Ok (Some (post c endpoint b.2 b.1),
         send_metrics_with_retry endpoint (Z.to_nat (ec_max_retries c)) (ec_retry_delay_ms c) backend))%rust
  end.

Definition traces_endpoint (endpoint : string) : string :=
  str_replace "/insert/jsonline" "/v1/traces"
    (str_replace "/v1/metrics" "/v1/traces" (str_replace "/v1/logs" "/v1/traces" endpoint)).

Definition export_traces_batch (c : ExportConfig) (records : list TraceRecord) (backend : nat -> attempt)
    : outcome unit exported :=
  match records with
  | [] => Ok nothing_to_send
  | _ =>
    let endpoint := traces_endpoint (ec_endpoint c) in
    (b <-- batch_body (ec_format c) build_otel_traces_payload build_traces_request encode_traces records ;;
     Ok (Some (post c endpoint b.2 b.1),
         send_traces_with_retry endpoint (Z.to_nat (ec_max_retries c)) (ec_retry_delay_ms c) backend))%rust
  end.

(** ** What the settings give the dispatchers *)

(** dispatcher.rs: the endpoint of the logs, from the environment if it is set
    there. *)
Definition log_endpoint (s : AppSettings) : string :=
  default (es_endpoint (st_export s)) (env "TCOTEL_EXPORT_ENDPOINT").

(** [build_log_exporter] and the choice around it: none for an endpoint that is
    not OTLP. *)
Definition log_exporter (endpoint : string) (batch_size : Z) (format : WireFormat) : option ExportConfig :=
  if is_otlp_endpoint endpoint then
    let d := ExportConfig_default in
    Some (mkExportConfig endpoint batch_size (ec_max_retries d) (ec_retry_delay_ms d) (ec_timeout_secs d)
            (ec_auth_header d) format)
  else None.

(** The configuration the log worker starts with. *)
Definition log_worker_config (s : AppSettings) : WorkerConfig (X := string * option ExportConfig) :=
  mkWorkerConfig
    (log_endpoint s, log_exporter (log_endpoint s) (es_batch_size (st_export s)) (es_format (st_export s)))
    (Z.to_nat (es_batch_size (st_export s))) (es_flush_interval_ms (st_export s)).

(** [MetricDispatcher::resolve_endpoint]. *)
Definition resolve_endpoint (s : AppSettings) : string :=
  match mc_export_endpoint (st_metrics s) with
  | Some ep => ep
  | None => metrics_endpoint (es_endpoint (st_export s))
  end.

(** [MetricDispatcher::resolve_format]. *)
Definition resolve_format (s : AppSettings) : WireFormat :=
  default (es_format (st_export s)) (mc_export_format (st_metrics s)).

(** [MetricDispatcher::build_export_config]. *)
Definition build_export_config (s : AppSettings) : ExportConfig :=
  let d := ExportConfig_default in
  mkExportConfig (resolve_endpoint s) (mc_export_batch_size (st_metrics s)) (es_max_retries (st_export s))
    (ec_retry_delay_ms d) (es_timeout_secs (st_export s)) (ec_auth_header d) (resolve_format s).

Definition metric_worker_config (s : AppSettings) : WorkerConfig (X := ExportConfig) :=
  mkWorkerConfig (build_export_config s) (Z.to_nat (mc_export_batch_size (st_metrics s)))
    (mc_export_flush_interval_ms (st_metrics s)).

(** A new configuration in the metric worker: the exporter is rebuilt when one of
    the compared fields differs; the batch size is that of the exporter kept; the
    interval is made again when its period differs. *)
Definition metric_reload (s : AppSettings) (cur : WorkerConfig (X := ExportConfig))
    : outcome Empty_set (WorkerConfig (X := ExportConfig)) :=
  let new := build_export_config s in
  let cfg := wc_exporter cur in
  let changed := negb (String.eqb (ec_endpoint new) (ec_endpoint cfg)) ||
                 negb (ec_max_retries new =? ec_max_retries cfg) ||
                 negb (ec_timeout_secs new =? ec_timeout_secs cfg) ||
                 negb (bool_decide (ec_format new = ec_format cfg)) ||
                 negb (ec_batch_size new =? ec_batch_size cfg) in
  let cfg := if changed then new else cfg in
  (interval <-- remake_interval (mc_export_flush_interval_ms (st_metrics s)) (wc_flush_interval cur) ;;
   Ok (mkWorkerConfig cfg (Z.to_nat (ec_batch_size cfg)) interval))%rust.

(** A new configuration in the log worker: the exporter is rebuilt, with the
    batch size before the reload, when endpoint or format differ; the interval is made
    again when its period differs. *)
Definition log_reload (s : AppSettings) (format : WireFormat) (cur : WorkerConfig (X := string * option ExportConfig))
    : outcome Empty_set (WorkerConfig (X := string * option ExportConfig)) :=
  let '(endpoint, exporter) := wc_exporter cur in
  let dirty := negb (String.eqb (log_endpoint s) endpoint) || negb (bool_decide (es_format (st_export s) = format)) in
  (interval <-- remake_interval (es_flush_interval_ms (st_export s)) (wc_flush_interval cur) ;;
   Ok (mkWorkerConfig
     (log_endpoint s,
      if dirty then log_exporter (log_endpoint s) (Z.of_nat (wc_batch_size cur)) (es_format (st_export s)) else exporter)
     (Z.to_nat (es_batch_size (st_export s))) interval))%rust.

(** trace_dispatcher.rs: the exporter, and whether spans are exported at all. *)
Definition trace_exporter (s : AppSettings) : ExportConfig * bool :=
  let d := ExportConfig_default in
  let t := tc_export (st_traces s) in
  (mkExportConfig (default "http://localhost:4318/v1/traces" (te_endpoint t)) (te_batch_size t)
     (es_max_retries (st_export s)) (ec_retry_delay_ms d) (es_timeout_secs (st_export s)) (ec_auth_header d)
     (default (es_format (st_export s)) (te_format t)),
   match te_endpoint t with Some _ => true | None => false end).

(** The [Display] of [OtelError] (error.rs). *)
Definition OtelError_to_string (e : OtelError) : string :=
  match e with
  | InvalidRequest s => "Invalid OTEL request: " +:+ s
  | ExportFailed s => "OTEL export failed: " +:+ s
  | ReceiverError s => "OTEL receiver error: " +:+ s
  | JsonError s => "JSON parse error: " +:+ s
  | HttpError s => "HTTP error: " +:+ s
  | SerializationError s => "Serialization error: " +:+ s
  | OtelInternal s => "Internal error: " +:+ s
  end.

(** [LogDispatcher::flush_batch_owned]: OTLP through the exporter, anything else
    as JSON lines, which are posted once. The request that is posted, and the
    number of records or the error; [text] is the body of a refusal. *)
Definition flush_batch_owned (time_text : DateTime -> string) (target : string * option ExportConfig)
    (batch : list LogRecord) (backend : nat -> attempt) (text : string)
    : outcome unit (option HttpRequest * (string + Z)) :=
  let count := Z.of_nat (length batch) in
  match target.2 with
  | Some c =>
    (x <-- export_batch c batch backend ;;
     Ok (x.1, match sg_result x.2 with
              | Err e => inl ("OTLP export failed: " +:+ OtelError_to_string e)
              | _ => inr count
              end))%rust
  | None =>
    if String.eqb (to_ascii_lowercase target.1) "stdout" then Ok (None, inr count)
    else
      Ok (Some (mkHttpRequest target.1 "application/stream+json" None (jsonl_payload time_text batch)),
          match backend 0%nat with
          | Posted => inr count
          | Answered status => inl ("Export failed: HTTP " +:+ status +:+ " - " +:+ text)
          | NotSent e => inl ("HTTP error: " +:+ e)
          end)
  end.

End Environment.

(** ** Variables are expanded *)

(** A template, as its pieces. *)
Inductive piece := Literal (s : string) | Variable_ref (name : string).

Fixpoint all_chars (p : ascii -> bool) (s : string) : bool :=
  match s with EmptyString => true | String c s => p c && all_chars p s end.

Definition wf_piece (p : piece) : Prop :=
  match p with
  | Literal s => all_chars (fun c => negb (Ascii.eqb c "$")) s = true
  | Variable_ref (String c n) => name_start c = true /\ all_chars name_char n = true
  | Variable_ref EmptyString => False
  end.

Definition render_piece (p : piece) : string :=
  match p with Literal s => s | Variable_ref n => "${" +:+ n +:+ "}" end.

Fixpoint render (ps : list piece) : string :=
  match ps with [] => "" | p :: ps => render_piece p +:+ render ps end.

Definition piece_value (env : string -> option string) (p : piece) : string :=
  match p with Literal s => s | Variable_ref n => var_value env n end.

Fixpoint expansion (env : string -> option string) (ps : list piece) : string :=
  match ps with [] => "" | p :: ps => piece_value env p +:+ expansion env ps end.

Lemma take_name_all n s : all_chars name_char n = true -> take_name (n +:+ "}" +:+ s) = (n, "}" +:+ s).
Proof.
  induction n as [|c n IH]; simpl; [done|]. intros [Hc Hn]%andb_true_iff. rewrite Hc.
  by rewrite (IH Hn).
Qed.

Lemma var_ref_here c n s :
  name_start c = true -> all_chars name_char n = true ->
  var_ref ("${" +:+ String c n +:+ "}" +:+ s) = Some (String c n, s).
Proof.
  intros Hc Hn. unfold var_ref. rewrite (strip_prefix_app "${").
  change (String c n +:+ "}" +:+ s) with ((String c n) +:+ "}" +:+ s).
  rewrite (take_name_all (String c n)) by (simpl; unfold name_char at 1; by rewrite Hc).
  simpl. by rewrite Hc.
Qed.

Lemma str_app_assoc (a b c : string) : (a +:+ b) +:+ c = a +:+ (b +:+ c).
Proof.
  induction a as [|x a IH]; [done|]. change (String x ((a +:+ b) +:+ c) = String x (a +:+ (b +:+ c))).
  by rewrite IH.
Qed.

Lemma expand_literal env fuel s t :
  all_chars (fun c => negb (Ascii.eqb c "$")) s = true ->
  expand_fuel env (String.length s + fuel) (s +:+ t) = s +:+ expand_fuel env fuel t.
Proof.
  induction s as [|c s IH]; [done|]. cbn [all_chars]. intros [Hc Hs]%andb_true_iff.
  change (String c s +:+ t) with (String c (s +:+ t)). cbn [String.length Nat.add expand_fuel].
  unfold var_ref. cbn [strip_prefix].
  rewrite Ascii.eqb_sym. destruct (Ascii.eqb c "$"); [done|]. by rewrite IH.
Qed.

Lemma length_append a b : String.length (a +:+ b) = (String.length a + String.length b)%nat.
Proof. by rewrite <- !length_bytes_of_string, bytes_of_string_app, length_app. Qed.

Lemma expand_render env ps : forall fuel,
  Forall wf_piece ps -> (String.length (render ps) < fuel)%nat -> expand_fuel env fuel (render ps) = expansion env ps.
Proof.
  induction ps as [|p ps IH]; intros fuel Hps Hf; [by destruct fuel|].
  apply Forall_cons in Hps as [Hp Hps]. cbn [render expansion] in *. rewrite length_append in Hf.
  destruct p as [s|n]; cbn [render_piece piece_value] in *.
  - replace fuel with (String.length s + (fuel - String.length s))%nat by lia.
    rewrite expand_literal by done. f_equal. apply IH; [done|lia].
  - destruct n as [|c n]; [done|]. destruct Hp as [Hc Hn]. destruct fuel as [|fuel]; [lia|].
    rewrite !str_app_assoc. cbn [expand_fuel]. rewrite var_ref_here by done.
    rewrite length_append in Hf. change (String.length "${") with 2%nat in Hf.
    f_equal. apply IH; [done|lia].
Qed.

(** ** Endpoints *)

(** [pat] does not begin inside [base] in the text [base ++ tail]. *)
Fixpoint no_match (pat base tail : string) : bool :=
  match base with
  | EmptyString => true
  | String _ b => match strip_prefix pat (base +:+ tail) with Some _ => false | None => no_match pat b tail end
  end.

Lemma replace_base pat to base tail fuel :
  no_match pat base tail = true ->
  replace_fuel (String.length base + fuel) pat to (base +:+ tail) = base +:+ replace_fuel fuel pat to tail.
Proof.
  induction base as [|c base IH]; [done|]. cbn [no_match].
  change (String c base +:+ tail) with (String c (base +:+ tail)). cbn [String.length Nat.add replace_fuel].
  destruct (strip_prefix pat (String c (base +:+ tail))); [done|]. intros H.
  by rewrite (IH H).
Qed.

Lemma replace_tail pat to base tail :
  no_match pat base tail = true ->
  str_replace pat to (base +:+ tail) = base +:+ replace_fuel (S (String.length tail)) pat to tail.
Proof.
  intros H. unfold str_replace. rewrite length_append, <- replace_base by done. f_equal. lia.
Qed.

(** A base address in which none of the replaced paths begins. *)
Definition plain_base (base : string) : bool :=
  forallb (fun pat => forallb (fun tail => no_match pat base tail)
    ["/v1/logs"; "/insert/jsonline"; "/v1/metrics"; "/v1/traces"]) ["/v1/logs"; "/insert/jsonline"; "/v1/metrics"].

Lemma plain_base_match base pat tail :
  plain_base base = true -> pat ∈ ["/v1/logs"; "/insert/jsonline"; "/v1/metrics"] ->
  tail ∈ ["/v1/logs"; "/insert/jsonline"; "/v1/metrics"; "/v1/traces"] -> no_match pat base tail = true.
Proof.
  unfold plain_base. rewrite forallb_forall. intros H Hp%list_elem_of_In Ht%list_elem_of_In.
  specialize (H _ Hp). rewrite forallb_forall in H. by apply H.
Qed.

Ltac replace_endpoint Hb :=
  repeat (rewrite replace_tail by (apply plain_base_match; [exact Hb|set_solver|set_solver]);
    match goal with |- context [replace_fuel ?f ?p ?t ?s] =>
      let r := eval vm_compute in (replace_fuel f p t s) in change (replace_fuel f p t s) with r end).

Lemma metrics_endpoint_base base tail :
  plain_base base = true -> tail ∈ ["/v1/logs"; "/insert/jsonline"; "/v1/metrics"] ->
  metrics_endpoint (base +:+ tail) = base +:+ "/v1/metrics".
Proof.
  intros Hb Ht. unfold metrics_endpoint. rewrite !elem_of_cons, elem_of_nil in Ht.
  destruct Ht as [->|[->|[->|[]]]]; by replace_endpoint Hb.
Qed.

Lemma traces_endpoint_base base tail :
  plain_base base = true -> tail ∈ ["/v1/logs"; "/insert/jsonline"; "/v1/metrics"; "/v1/traces"] ->
  traces_endpoint (base +:+ tail) = base +:+ "/v1/traces".
Proof.
  intros Hb Ht. unfold traces_endpoint. rewrite !elem_of_cons, elem_of_nil in Ht.
  destruct Ht as [->|[->|[->|[->|[]]]]]; by replace_endpoint Hb.
Qed.

(** ** What is posted where *)

Section Posted.
Context `{EN : Encoding}.
Variable env : string -> option string.
Variable encode_logs : list (ResourceBlock ProtoLogRecord) -> bytes.
Variable encode_metrics : list (ResourceBlock Metric) -> bytes.
Variable encode_traces : list (ResourceBlock ProtoSpan) -> bytes.

Definition content_type (f : WireFormat) : string :=
  match f with WireJson => "application/json" | WireProtobuf => "application/x-protobuf" end.

Lemma batch_body_spec {R P} f (json : list R -> string) (proto : list R -> outcome unit P) encode records req :
  proto records = Ok req ->
  batch_body f json proto encode records =
  Ok (match f with WireJson => bytes_of_string (json records) | WireProtobuf => encode req end, content_type f).
Proof. intros H. unfold batch_body. destruct f; [done|]. by rewrite H. Qed.

(** A batch of metrics is posted where the settings say. From the settings to
    the request: with a plain base address, whether the export endpoint is
    that of logs, of JSON lines or of metrics, the metric exporter posts a
    non-empty batch to the base's /v1/metrics (deriving the address twice
    changes nothing), and a trace exporter given that endpoint to /v1/traces;
    the body is the batch in the format of the settings, with the matching
    content type, the authorisation header is the template with every set
    variable expanded and others left as they are, and it is sent by the retry
    loop with the configured number of retries; an empty batch posts nothing. *)
Theorem metrics_posted (s : AppSettings) base tail ps r records backend req :
  plain_base base = true -> tail ∈ ["/v1/logs"; "/insert/jsonline"; "/v1/metrics"] ->
  es_endpoint (st_export s) = base +:+ tail -> mc_export_endpoint (st_metrics s) = None ->
  env "OTEL_EXPORTER_OTLP_HEADERS" = Some (render ps) -> Forall wf_piece ps ->
  build_metrics_request (r :: records) = Ok req ->
  let c := build_export_config env s in
  traces_endpoint (ec_endpoint c) = base +:+ "/v1/traces" /\
  export_metrics_batch env encode_metrics c [] backend = Ok nothing_to_send /\
  exists sending, export_metrics_batch env encode_metrics c (r :: records) backend =
    Ok (Some (mkHttpRequest (base +:+ "/v1/metrics") (content_type (resolve_format s)) (Some (expansion env ps))
         (match resolve_format s with
          | WireJson => bytes_of_string (build_otel_metrics_payload (r :: records))
          | WireProtobuf => encode_metrics req
          end)), sending) /\
    sending = send_metrics_with_retry (base +:+ "/v1/metrics") (Z.to_nat (es_max_retries (st_export s))) 100 backend.
Proof.
  intros Hb Ht Hep Hme Hauth Hps Hreq c.
  assert (Hc : ec_endpoint c = base +:+ "/v1/metrics").
  { unfold c, build_export_config, resolve_endpoint. cbn [ec_endpoint]. rewrite Hme, Hep.
    by apply metrics_endpoint_base. }
  split_and!.
  - rewrite Hc. apply traces_endpoint_base; [done|set_solver].
  - done.
  - unfold export_metrics_batch. rewrite Hc, metrics_endpoint_base by (done || set_solver).
    rewrite (batch_body_spec _ _ _ _ _ req Hreq). cbn [outcome_bind fst snd]. eexists. split; [|reflexivity].
    unfold post. change (ec_auth_header c) with (env "OTEL_EXPORTER_OTLP_HEADERS"). rewrite Hauth.
    cbn [fmap option_fmap option_map]. unfold expand_env_vars. rewrite expand_render by (done || lia).
    reflexivity.
Qed.

(** ** Reloading is restarting *)

(** The batch size of an exporter's configuration plays no part in exporting. *)
Definition same_exporter (a b : ExportConfig) : Prop :=
  ec_endpoint a = ec_endpoint b /\ ec_max_retries a = ec_max_retries b /\ ec_retry_delay_ms a = ec_retry_delay_ms b /\
  ec_timeout_secs a = ec_timeout_secs b /\ ec_auth_header a = ec_auth_header b /\ ec_format a = ec_format b.

Definition same_target (a b : string * option ExportConfig) : Prop :=
  a.1 = b.1 /\ match a.2, b.2 with
               | Some x, Some y => same_exporter x y
               | None, None => True
               | _, _ => False
               end.

Lemma same_target_flush tt a b batch backend text :
  same_target a b ->
  flush_batch_owned env encode_logs tt a batch backend text = flush_batch_owned env encode_logs tt b batch backend text.
Proof.
  destruct a as [ea [x|]], b as [eb [y|]]; intros [He Hx]; cbn [fst snd] in *; try done; subst eb.
  - destruct x, y. unfold same_exporter in Hx. cbn in Hx. destruct Hx as (-> & -> & -> & -> & -> & ->). done.
  - done.
Qed.

(** The metric worker's configuration after its start and a sequence of reloads. *)
Definition metric_reloads (ss : list AppSettings) (s0 : AppSettings)
    : outcome Empty_set (WorkerConfig (X := ExportConfig)) :=
  foldl (fun st s => cur <-- st ;; metric_reload env s cur)%rust (start_worker (metric_worker_config env s0)) ss.

(** The log worker's configuration and format after its start and a sequence of reloads. *)
Definition log_reloads (ss : list AppSettings) (s0 : AppSettings)
    : outcome Empty_set (WorkerConfig (X := string * option ExportConfig) * WireFormat) :=
  foldl (fun st s => st <-- st ;; cur <-- log_reload env s st.2 st.1 ;; Ok (cur, es_format (st_export s)))%rust
    (cur <-- start_worker (log_worker_config env s0) ;; Ok (cur, es_format (st_export s0)))%rust ss.

Definition log_equiv (a b : WorkerConfig (X := string * option ExportConfig)) : Prop :=
  same_target (wc_exporter a) (wc_exporter b) /\ wc_batch_size a = wc_batch_size b /\
  wc_flush_interval a = wc_flush_interval b.

Lemma log_equiv_refl a : log_equiv a a.
Proof. split; [|done]. split; [done|]. by destruct (wc_exporter a) as [e [x|]]. Qed.

Lemma remake_interval_spec new cur : cur <> 0 -> remake_interval new cur = make_interval new.
Proof.
  intros Hc. unfold remake_interval, make_interval. destruct (Z.eqb_spec new cur) as [->|]; [|done].
  by destruct (Z.eqb_spec cur 0).
Qed.

Lemma log_reload_equiv s s0 cur : wc_flush_interval cur <> 0 ->
  log_equiv cur (log_worker_config env s0) ->
  if es_flush_interval_ms (st_export s) =? 0
  then log_reload env s (es_format (st_export s0)) cur = Panic
  else exists cur', log_reload env s (es_format (st_export s0)) cur = Ok cur' /\
    log_equiv cur' (log_worker_config env s).
Proof.
  intros Hz [[He Hx] _]. unfold log_reload. destruct (wc_exporter cur) as [endpoint exporter]. cbn [fst snd] in *.
  rewrite remake_interval_spec by done. unfold make_interval.
  destruct (es_flush_interval_ms (st_export s) =? 0); cbn [outcome_bind]; [done|]. eexists. split; [done|].
  split; [|done]. split; [done|]. cbn [wc_exporter fst snd log_worker_config] in *. subst endpoint.
  assert (Hsame : forall ep n m f, match log_exporter env ep n f, log_exporter env ep m f with
    | Some x, Some y => same_exporter x y | None, None => True | _, _ => False end).
  { intros ep n m f. unfold log_exporter. by destruct (is_otlp_endpoint ep). }
  destruct (String.eqb_spec (log_endpoint env s) (log_endpoint env s0)) as [Hep|]; [|apply Hsame].
  destruct (decide (es_format (st_export s) = es_format (st_export s0))) as [Hf|Hf].
  - rewrite bool_decide_true by done. cbn [negb orb]. rewrite Hep, Hf.
    unfold log_exporter in *. by destruct (is_otlp_endpoint (log_endpoint env s0)).
  - rewrite bool_decide_false by done. cbn [negb orb]. apply Hsame.
Qed.

Lemma metric_reload_fresh s s0 : mc_export_flush_interval_ms (st_metrics s0) <> 0 ->
  metric_reload env s (metric_worker_config env s0) = start_worker (metric_worker_config env s).
Proof.
  intros Hz. unfold metric_reload. cbv zeta. cbn [wc_exporter wc_flush_interval metric_worker_config].
  rewrite remake_interval_spec by done. set (new := build_export_config env s). set (cfg := build_export_config env s0).
  assert (Hcfg : (if negb (String.eqb (ec_endpoint new) (ec_endpoint cfg)) ||
      negb (ec_max_retries new =? ec_max_retries cfg) || negb (ec_timeout_secs new =? ec_timeout_secs cfg) ||
      negb (bool_decide (ec_format new = ec_format cfg)) || negb (ec_batch_size new =? ec_batch_size cfg)
    then new else cfg) = new).
  { destruct (String.eqb_spec (ec_endpoint new) (ec_endpoint cfg)) as [H1|]; [|done].
    destruct (Z.eqb_spec (ec_max_retries new) (ec_max_retries cfg)) as [H2|]; [|done].
    destruct (Z.eqb_spec (ec_timeout_secs new) (ec_timeout_secs cfg)) as [H3|]; [|done].
    destruct (bool_decide_reflect (ec_format new = ec_format cfg)) as [H4|]; [|done].
    destruct (Z.eqb_spec (ec_batch_size new) (ec_batch_size cfg)) as [H5|]; [|done]. cbn [negb orb].
    unfold new, cfg, build_export_config in *. cbn in H1, H2, H3, H4, H5. by rewrite H1, H2, H3, H4, H5. }
  rewrite Hcfg. unfold start_worker, make_interval. cbn [wc_flush_interval metric_worker_config].
  by destruct (_ =? 0).
Qed.

(** Whether all settings of a sequence have an interval that can be made. *)
Definition all_tick (interval : AppSettings -> Z) (ss : list AppSettings) : bool :=
  forallb (fun s => negb (interval s =? 0)) ss.

Lemma metric_reloads_spec ss s0 :
  metric_reloads ss s0 =
    if all_tick (fun s => mc_export_flush_interval_ms (st_metrics s)) (s0 :: ss)
    then Ok (metric_worker_config env (List.last ss s0)) else Panic.
Proof.
  unfold metric_reloads. induction ss as [|s ss IH] using rev_ind.
  - unfold start_worker, make_interval. simpl. by destruct (_ =? 0).
  - rewrite foldl_app, last_last. cbn [foldl]. rewrite IH. unfold all_tick. rewrite app_comm_cons, forallb_app.
    assert (Hlast : In (List.last ss s0) (s0 :: ss)).
    { destruct ss as [|x ss]; [by left|]. right.
      destruct (@exists_last _ (x :: ss)) as (l & y & ->); [done|]. rewrite last_last. apply in_or_app. right. by left. }
    destruct (forallb _ (s0 :: ss)) eqn:Hf; [|done]. cbn [outcome_bind andb].
    rewrite forallb_forall in Hf. specialize (Hf _ Hlast). apply negb_true_iff, Z.eqb_neq in Hf.
    rewrite metric_reload_fresh by done. unfold start_worker, make_interval. simpl. by destruct (_ =? 0).
Qed.

Lemma log_reloads_spec ss s0 :
  if all_tick (fun s => es_flush_interval_ms (st_export s)) (s0 :: ss)
  then exists cur, log_reloads ss s0 = Ok (cur, es_format (st_export (List.last ss s0))) /\
    log_equiv cur (log_worker_config env (List.last ss s0)) /\ wc_flush_interval cur <> 0
  else log_reloads ss s0 = Panic.
Proof.
  unfold log_reloads, all_tick. induction ss as [|s ss IH] using rev_ind.
  - unfold start_worker, make_interval. simpl. destruct (Z.eqb_spec (es_flush_interval_ms (st_export s0)) 0); [done|].
    eexists. split_and!; [done|apply log_equiv_refl|done].
  - rewrite foldl_app, last_last. cbn [foldl]. rewrite app_comm_cons, forallb_app.
    replace (forallb _ [s]) with (negb (es_flush_interval_ms (st_export s) =? 0)) by (simpl; by rewrite andb_true_r).
    destruct (forallb _ (s0 :: ss)); cbn [andb]; [|by rewrite IH].
    destruct IH as (cur & -> & He & Hz). cbn [outcome_bind fst snd].
    pose proof (log_reload_equiv s _ cur Hz He) as Hr. destruct (Z.eqb_spec (es_flush_interval_ms (st_export s)) 0); cbn [negb].
    + by rewrite Hr.
    + destruct Hr as (cur' & -> & He'). exists cur'. split_and!; [done..|]. by rewrite (proj2 (proj2 He')).
Qed.

(** C14: Reloading is restarting. A worker that is started and then given any sequence of new configurations panics
    exactly when one of them, the first included, has a flush interval of zero. Otherwise the metric
    worker has exactly the configuration it would have been started with on the last, and
    the log worker one with the same batch size and interval whose batches
    are flushed in the same way: no setting of an earlier configuration
    survives, and none of the last is missed. *)
Theorem reload_is_restart ss s0 :
  metric_reloads ss s0 =
    (if forallb (fun s => negb (mc_export_flush_interval_ms (st_metrics s) =? 0)) (s0 :: ss)
     then Ok (metric_worker_config env (List.last ss s0)) else Panic) /\
  if forallb (fun s => negb (es_flush_interval_ms (st_export s) =? 0)) (s0 :: ss)
  then exists cur, log_reloads ss s0 = Ok (cur, es_format (st_export (List.last ss s0))) /\
    let fresh := log_worker_config env (List.last ss s0) in
    wc_batch_size cur = wc_batch_size fresh /\ wc_flush_interval cur = wc_flush_interval fresh /\
    forall tt batch backend text,
      flush_batch_owned env encode_logs tt (wc_exporter cur) batch backend text =
      flush_batch_owned env encode_logs tt (wc_exporter fresh) batch backend text
  else log_reloads ss s0 = Panic.
Proof.
  split; [apply metric_reloads_spec|]. pose proof (log_reloads_spec ss s0) as Hl. unfold all_tick in Hl.
  destruct (forallb _ (s0 :: ss)); [|done]. destruct Hl as (cur & Hc & [Ht [Hb Hi]] & _).
  exists cur. cbv zeta. split_and!; [done..|]. intros tt batch backend text. by apply same_target_flush.
Qed.

End Posted.

(** Metrics do not follow the environment's override of the log endpoint. *)
Lemma metrics_ignore_override env s ep :
  env "TCOTEL_EXPORT_ENDPOINT" = Some ep ->
  log_endpoint env s = ep /\ resolve_endpoint s = match mc_export_endpoint (st_metrics s) with
    Some e => e | None => metrics_endpoint (es_endpoint (st_export s)) end.
Proof. intros H. split; [|done]. unfold log_endpoint. by rewrite H. Qed.
