(* ===== verification/CycleTime.v ===== *)
(** * The cycle-time tracker (crates/tc-otel-service: cycle_time.rs)

    Cycle counters and times seen in log entries, per task, and the statistics
    over the last cycle times. The lock is held for one operation at a time.
    The difference of two [DateTime]s and the iteration order of the map are
    parameters. *)

From stdpp Require Import sorting.
From S2P Require Import Prelude.
From S2P Require Import Text.
From S2P Require Import External.
From S2P Require Import Float.

Section CycleTime.
Context `{Ext : External}.
(** [(a - b).num_microseconds()]. *)
Variable microseconds_since : DateTime -> DateTime -> option Z.

Record TaskCycleState := mkCycleState {
  ts_task_name : string;
  ts_last_cycle_counter : Z;
  ts_last_timestamp : DateTime;
  ts_cycle_times_us : list Z;
  ts_total_cycles : Z;
  ts_window_size : nat;
}.

Definition TaskCycleState_new (task_name : string) (cycle_counter : Z) (timestamp : DateTime)
    (window_size : nat) : TaskCycleState :=
  mkCycleState task_name cycle_counter timestamp [] 0 window_size.

(** [pop_front] when the window is full, then [push_back]. *)
Definition push_window (window_size : nat) (t : Z) (l : list Z) : list Z :=
  (if (window_size <=? length l)%nat then drop 1 l else l) ++ [t].

(** [TaskCycleState::record]. The casts between [u32], [f64] and [u64] keep the
    number of cycles. *)
Definition TaskCycleState_record (cycle_counter : Z) (timestamp : DateTime) (s : TaskCycleState)
    : TaskCycleState * option Z :=
  if cycle_counter <=? ts_last_cycle_counter s then (s, None)
  else
    let cycle_delta := cycle_counter - ts_last_cycle_counter s in
    let time_delta_us :=
      f64_of_Z (default 0 (microseconds_since timestamp (ts_last_timestamp s))) in
    if f64_le time_delta_us (f64_of_Z 0) then
      (mkCycleState (ts_task_name s) cycle_counter timestamp (ts_cycle_times_us s)
         (ts_total_cycles s) (ts_window_size s), None)
    else
      let cycle_time_us := f64_div time_delta_us (f64_of_Z cycle_delta) in
      (mkCycleState (ts_task_name s) cycle_counter timestamp
         (push_window (ts_window_size s) cycle_time_us (ts_cycle_times_us s))
         (wrap 64 (ts_total_cycles s + cycle_delta)) (ts_window_size s), Some cycle_time_us).

Record CycleTimeStats := mkStats {
  cs_task_name : string;
  cs_ams_net_id : string;
  cs_task_index : Z;
  cs_sample_count : nat;
  cs_total_cycles : Z;
  cs_min_us : Z;
  cs_max_us : Z;
  cs_avg_us : Z;
  cs_jitter_us : Z;
  cs_last_cycle_counter : Z;
}.

(** [iter().sum::<f64>()]. *)
Definition f64_sum (l : list Z) : Z := foldl f64_add (f64_of_Z 0) l.

(** [TaskCycleState::stats], with the index its callers fill in. *)
Definition TaskCycleState_stats (ams_net_id : string) (task_index : Z) (s : TaskCycleState)
    : option CycleTimeStats :=
  let l := ts_cycle_times_us s in
  match l with
  | [] => None
  | _ =>
    let n := f64_of_Z (Z.of_nat (length l)) in
    let avg := f64_div (f64_sum l) n in
    let square t := f64_mul (f64_sub t avg) (f64_sub t avg) in
    Some (mkStats (ts_task_name s) ams_net_id task_index (length l) (ts_total_cycles s)
            (foldl f64_min f64_infinity l) (foldl f64_max f64_neg_infinity l) avg
            (f64_sqrt (f64_div (f64_sum (map square l)) n)) (ts_last_cycle_counter s))
  end.

(** ** The tracker *)

(** Tasks by Net ID and index. *)
Record CycleTimeTracker := mkTracker {
  ct_tasks : gmap (string * Z) TaskCycleState;
  ct_window_size : nat;
}.

Definition CycleTimeTracker_new (window_size : nat) : CycleTimeTracker := mkTracker ∅ window_size.

(** The name is updated when a new one is known. *)
Definition rename_task (task_name : string) (s : TaskCycleState) : TaskCycleState :=
  if negb (String.eqb (ts_task_name s) task_name) && negb (String.eqb task_name "")
  then mkCycleState task_name (ts_last_cycle_counter s) (ts_last_timestamp s) (ts_cycle_times_us s)
         (ts_total_cycles s) (ts_window_size s)
  else s.

Definition CycleTimeTracker_record (ams_net_id : string) (task_index : Z) (task_name : string)
    (cycle_counter : Z) (timestamp : DateTime) (t : CycleTimeTracker) : CycleTimeTracker :=
  let key := (ams_net_id, task_index) in
  let state := default (TaskCycleState_new task_name cycle_counter timestamp (ct_window_size t))
                 (ct_tasks t !! key) in
  mkTracker (<[key := (TaskCycleState_record cycle_counter timestamp (rename_task task_name state)).1]> (ct_tasks t))
    (ct_window_size t).

Definition task_stats (ams_net_id : string) (task_index : Z) (t : CycleTimeTracker)
    : option CycleTimeStats :=
  ct_tasks t !! (ams_net_id, task_index) ≫= TaskCycleState_stats ams_net_id task_index.

Definition task_count (t : CycleTimeTracker) : nat := size (ct_tasks t).

(** The order of the result: by Net ID, then by index. *)
Definition stats_le (a b : CycleTimeStats) : Prop :=
  String.compare (cs_ams_net_id a) (cs_ams_net_id b) = Lt \/
  (cs_ams_net_id a = cs_ams_net_id b /\ cs_task_index a <= cs_task_index b).

#[local] Instance stats_le_dec : RelDecision stats_le.
Proof. intros a b. unfold stats_le. apply _. Defined.

Variable iter : gmap (string * Z) TaskCycleState -> list ((string * Z) * TaskCycleState).

Definition all_stats (t : CycleTimeTracker) : list CycleTimeStats :=
  merge_sort stats_le (omap (fun kv => TaskCycleState_stats kv.1.1 kv.1.2 kv.2) (iter (ct_tasks t))).

(** ** What the window holds *)

(** Reference: the cycle times that a sequence of observations yields. *)
Fixpoint cycle_times (counter : Z) (timestamp : DateTime) (l : list (Z * DateTime)) : list Z :=
  match l with
  | [] => []
  | (c, ts) :: l =>
    if c <=? counter then cycle_times counter timestamp l
    else
      let d := f64_of_Z (default 0 (microseconds_since ts timestamp)) in
      if f64_le d (f64_of_Z 0) then cycle_times c ts l
      else f64_div d (f64_of_Z (c - counter)) :: cycle_times c ts l
  end.

Definition last_n {A} (n : nat) (l : list A) : list A := drop (length l - n) l.

Lemma push_window_last_n w t l :
  push_window w t (last_n (Nat.max 1 w) l) = last_n (Nat.max 1 w) (l ++ [t]).
Proof.
  unfold push_window, last_n. rewrite length_drop, length_app. simpl.
  destruct (Nat.leb_spec w (length l - (length l - Nat.max 1 w))) as [Hfull|Hroom].
  - rewrite drop_drop, drop_app_le by lia.
    destruct (decide (length l < Nat.max 1 w)%nat) as [Hshort|Hlong].
    + assert (w = 0 /\ l = [])%nat as [-> ->] by (destruct l; simpl in *; split; auto; lia).
      reflexivity.
    + f_equal. f_equal. lia.
  - rewrite drop_app_le by lia. f_equal. f_equal. lia.
Qed.

(** What one observation does to the window. *)
Lemma record_window (c : Z) (ts : DateTime) (s : TaskCycleState) (l : list Z) :
  ts_cycle_times_us s = last_n (Nat.max 1 (ts_window_size s)) l ->
  let s' := (TaskCycleState_record c ts s).1 in
  ts_window_size s' = ts_window_size s /\
  exists m, ts_cycle_times_us s' = last_n (Nat.max 1 (ts_window_size s)) (l ++ m) /\
    forall rest,
      cycle_times (ts_last_cycle_counter s) (ts_last_timestamp s) ((c, ts) :: rest) =
        m ++ cycle_times (ts_last_cycle_counter s') (ts_last_timestamp s') rest.
Proof.
  intros Hl. unfold TaskCycleState_record. cbn [cycle_times].
  destruct (c <=? ts_last_cycle_counter s).
  - split; [done|]. exists []. rewrite app_nil_r. auto.
  - case_match; (split; [done|]); simpl.
    + exists []. rewrite app_nil_r. auto.
    + eexists [_]. rewrite Hl, push_window_last_n. split; [reflexivity|]. auto.
Qed.

(** One log entry's observation: source, task index, task name, counter, time. *)
Definition observation : Type := string * Z * string * Z * DateTime.
Definition obs_key (o : observation) : string * Z := (o.1.1.1.1, o.1.1.1.2).
Definition obs_point (o : observation) : Z * DateTime := (o.1.2, o.2).

Definition observe (t : CycleTimeTracker) (o : observation) : CycleTimeTracker :=
  CycleTimeTracker_record o.1.1.1.1 o.1.1.1.2 o.1.1.2 o.1.2 o.2 t.

(** The points of one task, in order of arrival. *)
Definition task_points (k : string * Z) (obs : list observation) : list (Z * DateTime) :=
  map obs_point (filter (fun o => obs_key o = k) obs).

(** The cycle times of one task, from its first point on. *)
Definition reference_times (points : list (Z * DateTime)) : list Z :=
  match points with
  | [] => []
  | (c, ts) :: rest => cycle_times c ts rest
  end.

(** The tracker's state of one task, after its points [points]. *)
Definition tracks (w : nat) (points : list (Z * DateTime)) (s : option TaskCycleState) : Prop :=
  match s with
  | None => points = []
  | Some s =>
    points <> [] /\ ts_window_size s = w /\
    exists l, ts_cycle_times_us s = last_n (Nat.max 1 w) l /\
      forall rest, reference_times (points ++ rest) =
        l ++ cycle_times (ts_last_cycle_counter s) (ts_last_timestamp s) rest
  end.

Lemma rename_task_keeps name s :
  let s' := rename_task name s in
  ts_window_size s' = ts_window_size s /\ ts_cycle_times_us s' = ts_cycle_times_us s /\
  ts_last_cycle_counter s' = ts_last_cycle_counter s /\ ts_last_timestamp s' = ts_last_timestamp s.
Proof. unfold rename_task. case_match; auto. Qed.

(** The state a point is recorded in: the task's own, or a fresh one. *)
Lemma tracks_entry w points s (c : Z) (ts : DateTime) name :
  tracks w points s ->
  let s0 := default (TaskCycleState_new name c ts w) s in
  ts_window_size s0 = w /\
  exists l, ts_cycle_times_us s0 = last_n (Nat.max 1 w) l /\
    forall rest, reference_times (points ++ (c, ts) :: rest) =
      l ++ cycle_times (ts_last_cycle_counter s0) (ts_last_timestamp s0) ((c, ts) :: rest).
Proof.
  destruct s as [s|]; simpl.
  - intros (_ & Hw & l & Hl & Href). split; [done|]. exists l. split; [done|].
    intros rest. exact (Href _).
  - intros ->. split; [done|]. exists []. split; [done|]. intros rest. simpl.
    rewrite (proj2 (Z.leb_le c c)) by lia. done.
Qed.

Lemma tracks_record w points s (c : Z) (ts : DateTime) name :
  tracks w points s ->
  tracks w (points ++ [(c, ts)])
    (Some (TaskCycleState_record c ts
       (rename_task name (default (TaskCycleState_new name c ts w) s))).1).
Proof.
  intros (Hw & l & Hl & Href)%(tracks_entry w points s c ts name).
  set (s0 := default (TaskCycleState_new name c ts w) s) in *.
  destruct (rename_task_keeps name s0) as (Ew & Et & Ec & Es).
  destruct (record_window c ts (rename_task name s0) l) as (Hsize & m & Hm & Hstep);
    [by rewrite Et, Ew, Hw|].
  rewrite Ew, Hw, ?Ec, ?Es in *.
  split_and!; [by destruct points|done|]. exists (l ++ m). split; [done|]. intros rest.
  rewrite <- app_assoc. simpl. rewrite Href, Hstep, app_assoc. done.
Qed.

Lemma task_points_snoc k obs o :
  task_points k (obs ++ [o]) =
    task_points k obs ++ (if decide (obs_key o = k) then [obs_point o] else []).
Proof. unfold task_points. rewrite filter_app, map_app, filter_cons. by case_decide. Qed.

Lemma tracker_tracks w obs k :
  let t := foldl observe (CycleTimeTracker_new w) obs in
  ct_window_size t = w /\ tracks w (task_points k obs) (ct_tasks t !! k).
Proof.
  induction obs as [|o obs [Hw IH]] using rev_ind; [by split|]. simpl.
  rewrite foldl_app, task_points_snoc. simpl.
  set (t := foldl observe (CycleTimeTracker_new w) obs) in *.
  split; [done|]. unfold observe, CycleTimeTracker_record. simpl. rewrite Hw.
  change (o.1.1.1.1, o.1.1.1.2) with (obs_key o).
  case_decide as Hk.
  - subst k. rewrite lookup_insert_eq. by apply tracks_record.
  - rewrite lookup_insert_ne by done. by rewrite app_nil_r.
Qed.

Lemma tracker_window_eq (w : nat) (obs : list observation) (k : string * Z) :
  let t := foldl observe (CycleTimeTracker_new w) obs in
  match ct_tasks t !! k with
  | None => task_points k obs = []
  | Some s =>
    task_points k obs <> [] /\
    ts_cycle_times_us s = last_n (Nat.max 1 w) (reference_times (task_points k obs))
  end.
Proof.
  destruct (tracker_tracks w obs k) as [_ H]. simpl. unfold tracks in H.
  case_match; [|done].
  destruct H as (Hne & _ & l & Hl & Href). split; [done|].
  specialize (Href []). simpl in Href. rewrite !app_nil_r in Href. by rewrite Hl, Href.
Qed.

(** The rolling window of a task is what the documentation says, whatever
    else is recorded in between: after any sequence of observations of any
    tasks, the tracker knows exactly the tasks that were observed, and the
    window of a task holds the last [max 1 window_size] of the cycle times that
    its own observations yield - the time between two observations divided by
    the cycles between them, where the counter and the clock have advanced. *)
Theorem tracker_window (w : nat) (obs : list observation) (k : string * Z) :
  let t := foldl observe (CycleTimeTracker_new w) obs in
  match ct_tasks t !! k with
  | None => task_points k obs = []
  | Some s =>
    task_points k obs <> [] /\
    ts_cycle_times_us s = last_n (Nat.max 1 w) (reference_times (task_points k obs))
  end.
Proof. apply tracker_window_eq. Qed.

(** The statistics of a task: there are some exactly when a cycle time was
    recorded, over at most [max 1 window_size] of them. *)
Theorem task_stats_window (w : nat) (obs : list observation) (net : string) (index : Z) :
  let l := reference_times (task_points (net, index) obs) in
  let t := foldl observe (CycleTimeTracker_new w) obs in
  fmap cs_sample_count (task_stats net index t) =
    if decide (l = []) then None else Some (Nat.min (Nat.max 1 w) (length l)).
Proof.
  simpl. pose proof (tracker_window_eq w obs (net, index)) as H. simpl in H.
  unfold task_stats. destruct (ct_tasks _ !! _) as [s|]; simpl.
  - destruct H as [_ H]. unfold TaskCycleState_stats.
    assert (length (ts_cycle_times_us s) =
      Nat.min (Nat.max 1 w) (length (reference_times (task_points (net, index) obs)))) as Hlen
      by (rewrite H; unfold last_n; rewrite length_drop; lia).
    case_decide as Hnil.
    + rewrite Hnil in Hlen. destruct (ts_cycle_times_us s); simpl in *; [done|lia].
    + destruct (reference_times _) eqn:E; [done|]. destruct (ts_cycle_times_us s) eqn:E';
        simpl in *; [lia|]. by rewrite <- Hlen.
  - rewrite H. done.
Qed.

(** When the counter falls back - it wraps after [u32::MAX], and a restarted
    PLC counts from 0 again - the state is not reset: until the counter has
    passed its old value, nothing is recorded. *)
Theorem counter_restart_freezes (s : TaskCycleState) (points : list (Z * DateTime)) :
  Forall (fun p => p.1 <= ts_last_cycle_counter s) points ->
  foldl (fun s p => (TaskCycleState_record p.1 p.2 s).1) s points = s.
Proof.
  induction 1 as [|[c ts] points Hc _ IH]; [done|]. cbn [foldl fst snd].
  assert ((TaskCycleState_record c ts s).1 = s) as E; [|by rewrite E].
  unfold TaskCycleState_record. simpl in Hc. by rewrite (proj2 (Z.leb_le _ _) Hc).
Qed.

End CycleTime.
