(* ===== verification/Health.v ===== *)
(** * Self-monitoring (crates/tc-otel-ads: health_metrics.rs,
      mqtt_health_metrics.rs; crates/tc-otel-service: system_metrics.rs)

    The collectors that turn the state of the connection manager, of the MQTT
    transport and of the cycle-time tracker into metric entries. [now] is what the
    clock reads during a collection and [local] the address of this host. *)

From stdpp Require Import sorting.
From Stdlib Require Import Ascii SpecFloat.
From S2P Require Import Prelude.
From S2P Require Import Text.
From S2P Require Import External.
From S2P Require Import Float.
From S2P Require Import Net.
From S2P Require Import Models.
From S2P Require Import Bridge.
From S2P Require Import ConnectionManager.
From S2P Require Import CycleTime.

Section Health.
Context `{Ext : External}.
Variable local : string.
Variable now : DateTime.

(** The fields every collector sets. *)
Definition health_entry (service_name description uom : string) (m : MetricEntry) : MetricEntry :=
  me_set description uom (me_timestamp m) local (me_ams_net_id m) (me_ams_source_port m) (me_ams_app_port m)
    (me_task_index m) (me_task_name m) (me_app_name m) service_name (me_scope_namespace m) (me_attributes m)
    (me_trace_id m) (me_span_id m) m.

Definition health_gauge (service_name name description uom : string) (value : Z) : MetricEntry :=
  health_entry service_name description uom (MetricEntry_gauge now name value).

Definition health_counter (service_name name description uom : string) (value : Z) : MetricEntry :=
  health_entry service_name description uom (MetricEntry_sum now name value true).

(** ** Connections *)

Section AdsHealth.
Context `{SO : SemaphoreOps}.

(** [AdsHealthCollector::collect]. *)
Definition AdsHealthCollector_collect (service_name : string) (m : ConnectionManager) : list MetricEntry :=
  let active := f64_of_Z (active_connections m) in
  let max := f64_of_Z (Z.of_nat (cc_max_connections (cm_config m))) in
  let accepted := f64_of_Z (cm_total_accepted m) in
  let rejected := f64_of_Z (cm_total_rejected m) in
  let connected_ips := f64_of_Z (Z.of_nat (length (connected_ips m))) in
  let shutting_down := if cm_shutting_down m then f64_of_Z 1 else f64_of_Z 0 in
  let utilization := if f64_lt (f64_of_Z 0) max then f64_div active max else f64_of_Z 0 in
  let gauge := health_gauge service_name in
  let counter := health_counter service_name in
  [gauge "ads.connections.active" "Number of currently active ADS connections" "{connections}" active;
   counter "ads.connections.accepted" "Total ADS connections accepted since startup" "{connections}" accepted;
   counter "ads.connections.rejected" "Total ADS connections rejected since startup" "{connections}" rejected;
   gauge "ads.connections.limit" "Configured maximum concurrent ADS connections" "{connections}" max;
   gauge "ads.connections.utilization" "Ratio of active connections to configured limit" "1" utilization;
   gauge "ads.connected_ips" "Number of unique IP addresses with active connections" "{addresses}" connected_ips;
   gauge "ads.shutdown" "Whether the ADS service is in shutdown state" "1" shutting_down].

End AdsHealth.

(** ** The MQTT transport *)

Record MqttHealthCollector := mkMqttHealth {
  mh_connected : bool;
  mh_reconnect_count : Z;
  mh_publish_error_count : Z;
  mh_incoming_frame_count : Z;
  mh_subscribe_latency_ms : option Z;
  mh_service_name : string;
}.

Definition MqttHealthCollector_new (service_name : string) : MqttHealthCollector :=
  mkMqttHealth false 0 0 0 None service_name.

Definition set_connected (b : bool) (c : MqttHealthCollector) : MqttHealthCollector :=
  mkMqttHealth b (mh_reconnect_count c) (mh_publish_error_count c) (mh_incoming_frame_count c)
    (mh_subscribe_latency_ms c) (mh_service_name c).
Definition record_connected (c : MqttHealthCollector) : MqttHealthCollector := set_connected true c.
Definition record_disconnected (c : MqttHealthCollector) : MqttHealthCollector := set_connected false c.
Definition record_reconnect (c : MqttHealthCollector) : MqttHealthCollector :=
  mkMqttHealth (mh_connected c) (wrap 64 (mh_reconnect_count c + 1)) (mh_publish_error_count c)
    (mh_incoming_frame_count c) (mh_subscribe_latency_ms c) (mh_service_name c).
Definition record_publish_error (c : MqttHealthCollector) : MqttHealthCollector :=
  mkMqttHealth (mh_connected c) (mh_reconnect_count c) (wrap 64 (mh_publish_error_count c + 1))
    (mh_incoming_frame_count c) (mh_subscribe_latency_ms c) (mh_service_name c).
Definition record_incoming_frame (c : MqttHealthCollector) : MqttHealthCollector :=
  mkMqttHealth (mh_connected c) (mh_reconnect_count c) (mh_publish_error_count c)
    (wrap 64 (mh_incoming_frame_count c + 1)) (mh_subscribe_latency_ms c) (mh_service_name c).
Definition record_subscribe_latency_ms (latency_ms : Z) (c : MqttHealthCollector) : MqttHealthCollector :=
  match mh_subscribe_latency_ms c with
  | Some _ => c
  | None => mkMqttHealth (mh_connected c) (mh_reconnect_count c) (mh_publish_error_count c)
              (mh_incoming_frame_count c) (Some latency_ms) (mh_service_name c)
  end.

(** The loop of [histogram] over the bounds: the index of the bucket. *)
Fixpoint bucket_loop (value : Z) (i bucket_idx : nat) (bounds : list Z) : nat :=
  match bounds with
  | [] => bucket_idx
  | bound :: bounds => if f64_lt value bound then i else bucket_loop value (S i) (S i) bounds
  end.

(** [MqttHealthCollector::histogram]: one observation. An index outside the counts
    would panic. *)
Definition health_histogram (service_name name description uom : string) (bounds : list Z) (value : Z)
    : outcome unit MetricEntry :=
  let counts := repeat 0 (length bounds + 1) in
  let bucket_idx := bucket_loop value 0 0 bounds in
  if (bucket_idx <? length counts)%nat
  then Ok (health_entry service_name description uom
             (MetricEntry_histogram now name bounds (<[bucket_idx := 1]> counts) 1 value))
  else Panic.

(** 0.001, 0.005, 0.01, 0.05, 0.1, 0.5 and 1.0. *)
Definition LATENCY_BOUNDS : list Z :=
  [4562254508917369340; 4572414629676717179; 4576918229304087675; 4587366580439587226; 4591870180066957722;
   4602678819172646912; 4607182418800017408].

(** [MqttHealthCollector::collect]. *)
Definition MqttHealthCollector_collect (c : MqttHealthCollector) : outcome unit (list MetricEntry) :=
  let gauge := health_gauge (mh_service_name c) in
  let counter := health_counter (mh_service_name c) in
  let metrics :=
    [gauge "ads_mqtt_broker_connected" "Whether the MQTT broker connection is active (0 or 1)" "1"
       (if mh_connected c then f64_of_Z 1 else f64_of_Z 0);
     counter "ads_mqtt_reconnect_total" "Total MQTT reconnection attempts since startup" "{attempts}"
       (f64_of_Z (mh_reconnect_count c));
     counter "ads_mqtt_publish_errors_total" "Total MQTT publish errors since startup" "{errors}"
       (f64_of_Z (mh_publish_error_count c));
     counter "ads_mqtt_incoming_frames_total" "Total MQTT incoming frames received since startup" "{frames}"
       (f64_of_Z (mh_incoming_frame_count c))] in
  match mh_subscribe_latency_ms c with
  | None => Ok metrics
  | Some latency_ms =>
    (h <-- health_histogram (mh_service_name c) "ads_mqtt_subscribe_latency_seconds"
             "Time elapsed until first successful MQTT subscribe" "s" LATENCY_BOUNDS
             (f64_div (f64_of_Z latency_ms) (f64_of_Z 1000)) ;;
     Ok (metrics ++ [h]))%rust
  end.

(** ** PLC tasks and the process *)

(** The attributes and identity of a task on an entry. *)
Definition for_task (s : CycleTimeStats) (m : MetricEntry) : MetricEntry :=
  me_set (me_description m) (me_unit m) (me_timestamp m) (me_source m) (cs_ams_net_id s) (me_ams_source_port m)
    (me_ams_app_port m) (cs_task_index s) (cs_task_name s) (me_app_name m) (me_project_name m) (me_scope_namespace m)
    (<["plc.ams_net_id" := VString (cs_ams_net_id s)]>
       (<["task.index" := json_int (cs_task_index s)]> {["task.name" := VString (cs_task_name s)]}))
    (me_trace_id m) (me_span_id m) m.

Definition load_ratio (s : CycleTimeStats) : Z :=
  if f64_lt (f64_of_Z 0) (cs_avg_us s) then f64_min (f64_div (cs_jitter_us s) (cs_avg_us s)) (f64_of_Z 1)
  else f64_of_Z 0.

(** The entries of one task. *)
Definition task_entries (service_name : string) (s : CycleTimeStats) : list MetricEntry :=
  let gauge name description uom value := for_task s (health_gauge service_name name description uom value) in
  [gauge "plc.task.cycle_time.avg" "Average PLC task cycle time" "us" (cs_avg_us s);
   gauge "plc.task.cycle_time.max" "Maximum observed PLC task cycle time" "us" (cs_max_us s);
   gauge "plc.task.cycle_time.jitter" "PLC task cycle time jitter (standard deviation)" "us" (cs_jitter_us s);
   gauge "plc.cpu.estimated_load" "Estimated PLC task CPU load from cycle time jitter ratio (0.0-1.0)" "1" (load_ratio s)].

(** [str::split_whitespace] of an ASCII text. *)
Definition is_space (a : ascii) : bool := (in_range 9 13 (Some (byte_of_ascii a)) || (byte_of_ascii a =? 32)).
Fixpoint fields (s : string) : list string :=
  match s with
  | EmptyString => [""]
  | String a s =>
    match fields s with
    | [] => []
    | p :: ps => if is_space a then "" :: p :: ps else String a p :: ps
    end
  end.
Definition split_whitespace (s : string) : list string := List.filter (fun p => negb (String.eqb p "")) (fields s).

(** [process_rss_bytes], of the content of /proc/self/statm. *)
Definition process_rss_bytes (statm : option string) : option Z :=
  statm ← statm;
  field ← split_whitespace statm !! 1%nat;
  rss_pages ← parse_uint (2 ^ 64 - 1) field;
  Some (wrap 64 (rss_pages * 4096)).

(** [PlcSystemMetricsCollector::collect] on the statistics of all tasks. *)
Definition PlcSystemMetricsCollector_collect (service_name : string) (statm : option string) (all_stats : list CycleTimeStats)
    : list MetricEntry :=
  let total_cycles := foldl (fun acc s => wrap 64 (acc + cs_total_cycles s)) 0 all_stats in
  [health_gauge service_name "plc.tasks.count" "Number of active PLC tasks with cycle time data" "{tasks}"
     (f64_of_Z (Z.of_nat (length all_stats)));
   health_counter service_name "plc.tasks.total_cycles" "Cumulative PLC task cycles observed across all tasks" "{cycles}"
     (f64_of_Z total_cycles)] ++
  concat (map (task_entries service_name) all_stats) ++
  match process_rss_bytes statm with
  | Some rss => [health_gauge service_name "service.memory.rss" "tc-otel service resident set size (RSS) in bytes" "By" (f64_of_Z rss)]
  | None => []
  end.

End Health.

(** ** Every connection attempt is counted once *)

Definition was_accepted (x : IpAddr * phase) : bool :=
  match x.2 with Connected | Closing | Uncounted | Closed => true | _ => false end.
Definition was_rejected (x : IpAddr * phase) : bool := match x.2 with Rejected _ => true | _ => false end.

Section Accounting.
Context `{SO : SemaphoreOps}.

Lemma check_limits_totals now ip m m' res : check_limits now ip m = (m', res) ->
  cm_total_accepted m' = cm_total_accepted m /\ cm_total_rejected m' = cm_total_rejected m.
Proof. unfold check_limits. intros H. repeat case_match; by simplify_eq. Qed.

Lemma release_ip_totals ip m :
  cm_total_accepted (release_ip ip m) = cm_total_accepted m /\ cm_total_rejected (release_ip ip m) = cm_total_rejected m.
Proof. unfold release_ip. by repeat case_match. Qed.

Lemma act_totals now ip ph m m' ph' : act now ip ph m = (m', ph') ->
  (was_accepted (ip, ph') = was_accepted (ip, ph) /\ cm_total_accepted m' = cm_total_accepted m \/
   was_accepted (ip, ph') = true /\ was_accepted (ip, ph) = false /\ cm_total_accepted m' = wrap 64 (cm_total_accepted m + 1)) /\
  (was_rejected (ip, ph') = was_rejected (ip, ph) /\ cm_total_rejected m' = cm_total_rejected m \/
   was_rejected (ip, ph') = true /\ was_rejected (ip, ph) = false /\ cm_total_rejected m' = wrap 64 (cm_total_rejected m + 1)).
Proof.
  unfold act. intros H. destruct (release_ip_totals ip m) as [Ha Hr].
  destruct ph; repeat case_match; simplify_eq;
    try match goal with H : check_limits _ _ _ = _ |- _ => apply check_limits_totals in H as [-> ->] end;
    (split; first [by left; split|by right; split_and!]).
Qed.

(** The counters hold the numbers of connections that were accepted and refused,
    as far as 64 bits go. *)
Definition accounts (s : System) : Prop :=
  cm_total_accepted (sys_mgr s) = wrap 64 (Z.of_nat (count_threads was_accepted (sys_threads s))) /\
  cm_total_rejected (sys_mgr s) = wrap 64 (Z.of_nat (count_threads was_rejected (sys_threads s))).

Lemma wrap_succ n : wrap 64 (wrap 64 (Z.of_nat n) + 1) = wrap 64 (Z.of_nat (S n)).
Proof. unfold wrap. rewrite Zplus_mod_idemp_l. f_equal. lia. Qed.

Lemma accounts_step s s' : accounts s -> sys_step s s' -> accounts s'.
Proof.
  intros [Ha Hr] Hs. inversion Hs as [? t ip Ht|? t ip ph m' ph' Ht Hact| |]; subst; unfold accounts; simpl; try done.
  - by rewrite !count_insert_new.
  - pose proof (count_update was_accepted _ t (ip, ph') (ip, ph) Ht) as Hca.
    pose proof (count_update was_rejected _ t (ip, ph') (ip, ph) Ht) as Hcr.
    apply act_totals in Hact as [Ha' Hr']. split.
    + destruct Ha' as [[He ->]|(He & He' & ->)]; rewrite Ha, ?wrap_succ; do 2 f_equal; rewrite He, ?He' in Hca; simpl in Hca; lia.
    + destruct Hr' as [[He ->]|(He & He' & ->)]; rewrite Hr, ?wrap_succ; do 2 f_equal; rewrite He, ?He' in Hcr; simpl in Hcr; lia.
Qed.

Lemma accounts_reachable config t0 s : rtc sys_step (sys_init config t0) s -> accounts s.
Proof.
  intros Hr. assert (Hi : accounts (sys_init config t0)) by (split; simpl; by rewrite count_empty).
  induction Hr; eauto using accounts_step.
Qed.

Context `{!SemaphoreLaws SO} `{Ext : External}.

(** The addresses that are reported as connected. *)
Lemma connected_ips_spec (m : ConnectionManager) :
  NoDup (connected_ips m).*1 /\ forall ip, ip ∈ (connected_ips m).*1 <-> (0 < connections_for_ip ip m)%nat.
Proof.
  unfold connected_ips, connections_for_ip.
  change (fun kv : IpAddr * IpState => (kv.1, is_active kv.2)) with (prod_map (@id IpAddr) is_active).
  assert (Hfst : (prod_map id is_active <$> List.filter (fun kv : IpAddr * IpState => (0 <? is_active kv.2)%nat)
                   (map_to_list (cm_ip_states m))).*1 =
                 (List.filter (fun kv : IpAddr * IpState => (0 <? is_active kv.2)%nat) (map_to_list (cm_ip_states m))).*1).
  { by rewrite <- list_fmap_compose. }
  change (map (prod_map id is_active)) with (fmap (M := list) (prod_map (@id IpAddr) is_active)). rewrite Hfst. split.
  - pose proof (NoDup_fst_map_to_list (cm_ip_states m)) as Hn.
    clear Hfst. induction (map_to_list (cm_ip_states m)) as [|x l IH]; [constructor|]. simpl in Hn. apply NoDup_cons in Hn as [Hx Hn].
    simpl. destruct (0 <? is_active x.2)%nat; [|by apply IH]. constructor; [|by apply IH].
    intros Hin. apply Hx. apply list_elem_of_fmap in Hin as (y & -> & Hy). apply list_elem_of_fmap. exists y.
    split; [done|]. apply list_elem_of_In, filter_In in Hy as [Hy _]. by apply list_elem_of_In.
  - intros ip. rewrite list_elem_of_fmap. split.
    + intros ([ip' st] & -> & Hin). apply list_elem_of_In, filter_In in Hin as [Hin Hp].
      apply list_elem_of_In, elem_of_map_to_list in Hin. simpl. rewrite Hin. simpl. by apply Nat.ltb_lt in Hp.
    + destruct (cm_ip_states m !! ip) as [st|] eqn:Hst; simpl; [|lia]. intros Hp. exists (ip, st). split; [done|].
      apply list_elem_of_In, filter_In. split; [by apply list_elem_of_In, elem_of_map_to_list|by apply Nat.ltb_lt].
Qed.

Lemma count_pos P (ts : gmap nat (IpAddr * phase)) :
  (0 < count_threads P ts)%nat <-> exists t x, ts !! t = Some x /\ P x = true.
Proof.
  unfold count_threads. split.
  - intros Hp. apply Nat.neq_0_lt_0, map_size_ne_0_lookup in Hp as (t & x & Hx). apply map_lookup_filter_Some in Hx. eauto.
  - intros (t & x & Hx & HP). apply Nat.neq_0_lt_0, map_size_ne_0_lookup. exists t, x. by apply map_lookup_filter_Some.
Qed.

Lemma ips_le_threads (ips : list IpAddr) (ts : gmap nat (IpAddr * phase)) :
  NoDup ips -> (forall ip, ip ∈ ips -> exists t x, ts !! t = Some x /\ recorded ip x = true) -> (length ips <= size ts)%nat.
Proof.
  intros Hnd Hin. assert (Hsub : ips ⊆+ (map_to_list ts).*2.*1).
  { apply NoDup_submseteq; [done|]. intros ip Hip. destruct (Hin ip Hip) as (t & [ip' ph] & Ht & Hrec).
    apply andb_prop in Hrec as [Hrec _]. apply bool_decide_eq_true in Hrec. simpl in Hrec. subst ip'.
    rewrite <- list_fmap_compose. apply list_elem_of_fmap. exists (t, (ip, ph)). split; [done|]. by apply elem_of_map_to_list. }
  apply submseteq_length in Hsub. rewrite !length_fmap, length_map_to_list in Hsub. done.
Qed.

(** The health metrics tell the truth: in every interleaving, a collection reports, read back exactly,
    the number of connections that are counted as active, the configured maximum, how many
    connections were ever accepted and how many refused, each counted once, and the number of
    distinct addresses with a recorded connection; as long as the counts are below 2^53. *)
Theorem health_accounts config (local : string) (now : DateTime) (service : string) t0 s :
  Z.of_nat (cc_max_connections config) < 2 ^ 53 -> Z.of_nat (size (sys_threads s)) < 2 ^ 53 ->
  rtc sys_step (sys_init config t0) s ->
  exists utilization (ips : list IpAddr),
    map (fun m => f64_to_Z (me_value m)) (AdsHealthCollector_collect local now service (sys_mgr s)) =
    [Some (Z.of_nat (count_threads counted (sys_threads s)));
     Some (Z.of_nat (count_threads was_accepted (sys_threads s)));
     Some (Z.of_nat (count_threads was_rejected (sys_threads s)));
     Some (Z.of_nat (cc_max_connections config)); utilization; Some (Z.of_nat (length ips));
     Some (if cm_shutting_down (sys_mgr s) then 1 else 0)] /\
    NoDup ips /\ forall ip, ip ∈ ips <-> exists t x, sys_threads s !! t = Some x /\ recorded ip x = true.
Proof using SemaphoreLaws0.
  intros Hmax Hsize Hr. destruct (accounts_reachable _ _ _ Hr) as [Ha Hrj].
  apply sys_inv_reachable in Hr as Hi; [|lia].
  assert (Hcount : forall P, Z.of_nat (count_threads P (sys_threads s)) < 2 ^ 53).
  { intros P. unfold count_threads. pose proof (map_size_filter (fun kv => P kv.2 = true) (sys_threads s)). lia. }
  assert (Hexact : forall P, f64_to_Z (f64_of_Z (Z.of_nat (count_threads P (sys_threads s)))) =
    Some (Z.of_nat (count_threads P (sys_threads s)))) by (intros P; apply f64_of_Z_exact; specialize (Hcount P); lia).
  destruct (connected_ips_spec (sys_mgr s)) as [Hnd Hin].
  assert (Hips : forall ip, ip ∈ (connected_ips (sys_mgr s)).*1 <-> exists t x, sys_threads s !! t = Some x /\ recorded ip x = true).
  { intros ip. by rewrite Hin, (inv_ip _ _ Hi ip), count_pos. }
  pose proof (ips_le_threads _ _ Hnd (fun ip => proj1 (Hips ip))) as Hle.
  eexists _, (connected_ips (sys_mgr s)).*1. split.
  - unfold AdsHealthCollector_collect, active_connections. cbn [map].
    unfold health_gauge, health_counter, health_entry, me_set. cbn [me_value MetricEntry_gauge MetricEntry_sum].
    rewrite (inv_active _ _ Hi), (inv_config _ _ Hi), Ha, Hrj, length_fmap.
    unfold wrap. pose proof (Hcount was_accepted). pose proof (Hcount was_rejected). rewrite !Z.mod_small by lia.
    rewrite !Hexact, (f64_of_Z_exact (Z.of_nat (cc_max_connections config))) by lia.
    rewrite (f64_of_Z_exact (Z.of_nat (length (connected_ips (sys_mgr s))))) by (rewrite length_fmap in Hle; lia).
    by destruct (cm_shutting_down (sys_mgr s)).
  - done.
Qed.

End Accounting.

(** ** The counters of the MQTT transport *)

Inductive mqtt_record :=
| RecConnected | RecDisconnected | RecReconnect | RecPublishError | RecFrame | RecLatency (ms : Z).

#[export] Instance mqtt_record_eq_dec : EqDecision mqtt_record.
Proof. solve_decision. Defined.

Definition record (c : MqttHealthCollector) (r : mqtt_record) : MqttHealthCollector :=
  match r with
  | RecConnected => record_connected c
  | RecDisconnected => record_disconnected c
  | RecReconnect => record_reconnect c
  | RecPublishError => record_publish_error c
  | RecFrame => record_incoming_frame c
  | RecLatency ms => record_subscribe_latency_ms ms c
  end.

(** How often an event was recorded, whether the last change of the connection was
    for the better, and the first latency. *)
Definition times_recorded (r : mqtt_record) (l : list mqtt_record) : nat := length (filter (fun x => x = r) l).
Definition last_connected (l : list mqtt_record) : bool :=
  foldl (fun b r => match r with RecConnected => true | RecDisconnected => false | _ => b end) false l.
Definition first_latency (l : list mqtt_record) : option Z :=
  head (omap (fun r => match r with RecLatency ms => Some ms | _ => None end) l).

Definition summary (service : string) (l : list mqtt_record) : MqttHealthCollector :=
  mkMqttHealth (last_connected l) (wrap 64 (Z.of_nat (times_recorded RecReconnect l)))
    (wrap 64 (Z.of_nat (times_recorded RecPublishError l))) (wrap 64 (Z.of_nat (times_recorded RecFrame l)))
    (first_latency l) service.

Lemma times_recorded_snoc r l x :
  times_recorded r (l ++ [x]) = (times_recorded r l + (if decide (x = r) then 1 else 0))%nat.
Proof.
  unfold times_recorded. rewrite filter_app, length_app, filter_cons, filter_nil. by case_decide.
Qed.

Lemma first_latency_snoc l x :
  first_latency (l ++ [x]) =
  match first_latency l with Some ms => Some ms | None => match x with RecLatency ms => Some ms | _ => None end end.
Proof. unfold first_latency. rewrite omap_app. destruct (omap _ l); [|done]. by destruct x. Qed.

Lemma records_summary service l : foldl record (MqttHealthCollector_new service) l = summary service l.
Proof.
  induction l as [|x l IH] using rev_ind; [done|]. rewrite foldl_snoc, IH. unfold summary, last_connected.
  rewrite foldl_snoc, first_latency_snoc, !times_recorded_snoc.
  destruct x; cbn [record]; repeat case_decide; try done; rewrite ?Nat.add_0_r, ?Nat.add_1_r, <- ?wrap_succ;
    unfold record_connected, record_disconnected, set_connected, record_reconnect, record_publish_error,
      record_incoming_frame, record_subscribe_latency_ms;
    cbn [mh_connected mh_reconnect_count mh_publish_error_count mh_incoming_frame_count mh_subscribe_latency_ms mh_service_name];
    by destruct (first_latency l).
Qed.

Lemma bucket_loop_spec value bounds : forall i,
  exists k, (k <= length bounds)%nat /\ bucket_loop value i i bounds = (i + k)%nat /\
    Forall (fun b => f64_lt value b = false) (take k bounds) /\
    (forall b, bounds !! k = Some b -> f64_lt value b = true).
Proof.
  induction bounds as [|b bounds IH]; intros i; cbn [bucket_loop].
  - exists 0%nat. split_and!; [done|lia|done|done].
  - destruct (f64_lt value b) eqn:Hb.
    + exists 0%nat. split_and!; [simpl; lia|lia|constructor|]. by intros ? [= <-].
    + destruct (IH (S i)) as (k & Hk & Heq & Hall & Hn). exists (S k). rewrite Heq.
      split_and!; [simpl; lia|lia|by constructor|done].
Qed.

Section Collected.
Context `{Ext : External}.
Variable local : string.
Variable now : DateTime.

(** After any sequence of recorded events a collection never panics and reports whether the broker was last
    connected, exactly how many reconnections, publish errors and frames were recorded, and
    the first latency only: as a histogram with a single observation, in the
    first bucket whose bound is above it. *)
Theorem mqtt_health_counts service l :
  Z.of_nat (length l) < 2 ^ 53 ->
  exists metrics histograms,
    MqttHealthCollector_collect local now (foldl record (MqttHealthCollector_new service) l) = Ok (metrics ++ histograms) /\
    map (fun m => f64_to_Z (me_value m)) metrics =
      [Some (if last_connected l then 1 else 0); Some (Z.of_nat (times_recorded RecReconnect l));
       Some (Z.of_nat (times_recorded RecPublishError l)); Some (Z.of_nat (times_recorded RecFrame l))] /\
    match first_latency l with
    | None => histograms = []
    | Some ms => let value := f64_div (f64_of_Z ms) (f64_of_Z 1000) in
      exists h k, histograms = [h] /\ me_histogram_sum h = value /\ me_histogram_count h = 1 /\
        me_histogram_bounds h = LATENCY_BOUNDS /\ (k <= length LATENCY_BOUNDS)%nat /\
        me_histogram_counts h = <[k := 1]> (repeat 0 (S (length LATENCY_BOUNDS))) /\
        Forall (fun b => f64_lt value b = false) (take k LATENCY_BOUNDS) /\
        (forall b, LATENCY_BOUNDS !! k = Some b -> f64_lt value b = true)
    end.
Proof.
  intros Hl. rewrite records_summary. unfold MqttHealthCollector_collect, summary.
  cbn [mh_connected mh_reconnect_count mh_publish_error_count mh_incoming_frame_count mh_subscribe_latency_ms mh_service_name].
  assert (Hcount : forall r, f64_to_Z (f64_of_Z (wrap 64 (Z.of_nat (times_recorded r l)))) = Some (Z.of_nat (times_recorded r l))).
  { intros r. assert (times_recorded r l <= length l)%nat by apply length_filter. unfold wrap. rewrite Z.mod_small by lia.
    apply f64_of_Z_exact. lia. }
  set (metrics := [_; _; _; _]).
  assert (Hm : map (fun m => f64_to_Z (me_value m)) metrics =
      [Some (if last_connected l then 1 else 0); Some (Z.of_nat (times_recorded RecReconnect l));
       Some (Z.of_nat (times_recorded RecPublishError l)); Some (Z.of_nat (times_recorded RecFrame l))]).
  { unfold metrics, health_gauge, health_counter, health_entry, me_set. cbn [map me_value MetricEntry_gauge MetricEntry_sum].
    rewrite !Hcount. by destruct (last_connected l). }
  clearbody metrics. destruct (first_latency l) as [ms|]; [|exists metrics, []; by rewrite app_nil_r].
  unfold health_histogram. set (value := f64_div _ _).
  destruct (bucket_loop_spec value LATENCY_BOUNDS 0) as (k & Hk & -> & Hall & Hn).
  rewrite (proj2 (Nat.ltb_lt _ _)) by (rewrite repeat_length; lia). cbn [outcome_bind]. eexists metrics, [_].
  split_and!; [done..|]. eexists _, k. split_and!; try done.
Qed.

(** ** The tasks *)

Definition task_key (s : CycleTimeStats) : string * Z := (cs_ams_net_id s, cs_task_index s).
Definition entry_key (m : MetricEntry) : string * Z := (me_ams_net_id m, me_task_index m).
Definition entries_of (k : string * Z) (ms : list MetricEntry) : list MetricEntry :=
  List.filter (fun m => bool_decide (entry_key m = k)) ms.

Lemma task_entries_key service s k :
  entries_of k (task_entries local now service s) = if bool_decide (task_key s = k) then task_entries local now service s else [].
Proof.
  unfold entries_of, task_entries. cbv zeta. cbn [List.filter].
  change (entry_key (for_task s _)) with (task_key s). by case_bool_decide.
Qed.

Lemma entries_of_app k ms ms' : entries_of k (ms ++ ms') = entries_of k ms ++ entries_of k ms'.
Proof. apply List.filter_app. Qed.

Lemma tasks_entries_none service (l : list CycleTimeStats) k :
  k ∉ map task_key l -> entries_of k (concat (map (task_entries local now service) l)) = [].
Proof.
  induction l as [|y l IH]; intros Hn; [done|]. cbn [map concat] in *. apply not_elem_of_cons in Hn as [Hy Hn].
  rewrite entries_of_app, task_entries_key, bool_decide_false by congruence. by apply IH.
Qed.

Lemma tasks_entries_key service (l : list CycleTimeStats) s :
  NoDup (map task_key l) -> s ∈ l ->
  entries_of (task_key s) (concat (map (task_entries local now service) l)) = task_entries local now service s.
Proof.
  intros Hnd Hs. induction l as [|x l IH]; [by apply not_elem_of_nil in Hs|]. cbn [map concat] in *.
  apply NoDup_cons in Hnd as [Hx Hnd]. rewrite entries_of_app, task_entries_key.
  apply elem_of_cons in Hs as [->|Hs].
  - rewrite bool_decide_true, tasks_entries_none by done. apply app_nil_r.
  - rewrite bool_decide_false; [by apply IH|]. intros Heq. apply Hx. rewrite Heq. by apply (list_elem_of_fmap_2 task_key).
Qed.

Lemma stats_key net index st s : TaskCycleState_stats net index st = Some s -> task_key s = (net, index).
Proof. unfold TaskCycleState_stats. case_match; [done|]. intros [= <-]. done. Qed.

Variable iter : gmap (string * Z) TaskCycleState -> list ((string * Z) * TaskCycleState).
Hypothesis iter_entries : forall m, iter m ≡ₚ map_to_list m.

Lemma all_stats_member t s : s ∈ all_stats iter t <-> task_stats (cs_ams_net_id s) (cs_task_index s) t = Some s.
Proof using iter_entries.
  unfold all_stats, task_stats. rewrite (merge_sort_Permutation _ _), list_elem_of_omap. split.
  - intros ([[net index] st] & Hin & Hst). rewrite iter_entries in Hin. apply elem_of_map_to_list in Hin.
    apply stats_key in Hst as Hk. injection Hk as -> ->. by rewrite Hin.
  - destruct (ct_tasks t !! _) as [st|] eqn:Hst; [|done]. simpl. intros Hs.
    exists ((cs_ams_net_id s, cs_task_index s), st). split; [|done].
    rewrite iter_entries. by apply elem_of_map_to_list.
Qed.

Lemma stats_keys_nodup (l : list ((string * Z) * TaskCycleState)) :
  NoDup l.*1 -> NoDup (map task_key (omap (fun kv => TaskCycleState_stats kv.1.1 kv.1.2 kv.2) l)).
Proof.
  induction l as [|[k st] l IH]; intros Hnd; [constructor|]. apply NoDup_cons in Hnd as [Hk Hnd]. cbn [omap list_omap].
  destruct (TaskCycleState_stats k.1 k.2 st) as [s|] eqn:Hs; simpl; rewrite Hs; [|by apply IH]. cbn [map]. constructor; [|by apply IH].
  apply stats_key in Hs. rewrite Hs. intros Hin. apply Hk. apply (list_elem_of_fmap task_key) in Hin as (s' & Heq & Hs').
  apply list_elem_of_omap in Hs' as ([[net index] st'] & Hin & Hst'). apply stats_key in Hst'. rewrite Hst' in Heq.
  destruct k as [n i]. simpl in Heq. apply list_elem_of_fmap. exists ((net, index), st'). split; [by simplify_eq|done].
Qed.

Lemma all_stats_keys t : NoDup (map task_key (all_stats iter t)).
Proof using iter_entries.
  unfold all_stats.
  assert (Hp : forall l : list CycleTimeStats, map task_key (merge_sort stats_le l) ≡ₚ map task_key l)
    by (intros l; apply Permutation_map, merge_sort_Permutation).
  rewrite Hp. apply stats_keys_nodup. rewrite iter_entries. apply NoDup_fst_map_to_list.
Qed.

Lemma f64_not_lt a b : f64_is_nan a = false -> f64_is_nan b = false -> f64_lt b a = false -> f64_le a b = true.
Proof.
  unfold f64_is_nan, f64_lt, f64_le, SFltb, SFleb. destruct (sf64 a) as [s1|s1| |s1 m1 e1], (sf64 b) as [s2|s2| |s2 m2 e2];
    try done; destruct s1, s2; try done; simpl.
  all: rewrite (Z.compare_antisym e1 e2); destruct (e1 ?= e2); simpl; try done.
  all: change (Pos.compare_cont Eq m1 m2) with (m1 ?= m2)%positive; change (Pos.compare_cont Eq m2 m1) with (m2 ?= m1)%positive.
  all: rewrite (Pos.compare_antisym m1 m2); by destruct (m1 ?= m2)%positive.
Qed.

Lemma load_at_most_one s : f64_le (load_ratio s) (f64_of_Z 1) = true.
Proof.
  unfold load_ratio. destruct (f64_lt _ _); [|done]. unfold f64_min. destruct (f64_is_nan _) eqn:Hnan; [done|].
  change (f64_is_nan (f64_of_Z 1)) with false. cbv iota. destruct (f64_lt _ _) eqn:Hlt; [done|]. by apply f64_not_lt.
Qed.

(** Every task with cycle times is reported once: among all entries of a collection those of its Net ID and index
    are its average, maximum and jitter and its estimated load, which is never above one;
    the number of tasks comes first. *)
Theorem tasks_reported service statm t net index s :
  task_stats net index t = Some s -> (net, index) <> ("", 0) -> Z.of_nat (length (all_stats iter t)) < 2 ^ 53 ->
  let ms := PlcSystemMetricsCollector_collect local now service statm (all_stats iter t) in
  (exists load, map (fun m => (me_name m, me_value m)) (entries_of (net, index) ms) =
     [("plc.task.cycle_time.avg", cs_avg_us s); ("plc.task.cycle_time.max", cs_max_us s);
      ("plc.task.cycle_time.jitter", cs_jitter_us s); ("plc.cpu.estimated_load", load)] /\
     f64_le load (f64_of_Z 1) = true) /\
  Forall (fun m => me_task_name m = cs_task_name s) (entries_of (net, index) ms) /\
  (m ← head ms; f64_to_Z (me_value m)) = Some (Z.of_nat (length (all_stats iter t))).
Proof using iter_entries.
  intros Hs Hne Hlen ms.
  assert (Hk : task_key s = (net, index)).
  { unfold task_stats in Hs. destruct (ct_tasks t !! _); [|done]. by apply stats_key in Hs. }
  assert (Hin : s ∈ all_stats iter t) by (apply all_stats_member; by injection Hk as -> ->).
  assert (He : entries_of (net, index) ms = task_entries local now service s).
  { unfold ms, PlcSystemMetricsCollector_collect. cbv zeta. rewrite !entries_of_app, <- Hk.
    rewrite tasks_entries_key by (done || apply all_stats_keys).
    assert (Hown : forall m, entry_key m = ("", 0) -> entries_of (task_key s) [m] = []).
    { intros m Hm. unfold entries_of. cbn [List.filter]. by rewrite Hm, bool_decide_false by congruence. }
    match goal with |- context [entries_of _ [?a; ?b]] => change [a; b] with ([a] ++ [b]) end.
    rewrite entries_of_app, !Hown by done. cbn [app].
    destruct (process_rss_bytes statm); [rewrite Hown by done|]; apply app_nil_r. }
  rewrite He. split_and!.
  - exists (load_ratio s). split; [done|apply load_at_most_one].
  - by repeat constructor.
  - apply f64_of_Z_exact. lia.
Qed.

End Collected.
