(* ===== verification/Service.v ===== *)
(** * The service (crates/tc-otel-service: service.rs)

    What [TcOtelService::run] makes of the settings, and the tasks it starts
    between the router and the log dispatcher: raw logs are given the trace
    context of the span that is open in their task, and dispatched; trace events
    are handed to the span dispatcher, which is swept once a second. The channels
    between the tasks are bounded; every interleaving of the tasks is a sequence of
    [PipeEvent]s. *)

From Stdlib Require Import Ascii.
From S2P Require Import Prelude.
From S2P Require Import Text.
From S2P Require Import External.
From S2P Require Import Ams.
From S2P Require Import Models.
From S2P Require Import Protocol.
From S2P Require Import Formatter.
From S2P Require Import Registry.
From S2P Require Import Router.
From S2P Require Import SpanDispatcher.
From S2P Require Import ConnectionManager.
From S2P Require Import Transport.
From S2P Require Import ScopeResolver.
From S2P Require Import MetricMapper.
From S2P Require Import Config.
From S2P Require Import LogPath.
From S2P Require Import CycleTime.

(** ** From the settings *)

(** [parse_broker_addr]; [split] always yields a first part. *)
Definition parse_broker_addr (broker : string) : string * Z :=
  let parts := split_on ":"%char broker in
  (default "" (head parts), default 1883 (p ← parts !! 1%nat; parse_uint 65535 p)).

Definition conn_config_of (s : AppSettings) : ConnectionConfig :=
  mkConnConfig (Z.to_nat (rc_max_connections (st_receiver s))) (rc_idle_timeout_secs (st_receiver s))
    (Z.to_nat (rc_max_connections_per_ip (st_receiver s))) (Z.to_nat (rc_rate_limit_per_sec_per_ip (st_receiver s)))
    (rc_keepalive_interval_secs (st_receiver s)) (rc_send_buffer_size (st_receiver s))
    (sc_shutdown_timeout_secs (st_service s)).

Section Start.
Context `{Ext : External} `{M : Mpsc} `{SO : SemaphoreOps}.

(** [TcpAmsTransport] with its builder. *)
Record TcpAmsTransport := mkTcpAms {
  ta_host : string;
  ta_net_id : AmsNetId;
  ta_port : Z;
  ta_router : AdsRouter;
  ta_conn_manager : ConnectionManager;
}.

Definition TcpAmsTransport_new (host : string) (net_id : AmsNetId) (router : AdsRouter) : TcpAmsTransport :=
  mkTcpAms host net_id 48898 router (ConnectionManager_new ConnectionConfig_default).
Definition with_port (port : Z) (t : TcpAmsTransport) : TcpAmsTransport :=
  mkTcpAms (ta_host t) (ta_net_id t) port (ta_router t) (ta_conn_manager t).
Definition with_connection_config (c : ConnectionConfig) (t : TcpAmsTransport) : TcpAmsTransport :=
  mkTcpAms (ta_host t) (ta_net_id t) (ta_port t) (ta_router t) (ConnectionManager_new c).

(** The configuration of [MqttAmsTransport]. *)
Record MqttRuntimeConfig := mkMqttRuntime {
  mr_broker_host : string;
  mr_broker_port : Z;
  mr_client_id : string;
  mr_topic_prefix : string;
  mr_local_net_id : AmsNetId;
  mr_username : option string;
  mr_password : option string;
  mr_tls : option MqttTlsConfig;
}.

Inductive TransportVariant :=
| VariantTcp (t : TcpAmsTransport)
| VariantMqtt (c : MqttRuntimeConfig) (router : AdsRouter)
| VariantLocalRouter (host : string) (port : Z) (t : LocalRouterAmsTransport).

Definition transport_variant (s : AppSettings) (net_id : AmsNetId) (router : AdsRouter) : TransportVariant :=
  match rc_transport (st_receiver s) with
  | TransportTcp tcp =>
    VariantTcp (with_connection_config (conn_config_of s)
                  (with_port (tt_port tcp) (TcpAmsTransport_new (tt_host tcp) net_id router)))
  | TransportLocalRouter lr =>
    VariantLocalRouter (lr_router_host lr) (lr_router_port lr)
      (Transport.with_register_port (rc_ads_port (st_receiver s)) (LocalRouterAmsTransport_new router))
  | TransportMqtt mqtt =>
    let '(broker_host, broker_port) := parse_broker_addr (mq_broker mqtt) in
    VariantMqtt (mkMqttRuntime broker_host broker_port (mq_client_id mqtt) (mq_topic_prefix mqtt) net_id
                   (mq_username mqtt) (mq_password mqtt) (mq_tls mqtt)) router
  end.

(** The manager whose numbers the web interface and the health metrics show. *)
Definition conn_manager_of (s : AppSettings) (v : TransportVariant) : ConnectionManager :=
  match v with
  | VariantTcp t => ta_conn_manager t
  | VariantMqtt _ _ | VariantLocalRouter _ _ _ => ConnectionManager_new (conn_config_of s)
  end.

(** The router and the transport that [run] starts; the channels are arguments. *)
Definition start_transport (s : AppSettings) (raw_log_tx : Sender LogEntry) (metric_tx : option (Sender MetricEntry))
    (push_tx : Sender (AmsNetId * Diagnostics.DiagEvent)) (trace_tx : Sender (AmsNetId * Z * TraceWireEvent))
    : outcome AdsError TransportVariant :=
  (net_id <-- AmsNetId_from_str_ref (rc_ams_net_id (st_receiver s)) ;;
   let router := with_trace_sender trace_tx (with_push_sender push_tx
                   (AdsRouter_new (rc_ads_port (st_receiver s)) raw_log_tx metric_tx TaskRegistry_new)) in
   Ok (transport_variant s net_id router))%rust.

End Start.

(** ** The tasks around the log dispatcher *)

(** The counters of [DiagnosticStats] that the tasks change. *)
Record DiagnosticStats := mkStats' {
  ds_logs_received : Z;
  ds_logs_dispatched : Z;
  ds_logs_failed : Z;
}.

Definition DiagnosticStats_new : DiagnosticStats := mkStats' 0 0 0.

Section Pipeline.
Context `{Ext : External} `{H : Hex} `{M : Mpsc} `{SL : ScopeLookup}.
Variable span_iter : gmap SpanKey PendingSpan -> list (SpanKey * PendingSpan).
Variable microseconds_since : DateTime -> DateTime -> option Z.

Definition set_trace (trace_id span_id : bytes) (e : LogEntry) : LogEntry :=
  mkLogEntry (le_id e) (le_source e) (le_hostname e) (le_ams_net_id e) (le_ams_source_port e) (le_ams_app_port e)
    (le_message e) (le_logger e) (le_level e) (le_plc_timestamp e) (le_clock_timestamp e) (le_task_index e)
    (le_task_name e) (le_task_cycle_counter e) (le_app_name e) (le_project_name e) (le_online_change_count e)
    trace_id span_id (le_arguments e) (le_context e).

(** The enrichment of a raw log. *)
Definition enrich (d : SpanDispatcher) (e : LogEntry) : LogEntry :=
  let no_trace := forallb (fun b => b =? 0) (le_trace_id e) && forallb (fun b => b =? 0) (le_span_id e) in
  if no_trace then
    match AmsNetId_from_str_ref (le_ams_net_id e) with
    | Ok net_id =>
      match current_context span_iter net_id (wrap 8 (le_task_index e)) d with
      | Some (tid_hex, sid_hex) =>
        match hex_decode tid_hex, hex_decode sid_hex with
        | Some tid, Some sid => if (length tid =? 16)%nat && (length sid =? 8)%nat then set_trace tid sid e else e
        | _, _ => e
        end
      | None => e
      end
    | _ => e
    end
  else e.

(** The tasks and the channels between them; [pl_spans] is [None] when traces are
    disabled and raw logs are only forwarded. [pl_accepted] and [pl_taken] are the entries
    that were ever queued and taken (for the proofs only). *)
Record Pipeline := mkPipeline {
  pl_raw : list LogEntry;
  pl_trace : list (AmsNetId * Z * TraceWireEvent);
  pl_spans : option SpanDispatcher;
  pl_log : list LogEntry;
  pl_tracker : CycleTimeTracker;
  pl_stats : DiagnosticStats;
  pl_dispatcher : LogDispatcher;
  pl_accepted : list LogEntry;
  pl_taken : list LogEntry;
}.

(** What happens next: the router offers a raw log or a trace event, or one of the
    tasks takes a turn. *)
Inductive PipeEvent :=
| EvRaw (e : LogEntry)
| EvTrace (ev : AmsNetId * Z * TraceWireEvent)
| EvForward
| EvSpan (env : SpanEnv)
| EvSweep (env : SpanEnv)
| EvDispatch (env : LookupEnv).

Variable capacity : nat.
Variable cycle_time_enabled : bool.

Definition Pipeline_new (spans : option SpanDispatcher) (window : nat) (d : LogDispatcher) : Pipeline :=
  mkPipeline [] [] spans [] (CycleTimeTracker_new window) DiagnosticStats_new d [] [].

(** [tracker.record] before the dispatch. *)
Definition feed_tracker (e : LogEntry) (t : CycleTimeTracker) : CycleTimeTracker :=
  if cycle_time_enabled && (0 <? le_task_cycle_counter e)
  then CycleTimeTracker_record microseconds_since (le_ams_net_id e) (le_task_index e) (le_task_name e)
         (le_task_cycle_counter e) (le_plc_timestamp e) t
  else t.

(** [dispatch] has no error; the branch that counts failures is never taken. *)
Definition count_log (st : DiagnosticStats) : DiagnosticStats :=
  mkStats' (wrap 64 (ds_logs_received st + 1)) (wrap 64 (ds_logs_dispatched st + 1)) (ds_logs_failed st).

(** One turn. [try_send] drops when a channel is full; [send().await] waits, so that the
    task does not take its turn; a task whose channel is empty waits too. *)
Definition pipe_step (p : Pipeline) (ev : PipeEvent) : outcome Empty_set Pipeline :=
  match ev with
  | EvRaw e =>
    if (length (pl_raw p) <? capacity)%nat
    then Ok (mkPipeline (pl_raw p ++ [e]) (pl_trace p) (pl_spans p) (pl_log p) (pl_tracker p) (pl_stats p)
               (pl_dispatcher p) (pl_accepted p ++ [e]) (pl_taken p))
    else Ok p
  | EvTrace ev =>
    if (length (pl_trace p) <? capacity)%nat
    then Ok (mkPipeline (pl_raw p) (pl_trace p ++ [ev]) (pl_spans p) (pl_log p) (pl_tracker p) (pl_stats p)
               (pl_dispatcher p) (pl_accepted p) (pl_taken p))
    else Ok p
  | EvForward =>
    match pl_raw p with
    | e :: raw =>
      if (length (pl_log p) <? capacity)%nat
      then let e := match pl_spans p with Some d => enrich d e | None => e end in
           Ok (mkPipeline raw (pl_trace p) (pl_spans p) (pl_log p ++ [e]) (pl_tracker p) (pl_stats p)
                 (pl_dispatcher p) (pl_accepted p) (pl_taken p))
      else Ok p
    | [] => Ok p
    end
  | EvSpan env =>
    match pl_spans p, pl_trace p with
    | Some d, (net, port, ev) :: rest =>
      Ok (mkPipeline (pl_raw p) rest (Some (on_event span_iter env net port ev d)) (pl_log p) (pl_tracker p)
            (pl_stats p) (pl_dispatcher p) (pl_accepted p) (pl_taken p))
    | _, _ => Ok p
    end
  | EvSweep env =>
    Ok (mkPipeline (pl_raw p) (pl_trace p) (sweep_timed_out span_iter env <$> pl_spans p) (pl_log p) (pl_tracker p)
          (pl_stats p) (pl_dispatcher p) (pl_accepted p) (pl_taken p))
  | EvDispatch env =>
    match pl_log p with
    | e :: log =>
      (d <-- LogDispatcher_dispatch env e (pl_dispatcher p) ;;
       Ok (mkPipeline (pl_raw p) (pl_trace p) (pl_spans p) log (feed_tracker e (pl_tracker p)) (count_log (pl_stats p))
             d (pl_accepted p) (pl_taken p ++ [e])))%rust
    | [] => Ok p
    end
  end.

Fixpoint pipe_run (p : Pipeline) (l : list PipeEvent) : outcome Empty_set Pipeline :=
  match l with
  | [] => Ok p
  | ev :: l => (p <-- pipe_step p ev ;; pipe_run p l)%rust
  end.

End Pipeline.

(** ** Nothing is lost on the way *)

(** Without its trace context. *)
Definition bare `{Ext : External} (e : LogEntry) : LogEntry := set_trace [] [] e.

Lemma enrich_bare `{Ext : External} `{H : Hex} `{M : Mpsc} span_iter d e : bare (enrich span_iter d e) = bare e.
Proof. unfold enrich. by repeat case_match. Qed.

Section Flow.
Context `{Ext : External} `{H : Hex} `{M : Mpsc} `{SL : ScopeLookup}.
Variable span_iter : gmap SpanKey PendingSpan -> list (SpanKey * PendingSpan).
Variable microseconds_since : DateTime -> DateTime -> option Z.
Variable capacity : nat.
Variable cycle_time_enabled : bool.

Abbreviation step := (pipe_step span_iter microseconds_since capacity cycle_time_enabled).
Abbreviation run := (pipe_run span_iter microseconds_since capacity cycle_time_enabled).
Abbreviation feed := (feed_tracker microseconds_since cycle_time_enabled).

Lemma dispatch_ok env e d : exists d', LogDispatcher_dispatch env e d = Ok d'.
Proof.
  unfold LogDispatcher_dispatch, log_record_of. cbv zeta.
  set (body := if existsb _ _ then _ else _). assert (Hb : exists s, body = Ok s) .
  { unfold body. destruct (existsb _ _); [|eauto]. unfold format_with_context. destruct (negb _); [eauto|].
    apply format_loop_total. rewrite length_bytes_of_string. lia. }
  destruct Hb as [s ->]. cbn [outcome_bind]. case_match. cbn [outcome_bind]. eauto.
Qed.

Record pipe_inv (window : nat) (p : Pipeline) : Prop := {
  pi_flow : map bare (pl_taken p ++ pl_log p ++ pl_raw p) = map bare (pl_accepted p);
  pi_raw : (length (pl_raw p) <= capacity)%nat;
  pi_trace : (length (pl_trace p) <= capacity)%nat;
  pi_log : (length (pl_log p) <= capacity)%nat;
  pi_stats : pl_stats p = mkStats' (wrap 64 (Z.of_nat (length (pl_taken p)))) (wrap 64 (Z.of_nat (length (pl_taken p)))) 0;
  pi_tracker : pl_tracker p = foldl (fun t e => feed e t) (CycleTimeTracker_new window) (pl_taken p);
}.

Lemma wrap64_succ n : wrap 64 (wrap 64 (Z.of_nat n) + 1) = wrap 64 (Z.of_nat (S n)).
Proof. unfold wrap. rewrite Zplus_mod_idemp_l. f_equal. lia. Qed.

Lemma pipe_step_inv window p ev : pipe_inv window p -> exists p', step p ev = Ok p' /\ pipe_inv window p'.
Proof.
  intros Hi. pose proof Hi as [Hf Hr Ht Hl Hs Htr]. destruct ev as [e|ev| |env|env|env]; cbn [pipe_step].
  - destruct (Nat.ltb_spec (length (pl_raw p)) capacity); [|eauto]. eexists. split; [done|]. split; simpl; try done.
    + by rewrite !app_assoc, map_app, <- app_assoc, Hf, map_app.
    + rewrite length_app. simpl. lia.
  - destruct (Nat.ltb_spec (length (pl_trace p)) capacity); [|eauto]. eexists. split; [done|]. split; simpl; try done.
    rewrite length_app. simpl. lia.
  - destruct (pl_raw p) as [|e raw] eqn:Hraw; [eauto|]. destruct (Nat.ltb_spec (length (pl_log p)) capacity); [|eauto].
    eexists. split; [done|]. split; simpl; try done.
    + rewrite <- Hf. rewrite <- app_assoc, !map_app. simpl. do 2 f_equal.
      destruct (pl_spans p); [|done]. by rewrite enrich_bare.
    + simpl in Hr. lia.
    + rewrite length_app. simpl. lia.
  - destruct (pl_spans p) as [d|]; [|eauto]. destruct (pl_trace p) as [|[[net port] ev] rest] eqn:Hrest; [eauto|].
    eexists. split; [done|]. split; simpl; try done. simpl in Ht. lia.
  - eexists. split; [done|]. by split.
  - destruct (pl_log p) as [|e log] eqn:Hlog; [eauto|]. destruct (dispatch_ok env e (pl_dispatcher p)) as [d ->].
    eexists. split; [done|]. split; simpl; try done.
    + by rewrite <- app_assoc.
    + simpl in Hl. lia.
    + rewrite Hs, length_app, Nat.add_1_r. unfold count_log. simpl. by rewrite wrap64_succ.
    + by rewrite foldl_snoc, <- Htr.
Qed.

Lemma pipe_run_inv window l : forall p, pipe_inv window p -> exists p', run p l = Ok p' /\ pipe_inv window p'.
Proof.
  induction l as [|ev l IH]; intros p Hp; [by exists p|].
  destruct (pipe_step_inv window p ev Hp) as (p1 & Hs & Hp1). cbn [pipe_run]. rewrite Hs. by apply IH.
Qed.

Lemma pipe_inv_new window spans d : pipe_inv window (Pipeline_new spans window d).
Proof. split; simpl; try done; lia. Qed.

(** No log is lost between the router and the dispatcher. In every interleaving of the tasks,
    which never panic: the entries taken for dispatch, those waiting for it and those
    waiting for their trace context are, in this order, exactly the entries the first channel
    took, each with at most its trace context changed; no channel is ever
    over its capacity; every entry taken is counted as received and as dispatched, and none as
    failed; and the cycle times are those of the entries taken, in their order. *)
Theorem logs_flow window spans d l :
  exists p, run (Pipeline_new spans window d) l = Ok p /\
    map bare (pl_taken p ++ pl_log p ++ pl_raw p) = map bare (pl_accepted p) /\
    (length (pl_raw p) <= capacity /\ length (pl_log p) <= capacity /\ length (pl_trace p) <= capacity)%nat /\
    pl_stats p = mkStats' (wrap 64 (Z.of_nat (length (pl_taken p)))) (wrap 64 (Z.of_nat (length (pl_taken p)))) 0 /\
    pl_tracker p = foldl (fun t e => feed e t) (CycleTimeTracker_new window) (pl_taken p).
Proof.
  destruct (pipe_run_inv window l _ (pipe_inv_new window spans d)) as (p & Hr & [? ? ? ? ? ?]). exists p. by split_and!.
Qed.

End Flow.

(** ** Logs join the span of their task *)

Section Enrichment.
Context `{Ext : External} `{H : Hex} `{M : Mpsc} `{!HexLaws H} `{!DateTimeOrder Ext}.
Variable span_iter : gmap SpanKey PendingSpan -> list (SpanKey * PendingSpan).
Hypothesis span_iter_perm : forall m, span_iter m ≡ₚ map_to_list m.

(** An open span of a task. *)
Definition open_in (net : AmsNetId) (task_index : Z) (d : SpanDispatcher) (p : PendingSpan) : Prop :=
  exists k, sd_pending d !! k = Some p /\ sk_ams_net_id k = net /\ ps_task_index p = task_index.

(** Whether a pair of the iteration is of the task. *)
Definition of_task (net : AmsNetId) (ti : Z) (kv : SpanKey * PendingSpan) : Prop :=
  sk_ams_net_id kv.1 = net /\ ps_task_index kv.2 = ti.

(** [p] did not begin before [q]. *)
Definition not_before (p q : PendingSpan) : Prop := datetime_gt (ps_start_time q) (ps_start_time p) = false.

Lemma later_span_cases net ti best kv :
  (of_task net ti kv /\ exists p, later_span net ti best kv = Some p /\ (p = kv.2 \/ best = Some p) /\
     not_before p kv.2 /\ forall b, best = Some b -> not_before p b) \/
  (~ of_task net ti kv /\ later_span net ti best kv = best).
Proof using DateTimeOrder0.
  unfold later_span, of_task, not_before. destruct (bool_decide_reflect (sk_ams_net_id kv.1 = net)) as [Hn|Hn]; [|right; tauto].
  destruct (Z.eqb_spec (ps_task_index kv.2) ti) as [Ht|Ht]; [|right; tauto]. cbn [andb]. left. split; [done|].
  destruct best as [b|]; [|exists kv.2; rewrite datetime_gt_irrefl; naive_solver].
  destruct (datetime_gt (ps_start_time kv.2) (ps_start_time b)) eqn:Hg.
  - exists kv.2. rewrite datetime_gt_irrefl. split_and!; [done|by left|done|]. intros ? [= <-].
    apply not_true_is_false. intros Hb. pose proof (datetime_gt_trans _ _ _ Hg Hb) as Hc. by rewrite datetime_gt_irrefl in Hc.
  - exists b. split_and!; [done|by right|done|]. intros ? [= <-]. apply datetime_gt_irrefl.
Qed.

(** The loop finds a span of the task that no other one of it began after. *)
Lemma later_span_fold net ti (l : list (SpanKey * PendingSpan)) : forall best,
  match fold_left (later_span net ti) l best with
  | Some p => (best = Some p \/ exists k, (k, p) ∈ l /\ of_task net ti (k, p)) /\
      (forall b, best = Some b -> not_before p b) /\ forall kv, kv ∈ l -> of_task net ti kv -> not_before p kv.2
  | None => best = None /\ forall kv, kv ∈ l -> ~ of_task net ti kv
  end.
Proof using DateTimeOrder0.
  induction l as [|[k p] l IH]; intros best; cbn [fold_left].
  { destruct best as [b|]; [|split; [done|]; intros kv Hin; by apply not_elem_of_nil in Hin].
    split_and!; [by left| |intros kv Hin; by apply not_elem_of_nil in Hin]. intros ? [= <-]. apply datetime_gt_irrefl. }
  specialize (IH (later_span net ti best (k, p))).
  destruct (later_span_cases net ti best (k, p)) as [(Hof & q & Hq & Hfrom & Hnb & Hb)|(Hof & Heq)].
  - rewrite Hq in IH |- *. destruct (fold_left _ l _) as [r|]; [|by destruct IH]. cbn [snd] in *.
    destruct IH as (Hr & Hrq & Hrl). specialize (Hrq q eq_refl).
    assert (Hrp : forall x, not_before q x -> not_before r x).
    { intros x Hx. unfold not_before in *. apply not_true_is_false. intros Hxr.
      destruct (datetime_gt_between _ (ps_start_time q) _ Hxr); congruence. }
    split_and!.
    + destruct Hr as [[= <-]|(k' & Hin & Hk)]; [|right; exists k'; split; [by right|done]].
      destruct Hfrom as [->|]; [right; exists k; split; [by left|done]|by left].
    + intros b Hbest. by apply Hrp, Hb.
    + intros kv Hin Hkv. apply elem_of_cons in Hin as [->|Hin]; [by apply Hrp|by apply Hrl].
  - rewrite Heq in IH |- *. destruct (fold_left _ l _) as [r|].
    + destruct IH as (Hr & Hrb & Hrl). split_and!; [|done|].
      * destruct Hr as [|(k' & Hin & Hk)]; [by left|right; exists k'; split; [by right|done]].
      * intros kv Hin Hkv. apply elem_of_cons in Hin as [->|Hin]; [done|by apply Hrl].
    + destruct IH as [Hn Hno]. split; [done|]. intros kv Hin. apply elem_of_cons in Hin as [->|Hin]; [done|by apply Hno].
Qed.

Lemma current_context_spec net ti d :
  match current_context span_iter net ti d with
  | Some (t, s) => exists p, open_in net ti d p /\ (forall q, open_in net ti d q -> not_before p q) /\
      t = hex_encode (ps_trace_id p) /\ s = hex_encode (ps_span_id p)
  | None => forall p, ~ open_in net ti d p
  end.
Proof using span_iter_perm DateTimeOrder0.
  unfold current_context. pose proof (later_span_fold net ti (span_iter (sd_pending d)) None) as Hf.
  assert (Hin : forall k p, sd_pending d !! k = Some p <-> (k, p) ∈ span_iter (sd_pending d)).
  { intros k p. by rewrite span_iter_perm, elem_of_map_to_list. }
  destruct (fold_left _ _ None) as [p|].
  - destruct Hf as ([|(k & Hk & Hof)] & _ & Hall); [done|]. exists p. split_and!; [|..|done|done].
    + exists k. by rewrite Hin.
    + intros q (k' & Hk' & Hq). apply (Hall (k', q)); [by apply Hin|done].
  - intros p (k & Hk & Hm). apply (proj2 Hf (k, p)); [by apply Hin|done].
Qed.

Definition has_context (e : LogEntry) : Prop := Exists (fun b => b <> 0) (le_trace_id e ++ le_span_id e).

Lemma zeros_forallb (l : bytes) : forallb (fun b => b =? 0) l = true <-> ~ Exists (fun b => b <> 0) l.
Proof.
  induction l as [|b l IH]; simpl; [split; [intros _ Hx; inversion Hx|done]|].
  rewrite andb_true_iff, IH, Exists_cons, Z.eqb_eq. destruct (Z.eq_dec b 0); tauto.
Qed.

(** C32: A log joins the innermost span of its task. When every open span has ids of 16 and 8 bytes, the enrichment changes nothing
    of an entry that has a trace context; an entry without one is given both ids of one span
    that is open in its own task on its own PLC and than which none open there began later, and stays as it is exactly when there is
    none; nothing else of an entry changes. *)
Theorem log_joins_span d e net :
  (forall k p, sd_pending d !! k = Some p ->
     is_bytes (ps_trace_id p) /\ is_bytes (ps_span_id p) /\ length (ps_trace_id p) = 16%nat /\ length (ps_span_id p) = 8%nat) ->
  wf_net net -> le_ams_net_id e = AmsNetId_to_string net -> in_width 8 (le_task_index e) ->
  let e' := enrich span_iter d e in
  bare e' = bare e /\
  (has_context e -> e' = e) /\
  (~ has_context e ->
     (exists p, open_in net (le_task_index e) d p /\
        (forall q, open_in net (le_task_index e) d q -> datetime_gt (ps_start_time q) (ps_start_time p) = false) /\
        le_trace_id e' = ps_trace_id p /\ le_span_id e' = ps_span_id p) \/
     (forall p, ~ open_in net (le_task_index e) d p) /\ e' = e).
Proof using span_iter_perm HexLaws0 DateTimeOrder0.
  intros Hwf Hnet Hid Hti e'. split; [apply enrich_bare|].
  assert (Hno : forallb (fun b => b =? 0) (le_trace_id e) && forallb (fun b => b =? 0) (le_span_id e) = true <-> ~ has_context e).
  { unfold has_context. rewrite andb_true_iff, !zeros_forallb, Exists_app. tauto. }
  unfold e', enrich. cbv zeta. destruct (_ && _) eqn:Hb.
  - split; [intros Hc; by apply (proj1 Hno eq_refl) in Hc|]. intros _.
    rewrite Hid, AmsNetId_from_to_string by done. unfold wrap. rewrite Z.mod_small by done.
    pose proof (current_context_spec net (le_task_index e) d) as Hcur.
    destruct (current_context _ _ _ _) as [[t s]|]; [|by right].
    destruct Hcur as (p & Hp & Hlast & -> & ->). left. exists p. split; [done|]. split; [exact Hlast|]. destruct Hp as (k & Hk & _).
    destruct (Hwf k p Hk) as (Ht & Hs & Hlt & Hls). rewrite !hex_decode_encode by done. by rewrite Hlt, Hls.
  - split; [done|]. intros Hc. by apply Hno in Hc.
Qed.

End Enrichment.

(** ** The broker address *)

(** A broker given with a port is taken apart; without one, or with a text that is not a
    port, the port is 1883. *)
Lemma broker_addr_parts host port :
  58 ∉ bytes_of_string host -> 58 ∉ bytes_of_string port ->
  parse_broker_addr (host +:+ ":" +:+ port) = (host, default 1883 (parse_uint 65535 port)) /\
  parse_broker_addr host = (host, 1883).
Proof.
  intros Hh Hp. unfold parse_broker_addr. split; [|by rewrite split_on_absent].
  change (":" +:+ port) with (String ":"%char port). rewrite split_on_app by done.
  by rewrite split_on_absent.
Qed.

(** A broker given as a URL is taken for a host of the name of its scheme. *)
Lemma broker_url_misread : parse_broker_addr "mqtt://broker:1884" = ("mqtt", 1883).
Proof. reflexivity. Qed.

(** ** The limits of the settings *)

(** The TCP server takes the limit of the receiver section; the one of the transport
    section has no effect. *)
Lemma transport_limit_ignored `{Ext : External} `{M : Mpsc} `{SO : SemaphoreOps} s tcp n net_id router :
  rc_transport (st_receiver s) = TransportTcp tcp ->
  transport_variant (set_transport (TransportTcp (mkTcpTransport (tt_host tcp) (tt_port tcp) n)) s) net_id router =
  transport_variant s net_id router.
Proof. intros Ht. unfold transport_variant. rewrite Ht. reflexivity. Qed.
