(* ===== verification/Endpoints.v ===== *)
(** * Running the transports (crates/tc-otel-ads: transport/mqtt.rs,
      transport/local_router.rs, transport/tcp.rs, listener.rs, ams_server.rs)

    What the [run] functions do around the turns of [Transport]: the options
    of the MQTT client with its certificates, the loop that reconnects to the local
    router, the discovery over UDP, and the accept loop of the listener of the plain
    protocol. Files, sockets and the MQTT client are parameters: what reading a file
    gives, what each attempt to connect and each read gives, and the options that are
    set, in order. *)

From S2P Require Import Prelude.
From S2P Require Import Text.
From S2P Require Import External.
From S2P Require Import Net.
From S2P Require Import Ams.
From S2P Require Import Models.
From S2P Require Import Protocol.
From S2P Require Import Reader.
From S2P Require Import Parser.
From S2P Require Import Registry.
From S2P Require Import Router.
From S2P Require Import ConnectionManager.
From S2P Require Import AmsDispatcher.
From S2P Require Import Transport.
From S2P Require Import Server.
From S2P Require Import Config.
From S2P Require Import Service.

(** ** The options of the MQTT client *)

Inductive CertificateError :=
| CertReadError (path source : string)
| InvalidFormat (msg : string).

Definition CertificateError_to_string (e : CertificateError) : string :=
  match e with
  | CertReadError path source => "Failed to read certificate file " +:+ path +:+ ": " +:+ source
  | InvalidFormat msg => "Invalid certificate format: " +:+ msg
  end.

(** What is set on the options, of the client's own types. *)
Inductive MqttOption :=
| KeepAlive (secs : Z)
| MaxPacketSize (incoming outgoing : Z)
| Credentials (username password : string)
| TransportTls (ca : bytes) (client_auth : option (bytes * bytes))
| LastWill (topic : string) (payload : bytes) (qos : nat) (retain : bool).

Section Mqtt.
Context `{Ext : External} `{M : Mpsc}.

(** [fs::read]: the error as text, or the bytes of the file. *)
Variable fs_read : string -> string + bytes.

Definition load_cert_bytes (path : string) : outcome CertificateError bytes :=
  match fs_read path with
  | inr b => Ok b
  | inl e => Err (CertReadError path e)
  end.

Definition apply_tls_config (t : MqttTlsConfig) : outcome CertificateError MqttOption :=
  (ca_cert <-- load_cert_bytes (mt_ca_cert_path t) ;;
   match mt_client_cert_path t, mt_client_key_path t with
   | Some cert_path, Some key_path =>
     client_cert <-- load_cert_bytes cert_path ;;
     client_key <-- load_cert_bytes key_path ;;
     Ok (TransportTls ca_cert (Some (client_cert, client_key)))
   | _, _ => Ok (TransportTls ca_cert None)
   end)%rust.

(** [MqttAmsTransport::run] up to the connection: the options in the order they are set. *)
Definition mqtt_options (c : MqttRuntimeConfig) : outcome AdsError (list MqttOption) :=
  let credentials :=
    match mr_username c, mr_password c with
    | Some u, Some p => [Credentials u p]
    | _, _ => []
    end in
  let will := LastWill (info_topic (mr_topic_prefix c) (mr_local_net_id c)) (info_xml false) 1 true in
  let first := [KeepAlive 60; MaxPacketSize MAX_AMS_FRAME MAX_AMS_FRAME] ++ credentials in
  match mr_tls c with
  | None => Ok (first ++ [will])
  | Some t =>
    match apply_tls_config t with
    | Ok tls => Ok (first ++ [tls; will])
    | Err e => Err (BufferError ("TLS configuration error: " +:+ CertificateError_to_string e))
    | Panic => Panic
    | OutOfFuel => OutOfFuel
    end
  end.

End Mqtt.

(** ** The loop around the local router *)

Section LocalRouter.
Context `{Ext : External} `{M : Mpsc}.

(** An attempt to connect: refused, or a connection on which the request can be written or not and
    on which the router sends [input]. *)
Inductive Attempt :=
| ConnectFails
| Connects (env : nat -> WriteEnv) (accepts : nat -> bool) (written : bool) (input : bytes).

Definition local_attempt (a : Attempt) (t : LocalRouterAmsTransport) : outcome unit (LocalRouterAmsTransport * list bytes) :=
  match a with
  | ConnectFails => Ok (t, [])
  | Connects env accepts written input => local_session env accepts written input t
  end.

(** The seconds until the next attempt. *)
Definition pause (a : Attempt) : Z :=
  match a with
  | Connects _ _ true input => match handshake_reply input with Ok _ => 2 | _ => 5 end
  | _ => 5
  end.

(** The loop of [LocalRouterAmsTransport::run]: the transport, what was written in each attempt, and the
    time spent waiting. *)
Fixpoint local_run (l : list Attempt) (t : LocalRouterAmsTransport) : outcome unit (LocalRouterAmsTransport * list (list bytes) * Z) :=
  match l with
  | [] => Ok (t, [], 0)
  | a :: l =>
    (res <-- local_attempt a t ;;
     rest <-- local_run l res.1 ;;
     Ok (rest.1.1, res.2 :: rest.1.2, pause a + rest.2))%rust
  end.

End LocalRouter.

(** ** Discovery over UDP *)

Inductive UdpEvent := UdpReceived (src : string) | UdpError.

(** [udp_discovery_listener]: what is sent to whom, when the socket could be bound. *)
Definition udp_discovery_listener (bound : bool) (net_id : AmsNetId) (l : list UdpEvent) : list (string * bytes) :=
  if bound then
    omap (fun ev => match ev with
                    | UdpReceived src => Some (src, build_udp_discovery_response net_id)
                    | UdpError => None
                    end) l
  else [].

(** ** The server under its old name *)

Section Compatibility.
Context `{Ext : External} `{M : Mpsc} `{SO : SemaphoreOps}.

Record AmsTcpServer := mkAmsTcpServer { inner : TcpAmsTransport }.

(** A router with a registry of its own and without a channel for metrics. *)
Definition AmsTcpServer_new (host : string) (net_id : AmsNetId) (ads_port : Z) (log_tx : Sender LogEntry) : AmsTcpServer :=
  mkAmsTcpServer (TcpAmsTransport_new host net_id (AdsRouter_new ads_port log_tx None TaskRegistry_new)).
Definition server_with_config (c : ConnectionConfig) (s : AmsTcpServer) : AmsTcpServer :=
  mkAmsTcpServer (with_connection_config c (inner s)).

End Compatibility.

(** [impl Display for ConnectionRejection]: what is logged of a refused connection. *)
Definition ConnectionRejection_to_string (r : ConnectionRejection) : string :=
  match r with
  | MaxConnectionsReached => "maximum connection limit reached"
  | PerIpLimitReached ip current =>
    "per-IP connection limit reached for " +:+ IpAddr_to_string ip +:+ " (" +:+ dec (Z.of_nat current) +:+ " active)"
  | RateLimitExceeded ip => "connection rate limit exceeded for " +:+ IpAddr_to_string ip
  | ShuttingDown => "service is shutting down"
  end.

(** ** What the MQTT client is told *)

(** The files a TLS configuration reads. *)
Definition cert_paths (t : MqttTlsConfig) : list string :=
  mt_ca_cert_path t ::
  match mt_client_cert_path t, mt_client_key_path t with Some c, Some k => [c; k] | _, _ => [] end.

Section MqttTheorems.
Variable fs_read : string -> string + bytes.

Lemma apply_tls_spec t :
  match apply_tls_config fs_read t with
  | Ok tls => exists ca auth, fs_read (mt_ca_cert_path t) = inr ca /\ tls = TransportTls ca auth /\
      match mt_client_cert_path t, mt_client_key_path t, auth with
      | Some c, Some k, Some (cert, key) => fs_read c = inr cert /\ fs_read k = inr key
      | Some _, Some _, None | None, _, Some _ | _, None, Some _ => False
      | _, _, None => True
      end
  | Err e => exists path err, path ∈ cert_paths t /\ fs_read path = inl err /\ e = CertReadError path err
  | _ => False
  end.
Proof.
  unfold apply_tls_config, load_cert_bytes, cert_paths.
  destruct (fs_read (mt_ca_cert_path t)) as [err|ca] eqn:Hca; simpl; [set_solver|].
  destruct (mt_client_cert_path t) as [c|]; [|exists ca, None; by destruct (mt_client_key_path t)].
  destruct (mt_client_key_path t) as [k|]; [|by exists ca, None].
  destruct (fs_read c) as [err|cert] eqn:Hc; simpl; [exists c, err; set_solver|].
  destruct (fs_read k) as [err|key] eqn:Hk; simpl; [exists k, err; set_solver|by exists ca, (Some (cert, key))].
Qed.

(** The last will, seen by a dispatcher with the same prefix. *)
Lemma will_retracts `{OS : OneshotOps} `{SK : InboundSink} `{!OneshotLaws OS} prefix local :
  wf_net local -> forall d, handle_incoming_mqtt (info_topic prefix local) (info_xml false) prefix d =
    Ok (with_routes (delete local (ad_routes d)) d).
Proof.
  intros Hw d. pose proof (info_topic_ends (OS := OS) prefix local) as Hi.
  pose proof (topic_net_id_topic (OS := OS) prefix local "info" Hw) as Ht.
  unfold handle_incoming_mqtt, mqtt_receive, info_topic. rewrite Hi, info_xml_parsed.
  change "/info" with ("/" +:+ "info"). by rewrite Ht.
Qed.

(** The options that are set. *)
Lemma mqtt_options_members c :
  match mqtt_options fs_read c with
  | Ok l => (forall t, mr_tls c = Some t -> exists x, apply_tls_config fs_read t = Ok x) /\ forall x, x ∈ l <->
      x = KeepAlive 60 \/ x = MaxPacketSize MAX_AMS_FRAME MAX_AMS_FRAME \/
      (exists u p, x = Credentials u p /\ mr_username c = Some u /\ mr_password c = Some p) \/
      (exists t, mr_tls c = Some t /\ apply_tls_config fs_read t = Ok x) \/
      x = LastWill (info_topic (mr_topic_prefix c) (mr_local_net_id c)) (info_xml false) 1 true
  | Err e => exists t e', mr_tls c = Some t /\ apply_tls_config fs_read t = Err e' /\
      e = BufferError ("TLS configuration error: " +:+ CertificateError_to_string e')
  | _ => False
  end.
Proof.
  unfold mqtt_options. cbv zeta.
  set (cr := match mr_username c with Some u => match mr_password c with Some p => [Credentials u p] | None => [] end | None => [] end).
  assert (Hcr : forall x, x ∈ cr <-> exists u p, x = Credentials u p /\ mr_username c = Some u /\ mr_password c = Some p).
  { intros x. unfold cr. destruct (mr_username c) as [u|], (mr_password c) as [p|].
    all: rewrite ?list_elem_of_singleton, ?elem_of_nil; split; [try (by intros ->; eauto); done|].
    all: intros (u' & p' & -> & ? & ?); by simplify_eq. }
  destruct (mr_tls c) as [t|].
  - pose proof (apply_tls_spec t) as Ht. destruct (apply_tls_config fs_read t) as [tls|e| |] eqn:Ha; try done.
    + clear Ht. split; [intros ? [= <-]; eauto|]. intros x. rewrite <- app_assoc. simpl.
      rewrite !elem_of_cons, elem_of_app, Hcr, !elem_of_cons, elem_of_nil.
      assert (Hx : (exists t', Some t = Some t' /\ apply_tls_config fs_read t' = Ok x) <-> x = tls).
      { split; [intros (? & [= <-] & ?); congruence|intros ->; eauto]. }
      rewrite Hx. tauto.
    + eauto.
  - split; [done|]. intros x. rewrite <- app_assoc. simpl. rewrite !elem_of_cons, elem_of_app, Hcr, !elem_of_cons, elem_of_nil.
    assert (Hx : (exists t', None = Some t' /\ apply_tls_config fs_read t' = Ok x) <-> False) by (split; [by intros (? & ? & _)|done]).
    rewrite Hx. tauto.
Qed.

(** The MQTT client is either told everything the configuration asks for, or the transport does not start. With a
    TLS section it connects over TLS with the content of the named certificates, the client's own exactly
    when both its files are named, and an unreadable file ends the start with an error that names it: there is no
    fallback to plain text. Without one it never uses TLS. User and password are passed on exactly when both
    are set. Its last will makes the other dispatchers on the broker forget the route, and every frame that can be
    dispatched fits into a packet. *)
Theorem mqtt_options_exact `{OS : OneshotOps} `{SK : InboundSink} `{!OneshotLaws OS} c :
  wf_net (mr_local_net_id c) ->
  match mqtt_options fs_read c with
  | Ok l =>
    (forall ca auth, TransportTls ca auth ∈ l <->
       exists t, mr_tls c = Some t /\ apply_tls_config fs_read t = Ok (TransportTls ca auth)) /\
    (forall u p, Credentials u p ∈ l <-> mr_username c = Some u /\ mr_password c = Some p) /\
    (forall topic payload qos retain, LastWill topic payload qos retain ∈ l -> retain = true /\
       forall d, handle_incoming_mqtt topic payload (mr_topic_prefix c) d =
                 Ok (with_routes (delete (mr_local_net_id c) (ad_routes d)) d)) /\
    MaxPacketSize MAX_AMS_FRAME MAX_AMS_FRAME ∈ l /\
    (is_Some (mr_tls c) -> exists ca auth, TransportTls ca auth ∈ l)
  | Err e => exists t path err, mr_tls c = Some t /\ path ∈ cert_paths t /\ fs_read path = inl err /\
      e = BufferError ("TLS configuration error: Failed to read certificate file " +:+ path +:+ ": " +:+ err)
  | _ => False
  end.
Proof.
  intros Hw. pose proof (mqtt_options_members c) as Hm.
  assert (Htls : forall t x, apply_tls_config fs_read t = Ok x -> exists ca auth, x = TransportTls ca auth).
  { intros t x Ha. pose proof (apply_tls_spec t) as Ht. rewrite Ha in Ht. destruct Ht as (ca & auth & _ & -> & _). eauto. }
  destruct (mqtt_options fs_read c) as [l|e| |]; [|..|done].
  - destruct Hm as [Hok Hm]. split_and!.
    + intros ca auth. rewrite Hm. split; [|by eauto 6].
      intros [Hx|[Hx|[(u & p & Hx & _)|[Hx|Hx]]]]; done.
    + intros u p. rewrite Hm. split; [|by eauto 10].
      intros [Hx|[Hx|[(u' & p' & Hx & ?)|[(t & _ & Ha)|Hx]]]]; try done; [by simplify_eq|].
      by destruct (Htls _ _ Ha) as (ca & auth & ?).
    + intros topic payload qos retain Hl. apply Hm in Hl as [Hx|[Hx|[(u' & p' & Hx & ?)|[(t & _ & Ha)|Hx]]]]; try done.
      * by destruct (Htls _ _ Ha) as (ca & auth & ?).
      * injection Hx as -> -> -> ->. split; [done|by apply will_retracts].
    + apply Hm. by right; left.
    + intros [t Ht]. destruct (Hok t Ht) as [x Ha]. destruct (Htls _ _ Ha) as (ca & auth & ->).
      exists ca, auth. apply Hm. do 3 right. left. eauto.
  - destruct Hm as (t & e' & Ht & Ha & ->). pose proof (apply_tls_spec t) as Hs. rewrite Ha in Hs.
    destruct Hs as (path & err & Hp & Hr & ->). by exists t, path, err.
  - done.
Qed.

End MqttTheorems.

(** A client certificate without its key, or a key without its certificate, is left out without an error. *)
Lemma half_client_auth_ignored fs_read t ca :
  mt_client_cert_path t = None \/ mt_client_key_path t = None -> fs_read (mt_ca_cert_path t) = inr ca ->
  apply_tls_config fs_read t = Ok (TransportTls ca None).
Proof.
  intros Hor Hca. unfold apply_tls_config, load_cert_bytes. rewrite Hca. simpl.
  destruct (mt_client_cert_path t), (mt_client_key_path t); naive_solver.
Qed.

(** ** What the loop around the local router survives *)

Section LocalTheorems.
Context `{Ext : External} `{M : Mpsc}.

Lemma frame_loop_total env accepts fuel : forall k input r out,
  is_bytes input -> (length input < fuel)%nat -> exists sv, frame_loop env accepts fuel k input r out = Ok sv.
Proof.
  induction fuel as [|fuel IH]; intros k input r out Hb Hf; [lia|]. cbn [frame_loop].
  destruct (Nat.ltb_spec (length input) 6) as [|H6]; [eauto|]. cbv zeta. destruct (_ <? _); [eauto|]. destruct (_ <? _); [eauto|].
  set (n := Z.to_nat _). assert (Hr : is_bytes (drop n (drop 6 input))) by (by apply Forall_drop, Forall_drop).
  assert (Hl : (length (drop n (drop 6 input)) < fuel)%nat) by (rewrite !length_drop; lia).
  destruct (_ =? _); [|by apply IH]. destruct (Nat.ltb_spec (length (take n (drop 6 input))) 32) as [|H32]; [by apply IH|].
  destruct (dispatch_reply (env k) (take n (drop 6 input)) None r) as (h & resp & r' & _ & -> & _); [by apply Forall_take, Forall_drop|done|].
  destruct (accepts (length out)); [by apply IH|eauto].
Qed.

Lemma handshake_rest input net port rest :
  is_bytes input -> handshake_reply input = Ok (net, port, rest) -> is_bytes rest.
Proof.
  intros Hb. unfold handshake_reply. cbv zeta. destruct (_ <? _)%nat; [done|]. destruct (negb _); [done|].
  destruct (_ <? 8); [done|]. destruct (_ <? _); [done|]. unfold le_or_panic, slice_or_panic.
  repeat (case_match; simpl; try done). intros [= _ _ <-]. by apply Forall_drop, Forall_drop.
Qed.

Lemma handshake_completes input : completes (handshake_reply input).
Proof.
  unfold handshake_reply. cbv zeta. destruct (_ <? _)%nat; [done|]. destruct (negb _); [done|].
  destruct (Z.ltb_spec (le_decode (take 4 (drop 2 input))) 8) as [|H8]; [done|].
  destruct (Z.ltb_spec (len (drop 6 input)) (le_decode (take 4 (drop 2 input)))) as [|Hl]; [done|]. unfold le_or_panic, slice_or_panic.
  assert (Ht : (8 <= length (take (Z.to_nat (le_decode (take 4 (drop 2 input)))) (drop 6 input)))%nat).
  { rewrite length_take. unfold len in Hl. lia. }
  by rewrite !slice_at_spec by lia.
Qed.

Definition attempt_bytes (a : Attempt) : Prop := match a with ConnectFails => True | Connects _ _ _ input => is_bytes input end.

(** The Net ID an attempt registers. *)
Definition registered (a : Attempt) : option AmsNetId :=
  match a with
  | Connects _ _ true input => match handshake_reply input with Ok (net, _, _) => Some net | _ => None end
  | _ => None
  end.

Lemma local_attempt_total a t : attempt_bytes a ->
  exists t' out, local_attempt a t = Ok (t', out) /\ lt_register_port t' = lt_register_port t /\
    lt_local_net_id t' = default (lt_local_net_id t) (registered a) /\ (registered a = None -> t' = t) /\
    pause a = match registered a with Some _ => 2 | None => 5 end.
Proof.
  destruct a as [|env accepts written input]; [by eexists _, _|]. intros Hb. unfold local_attempt, local_session.
  cbn [pause registered]. destruct written; cbn [negb]; [|by eexists _, _]. pose proof (handshake_completes input) as Hc.
  destruct (handshake_reply input) as [[[net port] rest]|e| |] eqn:Hh; try done; [|by eexists _, _].
  apply handshake_rest in Hh; [|done].
  destruct (frame_loop_total env accepts (S (length rest)) 0 rest (lt_router t) [] Hh ltac:(lia)) as [sv ->]. by eexists _, _.
Qed.

(** What any attempts leave behind. *)
Lemma local_run_total l : forall t, Forall attempt_bytes l ->
  exists t' outs secs, local_run l t = Ok (t', outs, secs) /\ length outs = length l /\
    2 * Z.of_nat (length l) <= secs <= 5 * Z.of_nat (length l) /\
    lt_register_port t' = lt_register_port t /\
    lt_local_net_id t' = default (lt_local_net_id t) (last (omap registered l)) /\
    (omap registered l = [] -> t' = t /\ secs = 5 * Z.of_nat (length l)).
Proof.
  induction l as [|a l IH]; intros t Hl.
  - exists t, [], 0. split_and!; done || simpl; lia || done.
  - apply Forall_cons in Hl as [Ha Hl]. destruct (local_attempt_total a t Ha) as (t1 & out & Hrun & Hp & Hn & Hsame & Hpause).
    destruct (IH t1 Hl) as (t' & outs & secs & Hrun' & Hlen & Hsecs & Hp' & Hn' & Hsame').
    exists t', (out :: outs), (pause a + secs). cbn [local_run]. rewrite Hrun. cbn [outcome_bind fst snd]. rewrite Hrun'.
    cbn [outcome_bind fst snd omap list_omap length]. rewrite Hpause. split_and!; [done|lia|destruct (registered a); lia|destruct (registered a); lia|congruence|..].
    + rewrite Hn', Hn. destruct (registered a) as [n|]; [|done]. simpl. rewrite last_cons. by destruct (last (omap registered l)).
    + destruct (registered a); [done|]. intros Ho. rewrite Hsame in Hsame' by done. destruct (Hsame' Ho) as [-> ->]. split; [done|lia].
Qed.

Lemma local_run_app l l' t : local_run (l ++ l') t =
  (first <-- local_run l t ;; rest <-- local_run l' first.1.1 ;; Ok (rest.1.1, first.1.2 ++ rest.1.2, first.2 + rest.2))%rust.
Proof.
  revert t. induction l as [|a l IH]; intros t; cbn [local_run app].
  - cbn [outcome_bind fst snd]. destruct (local_run l' t) as [[[? ?] ?]| | |]; done.
  - destruct (local_attempt a t) as [[t1 out]| | |]; [|done..]. cbn [outcome_bind fst snd]. rewrite IH.
    destruct (local_run l t1) as [[[t2 outs] secs]| | |]; [|done..]. cbn [outcome_bind fst snd].
    destruct (local_run l' t2) as [[[? ?] ?]| | |]; [|done..]. cbn [outcome_bind fst snd]. by rewrite Z.add_assoc.
Qed.

(** C36: The loop around the local router recovers from everything. Whatever the attempts before brought (refused connections, failed
    writes, replies and frames of any bytes) it goes on, waiting two to five seconds after each; the port it asks for stays
    the same, the Net ID it answers to is the one registered last, and attempts that register nothing change nothing. The
    next attempt in which the local router answers is served in full: the port is registered, every frame answered in
    order by the router as the earlier sessions left it, and the port released. *)
Theorem local_router_recovers (l : list Attempt) t env net port extra fs :
  Forall attempt_bytes l -> wf_net net -> in_width 16 port -> in_width 32 (8 + len extra) -> Forall wire_frame fs ->
  exists t' outs secs,
    local_run l t = Ok (t', outs, secs) /\ length outs = length l /\
    2 * Z.of_nat (length l) <= secs <= 5 * Z.of_nat (length l) /\
    lt_register_port t' = lt_register_port t /\
    lt_local_net_id t' = default (lt_local_net_id t) (last (omap registered l)) /\
    (omap registered l = [] -> t' = t /\ secs = 5 * Z.of_nat (length l)) /\
    let answers := dispatch_each env None 0 fs (lt_router t') in
    local_run (l ++ [Connects env (fun _ => true) true
      (amstcp CMD_PORT_CONNECT (net_bytes net ++ le_encode 2 port ++ extra) ++ stream_of fs)]) t =
    Ok (Transport.mkLocalRouter (lt_register_port t) net answers.2,
        outs ++ [[handshake_request (lt_register_port t)] ++ map (amstcp AMS_TCP_CMD_ADS) answers.1 ++
                 [make_amstcp_header AMS_TCP_CMD_PORT_CLOSE 0]], secs + 2).
Proof.
  intros Hl Hn Hp He Hfs. destruct (local_run_total l t Hl) as (t' & outs & secs & Hrun & Hlen & Hsecs & Hport & Hnet & Hsame).
  exists t', outs, secs. split_and!; [done..|lia|lia|done|done|done|]. cbv zeta.
  rewrite local_run_app, Hrun. cbn [outcome_bind fst snd local_run local_attempt].
  rewrite local_session_serves by done. cbn [outcome_bind fst snd pause]. rewrite handshake_read_back by done.
  by rewrite Hport.
Qed.

End LocalTheorems.

(** ** The listener of the plain protocol *)

Section Listener.
Context `{Ext : External} `{M : Mpsc} `{SO : SemaphoreOps}.

Record AdsListener := mkAdsListener {
  al_host : string;
  al_port : Z;
  al_log_tx : Sender LogEntry;
  al_conn_manager : ConnectionManager;
}.

Definition listener_with_config (host : string) (port : Z) (log_tx : Sender LogEntry) (config : ConnectionConfig) : AdsListener :=
  mkAdsListener host port log_tx (ConnectionManager_new config).
Definition AdsListener_new (host : string) (port : Z) (log_tx : Sender LogEntry) : AdsListener :=
  listener_with_config host port log_tx ConnectionConfig_default.
Definition with_max_connections (host : string) (port : Z) (log_tx : Sender LogEntry) (max_connections : nat) : AdsListener :=
  let d := ConnectionConfig_default in
  listener_with_config host port log_tx
    (mkConnConfig max_connections (cc_idle_timeout_secs d) (cc_max_connections_per_ip d) (cc_rate_limit_per_sec_per_ip d)
       (cc_keepalive_interval_secs d) (cc_send_buffer_size d) (cc_shutdown_timeout_secs d)).

(** A turn of [AdsListener::handle_connection]: the byte that was written back, or [None] when the connection ends. *)
Definition listener_turn (uuid : string) (now : DateTime) (accepted : bool) (peer_ip : string) (rd : ReadResult)
    (log_tx : Sender LogEntry) : outcome unit (option Z * Sender LogEntry) :=
  match rd with
  | TimedOut | ReadBytes [] | ReadError _ => Ok (None, log_tx)
  | ReadBytes data =>
    match parse now data with
    | Ok e => Ok (if accepted then Some 1 else None, (try_send log_tx (ads_to_log_entry uuid now e peer_ip)).1)
    | Err _ => Ok (if accepted then Some 0 else None, log_tx)
    | Panic => Panic
    | OutOfFuel => OutOfFuel
    end
  end.

(** A connection that was admitted: the reads taken, the bytes written, and whether its handler has returned. *)
Record Reading := mkReading {
  rc_taken : list ReadResult;
  rc_acks : list Z;
  rc_ended : bool;
}.

Record Listener := mkListener {
  ln_limits : System;
  ln_conns : gmap nat Reading;
  ln_log_tx : Sender LogEntry;
}.

Definition Listener_new (config : ConnectionConfig) (t0 : Z) (log_tx : Sender LogEntry) : Listener :=
  mkListener (sys_init config t0) ∅ log_tx.

(** The permit of a connection is held until its handler has returned. *)
Definition permits_kept (conns : gmap nat Reading) (sys sys' : System) : Prop :=
  forall t ip, sys_threads sys !! t = Some (ip, Connected) -> sys_threads sys' !! t <> Some (ip, Connected) ->
    exists c, conns !! t = Some c /\ rc_ended c = true.

(** [AdsListener::start] with the connections it spawned: the manager acts, a connection with a permit is spawned,
    or one takes its next read. *)
Inductive listener_step : Listener -> Listener -> Prop :=
| listener_limits s sys' :
    sys_step (ln_limits s) sys' -> permits_kept (ln_conns s) (ln_limits s) sys' ->
    listener_step s (mkListener sys' (ln_conns s) (ln_log_tx s))
| listener_spawn s t ip :
    sys_threads (ln_limits s) !! t = Some (ip, Connected) -> ln_conns s !! t = None ->
    listener_step s (mkListener (ln_limits s) (<[t := mkReading [] [] false]> (ln_conns s)) (ln_log_tx s))
| listener_read s t ip c rd uuid now accepted ack log_tx :
    sys_threads (ln_limits s) !! t = Some (ip, Connected) -> ln_conns s !! t = Some c -> rc_ended c = false ->
    listener_turn uuid now accepted (IpAddr_to_string ip) rd (ln_log_tx s) = Ok (ack, log_tx) ->
    listener_step s (mkListener (ln_limits s)
      (<[t := mkReading (rc_taken c ++ [rd]) (rc_acks c ++ option_list ack) (bool_decide (ack = None))]> (ln_conns s)) log_tx).

(** [listener_connection] takes such turns. *)
Lemma listener_connection_turns accepts draw peer k rd reads tx acks :
  listener_connection accepts draw peer k (rd :: reads) tx acks =
  match listener_turn (draw k).1 (draw k).2 (accepts (length acks)) peer rd tx with
  | Ok (Some a, tx') => listener_connection accepts draw peer (S k) reads tx' (acks ++ [a])
  | Ok (None, tx') => match rd with ReadError e => Err (BufferError ("Read error: " +:+ e)) | _ => Ok (tx', acks) end
  | Err _ | Panic => Panic
  | OutOfFuel => OutOfFuel
  end.
Proof.
  destruct rd as [[|b data]|e|]; try done. cbn [listener_connection listener_turn].
  destruct (parse (draw k).2 (b :: data)) as [e|e| |]; try done; by destruct (accepts (length acks)).
Qed.

(** A turn never fails. *)
Lemma listener_turn_total uuid now accepted peer rd tx : exists ack tx', listener_turn uuid now accepted peer rd tx = Ok (ack, tx').
Proof.
  destruct rd as [[|b data]|e|]; simpl; eauto. pose proof (parse_completes now (b :: data)).
  destruct (parse now (b :: data)); try done; eauto.
Qed.

(** The byte [a] answers the read [rd]: one for a message of the protocol, zero for any other bytes. *)
Definition acknowledges (rd : ReadResult) (a : Z) : Prop :=
  exists data now, rd = ReadBytes data /\ data <> [] /\ a = Z.b2z (is_ok (parse now data)).

Definition reading_ok (c : Reading) : Prop :=
  exists answered rest, rc_taken c = answered ++ rest /\ Forall2 acknowledges answered (rc_acks c) /\
    length rest = Z.to_nat (Z.b2z (rc_ended c)).

Lemma listener_turn_acks uuid now accepted peer rd tx ack tx' :
  listener_turn uuid now accepted peer rd tx = Ok (ack, tx') ->
  match ack with Some a => acknowledges rd a | None => True end.
Proof.
  destruct rd as [[|b data]|e|]; simpl; try (by intros [= <- <-]).
  destruct (parse now (b :: data)) as [e|e| |] eqn:Hp; try done; intros [= <- <-]; destruct accepted; try done;
    exists (b :: data), now; by rewrite Hp.
Qed.

Definition listener_inv (s : Listener) : Prop :=
  forall t c, ln_conns s !! t = Some c -> reading_ok c /\
    exists ip ph, sys_threads (ln_limits s) !! t = Some (ip, ph) /\ ~ before_service ph.

(** A thread keeps its address, and once admitted it is never again before its service. *)
Lemma sys_step_admitted s s' t ip ph : sys_step s s' -> sys_threads s !! t = Some (ip, ph) -> ~ before_service ph ->
  exists ph', sys_threads s' !! t = Some (ip, ph') /\ ~ before_service ph'.
Proof.
  intros Hs Ht Hb. inversion Hs as [? t' ip' Hn|? t' ip' ph1 m' ph' Ht' Ha|? d Hd|]; subst; simpl; try by eauto.
  - rewrite lookup_insert_ne by congruence. eauto.
  - destruct (decide (t' = t)) as [->|Hne]; [|rewrite lookup_insert_ne by done; eauto].
    rewrite lookup_insert_eq. simplify_eq. exists ph'. split; [done|]. unfold act in Ha.
    destruct ph; simpl in Hb; try done; repeat case_match; simplify_eq; simpl; tauto.
Qed.

Lemma listener_inv_step s s' : listener_inv s -> listener_step s s' -> listener_inv s'.
Proof.
  intros Hi Hs. inversion Hs as [? sys' Hstep Hk|? t ip Ht Hn|? t ip c rd uuid now acc ack tx Ht Hc He Hturn]; subst; intros t' c' Hc'; simpl in *.
  - destruct (Hi _ _ Hc') as [Hr (ip & ph & Ht & Hb)]. split; [done|].
    destruct (sys_step_admitted _ _ _ _ _ Hstep Ht Hb) as (ph' & ? & ?). eauto.
  - apply lookup_insert_Some in Hc' as [[<- <-]|[_ Hc']]; [|by apply Hi].
    split; [by exists [], []|]. exists ip, Connected. by split; [|intros []].
  - apply lookup_insert_Some in Hc' as [[<- <-]|[_ Hc']]; [|by apply Hi].
    destruct (Hi _ _ Hc) as [(answered & rest & Hta & Hack & Hl) Hph]. split; [|done].
    rewrite He in Hl. apply length_zero_iff_nil in Hl as ->. rewrite app_nil_r in Hta.
    apply listener_turn_acks in Hturn. unfold reading_ok. simpl. rewrite Hta. destruct ack as [a|].
    + exists (answered ++ [rd]), []. rewrite app_nil_r. split_and!; [done| |done]. by apply Forall2_app; [|constructor].
    + exists answered, [rd]. by rewrite app_nil_r.
Qed.

Lemma listener_reachable config t0 tx s : rtc listener_step (Listener_new config t0 tx) s ->
  listener_inv s /\ rtc sys_step (sys_init config t0) (ln_limits s).
Proof.
  intros Hr. assert (H0 : listener_inv (Listener_new config t0 tx)) by (by intros t c).
  assert (Hg : forall a, rtc listener_step a s -> listener_inv a -> listener_inv s /\ rtc sys_step (ln_limits a) (ln_limits s)).
  { clear. intros a Ha. induction Ha as [a|a b s Hab _ IH]; [done|]. intros Hi.
    destruct (IH (listener_inv_step _ _ Hi Hab)) as [Hs Hl]. split; [done|]. by inversion Hab; subst; [eapply rtc_l|..]. }
  by destruct (Hg _ Hr H0).
Qed.

Context `{!SemaphoreLaws SO}.

(** The listener of the plain protocol in every interleaving of arriving, admitted, reading and ending connections:
    no more connections are read from at once than the maximum, nor from one address than the maximum per address; only an
    admitted connection is ever read from; the bytes written to it answer its reads one by one and in
    order, by whether they were a message, all of them while it lives and all but the last when it has ended. *)
Theorem listener_serves config t0 tx s :
  Z.of_nat (cc_max_connections config) < 2 ^ 64 ->
  rtc listener_step (Listener_new config t0 tx) s ->
  (count_threads serving (sys_threads (ln_limits s)) <= cc_max_connections config)%nat /\
  (forall ip, count_threads (serving_ip ip) (sys_threads (ln_limits s)) <= cc_max_connections_per_ip config)%nat /\
  (forall t c, ln_conns s !! t = Some c -> reading_ok c) /\
  (forall t ip rej, sys_threads (ln_limits s) !! t = Some (ip, Rejected rej) -> ln_conns s !! t = None).
Proof using SemaphoreLaws0.
  intros Hmax Hr. destruct (listener_reachable _ _ _ _ Hr) as [Hi Hl].
  destruct (serving_limits config t0 (ln_limits s) Hmax Hl) as [H1 H2]. split_and!; [done|done|by intros t c Hc; destruct (Hi _ _ Hc)|].
  intros t ip rej Ht. destruct (ln_conns s !! t) as [c|] eqn:Hc; [|done].
  destruct (Hi _ _ Hc) as [_ (ip' & ph & Ht' & Hb)]. simplify_eq. by destruct Hb.
Qed.

End Listener.
