(* ===== verification/Channels.v ===== *)
(** * Channels and the tasks behind them (tokio mpsc; crates/tc-otel-service:
    dispatcher.rs, trace_dispatcher.rs)

    The receiving end of a bounded channel, and an export task: a channel with
    the batching worker of [Worker] at its end. The three pillars of the
    service are instances: what a task does to a record it receives is an
    argument. A task can die (an interval of zero panics when it is made); then
    its receiver is dropped and the channel takes nothing more, while the posts
    that were started go on. *)

From S2P Require Import Prelude.
From S2P Require Import External.
From S2P Require Import Router.
From S2P Require Import Worker.

(** ** The receiving end *)

Class Receiver (M : Mpsc) := {
  (** [mpsc::channel(n)], for n > 0. *)
  channel : forall {A}, nat -> Sender A;
  capacity : forall {A}, Sender A -> nat;
  (** Whether the receiver is still there. *)
  receiving : forall {A}, Sender A -> bool;
  (** [rx.recv()] when it completes with a value. *)
  recv : forall {A}, Sender A -> option (A * Sender A);
  drop_receiver : forall {A}, Sender A -> Sender A;
}.

Class ReceiverLaws (M : Mpsc) (RC : Receiver M) : Prop := {
  channel_new : forall A n, let tx : Sender A := channel n in
    queued tx = [] /\ capacity tx = n /\ receiving tx = true;
  try_send_takes : forall A (tx : Sender A) a,
    (try_send tx a).2 = receiving tx && (length (queued tx) <? capacity tx)%nat;
  try_send_keeps : forall A (tx : Sender A) a,
    capacity (try_send tx a).1 = capacity tx /\ receiving (try_send tx a).1 = receiving tx;
  recv_none : forall A (tx : Sender A), recv tx = None <-> queued tx = [];
  recv_some : forall A (tx : Sender A) a tx', recv tx = Some (a, tx') ->
    queued tx = a :: queued tx' /\ capacity tx' = capacity tx /\ receiving tx' = receiving tx;
  drop_receiver_spec : forall A (tx : Sender A),
    queued (drop_receiver tx) = [] /\ capacity (drop_receiver tx) = capacity tx /\
    receiving (drop_receiver tx) = false;
}.

(** The bounded queue of [SimpleExternal] with its receiving end. *)
Module SimpleReceiver.
Import SimpleExternal.

Definition simple_recv {A} (tx : SimpleSender A) : option (A * SimpleSender A) :=
  match s_queue tx with
  | [] => None
  | a :: q => Some (a, mkSender (s_capacity tx) q (s_closed tx))
  end.

#[export] Instance simple_receiver : Receiver simple_mpsc := {|
  channel := fun A n => (mkSender n [] false : @Sender simple_mpsc A);
  capacity := fun A => @s_capacity A;
  receiving := fun A (tx : @Sender simple_mpsc A) => negb (s_closed tx);
  recv := @simple_recv;
  drop_receiver := fun A (tx : @Sender simple_mpsc A) => mkSender (s_capacity tx) [] true;
|}.

#[export] Instance simple_receiver_laws : ReceiverLaws simple_mpsc simple_receiver.
Proof.
  split; simpl; try done.
  - intros A tx a. unfold simple_try_send. destruct (s_closed tx); [done|]. simpl.
    rewrite Nat.leb_antisym. by destruct (_ <? _)%nat.
  - intros A tx a. unfold simple_try_send. destruct (s_closed tx) eqn:Hc; simpl; [by rewrite Hc|].
    destruct (_ <=? _)%nat; simpl; by rewrite ?Hc.
  - intros A tx. unfold simple_recv. by destruct (s_queue tx).
  - intros A tx a tx' H. unfold simple_recv in H. destruct (s_queue tx) eqn:Hq; simplify_eq. done.
Qed.

End SimpleReceiver.

(** ** An export task *)

Section ExportTask.
Context `{M : Mpsc} {RC : Receiver M} `{SO : SemaphoreOps} {R X : Type}.

(** [et_alive]: the task has not panicked. For the theorems only:
    [et_accepted], the records the channel took; [et_taken], those the task took, before
    and after it worked on them; when the task died, [et_batch_lost], those of the batch that was being
    filled, and [et_lost], those that were in the channel. *)
Record ExportTask := mkTask {
  et_tx : Sender R;
  et_worker : BatchWorker (R:=R) (X:=X);
  et_alive : bool;
  et_accepted : list R;
  et_taken : list (R * R);
  et_batch_lost : list R;
  et_lost : list R;
}.

Definition ExportTask_new (cap : nat) (cfg : WorkerConfig (X:=X)) (config_rx : bool) (max_inflight : nat) : ExportTask :=
  mkTask (channel cap) (BatchWorker_new cfg config_rx max_inflight) true [] [] [] [].

(** A sender offers a record. *)
Definition task_offer (r : R) (t : ExportTask) : ExportTask :=
  let '(tx, ok) := try_send (et_tx t) r in
  mkTask tx (et_worker t) (et_alive t) (if ok then et_accepted t ++ [r] else et_accepted t) (et_taken t) (et_batch_lost t) (et_lost t).

(** [Some(record) = rx.recv()]: [f] is done to the record before it is pushed. *)
Definition task_take (f : R -> R) (t : ExportTask) : ExportTask :=
  if et_alive t then
    match recv (et_tx t) with
    | Some (r, tx) =>
      mkTask tx (on_record (f r) (queued tx) (et_worker t)) true (et_accepted t) (et_taken t ++ [(r, f r)]) (et_batch_lost t) (et_lost t)
    | None => t
    end
  else t.

Definition with_worker (w : BatchWorker) (t : ExportTask) : ExportTask :=
  mkTask (et_tx t) w (et_alive t) (et_accepted t) (et_taken t) (et_batch_lost t) (et_lost t).

(** [_ = interval.tick()]. *)
Definition task_tick (t : ExportTask) : ExportTask :=
  if et_alive t then with_worker (on_tick (et_worker t)) t else t.

(** The batch of the worker is dropped; its posts go on. *)
Definition drop_batch (w : BatchWorker (R:=R) (X:=X)) : BatchWorker :=
  mkWorker (bw_queue w) (bw_open w) (bw_config w) (bw_config_rx w) [] (bw_inflight w) (bw_running w)
    (concat (bw_flushed w).*2) (bw_flushed w) (bw_largest w).

(** The panic of a task unwinds it: its receiver and its batch are dropped. *)
Definition task_die (t : ExportTask) : ExportTask :=
  mkTask (drop_receiver (et_tx t)) (drop_batch (et_worker t)) false (et_accepted t) (et_taken t)
    (et_batch_lost t ++ bw_batch (et_worker t)) (et_lost t ++ queued (et_tx t)).

(** The configuration branch: what the new settings make of the worker's configuration, or [None]
    when the watch channel was closed. *)
Definition task_config (new : option (outcome Empty_set (WorkerConfig (X:=X)))) (t : ExportTask) : ExportTask :=
  if et_alive t && bw_config_rx (et_worker t) then
    match new with
    | Some (Ok cfg) => with_worker (on_config (Some cfg) (et_worker t)) t
    | Some _ => task_die t
    | None => with_worker (on_config None (et_worker t)) t
    end
  else t.

(** The [i]-th of the posts under way ends and drops its permit. *)
Definition post_ends (i : nat) (w : BatchWorker (R:=R) (X:=X)) : BatchWorker :=
  match bw_running w !! i with
  | Some _ =>
    mkWorker (bw_queue w) (bw_open w) (bw_config w) (bw_config_rx w) (bw_batch w) (sem_release (bw_inflight w))
      (take i (bw_running w) ++ drop (S i) (bw_running w)) (bw_received w) (bw_flushed w) (bw_largest w)
  | None => w
  end.

Definition task_posted (i : nat) (t : ExportTask) : ExportTask := with_worker (post_ends i (et_worker t)) t.

(** The task as it is spawned: it makes its interval first. *)
Definition ExportTask_spawn (cap : nat) (cfg : WorkerConfig (X:=X)) (config_rx : bool) (max_inflight : nat) : ExportTask :=
  let t := ExportTask_new cap cfg config_rx max_inflight in
  match start_worker cfg with Ok _ => t | _ => task_die t end.

(** ** What holds of every task *)

Record task_inv (cap max_inflight : nat) (t : ExportTask) : Prop := {
  ti_channel : et_accepted t = (et_taken t).*1 ++ et_lost t ++ queued (et_tx t);
  ti_lost : if et_alive t then et_batch_lost t = [] /\ et_lost t = []
            else bw_batch (et_worker t) = [] /\ queued (et_tx t) = [];
  ti_received : bw_received (et_worker t) ++ et_batch_lost t = (et_taken t).*2;
  ti_worker : worker_inv max_inflight (et_worker t);
  ti_receiving : receiving (et_tx t) = et_alive t;
  ti_capacity : capacity (et_tx t) = cap /\ (length (queued (et_tx t)) <= cap)%nat;
}.

Context `{!MpscLaws M} `{!ReceiverLaws M RC} `{!SemaphoreLaws SO}.

Lemma on_record_inv n r queue (w : BatchWorker (R:=R) (X:=X)) : worker_inv n w ->
  worker_inv n (on_record r queue w) /\ bw_received (on_record r queue w) = bw_received w ++ [r].
Proof using SemaphoreLaws0.
  intros Hw.
  set (w0 := mkWorker (r :: queue) (bw_open w) (bw_config w) (bw_config_rx w) (bw_batch w) (bw_inflight w)
               (bw_running w) (bw_received w) (bw_flushed w) (bw_largest w)).
  split; [|by unfold on_record, spawn_flush; repeat case_match].
  change (on_record r queue w) with (on_record r queue w0). apply (worker_step_inv n w0); [|by constructor].
  destruct Hw as [? ? ? ? ? ?]. by split.
Qed.

Lemma on_tick_inv n (w : BatchWorker (R:=R) (X:=X)) : worker_inv n w ->
  worker_inv n (on_tick w) /\ bw_received (on_tick w) = bw_received w.
Proof using SemaphoreLaws0.
  intros Hw. split; [by eapply worker_step_inv; [|constructor]|]. by unfold on_tick, spawn_flush; repeat case_match.
Qed.

Lemma on_config_inv n new (w : BatchWorker (R:=R) (X:=X)) : bw_config_rx w = true -> worker_inv n w ->
  worker_inv n (on_config new w) /\ bw_received (on_config new w) = bw_received w.
Proof using SemaphoreLaws0.
  intros Hrx Hw. split; [by eapply worker_step_inv; [|by constructor]|]. by destruct new.
Qed.

Lemma post_ends_inv n i w : worker_inv n w ->
  worker_inv n (post_ends i w) /\ bw_received (post_ends i w) = bw_received w.
Proof using SemaphoreLaws0.
  intros Hw. unfold post_ends. destruct (bw_running w !! i) as [p|] eqn:Hi; [|done]. split; [|done].
  eapply worker_step_inv; [done|]. eapply StepPosted. by rewrite <- (take_drop_middle _ _ _ Hi) at 1.
Qed.

Lemma try_send_grows {A} (tx : Sender A) a :
  queued (try_send tx a).1 = queued tx ++ (if (try_send tx a).2 then [a] else []).
Proof using MpscLaws0. rewrite try_send_queued. by destruct (try_send tx a).2; rewrite ?app_nil_r. Qed.

(** The channel never holds more than its capacity. *)
Lemma try_send_bounded {A} (tx : Sender A) a :
  (length (queued tx) <= capacity tx)%nat -> (length (queued (try_send tx a).1) <= capacity tx)%nat.
Proof using MpscLaws0 ReceiverLaws0.
  intros Hl. rewrite try_send_grows, length_app, try_send_takes.
  destruct (receiving tx); simpl; [|lia]. destruct (Nat.ltb_spec (length (queued tx)) (capacity tx)); simpl; lia.
Qed.

Lemma task_offer_inv cap n r t : task_inv cap n t -> task_inv cap n (task_offer r t).
Proof using MpscLaws0 ReceiverLaws0.
  intros [Hc Hl Hr Hw Hrx [Hcap Hlen]]. unfold task_offer.
  pose proof (try_send_grows (et_tx t) r) as Hg. pose proof (try_send_takes _ (et_tx t) r) as Ht.
  pose proof (try_send_keeps _ (et_tx t) r) as [Hk1 Hk2]. pose proof (try_send_bounded (et_tx t) r) as Hb.
  destruct (try_send (et_tx t) r) as [tx ok]. cbn [fst snd] in *. split; simpl; try done.
  - rewrite Hg. destruct ok; rewrite ?app_nil_r, Hc, ?app_assoc; done.
  - destruct (et_alive t); [done|]. destruct Hl as [Hb0 Hl]. rewrite Hrx in Ht. simpl in Ht. subst ok. by rewrite Hg, Hl.
  - by rewrite Hk2.
  - rewrite Hk1. split; [done|]. rewrite <- Hcap. apply Hb. lia.
Qed.

Lemma task_take_inv cap n f t : task_inv cap n t -> task_inv cap n (task_take f t).
Proof using ReceiverLaws0 SemaphoreLaws0.
  intros Hi. pose proof Hi as [Hc Hl Hr Hw Hrx [Hcap Hlen]]. unfold task_take.
  destruct (et_alive t) eqn:Ha; [|done]. destruct (recv (et_tx t)) as [[r tx]|] eqn:Hrecv; [|done].
  destruct (recv_some _ _ _ _ Hrecv) as (Hq & Hk1 & Hk2).
  destruct (on_record_inv n (f r) (queued tx) _ Hw) as [Hw' Hrec]. destruct Hl as [Hbl Hl].
  split; simpl; try done.
  - rewrite Hc, Hl, Hq, fmap_app. simpl. by rewrite <- app_assoc.
  - rewrite Hrec, fmap_app, <- Hr, Hbl. simpl. by rewrite !app_nil_r.
  - by rewrite Hk2.
  - rewrite Hq in Hlen. simpl in Hlen. rewrite Hk1. split; [done|lia].
Qed.

Lemma with_worker_inv cap n w t :
  task_inv cap n t -> worker_inv n w /\ bw_received w = bw_received (et_worker t) ->
  (et_alive t = false -> bw_batch w = bw_batch (et_worker t)) -> task_inv cap n (with_worker w t).
Proof.
  intros [Hc Hl Hr Hw Hrx Hcap] [Hw' Hr'] Hb. split; simpl; try done; [|by rewrite Hr'].
  destruct (et_alive t); [done|]. by rewrite Hb.
Qed.

Lemma drop_batch_inv n w : worker_inv n w -> worker_inv n (drop_batch w).
Proof. intros [Hr Hp Hg Hs Hc Hb]. split; simpl; try done; [by rewrite app_nil_r|lia]. Qed.

Lemma task_die_inv cap n t : task_inv cap n t -> task_inv cap n (task_die t).
Proof using ReceiverLaws0.
  intros [Hc Hl Hr Hw Hrx [Hcap Hlen]]. destruct (drop_receiver_spec _ (et_tx t)) as (Hq & Hk1 & Hk2).
  split; simpl; try done.
  - by rewrite Hq, app_nil_r, Hc.
  - rewrite <- Hr, (wi_records _ _ Hw). destruct (et_alive t); destruct Hl as [Hl1 Hl2]; rewrite Hl1, ?app_nil_r; [|done].
    by rewrite app_nil_l.
  - by apply drop_batch_inv.
  - rewrite Hq, Hk1. simpl. split; [done|lia].
Qed.

Lemma task_tick_inv cap n t : task_inv cap n t -> task_inv cap n (task_tick t).
Proof using SemaphoreLaws0.
  intros Hi. unfold task_tick. destruct (et_alive t) eqn:Ha; [|done].
  apply with_worker_inv; [done| |congruence]. apply on_tick_inv, Hi.
Qed.

Lemma task_config_inv cap n new t : task_inv cap n t -> task_inv cap n (task_config new t).
Proof using ReceiverLaws0 SemaphoreLaws0.
  intros Hi. unfold task_config. destruct (_ && _) eqn:Hb; [|done]. apply andb_prop in Hb as [Ha Hrx].
  destruct new as [[cfg|[]| |]|]; try (by apply task_die_inv);
    (apply with_worker_inv; [done| |congruence]; apply on_config_inv; [done|apply Hi]).
Qed.

Lemma task_posted_inv cap n i t : task_inv cap n t -> task_inv cap n (task_posted i t).
Proof using SemaphoreLaws0.
  intros Hi. apply with_worker_inv; [done|apply post_ends_inv, Hi|]. intros _. unfold post_ends. by case_match.
Qed.

Lemma task_inv_new cap n cfg crx : task_inv cap n (ExportTask_new cap cfg crx n).
Proof using ReceiverLaws0 SemaphoreLaws0.
  destruct (channel_new R cap) as (Hq & Hk & Hr). split; simpl; try done.
  - split; simpl; try done; [|lia]. rewrite semaphore_new_available. lia.
  - rewrite Hq, Hk. simpl. split; [done|lia].
Qed.

Lemma task_inv_spawn cap n cfg crx : task_inv cap n (ExportTask_spawn cap cfg crx n).
Proof using ReceiverLaws0 SemaphoreLaws0.
  unfold ExportTask_spawn. destruct (start_worker cfg); [|apply task_die_inv..]; apply task_inv_new.
Qed.

Lemma spawn_fresh cap n cfg crx : let t := ExportTask_spawn cap cfg crx n in
  et_alive t = negb (wc_flush_interval cfg =? 0) /\ et_accepted t = [] /\ et_taken t = [].
Proof. unfold ExportTask_spawn, start_worker, make_interval. by destruct (_ =? 0). Qed.

(** What the steps do to the accounts. *)
Lemma task_offer_accepted r t :
  et_accepted (task_offer r t) = et_accepted t ++ (if (try_send (et_tx t) r).2 then [r] else []) /\
  et_taken (task_offer r t) = et_taken t.
Proof. unfold task_offer. destruct (try_send _ _) as [tx ok]. by destruct ok; rewrite ?app_nil_r. Qed.

Lemma task_config_same new t :
  et_accepted (task_config new t) = et_accepted t /\ et_taken (task_config new t) = et_taken t.
Proof. unfold task_config, with_worker, task_die. by repeat case_match. Qed.

(** A record the task leaves as it is. *)
Definition as_made (rr : R * R) : Prop := rr.1 = rr.2.

Lemma task_take_as_made t : Forall as_made (et_taken t) ->
  et_accepted (task_take id t) = et_accepted t /\ Forall as_made (et_taken (task_take id t)).
Proof.
  intros Hf. unfold task_take. destruct (et_alive t); [|done]. destruct (recv _) as [[r tx]|]; [|done].
  split; [done|]. simpl. apply Forall_app. split; [done|]. by apply Forall_singleton.
Qed.

Lemma as_made_same l : Forall as_made l -> l.*1 = l.*2.
Proof. induction 1 as [|[a b] l Hab _ IH]; [done|]. cbn in *. rewrite IH. by f_equal. Qed.

(** While a permit is free, a task that lives takes what waits, and posts what it hands over; at a tick it hands over
    all it holds. A record offered while there is room waits. *)
Lemma task_take_next f fs rs r q t : et_alive t = true -> queued (et_tx t) = r :: q ->
  (0 < available_permits (bw_inflight (et_worker t)))%nat -> posted_since fs (et_worker t) rs ->
  let t' := task_take f t in
  et_alive t' = true /\ queued (et_tx t') = q /\ posted_since fs (et_worker t') (rs ++ [f r]).
Proof using ReceiverLaws0 SemaphoreLaws0.
  intros Ha Hq Hav Hp t'. unfold t', task_take. rewrite Ha. destruct (recv (et_tx t)) as [[r' tx]|] eqn:Hr.
  - destruct (recv_some _ _ _ _ Hr) as (Hq' & _). rewrite Hq in Hq'. injection Hq' as <- ->. split_and!; [done..|].
    by apply on_record_posts.
  - apply recv_none in Hr. by rewrite Hq in Hr.
Qed.

Lemma task_tick_posts fs rs t : et_alive t = true ->
  (0 < available_permits (bw_inflight (et_worker t)))%nat -> posted_since fs (et_worker t) rs ->
  let t' := task_tick t in
  et_alive t' = true /\ et_tx t' = et_tx t /\ bw_batch (et_worker t') = [] /\ posted_since fs (et_worker t') rs.
Proof using SemaphoreLaws0.
  intros Ha Hav Hp t'. unfold t', task_tick. rewrite Ha. destruct (on_tick_posts fs (et_worker t) rs Hav Hp).
  by split_and!.
Qed.

(** When a post ends (if one is under way) a permit is free. *)
Lemma task_posted_frees cap n fs rs t : (0 < n)%nat -> task_inv cap n t -> posted_since fs (et_worker t) rs ->
  let t' := task_posted 0 t in
  et_alive t' = et_alive t /\ et_tx t' = et_tx t /\ posted_since fs (et_worker t') rs /\
  (0 < available_permits (bw_inflight (et_worker t')))%nat.
Proof using SemaphoreLaws0.
  intros Hn Hi Hp t'. pose proof (wi_permits _ _ (ti_worker _ _ _ Hi)) as Hw. unfold t', task_posted, with_worker, post_ends.
  destruct (bw_running (et_worker t)) as [|post rest]; simpl in *; split_and!; try done; [lia|].
  rewrite sem_release_available. lia.
Qed.

Lemma task_offer_room cap n r t : task_inv cap n t -> et_alive t = true -> (length (queued (et_tx t)) < cap)%nat ->
  let t' := task_offer r t in
  et_alive t' = true /\ queued (et_tx t') = queued (et_tx t) ++ [r] /\ et_worker t' = et_worker t.
Proof using MpscLaws0 ReceiverLaws0.
  intros Hi Ha Hl t'. unfold t', task_offer.
  pose proof (try_send_grows (et_tx t) r) as Hg. rewrite (try_send_takes _ (et_tx t) r), (ti_receiving _ _ _ Hi), Ha in Hg.
  destruct (ti_capacity _ _ _ Hi) as [Hc _]. rewrite (proj2 (Nat.ltb_lt _ _)) in Hg by lia.
  by destruct (try_send (et_tx t) r) as [tx ok].
Qed.

(** A sender has used the channel, which is now [tx]. *)
Definition task_sent (tx : Sender R) (t : ExportTask) : ExportTask :=
  mkTask tx (et_worker t) (et_alive t) (et_accepted t ++ drop (length (queued (et_tx t))) (queued tx))
    (et_taken t) (et_batch_lost t) (et_lost t).

Lemma task_sent_offers rs t : task_sent (send_all (et_tx t) rs) t = foldl (flip task_offer) t rs.
Proof using MpscLaws0.
  revert t. induction rs as [|r rs IH]; intros t.
  - unfold task_sent. simpl. rewrite drop_all, app_nil_r. by destruct t.
  - cbn [foldl flip]. rewrite <- IH. change (send_all (et_tx t) (r :: rs)) with (send_all (try_send (et_tx t) r).1 rs).
    destruct (send_all_queued (try_send (et_tx t) r).1 rs) as [(sub & _ & Hq) _].
    pose proof (try_send_grows (et_tx t) r) as Hg. unfold task_sent, task_offer.
    destruct (try_send (et_tx t) r) as [tx ok]. cbn [et_tx et_worker et_alive et_accepted et_taken et_batch_lost et_lost fst snd] in *.
    rewrite !Hq. f_equal. destruct ok; rewrite ?app_nil_r in Hg; rewrite Hg; [|done].
    rewrite drop_app_length, <- (app_assoc (queued (et_tx t))), drop_app_length. by rewrite <- app_assoc.
Qed.

Lemma task_sent_inv cap n rs t : task_inv cap n t -> task_inv cap n (task_sent (send_all (et_tx t) rs) t).
Proof using MpscLaws0 ReceiverLaws0.
  rewrite task_sent_offers. revert t. induction rs as [|r rs IH]; intros t Ht; [done|]. by apply IH, task_offer_inv.
Qed.

Lemma task_sent_accepted rs t :
  exists sub, sub `sublist_of` rs /\ et_accepted (task_sent (send_all (et_tx t) rs) t) = et_accepted t ++ sub.
Proof using MpscLaws0.
  destruct (send_all_queued (et_tx t) rs) as [(sub & Hsub & Hq) _]. exists sub. split; [done|]. simpl.
  by rewrite Hq, drop_app_length.
Qed.

(** Nothing is refused while there is room. *)
Lemma task_sent_room cap n rs t : task_inv cap n t -> et_alive t = true ->
  (length (queued (et_tx t)) + length rs <= cap)%nat ->
  et_accepted (task_sent (send_all (et_tx t) rs) t) = et_accepted t ++ rs.
Proof using MpscLaws0 ReceiverLaws0.
  rewrite task_sent_offers. revert t. induction rs as [|r rs IH]; intros t Hi Ha Hl; [by rewrite app_nil_r|].
  cbn [foldl length] in *. destruct (task_offer_room cap n r t Hi Ha) as (Ha' & Hq' & _); [lia|].
  unfold flip at 2. rewrite IH; [|by apply task_offer_inv|done|rewrite Hq', length_app; simpl; lia].
  destruct (task_offer_accepted r t) as [-> _]. rewrite <- app_assoc. f_equal.
  destruct (ti_capacity _ _ _ Hi) as [Hc _]. rewrite (try_send_takes _ (et_tx t) r), (ti_receiving _ _ _ Hi), Ha.
  by rewrite (proj2 (Nat.ltb_lt _ _)) by lia.
Qed.

(** Where the records are that a task's channel took: in their order in the batches handed over
    (posted, or dropped for want of a permit) and the batch being filled, each as the task left it, then those lost
    with the task's batch and those lost with its channel, then those that wait. *)
Lemma task_inv_flow cap n t : task_inv cap n t ->
  et_accepted t = (et_taken t).*1 ++ et_lost t ++ queued (et_tx t) /\
  (et_taken t).*2 = concat (bw_flushed (et_worker t)).*2 ++ bw_batch (et_worker t) ++ et_batch_lost t /\
  (length (bw_running (et_worker t)) <= n)%nat.
Proof. intros [Hc _ Hr [Hw Hp _ _ _ _] _ _]. split_and!; [done|by rewrite <- Hr, Hw, <- app_assoc|lia]. Qed.

End ExportTask.

#[export] Hint Resolve task_offer_inv task_take_inv task_tick_inv task_config_inv task_posted_inv task_die_inv
  task_inv_new task_inv_spawn : rust.
