(* ===== verification/MetricFlow.v ===== *)
(** * The metric pillar (crates/tc-otel-service: service.rs, dispatcher.rs)

    Everything between the sources of metrics and the posts that export them:
    the channel of entries, fed by the router, the client bridge, the task that drains pushed
    diagnostics and the collector of system metrics; the loop that dispatches
    entries; and the batching worker behind the export channel, which also
    swaps the custom metric definitions when the configuration changes. Every
    interleaving of these tasks is a sequence of [MetricTurn]s. *)

From S2P Require Import Prelude.
From S2P Require Import External.
From S2P Require Import Ams.
From S2P Require Import Models.
From S2P Require Import Protocol.
From S2P Require Import Registry.
From S2P Require Import Diagnostics.
From S2P Require Import Router.
From S2P Require Import Bridge.
From S2P Require Import ScopeResolver.
From S2P Require Import MetricMapper.
From S2P Require Import Config.
From S2P Require Import LogPath.
From S2P Require Import Worker.
From S2P Require Import Channels.
From S2P Require Import Delivery.
From S2P Require Import CycleTime.
From S2P Require Import Health.

Section MetricTasks.
Context `{Ext : External} `{M : Mpsc} {RC : Receiver M} `{SL : ScopeLookup} `{SO : SemaphoreOps}.
(** The host's own address; the order in which the registry and the tracker are
    iterated; the environment variables; [local_host_name()] and [service.name]. *)
Variable local : string.
Variable registry_iter : TaskRegistry -> list (RegistrationKey * TaskMetadata).
Variable tracker_iter : gmap (string * Z) TaskCycleState -> list ((string * Z) * TaskCycleState).
Variable env_var : string -> option string.
Variables host_name service_name : string.

(** The channels and tasks. [mp_collected] are the entries the collector still has to send. The
    dispatcher's mapper is shared with the worker. For the theorems only: [mp_accepted], the
    entries their channel took, and [mp_dispatched], those dispatched with the record made
    of them. *)
Record MetricPillar := mkMetricPillar {
  mp_entries : Sender MetricEntry;
  mp_push : Sender (AmsNetId * DiagEvent);
  mp_collected : list MetricEntry;
  mp_mapper : MetricMapper;
  mp_resolver : ScopeResolver;
  mp_task : ExportTask (R:=MetricRecord) (X:=ExportConfig);
  mp_accepted : list MetricEntry;
  mp_dispatched : list (MetricEntry * MetricRecord);
}.

(** [MetricDispatcher::with_scope_resolver] and the channels of [run]. *)
Definition MetricPillar_new (s : AppSettings) (watched : bool) (resolver : ScopeResolver) : MetricPillar :=
  let cap := Z.to_nat (sc_channel_capacity (st_service s)) in
  mkMetricPillar (channel cap) (channel cap) [] (MetricMapper_from_config (mc_custom_metrics (st_metrics s))) resolver
    (ExportTask_spawn cap (metric_worker_config env_var s) watched MAX_INFLIGHT_FLUSHES) [] [].

Definition metric_dispatcher (p : MetricPillar) : MetricDispatcher :=
  mkMetricDispatcher (et_tx (mp_task p)) (mp_mapper p) service_name host_name (mp_resolver p).

Inductive MetricTurn :=
| MtOffer (m : MetricEntry)
| MtPush (ev : AmsNetId * DiagEvent)
| MtDrain (now : DateTime) (registry : TaskRegistry)
| MtCollect (now : DateTime) (registry : TaskRegistry) (statm : option string) (tracker : CycleTimeTracker)
| MtCollectSend
| MtDispatch (env : LookupEnv)
| MtRecord
| MtTick
| MtConfig (new : option AppSettings)
| MtPosted (i : nat).

(** [metric_tx.try_send(m)]. *)
Definition offer_entry (m : MetricEntry) (p : MetricPillar) : MetricPillar :=
  let '(tx, ok) := try_send (mp_entries p) m in
  mkMetricPillar tx (mp_push p) (mp_collected p) (mp_mapper p) (mp_resolver p) (mp_task p)
    (if ok then mp_accepted p ++ [m] else mp_accepted p) (mp_dispatched p).

Definition offer_entries (ms : list MetricEntry) (p : MetricPillar) : MetricPillar := foldl (flip offer_entry) p ms.

Definition with_push (tx : Sender (AmsNetId * DiagEvent)) (p : MetricPillar) : MetricPillar :=
  mkMetricPillar (mp_entries p) tx (mp_collected p) (mp_mapper p) (mp_resolver p) (mp_task p)
    (mp_accepted p) (mp_dispatched p).
Definition with_collected (ms : list MetricEntry) (p : MetricPillar) : MetricPillar :=
  mkMetricPillar (mp_entries p) (mp_push p) ms (mp_mapper p) (mp_resolver p) (mp_task p)
    (mp_accepted p) (mp_dispatched p).
Definition with_metric_task (t : ExportTask) (p : MetricPillar) : MetricPillar :=
  mkMetricPillar (mp_entries p) (mp_push p) (mp_collected p) (mp_mapper p) (mp_resolver p) t
    (mp_accepted p) (mp_dispatched p).

(** The task that drains pushed diagnostics: no names are known. *)
Definition drain_push (now : DateTime) (registry : TaskRegistry) (p : MetricPillar) : MetricPillar :=
  match recv (mp_push p) with
  | Some (ev, tx) =>
    offer_entries (backfill_metrics_from_registry registry_iter registry (diag_event_to_metrics local now ev.1 ev.2 ∅))
      (with_push tx p)
  | None => p
  end.

(** The collector's tick; it does not tick while it waits to send. *)
Definition collect_system (now : DateTime) (registry : TaskRegistry) (statm : option string) (tracker : CycleTimeTracker)
    (p : MetricPillar) : MetricPillar :=
  match mp_collected p with
  | [] =>
    with_collected (backfill_metrics_from_registry registry_iter registry
      (PlcSystemMetricsCollector_collect local now service_name statm (all_stats tracker_iter tracker))) p
  | _ => p
  end.

(** [m_tx.send(entry).await]: waits while the channel is full. *)
Definition send_collected (p : MetricPillar) : MetricPillar :=
  match mp_collected p with
  | m :: ms => if (try_send (mp_entries p) m).2 then with_collected ms (offer_entry m p) else p
  | [] => p
  end.

(** A turn of the dispatch loop. *)
Definition dispatch_metric (env : LookupEnv) (p : MetricPillar) : MetricPillar :=
  match recv (mp_entries p) with
  | Some (m, tx) =>
    let '(resolver, record) := metric_record_of env m (metric_dispatcher p) in
    mkMetricPillar tx (mp_push p) (mp_collected p) (mp_mapper p) resolver (task_offer record (mp_task p))
      (mp_accepted p) (mp_dispatched p ++ [(m, record)])
  | None => p
  end.

(** The configuration branch of the worker: the mapper is swapped last, so not
    when a new interval of zero has ended the task. *)
Definition configure_metrics (new : option AppSettings) (p : MetricPillar) : MetricPillar :=
  let w := et_worker (mp_task p) in
  let t := task_config ((fun s => metric_reload env_var s (bw_config w)) <$> new) (mp_task p) in
  let mapper := match new with
                | Some s => if et_alive t && bw_config_rx w
                            then MetricMapper_from_config (mc_custom_metrics (st_metrics s)) else mp_mapper p
                | None => mp_mapper p
                end in
  mkMetricPillar (mp_entries p) (mp_push p) (mp_collected p) mapper (mp_resolver p) t
    (mp_accepted p) (mp_dispatched p).

Definition metric_turn (p : MetricPillar) (ev : MetricTurn) : MetricPillar :=
  match ev with
  | MtOffer m => offer_entry m p
  | MtPush ev => with_push (try_send (mp_push p) ev).1 p
  | MtDrain now registry => drain_push now registry p
  | MtCollect now registry statm tracker => collect_system now registry statm tracker p
  | MtCollectSend => send_collected p
  | MtDispatch env => dispatch_metric env p
  | MtRecord => with_metric_task (task_take id (mp_task p)) p
  | MtTick => with_metric_task (task_tick (mp_task p)) p
  | MtConfig new => configure_metrics new p
  | MtPosted i => with_metric_task (task_posted i (mp_task p)) p
  end.

Definition metric_run (p : MetricPillar) (l : list MetricTurn) : MetricPillar := foldl metric_turn p l.

(** ** The turns are those of the components *)

(** Dispatching queues what [MetricDispatcher::dispatch] queues. *)
Lemma dispatch_metric_queues env p m tx : recv (mp_entries p) = Some (m, tx) ->
  let d := MetricDispatcher_dispatch env m (metric_dispatcher p) in
  et_tx (mp_task (dispatch_metric env p)) = mdp_export_tx d /\
  mp_resolver (dispatch_metric env p) = mdp_scope_resolver d.
Proof.
  intros Hr. unfold dispatch_metric, MetricDispatcher_dispatch. rewrite Hr.
  destruct (metric_record_of _ _ _) as [resolver record]. simpl. unfold task_offer. by destruct (try_send _ _).
Qed.

Lemma offer_entries_tx ms p : mp_entries (offer_entries ms p) = send_all (mp_entries p) ms.
Proof.
  revert p. induction ms as [|m ms IH]; intros p; [done|]. cbn [offer_entries foldl flip]. fold (offer_entries ms).
  unfold offer_entries in IH. rewrite IH. unfold offer_entry, send_all. simpl. by destruct (try_send _ _).
Qed.

(** Draining sends what [push_drain] sends. *)
Lemma drain_push_sends now registry p ev tx : recv (mp_push p) = Some (ev, tx) ->
  push_drain local now registry_iter registry ev (Some (mp_entries p)) = Some (mp_entries (drain_push now registry p)).
Proof. intros Hr. unfold drain_push. by rewrite Hr, offer_entries_tx. Qed.

(** ** Nothing is lost on the way *)

Context `{!MpscLaws M} `{!ReceiverLaws M RC} `{!SemaphoreLaws SO}.

(** A record was made of an entry with definitions that were in force. *)
Definition made_with (mappers : list MetricMapper) (er : MetricEntry * MetricRecord) : Prop :=
  exists env d, mdp_mapper d ∈ mappers /\ mdp_host_name d = host_name /\
    mdp_default_service_name d = service_name /\ er.2 = (metric_record_of env er.1 d).2.

(** The definitions that the settings and the reloads gave so far. *)
Definition mappers_of (m : MetricMapper) (l : list MetricTurn) : list MetricMapper :=
  m :: omap (fun ev => match ev with
                       | MtConfig (Some s) => Some (MetricMapper_from_config (mc_custom_metrics (st_metrics s)))
                       | _ => None
                       end) l.

Record metric_inv (cap : nat) (p : MetricPillar) : Prop := {
  mi_entries : mp_accepted p = (mp_dispatched p).*1 ++ queued (mp_entries p);
  mi_receiving : receiving (mp_entries p) = true;
  mi_capacity : capacity (mp_entries p) = cap /\ (length (queued (mp_entries p)) <= cap)%nat;
  mi_records : et_accepted (mp_task p) `sublist_of` (mp_dispatched p).*2;
  mi_as_made : Forall as_made (et_taken (mp_task p));
  mi_task : task_inv cap MAX_INFLIGHT_FLUSHES (mp_task p);
}.

Lemma offer_entry_spec m p :
  mp_push (offer_entry m p) = mp_push p /\ mp_collected (offer_entry m p) = mp_collected p /\
  mp_mapper (offer_entry m p) = mp_mapper p /\ mp_resolver (offer_entry m p) = mp_resolver p /\
  mp_task (offer_entry m p) = mp_task p /\ mp_dispatched (offer_entry m p) = mp_dispatched p.
Proof. unfold offer_entry. by destruct (try_send _ _). Qed.

Lemma offer_entry_inv cap m p : metric_inv cap p -> metric_inv cap (offer_entry m p).
Proof using MpscLaws0 ReceiverLaws0.
  intros [He Hr [Hc Hl] Hs Ha Ht]. unfold offer_entry.
  pose proof (try_send_grows (mp_entries p) m) as Hg. pose proof (try_send_keeps _ (mp_entries p) m) as [Hk1 Hk2].
  pose proof (try_send_bounded (mp_entries p) m) as Hb.
  destruct (try_send (mp_entries p) m) as [tx ok]. cbn [fst snd] in *. split; simpl; try done.
  - rewrite Hg. destruct ok; rewrite ?app_nil_r, He, ?app_assoc; done.
  - by rewrite Hk2.
  - rewrite Hk1. split; [done|]. rewrite <- Hc. apply Hb. lia.
Qed.

Lemma offer_entries_inv cap ms p : metric_inv cap p -> metric_inv cap (offer_entries ms p).
Proof using MpscLaws0 ReceiverLaws0.
  revert p. induction ms as [|m ms IH]; intros p Hp; [done|]. by apply IH, offer_entry_inv.
Qed.

Lemma with_push_inv cap tx p : metric_inv cap p -> metric_inv cap (with_push tx p).
Proof. intros [? ? ? ? ? ?]. by split. Qed.
Lemma with_collected_inv cap ms p : metric_inv cap p -> metric_inv cap (with_collected ms p).
Proof. intros [? ? ? ? ? ?]. by split. Qed.

(** A step of the worker that queues nothing and works on no record otherwise. *)
Lemma with_metric_task_inv cap t p : metric_inv cap p -> task_inv cap MAX_INFLIGHT_FLUSHES t ->
  et_accepted t = et_accepted (mp_task p) -> Forall as_made (et_taken t) ->
  metric_inv cap (with_metric_task t p).
Proof. intros [? ? ? ? ? ?] Ht Hacc Htk. split; simpl; try done. by rewrite Hacc. Qed.

Lemma dispatch_metric_inv cap env p : metric_inv cap p -> metric_inv cap (dispatch_metric env p).
Proof using MpscLaws0 ReceiverLaws0.
  intros Hi. pose proof Hi as [He Hr [Hc Hl] Hs Ha Ht]. unfold dispatch_metric.
  destruct (recv (mp_entries p)) as [[m tx]|] eqn:Hrecv; [|done].
  destruct (recv_some _ _ _ _ Hrecv) as (Hq & Hk1 & Hk2).
  destruct (metric_record_of _ _ _) as [resolver record].
  destruct (task_offer_accepted record (mp_task p)) as [Hacc Htk]. split; simpl.
  - rewrite fmap_app. simpl. by rewrite He, Hq, <- app_assoc.
  - by rewrite Hk2.
  - rewrite Hq in Hl. simpl in Hl. rewrite Hk1. split; [done|lia].
  - rewrite Hacc, fmap_app. simpl. apply sublist_app; [done|]. destruct (try_send _ _).2; [done|].
    apply sublist_nil_l.
  - by rewrite Htk.
  - by apply task_offer_inv.
Qed.

Lemma configure_metrics_inv cap new p : metric_inv cap p -> metric_inv cap (configure_metrics new p).
Proof using ReceiverLaws0 SemaphoreLaws0.
  intros [He Hr Hc Hs Ha Ht]. unfold configure_metrics. set (t := task_config _ _).
  destruct (task_config_same ((fun s => metric_reload env_var s (bw_config (et_worker (mp_task p)))) <$> new) (mp_task p))
    as [Hacc Htk]. fold t in Hacc, Htk.
  split; simpl; try done; [by rewrite Hacc|by rewrite Htk|by apply task_config_inv].
Qed.

Lemma metric_turn_inv cap p ev : metric_inv cap p -> metric_inv cap (metric_turn p ev).
Proof using MpscLaws0 ReceiverLaws0 SemaphoreLaws0.
  intros Hi. pose proof Hi as [_ _ _ _ Ha Ht]. destruct ev; cbn [metric_turn].
  - by apply offer_entry_inv.
  - by apply with_push_inv.
  - unfold drain_push. destruct (recv _) as [[? ?]|]; [|done]. by apply offer_entries_inv, with_push_inv.
  - unfold collect_system. destruct (mp_collected p); [|done]. by apply with_collected_inv.
  - unfold send_collected. destruct (mp_collected p); [done|]. destruct (_.2); [|done].
    by apply with_collected_inv, offer_entry_inv.
  - by apply dispatch_metric_inv.
  - destruct (task_take_as_made (mp_task p) Ha). by apply with_metric_task_inv; [|apply task_take_inv|..].
  - apply with_metric_task_inv; [done|by apply task_tick_inv|..]; unfold task_tick; by destruct (et_alive _).
  - by apply configure_metrics_inv.
  - by apply with_metric_task_inv; [|apply task_posted_inv|..].
Qed.

Lemma metric_run_inv cap l p : metric_inv cap p -> metric_inv cap (metric_run p l).
Proof using MpscLaws0 ReceiverLaws0 SemaphoreLaws0.
  revert p. induction l as [|ev l IH]; intros p Hp; [done|]. by apply IH, metric_turn_inv.
Qed.

Lemma metric_inv_new s watched resolver :
  metric_inv (Z.to_nat (sc_channel_capacity (st_service s))) (MetricPillar_new s watched resolver).
Proof using ReceiverLaws0 SemaphoreLaws0.
  set (cap := Z.to_nat _). destruct (channel_new MetricEntry cap) as (Hq & Hk & Hr).
  destruct (spawn_fresh (R:=MetricRecord) cap MAX_INFLIGHT_FLUSHES (metric_worker_config env_var s) watched) as (_ & Hacc & Htk).
  unfold MetricPillar_new. fold cap. split; cbn [mp_accepted mp_dispatched mp_entries mp_task]; try done.
  - rewrite Hk, Hq. simpl. split; [done|lia].
  - by rewrite Hacc.
  - by rewrite Htk.
  - apply task_inv_spawn.
Qed.

(** Which turns touch the mapper and the dispatched entries. *)
Lemma offer_entries_spec ms p :
  mp_mapper (offer_entries ms p) = mp_mapper p /\ mp_dispatched (offer_entries ms p) = mp_dispatched p.
Proof.
  revert p. induction ms as [|m ms IH]; intros p; [done|]. cbn [offer_entries foldl flip]. fold (offer_entries ms).
  destruct (offer_entry_spec m p) as (_ & _ & Hm & _ & _ & Hd). destruct (IH (offer_entry m p)) as [IH1 IH2].
  unfold offer_entries in *. by rewrite IH1, IH2.
Qed.

Definition keeps_records (p p' : MetricPillar) : Prop := mp_mapper p' = mp_mapper p /\ mp_dispatched p' = mp_dispatched p.

Lemma metric_turn_records p ev :
  match ev with
  | MtDispatch _ => mp_mapper (metric_turn p ev) = mp_mapper p /\
      (mp_dispatched (metric_turn p ev) = mp_dispatched p \/
       exists er, mp_dispatched (metric_turn p ev) = mp_dispatched p ++ [er] /\ made_with [mp_mapper p] er)
  | MtConfig (Some s) => mp_dispatched (metric_turn p ev) = mp_dispatched p /\
      mp_mapper (metric_turn p ev) ∈ [mp_mapper p; MetricMapper_from_config (mc_custom_metrics (st_metrics s))]
  | _ => keeps_records p (metric_turn p ev)
  end.
Proof.
  unfold keeps_records. destruct ev as [m|ev|now reg|now reg statm tr| |env| | |[s|]|i]; cbn [metric_turn]; try done.
  - destruct (offer_entry_spec m p) as (_ & _ & Hm & _ & _ & Hd). done.
  - unfold drain_push. destruct (recv _) as [[ev tx]|]; [|done]. by destruct (offer_entries_spec
      (backfill_metrics_from_registry registry_iter reg (diag_event_to_metrics local now ev.1 ev.2 ∅)) (with_push tx p)).
  - unfold collect_system. by destruct (mp_collected p).
  - unfold send_collected. destruct (mp_collected p) as [|m ms]; [done|]. destruct (_.2); [|done].
    destruct (offer_entry_spec m p) as (_ & _ & Hm & _ & _ & Hd). done.
  - unfold dispatch_metric. destruct (recv _) as [[m tx]|]; [|split; [done|by left]].
    destruct (metric_record_of env m (metric_dispatcher p)) as [resolver record] eqn:Hrec. split; [done|]. right.
    eexists. split; [done|]. exists env, (metric_dispatcher p). split_and!; [by left|done..|]. simpl. by rewrite Hrec.
  - split; [done|]. simpl. destruct (_ && _); [by right; left|by left].
Qed.

Lemma made_with_mono l l' er : l ⊆ l' -> made_with l er -> made_with l' er.
Proof. intros Hl (env & d & Hd & Hrest). exists env, d. split; [by apply Hl|done]. Qed.

Lemma metric_run_made m0 l p : mp_mapper p = m0 -> mp_dispatched p = [] ->
  mp_mapper (metric_run p l) ∈ mappers_of m0 l /\ Forall (made_with (mappers_of m0 l)) (mp_dispatched (metric_run p l)).
Proof.
  intros Hm Hd. induction l as [|ev l [IHm IHd]] using rev_ind; [by simpl; rewrite Hm, Hd; split; [left|constructor]|].
  unfold metric_run in *. rewrite foldl_app. cbn [foldl]. set (q := foldl metric_turn p l) in *.
  assert (Hsub : mappers_of m0 l ⊆ mappers_of m0 (l ++ [ev])).
  { unfold mappers_of. rewrite omap_app. intros x. rewrite !elem_of_cons, elem_of_app. tauto. }
  assert (IHd' : Forall (made_with (mappers_of m0 (l ++ [ev]))) (mp_dispatched q)).
  { eapply Forall_impl; [done|]. intros er. by apply made_with_mono. }
  pose proof (metric_turn_records q ev) as Hev.
  destruct ev as [| | | | |env| | |[s|]|]; try (destruct Hev as [-> ->]; split; [by apply Hsub|done]).
  - destruct Hev as [-> [->|(er & -> & Her)]]; (split; [by apply Hsub|]); [done|].
    apply Forall_app. split; [done|]. apply Forall_singleton. eapply made_with_mono; [|done].
    intros x ->%list_elem_of_singleton. by apply Hsub.
  - destruct Hev as [-> Hnew]. split; [|done].
    apply elem_of_cons in Hnew as [-> | ->%list_elem_of_singleton]; [by apply Hsub|].
    unfold mappers_of. rewrite omap_app. simpl. rewrite elem_of_cons, elem_of_app. right. right. by left.
Qed.

(** C10: No metric is lost between its source and a post but where the code says so. In every
    interleaving of the tasks of the metric pillar: the entries that their channel took are, in order,
    those dispatched and those that wait, never more than the capacity; of each
    dispatched entry one record was made, with metric definitions that were in force; the records the export channel took are among those, in their order
    (it refuses when it is full or its worker has died), and are, in
    order, those of the batches handed over ([spawn_flush] posts a batch, or drops it when sixteen posts are under way),
    of the batch being filled, those lost
    with the batch and with the channel of a worker that died, and those that wait; and never more than
    sixteen posts are under way, each of a batch that got a permit. *)
Theorem metrics_flow s watched resolver l :
  let cap := Z.to_nat (sc_channel_capacity (st_service s)) in
  let p := metric_run (MetricPillar_new s watched resolver) l in
  let t := mp_task p in
  let w := et_worker t in
  mp_accepted p = (mp_dispatched p).*1 ++ queued (mp_entries p) /\
  (length (queued (mp_entries p)) <= cap)%nat /\
  Forall (made_with (mappers_of (MetricMapper_from_config (mc_custom_metrics (st_metrics s))) l)) (mp_dispatched p) /\
  et_accepted t `sublist_of` (mp_dispatched p).*2 /\
  et_accepted t = concat (bw_flushed w).*2 ++ bw_batch w ++ et_batch_lost t ++ et_lost t ++ queued (et_tx t) /\
  (et_alive t = true -> et_batch_lost t = [] /\ et_lost t = []) /\
  (et_alive t = false -> bw_batch w = [] /\ queued (et_tx t) = []) /\
  (length (queued (et_tx t)) <= cap)%nat /\ (length (bw_running w) <= MAX_INFLIGHT_FLUSHES)%nat /\
  (bw_running w).*2 `sublist_of` granted (bw_flushed w).
Proof using MpscLaws0 ReceiverLaws0 SemaphoreLaws0.
  intros cap p t w. pose proof (metric_run_inv cap l _ (metric_inv_new s watched resolver)) as [He Hr [Hc Hl] Hs Ha Ht].
  destruct (metric_run_made _ l (MetricPillar_new s watched resolver) eq_refl eq_refl) as [_ Hmade].
  fold p in He, Hr, Hc, Hl, Hs, Ha, Ht, Hmade.
  destruct (task_inv_flow _ _ _ Ht) as (Hf1 & Hf2 & Hf3). pose proof (ti_lost _ _ _ Ht) as Hlost. fold t in Hlost. split_and!; try done.
  - fold t w in Hf1, Hf2, Ha. by rewrite Hf1, (as_made_same _ Ha), Hf2, <- !app_assoc.
  - intros Hal. by rewrite Hal in Hlost.
  - intros Hal. by rewrite Hal in Hlost.
  - apply (ti_capacity _ _ _ Ht).
  - apply (wi_running _ _ (ti_worker _ _ _ Ht)).
Qed.

(** ** What was accepted gets to the posts *)

(** The state as far as the schedule below needs it: since the batches were [fs], all were posted, and they and the
    batch being filled hold [held]. *)
Record pillar_view (cap : nat) (fs : list (bool * list MetricRecord)) (p : MetricPillar) (entries : list MetricEntry)
    (records held : list MetricRecord) : Prop := {
  pv_inv : metric_inv cap p;
  pv_alive : et_alive (mp_task p) = true;
  pv_entries : queued (mp_entries p) = entries;
  pv_records : queued (et_tx (mp_task p)) = records;
  pv_posted : posted_since fs (et_worker (mp_task p)) held;
}.

(** A post ends, and so a permit is free. *)
Lemma posted_turn cap fs p entries records held : pillar_view cap fs p entries records held ->
  let p' := metric_turn p (MtPosted 0) in
  pillar_view cap fs p' entries records held /\ mp_dispatched p' = mp_dispatched p /\
  (0 < available_permits (bw_inflight (et_worker (mp_task p'))))%nat.
Proof using MpscLaws0 ReceiverLaws0 SemaphoreLaws0.
  intros [Hi Ha He Hr Hv] p'.
  destruct (task_posted_frees _ _ fs held _ (Nat.lt_0_succ 15) (mi_task _ _ Hi) Hv) as (Ha' & Htx & Hv' & Hf).
  subst p'. split; [|done]. cbn [metric_turn with_metric_task mp_task mp_entries] in *.
  split; [by apply metric_turn_inv with (ev := MtPosted 0)|by rewrite <- Ha|done|by rewrite <- Hr, <- Htx|done].
Qed.

(** With a post ended first, a record that waits is taken. *)
Lemma record_turn cap fs p entries r records held : pillar_view cap fs p entries (r :: records) held ->
  let p' := metric_run p [MtPosted 0; MtRecord] in
  pillar_view cap fs p' entries records (held ++ [r]) /\ mp_dispatched p' = mp_dispatched p.
Proof using MpscLaws0 ReceiverLaws0 SemaphoreLaws0.
  intros Hp. destruct (posted_turn _ _ _ _ _ _ Hp) as ([Hi Ha He Hr Hv] & Hd & Hf). cbv zeta. cbn [metric_run foldl].
  set (p1 := metric_turn p (MtPosted 0)) in *.
  destruct (task_take_next id fs held r records (mp_task p1) Ha Hr Hf Hv) as (Ha' & Hq' & Hv').
  split; [|done]. split; try done. by apply metric_turn_inv with (ev := MtRecord).
Qed.

Definition record_schedule (n : nat) : list MetricTurn := concat (replicate n [MtPosted 0; MtRecord]).

Lemma record_turns cap fs entries records : forall p held, pillar_view cap fs p entries records held ->
  let p' := metric_run p (record_schedule (length records)) in
  pillar_view cap fs p' entries [] (held ++ records) /\ mp_dispatched p' = mp_dispatched p.
Proof using MpscLaws0 ReceiverLaws0 SemaphoreLaws0.
  induction records as [|r records IH]; intros p held Hp; [by rewrite app_nil_r|].
  destruct (record_turn _ _ _ _ _ _ _ Hp) as [H1 Hd1]. destruct (IH _ _ H1) as [H2 Hd2]. cbv zeta in *.
  unfold record_schedule. cbn [length replicate concat]. unfold metric_run in *. rewrite foldl_app.
  rewrite <- app_assoc in H2. split; [done|]. by rewrite <- Hd1.
Qed.

(** An entry is dispatched and its record taken. *)
Lemma dispatch_turn cap fs p env m entries held : (0 < cap)%nat -> pillar_view cap fs p (m :: entries) [] held ->
  exists r, let p' := metric_run p [MtDispatch env; MtPosted 0; MtRecord] in
    pillar_view cap fs p' entries [] (held ++ [r]) /\ mp_dispatched p' = mp_dispatched p ++ [(m, r)].
Proof using MpscLaws0 ReceiverLaws0 SemaphoreLaws0.
  intros Hcap [Hi Ha He Hr Hv].
  pose proof (metric_turn_inv cap p (MtDispatch env) Hi) as Hi1.
  change (metric_run p [MtDispatch env; MtPosted 0; MtRecord]) with (metric_run (dispatch_metric env p) [MtPosted 0; MtRecord]).
  cbn [metric_turn] in Hi1. unfold dispatch_metric in *.
  destruct (recv (mp_entries p)) as [[m' tx]|] eqn:Hrecv; [|apply recv_none in Hrecv; by rewrite He in Hrecv].
  destruct (recv_some _ _ _ _ Hrecv) as (Hq & _). rewrite He in Hq. injection Hq as <- Htx.
  destruct (metric_record_of env m (metric_dispatcher p)) as [resolver r].
  destruct (task_offer_room cap _ r (mp_task p) (mi_task _ _ Hi) Ha) as (Ha1 & Hq1 & Hw1); [rewrite Hr; simpl; lia|].
  rewrite Hr in Hq1. exists r. set (p1 := mkMetricPillar _ _ _ _ _ _ _ _) in *.
  apply (record_turn cap fs p1 entries r [] held). split; simpl; try done. by rewrite Hw1.
Qed.

Definition dispatch_schedule (env : LookupEnv) (n : nat) : list MetricTurn :=
  concat (replicate n [MtDispatch env; MtPosted 0; MtRecord]).

Lemma dispatch_turns cap fs env : (0 < cap)%nat -> forall entries p held, pillar_view cap fs p entries [] held ->
  exists rs, let p' := metric_run p (dispatch_schedule env (length entries)) in
    length rs = length entries /\ pillar_view cap fs p' [] [] (held ++ rs) /\
    mp_dispatched p' = mp_dispatched p ++ zip entries rs.
Proof using MpscLaws0 ReceiverLaws0 SemaphoreLaws0.
  intros Hcap. induction entries as [|m entries IH]; intros p held Hp.
  - exists []. simpl. by rewrite !app_nil_r.
  - destruct (dispatch_turn cap fs p env m entries held Hcap Hp) as (r & H1 & Hd1).
    destruct (IH _ _ H1) as (rs & Hrs & H2 & Hd2). exists (r :: rs). cbv zeta in *.
    unfold dispatch_schedule. cbn [length replicate concat]. unfold metric_run in *. rewrite foldl_app.
    rewrite Hd1, <- app_assoc in Hd2. rewrite <- app_assoc in H2. split_and!; [by rewrite Hrs|done..].
Qed.

(** The turns that [metrics_drain] may take: those of the tasks of the pillar, and the end of a post that is under way. *)
Definition drain_turn (env : LookupEnv) (ev : MetricTurn) : Prop :=
  ev = MtRecord \/ ev = MtDispatch env \/ ev = MtTick \/ exists i, ev = MtPosted i.

Lemma concat_replicate_turns env l n : Forall (drain_turn env) l -> Forall (drain_turn env) (concat (replicate n l)).
Proof. intros Hl. by apply Forall_concat, Forall_replicate. Qed.

(** C24: What the pillar accepted gets to the posts. In every reachable state in which the worker lives,
    the tasks can take turns, with no input from outside but the answers of the scope lookups and the end of posts
    that are under way, after which
    nothing waits: every entry that waited was dispatched in its order, and the records of the batch that was being
    filled, those that waited and those made of the waiting entries are, in this order, exactly those of the batches handed over by
    these turns, every one of which got its permit and is posted: no record was refused or dropped on the way. *)
Theorem metrics_drain s watched resolver l env :
  let p := metric_run (MetricPillar_new s watched resolver) l in
  0 < sc_channel_capacity (st_service s) -> et_alive (mp_task p) = true ->
  exists turns rs new, let p' := metric_run p turns in
    Forall (drain_turn env) turns /\
    queued (mp_entries p') = [] /\ queued (et_tx (mp_task p')) = [] /\ bw_batch (et_worker (mp_task p')) = [] /\
    length rs = length (queued (mp_entries p)) /\
    mp_dispatched p' = mp_dispatched p ++ zip (queued (mp_entries p)) rs /\
    bw_flushed (et_worker (mp_task p')) = bw_flushed (et_worker (mp_task p)) ++ new /\
    Forall (fun f => f.1 = true) new /\
    concat new.*2 = bw_batch (et_worker (mp_task p)) ++ queued (et_tx (mp_task p)) ++ rs.
Proof using MpscLaws0 ReceiverLaws0 SemaphoreLaws0.
  intros p Hcap Ha. set (cap := Z.to_nat (sc_channel_capacity (st_service s))).
  pose proof (metric_run_inv cap l _ (metric_inv_new s watched resolver)) as Hi. fold p in Hi.
  destruct (record_turns cap _ (queued (mp_entries p)) (queued (et_tx (mp_task p))) p _
    (Build_pillar_view _ _ _ _ _ _ Hi Ha eq_refl eq_refl (posted_since_now _))) as [H1 Hd1].
  destruct (dispatch_turns cap _ env ltac:(lia) _ _ _ H1) as (rs & Hrs & H2 & Hd2). cbv zeta in *.
  destruct (posted_turn _ _ _ _ _ _ H2) as ([Hi2 Ha2 He2 Hr2 Hv2] & Hd3 & Hf). rewrite Hd2, Hd1 in Hd3.
  destruct (task_tick_posts _ _ _ Ha2 Hf Hv2) as (_ & Htx & Hb & new & Hn1 & Hn2 & Hn3).
  set (p2 := metric_turn (metric_run _ _) (MtPosted 0)) in *.
  exists (record_schedule (length (queued (et_tx (mp_task p)))) ++ dispatch_schedule env (length (queued (mp_entries p))) ++
    [MtPosted 0; MtTick]), rs, new.
  assert (Hp2 : metric_run p (record_schedule (length (queued (et_tx (mp_task p)))) ++
    dispatch_schedule env (length (queued (mp_entries p))) ++ [MtPosted 0; MtTick]) = metric_turn p2 MtTick).
  { unfold p2, metric_run. by rewrite !foldl_app. }
  cbv zeta. rewrite Hp2. clear Hp2. rewrite Hb, app_nil_r in Hn3. split_and!; try done.
  - rewrite !Forall_app. unfold drain_turn.
    split_and!; [apply concat_replicate_turns..|]; unfold drain_turn; repeat (constructor; [by eauto|]); constructor.
  - cbn [metric_turn with_metric_task mp_task]. by rewrite Htx.
  - by rewrite Hn3, app_assoc.
Qed.

End MetricTasks.
