(* ===== verification/TraceFlow.v ===== *)
(** * The trace pillar (crates/tc-otel-service: service.rs, trace_dispatcher.rs)

    The trace events of the router, the span dispatcher that makes spans of
    them and is swept once a second, and the task of [TraceDispatcher], which
    resolves the scope of each finished span and batches them. Every
    interleaving is a sequence of [TraceTurn]s. *)

From S2P Require Import Prelude.
From S2P Require Import Text.
From S2P Require Import External.
From S2P Require Import Ams.
From S2P Require Import Models.
From S2P Require Import Protocol.
From S2P Require Import Registry.
From S2P Require Import Router.
From S2P Require Import SpanDispatcher.
From S2P Require Import ScopeResolver.
From S2P Require Import MetricMapper.
From S2P Require Import Config.
From S2P Require Import LogPath.
From S2P Require Import Worker.
From S2P Require Import Channels.
From S2P Require Import Delivery.

Definition TRACE_INPUT_CAPACITY : nat := Z.to_nat 50000.

Section TraceTasks.
Context `{Ext : External} `{H : Hex} `{M : Mpsc} {RC : Receiver M} `{SL : ScopeLookup} `{SO : SemaphoreOps}.
Variable span_iter : gmap SpanKey PendingSpan -> list (SpanKey * PendingSpan).
Variable env_var : string -> option string.

(** [sd_trace_tx] of the span dispatcher is a sender of the channel of the task. For the theorems only:
    [tp_handled], the events and sweeps the span dispatcher has handled. *)
Record TracePillar := mkTracePillar {
  tp_events : Sender (AmsNetId * Z * TraceWireEvent);
  tp_spans : SpanDispatcher;
  tp_resolver : ScopeResolver;
  tp_task : ExportTask (R:=TraceRecord) (X:=ExportConfig);
  tp_handled : list span_input;
}.

Definition trace_worker_config (s : AppSettings) : WorkerConfig (X:=ExportConfig) :=
  mkWorkerConfig (trace_exporter env_var s).1 (Z.to_nat (te_batch_size (tc_export (st_traces s))))
    (te_flush_interval_ms (tc_export (st_traces s))).

(** [TraceDispatcher::with_scope_resolver]: the task returns at once without an endpoint,
    and panics on a flush interval of zero. *)
Definition TraceDispatcher_new (s : AppSettings) : ExportTask (R:=TraceRecord) (X:=ExportConfig) :=
  match te_endpoint (tc_export (st_traces s)) with
  | None => task_die (ExportTask_new TRACE_INPUT_CAPACITY (trace_worker_config s) false MAX_INFLIGHT_TRACE_FLUSHES)
  | Some _ => ExportTask_spawn TRACE_INPUT_CAPACITY (trace_worker_config s) false MAX_INFLIGHT_TRACE_FLUSHES
  end.

(** [TraceDispatcher::dispatch]; [None] while it waits for room. *)
Definition TraceDispatcher_dispatch (r : TraceRecord) (t : ExportTask (R:=TraceRecord) (X:=ExportConfig))
    : option (outcome string (ExportTask (R:=TraceRecord) (X:=ExportConfig))) :=
  if receiving (et_tx t)
  then if (try_send (et_tx t) r).2 then Some (Ok (task_offer r t)) else None
  else Some (Err "Connection error: trace channel closed").

(** What [run] makes of the settings; the durations are in milliseconds. *)
Definition TracePillar_new (s : AppSettings) (resolver : ScopeResolver) (host_name : string) : TracePillar :=
  let t := TraceDispatcher_new s in
  mkTracePillar (channel (Z.to_nat (sc_channel_capacity (st_service s))))
    (with_service_metadata (sc_name (st_service s)) host_name
       (SpanDispatcher_new (et_tx t) (tc_span_ttl_secs (st_traces s) * 1000) (Z.to_nat (tc_max_pending_spans (st_traces s)))))
    resolver t [].

Inductive TraceTurn :=
| TtEvent (ev : AmsNetId * Z * TraceWireEvent)
| TtSpan (env : SpanEnv)
| TtSweep (env : SpanEnv)
| TtRecord (env : LookupEnv)
| TtTick
| TtPosted (i : nat).

Definition handle_input (i : span_input) (d : SpanDispatcher) : SpanDispatcher := span_run span_iter [i] d.

(** The span dispatcher handles an input; its records go to the task. *)
Definition span_turn (i : span_input) (events : Sender (AmsNetId * Z * TraceWireEvent)) (p : TracePillar) : TracePillar :=
  let d := handle_input i (tp_spans p) in
  mkTracePillar events d (tp_resolver p) (task_sent (sd_trace_tx d) (tp_task p)) (tp_handled p ++ [i]).

(** The channel of the task changed; the dispatcher's sender is of the same channel. *)
Definition with_trace_task (t : ExportTask) (p : TracePillar) : TracePillar :=
  mkTracePillar (tp_events p) (set_trace_tx (et_tx t) (tp_spans p)) (tp_resolver p) t (tp_handled p).

(** The task receives a record and resolves its scope. *)
Definition trace_record (env : LookupEnv) (p : TracePillar) : TracePillar :=
  let p' := with_trace_task (task_take (fun r => (resolve_scope env (tp_resolver p) r).2) (tp_task p)) p in
  match recv (et_tx (tp_task p)) with
  | Some (r, _) =>
    if et_alive (tp_task p)
    then mkTracePillar (tp_events p') (tp_spans p') (resolve_scope env (tp_resolver p) r).1 (tp_task p') (tp_handled p')
    else p'
  | None => p'
  end.

Definition trace_turn (p : TracePillar) (ev : TraceTurn) : TracePillar :=
  match ev with
  | TtEvent ev => mkTracePillar (try_send (tp_events p) ev).1 (tp_spans p) (tp_resolver p) (tp_task p) (tp_handled p)
  | TtSpan env =>
    match recv (tp_events p) with
    | Some ((net, port, ev), rest) => span_turn (InEvent (env, net, port, ev)) rest p
    | None => p
    end
  | TtSweep env => span_turn (InSweep env) (tp_events p) p
  | TtRecord env => trace_record env p
  | TtTick => with_trace_task (task_tick (tp_task p)) p
  | TtPosted i => with_trace_task (task_posted i (tp_task p)) p
  end.

Definition trace_run (p : TracePillar) (l : list TraceTurn) : TracePillar := foldl trace_turn p l.

(** ** What an input makes the span dispatcher send *)

(** The same dispatcher on a channel that takes everything, which holds [sent]. *)
Definition mirror (d : SpanDispatcher) (sent : list TraceRecord) : SpanDispatcher (M:=SimpleExternal.unbounded_mpsc) :=
  mkDispatcher (M:=SimpleExternal.unbounded_mpsc) (sd_pending d) (sd_index d) sent (sd_span_ttl d) (sd_max_pending d) (sd_orphans d)
    (sd_service_name d) (sd_host_name d).

(** The ids of the open spans, as records have them. *)
Definition open_ids (d : SpanDispatcher) : list string :=
  map (fun kv => hex_encode (ps_span_id kv.2)) (map_to_list (sd_pending d)).

(** The ids of the begin messages among the inputs. *)
Definition begun_ids (l : list span_input) : list string :=
  omap (fun i => match i with
                 | InEvent (_, _, _, Begin _ _ _ _ _ _ _ _ _ span_id _) => Some (hex_encode span_id)
                 | _ => None
                 end) l.

(** From [d], whose mirror has [sent], a step made [d'] and of the mirror [e']: it offered the same records to both
    channels, and the spans that were open and those of [ids] are now open or have their record among these. *)
Definition sends (ids : list string) (d d' : SpanDispatcher) (sent : list TraceRecord)
    (e' : SpanDispatcher (M:=SimpleExternal.unbounded_mpsc)) : Prop :=
  exists rs, sd_trace_tx d' = send_all (sd_trace_tx d) rs /\ e' = mirror d' (sent ++ rs) /\
    open_ids d' ++ map tr_span_id rs ≡ₚ open_ids d ++ ids.

Lemma sends_nothing d sent : sends [] d d sent (mirror d sent).
Proof. exists []. by rewrite !app_nil_r. Qed.

Lemma sends_trans ids ids' d d' d'' sent e' e'' : sends ids d d' sent e' ->
  (forall sent, e' = mirror d' sent -> sends ids' d' d'' sent e'') -> sends (ids ++ ids') d d'' sent e''.
Proof.
  intros (rs & H1 & H2 & H3) Hn. destruct (Hn _ H2) as (rs' & H1' & H2' & H3'). exists (rs ++ rs'). split_and!.
  - rewrite H1', H1. unfold send_all. by rewrite fold_left_app.
  - by rewrite H2', app_assoc.
  - rewrite map_app, app_assoc, (Permutation_app_comm (open_ids d'')), <- app_assoc, H3', app_assoc.
    rewrite (Permutation_app_comm (map _ rs)), H3. by rewrite app_assoc.
Qed.

(** The record of a span that is closed takes its place. *)
Lemma open_ids_delete k p (m : gmap SpanKey PendingSpan) : m !! k = Some p ->
  map (fun kv => hex_encode (ps_span_id kv.2)) (map_to_list (delete k m)) ++ [hex_encode (ps_span_id p)] ≡ₚ
  map (fun kv => hex_encode (ps_span_id kv.2)) (map_to_list m).
Proof.
  intros Hk. rewrite <- (map_to_list_delete m k p Hk). cbn [map]. by rewrite <- Permutation_cons_append.
Qed.

Lemma sends_expire env k d sent : sends [] d (expire env k d) sent (expire (M:=SimpleExternal.unbounded_mpsc) env k (mirror d sent)).
Proof.
  unfold expire. cbn [sd_pending mirror]. destruct (sd_pending d !! k) as [p|] eqn:Hk; [|apply sends_nothing].
  exists [timeout_record env d p]. split_and!; [done..|]. rewrite app_nil_r. by apply open_ids_delete.
Qed.

Lemma sends_expire_list env l : forall d sent,
  sends [] d (fold_left (fun d key => expire env key d) l d) sent
    (fold_left (fun d key => expire (M:=SimpleExternal.unbounded_mpsc) env key d) l (mirror d sent)).
Proof.
  induction l as [|k l IH]; intros d sent; [apply sends_nothing|]. cbn [fold_left].
  eapply (sends_trans [] []); [apply sends_expire|]. intros sent' ->. apply IH.
Qed.

Lemma sends_make_room env key d sent :
  sends [] d (make_room span_iter env key d) sent (make_room (M:=SimpleExternal.unbounded_mpsc) span_iter env key (mirror d sent)).
Proof.
  unfold make_room, evict_oldest. cbn [sd_pending sd_max_pending mirror].
  destruct (_ <=? _)%nat; [destruct (oldest span_iter _) as [k|]|]; try apply sends_expire.
  eapply (sends_trans [] []); [apply sends_expire|]. intros sent' ->. apply sends_expire.
Qed.

Lemma sends_modify s f d sent : (forall p, ps_span_id (f p) = ps_span_id p) ->
  sends [] d (modify_span s f d) sent (modify_span (M:=SimpleExternal.unbounded_mpsc) s f (mirror d sent)).
Proof.
  intros Hf. unfold modify_span. cbn [sd_pending sd_index mirror].
  destruct (sd_index d !! s) as [k|]; [|apply sends_nothing].
  destruct (sd_pending d !! k) as [p|] eqn:Hk; [|apply sends_nothing]. exists [].
  split_and!; [done|by rewrite app_nil_r|]. rewrite !app_nil_r. unfold open_ids. cbn [sd_pending set_spans].
  rewrite <- insert_delete_eq, map_to_list_insert by apply lookup_delete_eq. cbn [map snd]. rewrite Hf.
  rewrite <- (open_ids_delete k p _ Hk). by rewrite <- Permutation_cons_append.
Qed.

Lemma sends_end env s dc st msg d sent :
  sends [] d (on_end env s dc st msg d) sent (on_end (M:=SimpleExternal.unbounded_mpsc) env s dc st msg (mirror d sent)).
Proof.
  unfold on_end. cbn [sd_pending sd_index mirror]. destruct (sd_index d !! s) as [k|]; [|apply sends_nothing].
  destruct (sd_pending d !! k) as [p|] eqn:Hk; [|apply sends_nothing].
  exists [record_of d p (dc_time_to_datetime (env_utc env) dc) (end_status st) msg]. split_and!; [done..|].
  rewrite app_nil_r. by apply open_ids_delete.
Qed.

Lemma resolve_parent_mirror tp parent tid d sent :
  resolve_parent (M:=SimpleExternal.unbounded_mpsc) tp parent tid (mirror d sent) =
  let '(t, p, r, d') := resolve_parent tp parent tid d in (t, p, r, mirror d' sent).
Proof. unfold resolve_parent. cbn [sd_pending sd_index mirror]. by repeat case_match. Qed.

Lemma sends_begin env net port ti dc parent kind name tp tid sid ns d sent :
  sends [hex_encode sid] d (on_begin span_iter env net port ti dc parent kind name tp tid sid ns d) sent
    (on_begin (M:=SimpleExternal.unbounded_mpsc) span_iter env net port ti dc parent kind name tp tid sid ns (mirror d sent)).
Proof.
  unfold on_begin. rewrite resolve_parent_mirror. pose proof (resolve_parent_state tp parent tid d) as Hr.
  destruct (resolve_parent tp parent tid d) as [[[tid' par] reason] d1].
  destruct Hr as (Hp & _ & _ & Ht). simpl in Hp, Ht.
  destruct (sends_make_room env (mkSpanKey net sid) d1 sent) as (rs & H1 & H2 & H3). exists rs. rewrite H2.
  unfold open_ids in *. cbn [sd_trace_tx sd_pending sd_span_ttl set_spans mirror].
  split_and!; [by rewrite H1, Ht|done|]. rewrite app_nil_r, Hp in H3. rewrite map_to_list_insert.
  - cbn [map snd]. unfold new_span. destruct (task_names env net port ti) as [[? ?] ?]. cbn [ps_span_id app].
    rewrite H3. by rewrite <- Permutation_cons_append.
  - unfold make_room. by rewrite expire_pending, lookup_delete_eq.
Qed.

Lemma sends_input i d sent :
  sends (begun_ids [i]) d (handle_input i d) sent (span_run (M:=SimpleExternal.unbounded_mpsc) span_iter [i] (mirror d sent)).
Proof.
  destruct i as [[[[env net] port] ev]|env]; unfold handle_input; simpl.
  - destruct ev; cbn [on_event]; [apply sends_begin|by apply sends_modify..|apply sends_end].
  - apply sends_expire_list.
Qed.

(** ** Nothing is lost on the way *)

Hypothesis span_iter_perm : forall m, span_iter m ≡ₚ map_to_list m.
Context `{!MpscLaws M} `{!ReceiverLaws M RC} `{!SemaphoreLaws SO}.

(** A span as the task leaves it. *)
Definition scoped (rr : TraceRecord * TraceRecord) : Prop :=
  exists env resolver, rr.2 = (resolve_scope env resolver rr.1).2.

(** Whether the task runs at all. *)
Definition exports_traces (s : AppSettings) : bool :=
  match te_endpoint (tc_export (st_traces s)) with
  | None => false
  | Some _ => negb (te_flush_interval_ms (tc_export (st_traces s)) =? 0)
  end.

(** The dispatcher of [run], on a channel that takes everything, after the inputs the pillar has handled: its channel holds
    what the dispatcher offered. *)
Definition unhindered (s : AppSettings) (host_name : string) (p : TracePillar) : SpanDispatcher (M:=SimpleExternal.unbounded_mpsc) :=
  span_run (M:=SimpleExternal.unbounded_mpsc) span_iter (tp_handled p)
    (with_service_metadata (M:=SimpleExternal.unbounded_mpsc) (sc_name (st_service s)) host_name
       (SpanDispatcher_new (M:=SimpleExternal.unbounded_mpsc) [] (tc_span_ttl_secs (st_traces s) * 1000)
          (Z.to_nat (tc_max_pending_spans (st_traces s))))).

Record trace_inv (s : AppSettings) (host : string) (p : TracePillar) : Prop := {
  tri_channel : sd_trace_tx (tp_spans p) = et_tx (tp_task p);
  tri_task : task_inv TRACE_INPUT_CAPACITY MAX_INFLIGHT_TRACE_FLUSHES (tp_task p);
  tri_spans : span_inv (tp_spans p) /\ sd_max_pending (tp_spans p) = Z.to_nat (tc_max_pending_spans (st_traces s));
  tri_mirror : unhindered s host p = mirror (tp_spans p) (sd_trace_tx (unhindered s host p));
  tri_ids : open_ids (tp_spans p) ++ map tr_span_id (sd_trace_tx (unhindered s host p)) ≡ₚ begun_ids (tp_handled p);
  tri_offered : et_accepted (tp_task p) `sublist_of` sd_trace_tx (unhindered s host p);
  tri_room : exports_traces s = true -> (length (sd_trace_tx (unhindered s host p)) <= TRACE_INPUT_CAPACITY)%nat ->
    et_accepted (tp_task p) = sd_trace_tx (unhindered s host p);
  tri_scoped : Forall scoped (et_taken (tp_task p));
  tri_alive : et_alive (tp_task p) = exports_traces s;
  tri_dead : exports_traces s = false -> et_accepted (tp_task p) = [];
}.

Lemma expire_list_config env l d : same_config d (fold_left (fun d key => expire env key d) l d).
Proof.
  revert d. induction l as [|k l IH]; intros d; [done|]. simpl. destruct (expire_config env k d) as (? & ? & ? & ?).
  destruct (IH (expire env k d)) as (? & ? & ? & ?). unfold same_config. split_and!; congruence.
Qed.

Lemma span_input_inv i d : span_inv d ->
  span_inv (handle_input i d) /\ sd_max_pending (handle_input i d) = sd_max_pending d.
Proof using span_iter_perm.
  intros Hd. destruct i as [[[[env net] port] ev]|env]; unfold handle_input; simpl.
  - split; [by apply on_event_inv|]. destruct ev; cbn [on_event].
    + unfold on_begin. pose proof (resolve_parent_state traceparent parent_span_id trace_id d) as Hr.
      destruct (resolve_parent _ _ _ d) as [[[tid' par] reason] d1]. destruct Hr as (_ & _ & (_ & Hm & _) & _).
      simpl in Hm. simpl. destruct (make_room_config span_iter env (mkSpanKey net span_id) d1) as (_ & Hm' & _). congruence.
    + unfold on_attr, modify_span. by repeat case_match.
    + unfold on_event_ev, modify_span. by repeat case_match.
    + unfold on_end. by repeat case_match.
  - split; [by apply sweep_inv|]. apply expire_list_config.
Qed.

Lemma unhindered_turn s host i events p :
  unhindered s host (span_turn i events p) = span_run (M:=SimpleExternal.unbounded_mpsc) span_iter [i] (unhindered s host p).
Proof. unfold unhindered, span_run. cbn [tp_handled span_turn]. by rewrite fold_left_app. Qed.

Lemma span_turn_inv s host i events p : trace_inv s host p -> trace_inv s host (span_turn i events p).
Proof using span_iter_perm MpscLaws0 ReceiverLaws0.
  intros [Hc Ht [Hs Hm] Hmir Hids Hoff Hroom Hsc Ha Hd].
  destruct (sends_input i (tp_spans p) (sd_trace_tx (unhindered s host p))) as (rs & Htx & He & Hperm).
  rewrite Hc in Htx. rewrite <- Hmir, <- (unhindered_turn s host i events p) in He.
  destruct (span_input_inv i _ Hs) as [Hs' Hm']. destruct (task_sent_accepted rs (tp_task p)) as (sub & Hsubl & Hacc).
  pose proof (task_sent_inv _ _ rs _ Ht) as Ht'. rewrite <- Htx in Ht', Hacc.
  assert (Htr : sd_trace_tx (unhindered s host (span_turn i events p)) = sd_trace_tx (unhindered s host p) ++ rs)
    by by rewrite He.
  split; rewrite ?Htr; cbn [tp_spans tp_task tp_handled span_turn]; try done.
  - split; [done|congruence].
  - rewrite map_app, app_assoc, (Permutation_app_comm (open_ids _)), <- app_assoc, Hperm, app_assoc.
    rewrite (Permutation_app_comm (map _ _)), Hids. unfold begun_ids. by rewrite omap_app.
  - rewrite Hacc. by apply sublist_app.
  - intros Hex Hlen. rewrite length_app in Hlen. rewrite Htx, (task_sent_room _ _ _ _ Ht); [|congruence|].
    + rewrite (Hroom Hex) by lia. done.
    + apply sublist_length in Hoff. pose proof (ti_channel _ _ _ Ht) as Hch. apply (f_equal length) in Hch.
      rewrite !length_app in Hch. lia.
  - intros Hdead. specialize (Hd Hdead). rewrite Hdead in Ha. rewrite (ti_channel _ _ _ Ht) in Hd.
    rewrite (ti_channel _ _ _ Ht'). pose proof (ti_lost _ _ _ Ht') as Hl. cbn [task_sent et_alive et_taken et_lost et_tx] in *.
    rewrite Ha in Hl. destruct Hl as [_ Hl]. rewrite Hl, app_nil_r. apply app_eq_nil in Hd as [-> Hd].
    by apply app_eq_nil in Hd as [-> _].
Qed.

Lemma with_trace_task_inv s host t p : trace_inv s host p ->
  task_inv TRACE_INPUT_CAPACITY MAX_INFLIGHT_TRACE_FLUSHES t -> et_accepted t = et_accepted (tp_task p) ->
  et_alive t = et_alive (tp_task p) -> Forall scoped (et_taken t) -> trace_inv s host (with_trace_task t p).
Proof.
  intros [Hc Ht [Hs Hm] Hmir Hids Hoff Hroom Hsc Ha Hd] Ht' Hacc Hal Htk.
  split; cbn [tp_task with_trace_task]; rewrite ?Hacc; try done; [|by rewrite Hal].
  split; [|done]. destruct Hs as [? ? ?]. by split.
Qed.

Lemma trace_record_inv s host env p : trace_inv s host p -> trace_inv s host (trace_record env p).
Proof using ReceiverLaws0 SemaphoreLaws0.
  intros Hp. unfold trace_record. set (f := fun r => _). set (p' := with_trace_task _ p).
  assert (Hp' : trace_inv s host p').
  { apply with_trace_task_inv; [done|apply task_take_inv, Hp|..]; unfold task_take;
      destruct (et_alive (tp_task p)) eqn:Hal; try done; destruct (recv (et_tx (tp_task p))) as [[r tx]|]; try done; try apply Hp.
    apply Forall_app. split; [apply Hp|]. apply Forall_singleton. by exists env, (tp_resolver p). }
  destruct (recv (et_tx (tp_task p))) as [[r tx]|]; [|done]. destruct (et_alive (tp_task p)); [|done].
  destruct Hp' as [? ? ? ? ? ? ? ? ? ?]. by split.
Qed.

Lemma trace_turn_inv s host p ev : trace_inv s host p -> trace_inv s host (trace_turn p ev).
Proof using span_iter_perm MpscLaws0 ReceiverLaws0 SemaphoreLaws0.
  intros Hp. destruct ev; cbn [trace_turn].
  - destruct Hp as [? ? ? ? ? ? ? ? ? ?]. by split.
  - destruct (recv (tp_events p)) as [[[[net port] ev] rest]|]; [|done]. by apply span_turn_inv.
  - by apply span_turn_inv.
  - by apply trace_record_inv.
  - apply with_trace_task_inv; [done|apply task_tick_inv, Hp|..]; unfold task_tick;
      destruct (et_alive (tp_task p)) eqn:Ha; simpl; rewrite ?Ha; try done; apply Hp.
  - apply with_trace_task_inv; [done|apply task_posted_inv, Hp|..]; try done. apply Hp.
Qed.

Lemma trace_inv_new s resolver host : trace_inv s host (TracePillar_new s resolver host).
Proof using ReceiverLaws0 SemaphoreLaws0.
  assert (Ht : task_inv TRACE_INPUT_CAPACITY MAX_INFLIGHT_TRACE_FLUSHES (TraceDispatcher_new s)).
  { unfold TraceDispatcher_new. case_match; [apply task_inv_spawn|apply task_die_inv, task_inv_new]. }
  assert (Ha : et_alive (TraceDispatcher_new s) = exports_traces s /\ et_accepted (TraceDispatcher_new s) = [] /\
    et_taken (TraceDispatcher_new s) = []).
  { unfold TraceDispatcher_new, exports_traces. destruct (te_endpoint _); [apply spawn_fresh|done]. }
  destruct Ha as (Ha & Hacc & Htk). unfold TracePillar_new. set (t := TraceDispatcher_new s) in *.
  split; cbn [tp_spans tp_task tp_handled]; try done.
  - split; [|done]. split; simpl; [intros k q|intros k q|rewrite map_size_empty; lia]; by rewrite lookup_empty.
  - by rewrite Hacc.
  - by rewrite Htk.
Qed.

Lemma trace_run_inv s resolver host l : trace_inv s host (trace_run (TracePillar_new s resolver host) l).
Proof using span_iter_perm MpscLaws0 ReceiverLaws0 SemaphoreLaws0.
  unfold trace_run. generalize (trace_inv_new s resolver host). generalize (TracePillar_new s resolver host).
  induction l as [|ev l IH]; intros q Hq; [done|]. by apply IH, trace_turn_inv.
Qed.

(** C11: No span is lost between its begin and a post but where the code says so. Take any interleaving of the
    tasks of the trace pillar, with whatever the channels refuse, and let the records offered be those that the same span dispatcher, given
    the same events and sweeps, puts into a channel that takes everything. The dispatcher of the pillar has the same open spans, and the ids of the spans that were begun are, each as often
    as it was begun, those of the spans that are open and those of the records offered; never more are open than
    configured. The records the export channel took are among those offered, in their order, all of them while these
    fit into the channel and the task lives, and are those
    the task took, each with its scope resolved and in order in the batches handed over ([spawn_flush] posts a batch, or drops it
    when 32 posts are under way)
    and the batch being filled, and those that wait; never more than 32 posts are under way; and when no endpoint is
    configured, or the flush interval is zero, no record is ever taken and nothing is posted. *)
Theorem spans_flow s resolver host l :
  let p := trace_run (TracePillar_new s resolver host) l in
  let t := tp_task p in
  let w := et_worker t in
  let offered := sd_trace_tx (unhindered s host p) in
  sd_pending (unhindered s host p) = sd_pending (tp_spans p) /\
  begun_ids (tp_handled p) ≡ₚ open_ids (tp_spans p) ++ map tr_span_id offered /\
  (pending_count (tp_spans p) <= Nat.max 1 (Z.to_nat (tc_max_pending_spans (st_traces s))))%nat /\
  et_accepted t `sublist_of` offered /\
  (exports_traces s = true ->
     ((length offered <= TRACE_INPUT_CAPACITY)%nat -> et_accepted t = offered) /\
     et_accepted t = (et_taken t).*1 ++ queued (et_tx t) /\
     (et_taken t).*2 = concat (bw_flushed w).*2 ++ bw_batch w) /\
  Forall scoped (et_taken t) /\
  (length (bw_running w) <= MAX_INFLIGHT_TRACE_FLUSHES)%nat /\
  (exports_traces s = false -> et_accepted t = [] /\ bw_flushed w = []).
Proof using span_iter_perm MpscLaws0 ReceiverLaws0 SemaphoreLaws0.
  intros p t w offered. destruct (trace_run_inv s resolver host l) as [Hc Ht [Hs Hm] Hmir Hids Hoff Hroom Hsc Ha Hd].
  fold p in Hc, Ht, Hs, Hm, Hmir, Hids, Hoff, Hroom, Hsc, Ha, Hd. fold t in Ht, Hoff, Hroom, Hsc, Ha, Hd.
  destruct (task_inv_flow _ _ _ Ht) as (Hf1 & Hf2 & Hf3). fold w in Hf2, Hf3. fold offered in Hmir, Hids, Hoff, Hroom.
  pose proof (ti_lost _ _ _ Ht) as Hl. rewrite Ha in Hl. split_and!; try done.
  - by rewrite Hmir.
  - unfold pending_count. rewrite <- Hm. apply Hs.
  - intros Hex. rewrite Hex in Hl. destruct Hl as [Hl1 Hl2]. rewrite Hl2 in Hf1. rewrite Hl1, app_nil_r in Hf2. auto.
  - intros Hex. specialize (Hd Hex). split; [done|]. rewrite Hd in Hf1.
    symmetry in Hf1. apply app_eq_nil in Hf1 as [Hf1 _]. apply fmap_nil_inv in Hf1. rewrite Hf1 in Hf2.
    symmetry in Hf2. apply app_eq_nil in Hf2 as [Hf2 _]. pose proof (wi_sizes _ _ (ti_worker _ _ _ Ht)) as Hsz.
    fold w in Hsz. destruct (bw_flushed w) as [|[b batch] rest]; [done|].
    apply Forall_cons_1 in Hsz as [Hsz _]. simpl in Hsz, Hf2. apply app_eq_nil in Hf2 as [-> _]. simpl in Hsz. lia.
Qed.

End TraceTasks.
