(* ===== verification/LogFlow.v ===== *)
(** * The log pillar (crates/tc-otel-service: service.rs, dispatcher.rs)

    The tasks of [Service] between the router and the log dispatcher, joined to
    the batching worker behind the export channel: from a frame that a PLC
    wrote to the batches that are posted. Every interleaving is a sequence of
    [LogTurn]s. *)

From S2P Require Import Prelude.
From S2P Require Import Text.
From S2P Require Import External.
From S2P Require Import Ams.
From S2P Require Import Models.
From S2P Require Import Protocol.
From S2P Require Import Parser.
From S2P Require Import Wire.
From S2P Require Import Batch.
From S2P Require Import Registry.
From S2P Require Import Diagnostics.
From S2P Require Import Router.
From S2P Require Import SpanDispatcher.
From S2P Require Import ScopeResolver.
From S2P Require Import MetricMapper.
From S2P Require Import Poll.
From S2P Require Import Config.
From S2P Require Import LogPath.
From S2P Require Import Worker.
From S2P Require Import Channels.
From S2P Require Import Delivery.
From S2P Require Import CycleTime.
From S2P Require Import Service.

Section LogTasks.
Context `{Ext : External} `{H : Hex} `{M : Mpsc} {RC : Receiver M} `{SL : ScopeLookup} `{SO : SemaphoreOps}.
Variable span_iter : gmap SpanKey PendingSpan -> list (SpanKey * PendingSpan).
Variable microseconds_since : DateTime -> DateTime -> option Z.
Variable env_var : string -> option string.
Variable cap : nat.
Variable cycle_time_enabled : bool.

Abbreviation LogTask := (ExportTask (R:=LogRecord) (X:=string * option ExportConfig)).

(** [lp_format] is the worker's [format], with which it compares that of new settings. For the
    theorems only: [lp_made], the entries taken with the record made of each. *)
Record LogPillar := mkLogPillar {
  lp_pipe : Pipeline;
  lp_task : LogTask;
  lp_format : WireFormat;
  lp_made : list (LogEntry * LogRecord);
}.

(** [LogDispatcher::with_scope_resolver]: the dispatcher and its task. *)
Definition LogDispatcher_new (s : AppSettings) (watched : bool) (resolver : ScopeResolver) (host_name : string)
    : LogDispatcher * LogTask :=
  let t := ExportTask_spawn (Z.to_nat (sc_channel_capacity (st_service s))) (log_worker_config env_var s) watched
             MAX_INFLIGHT_FLUSHES in
  (mkLogDispatcher (et_tx t) host_name (sc_name (st_service s)) resolver, t).

Definition LogPillar_new (s : AppSettings) (watched : bool) (resolver : ScopeResolver) (host_name : string)
    (spans : option SpanDispatcher) : LogPillar :=
  let '(d, t) := LogDispatcher_new s watched resolver host_name in
  mkLogPillar (Pipeline_new spans (Z.to_nat (mc_cycle_time_window (st_metrics s))) d) t (es_format (st_export s)) [].

Inductive LogTurn :=
| LtPipe (ev : PipeEvent)
| LtRecord
| LtTick
| LtConfig (new : option AppSettings)
| LtPosted (i : nat).

Definition set_export_tx (tx : Sender LogRecord) (p : Pipeline) : Pipeline :=
  let d := pl_dispatcher p in
  mkPipeline (pl_raw p) (pl_trace p) (pl_spans p) (pl_log p) (pl_tracker p) (pl_stats p)
    (mkLogDispatcher tx (ld_host_name d) (ld_default_service_name d) (ld_scope_resolver d)) (pl_accepted p) (pl_taken p).

(** The channel of the task changed; the dispatcher's sender is of the same channel. *)
Definition with_log_task (t : LogTask) (p : LogPillar) : LogPillar :=
  mkLogPillar (set_export_tx (et_tx t) (lp_pipe p)) t (lp_format p) (lp_made p).

(** The configuration branch of the worker. *)
Definition configure_logs (new : option AppSettings) (p : LogPillar) : LogPillar :=
  let w := et_worker (lp_task p) in
  let t := task_config ((fun s => log_reload env_var s (lp_format p) (bw_config w)) <$> new) (lp_task p) in
  let format := match new with
                | Some s => if et_alive t && bw_config_rx w then es_format (st_export s) else lp_format p
                | None => lp_format p
                end in
  mkLogPillar (set_export_tx (et_tx t) (lp_pipe p)) t format (lp_made p).

(** The entry and the record of the next dispatch. *)
Definition next_made (ev : PipeEvent) (p : Pipeline) : list (LogEntry * LogRecord) :=
  match ev, pl_log p with
  | EvDispatch env, e :: _ =>
    match log_record_of env e (pl_dispatcher p) with Ok (_, rec) => [(e, rec)] | _ => [] end
  | _, _ => []
  end.

Definition log_turn (p : LogPillar) (ev : LogTurn) : outcome Empty_set LogPillar :=
  match ev with
  | LtPipe ev =>
    (pipe <-- pipe_step span_iter microseconds_since cap cycle_time_enabled (lp_pipe p) ev ;;
     Ok (mkLogPillar pipe (task_sent (ld_export_tx (pl_dispatcher pipe)) (lp_task p)) (lp_format p)
           (lp_made p ++ next_made ev (lp_pipe p))))%rust
  | LtRecord => Ok (with_log_task (task_take id (lp_task p)) p)
  | LtTick => Ok (with_log_task (task_tick (lp_task p)) p)
  | LtConfig new => Ok (configure_logs new p)
  | LtPosted i => Ok (with_log_task (task_posted i (lp_task p)) p)
  end.

Fixpoint log_run (p : LogPillar) (l : list LogTurn) : outcome Empty_set LogPillar :=
  match l with
  | [] => Ok p
  | ev :: l => (p <-- log_turn p ev ;; log_run p l)%rust
  end.

Lemma log_run_app p l l' : log_run p (l ++ l') = (p <-- log_run p l ;; log_run p l')%rust.
Proof.
  revert p. induction l as [|ev l IH]; intros p; [done|]. cbn [app log_run].
  destruct (log_turn p ev); cbn [outcome_bind]; [apply IH|done..].
Qed.

(** ** Nothing is lost on the way *)

Context `{!MpscLaws M} `{!ReceiverLaws M RC} `{!SemaphoreLaws SO}.

Abbreviation step := (pipe_step span_iter microseconds_since cap cycle_time_enabled).

(** A dispatch sends the record it makes. *)
Lemma dispatch_sends env e d : exists resolver rec, log_record_of env e d = Ok (resolver, rec) /\
  LogDispatcher_dispatch env e d =
    Ok (mkLogDispatcher (try_send (ld_export_tx d) rec).1 (ld_host_name d) (ld_default_service_name d) resolver).
Proof.
  destruct (dispatch_ok env e d) as [d' Hd]. unfold LogDispatcher_dispatch in *.
  destruct (log_record_of env e d) as [[resolver rec]|[]| |]; try done. by exists resolver, rec.
Qed.

(** What a turn of the pipeline sends to the worker. *)
Lemma pipe_step_sends p ev p' : step p ev = Ok p' ->
  ld_export_tx (pl_dispatcher p') = send_all (ld_export_tx (pl_dispatcher p)) (next_made ev p).*2 /\
  pl_taken p' = pl_taken p ++ (next_made ev p).*1.
Proof.
  destruct ev as [e|ev| |env|env|env]; cbn [pipe_step next_made fmap list_fmap send_all fold_left]; intros Hs;
    rewrite ?app_nil_r.
  - destruct (_ <? _)%nat; by injection Hs as <-.
  - destruct (_ <? _)%nat; by injection Hs as <-.
  - destruct (pl_raw p); [by injection Hs as <-|]. destruct (_ <? _)%nat; by injection Hs as <-.
  - destruct (pl_spans p) as [d|]; [|by injection Hs as <-].
    destruct (pl_trace p) as [|[[net port] ev] rest]; by injection Hs as <-.
  - by injection Hs as <-.
  - destruct (pl_log p) as [|e log]; [injection Hs as <-; by rewrite app_nil_r|].
    destruct (dispatch_sends env e (pl_dispatcher p)) as (resolver & rec & Hrec & Hdis).
    rewrite Hdis in Hs. rewrite Hrec. injection Hs as <-. done.
Qed.

(** A record that was made of an entry. *)
Definition log_made (er : LogEntry * LogRecord) : Prop :=
  exists env d resolver, log_record_of env er.1 d = Ok (resolver, er.2).

Lemma next_made_made ev p : Forall log_made (next_made ev p).
Proof.
  unfold next_made. destruct ev; try constructor. destruct (pl_log p) as [|e log]; [constructor|].
  destruct (log_record_of env e (pl_dispatcher p)) as [[resolver rec]|[]| |] eqn:Hrec; try constructor; [|constructor].
  by exists env, (pl_dispatcher p), resolver.
Qed.

Record log_inv (tcap window : nat) (p : LogPillar) : Prop := {
  li_pipe : pipe_inv microseconds_since cap cycle_time_enabled window (lp_pipe p);
  li_channel : ld_export_tx (pl_dispatcher (lp_pipe p)) = et_tx (lp_task p);
  li_task : task_inv tcap MAX_INFLIGHT_FLUSHES (lp_task p);
  li_as_made : Forall as_made (et_taken (lp_task p));
  li_taken : pl_taken (lp_pipe p) = (lp_made p).*1;
  li_made : Forall log_made (lp_made p);
  li_records : et_accepted (lp_task p) `sublist_of` (lp_made p).*2;
}.

Lemma with_log_task_inv tcap window t fmt p : log_inv tcap window p ->
  task_inv tcap MAX_INFLIGHT_FLUSHES t -> et_accepted t = et_accepted (lp_task p) -> Forall as_made (et_taken t) ->
  log_inv tcap window (mkLogPillar (set_export_tx (et_tx t) (lp_pipe p)) t fmt (lp_made p)).
Proof.
  intros [Hp Hc Ht Ha Htk Hm Hr] Ht' Hacc Has. split; simpl; try done; [|by rewrite Hacc].
  destruct Hp as [? ? ? ? ? ?]. by split.
Qed.

Lemma log_turn_inv tcap window p ev : log_inv tcap window p ->
  exists p', log_turn p ev = Ok p' /\ log_inv tcap window p'.
Proof using MpscLaws0 ReceiverLaws0 SemaphoreLaws0.
  intros Hi. pose proof Hi as [Hp Hc Ht Ha Htk Hm Hr].
  destruct ev as [ev| | |new|i]; cbn [log_turn]; [|eexists; split; [done|]; apply with_log_task_inv; try done..].
  - destruct (pipe_step_inv span_iter microseconds_since cap cycle_time_enabled window _ ev Hp) as (pipe & Hs & Hp').
    rewrite Hs. cbn [outcome_bind]. eexists. split; [done|]. destruct (pipe_step_sends _ _ _ Hs) as [Htx Htk'].
    rewrite Hc in Htx. destruct (task_sent_accepted (next_made ev (lp_pipe p)).*2 (lp_task p)) as (sub & Hsub & Hacc).
    pose proof (task_sent_inv _ _ (next_made ev (lp_pipe p)).*2 _ Ht) as Ht'. rewrite <- Htx in Hacc, Ht'.
    split; cbn [lp_pipe lp_task lp_made]; try done.
    + by rewrite Htk', Htk, fmap_app.
    + apply Forall_app. split; [done|apply next_made_made].
    + rewrite Hacc, fmap_app. by apply sublist_app.
  - by apply task_take_inv.
  - by apply task_take_as_made.
  - by apply task_take_as_made.
  - by apply task_tick_inv.
  - unfold task_tick. by destruct (et_alive _).
  - unfold task_tick. by destruct (et_alive _).
  - by apply task_config_inv.
  - apply task_config_same.
  - by rewrite (proj2 (task_config_same _ _)).
  - by apply task_posted_inv.
Qed.

Lemma log_run_inv tcap window l : forall p, log_inv tcap window p ->
  exists p', log_run p l = Ok p' /\ log_inv tcap window p'.
Proof using MpscLaws0 ReceiverLaws0 SemaphoreLaws0.
  induction l as [|ev l IH]; intros p Hp; [by exists p|].
  destruct (log_turn_inv tcap window p ev Hp) as (p1 & Hs & Hp1). cbn [log_run]. rewrite Hs. by apply IH.
Qed.

Lemma log_inv_new s watched resolver host spans :
  log_inv (Z.to_nat (sc_channel_capacity (st_service s))) (Z.to_nat (mc_cycle_time_window (st_metrics s)))
    (LogPillar_new s watched resolver host spans).
Proof using ReceiverLaws0 SemaphoreLaws0.
  destruct (spawn_fresh (R:=LogRecord) (Z.to_nat (sc_channel_capacity (st_service s))) MAX_INFLIGHT_FLUSHES
    (log_worker_config env_var s) watched) as (_ & Hacc & Htk).
  unfold LogPillar_new, LogDispatcher_new. split; cbn [lp_pipe lp_task lp_made]; try done.
  - apply pipe_inv_new.
  - apply task_inv_spawn.
  - by rewrite Htk.
  - by rewrite Hacc.
Qed.

(** C9: No log is lost between the router and a post but where the code says so. In every interleaving of
    the tasks of the log pillar, none of which panics: the entries dispatched, those waiting for it and
    those waiting for their trace context are, in this order, exactly those the first channel took, each with at
    most its trace context changed; of each dispatched entry one record was made; the records the export
    channel took are among those, in their order, and are, in order, those of the batches handed over ([spawn_flush] posts a batch, or drops it
    when sixteen posts are under way), of the batch being filled,
    those lost with the batch and with the channel of a worker that died, and those that wait; and never more than sixteen posts are under way,
    each of a batch that got a permit. *)
Theorem log_records_flow s watched resolver host spans l :
  exists p, log_run (LogPillar_new s watched resolver host spans) l = Ok p /\
  let pipe := lp_pipe p in let t := lp_task p in let w := et_worker t in
  map bare (pl_taken pipe ++ pl_log pipe ++ pl_raw pipe) = map bare (pl_accepted pipe) /\
  pl_taken pipe = (lp_made p).*1 /\ Forall log_made (lp_made p) /\
  et_accepted t `sublist_of` (lp_made p).*2 /\
  et_accepted t = concat (bw_flushed w).*2 ++ bw_batch w ++ et_batch_lost t ++ et_lost t ++ queued (et_tx t) /\
  (et_alive t = true -> et_batch_lost t = [] /\ et_lost t = []) /\
  (et_alive t = false -> bw_batch w = [] /\ queued (et_tx t) = []) /\
  (length (bw_running w) <= MAX_INFLIGHT_FLUSHES)%nat /\ (bw_running w).*2 `sublist_of` granted (bw_flushed w).
Proof using MpscLaws0 ReceiverLaws0 SemaphoreLaws0.
  destruct (log_run_inv _ _ l _ (log_inv_new s watched resolver host spans)) as (p & Hr & [Hp Hc Ht Ha Htk Hm Hrec]).
  exists p. split; [done|]. destruct (task_inv_flow _ _ _ Ht) as (Hf1 & Hf2 & Hf3). intros pipe t w.
  fold t w in Hf1, Hf2, Hf3, Ha. pose proof (ti_lost _ _ _ Ht) as Hl. fold t in Hl.
  split_and!; try done; [apply Hp| |intros Hal; by rewrite Hal in Hl..|apply (wi_running _ _ (ti_worker _ _ _ Ht))].
  by rewrite Hf1, (as_made_same _ Ha), Hf2, <- !app_assoc.
Qed.

(** ** From the wire to the posts *)

(** The state as far as the schedule below needs it: since the batches were [fs], all were posted, and they and the
    batch being filled hold [held]. *)
Record log_view (tcap window : nat) (fs : list (bool * list LogRecord)) (p : LogPillar) (raw log : list LogEntry)
    (records held : list LogRecord) : Prop := {
  lv_inv : log_inv tcap window p;
  lv_alive : et_alive (lp_task p) = true;
  lv_raw : pl_raw (lp_pipe p) = raw;
  lv_log : pl_log (lp_pipe p) = log;
  lv_records : queued (et_tx (lp_task p)) = records;
  lv_posted : posted_since fs (et_worker (lp_task p)) held;
}.

(** The turns a schedule may take: those of the tasks of the pillar, and the end of a post that is under way. *)
Definition own_turn (env : LookupEnv) (ev : LogTurn) : Prop :=
  (exists i, ev = LtPosted i) \/ ev = LtRecord \/ ev = LtTick \/ ev = LtPipe EvForward \/ ev = LtPipe (EvDispatch env).

(** From [p] own turns lead to [p'], by which [made] was dispatched. *)
Definition leads_to (env : LookupEnv) (p p' : LogPillar) (made : list (LogEntry * LogRecord)) : Prop :=
  exists turns, Forall (own_turn env) turns /\ log_run p turns = Ok p' /\ lp_made p' = lp_made p ++ made.

Lemma leads_refl env p : leads_to env p p [].
Proof. exists []. by rewrite app_nil_r. Qed.

Lemma leads_turn env p p' ev made : own_turn env ev -> log_turn p ev = Ok p' -> lp_made p' = lp_made p ++ made ->
  leads_to env p p' made.
Proof. intros Ho Ht Hm. exists [ev]. split_and!; [by apply Forall_singleton| |done]. cbn [log_run]. by rewrite Ht. Qed.

Lemma leads_trans env p p' p'' made made' : leads_to env p p' made -> leads_to env p' p'' made' ->
  leads_to env p p'' (made ++ made').
Proof.
  intros (t & Ho & Hr & Hm) (t' & Ho' & Hr' & Hm'). exists (t ++ t'). split_and!; [by apply Forall_app| |].
  - by rewrite log_run_app, Hr.
  - by rewrite Hm', Hm, app_assoc.
Qed.

(** A post ends, and so a permit is free. *)
Lemma posted_leads env tcap window fs p raw log records held : log_view tcap window fs p raw log records held ->
  exists p', leads_to env p p' [] /\ log_view tcap window fs p' raw log records held /\
    (0 < available_permits (bw_inflight (et_worker (lp_task p'))))%nat.
Proof using MpscLaws0 ReceiverLaws0 SemaphoreLaws0.
  intros [Hi Ha Hraw Hlog Hr Hv]. destruct (log_turn_inv _ _ _ (LtPosted 0) Hi) as (p' & Ht & Hi'). exists p'.
  destruct (task_posted_frees _ _ fs held _ (Nat.lt_0_succ 15) (li_task _ _ _ Hi) Hv) as (Ha' & Htx & Hv' & Hf).
  assert (Hm : lp_made p' = lp_made p ++ []) by (injection Ht as <-; by rewrite app_nil_r).
  split; [by eapply leads_turn; [left; exists 0%nat|..]|]. injection Ht as <-.
  split; [|done]. split; [done|by cbn [lp_task with_log_task]; rewrite Ha'|done|done| |done].
  cbn [lp_task with_log_task]. by rewrite Htx.
Qed.

Lemma record_leads env tcap window fs p raw log r records held :
  log_view tcap window fs p raw log (r :: records) held ->
  exists p', leads_to env p p' [] /\ log_view tcap window fs p' raw log records (held ++ [r]).
Proof using MpscLaws0 ReceiverLaws0 SemaphoreLaws0.
  intros Hv0. destruct (posted_leads env _ _ _ _ _ _ _ _ Hv0) as (p0 & Hl0 & [Hi Ha Hraw Hlog Hr Hv] & Hf).
  destruct (log_turn_inv _ _ _ LtRecord Hi) as (p' & Ht & Hi'). exists p'. split.
  - apply (leads_trans env p p0 p' [] []); [done|]. eapply leads_turn; [by right; left|done|].
    injection Ht as <-. by rewrite app_nil_r.
  - destruct (task_take_next id fs held r records (lp_task p0) Ha Hr Hf Hv) as (Ha' & Hq' & Hv'). injection Ht as <-.
    by split.
Qed.

Lemma records_lead env tcap window fs raw log records : forall p held,
  log_view tcap window fs p raw log records held ->
  exists p', leads_to env p p' [] /\ log_view tcap window fs p' raw log [] (held ++ records).
Proof using MpscLaws0 ReceiverLaws0 SemaphoreLaws0.
  induction records as [|r records IH]; intros p held Hp.
  - exists p. rewrite app_nil_r. split; [apply leads_refl|done].
  - destruct (record_leads env _ _ _ _ _ _ _ _ _ Hp) as (p1 & H1 & Hv1). destruct (IH _ _ Hv1) as (p2 & H2 & Hv2).
    exists p2. rewrite <- app_assoc in Hv2. split; [by apply (leads_trans env p p1 p2 [] [])|done].
Qed.

(** An entry is dispatched and its record held. *)
Lemma dispatch_leads env tcap window fs p raw e log held : (0 < tcap)%nat ->
  log_view tcap window fs p raw (e :: log) [] held ->
  exists p' rec, leads_to env p p' [(e, rec)] /\ log_view tcap window fs p' raw log [] (held ++ [rec]).
Proof using MpscLaws0 ReceiverLaws0 SemaphoreLaws0.
  intros Hcap [Hi Ha Hraw Hlog Hr Hv].
  destruct (log_turn_inv _ _ _ (LtPipe (EvDispatch env)) Hi) as (p1 & Ht & Hi1).
  destruct (dispatch_sends env e (pl_dispatcher (lp_pipe p))) as (resolver & rec & Hrec & Hdis).
  destruct (task_offer_room _ _ rec _ (li_task _ _ _ Hi) Ha) as (Ha1 & Hq1 & Hw1); [rewrite Hr; simpl; lia|].
  pose proof (task_sent_offers [rec] (lp_task p)) as Hoff. cbn [foldl flip send_all fold_left] in Hoff.
  assert (Hl1 : leads_to env p p1 [(e, rec)] /\ log_view tcap window fs p1 raw log [rec] held).
  { pose proof Ht as Ht'. cbn [log_turn pipe_step next_made] in Ht'. rewrite Hlog, Hdis in Ht'.
    cbn [outcome_bind next_made] in Ht'. rewrite Hrec in Ht'. injection Ht' as <-.
    split; [by eapply leads_turn; [right; right; right; by right|done|]|].
    pose proof (li_channel _ _ _ Hi) as Hch. split; simpl in *; try done.
    rewrite <- Hoff, Hr in Hq1. simpl in Hq1. by rewrite Hch. }
  destruct Hl1 as [Hl1 Hv1]. destruct (record_leads env _ _ _ _ _ _ _ _ _ Hv1) as (p2 & Hl2 & Hv2).
  exists p2, rec. split; [by apply (leads_trans env p p1 p2 [(e, rec)] [])|done].
Qed.

Lemma dispatches_lead env tcap window fs raw log : (0 < tcap)%nat -> forall p held,
  log_view tcap window fs p raw log [] held ->
  exists p' made, leads_to env p p' made /\ made.*1 = log /\ log_view tcap window fs p' raw [] [] (held ++ made.*2).
Proof using MpscLaws0 ReceiverLaws0 SemaphoreLaws0.
  intros Hcap. induction log as [|e log IH]; intros p held Hp.
  - exists p, []. simpl. rewrite app_nil_r. split_and!; [apply leads_refl|done..].
  - destruct (dispatch_leads env _ _ _ _ _ _ _ _ Hcap Hp) as (p1 & rec & H1 & Hv1).
    destruct (IH _ _ Hv1) as (p2 & made & H2 & Hm2 & Hv2). exists p2, ((e, rec) :: made). simpl.
    rewrite <- app_assoc in Hv2. split_and!; [by apply (leads_trans env p p1 p2 [(e, rec)] made)|by f_equal|done].
Qed.

(** A raw entry is forwarded, dispatched and its record held. *)
Lemma forward_leads env tcap window fs p e raw held : (0 < cap)%nat -> (0 < tcap)%nat ->
  log_view tcap window fs p (e :: raw) [] [] held ->
  exists p' e' rec, bare e' = bare e /\ leads_to env p p' [(e', rec)] /\
    log_view tcap window fs p' raw [] [] (held ++ [rec]).
Proof using MpscLaws0 ReceiverLaws0 SemaphoreLaws0.
  intros Hcap Htcap [Hi Ha Hraw Hlog Hr Hv].
  destruct (log_turn_inv _ _ _ (LtPipe EvForward) Hi) as (p1 & Ht & Hi1).
  set (e' := match pl_spans (lp_pipe p) with Some d => enrich span_iter d e | None => e end).
  assert (Hl1 : leads_to env p p1 [] /\ log_view tcap window fs p1 raw [e'] [] held).
  { pose proof Ht as Ht'. cbn [log_turn pipe_step next_made] in Ht'. rewrite Hraw, Hlog in Ht'.
    rewrite (proj2 (Nat.ltb_lt _ _)) in Ht' by (simpl; lia). cbn [outcome_bind] in Ht'. injection Ht' as <-.
    split; [by eapply leads_turn; [right; right; right; by left|done|]|].
    pose proof (li_channel _ _ _ Hi) as Hch. split; simpl in *; try done; by rewrite Hch. }
  destruct Hl1 as [Hl1 Hv1]. destruct (dispatch_leads env _ _ _ _ _ _ _ _ Htcap Hv1) as (p2 & rec & Hl2 & Hv2).
  exists p2, e', rec. split_and!; [|by apply (leads_trans env p p1 p2 [] [(e', rec)])|done].
  unfold e'. destruct (pl_spans (lp_pipe p)); [apply enrich_bare|done].
Qed.

Lemma forwards_lead env tcap window fs raw : (0 < cap)%nat -> (0 < tcap)%nat -> forall p held,
  log_view tcap window fs p raw [] [] held ->
  exists p' made, leads_to env p p' made /\ map bare made.*1 = map bare raw /\
    log_view tcap window fs p' [] [] [] (held ++ made.*2).
Proof using MpscLaws0 ReceiverLaws0 SemaphoreLaws0.
  intros Hcap Htcap. induction raw as [|e raw IH]; intros p held Hp.
  - exists p, []. simpl. rewrite app_nil_r. split_and!; [apply leads_refl|done..].
  - destruct (forward_leads env _ _ _ _ _ _ _ Hcap Htcap Hp) as (p1 & e' & rec & He & H1 & Hv1).
    destruct (IH _ _ Hv1) as (p2 & made & H2 & Hm2 & Hv2). exists p2, ((e', rec) :: made). simpl.
    rewrite <- app_assoc in Hv2. split_and!; [by apply (leads_trans env p p1 p2 [(e', rec)] made)|by f_equal|done].
Qed.

(** Everything that waits gets to the posts. *)
Lemma logs_drain env tcap window fs p raw log records held : (0 < cap)%nat -> (0 < tcap)%nat ->
  log_view tcap window fs p raw log records held ->
  exists p' made, leads_to env p p' made /\ map bare made.*1 = map bare (log ++ raw) /\
    pl_raw (lp_pipe p') = [] /\ pl_log (lp_pipe p') = [] /\ queued (et_tx (lp_task p')) = [] /\
    bw_batch (et_worker (lp_task p')) = [] /\ posted_since fs (et_worker (lp_task p')) (held ++ records ++ made.*2).
Proof using MpscLaws0 ReceiverLaws0 SemaphoreLaws0.
  intros Hcap Htcap Hp. destruct (records_lead env _ _ _ _ _ _ _ _ Hp) as (p1 & H1 & Hv1).
  destruct (dispatches_lead env _ _ _ _ _ Htcap _ _ Hv1) as (p2 & m2 & H2 & Hm2 & Hv2).
  destruct (forwards_lead env _ _ _ _ Hcap Htcap _ _ Hv2) as (p3 & m3 & H3 & Hm3 & Hv3).
  destruct (posted_leads env _ _ _ _ _ _ _ _ Hv3) as (p4 & H4 & [Hi Ha Hraw Hlog Hr Hv] & Hf).
  destruct (log_turn_inv _ _ _ LtTick Hi) as (p5 & Ht & Hi5). injection Ht as Ht5.
  destruct (task_tick_posts _ _ _ Ha Hf Hv) as (_ & Htx & Hb & Hc).
  exists p5, (m2 ++ m3). split_and!.
  - pose proof (leads_trans _ _ _ _ _ _ (leads_trans _ _ _ _ _ _ H1 H2) H3) as H13. simpl in H13.
    pose proof (leads_trans _ _ _ _ _ _ H13 H4) as H14. rewrite app_nil_r in H14.
    rewrite <- (app_nil_r (m2 ++ m3)). eapply leads_trans; [done|].
    apply leads_turn with (ev := LtTick); [by right; right; left|by rewrite <- Ht5|]. by rewrite <- Ht5, app_nil_r.
  - by rewrite fmap_app, !map_app, Hm2, Hm3.
  - by rewrite <- Ht5.
  - by rewrite <- Ht5.
  - rewrite <- Ht5. cbn [with_log_task lp_task]. by rewrite Htx.
  - by rewrite <- Ht5.
  - rewrite <- Ht5, fmap_app, !app_assoc. done.
Qed.

(** The router offers entries while there is room. *)
Lemma raw_offers tcap window fs logs : forall p raw log records held,
  log_view tcap window fs p raw log records held -> (length raw + length logs <= cap)%nat ->
  exists p', log_run p (map (fun e => LtPipe (EvRaw e)) logs) = Ok p' /\ lp_made p' = lp_made p /\
    log_view tcap window fs p' (raw ++ logs) log records held.
Proof using MpscLaws0 ReceiverLaws0 SemaphoreLaws0.
  induction logs as [|e logs IH]; intros p raw log records held Hp Hlen; [exists p; by rewrite app_nil_r|].
  pose proof Hp as [Hi Ha Hraw Hlog Hr Hv]. cbn [length] in Hlen.
  destruct (log_turn_inv _ _ _ (LtPipe (EvRaw e)) Hi) as (p1 & Ht & Hi1).
  assert (Hv1 : lp_made p1 = lp_made p /\ log_view tcap window fs p1 (raw ++ [e]) log records held).
  { pose proof Ht as Ht'. cbn [log_turn pipe_step next_made] in Ht'. rewrite Hraw in Ht'.
    rewrite (proj2 (Nat.ltb_lt _ _)) in Ht' by lia. cbn [outcome_bind] in Ht'. injection Ht' as <-.
    pose proof (li_channel _ _ _ Hi) as Hch. split; [simpl; by rewrite app_nil_r|].
    split; simpl in *; try done; by rewrite Hch. }
  destruct Hv1 as [Hm1 Hv1]. destruct (IH _ _ _ _ _ Hv1) as (p2 & Hr2 & Hm2 & Hv2); [rewrite length_app; simpl; lia|].
  exists p2. cbn [map log_run]. rewrite Ht, <- app_assoc in *. cbn [outcome_bind]. split_and!; [done|by rewrite Hm2|done].
Qed.

(** C1: A log written by a PLC is posted. Take any reachable state of the log pillar in which the worker lives, and a frame that
    writes a well-formed buffer of messages to the service. If the channel of the router, which is the first one of
    the pillar, has room for them, the log entries of the buffer are queued in it, enriched from the registry; and the tasks
    can take turns, with no input from outside but the answers of the scope lookups and the end of posts that are under way, after which nothing waits anywhere: of every entry that waited before and
    then of every entry of the buffer one record was made, in order, each entry with at most its trace context changed,
    and the records of the batch that was being filled, those that waited and those made are, in this order, exactly those of the batches handed over by these turns,
    every one of which got its permit and is posted, none dropped. *)
Theorem plc_logs_posted s watched resolver host spans l0 p env lenv h ig io l pad peer r tx :
  log_run (LogPillar_new s watched resolver host spans) l0 = Ok p -> et_alive (lp_task p) = true ->
  (0 < cap)%nat -> 0 < sc_channel_capacity (st_service s) ->
  own_write r h (mkWrite ig io (encode_batch l ++ pad)) -> ig <> IG_PUSH_DIAG ->
  Forall (wf_msg (we_now env)) l -> is_padding pad = true ->
  len (encode_batch l ++ pad) <= MAX_MESSAGE_SIZE -> ar_trace_tx r = Some tx ->
  queued (ar_log_tx r) = pl_raw (lp_pipe p) ->
  let pr := fold_left (collect (we_now env)) l empty_result in
  let r' := (dispatch env (write_frame h (mkWrite ig io (encode_batch l ++ pad))) peer r).2 in
  let logs := log_entries_for env (AmsNetId_to_string (source_net_id h)) (source_port h) peer (ar_registry r') (pr_entries pr) in
  accepts_all (ar_log_tx r) logs = true -> (length (queued (ar_log_tx r)) + length logs <= cap)%nat ->
  exists p1 p2 turns made new,
    log_run p (map (fun e => LtPipe (EvRaw e)) logs) = Ok p1 /\ pl_raw (lp_pipe p1) = queued (ar_log_tx r') /\
    Forall (own_turn lenv) turns /\ log_run p1 turns = Ok p2 /\
    pl_raw (lp_pipe p2) = [] /\ pl_log (lp_pipe p2) = [] /\ queued (et_tx (lp_task p2)) = [] /\
    bw_batch (et_worker (lp_task p2)) = [] /\
    Forall log_made made /\ map bare made.*1 = map bare (pl_log (lp_pipe p) ++ pl_raw (lp_pipe p) ++ logs) /\
    bw_flushed (et_worker (lp_task p2)) = bw_flushed (et_worker (lp_task p)) ++ new /\
    Forall (fun f => f.1 = true) new /\
    concat new.*2 = bw_batch (et_worker (lp_task p)) ++ queued (et_tx (lp_task p)) ++ made.*2.
Proof using MpscLaws0 ReceiverLaws0 SemaphoreLaws0.
  intros Hrun Ha Hcap Htcap Hw Hg Hl Hpad Hmax Htx Hq pr r' logs Hacc Hroom.
  destruct (dispatch_log_batch_facts env h ig io l pad peer r tx Hw Hg Hl Hpad Hmax Htx) as (_ & _ & Hall & _).
  specialize (Hall Hacc). fold r' in Hall. fold logs in Hall.
  destruct (log_run_inv _ _ l0 _ (log_inv_new s watched resolver host spans)) as (p' & Hrun' & Hi).
  rewrite Hrun in Hrun'. injection Hrun' as <-.
  destruct (raw_offers _ _ _ logs p _ _ _ _ (Build_log_view _ _ _ _ _ _ _ _ Hi Ha eq_refl eq_refl eq_refl (posted_since_now _)))
    as (p1 & Hr1 & Hm1 & Hv1); [by rewrite <- Hq|].
  assert (Ht0 : (0 < Z.to_nat (sc_channel_capacity (st_service s)))%nat) by lia.
  destruct (logs_drain lenv _ _ _ _ _ _ _ _ Hcap Ht0 Hv1) as (p2 & made & (turns & Ho & Hr2 & Hm2) & Hb & Hrest).
  destruct Hrest as (? & ? & ? & Hbatch & new & ? & ? & Hnew). rewrite Hbatch, app_nil_r in Hnew.
  exists p1, p2, turns, made, new. split_and!; try done.
  - by rewrite (lv_raw _ _ _ _ _ _ _ _ Hv1), Hall, Hq.
  - destruct (log_run_inv _ _ turns _ (lv_inv _ _ _ _ _ _ _ _ Hv1)) as (p2' & Hr2' & Hi2). rewrite Hr2 in Hr2'.
    injection Hr2' as <-. pose proof (li_made _ _ _ Hi2) as Hm. rewrite Hm2 in Hm. by apply Forall_app in Hm as [_ ?].
Qed.

End LogTasks.
