(* ===== verification/Web.v ===== *)
(** * The web interface (crates/tc-otel-service: web.rs)

    The handlers behind the HTTP routes, as functions on the state they share: the
    status pages, the symbol store, the list of known PLCs, reading and editing
    the configuration, and the symbols of the client bridge. Routing and JSON
    encoding are axum and serde. The orders in which hash maps are iterated are
    parameters. *)

From stdpp Require Import sorting.
From Stdlib Require Import Ascii.
From S2P Require Import Prelude.
From S2P Require Import Text.
From S2P Require Import External.
From S2P Require Import Net.
From S2P Require Import Ams.
From S2P Require Import Models.
From S2P Require Import Protocol.
From S2P Require Import Symbol.
From S2P Require Import Registry.
From S2P Require Import ConnectionManager.
From S2P Require Import Transport.
From S2P Require Import Browse.
From S2P Require Import MetricMapper.
From S2P Require Import Config.
From S2P Require Import CycleTime.

Definition BAD_REQUEST : Z := 400.
Definition NOT_FOUND : Z := 404.
Definition INTERNAL_SERVER_ERROR : Z := 500.
Definition SERVICE_UNAVAILABLE : Z := 503.

(** ** Symbols of the store *)

Definition SymbolStore : Type := list AdsSymbolEntry.
Definition SymbolStore_new : SymbolStore := [].
Definition SymbolStore_update (symbols : list AdsSymbolEntry) (_ : SymbolStore) : SymbolStore := symbols.
Definition SymbolStore_list (s : SymbolStore) : list AdsSymbolEntry := s.
Definition SymbolStore_count (s : SymbolStore) : nat := length s.
Definition find_by_name `{CM : CaseMapping} (name : string) (s : SymbolStore) : option AdsSymbolEntry :=
  List.find (fun e => String.eqb (to_lowercase (se_name e)) (to_lowercase name)) s.

Record SymbolInfo := mkSymbolInfo {
  sy_name : string;
  sy_type_name : string;
  sy_size : Z;
  sy_index_group : Z;
  sy_index_offset : Z;
  sy_comment : string;
}.

Definition SymbolInfo_from (e : AdsSymbolEntry) : SymbolInfo :=
  mkSymbolInfo (se_name e) (se_type_name e) (se_size e) (se_index_group e) (se_index_offset e) (se_comment e).

(** [parse_net_id]. *)
Fixpoint parse_parts (parts : list string) : option bytes :=
  match parts with
  | [] => Some []
  | p :: parts => b ← parse_uint 255 p; bs ← parse_parts parts; Some (b :: bs)
  end.
Definition parse_net_id (s : string) : option AmsNetId :=
  let parts := split_on "."%char s in
  if negb (length parts =? 6)%nat then None else mkNetId <$> parse_parts parts.

(** ** The shared state *)

Record WebStats := mkWebStats {
  wx_logs_received : Z;
  wx_logs_dispatched : Z;
  wx_logs_failed : Z;
  wx_connections_accepted : Z;
  wx_connections_rejected : Z;
}.

Section Web.
Context `{Ext : External} `{SO : SemaphoreOps} `{CM : CaseMapping}.

(** [ws_cache] is the cache of the client bridge, when there is one. *)
Record WebState := mkWebState {
  ws_stats : WebStats;
  ws_conn_manager : ConnectionManager;
  ws_task_registry : TaskRegistry;
  ws_symbols : SymbolStore;
  ws_cycle_tracker : CycleTimeTracker;
  ws_service_name : string;
  ws_current_settings : AppSettings;
  ws_restart_pending : bool;
  ws_cache : option (gmap AmsNetId CacheEntry);
}.

Definition set_settings (s : AppSettings) (restart_pending : bool) (w : WebState) : WebState :=
  mkWebState (ws_stats w) (ws_conn_manager w) (ws_task_registry w) (ws_symbols w) (ws_cycle_tracker w)
    (ws_service_name w) s restart_pending (ws_cache w).
Definition set_cache (c : option (gmap AmsNetId CacheEntry)) (w : WebState) : WebState :=
  mkWebState (ws_stats w) (ws_conn_manager w) (ws_task_registry w) (ws_symbols w) (ws_cycle_tracker w)
    (ws_service_name w) (ws_current_settings w) (ws_restart_pending w) c.

(** ** Status *)

Record HealthResponse := mkHealthResponse { hr_status : string; hr_service : string; hr_uptime_secs : Z }.

Definition health (uptime : Z) (w : WebState) : HealthResponse := mkHealthResponse "ok" (ws_service_name w) uptime.

Record StatusResponse := mkStatusResponse {
  sr_service : string;
  sr_status : string;
  sr_uptime_secs : Z;
  sr_logs_received : Z;
  sr_logs_dispatched : Z;
  sr_logs_failed : Z;
  sr_connections_active : Z;
  sr_connections_accepted : Z;
  sr_connections_rejected : Z;
  sr_registered_tasks : nat;
}.

Definition status (uptime : Z) (w : WebState) : StatusResponse :=
  mkStatusResponse (ws_service_name w) "running" uptime (wx_logs_received (ws_stats w)) (wx_logs_dispatched (ws_stats w))
    (wx_logs_failed (ws_stats w)) (active_connections (ws_conn_manager w)) (wx_connections_accepted (ws_stats w))
    (wx_connections_rejected (ws_stats w)) (registry_len (ws_task_registry w)).

Definition connections (w : WebState) : list (string * nat) :=
  map (fun kv => (IpAddr_to_string kv.1, kv.2)) (connected_ips (ws_conn_manager w)).

Record TaskInfo := mkTaskInfo {
  ti_ams_net_id : string;
  ti_ams_source_port : Z;
  ti_task_index : Z;
  ti_task_name : string;
  ti_app_name : string;
  ti_project_name : string;
  ti_online_change_count : Z;
}.

Variable tasks_iter : TaskRegistry -> list (RegistrationKey * TaskMetadata).

Definition tasks (w : WebState) : list TaskInfo :=
  map (fun kv => mkTaskInfo (rk_ams_net_id kv.1) (rk_ams_source_port kv.1) (rk_task_index kv.1) (tm_task_name kv.2)
                   (tm_app_name kv.2) (tm_project_name kv.2) (tm_online_change_count kv.2))
    (all_tasks tasks_iter (ws_task_registry w)).

Definition get_symbols (w : WebState) : nat * list SymbolInfo :=
  let symbols := map SymbolInfo_from (SymbolStore_list (ws_symbols w)) in (length symbols, symbols).

Definition get_symbol_by_name (name : string) (w : WebState) : outcome Z SymbolInfo :=
  match find_by_name name (ws_symbols w) with Some e => Ok (SymbolInfo_from e) | None => Err NOT_FOUND end.

(** ** Known PLCs *)

Record DomainAcc := mkDomainAcc {
  da_diagnostics : bool;
  da_registered : bool;
  da_metric_count : nat;
  da_task_count : nat;
  da_router_host : option string;
  da_task_name_hint : option string;
  da_symbol_count : option nat;
  da_symbols_cached : option bool;
}.

Definition DomainAcc_default : DomainAcc := mkDomainAcc false false 0 0 None None None None.

Abbreviation domain_map := (gmap string DomainAcc).

(** [acc.entry(id).or_default()], changed by [f]. *)
Definition upd_domain (id : string) (f : DomainAcc -> DomainAcc) (acc : domain_map) : domain_map :=
  <[id := f (default DomainAcc_default (acc !! id))]> acc.

Variable names_iter : gmap string string -> list (string * string).

Definition add_target (acc : domain_map) (t : DiagnosticsTargetConfig) : domain_map :=
  upd_domain (dt_ams_net_id t) (fun e =>
    mkDomainAcc true (da_registered e) (da_metric_count e) (da_task_count e) (da_router_host e)
      (match da_task_name_hint e with Some h => Some h | None => snd <$> head (names_iter (dt_task_names t)) end)
      (da_symbol_count e) (da_symbols_cached e)) acc.

Definition add_metric (acc : domain_map) (m : CustomMetricDef) : domain_map :=
  match cm_ams_net_id m with
  | None => acc
  | Some id =>
    upd_domain id (fun e =>
      mkDomainAcc (da_diagnostics e) (da_registered e) (S (da_metric_count e)) (da_task_count e)
        (match da_router_host e with Some h => Some h | None => cm_ams_router_host m end) (da_task_name_hint e)
        (da_symbol_count e) (da_symbols_cached e)) acc
  end.

Definition add_task (acc : domain_map) (kv : RegistrationKey * TaskMetadata) : domain_map :=
  upd_domain (rk_ams_net_id kv.1) (fun e =>
    mkDomainAcc (da_diagnostics e) true (da_metric_count e) (S (da_task_count e)) (da_router_host e)
      (da_task_name_hint e) (da_symbol_count e) (da_symbols_cached e)) acc.

Definition add_symbols (cache : gmap AmsNetId CacheEntry) (id : string) (e : DomainAcc) : DomainAcc :=
  match parse_net_id id with
  | None => e
  | Some net =>
    let '(cached, count) := match cache_get net cache with
                            | Some tree => (true, SymbolTree_len tree)
                            | None => (false, 0%nat)
                            end in
    mkDomainAcc (da_diagnostics e) (da_registered e) (da_metric_count e) (da_task_count e) (da_router_host e)
      (da_task_name_hint e) (Some count) (Some cached)
  end.

Record DomainInfo := mkDomainInfo {
  di_ams_net_id : string;
  di_friendly_name : string;
  di_sources : list string;
  di_task_count : nat;
  di_metric_count : nat;
  di_router_host : option string;
  di_symbol_count : option nat;
  di_symbols_cached : option bool;
}.

Definition domain_info (kv : string * DomainAcc) : DomainInfo :=
  let '(ams_net_id, a) := kv in
  mkDomainInfo ams_net_id
    (match da_router_host a, da_task_name_hint a with Some h, _ => h | None, Some h => h | None, None => ams_net_id end)
    ((if da_diagnostics a then ["diagnostics"] else []) ++ (if (0 <? da_metric_count a)%nat then ["metrics"] else []) ++
     (if da_registered a then ["registered"] else []))
    (da_task_count a) (da_metric_count a) (da_router_host a) (da_symbol_count a) (da_symbols_cached a).

(** A [BTreeMap] is iterated in the order of its keys. *)
Definition domain_le (a b : string * DomainAcc) : Prop := String.le a.1 b.1.

#[local] Instance domain_le_dec : RelDecision domain_le.
Proof. intros a b. unfold domain_le. apply _. Defined.

Definition domains_of (w : WebState) : domain_map :=
  let s := ws_current_settings w in
  let acc := foldl add_target ∅ (dg_targets (st_diagnostics s)) in
  let acc := foldl add_metric acc (mc_custom_metrics (st_metrics s)) in
  let acc := foldl add_task acc (all_tasks tasks_iter (ws_task_registry w)) in
  match ws_cache w with Some cache => map_imap (fun id e => Some (add_symbols cache id e)) acc | None => acc end.

Definition get_domains (w : WebState) : list DomainInfo :=
  map domain_info (merge_sort domain_le (map_to_list (domains_of w))).

(** ** The configuration *)

Record GetConfigResponse := mkGetConfig {
  gc_config : Value;
  gc_restart_pending : bool;
  gc_last_modified : option string;
}.

Definition get_config `{SS : SettingsSerde} (last_modified : option string) (w : WebState) : GetConfigResponse :=
  mkGetConfig (to_masked_json (ws_current_settings w)) (ws_restart_pending w) last_modified.

(** The directory of the configuration: the contents of the files by number, and what the
    path of the configuration and the path with [.tmp] name at present. *)
Record Files := mkFiles {
  fl_contents : list string;
  fl_config : option nat;
  fl_tmp : option nat;
}.

Definition config_text (f : Files) : option string := i ← fl_config f; fl_contents f !! i.

(** [File::create]: the file is emptied, or made. *)
Definition file_create (f : Files) : nat * Files :=
  match fl_tmp f with
  | Some i => (i, mkFiles (<[i := ""]> (fl_contents f)) (fl_config f) (Some i))
  | None => let i := length (fl_contents f) in (i, mkFiles (fl_contents f ++ [""]) (fl_config f) (Some i))
  end.

(** [write_all] from the start of an open file: what is longer than the text stays, and so does the file if its path was taken away. *)
Definition write_over (text old : string) : string :=
  text +:+ String.substring (String.length text) (String.length old) old.
Definition file_write (i : nat) (text : string) (f : Files) : Files :=
  mkFiles (alter (write_over text) i (fl_contents f)) (fl_config f) (fl_tmp f).

(** [rename] of the temporary file; it fails if there is none. *)
Definition file_rename (f : Files) : option Files :=
  match fl_tmp f with
  | Some i => Some (mkFiles (fl_contents f) (Some i) None)
  | None => None
  end.

(** How the file system takes each step: its error, if it fails; of a write, also how much of it was done. *)
Record WriteOutcome := mkWriteOutcome {
  wo_create : option string;
  wo_write : option (nat * string);
  wo_rename : option string;
}.

Inductive ConfigReply :=
| ConfigSaved (hot_reloaded restart_required : list string)
| ConfigRefused (code : Z) (error detail : string).

Definition changed_names (l : list (bool * string)) : list string := (List.filter fst l).*2.

Definition hot_reloaded (diff : ConfigDiff) : list string :=
  changed_names [(logging_changed diff, "logging"); (export_changed diff, "export");
                 (metrics_changed diff, "metrics"); (diagnostics_changed diff, "diagnostics")].

Definition restart_required (diff : ConfigDiff) : list string :=
  changed_names [(receiver_changed diff, "receiver"); (service_changed diff, "service");
                 (outputs_changed diff, "outputs"); (web_changed diff, "web")].

(** Where [post_config] is: between two steps other requests may take theirs. [current] is the copy of the settings it
    took at the start. *)
Inductive PostPhase :=
| PostStart (payload : Value)
| PostCreate (current validated : AppSettings) (json_str : string)
| PostWrite (current validated : AppSettings) (json_str : string) (file : nat)
| PostRename (current validated : AppSettings)
| PostStore (current validated : AppSettings)
| PostFlag (hot restart : list string)
| PostDone (reply : ConfigReply).

(** [serde_json::from_value], [serde_json::to_string_pretty], and the text of the error for a
    file that does not exist. *)
Variable from_value : Value -> string + AppSettings.
Variable to_string_pretty : AppSettings -> string + string.
Variable no_such_file : string.

(** What [post_config] does up to the first step on the files. The settings are read under their lock. *)
Definition post_check (payload : Value) (current : AppSettings) : PostPhase :=
  match from_value payload with
  | inl e => PostDone (ConfigRefused BAD_REQUEST "Invalid config JSON" e)
  | inr incoming =>
    let incoming := merge_secrets_from incoming current in
    match AppSettings_validate incoming with
    | Err errors => PostDone (ConfigRefused BAD_REQUEST "Config validation failed" (join "; " errors))
    | _ =>
      match to_string_pretty incoming with
      | inl e => PostDone (ConfigRefused INTERNAL_SERVER_ERROR "Failed to serialize config" e)
      | inr json_str => PostCreate current incoming json_str
      end
    end
  end.

Definition write_failed (e : string) : PostPhase :=
  PostDone (ConfigRefused INTERNAL_SERVER_ERROR "Failed to write config file" e).
Definition rename_failed (e : string) : PostPhase :=
  PostDone (ConfigRefused INTERNAL_SERVER_ERROR "Failed to atomically replace config" e).

(** One step of [post_config]. *)
Definition post_step (io : WriteOutcome) (ph : PostPhase) (w : WebState) (f : Files) : PostPhase * WebState * Files :=
  match ph with
  | PostStart payload => (post_check payload (ws_current_settings w), w, f)
  | PostCreate current validated json_str =>
    match wo_create io with
    | Some e => (write_failed e, w, f)
    | None => let '(i, f) := file_create f in (PostWrite current validated json_str i, w, f)
    end
  | PostWrite current validated json_str i =>
    match wo_write io with
    | Some (n, e) => (write_failed e, w, file_write i (String.substring 0 n json_str) f)
    | None => (PostRename current validated, w, file_write i json_str f)
    end
  | PostRename current validated =>
    match wo_rename io, file_rename f with
    | Some e, _ => (rename_failed e, w, f)
    | None, None => (rename_failed no_such_file, w, f)
    | None, Some f => (PostStore current validated, w, f)
    end
  | PostStore current validated =>
    let diff := ConfigDiff_compute current validated in
    (PostFlag (hot_reloaded diff) (restart_required diff), set_settings validated (ws_restart_pending w) w, f)
  | PostFlag hot restart =>
    (PostDone (ConfigSaved hot restart),
     match restart with [] => w | _ => set_settings (ws_current_settings w) true w end, f)
  | PostDone reply => (PostDone reply, w, f)
  end.

(** The handler when no other request comes between: it takes at most six steps. *)
Fixpoint post_steps (n : nat) (io : WriteOutcome) (ph : PostPhase) (w : WebState) (f : Files) : PostPhase * WebState * Files :=
  match n with
  | O => (ph, w, f)
  | S n => let '(ph, w, f) := post_step io ph w f in post_steps n io ph w f
  end.

Definition post_config (payload : Value) (io : WriteOutcome) (w : WebState) (f : Files) : PostPhase * WebState * Files :=
  post_steps 6 io (PostStart payload) w f.

(** ** The client bridge *)

Variable to_rfc3339 : DateTime -> string.

Record ClientSymbolsResponse := mkClientSymbols {
  cy_target : string;
  cy_fetched_at : option string;
  cy_count : nat;
  cy_symbols : list SymbolNode;
}.

(** Of a node the reply has the name, the type, the address and the size. *)
Definition client_get_symbols (target filter : option string) (w : WebState) : outcome (Z * string) ClientSymbolsResponse :=
  match ws_cache w, target with
  | None, _ => Err (SERVICE_UNAVAILABLE, "client-bridge not running")
  | Some _, None => Err (BAD_REQUEST, "missing 'target' query param")
  | Some cache, Some target =>
    match parse_net_id target with
    | None => Err (BAD_REQUEST, "invalid AMS Net ID: " +:+ target)
    | Some net =>
      match cache_get net cache with
      | None => Err (NOT_FOUND, "no cached symbols for target " +:+ target)
      | Some tree =>
        let filter := default "" filter in
        let filtered := if String.eqb filter "" then st_nodes tree else iter_prefix filter tree in
        Ok (mkClientSymbols target (to_rfc3339 <$> cache_fetched_at net cache) (length filtered) filtered)
      end
    end
  end.

Definition client_refresh_symbols (target : string) (w : WebState) : outcome (Z * string) bool * WebState :=
  match ws_cache w with
  | None => (Err (SERVICE_UNAVAILABLE, "client-bridge not running"), w)
  | Some cache =>
    match parse_net_id target with
    | None => (Err (BAD_REQUEST, "invalid AMS Net ID: " +:+ target), w)
    | Some net =>
      (Ok (match cache_get net cache with Some _ => true | None => false end),
       set_cache (Some (cache_invalidate net cache)) w)
    end
  end.

Record ClientTargetInfo := mkClientTarget {
  cg_ams_net_id : string;
  cg_cached : bool;
  cg_symbol_count : nat;
  cg_fetched_at : option string;
}.

Definition desired_targets (l : list CustomMetricDef) : gset string :=
  foldl (fun s d => match cm_source d, cm_ams_net_id d with
                    | SourcePush, _ | _, None => s
                    | _, Some id => s ∪ {[id]}
                    end) ∅ l.

Definition target_info (cache : gmap AmsNetId CacheEntry) (id : string) : ClientTargetInfo :=
  match net ← parse_net_id id; tree ← cache_get net cache; Some (net, tree) with
  | Some (net, tree) => mkClientTarget id true (SymbolTree_len tree) (to_rfc3339 <$> cache_fetched_at net cache)
  | None => mkClientTarget id false 0 None
  end.

Definition target_le (a b : ClientTargetInfo) : Prop := String.le (cg_ams_net_id a) (cg_ams_net_id b).

#[local] Instance target_le_dec : RelDecision target_le.
Proof. intros a b. unfold target_le. apply _. Defined.

Variable targets_iter : gset string -> list string.

Definition client_list_targets (w : WebState) : outcome (Z * string) (list ClientTargetInfo) :=
  match ws_cache w with
  | None => Err (SERVICE_UNAVAILABLE, "client-bridge not running")
  | Some cache =>
    Ok (merge_sort target_le
          (map (target_info cache) (targets_iter (desired_targets (mc_custom_metrics (st_metrics (ws_current_settings w)))))))
  end.

End Web.

(** ** Two readers of Net IDs *)

Lemma parse_parts_octets parts bs : parse_parts parts = Some bs <-> parse_octets parts = Ok bs.
Proof.
  revert bs. induction parts as [|p parts IH]; intros bs; cbn [parse_parts parse_octets].
  { split; by intros [= <-]. }
  destruct (parse_uint 255 p) as [b|]; [|done]. cbn [mbind option_bind].
  destruct (parse_parts parts) as [bs'|] eqn:Hp.
  - rewrite (proj1 (IH bs') eq_refl). simpl. split; by intros [= <-].
  - destruct (parse_octets parts) as [bs'| | |] eqn:Ho; try done.
    discriminate (proj2 (IH bs') eq_refl).
Qed.

(** The web interface and the protocol accept the same texts as Net IDs. *)
Lemma net_id_parsers_agree s n : parse_net_id s = Some n <-> AmsNetId_from_str_ref s = Ok n.
Proof.
  unfold parse_net_id, AmsNetId_from_str_ref. cbv zeta. destruct (negb _); [done|].
  destruct (parse_parts (split_on _ s)) as [bs|] eqn:Hp.
  - rewrite (proj1 (parse_parts_octets _ bs) Hp). simpl. split; by intros [= <-].
  - destruct (parse_octets (split_on _ s)) as [bs| | |] eqn:Ho; try done.
    apply parse_parts_octets in Ho. by rewrite Ho in Hp.
Qed.

(** ** Editing the configuration *)

Lemma diff_same s s' : same_sections s s' -> ConfigDiff_compute s s' = mkDiff false false false false false false false false.
Proof. intros (? & ? & ? & ? & ? & ? & ? & ?). unfold ConfigDiff_compute. by rewrite !bool_decide_false by tauto. Qed.

Section EditTheorems.
Context `{Ext : External} `{SO : SemaphoreOps} `{CM : CaseMapping} `{SS : SettingsSerde}.

Lemma changed_names_in l name : name ∈ changed_names l <-> (true, name) ∈ l.
Proof.
  unfold changed_names. rewrite list_elem_of_fmap. split.
  - intros ([b n] & -> & Hin). apply list_elem_of_In, filter_In in Hin as [Hin Hb]. simpl in *. subst. by apply list_elem_of_In.
  - intros Hin. exists (true, name). split; [done|]. apply list_elem_of_In, filter_In. split; [by apply list_elem_of_In|done].
Qed.

Lemma changed_name (P : Prop) `{!Decision P} (name n : string) : (true, name) = (bool_decide P, n) <-> name = n /\ P.
Proof. case_bool_decide; (split; [by intros [= ->]|by intros [-> ?]]). Qed.

Lemma validate_cases s : AppSettings_validate s = Ok tt \/ exists errors, AppSettings_validate s = Err errors.
Proof. unfold AppSettings_validate, from_errors. case_match; eauto. Qed.

Variable from_value : Value -> string + AppSettings.
Variable to_string_pretty : AppSettings -> string + string.
Variable no_such_file : string.

Abbreviation step := (post_step from_value to_string_pretty no_such_file).
Abbreviation post := (post_config from_value to_string_pretty no_such_file).

(** The two paths name different files that are there. *)
Definition files_ok (f : Files) : Prop :=
  (forall i, fl_config f = Some i -> (i < length (fl_contents f))%nat) /\
  (forall i, fl_tmp f = Some i -> (i < length (fl_contents f))%nat /\ fl_config f <> Some i).

(** Creating the temporary file. *)
Lemma file_create_spec f : files_ok f ->
  let '(i, f') := file_create f in
  files_ok f' /\ fl_tmp f' = Some i /\ fl_contents f' !! i = Some "" /\ config_text f' = config_text f.
Proof.
  intros [Hc Ht]. unfold file_create, config_text. destruct (fl_tmp f) as [i|] eqn:Hi.
  - destruct (Ht i eq_refl) as [Hlt Hne]. split_and!; simpl.
    + split; simpl; intros j; rewrite length_insert; [auto|]. by intros [= <-].
    + done.
    + by apply list_lookup_insert_eq.
    + destruct (fl_config f) as [j|]; [|done]. simpl. rewrite list_lookup_insert_ne; [done|]. congruence.
  - split_and!; simpl.
    + split; simpl; intros j; rewrite length_app; simpl; [intros Hj%Hc; lia|]. intros [= <-]. split; [lia|].
      intros Hj%Hc. lia.
    + done.
    + by rewrite list_lookup_middle.
    + destruct (fl_config f) as [j|] eqn:Hj; [|done]. simpl. rewrite lookup_app_l; [done|]. by apply Hc.
Qed.

Lemma write_over_empty text : write_over text "" = text.
Proof.
  unfold write_over. replace (String.substring (String.length text) (String.length "") "") with ""; [|by destruct text].
  apply string_app_nil_r.
Qed.

(** Writing to it while it is not the configuration. *)
Lemma file_write_spec i text f : files_ok f -> fl_tmp f = Some i -> fl_contents f !! i = Some "" ->
  files_ok (file_write i text f) /\ fl_tmp (file_write i text f) = Some i /\
  fl_contents (file_write i text f) !! i = Some text /\ config_text (file_write i text f) = config_text f.
Proof.
  intros [Hc Ht] Hi He. destruct (Ht i Hi) as [Hlt Hne]. unfold file_write, config_text. split_and!; simpl.
  - split; simpl; intros j; rewrite length_alter; auto.
  - done.
  - rewrite list_lookup_alter_eq, He. simpl. by rewrite write_over_empty.
  - destruct (fl_config f) as [j|]; [|done]. simpl. rewrite list_lookup_alter_ne; [done|]. congruence.
Qed.

Lemma file_rename_spec i text f : files_ok f -> fl_tmp f = Some i -> fl_contents f !! i = Some text ->
  exists f', file_rename f = Some f' /\ files_ok f' /\ config_text f' = Some text.
Proof.
  intros [Hc Ht] Hi He. unfold file_rename. rewrite Hi. eexists. split; [done|]. destruct (Ht i Hi) as [Hlt _]. split; [|done].
  split; simpl; [|done]. by intros j [= <-].
Qed.

(** An edit of the configuration, when no other one comes between its steps, is all or nothing. When it is refused, for whatever reason, the
    settings, the restart flag and the file are as before. When it is saved, the file has the text of the running settings:
    what was sent with its masked secrets filled in, and sound; the reply names exactly the
    sections that changed and where they take effect, and a restart is
    pending from then on when a section needs one. A sound edit is refused only when it cannot be
    serialized or the file cannot be written. *)
Theorem config_edit payload io (w : WebState) f : files_ok f ->
  let '(ph, w', f') := post payload io w f in
  let old := ws_current_settings w in
  files_ok f' /\ exists reply, ph = PostDone reply /\
  match reply with
  | ConfigRefused _ _ _ =>
    w' = w /\ config_text f' = config_text f /\
    (forall incoming text, from_value payload = inr incoming -> settings_sound (merge_secrets_from incoming old) ->
       to_string_pretty (merge_secrets_from incoming old) = inr text ->
       is_Some (wo_create io) \/ is_Some (wo_write io) \/ is_Some (wo_rename io))
  | ConfigSaved hot restart => exists incoming, from_value payload = inr incoming /\
    let new := merge_secrets_from incoming old in
    settings_sound new /\ (exists text, to_string_pretty new = inr text /\ config_text f' = Some text) /\
    ws_current_settings w' = new /\ w' = set_settings new (ws_restart_pending w') w /\
    (forall name, name ∈ hot <->
       (name = "logging" /\ st_logging old <> st_logging new) \/ (name = "export" /\ st_export old <> st_export new) \/
       (name = "metrics" /\ st_metrics old <> st_metrics new) \/ (name = "diagnostics" /\ st_diagnostics old <> st_diagnostics new)) /\
    (forall name, name ∈ restart <->
       (name = "receiver" /\ st_receiver old <> st_receiver new) \/ (name = "service" /\ st_service old <> st_service new) \/
       (name = "outputs" /\ st_outputs old <> st_outputs new) \/ (name = "web" /\ st_web old <> st_web new)) /\
    (ws_restart_pending w' = true <-> ws_restart_pending w = true \/ restart <> [])
  end.
Proof.
  intros Hf. unfold post_config. cbn [post_steps post_step]. unfold post_check.
  destruct (from_value payload) as [e|incoming] eqn:Hfrom.
  { simpl. split; [done|]. eexists. split; [done|]. by split_and!. }
  cbv zeta. set (new := merge_secrets_from incoming (ws_current_settings w)).
  destruct (validate_cases new) as [Hv|[errors Hv]]; rewrite Hv.
  2: { simpl. split; [done|]. eexists. split; [done|]. split_and!; [done..|]. intros inc text [= <-] Hs%validate_sound. fold new in Hs. by rewrite Hv in Hs. }
  destruct (to_string_pretty new) as [e|text] eqn:Htext.
  { simpl. split; [done|]. eexists. split; [done|]. split_and!; [done..|]. intros inc text [= <-] _ Hs. fold new in Hs. by rewrite Htext in Hs. }
  cbn [post_step]. destruct (wo_create io) as [e|] eqn:Hcr.
  { simpl. split; [done|]. eexists. split; [done|]. split_and!; [done..|eauto]. }
  pose proof (file_create_spec f Hf) as Hc. destruct (file_create f) as [i f1]. destruct Hc as (Hf1 & Hi & He & Hc1).
  cbn [post_step]. destruct (wo_write io) as [[n e]|] eqn:Hwr.
  { destruct (file_write_spec i (String.substring 0 n text) f1 Hf1 Hi He) as (Hf2 & _ & _ & Hc2). simpl. split; [done|].
    eexists. split; [done|]. split_and!; [done|congruence|eauto]. }
  destruct (file_write_spec i text f1 Hf1 Hi He) as (Hf2 & Hi2 & He2 & Hc2).
  cbn [post_step]. destruct (wo_rename io) as [e|] eqn:Hre.
  { simpl. split; [done|]. eexists. split; [done|]. split_and!; [done|congruence|eauto]. }
  destruct (file_rename_spec i text _ Hf2 Hi2 He2) as (f3 & -> & Hf3 & Hc3). cbn [post_step]. split; [done|].
  eexists. split; [done|]. exists incoming. fold new. split_and!; try done.
  - by apply validate_sound.
  - eauto.
  - by case_match.
  - by case_match.
  - intros name. unfold hot_reloaded. rewrite changed_names_in, !elem_of_cons, elem_of_nil. unfold ConfigDiff_compute. simpl.
    rewrite !changed_name. tauto.
  - intros name. unfold restart_required. rewrite changed_names_in, !elem_of_cons, elem_of_nil. unfold ConfigDiff_compute. simpl.
    rewrite !changed_name. tauto.
  - destruct (restart_required _); simpl; [|by split; [right|]]. split; [by left|by intros [?|?]].
Qed.

Definition io_ok : WriteOutcome := mkWriteOutcome None None None.

(** An edit that nothing stands in the way of. *)
Lemma post_saved payload (w : WebState) f incoming text : files_ok f ->
  let current := ws_current_settings w in let new := merge_secrets_from incoming current in
  let diff := ConfigDiff_compute current new in
  from_value payload = inr incoming -> settings_sound new -> to_string_pretty new = inr text ->
  exists f', post payload io_ok w f =
      (PostDone (ConfigSaved (hot_reloaded diff) (restart_required diff)),
       set_settings new (match restart_required diff with [] => ws_restart_pending w | _ => true end) w, f') /\
    files_ok f' /\ config_text f' = Some text.
Proof.
  intros Hf current new diff Hfrom Hsound Htext. unfold post_config. cbn [post_steps post_step]. unfold post_check.
  rewrite Hfrom. cbv zeta. fold current. fold new. rewrite (proj2 (validate_sound _) Hsound), Htext. cbn [post_step io_ok wo_create].
  pose proof (file_create_spec f Hf) as Hc. destruct (file_create f) as [i f1]. destruct Hc as (Hf1 & Hi & He & Hc1).
  cbn [post_step io_ok wo_write]. destruct (file_write_spec i text f1 Hf1 Hi He) as (Hf2 & Hi2 & He2 & Hc2).
  cbn [post_step io_ok wo_rename]. destruct (file_rename_spec i text _ Hf2 Hi2 He2) as (f3 & -> & Hf3 & Hc3).
  exists f3. cbn [post_step]. fold diff. split; [|done]. by destruct (restart_required diff).
Qed.

(** The configuration that was shown, sent back and saved. *)
Lemma shown_posted (w : WebState) f payload text : files_ok f ->
  from_value payload = inr (mask_settings (ws_current_settings w)) ->
  settings_sound (ws_current_settings w) -> to_string_pretty (ws_current_settings w) = inr text ->
  exists f', post payload io_ok w f = (PostDone (ConfigSaved [] []), w, f') /\ files_ok f' /\ config_text f' = Some text.
Proof.
  intros Hf Hfrom Hsound Htext.
  destruct (post_saved payload w f _ text Hf Hfrom) as (f' & Hp & Hok); [by rewrite merge_masked..|].
  exists f'. split; [|done]. rewrite Hp, merge_masked, diff_same by done. by destruct w.
Qed.

(** Sending back the configuration that was shown changes nothing: it is saved with every section, the secrets
    included, as it was, and no section is reported as changed. And an edit that is saved
    reaches the rest of the service: at its next turn after the file changed, the
    watcher publishes settings that agree with the saved ones in every section but traces. [parse] reads the text that serde wrote. *)
Theorem shown_config_saved (parse : string -> option AppSettings) (w : WebState) f lm text : files_ok f ->
  (forall s text, to_string_pretty s = inr text -> parse text = Some s) ->
  from_value (gc_config (get_config lm w)) = inr (mask_settings (ws_current_settings w)) ->
  settings_sound (ws_current_settings w) -> to_string_pretty (ws_current_settings w) = inr text ->
  (exists f', post (gc_config (get_config lm w)) io_ok w f = (PostDone (ConfigSaved [] []), w, f') /\ config_text f' = Some text) /\
  forall payload io w' f' hot restart (mtime mtime' : option Z) sent,
    post payload io w f = (PostDone (ConfigSaved hot restart), w', f') -> mtime <> mtime' ->
    same_sections (cw_published (watch_turn (mkWatcher mtime (ws_current_settings w) sent false)
                                   (mkObservation mtime' (config_text f' ≫= parse) true))) (ws_current_settings w').
Proof.
  intros Hf Hparse Hfrom Hsound Htext. split.
  - destruct (shown_posted w f _ text Hf Hfrom Hsound Htext) as (f' & ? & _ & ?). by exists f'.
  - intros payload io w' f' hot restart mtime mtime' sent Hpost Hm.
    pose proof (config_edit payload io w f Hf) as He. rewrite Hpost in He.
    destruct He as (_ & reply & [= <-] & incoming & _ & _ & (text' & Ht & ->) & -> & _). simpl. rewrite (Hparse _ _ Ht).
    unfold watch_turn. cbn [cw_stopped cw_last_modified ob_mtime ob_file ob_open cw_published cw_sent].
    rewrite decide_False by done. destruct (ConfigDiff_is_empty _) eqn:Hd; [by apply diff_empty|by repeat split].
Qed.

(** A change of the trace section is saved, but neither reported nor counted as one that
    needs a restart, although nothing reloads it. *)
Lemma traces_edit_unreported payload (w : WebState) f incoming text t : files_ok f ->
  let s := ws_current_settings w in
  let new := mkSettings (st_logging s) (st_receiver s) (st_export s) (st_outputs s) (st_service s) (st_web s)
               (st_metrics s) (st_diagnostics s) t in
  from_value payload = inr incoming -> merge_secrets_from incoming s = new -> settings_sound new -> to_string_pretty new = inr text ->
  exists f', post payload io_ok w f = (PostDone (ConfigSaved [] []), set_settings new (ws_restart_pending w) w, f') /\
    config_text f' = Some text.
Proof.
  intros Hf s new Hfrom Hmerge Hsound Htext.
  destruct (post_saved payload w f incoming text Hf Hfrom) as (f' & Hp & _ & Hc); fold s; rewrite ?Hmerge; try done.
  exists f'. split; [|done]. rewrite Hp. fold s. by rewrite Hmerge, diff_same.
Qed.

End EditTheorems.

(** ** The list of PLCs *)

(** What is known of [id]. *)
Definition acc_of (acc : gmap string DomainAcc) (id : string) : DomainAcc := default DomainAcc_default (acc !! id).

(** The loops over targets, metrics and tasks, in general: [f x] is applied to the entry of [key x]. *)
Definition add_one {A} (key : A -> option string) (f : A -> DomainAcc -> DomainAcc) (acc : gmap string DomainAcc) (x : A)
    : gmap string DomainAcc :=
  match key x with None => acc | Some id => upd_domain id (f x) acc end.

Lemma add_one_fold {A} (key : A -> option string) f (l : list A) acc id :
  acc_of (foldl (add_one key f) acc l) id = foldl (fun e x => f x e) (acc_of acc id) (filter (fun x => key x = Some id) l) /\
  (id ∈ dom (foldl (add_one key f) acc l) <-> id ∈ dom acc \/ exists x, x ∈ l /\ key x = Some id).
Proof.
  revert acc. induction l as [|x l IH]; intros acc; cbn [foldl].
  { split; [done|]. split; [by left|]. intros [?|(x & Hx & _)]; [done|]. by apply not_elem_of_nil in Hx. }
  destruct (IH (add_one key f acc x)) as [-> ->]. rewrite filter_cons. unfold add_one.
  assert (Hex : (exists y, y ∈ x :: l /\ key y = Some id) <-> key x = Some id \/ exists y, y ∈ l /\ key y = Some id).
  { setoid_rewrite elem_of_cons. naive_solver. }
  rewrite Hex. destruct (key x) as [k|] eqn:Hk.
  - unfold upd_domain, acc_of. rewrite dom_insert_L, elem_of_union, elem_of_singleton. destruct (decide (Some k = Some id)) as [He|He].
    + injection He as ->. rewrite lookup_insert_eq. split; [done|]. tauto.
    + rewrite lookup_insert_ne by congruence. split; [done|]. assert (id <> k) by congruence. naive_solver.
  - rewrite decide_False by done. split; [done|]. naive_solver.
Qed.

Section Domains.
Context `{Ext : External} `{SO : SemaphoreOps}.
Variable tasks_iter : TaskRegistry -> list (RegistrationKey * TaskMetadata).
Variable names_iter : gmap string string -> list (string * string).

(** What an entry counts. *)
Definition counts_of (e : DomainAcc) : bool * bool * nat * nat :=
  (da_diagnostics e, da_registered e, da_metric_count e, da_task_count e).

Lemma targets_counts e l :
  counts_of (foldl (fun e t => mkDomainAcc true (da_registered e) (da_metric_count e) (da_task_count e) (da_router_host e)
      (match da_task_name_hint e with Some h => Some h | None => snd <$> head (names_iter (dt_task_names t)) end)
      (da_symbol_count e) (da_symbols_cached e)) e l) =
  (da_diagnostics e || negb (length l =? 0)%nat, da_registered e, da_metric_count e, da_task_count e).
Proof.
  revert e. induction l as [|t l IH]; intros e; cbn [foldl]; [simpl; by rewrite orb_false_r|].
  rewrite IH. simpl. by rewrite orb_true_r.
Qed.

Lemma metrics_counts e l :
  counts_of (foldl (fun e m => mkDomainAcc (da_diagnostics e) (da_registered e) (S (da_metric_count e)) (da_task_count e)
      (match da_router_host e with Some h => Some h | None => cm_ams_router_host m end) (da_task_name_hint e)
      (da_symbol_count e) (da_symbols_cached e)) e l) =
  (da_diagnostics e, da_registered e, (da_metric_count e + length l)%nat, da_task_count e).
Proof.
  revert e. induction l as [|m l IH]; intros e; cbn [foldl]; [simpl; by rewrite Nat.add_0_r|].
  rewrite IH. simpl. by rewrite Nat.add_succ_r.
Qed.

Lemma tasks_counts e (l : list (RegistrationKey * TaskMetadata)) :
  counts_of (foldl (fun e _ => mkDomainAcc (da_diagnostics e) true (da_metric_count e) (S (da_task_count e)) (da_router_host e)
      (da_task_name_hint e) (da_symbol_count e) (da_symbols_cached e)) e l) =
  (da_diagnostics e, da_registered e || negb (length l =? 0)%nat, da_metric_count e, (da_task_count e + length l)%nat).
Proof.
  revert e. induction l as [|m l IH]; intros e; cbn [foldl]; [simpl; by rewrite orb_false_r, Nat.add_0_r|].
  rewrite IH. simpl. by rewrite orb_true_r, Nat.add_succ_r.
Qed.

Lemma sorted_keys (l : list (string * DomainAcc)) : StronglySorted domain_le l -> StronglySorted String.le (map fst l).
Proof.
  induction 1 as [|x l _ IH Hall]; simpl; constructor; [done|]. by apply Forall_map.
Qed.

#[local] Instance domain_le_trans : Transitive domain_le.
Proof. intros a b c. unfold domain_le. apply (transitivity (R := String.le)). Qed.
#[local] Instance domain_le_total : Total domain_le.
Proof. intros a b. unfold domain_le. apply (total String.le). Qed.

(** The configured targets, the custom metrics and the registered tasks of a PLC. *)
Definition targets_at (id : string) (w : WebState) : list DiagnosticsTargetConfig :=
  filter (fun t => Some (dt_ams_net_id t) = Some id) (dg_targets (st_diagnostics (ws_current_settings w))).
Definition metrics_at (id : string) (w : WebState) : list CustomMetricDef :=
  filter (fun m => cm_ams_net_id m = Some id) (mc_custom_metrics (st_metrics (ws_current_settings w))).
Definition tasks_at (id : string) (w : WebState) : list (RegistrationKey * TaskMetadata) :=
  filter (fun kv : RegistrationKey * TaskMetadata => Some (rk_ams_net_id kv.1) = Some id) (all_tasks tasks_iter (ws_task_registry w)).

Lemma add_symbols_counts cache id e : counts_of (add_symbols cache id e) = counts_of e.
Proof. unfold add_symbols. by repeat case_match. Qed.

Lemma with_symbols (cache : option (gmap AmsNetId CacheEntry)) (acc : gmap string DomainAcc) id :
  let acc' := match cache with Some cache => map_imap (fun id e => Some (add_symbols cache id e)) acc | None => acc end in
  (id ∈ dom acc' <-> id ∈ dom acc) /\ (id ∈ dom acc -> counts_of (acc_of acc' id) = counts_of (acc_of acc id)).
Proof.
  destruct cache as [cache|]; [|done]. cbv zeta. unfold acc_of. rewrite !elem_of_dom, map_lookup_imap.
  destruct (acc !! id) as [e|]; simpl; [|done]. split; [done|]. intros _. apply add_symbols_counts.
Qed.

Lemma nonempty_length {A} (l : list A) : negb (length l =? 0)%nat = true <-> l <> [].
Proof. destruct l; naive_solver. Qed.

Lemma filter_nonempty {A} (P : A -> Prop) `{!forall x, Decision (P x)} l : (exists x, x ∈ l /\ P x) <-> filter P l <> [].
Proof.
  split.
  - intros (x & Hx & HP) Hn. apply (not_elem_of_nil x). rewrite <- Hn. by apply list_elem_of_filter.
  - destruct (filter P l) as [|x r] eqn:Hf; [done|]. intros _. exists x.
    assert (Hx : x ∈ filter P l) by (rewrite Hf; by left). apply list_elem_of_filter in Hx. naive_solver.
Qed.

Lemma domains_of_spec (w : WebState) id :
  (id ∈ dom (domains_of tasks_iter names_iter w) <-> targets_at id w <> [] \/ metrics_at id w <> [] \/ tasks_at id w <> []) /\
  (id ∈ dom (domains_of tasks_iter names_iter w) ->
   counts_of (acc_of (domains_of tasks_iter names_iter w) id) =
   (negb (length (targets_at id w) =? 0)%nat, negb (length (tasks_at id w) =? 0)%nat, length (metrics_at id w), length (tasks_at id w))).
Proof.
  unfold domains_of. cbv zeta. set (s := ws_current_settings w).
  set (a1 := foldl (add_target names_iter) ∅ _). set (a2 := foldl add_metric a1 _). set (a3 := foldl add_task a2 _).
  destruct (add_one_fold (fun t => Some (dt_ams_net_id t)) _ (dg_targets (st_diagnostics s)) ∅ id
    : (acc_of a1 id = _) /\ (id ∈ dom a1 <-> _)) as [E1 D1].
  destruct (add_one_fold cm_ams_net_id _ (mc_custom_metrics (st_metrics s)) a1 id : (acc_of a2 id = _) /\ (id ∈ dom a2 <-> _)) as [E2 D2].
  destruct (add_one_fold (fun kv : RegistrationKey * TaskMetadata => Some (rk_ams_net_id kv.1)) _
    (all_tasks tasks_iter (ws_task_registry w)) a2 id : (acc_of a3 id = _) /\ (id ∈ dom a3 <-> _)) as [E3 D3].
  destruct (with_symbols (ws_cache w) a3 id) as [Hdom Hcounts]. split.
  - rewrite Hdom, D3, D2, D1, dom_empty_L, elem_of_empty.
    assert (T1 : (exists x, x ∈ dg_targets (st_diagnostics s) /\ Some (dt_ams_net_id x) = Some id) <-> targets_at id w <> [])
      by apply filter_nonempty.
    assert (T2 : (exists x, x ∈ mc_custom_metrics (st_metrics s) /\ cm_ams_net_id x = Some id) <-> metrics_at id w <> [])
      by apply filter_nonempty.
    assert (T3 : (exists x, x ∈ all_tasks tasks_iter (ws_task_registry w) /\ Some (rk_ams_net_id x.1) = Some id) <-> tasks_at id w <> [])
      by apply filter_nonempty.
    rewrite T1, T2, T3. tauto.
  - intros Hin. rewrite Hcounts by by apply Hdom. rewrite E3, tasks_counts.
    assert (H2 : counts_of (acc_of a2 id) = (negb (length (targets_at id w) =? 0)%nat, false, length (metrics_at id w), 0%nat)).
    { rewrite E2, metrics_counts. assert (H1 : counts_of (acc_of a1 id) = (negb (length (targets_at id w) =? 0)%nat, false, 0%nat, 0%nat)).
      { rewrite E1, targets_counts. done. }
      unfold counts_of in H1. injection H1 as -> -> -> ->. done. }
    unfold counts_of in H2. injection H2 as -> -> -> ->. done.
Qed.

(** The list of PLCs is complete: it is sorted by Net ID without duplicates; a PLC is on it exactly when a diagnostics
    target, a custom metric or a registered task names it; and its entry counts its metrics
    and its tasks and names exactly the sources it came from. *)
Theorem domains_complete (w : WebState) :
  let l := get_domains tasks_iter names_iter w in
  StronglySorted String.le (map di_ams_net_id l) /\ NoDup (map di_ams_net_id l) /\
  (forall id, id ∈ map di_ams_net_id l <-> targets_at id w <> [] \/ metrics_at id w <> [] \/ tasks_at id w <> []) /\
  Forall (fun i => let id := di_ams_net_id i in
    di_metric_count i = length (metrics_at id w) /\ di_task_count i = length (tasks_at id w) /\
    ("diagnostics" ∈ di_sources i <-> targets_at id w <> []) /\ ("metrics" ∈ di_sources i <-> metrics_at id w <> []) /\
    ("registered" ∈ di_sources i <-> tasks_at id w <> [])) l.
Proof.
  intros l. set (acc := domains_of tasks_iter names_iter w).
  assert (Hids : map di_ams_net_id l = map fst (merge_sort domain_le (map_to_list acc))).
  { unfold l, get_domains. rewrite map_map. apply map_ext. by intros [id a]. }
  assert (Hperm : merge_sort domain_le (map_to_list acc) ≡ₚ map_to_list acc) by apply merge_sort_Permutation.
  assert (Hkeys : map fst (merge_sort domain_le (map_to_list acc)) ≡ₚ (map_to_list acc).*1) by by apply Permutation_map.
  rewrite Hids. split_and!.
  - apply sorted_keys. apply StronglySorted_merge_sort; apply _.
  - rewrite Hkeys. apply NoDup_fst_map_to_list.
  - intros id. rewrite Hkeys, <- (proj1 (domains_of_spec w id)), list_elem_of_fmap. fold acc. rewrite elem_of_dom. split.
    + intros ([k e] & -> & Hin). apply elem_of_map_to_list in Hin. by exists e.
    + intros [e He]. exists (id, e). split; [done|]. by apply elem_of_map_to_list.
  - apply Forall_forall. intros i Hi. unfold l, get_domains in Hi. apply (list_elem_of_fmap domain_info) in Hi as ([id e] & -> & Hin).
    fold acc in Hin. rewrite Hperm in Hin. apply elem_of_map_to_list in Hin.
    assert (Hd : id ∈ dom acc) by by apply elem_of_dom. pose proof (proj2 (domains_of_spec w id) Hd) as Hc. fold acc in Hc.
    unfold acc_of in Hc. rewrite Hin in Hc. unfold counts_of in Hc. simpl in Hc. injection Hc as H1 H2 H3 H4.
    cbv zeta. cbn [domain_info di_ams_net_id di_metric_count di_task_count di_sources].
    split_and!; [done|done|..]; rewrite !elem_of_app, <- ?nonempty_length, H1, H2, H3;
      destruct (targets_at id w), (metrics_at id w), (tasks_at id w); simpl; set_solver.
Qed.

End Domains.
