(* ===== verification/WebServer.v ===== *)
(** * Requests to the web interface (crates/tc-otel-service: web.rs)

    The routes of the web interface: which handler of [Web] a request
    reaches, and what requests in any interleaving may change: the edits of the configuration advance by
    the steps of [post_step], all other handlers are one step. Decoding of the path, the query and the
    body is axum's; a request comes with the decoded segments of its path. *)

From Stdlib Require Import Ascii.
From S2P Require Import Prelude.
From S2P Require Import Text.
From S2P Require Import External.
From S2P Require Import Ams.
From S2P Require Import Models.
From S2P Require Import Protocol.
From S2P Require Import Registry.
From S2P Require Import ConnectionManager.
From S2P Require Import Browse.
From S2P Require Import MetricMapper.
From S2P Require Import Config.
From S2P Require Import CycleTime.
From S2P Require Import Web.

(** ** Static files *)

Definition JS : string := "application/javascript; charset=utf-8".
Definition CSS : string := "text/css; charset=utf-8".

(** The files compiled into the program, with their content types. *)
Definition assets : list (string * string) :=
  [("app.js", JS); ("styles.css", CSS); ("lib/util.js", JS); ("lib/domains.js", JS); ("lib/charts.js", JS);
   ("views/dashboard.js", JS); ("views/config.js", JS); ("views/symbols.js", JS); ("vendor/uplot.min.js", JS);
   ("vendor/uplot.min.css", CSS)].

(** [serve_asset]: the name of the file and its content type. *)
Definition serve_asset (rest : string) : outcome Z (string * string) :=
  match List.find (fun a => String.eqb rest a.1) assets with
  | Some a => Ok a
  | None => Err NOT_FOUND
  end.

(** ** Routes *)

Inductive Method := GET | HEAD | POST | OtherMethod.

#[global] Instance Method_eq_dec : EqDecision Method.
Proof. solve_decision. Defined.

Inductive Route :=
| RtDashboard
| RtAsset (rest : string)
| RtHealth
| RtStatus
| RtConnections
| RtTasks
| RtDomains
| RtSymbols
| RtSymbol (name : string)
| RtCycleMetrics
| RtConfig
| RtConfigSchema
| RtClientSymbols
| RtClientRefresh
| RtClientTargets.

(** [router] and [attach_client_routes]: the segments of the path behind the first slash; a parameter
    matches one segment that is not empty, the wildcard one or more. *)
Definition route_of (segments : list string) : option Route :=
  match segments with
  | [""] => Some RtDashboard
  | "assets" :: rest => if String.eqb (join "/" rest) "" then None else Some (RtAsset (join "/" rest))
  | ["health"] => Some RtHealth
  | ["api"; "status"] => Some RtStatus
  | ["api"; "connections"] => Some RtConnections
  | ["api"; "tasks"] => Some RtTasks
  | ["api"; "domains"] => Some RtDomains
  | ["api"; "symbols"] => Some RtSymbols
  | ["api"; "symbols"; name] => if String.eqb name "" then None else Some (RtSymbol name)
  | ["api"; "cycle-metrics"] => Some RtCycleMetrics
  | ["api"; "config"] => Some RtConfig
  | ["api"; "config"; "schema"] => Some RtConfigSchema
  | ["api"; "client"; "symbols"] => Some RtClientSymbols
  | ["api"; "client"; "symbols"; "refresh"] => Some RtClientRefresh
  | ["api"; "client"; "targets"] => Some RtClientTargets
  | _ => None
  end.

(** The methods of a route; [get] also answers HEAD. *)
Definition route_methods (r : Route) : list Method :=
  match r with
  | RtConfig => [GET; HEAD; POST]
  | RtClientRefresh => [POST]
  | _ => [GET; HEAD]
  end.

(** ** Requests *)

Section Requests.
Context `{Ext : External} `{SO : SemaphoreOps} `{CM : CaseMapping} `{SS : SettingsSerde}.
Variable tasks_iter : TaskRegistry -> list (RegistrationKey * TaskMetadata).
Variable names_iter : gmap string string -> list (string * string).
Variable tracker_iter : gmap (string * Z) TaskCycleState -> list ((string * Z) * TaskCycleState).
Variable targets_iter : gset string -> list string.
Variable to_rfc3339 : DateTime -> string.
Variable from_value : Value -> string + AppSettings.
Variable to_string_pretty : AppSettings -> string + string.
Variable no_such_file : string.
(** The schema of the settings is schemars'. *)
Variable schema : Value.

(** [rq_query] are the decoded parameters; [rq_body] the JSON of the body, or the status with which axum
    refuses it. *)
Record WebRequest := mkWebRequest {
  rq_method : Method;
  rq_segments : list string;
  rq_query : string -> option string;
  rq_body : Z + Value;
}.

(** What the handlers read besides the state: the time since the start and the last change of
    the file. *)
Record WebEnv := mkWebEnv {
  we_uptime : Z;
  we_last_modified : option string;
}.

Inductive Reply :=
| ReplyStatus (code : Z)
| ReplyText (code : Z) (text : string)
| ReplyPage
| ReplyAsset (name content_type : string)
| ReplyHealth (r : HealthResponse)
| ReplyState (r : StatusResponse)
| ReplyConnections (l : list (string * nat))
| ReplyTasks (l : list TaskInfo)
| ReplyDomains (l : list DomainInfo)
| ReplySymbols (count : nat) (l : list SymbolInfo)
| ReplySymbol (s : SymbolInfo)
| ReplyCycles (l : list CycleTimeStats)
| ReplyConfig (r : GetConfigResponse)
| ReplySchema (v : Value)
| ReplyClientSymbols (r : ClientSymbolsResponse)
| ReplyRefresh (target : string) (invalidated : bool)
| ReplyTargets (l : list ClientTargetInfo).

Definition METHOD_NOT_ALLOWED : Z := 405.

(** The reply of a handler with its error. *)
Definition or_text {A} (f : A -> Reply) (o : outcome (Z * string) A) : Reply :=
  match o with
  | Ok a => f a
  | Err (code, text) => ReplyText code text
  | _ => ReplyStatus INTERNAL_SERVER_ERROR
  end.

(** The handlers behind GET. *)
Definition handle_get (env : WebEnv) (q : string -> option string) (r : Route) (w : WebState) : Reply :=
  match r with
  | RtDashboard => ReplyPage
  | RtAsset rest => match serve_asset rest with Ok (n, ct) => ReplyAsset n ct | _ => ReplyStatus NOT_FOUND end
  | RtHealth => ReplyHealth (health (we_uptime env) w)
  | RtStatus => ReplyState (status (we_uptime env) w)
  | RtConnections => ReplyConnections (connections w)
  | RtTasks => ReplyTasks (tasks tasks_iter w)
  | RtDomains => ReplyDomains (get_domains tasks_iter names_iter w)
  | RtSymbols => let '(n, l) := get_symbols w in ReplySymbols n l
  | RtSymbol name => match get_symbol_by_name name w with Ok s => ReplySymbol s | _ => ReplyStatus NOT_FOUND end
  | RtCycleMetrics => ReplyCycles (all_stats tracker_iter (ws_cycle_tracker w))
  | RtConfig => ReplyConfig (get_config (we_last_modified env) w)
  | RtConfigSchema => ReplySchema schema
  | RtClientSymbols => or_text ReplyClientSymbols (client_get_symbols to_rfc3339 (q "target") (q "filter") w)
  | RtClientTargets => or_text ReplyTargets (client_list_targets to_rfc3339 targets_iter w)
  | RtClientRefresh => ReplyStatus METHOD_NOT_ALLOWED
  end.

(** What becomes of a request at once: its reply, or [post_config] begins. *)
Inductive Handled :=
| Replied (r : Reply)
| Posting (payload : Value).

(** The handlers behind POST; a query without the target is refused by axum. *)
Definition handle_post (rq : WebRequest) (r : Route) (w : WebState) : Handled * WebState :=
  match r with
  | RtConfig =>
    match rq_body rq with
    | inl code => (Replied (ReplyStatus code), w)
    | inr v => (Posting v, w)
    end
  | RtClientRefresh =>
    match rq_query rq "target" with
    | None => (Replied (ReplyStatus BAD_REQUEST), w)
    | Some target =>
      let '(o, w) := client_refresh_symbols target w in (Replied (or_text (ReplyRefresh target) o), w)
    end
  | _ => (Replied (ReplyStatus METHOD_NOT_ALLOWED), w)
  end.

(** A request to the server. *)
Definition web_request (env : WebEnv) (rq : WebRequest) (w : WebState) : Handled * WebState :=
  match route_of (rq_segments rq) with
  | None => (Replied (ReplyStatus NOT_FOUND), w)
  | Some r =>
    if bool_decide (rq_method rq ∈ route_methods r) then
      match rq_method rq with
      | POST => handle_post rq r w
      | _ => (Replied (handle_get env (rq_query rq) r w), w)
      end
    else (Replied (ReplyStatus METHOD_NOT_ALLOWED), w)
  end.

(** The server: the shared state, the files, and where each edit of the configuration is. *)
Record WebSystem := mkWebSystem {
  wy_state : WebState;
  wy_files : Files;
  wy_posts : list PostPhase;
}.

Definition WebSystem_new (w : WebState) (f : Files) : WebSystem := mkWebSystem w f [].

(** A request comes in, or an edit takes its next step. *)
Inductive WebEvent :=
| WvRequest (env : WebEnv) (rq : WebRequest)
| WvStep (i : nat) (io : WriteOutcome).

Definition web_event (y : WebSystem) (e : WebEvent) : WebSystem :=
  match e with
  | WvRequest env rq =>
    let '(h, w) := web_request env rq (wy_state y) in
    mkWebSystem w (wy_files y) (match h with Replied _ => wy_posts y | Posting v => wy_posts y ++ [PostStart v] end)
  | WvStep i io =>
    match wy_posts y !! i with
    | None => y
    | Some ph =>
      let '(ph, w, f) := post_step from_value to_string_pretty no_such_file io ph (wy_state y) (wy_files y) in
      mkWebSystem w f (<[i := ph]> (wy_posts y))
    end
  end.

Definition web_run (y : WebSystem) (l : list WebEvent) : WebSystem := foldl web_event y l.

(** ** What requests can change *)

(** The parts no request changes. *)
Definition same_parts (w w' : WebState) : Prop :=
  ws_stats w' = ws_stats w /\ ws_conn_manager w' = ws_conn_manager w /\ ws_task_registry w' = ws_task_registry w /\
  ws_symbols w' = ws_symbols w /\ ws_cycle_tracker w' = ws_cycle_tracker w /\ ws_service_name w' = ws_service_name w.

(** Symbols are only taken out of the cache. *)
Definition cache_shrinks (w w' : WebState) : Prop :=
  match ws_cache w, ws_cache w' with
  | Some c, Some c' => c' ⊆ c
  | None, None => True
  | _, _ => False
  end.

(** Settings that come from those of the start by edits that requests sent, each with its masked secrets
    filled in from the settings it met, and each accepted by the validation. *)
Inductive edited (payloads : list Value) (start : AppSettings) : AppSettings -> Prop :=
| edited_start : edited payloads start start
| edited_by v incoming current : edited payloads start current -> v ∈ payloads -> from_value v = inr incoming ->
    settings_sound (merge_secrets_from incoming current) -> edited payloads start (merge_secrets_from incoming current).

Lemma edited_sound payloads start s : edited payloads start s -> settings_sound start -> settings_sound s.
Proof. by destruct 1. Qed.

(** The bodies of the edits among the events. *)
Definition posted (l : list WebEvent) : list Value :=
  omap (fun e => match e with
                 | WvRequest _ rq => match rq_method rq, rq_body rq with POST, inr v => Some v | _, _ => None end
                 | WvStep _ _ => None
                 end) l.

(** From one state to the next. *)
Record web_change (w w' : WebState) : Prop := {
  wch_parts : same_parts w w';
  wch_restart : ws_restart_pending w = true -> ws_restart_pending w' = true;
  wch_cache : cache_shrinks w w';
}.

Lemma web_change_refl w : web_change w w.
Proof. split; [done|done|unfold cache_shrinks; by destruct (ws_cache w)]. Qed.

Lemma web_change_trans w w' w'' :
  web_change w w' -> web_change w' w'' -> web_change w w''.
Proof.
  intros [(? & ? & ? & ? & ? & ?) Hr Hc] [(? & ? & ? & ? & ? & ?) Hr' Hc']. split.
  - unfold same_parts. split_and!; congruence.
  - auto.
  - unfold cache_shrinks in *. destruct (ws_cache w), (ws_cache w'), (ws_cache w''); try done. by etrans.
Qed.

Lemma refresh_change target w :
  web_change w (client_refresh_symbols target w).2 /\ ws_current_settings (client_refresh_symbols target w).2 = ws_current_settings w.
Proof.
  unfold client_refresh_symbols. destruct (ws_cache w) as [cache|] eqn:Hc; [|by split; [apply web_change_refl|]].
  destruct (parse_net_id target) as [net|]; [|by split; [apply web_change_refl|]]. split; [|done].
  split; simpl; [done|done|]. unfold cache_shrinks. rewrite Hc. simpl. unfold cache_invalidate. apply delete_subseteq.
Qed.

Lemma web_request_change env rq w :
  web_change w (web_request env rq w).2 /\ ws_current_settings (web_request env rq w).2 = ws_current_settings w /\
  (forall v, (web_request env rq w).1 = Posting v -> rq_body rq = inr v /\ rq_method rq = POST).
Proof.
  pose proof (web_change_refl w) as Hrefl.
  unfold web_request. destruct (route_of (rq_segments rq)) as [r|]; [|done]. case_bool_decide; [|done].
  destruct (rq_method rq); try done. unfold handle_post. destruct r; try done.
  - destruct (rq_body rq) as [code|v]; [done|]. split_and!; try done. by intros ? [= ->].
  - destruct (rq_query rq "target") as [target|]; [|done].
    destruct (refresh_change target w) as [H1 H2]. by destruct (client_refresh_symbols target w) as [o w'].
Qed.

Lemma web_request_reads env rq w : rq_method rq <> POST ->
  (web_request env rq w).2 = w /\ forall v, (web_request env rq w).1 <> Posting v.
Proof.
  intros Hm. unfold web_request. destruct (route_of (rq_segments rq)); [|done].
  case_bool_decide; [|done]. by destruct (rq_method rq).
Qed.

(** What an edit holds at each point. *)
Definition phase_ok (payloads : list Value) (start : AppSettings) (ph : PostPhase) : Prop :=
  match ph with
  | PostStart v => v ∈ payloads
  | PostCreate _ s _ | PostWrite _ s _ _ | PostRename _ s | PostStore _ s => edited payloads start s
  | PostFlag _ _ | PostDone _ => True
  end.

Lemma post_step_change payloads start io ph w f : phase_ok payloads start ph -> edited payloads start (ws_current_settings w) ->
  let '(ph', w', f') := post_step from_value to_string_pretty no_such_file io ph w f in
  phase_ok payloads start ph' /\ edited payloads start (ws_current_settings w') /\ web_change w w'.
Proof.
  intros Hph Hw. pose proof (web_change_refl w) as Hrefl.
  destruct ph as [v|cur s text|cur s text i|cur s|cur s|hot restart|reply]; cbn [post_step].
  - split; [|done]. unfold post_check. destruct (from_value v) as [e|incoming] eqn:Hv; [done|].
    cbv zeta. destruct (validate_cases (merge_secrets_from incoming (ws_current_settings w))) as [Hval|[errors Hval]]; rewrite Hval; [|done].
    destruct (to_string_pretty _) as [e|text] eqn:Ht; [done|]. eapply edited_by; [done..|]. by apply validate_sound.
  - destruct (wo_create io); [done|]. by destruct (file_create f) as [i f'].
  - by destruct (wo_write io) as [[n e]|].
  - by destruct (wo_rename io), (file_rename f).
  - split_and!; [done..|]. split; simpl; [done|done|]. unfold cache_shrinks. simpl. by destruct (ws_cache w).
  - destruct restart; [done|]. split_and!; [done..|]. split; simpl; [done|done|].
    unfold cache_shrinks. simpl. by destruct (ws_cache w).
  - done.
Qed.

(** What holds of the server while requests come. *)
Definition server_ok (payloads : list Value) (start : AppSettings) (y : WebSystem) : Prop :=
  Forall (phase_ok payloads start) (wy_posts y) /\ edited payloads start (ws_current_settings (wy_state y)).

Lemma web_event_ok payloads start y e : server_ok payloads start y -> posted [e] ⊆ payloads ->
  server_ok payloads start (web_event y e) /\ web_change (wy_state y) (wy_state (web_event y e)).
Proof.
  intros [Hp Hs] Hsub. destruct e as [env rq|i io]; cbn [web_event].
  - destruct (web_request_change env rq (wy_state y)) as (Hc & Hset & Hb). destruct (web_request env rq (wy_state y)) as [h w'].
    cbn [fst snd] in *. split; [|done]. split; [|by cbn [wy_state]; rewrite Hset]. cbn [wy_posts]. destruct h as [r|v]; [done|].
    apply Forall_app. split; [done|]. constructor; [|done]. apply Hsub. destruct (Hb v eq_refl) as [Hbody Hm].
    unfold posted. cbn [omap list_omap]. rewrite Hm, Hbody. left.
  - destruct (wy_posts y !! i) as [ph|] eqn:Hi; [|by split; [|apply web_change_refl]].
    pose proof (post_step_change payloads start io ph (wy_state y) (wy_files y) (proj1 (Forall_lookup _ _) Hp _ _ Hi) Hs) as Hst.
    destruct (post_step _ _ _ io ph _ _) as [[ph' w'] f']. destruct Hst as (Hs1 & Hs2 & Hs3). split; [|done].
    split; [by apply Forall_insert|done].
Qed.

Lemma web_run_ok payloads start y l : server_ok payloads start y -> posted l ⊆ payloads ->
  server_ok payloads start (web_run y l) /\ web_change (wy_state y) (wy_state (web_run y l)).
Proof.
  revert y. induction l as [|e l IH]; intros y Hok Hsub; [by split; [|apply web_change_refl]|]. cbn [web_run foldl].
  assert (Hl : posted (e :: l) = posted [e] ++ posted l) by (unfold posted; by rewrite <- omap_app).
  rewrite Hl in Hsub. destruct (web_event_ok payloads start y e Hok) as [He1 He2]; [set_solver|].
  destruct (IH (web_event y e) He1) as [H1 H2]; [set_solver|]. split; [exact H1|by eapply web_change_trans].
Qed.

(** ** Edits one after the other *)

Definition is_done (ph : PostPhase) : bool := match ph with PostDone _ => true | _ => false end.
Definition idle (y : WebSystem) : bool := forallb is_done (wy_posts y).

(** An edit begins only when the earlier ones have their replies. *)
Fixpoint one_at_a_time (y : WebSystem) (l : list WebEvent) : bool :=
  match l with
  | [] => true
  | e :: l =>
    (idle y || (length (wy_posts (web_event y e)) =? length (wy_posts y))%nat) && one_at_a_time (web_event y e) l
  end.

Section OneAtATime.
Variables (w0 : WebState) (f0 : Files).

(** The file and the running settings are those of the start, or the file has the text of the settings. *)
Definition in_step (w : WebState) (f : Files) : Prop :=
  (ws_current_settings w = ws_current_settings w0 /\ config_text f = config_text f0) \/
  exists text, to_string_pretty (ws_current_settings w) = inr text /\ config_text f = Some text.

Definition post_inv (ph : PostPhase) (w : WebState) (f : Files) : Prop :=
  match ph with
  | PostStart _ | PostFlag _ _ | PostDone _ => in_step w f
  | PostCreate _ s text => in_step w f /\ to_string_pretty s = inr text
  | PostWrite _ s text i => in_step w f /\ to_string_pretty s = inr text /\ fl_tmp f = Some i /\ fl_contents f !! i = Some ""
  | PostRename _ s => in_step w f /\
      exists text i, to_string_pretty s = inr text /\ fl_tmp f = Some i /\ fl_contents f !! i = Some text
  | PostStore _ s => exists text, to_string_pretty s = inr text /\ config_text f = Some text
  end.

Lemma in_step_text w f f' : in_step w f -> config_text f' = config_text f -> in_step w f'.
Proof. unfold in_step. by intros H ->. Qed.

Lemma post_step_inv io ph w f : files_ok f -> post_inv ph w f ->
  let '(ph', w', f') := post_step from_value to_string_pretty no_such_file io ph w f in files_ok f' /\ post_inv ph' w' f'.
Proof.
  intros Hf Hph. destruct ph as [v|cur s text|cur s text i|cur s|cur s|hot restart|reply]; cbn [post_step].
  - split; [done|]. unfold post_check. destruct (from_value v) as [e|incoming]; [done|].
    cbv zeta. destruct (AppSettings_validate _); try done; by destruct (to_string_pretty _) eqn:Ht.
  - destruct Hph as [Hin Ht]. destruct (wo_create io); [done|]. pose proof (file_create_spec f Hf) as Hc.
    destruct (file_create f) as [i f']. destruct Hc as (Hf' & Hi & He & Hc). split; [done|]. split_and!; try done. by eapply in_step_text.
  - destruct Hph as (Hin & Ht & Hi & He). destruct (wo_write io) as [[n e]|].
    + destruct (file_write_spec i (String.substring 0 n text) f Hf Hi He) as (Hf' & _ & _ & Hc). split; [done|]. by eapply in_step_text.
    + destruct (file_write_spec i text f Hf Hi He) as (Hf' & Hi' & He' & Hc). split; [done|]. split; [by eapply in_step_text|].
      by exists text, i.
  - destruct Hph as (Hin & text & i & Ht & Hi & He). destruct (file_rename_spec i text f Hf Hi He) as (f' & -> & Hf' & Hc).
    destruct (wo_rename io); [done|]. split; [done|]. by exists text.
  - split; [done|]. destruct Hph as (text & Ht & Hc). right. by exists text.
  - split; [done|]. by destruct restart.
  - done.
Qed.

(** At most one edit, number [i], is under way. *)
Definition sole (y : WebSystem) (i : nat) : Prop :=
  files_ok (wy_files y) /\ (forall j ph, wy_posts y !! j = Some ph -> j <> i -> is_done ph = true) /\
  post_inv (default (PostDone (ConfigSaved [] [])) (wy_posts y !! i)) (wy_state y) (wy_files y).

Lemma web_event_sole y i e : sole y i -> idle y || (length (wy_posts (web_event y e)) =? length (wy_posts y))%nat = true ->
  exists i', sole (web_event y e) i'.
Proof.
  intros (Hf & Hothers & Hi) Hone. destruct e as [env rq|j io]; cbn [web_event] in *.
  - destruct (web_request_change env rq (wy_state y)) as (_ & Hs & _).
    destruct (web_request env rq (wy_state y)) as [h w']. cbn [snd] in Hs.
    destruct h as [r|v].
    + exists i. split_and!; try done. revert Hi. unfold post_inv, in_step. simpl. by rewrite Hs.
    + cbn [wy_posts] in Hone. rewrite length_app in Hone. cbn [length] in Hone.
      rewrite (proj2 (Nat.eqb_neq _ _)), orb_false_r in Hone by lia. unfold idle in Hone. rewrite forallb_forall in Hone.
      assert (Hall : forall j ph, wy_posts y !! j = Some ph -> is_done ph = true).
      { intros j ph Hj. apply Hone. apply list_elem_of_In. by eapply list_elem_of_lookup_2. }
      exists (length (wy_posts y)). split_and!; [done| |].
      * cbn [wy_posts]. intros j ph Hj Hne. apply lookup_app_Some in Hj as [Hj|[Hle Hj]]; [by eapply Hall|].
        apply lookup_lt_Some in Hj. simpl in Hj. lia.
      * cbn [wy_posts]. rewrite list_lookup_middle by done. simpl. unfold in_step. rewrite Hs. fold (in_step (wy_state y) (wy_files y)).
        destruct (wy_posts y !! i) as [ph|] eqn:Hpi; [|exact Hi]. pose proof (Hall _ _ Hpi) as Hd. by destruct ph.
  - destruct (wy_posts y !! j) as [ph|] eqn:Hj; [|by exists i]. destruct (decide (j = i)) as [->|Hne].
    + rewrite Hj in Hi. simpl in Hi. pose proof (post_step_inv io ph _ _ Hf Hi) as Hs.
      destruct (post_step _ _ _ io ph _ _) as [[ph' w'] f']. destruct Hs as [Hf' Hs]. exists i. split_and!; cbn [wy_posts wy_files wy_state]; [done| |].
      * intros k ph2 Hk Hki. rewrite list_lookup_insert_ne in Hk by done. by eapply Hothers.
      * rewrite list_lookup_insert_eq by (by eapply lookup_lt_Some). done.
    + pose proof (Hothers _ _ Hj Hne) as Hd. destruct ph; try done. cbn [post_step]. exists i.
      rewrite list_insert_id by done. by destruct y.
Qed.

Lemma one_at_a_time_in_step y i l : sole y i -> one_at_a_time y l = true -> idle (web_run y l) = true ->
  in_step (wy_state (web_run y l)) (wy_files (web_run y l)).
Proof.
  revert y i. induction l as [|e l IH]; intros y i Hs Hone Hidle.
  - destruct Hs as (_ & _ & Hi). unfold idle in Hidle. cbn [web_run foldl] in *. rewrite forallb_forall in Hidle.
    destruct (wy_posts y !! i) as [ph|] eqn:Hpi; [|exact Hi]. assert (is_done ph = true) as Hd.
    { apply Hidle, list_elem_of_In. by eapply list_elem_of_lookup_2. } by destruct ph.
  - cbn [one_at_a_time] in Hone. apply andb_true_iff in Hone as [H1 H2]. destruct (web_event_sole y i e Hs H1) as [i' Hs'].
    by eapply (IH _ i').
Qed.

End OneAtATime.

Lemma web_run_reads w f l : Forall (fun e => match e with WvRequest _ rq => rq_method rq <> POST | WvStep _ _ => True end) l ->
  web_run (WebSystem_new w f) l = WebSystem_new w f.
Proof.
  induction 1 as [|e l He _ IH]; [done|]. cbn [web_run foldl]. destruct e as [env rq|i io]; [|exact IH].
  cbn [web_event WebSystem_new wy_state wy_files wy_posts]. destruct (web_request_reads env rq w He) as [Hw Hh].
  destruct (web_request env rq w) as [[r|v] w']; simpl in *; subst; [exact IH|]. by destruct (Hh v).
Qed.

Lemma asset_served env rq w name ct : (web_request env rq w).1 = Replied (ReplyAsset name ct) -> (name, ct) ∈ assets.
Proof.
  unfold web_request. destruct (route_of (rq_segments rq)) as [r|]; [|done]. case_bool_decide; [|done]. intros Hrep.
  assert (Hg : handle_get env (rq_query rq) r w = ReplyAsset name ct).
  { destruct (rq_method rq); try (injection Hrep; done). exfalso. revert Hrep. unfold handle_post, or_text. repeat case_match; done. }
  revert Hg. unfold handle_get, or_text. destruct r; try done; try (repeat case_match; done).
  unfold serve_asset. destruct (List.find _ assets) as [[n c]|] eqn:Hf; [|done]. intros [= <- <-].
  apply List.find_some in Hf as [Hin _]. by apply list_elem_of_In.
Qed.

(** C40: What requests to the web interface can change, however they overlap. After any interleaving of requests and of the steps of
    the edits that they began: if the running
    settings were sound they still are, and they come from those of the start by edits that the requests sent, their masked secrets filled in from the settings each met, and that the validation accepted; a pending restart
    stays pending; symbols of a PLC only disappear from
    the cache; statistics, connections, tasks, symbols and cycle times are left alone; and as long as no request
    is a POST nothing changes at all, the files included. When an edit begins only after the earlier ones were answered, then, as soon as all are answered, the file and the
    running settings are both as at the start, or the file has the text of the running settings, whatever steps on the files failed. (Overlapping edits can leave the file with one and
    the settings with the other, or the file torn: [overlapping_edits_diverge] and [overlapping_edits_tear].) A file is served only if it is one of those compiled in. *)
Theorem web_requests_safe w f l :
  settings_sound (ws_current_settings w) -> files_ok f ->
  let y := web_run (WebSystem_new w f) l in
  settings_sound (ws_current_settings (wy_state y)) /\
  edited (posted l) (ws_current_settings w) (ws_current_settings (wy_state y)) /\
  (ws_restart_pending w = true -> ws_restart_pending (wy_state y) = true) /\ same_parts w (wy_state y) /\ cache_shrinks w (wy_state y) /\
  (Forall (fun e => match e with WvRequest _ rq => rq_method rq <> POST | WvStep _ _ => True end) l ->
     wy_state y = w /\ wy_files y = f) /\
  (one_at_a_time (WebSystem_new w f) l = true -> idle y = true ->
     (ws_current_settings (wy_state y) = ws_current_settings w /\ config_text (wy_files y) = config_text f) \/
     exists text, to_string_pretty (ws_current_settings (wy_state y)) = inr text /\ config_text (wy_files y) = Some text) /\
  forall env rq name ct, (web_request env rq (wy_state y)).1 = Replied (ReplyAsset name ct) -> (name, ct) ∈ assets.
Proof.
  intros Hs Hf y.
  destruct (web_run_ok (posted l) (ws_current_settings w) (WebSystem_new w f) l) as [[_ Hset] [Hp Hr Hc]]; [by split; constructor|done|].
  fold y in Hp, Hset, Hr, Hc. simpl in Hp, Hr, Hc. split_and!; try done.
  - by eapply edited_sound.
  - intros Hl. unfold y. by rewrite web_run_reads.
  - intros Hone Hidle. apply (one_at_a_time_in_step w f (WebSystem_new w f) 0); [|done..]. split_and!; try done. by left.
  - intros env rq name ct. apply asset_served.
Qed.

End Requests.
