(* ===== verification/Start.v ===== *)
(** * The start of the service (crates/tc-otel-service: service.rs, main.rs)

    What [TcOtelService::run] builds from one value of the settings before it waits for the signal to stop:
    the scope resolver, the three pillars, the transport with its router and
    connection manager, the poller of diagnostics, the client bridge, the
    collector of system metrics and the web interface. *)

From S2P Require Import Prelude.
From S2P Require Import Text.
From S2P Require Import External.
From S2P Require Import Ams.
From S2P Require Import Models.
From S2P Require Import Protocol.
From S2P Require Import Registry.
From S2P Require Import Diagnostics.
From S2P Require Import Router.
From S2P Require Import SpanDispatcher.
From S2P Require Import ConnectionManager.
From S2P Require Import Transport.
From S2P Require Import ScopeResolver.
From S2P Require Import MetricMapper.
From S2P Require Import Poll.
From S2P Require Import Config.
From S2P Require Import DiagPoller.
From S2P Require Import ClientBridge.
From S2P Require Import LogPath.
From S2P Require Import Worker.
From S2P Require Import Channels.
From S2P Require Import Delivery.
From S2P Require Import CycleTime.
From S2P Require Import Service.
From S2P Require Import MetricFlow.
From S2P Require Import TraceFlow.
From S2P Require Import LogFlow.
From S2P Require Import Web.

(** ** The lookup behind the resolver *)

(** [Arc<dyn ScopeLookup>]: one of the two lookups of the repository. *)
Inductive AnyLookup :=
| LookupAds (l : AdsScopeLookup)
| LookupNoop.

Definition any_resolve (e : AdsEnv) (net ns : string) (port : Z) (l : AnyLookup)
    : AnyLookup * outcome LookupError (option (string * string)) :=
  match l with
  | LookupAds l => let '(l, r) := AdsScopeLookup_resolve e net ns port l in (LookupAds l, r)
  | LookupNoop => (LookupNoop, (lookup_resolve (ScopeLookup := NoopLookup) tt net ns port tt).2)
  end.

Definition any_invalidate (net : string) (l : AnyLookup) : AnyLookup :=
  match l with
  | LookupAds l => LookupAds (AdsScopeLookup_invalidate net l)
  | LookupNoop => LookupNoop
  end.

Definition DynLookup : ScopeLookup := {|
  LookupState := AnyLookup;
  LookupEnv := AdsEnv;
  lookup_resolve := any_resolve;
  lookup_invalidate := any_invalidate;
|}.

#[local] Existing Instance DynLookup.

Definition SCOPE_RESOLVER_SOURCE_PORT : Z := 30150.

(** Symbols are looked up only through a local router. *)
Definition scope_resolver_of (s : AppSettings) (net_id : AmsNetId) : ScopeResolver :=
  ScopeResolver_new (match rc_transport (st_receiver s) with
                     | TransportLocalRouter lr =>
                       LookupAds (AdsScopeLookup_new (lr_router_host lr) net_id SCOPE_RESOLVER_SOURCE_PORT)
                     | _ => LookupNoop
                     end).

(** ** The service *)

Record TcOtelService := mkTcOtel {
  to_settings : AppSettings;
  to_config_path : option string;
  to_current_settings : AppSettings;
}.

Definition TcOtelService_new (s : AppSettings) : TcOtelService := mkTcOtel s None s.
Definition with_config_watch (path : string) (t : TcOtelService) : TcOtelService :=
  mkTcOtel (to_settings t) (Some path) (to_current_settings t).
Definition apply_config_changes (new : AppSettings) (t : TcOtelService) : TcOtelService :=
  mkTcOtel (to_settings t) (to_config_path t) new.

(** The broker the client bridge attaches to. *)
Definition bridge_broker (s : AppSettings) : string * Z * string :=
  match rc_transport (st_receiver s) with
  | TransportMqtt mqtt => (parse_broker_addr (mq_broker mqtt), mq_topic_prefix mqtt)
  | _ => ("mosquitto", 1883, "AdsOverMqtt")
  end.

(** main.rs: the description of the transport that is logged. *)
Definition transport_desc (s : AppSettings) : string :=
  match rc_transport (st_receiver s) with
  | TransportTcp _ => "AMS/TCP :" +:+ dec (rc_ams_tcp_port (st_receiver s))
  | TransportMqtt m => "MQTT broker=" +:+ mq_broker m +:+ " topic=" +:+ mq_topic_prefix m
  | TransportLocalRouter lr =>
    "local AMS router client → " +:+ lr_router_host lr +:+ ":" +:+ dec (lr_router_port lr) +:+
    " (register port " +:+ dec (rc_ads_port (st_receiver s)) +:+ ")"
  end.

Section Run.
Context `{Ext : External} `{H : Hex} `{M : Mpsc} {RC : Receiver M} `{SO : SemaphoreOps} `{CM : CaseMapping}
  `{NB : Notify.NotificationBackend}.
Context {Time : Type} `{!EqDecision Time}.
(** The environment variables, the name of the host, the order in which the names of
    a target are iterated, the clock, and the time the settings file was last changed. *)
Variable env_var : string -> option string.
Variable host_name : string.
Variable names_iter : gmap string string -> list (string * string).
Variable now : Z.
Variable mtime : option Time.
(** tokio's limit on the permits of a semaphore ([Semaphore::MAX_PERMITS], [usize::MAX >> 3]); a bounded channel has
    one permit for each place. *)
Variable MAX_PERMITS : Z.

(** Everything [run] has started. [rn_collector] is the period of the collector of system metrics;
    the web interface has its configuration and the path it saves the settings to. *)
Record Running := mkRunning {
  rn_watcher : option (ConfigWatcher (Time:=Time));
  rn_logs : LogPillar;
  rn_metrics : option MetricPillar;
  rn_bridge : option (ClientBridge * (string * Z * string));
  rn_traces : option TracePillar;
  rn_transport : TransportVariant;
  rn_poller : option DiagnosticsPoller;
  rn_collector : option Z;
  rn_web : option (WebConfig * string * WebState);
}.

(** The poller runs only with MQTT, with valid targets. *)
Definition start_poller (s : AppSettings) (net_id : AmsNetId) : option DiagnosticsPoller :=
  if dg_enabled (st_diagnostics s) && negb (length (dg_targets (st_diagnostics s)) =? 0)%nat then
    match rc_transport (st_receiver s) with
    | TransportMqtt mqtt =>
      let '(broker_host, broker_port) := parse_broker_addr (mq_broker mqtt) in
      match build_poller_config names_iter broker_host broker_port mqtt net_id (dg_targets (st_diagnostics s)) with
      | Ok cfg => Some (DiagnosticsPoller_new now cfg (channel 256))
      | _ => None
      end
    | _ => None
    end
  else None.

(** The bridge needs the channel of metrics and a watched configuration. *)
Definition start_bridge (s : AppSettings) (watched : bool) (metrics : option MetricPillar)
    : option (ClientBridge * (string * Z * string)) :=
  match metrics with
  | Some m => if watched then Some (mkBridge (mp_entries m) ∅ ∅, bridge_broker s) else None
  | None => None
  end.

Definition start_web (t : TcOtelService) (variant : TransportVariant) (bridge : bool) : option (WebConfig * string * WebState) :=
  let s := to_settings t in
  if wb_enabled (st_web s) then
    Some (st_web s, default "/etc/tc-otel/config.json" (to_config_path t),
          mkWebState (mkWebStats 0 0 0 0 0) (conn_manager_of s variant) TaskRegistry_new SymbolStore_new
            (CycleTimeTracker_new (Z.to_nat (mc_cycle_time_window (st_metrics s)))) (sc_name (st_service s))
            (to_current_settings t) false (if bridge then Some ∅ else None))
  else None.

(** [run] up to the wait for the signal. [mpsc::channel] panics on a capacity of zero and, as [Semaphore::new] of the connection
    manager does, on more permits than a semaphore can have. *)
Definition service_start (t : TcOtelService) : outcome AdsError Running :=
  let s := to_settings t in
  if (sc_channel_capacity (st_service s) =? 0) || (MAX_PERMITS <? sc_channel_capacity (st_service s)) then Panic
  else
    (net_id <-- AmsNetId_from_str_ref (rc_ams_net_id (st_receiver s)) ;;
     let cap := Z.to_nat (sc_channel_capacity (st_service s)) in
     let watched := match to_config_path t with Some _ => true | None => false end in
     let resolver := scope_resolver_of s net_id in
     let metrics := if mc_export_enabled (st_metrics s) then Some (MetricPillar_new env_var s watched resolver) else None in
     let bridge := start_bridge s watched metrics in
     let traces := if tc_enabled (st_traces s) then Some (TracePillar_new env_var s resolver host_name) else None in
     let logs := LogPillar_new env_var s watched resolver host_name (tp_spans <$> traces) in
     variant <-- start_transport s (channel cap) (mp_entries <$> metrics) (channel cap) (channel cap) ;;
     if MAX_PERMITS <? rc_max_connections (st_receiver s) then Panic
     else
     Ok (mkRunning (if watched then Some (ConfigWatcher_new s mtime) else None)
           logs metrics bridge traces variant (start_poller s net_id)
           (if mc_export_enabled (st_metrics s) then Some (mc_export_flush_interval_ms (st_metrics s)) else None)
           (start_web t variant (match bridge with Some _ => true | None => false end))))%rust.

(** main.rs. *)
Inductive MainError :=
| LoadFailed (config : string) (e : CoreError)
| BadDirective (directive : string)
| StartFailed (e : AdsError).

(** The filters of the log, one for each crate. *)
Definition directives (level : string) : list string :=
  map (fun crate => crate +:+ "=" +:+ level) ["tc_otel"; "tc_otel_ads"; "tc_otel_core"; "tc_otel_service"].

(** The settings are loaded, the level of the log is set, and the service is started with the file watched. The file system, serde
    and the parser of a directive are parameters. *)
Definition main_start (read_to_string : string -> string + string) (from_json : string -> string + AppSettings)
    (directive_ok : string -> bool) (config : string) : outcome MainError Running :=
  match load_settings read_to_string from_json config with
  | Ok s =>
    match List.find (fun d => negb (directive_ok d)) (directives (lc_log_level (st_logging s))) with
    | Some d => Err (BadDirective d)
    | None =>
      match service_start (with_config_watch config (TcOtelService_new s)) with
      | Ok r => Ok r
      | Err e => Err (StartFailed e)
      | Panic => Panic
      | OutOfFuel => OutOfFuel
      end
    end
  | Err e => Err (LoadFailed config e)
  | Panic => Panic
  | OutOfFuel => OutOfFuel
  end.

(** ** Sound settings start a service that works *)

Context `{!MpscLaws M} `{!ReceiverLaws M RC}.

(** [start] when nothing stands in its way. *)
Lemma service_start_ok t net : sc_channel_capacity (st_service (to_settings t)) <> 0 ->
  sc_channel_capacity (st_service (to_settings t)) <= MAX_PERMITS -> rc_max_connections (st_receiver (to_settings t)) <= MAX_PERMITS ->
  AmsNetId_from_str_ref (rc_ams_net_id (st_receiver (to_settings t))) = Ok net ->
  exists r router, service_start t = Ok r /\
    let s := to_settings t in
    let watched := match to_config_path t with Some _ => true | None => false end in
    rn_transport r = transport_variant s net router /\
    ar_ads_port router = rc_ads_port (st_receiver s) /\ ar_metric_tx router = (mp_entries <$> rn_metrics r) /\
    rn_metrics r = (if mc_export_enabled (st_metrics s)
                    then Some (MetricPillar_new env_var s watched (scope_resolver_of s net)) else None) /\
    rn_traces r = (if tc_enabled (st_traces s)
                   then Some (TracePillar_new env_var s (scope_resolver_of s net) host_name) else None) /\
    rn_logs r = LogPillar_new env_var s watched (scope_resolver_of s net) host_name (tp_spans <$> rn_traces r) /\
    rn_bridge r = start_bridge s watched (rn_metrics r) /\ rn_poller r = start_poller s net /\
    rn_web r = start_web t (rn_transport r) (match rn_bridge r with Some _ => true | None => false end) /\
    rn_watcher r = (if watched then Some (ConfigWatcher_new s mtime) else None) /\
    rn_collector r = (if mc_export_enabled (st_metrics s) then Some (mc_export_flush_interval_ms (st_metrics s)) else None).
Proof.
  intros Hcap Hmax Hconn Hnet. unfold service_start.
  rewrite (proj2 (Z.eqb_neq _ _) Hcap), (proj2 (Z.ltb_ge _ _) Hmax), Hnet. cbn [orb outcome_bind].
  unfold start_transport. rewrite Hnet. cbn [outcome_bind]. rewrite (proj2 (Z.ltb_ge _ _) Hconn).
  eexists _, _. split; [done|]. by split_and!.
Qed.

(** The worker of traces needs an endpoint and a flush interval. *)
Lemma trace_worker_alive s resolver :
  et_alive (tp_task (TracePillar_new env_var s resolver host_name)) = true <->
  te_endpoint (tc_export (st_traces s)) <> None /\ te_flush_interval_ms (tc_export (st_traces s)) <> 0.
Proof.
  simpl. unfold TraceDispatcher_new. destruct (te_endpoint _); [|naive_solver].
  destruct (spawn_fresh (R:=TraceRecord) TRACE_INPUT_CAPACITY MAX_INFLIGHT_TRACE_FLUSHES (trace_worker_config env_var s) false) as (Ha & _).
  rewrite Ha. simpl. rewrite negb_true_iff, Z.eqb_neq. naive_solver.
Qed.

(** The targets of the poller are those of the settings, if all have a Net ID. *)
Lemma build_poller_targets_ok l :
  (forall l', build_poller_targets names_iter l = Ok l' ->
     Forall2 (fun c t => AmsNetId_from_str_ref (dt_ams_net_id c) = Ok (tg_net_id t) /\
       tg_poll_interval t = dt_poll_interval_ms c /\ tg_task_ports t = dt_task_ports c) l l') /\
  (Forall (fun c => exists n, AmsNetId_from_str_ref (dt_ams_net_id c) = Ok n) l -> exists l', build_poller_targets names_iter l = Ok l').
Proof.
  induction l as [|c l [IH1 IH2]]; cbn [build_poller_targets].
  { split; [by intros l' [= <-]|by exists []]. }
  unfold build_poller_target. destruct (AmsNetId_from_str_ref (dt_ams_net_id c)) as [n| | |] eqn:Hn; cbn [outcome_bind].
  - split.
    + intros l'. destruct (build_poller_targets names_iter l) as [l2| | |]; try done. cbn [outcome_bind]. intros [= <-].
      constructor; [done|by apply IH1].
    + intros [_ Hl]%Forall_cons_1. destruct (IH2 Hl) as [l' ->]. by eexists.
  - split; [done|]. intros [[n Hx] _]%Forall_cons_1. congruence.
  - split; [done|]. intros [[n Hx] _]%Forall_cons_1. congruence.
  - split; [done|]. intros [[n Hx] _]%Forall_cons_1. congruence.
Qed.

(** When the poller runs: diagnostics are enabled with targets that all have a Net ID, over MQTT. *)
Definition polls (s : AppSettings) (mqtt : MqttTransportConfig) : Prop :=
  dg_enabled (st_diagnostics s) = true /\ dg_targets (st_diagnostics s) <> [] /\ rc_transport (st_receiver s) = TransportMqtt mqtt /\
  Forall (fun c => exists n, AmsNetId_from_str_ref (dt_ams_net_id c) = Ok n) (dg_targets (st_diagnostics s)).

(** The poller of the settings: on their broker, as a client of its own, for their targets. *)
Definition polls_for (s : AppSettings) (net : AmsNetId) (mqtt : MqttTransportConfig) (q : DiagnosticsPoller) : Prop :=
  let cfg := dp_config q in
  (pc_broker_host cfg, pc_broker_port cfg) = parse_broker_addr (mq_broker mqtt) /\
  pc_client_id cfg = mq_client_id mqtt +:+ "-diag" /\ pc_topic_prefix cfg = mq_topic_prefix mqtt /\ pc_local_net_id cfg = net /\
  Forall2 (fun c t => AmsNetId_from_str_ref (dt_ams_net_id c) = Ok (tg_net_id t) /\
    tg_poll_interval t = dt_poll_interval_ms c /\ tg_task_ports t = dt_task_ports c) (dg_targets (st_diagnostics s)) (pc_targets cfg).

Lemma start_poller_iff s net :
  match start_poller s net with
  | Some q => exists mqtt, polls s mqtt /\ polls_for s net mqtt q
  | None => forall mqtt, ~ polls s mqtt
  end.
Proof.
  destruct (build_poller_targets_ok (dg_targets (st_diagnostics s))) as [H1 H2]. unfold start_poller, polls, polls_for.
  destruct (dg_enabled (st_diagnostics s)); cbn [andb]; [|by intros mqtt (? & _)].
  destruct (dg_targets (st_diagnostics s)) as [|c l] eqn:Hl; [by intros mqtt (_ & ? & _)|]. cbn [length Nat.eqb negb].
  destruct (rc_transport (st_receiver s)) as [x|mqtt|x]; [by intros mqtt (_ & _ & ? & _)| |by intros mqtt (_ & _ & ? & _)].
  destruct (parse_broker_addr (mq_broker mqtt)) as [host port] eqn:Hb. unfold build_poller_config.
  destruct (build_poller_targets names_iter (c :: l)) as [l'| | |]; cbn [outcome_bind];
    [|intros m (_ & _ & _ & Hf); by destruct (H2 Hf)..].
  exists mqtt. specialize (H1 _ eq_refl). split; [|rewrite Hb; by split_and!]. split_and!; try done.
  clear H2 Hl. induction H1 as [|c' t l1 l2 (Hc & _) _ IH]; constructor; [by eexists|done].
Qed.

(** C34: Sound settings start a working service. When the validation accepts the settings, the Net ID is well formed, and neither the capacity of the channels nor the number of
    connections is above what a semaphore of tokio can have, [run] starts without an
    error or a panic. Its transport is the one of the settings, with a router whose metrics go to the metric pillar.
    The workers of logs, and of metrics when their export is enabled, are alive; the one of traces, when they are enabled, exactly
    when it has an endpoint and a flush interval that is not zero; logs are enriched from the span dispatcher of the trace pillar, if there is one;
    all pillars complete their records with the same host and service name and ask the same resolver, which looks symbols up exactly with a local router. Each
    optional part runs exactly when it is configured: the metric pillar and the collector of system metrics with the export of metrics, at the period of its flushes; the client
    bridge with the export of metrics and a watched file, sending to the metric pillar; the trace pillar with traces; the watcher
    with a watched file, from the settings of the start; the poller with diagnostics, their targets and MQTT, for these targets and on that broker; and the web interface when it is enabled,
    showing the current settings with no restart pending, and symbols exactly if the bridge runs. *)
Theorem sound_settings_start t net :
  let s := to_settings t in
  AppSettings_validate s = Ok tt -> wf_net net -> rc_ams_net_id (st_receiver s) = AmsNetId_to_string net ->
  sc_channel_capacity (st_service s) <= MAX_PERMITS -> rc_max_connections (st_receiver s) <= MAX_PERMITS ->
  exists r, service_start t = Ok r /\
    let d := pl_dispatcher (lp_pipe (rn_logs r)) in
    (exists router, rn_transport r = transport_variant s net router /\ ar_ads_port router = rc_ads_port (st_receiver s) /\
       ar_metric_tx router = (mp_entries <$> rn_metrics r)) /\
    et_alive (lp_task (rn_logs r)) = true /\
    pl_spans (lp_pipe (rn_logs r)) = tp_spans <$> rn_traces r /\
    ld_host_name d = host_name /\ ld_default_service_name d = sc_name (st_service s) /\
    (sr_lookup (ld_scope_resolver d) = LookupNoop <-> forall lr, rc_transport (st_receiver s) <> TransportLocalRouter lr) /\
    match rn_metrics r with
    | Some m => mc_export_enabled (st_metrics s) = true /\ et_alive (mp_task m) = true /\ mp_resolver m = ld_scope_resolver d /\
        rn_collector r = Some (mc_export_flush_interval_ms (st_metrics s)) /\
        match rn_bridge r with
        | Some (b, broker) => is_Some (to_config_path t) /\ cb_metric_tx b = mp_entries m /\ broker = bridge_broker s
        | None => to_config_path t = None
        end
    | None => mc_export_enabled (st_metrics s) = false /\ rn_bridge r = None /\ rn_collector r = None
    end /\
    match rn_traces r with
    | Some p => tc_enabled (st_traces s) = true /\
        (et_alive (tp_task p) = true <->
           te_endpoint (tc_export (st_traces s)) <> None /\ te_flush_interval_ms (tc_export (st_traces s)) <> 0) /\
        tp_resolver p = ld_scope_resolver d /\ sd_host_name (tp_spans p) = host_name /\
        sd_service_name (tp_spans p) = sc_name (st_service s)
    | None => tc_enabled (st_traces s) = false
    end /\
    match rn_watcher r with
    | Some w => is_Some (to_config_path t) /\ cw_published w = s /\ cw_last_modified w = mtime /\ cw_stopped w = false
    | None => to_config_path t = None
    end /\
    match rn_poller r with
    | Some q => exists mqtt, polls s mqtt /\ polls_for s net mqtt q
    | None => forall mqtt, ~ polls s mqtt
    end /\
    match rn_web r with
    | Some (cfg, path, w) => wb_enabled (st_web s) = true /\ cfg = st_web s /\ (forall p, to_config_path t = Some p -> path = p) /\
        ws_current_settings w = to_current_settings t /\ ws_restart_pending w = false /\
        (is_Some (ws_cache w) <-> is_Some (rn_bridge r))
    | None => wb_enabled (st_web s) = false
    end.
Proof.
  intros s Hval Hnet Hid Hmax Hconn. apply validate_sound in Hval as [_ _ _ _ Hpos _ _].
  apply Forall_cons_1 in Hpos as [_ Hpos]. apply Forall_cons_1 in Hpos as [Hflush Hpos].
  apply Forall_cons_1 in Hpos as [_ Hpos]. apply Forall_cons_1 in Hpos as [Hcap Hpos].
  apply Forall_cons_1 in Hpos as [_ Hpos]. apply Forall_cons_1 in Hpos as [_ Hpos]. apply Forall_cons_1 in Hpos as [Hmf _].
  destruct (service_start_ok t net Hcap Hmax Hconn) as (r & router & Hr & Hv & Hport & Hmtx & Hm & Ht & Hl & Hb & Hp & Hw & Hwa & Hco).
  { fold s. rewrite Hid. by apply AmsNetId_from_to_string. }
  fold s in Hv, Hport, Hm, Ht, Hl, Hb, Hp, Hw, Hwa, Hco. exists r. split; [done|]. intros d. unfold d. rewrite Hl.
  set (sp := tp_spans <$> rn_traces r). set (watched := match to_config_path t with Some _ => true | None => false end) in *.
  split_and!; try done.
  - by exists router.
  - destruct (spawn_fresh (R:=LogRecord) (Z.to_nat (sc_channel_capacity (st_service s))) MAX_INFLIGHT_FLUSHES
      (log_worker_config env_var s) watched) as (Ha & _). simpl. rewrite Ha. simpl. by rewrite (proj2 (Z.eqb_neq _ _)).
  - simpl. unfold scope_resolver_of. destruct (rc_transport (st_receiver s)) as [|m|lr]; simpl; split; try done.
    intros Hx. by destruct (Hx lr).
  - rewrite Hb, Hco. destruct (mc_export_enabled (st_metrics s)); rewrite Hm; [|done]. split_and!; try done.
    + destruct (spawn_fresh (R:=MetricRecord) (Z.to_nat (sc_channel_capacity (st_service s))) MAX_INFLIGHT_FLUSHES
        (metric_worker_config env_var s) watched) as (Ha & _). simpl. rewrite Ha. simpl. by rewrite (proj2 (Z.eqb_neq _ _)).
    + unfold start_bridge, watched. by destruct (to_config_path t).
  - destruct (tc_enabled (st_traces s)); rewrite Ht; [|done]. split_and!; try done. apply trace_worker_alive.
  - rewrite Hwa. unfold watched. by destruct (to_config_path t).
  - rewrite Hp. apply start_poller_iff.
  - rewrite Hw. unfold start_web. fold s. destruct (wb_enabled (st_web s)); [|done]. split_and!; try done.
    + intros p ->. done.
    + simpl. destruct (rn_bridge r); [|done]. by split; eexists.
Qed.

(** The validation accepts a capacity that tokio does not: the service panics. *)
Theorem large_capacity_panics t :
  MAX_PERMITS < sc_channel_capacity (st_service (to_settings t)) -> service_start t = Panic.
Proof. intros Hc. unfold service_start. rewrite (proj2 (Z.ltb_lt _ _) Hc). by rewrite orb_true_r. Qed.

(** The settings that main loads are not validated: a capacity of zero in the file, which the validation
    refuses, makes the service panic. *)
Theorem unvalidated_capacity_panics read_to_string from_json directive_ok config s :
  load_settings read_to_string from_json config = Ok s -> (forall d, directive_ok d = true) ->
  sc_channel_capacity (st_service s) = 0 ->
  main_start read_to_string from_json directive_ok config = Panic /\ AppSettings_validate s <> Ok tt.
Proof.
  intros Hl Hd Hc. split.
  - unfold main_start, service_start. rewrite Hl. simpl. rewrite !Hd. simpl. by rewrite Hc.
  - intros Hv. apply validate_sound in Hv as [_ _ _ _ Hpos _ _]. repeat (apply Forall_cons_1 in Hpos as [? Hpos]). done.
Qed.

(** A file with sound settings starts the service with them: no other error is left than a filter that is refused. *)
Theorem loaded_settings_start read_to_string from_json directive_ok config s net :
  load_settings read_to_string from_json config = Ok s -> AppSettings_validate s = Ok tt -> wf_net net ->
  rc_ams_net_id (st_receiver s) = AmsNetId_to_string net ->
  sc_channel_capacity (st_service s) <= MAX_PERMITS -> rc_max_connections (st_receiver s) <= MAX_PERMITS ->
  match main_start read_to_string from_json directive_ok config with
  | Ok r => service_start (with_config_watch config (TcOtelService_new s)) = Ok r /\
      Forall (fun d => directive_ok d = true) (directives (lc_log_level (st_logging s)))
  | Err (BadDirective d) => directive_ok d = false /\ d ∈ directives (lc_log_level (st_logging s))
  | _ => False
  end.
Proof.
  intros Hl Hv Hnet Hid Hmax Hconn. unfold main_start. rewrite Hl. set (t := with_config_watch config (TcOtelService_new s)).
  apply validate_sound in Hv as [_ _ _ _ Hpos _ _]. do 3 apply Forall_cons_1 in Hpos as [_ Hpos]. apply Forall_cons_1 in Hpos as [Hcap _].
  destruct (service_start_ok t net Hcap Hmax Hconn) as (r & router & Hr & _); [simpl; rewrite Hid; by apply AmsNetId_from_to_string|].
  destruct (List.find _ _) as [d|] eqn:Hf.
  - apply List.find_some in Hf as [Hin Hd]. split; [by apply negb_true_iff|by apply list_elem_of_In].
  - rewrite Hr. split; [done|]. apply Forall_forall. intros d Hd%list_elem_of_In. apply (List.find_none _ _ Hf) in Hd.
    by apply negb_false_iff.
Qed.

End Run.
