(* ===== verification/Witnesses.v ===== *)
(** * Witnesses

    Each theorem with hypotheses is applied here to concrete data on which
    they hold: a PLC with Net ID 5.24.37.144.1.1 that registers a task, logs,
    opens and closes spans and pushes diagnostics, and a client that connects
    and disconnects. Third-party code is instantiated by the simple instances
    of [External]. *)

From S2P Require Import Prelude.
From S2P Require Import Text.
From S2P Require Import External.
From S2P Require Import Ams.
From S2P Require Import Models.
From S2P Require Import Protocol.
From S2P Require Import Reader.
From S2P Require Import Parser.
From S2P Require Import Wire.
From S2P Require Import Batch.
From S2P Require Import Net.
From S2P Require Import Registry.
From S2P Require Import Diagnostics.
From S2P Require Import PushDecode.
From S2P Require Import Router.
From S2P Require Import SpanDispatcher.
From S2P Require Import SpanLife.
From S2P Require Import Symbol.
From S2P Require Import Formatter.
From S2P Require Import ConnectionManager.

Import SimpleExternal.

(** ** Concrete data *)

Definition plc : AmsNetId := mkNetId [5; 24; 37; 144; 1; 1].
Definition plc2 : AmsNetId := mkNetId [5; 24; 37; 145; 1; 1].
Definition host : AmsNetId := mkNetId [10; 0; 0; 7; 1; 1].

Definition write_header : AmsHeader := mkHeader host 16150 plc 851 3 4 0 0 77.

Definition t_now : DateTime := (1700000000, 0).

Lemma wf_plc : wf_net plc.
Proof. split; [done|]. unfold is_bytes, is_u8. repeat constructor; lia. Qed.

Lemma wf_host : wf_net host.
Proof. split; [done|]. unfold is_bytes, is_u8. repeat constructor; lia. Qed.

Lemma wf_write_header : wf_header write_header.
Proof. split; try apply wf_plc; try apply wf_host; by unfold in_width. Qed.

(** ** AMS frames *)

Lemma ams_header_roundtrip_witness :
  AmsHeader_parse (AmsHeader_serialize write_header ++ [1; 2; 3]) = Ok write_header /\
  length (AmsHeader_serialize write_header) = 32%nat.
Proof. apply (ams_header_roundtrip write_header [1; 2; 3]). apply wf_write_header. Defined.

Lemma ams_header_parse_total_witness :
  exists h, AmsHeader_parse (replicate 40 7) = Ok h /\ wf_header h /\
            AmsHeader_serialize h = take 32 (replicate 40 7).
Proof.
  apply (ams_header_parse_total (replicate 40 7)). unfold is_bytes, is_u8.
  repeat constructor; lia.
Defined.

Lemma ams_frame_transports_agree_witness :
  AmsTcpFrame_parse (AmsFrame_encode_with_tcp_header (mkFrame write_header [9; 8])) =
    Ok (mkTcpFrame (mkTcp 0 34) write_header [9; 8]) /\
  AmsFrame_decode (drop 6 (AmsFrame_encode_with_tcp_header (mkFrame write_header [9; 8]))) =
    Ok (mkFrame write_header [9; 8]).
Proof.
  apply (ams_frame_transports_agree (mkFrame write_header [9; 8])).
  - apply wf_write_header.
  - by unfold in_width.
Defined.

Lemma ams_net_id_roundtrip_witness :
  AmsNetId_from_str_ref "5.24.37.144.1.1" = Ok plc.
Proof. apply (ams_net_id_roundtrip plc). apply wf_plc. Defined.

Lemma ads_write_request_roundtrip_witness :
  AdsWriteRequest_parse (take (12 + 3) (AdsWriteRequest_serialize (mkWrite 1 2 [7; 8; 9]))) =
  Ok (mkWrite 1 2 [7; 8; 9]).
Proof.
  apply (ads_write_request_roundtrip (mkWrite 1 2 [7; 8; 9]) 3); by unfold in_width.
Defined.

(** ** Models *)

Lemma service_instance_id_injective_witness :
  "App" = "App" /\ "5.24.37.144.1.1" = "5.24.37.144.1.1" /\ 851 = 851.
Proof.
  apply (service_instance_id_injective "App" "App" "5.24.37.144.1.1" "5.24.37.144.1.1" 851 851);
    first [done | lia | apply (bool_decide_unpack _); vm_compute; done].
Defined.

(** ** Buffers *)

Definition reg_msg : RegistrationMessage := mkRegistration 1 "PlcTask" "App" "Project" 2 851.

Definition log_msg : WireLog :=
  mkWireLog LInfo (FILETIME_EPOCH_DIFF + 16000000000000000) 750000000000000000 1 42 "hello {0}"
    "Main.Log" [WDint (-5); WTime 90061001] [(0, [("k", WString "v")])] [0; 0].

Definition event_msg : TraceWireEvent :=
  End [1; 2; 3; 4; 5; 6; 7; 8] 1 0 750000000000000000 1 "done".

Definition metric_msg : WireMetric :=
  mkWireMetric Gauge (FILETIME_EPOCH_DIFF + 16000000000000000) 1 42 0 "temp" "Temperature" "C"
    4621819117588971520 [] [] 0 0 [("unit", WUsint 3)] [].

Definition messages : list WireMsg := [MReg reg_msg; MLog log_msg; MEvent event_msg; MMetric metric_msg].

Ltac decided := first [ done | lia | by unfold in_width | by unfold in_swidth
  | split; first [done | lia | by vm_compute] | by vm_compute | eexists; by vm_compute ].

Lemma wf_messages : Forall (wf_msg t_now) messages.
Proof.
  repeat constructor; cbn; repeat constructor; decided.
Qed.

Lemma parse_all_batch_witness :
  parse_all t_now (encode_batch messages ++ [0; 0; 0]) =
  Ok (fold_left (collect t_now) messages empty_result).
Proof.
  apply (parse_all_batch t_now messages [0; 0; 0]); [apply wf_messages|done|by vm_compute].
Defined.

Lemma parse_all_keeps_prefix_witness :
  exists res, parse_all t_now (encode_batch messages ++ [2; 255; 255; 9; 9]) = Ok res /\
    extends (fold_left (collect t_now) messages empty_result) res.
Proof.
  apply (parse_all_keeps_prefix t_now messages [2; 255; 255; 9; 9]);
    [apply wf_messages|by left|by vm_compute].
Defined.

Lemma wf_resync : Forall (wf_msg t_now) ([MReg reg_msg] ++ MLog log_msg :: [MEvent event_msg]).
Proof.
  pose proof wf_messages as Hw. unfold messages in Hw.
  apply Forall_cons in Hw as [H1 Hw]. apply Forall_cons in Hw as [H2 Hw].
  apply Forall_cons in Hw as [H3 _]. by repeat constructor.
Qed.

Lemma parse_all_resyncs_witness :
  parse_all t_now (encode_batch [MReg reg_msg] ++ raw_v2 [99; 1; 2] ++
                   encode_batch (MLog log_msg :: [MEvent event_msg]) ++ []) =
  Ok (fold_left (collect t_now) ([MReg reg_msg] ++ MLog log_msg :: [MEvent event_msg])
        empty_result).
Proof.
  apply (parse_all_resyncs t_now [MReg reg_msg] [99; 1; 2] (MLog log_msg) [MEvent event_msg] []
    (ParseError "Invalid log level: 99"));
    [apply wf_resync|reflexivity|by unfold in_width|by vm_compute|reflexivity|by vm_compute].
Defined.

Lemma parse_all_resync_refused_witness :
  parse_all t_now (encode_batch [] ++ raw_v2 [99; 1; 2] ++ encode_batch (MEvent event_msg :: []) ++ []) =
  Err (ParseError "Invalid log level: 99").
Proof.
  apply (parse_all_resync_refused t_now [] [99; 1; 2] (MEvent event_msg) [] []
    (ParseError "Invalid log level: 99"));
    [|by unfold in_width|by vm_compute|reflexivity|by vm_compute|].
  - pose proof wf_resync as Hw. apply Forall_app in Hw as [_ Hw]. by apply Forall_cons in Hw as [_ Hw].
  - intros [Hc|Hc]; by apply Hc.
Defined.

Lemma parse_all_limits_witness :
  len (encode_batch messages) <= MAX_MESSAGE_SIZE /\
  result_limits (fold_left (collect t_now) messages empty_result).
Proof.
  apply (parse_all_limits t_now).
  - unfold is_bytes, is_u8. apply (bool_decide_unpack _). by vm_compute.
  - reflexivity.
Defined.

(** ** Diagnostics *)

Definition ide : AmsNetId := mkNetId [10; 0; 0; 9; 1; 1].

Definition read_request : AmsHeader := mkHeader plc 200 ide 5000 2 4 12 0 9.
Definition read_response : AmsHeader := mkHeader ide 5000 plc 200 2 5 12 0 9.
Definition other_request : AmsHeader := mkHeader plc2 200 ide 5000 2 4 12 0 10.
Definition request_payload : bytes := le_encode 4 IG_RT_SYSTEM ++ le_encode 4 IO_EXCEED_COUNTER ++ le_encode 4 4.
Definition response_payload : bytes := le_encode 4 0 ++ le_encode 4 4 ++ le_encode 4 7.
Definition pending_read : PendingRequest := mkPending 2 IG_RT_SYSTEM IO_EXCEED_COUNTER 4 200.

Lemma observer_correlates_witness :
  (feed 3000 read_response response_payload
     (feed_all (feed 1000 read_request request_payload (Observer_new 0)).2
        [(2000, other_request, request_payload)])).1 =
  decode_response read_response response_payload pending_read /\
  decode_response read_response response_payload pending_read = Ok (ExceedCounter 7).
Proof.
  split; [|by vm_compute].
  apply (observer_correlates (Observer_new 0) [(2000, other_request, request_payload)] 1000
    read_request request_payload pending_read 3000 read_response response_payload).
  - reflexivity.
  - reflexivity.
  - reflexivity.
  - cbn. lia.
  - repeat constructor. cbn. lia.
  - unfold PENDING_TTL. lia.
  - repeat constructor; by vm_compute.
  - by vm_compute.
  - reflexivity.
Defined.

Lemma observer_forgets_witness :
  fresh_since (50000 - PENDING_TTL - GC_INTERVAL)
    (feed_all (Observer_new 0) ([(1000, read_request, request_payload)] ++
                                [(50000, other_request, request_payload)])).
Proof.
  apply (observer_forgets 0 [(1000, read_request, request_payload)] 50000 other_request request_payload).
  simpl. lia.
Defined.

Definition diag_batch : DiagBatch :=
  mkDiagBatch 350 "PlcTask" 33 100 1 2 (-5) 10 1 9 5 1 0
    [mkDiagSample 1 9 (-5) 1; mkDiagSample 2 1 10 0].

Lemma wf_diag_batch_witness : wf_diag_batch diag_batch.
Proof.
  split; cbn; try (by unfold in_width); try lia.
  - split_and!; [by vm_compute|cbn; lia|by vm_compute].
  - repeat constructor; cbn; by unfold in_width.
  - unfold PUSH_BATCH_MAX_SAMPLES. lia.
Qed.

Lemma push_decoders_safe_witness :
  Forall (fun m => completes m /\ forall ev, m = Ok ev -> event_ok 128 ev)
    [decode_batch (encode_diag_batch diag_batch); decode_metric_batch (encode_diag_batch diag_batch);
     decode_metric_aggregate (encode_diag_batch diag_batch)].
Proof.
  apply (push_decoders_safe (encode_diag_batch diag_batch)).
  unfold is_bytes, is_u8. apply (bool_decide_unpack _). by vm_compute.
Defined.

Lemma decode_batch_encode_witness :
  decode_batch (take 200 (encode_diag_batch diag_batch)) = Ok (TaskDiagBatch diag_batch) /\
  decode_batch (take 100 (encode_diag_batch diag_batch)) = Err tt.
Proof.
  split.
  - apply (decode_batch_encode diag_batch 200 wf_diag_batch_witness).
  - apply (decode_batch_encode diag_batch 100 wf_diag_batch_witness).
Defined.

(** ** Registry and router *)

Definition task_md : TaskMetadata := mkMetadata "PlcTask" "App" "Project" 2 851.
Definition plc_key : RegistrationKey := mkKey "5.24.37.144.1.1" 851 1.

Lemma lookup_partial_spec_witness :
  lookup_partial map_to_list "5.24.37.144.1.1" None (Some 1) (register plc_key task_md ∅) =
  Some (plc_key, task_md).
Proof.
  apply (lookup_partial_spec map_to_list (fun _ => reflexivity _)); [done..|].
  intros k' Hk'. unfold lookup_task, register in Hk'. rewrite lookup_insert_is_Some in Hk'.
  destruct Hk' as [Hk'|[_ Hk']]; [done|]. rewrite lookup_empty in Hk'. by destruct Hk'.
Defined.

Definition router : AdsRouter :=
  mkRouter 16150 (mkSender 100 [] false) None (Some (mkSender 10 [] false))
    (Some (mkSender 10 [] false)) ∅.

Definition write_env : WriteEnv := mkWriteEnv t_now (fun _ => "id") "192.168.1.5".

Lemma dispatch_answers_witness :
  exists h resp, AmsHeader_parse (AmsHeader_serialize read_request) = Ok h /\
    dispatch write_env (AmsHeader_serialize read_request) None router = (Ok (Some resp), router) /\ answers h resp.
Proof.
  destruct (dispatch_answers write_env (AmsHeader_serialize read_request) None router) as (h & resp & r' & Hh & Hd & Ha & He).
  - unfold is_bytes, is_u8. apply (bool_decide_unpack _). by vm_compute.
  - exists h, resp. rewrite <- (He ltac:(left; vm_compute in Hh; injection Hh as <-; done)) at 2.
    split; [exact Hh|]. split; [exact Hd|exact Ha].
Defined.

Lemma dispatch_effect_only_own_writes_witness :
  (dispatch write_env (AmsHeader_serialize read_request) None router).2 = router.
Proof.
  apply (dispatch_effect_only_own_writes write_env (AmsHeader_serialize read_request) None router).
  intros h Hh. left. vm_compute in Hh. injection Hh as <-. done.
Defined.

Lemma own_write_router ig io data :
  in_width 32 ig -> in_width 32 io -> in_width 32 (len data) ->
  own_write router write_header (mkWrite ig io data).
Proof. intros. split; try done. apply wf_write_header. Qed.

Lemma own_log_write : own_write router write_header (mkWrite 1 0 (encode_batch messages ++ [])).
Proof. apply own_write_router; by vm_compute. Qed.

Lemma messages_fit : len (encode_batch messages ++ []) <= MAX_MESSAGE_SIZE.
Proof. by vm_compute. Qed.

Lemma dispatch_log_batch_witness :
  ar_registry (dispatch write_env (write_frame write_header
      (mkWrite 1 0 (encode_batch messages ++ []))) None router).2 =
  register_all (AmsNetId_to_string plc) 851
    (pr_registrations (fold_left (collect t_now) messages empty_result)) ∅.
Proof.
  pose proof (dispatch_log_batch write_env write_header 1 0 messages [] None router
    (mkSender 10 [] false)) as H.
  specialize (H own_log_write). specialize (H ltac:(done)). specialize (H wf_messages eq_refl).
  specialize (H messages_fit eq_refl). destruct H as [H _]. exact H.
Defined.

Lemma v2_entry_enriched_witness :
  le_task_name (log_entry_for t_now "" "5.24.37.144.1.1" 851 None
    (register_all "5.24.37.144.1.1" 851 ([] ++ reg_msg :: []) ∅) "id"
    (log_entry_of t_now (zeros 16) (zeros 8) log_msg)) = "PlcTask".
Proof.
  apply (v2_entry_enriched t_now "" "5.24.37.144.1.1" 851 None ∅ "id"
    (log_entry_of t_now (zeros 16) (zeros 8) log_msg) [] reg_msg []); [done|done|done|].
  intros reg' Hin. by apply elem_of_nil in Hin.
Defined.

Lemma own_push_write :
  own_write router write_header (mkWrite IG_PUSH_DIAG IO_PUSH_BATCH (encode_diag_batch diag_batch)).
Proof. apply own_write_router; by vm_compute. Qed.

Lemma dispatch_push_batch_witness :
  exists tx', ar_push_tx (dispatch write_env (write_frame write_header (mkWrite IG_PUSH_DIAG
      IO_PUSH_BATCH (encode_diag_batch diag_batch))) None router).2 = Some tx' /\
    queued tx' = [(plc, TaskDiagBatch diag_batch)].
Proof.
  pose proof (dispatch_push_batch write_env write_header diag_batch None router
    (mkSender 10 [] false)) as H.
  specialize (H own_push_write wf_diag_batch_witness eq_refl). destruct H as (tx' & H1 & H2 & _).
  exists tx'. split; [exact H1|exact H2].
Defined.

(** ** Spans *)

Definition span_env : SpanEnv := mkSpanEnv 1000 t_now None.
Definition later_env : SpanEnv := mkSpanEnv 90000 t_now None.

Definition span1 : bytes := [1; 1; 1; 1; 1; 1; 1; 1].
Definition span2 : bytes := [2; 2; 2; 2; 2; 2; 2; 2].
Definition trace1 : bytes := replicate 16 7.

(** A dispatcher over an unbounded channel. *)
#[local] Existing Instance unbounded_mpsc | 0.

Definition empty_tx : @Sender unbounded_mpsc TraceRecord := [].

Definition dispatcher : @SpanDispatcher simple_external unbounded_mpsc :=
  SpanDispatcher_new empty_tx 60000 100.

Definition begin1 (d : SpanDispatcher) : SpanDispatcher :=
  on_begin map_to_list span_env plc 350 1 750000000000000000 (zeros 8) 1 "root" None trace1 span1 "" d.

Lemma dispatcher_inv : span_inv dispatcher.
Proof. split; simpl; [intros k p|intros s k|rewrite map_size_empty; lia]; by rewrite lookup_empty. Qed.

Lemma iter_ok : forall m : gmap SpanKey PendingSpan, map_to_list m ≡ₚ map_to_list m.
Proof. done. Qed.

Lemma begin1_step : rtc (span_step map_to_list) dispatcher (begin1 dispatcher).
Proof.
  apply rtc_once. apply (step_event map_to_list span_env plc 350
    (Begin 0 1 0 750000000000000000 (zeros 8) 1 "root" None trace1 span1 "") dispatcher).
Qed.

Lemma span_inv_reachable_witness : span_inv (begin1 dispatcher).
Proof. apply (span_inv_reachable map_to_list iter_ok empty_tx 60000 100). apply begin1_step. Defined.

Lemma begin_joins_parent_witness :
  let d' := on_begin map_to_list span_env plc 350 1 750000000000000000 span1 1 "child" None (zeros 16)
              span2 "" (begin1 dispatcher) in
  exists p, pending_by_span_id span2 d' = Some p /\
  match pending_by_span_id span1 (begin1 dispatcher) with
  | Some pp => ps_trace_id p = ps_trace_id pp /\ ps_parent_span_id p = Some span1 /\
               ps_attrs p = ∅ /\ sd_orphans d' = sd_orphans (begin1 dispatcher)
  | None => ps_trace_id p = zeros 16 /\ ps_parent_span_id p = None /\
            is_Some (ps_attrs p !! "TCOTEL.orphan_reason") /\
            sd_orphans d' = wrap 64 (sd_orphans (begin1 dispatcher) + 1)
  end.
Proof.
  apply (begin_joins_parent map_to_list span_env plc 350 1 750000000000000000 span1 1 "child"
    (zeros 16) span2 "" (begin1 dispatcher)); [|done].
  apply on_begin_inv; [apply iter_ok|apply dispatcher_inv].
Defined.

Definition mid : list span_input :=
  [InEvent (span_env, plc, 350, Attr span1 1 0 0 "k" (AI64 4));
   InEvent (span_env, plc2, 350, Begin 0 1 0 750000000000000000 (zeros 8) 1 "other" None trace1 span2 "");
   InEvent (span_env, plc, 350, Event span1 1 0 0 "tick" [("n", AI64 1)]);
   InSweep span_env;
   InEvent (span_env, plc2, 350, End span2 1 0 0 1 "");
   InEvent (span_env, plc, 350, Attr span1 1 0 0 "k" (AI64 5))].

Lemma span_lifecycle_witness :
  let d2 := span_run map_to_list mid (begin1 dispatcher) in
  let d3 := on_event map_to_list later_env plc 350 (End span1 1 0 0 1 "ok") d2 in
  exists r, sd_trace_tx d3 = (try_send (sd_trace_tx d2) r).1 /\
    pending_by_span_id span1 d3 = None /\
    tr_span_attributes r !! "k" = Some (json_int 5) /\
    tr_events r = [mkTraceEventRecord (env_utc span_env) "tick" {["n" := json_int 1]}].
Proof.
  destruct (span_lifecycle map_to_list iter_ok span_env plc 350 1 750000000000000000 (zeros 8) 1 "root"
    None trace1 span1 "" dispatcher mid later_env plc 350 1 0 0 1 "ok")
    as (r & Htx & Hc & _ & _ & _ & _ & _ & _ & _ & _ & _ & _ & _ & He & Ha).
  - apply dispatcher_inv.
  - intros k [p Hp]. simpl in Hp. by rewrite lookup_empty in Hp.
  - by repeat constructor.
  - right. simpl. rewrite map_size_empty. lia.
  - exists r. split; [exact Htx|]. split; [exact Hc|].
    split; [rewrite Ha; reflexivity|rewrite He; reflexivity].
Defined.

Lemma sweep_exact_witness :
  sd_pending (sweep_timed_out map_to_list later_env (begin1 dispatcher)) =
  filter (fun kv => env_instant later_env < ps_deadline kv.2) (sd_pending (begin1 dispatcher)).
Proof.
  apply (sweep_exact map_to_list iter_ok (MpscLaws0 := unbounded_mpsc_laws) later_env
    (begin1 dispatcher)).
  done.
Defined.

Definition inputs : list span_input :=
  InEvent (span_env, plc, 350,
           Begin 0 1 0 750000000000000000 (zeros 8) 1 "root" None trace1 span1 "") ::
  mid ++ [InSweep later_env].

Lemma spans_conserved_witness :
  let d := span_run map_to_list inputs dispatcher in
  (length (queued (sd_trace_tx d)) + pending_count d = length (queued empty_tx) + begun inputs)%nat.
Proof.
  apply (spans_conserved map_to_list iter_ok (MpscLaws0 := unbounded_mpsc_laws)
    (fun tx a => eq_refl) empty_tx 60000 100 inputs).
Defined.

Lemma shared_span_id_misdirects_witness :
  let d1 := on_begin map_to_list span_env plc 350 1 0 (zeros 8) 1 "a" None trace1 span1 "" dispatcher in
  let d2 := on_begin map_to_list span_env plc2 350 1 0 (zeros 8) 1 "b" None trace1 span1 "" d1 in
  let d3 := on_event map_to_list span_env plc 350 (End span1 1 0 0 1 "") d2 in
  is_Some (sd_pending d2 !! mkSpanKey plc2 span1) /\ sd_pending d3 !! mkSpanKey plc2 span1 = None /\
  is_Some (sd_pending d3 !! mkSpanKey plc span1) /\ pending_by_span_id span1 d3 = None.
Proof.
  apply (shared_span_id_misdirects map_to_list iter_ok span_env plc plc2 350 1 0 (zeros 8) 1 "a" None
    trace1 span1 "" 350 1 0 (zeros 8) 1 "b" None trace1 "" 1 0 0 1 "" dispatcher).
  - apply dispatcher_inv.
  - done.
  - simpl. rewrite map_size_empty. lia.
Defined.

Lemma traceparent_roundtrip_witness :
  parse_w3c_traceparent
    ("00" +:+ "-" +:+ hex_encode trace1 +:+ "-" +:+ hex_encode span1 +:+ "-" +:+ "01") =
  Some (trace1, span1).
Proof.
  apply (traceparent_roundtrip trace1 span1 "01"); try done.
  - unfold is_bytes, is_u8, trace1. repeat constructor; lia.
  - unfold is_bytes, is_u8, span1. repeat constructor; lia.
  - apply (bool_decide_unpack _). by vm_compute.
Defined.

Lemma dc_time_exact_witness :
  dc_time_to_datetime t_now 750000000123456789 =
  default t_now (from_timestamp (946684800 + 750000000123456789 / 1000000000)
                   (750000000123456789 mod 1000000000)).
Proof. apply (dc_time_exact t_now 750000000123456789); unfold DC_EPOCH_OFFSET_NS; lia. Defined.

(** ** Connections *)

Definition conn_config : ConnectionConfig := ConnectionConfig_default.
Definition client : IpAddr := V4 192 168 1 20.

Lemma conn_fits : Z.of_nat (cc_max_connections conn_config) < 2 ^ 64.
Proof. by vm_compute. Qed.

Definition sys0 : System := sys_init conn_config 0.

(** The state after [n] actions of the one thread 0. *)
Fixpoint run_thread (n : nat) (s : System) : System :=
  match n with
  | O => s
  | S n =>
    match sys_threads s !! 0%nat with
    | Some (ip, ph) =>
      let '(m', ph') := act (sys_clock s) ip ph (sys_mgr s) in
      run_thread n (mkSystem m' (sys_clock s) (<[0%nat := (ip, ph')]> (sys_threads s))
                      (log_action (sys_clock s) ip ph ph' (sys_log s)))
    | None => s
    end
  end.

Definition arrived : System :=
  mkSystem (sys_mgr sys0) 0 (<[0%nat := (client, Start)]> (sys_threads sys0)) (sys_log sys0).

Lemma run_thread_steps n s : rtc sys_step s (run_thread n s).
Proof.
  revert s. induction n as [|n IH]; intros s; [done|]. cbn [run_thread].
  destruct (sys_threads s !! 0%nat) as [[ip ph]|] eqn:Ht; [|done].
  destruct (act (sys_clock s) ip ph (sys_mgr s)) as [m' ph'] eqn:Ha.
  eapply rtc_l; [by eapply sys_act|]. apply IH.
Qed.

(** The client connects with five actions and is gone after eight. *)
Lemma reached n : rtc sys_step sys0 (run_thread n arrived).
Proof. eapply rtc_l; [by apply (sys_arrive sys0 0 client)|]. apply run_thread_steps. Qed.

Lemma connection_limits_witness :
  (0 <= active_connections (sys_mgr (run_thread 5 arrived)) <= 100) /\
  (connections_for_ip client (sys_mgr (run_thread 5 arrived)) <= 10)%nat /\
  connections_for_ip client (sys_mgr (run_thread 5 arrived)) =
  count_threads (recorded client) (sys_threads (run_thread 5 arrived)).
Proof.
  apply (connection_limits conn_config conn_fits 0 (run_thread 5 arrived) client). apply reached.
Defined.

Lemma connections_drain_witness :
  available_permits (cm_semaphore (sys_mgr (run_thread 8 arrived))) = 100%nat /\
  active_connections (sys_mgr (run_thread 8 arrived)) = 0 /\
  forall ip, connections_for_ip ip (sys_mgr (run_thread 8 arrived)) = 0%nat.
Proof.
  apply (connections_drain conn_config conn_fits 0 (run_thread 8 arrived)); [apply reached|].
  intros t x Hx. apply elem_of_map_to_list in Hx.
  assert (Hall : Forall (fun kv => finished kv.2 = true)
    (map_to_list (sys_threads (run_thread 8 arrived)))) by by vm_compute; repeat constructor.
  rewrite Forall_forall in Hall. by apply (Hall (t, x)).
Defined.

Lemma rate_limit_holds_witness :
  (length (List.filter (fun t => (0 <=? t) && (t <? 0 + 1000))%Z
     (times client (sys_log (run_thread 5 arrived)))) <= 10)%nat.
Proof.
  apply (rate_limit_holds conn_config conn_fits 0 (run_thread 5 arrived) client 0). apply reached.
Defined.

Lemma ip_entries_only_grow_witness :
  dom (cm_ip_states (sys_mgr (run_thread 5 arrived))) ⊆
  dom (cm_ip_states (sys_mgr (run_thread 6 arrived))).
Proof.
  apply (ip_entries_only_grow conn_config conn_fits 0 (run_thread 5 arrived));
    [by vm_compute; lia|by vm_compute; lia|apply reached|].
  apply (sys_act (run_thread 5 arrived) 0 client Connected
    (release_ip client (sys_mgr (run_thread 5 arrived))) Closing); done.
Defined.

(** ** Symbols and message templates *)

Definition motor : AdsSymbolEntry := mkSymbol 16448 384000 1 33 8 "MAIN.bMotor" "BOOL" "motor on".

Lemma motor_wf : wf_symbol motor.
Proof.
  split; try (vm_compute; split; congruence).
  split_and!; (split; [reflexivity|apply (bool_decide_unpack _); vm_compute; done]).
Qed.

Lemma symbol_table_roundtrip_witness :
  parse_symbol_table (mjoin (map AdsSymbolEntry_serialize [motor; motor]) ++ [0; 0]) =
  Ok [motor; motor].
Proof.
  apply (symbol_table_roundtrip [motor; motor] [0; 0]); [|simpl; lia].
  constructor; [apply motor_wf|]. constructor; [apply motor_wf|constructor].
Defined.

Lemma parse_symbol_table_safe_witness : completes (parse_symbol_table [1; 2; 3; 4; 5]).
Proof.
  apply (parse_symbol_table_safe [1; 2; 3; 4; 5]).
  repeat constructor; unfold is_u8; lia.
Defined.

Definition template : list segment :=
  [Lit "axis "; Hole "axis"; Lit " at "; Hole "0"; Lit ": "; Hole "axis"; Hole "missing"].

Lemma format_renders_witness :
  format_with_context (segments_text template +:+ " {") {[1%nat := json_int 7]} ∅ =
  Ok "axis 7 at 7: 7{missing} {".
Proof.
  rewrite (format_renders template " {" {[1%nat := json_int 7]} ∅).
  - reflexivity.
  - repeat constructor; apply (bool_decide_unpack _); vm_compute; done.
  - apply (bool_decide_unpack _); vm_compute; done.
  - vm_compute. lia.
Defined.
