(* ===== verification/ClientWitnesses.v ===== *)
(** * Witnesses for the client side, the scope resolver and the encoders

    Each theorem with hypotheses is applied here to concrete data on which
    they hold: a dispatcher that reads the state of a PLC over MQTT and over
    TCP, a symbol table with one motor, and a few records to export. *)

From S2P Require Import Prelude.
From S2P Require Import Text.
From S2P Require Import External.
From S2P Require Import Ams.
From S2P Require Import Models.
From S2P Require Import Net.
From S2P Require Import Symbol.
From S2P Require Import Router.
From S2P Require Import AmsDispatcher.
From S2P Require Import Transport.
From S2P Require Import ClientServer.
From S2P Require Import ScopeResolver.
From S2P Require Import Browse.
From S2P Require Import Export.
From S2P Require Import Witnesses.

Import SimpleExternal Race SimpleEncoding LevelMatching.

(** ** The dispatcher *)

(** A request over MQTT up to the point where it waits. *)
Definition ask : list input :=
  [IAttach "AdsOverMqtt";
   IReceive "AdsOverMqtt/10.0.0.2.1.1/info" (bytes_of_string "<info><online>true</online></info>");
   IRequest 0 read_state; IAct 0 Run; IAct 0 Run; IAct 0 Run; IAct 0 (PublishResult None)].

Definition reply_header : AmsHeader := mkHeader race_us 30000 race_plc 851 4 5 8 0 1.

Lemma wf_reply_header : wf_header reply_header.
Proof.
  split; try (split; [done|apply (bool_decide_unpack _); by vm_compute]); by unfold in_width.
Qed.

(** The PLC answers and the request takes the answer. *)
Definition answer : list input :=
  [IReceive "AdsOverMqtt/10.0.0.2.1.1/ams/res"
     (AmsHeader_serialize reply_header ++ [0; 0; 0; 0; 5; 0; 0; 0]);
   IDeliver; IAct 0 Run].

Definition state_after (ins : list input) : DispatcherSystem := default idle (run idle ins).

Lemma waiting_reachable : rtc disp_step idle (state_after ask).
Proof. apply (run_sound idle ask). reflexivity. Qed.

Lemma answered_reachable : rtc disp_step idle (state_after (ask ++ answer)).
Proof. apply (run_sound idle (ask ++ answer)). reflexivity. Qed.

Lemma request_correlation_witness :
  exists id resp, sy_ids (state_after (ask ++ answer)) !! 0%nat = Some id /\
    resp ∈ sy_received (state_after (ask ++ answer)) /\
    is_response (rf_header resp) = true /\ invoke_id (rf_header resp) = id /\
    error_code (rf_header resp) = 0 /\ rf_payload resp = [0; 0; 0; 0; 5; 0; 0; 0] /\
    forall t', sy_ids (state_after (ask ++ answer)) !! t' = Some id -> t' = 0%nat.
Proof.
  refine (proj2 (request_correlation (SK := channel_sink) race_us 30000 [] _ answered_reachable _ 0%nat read_state
    (Ok [0; 0; 0; 0; 5; 0; 0; 0]) _) _ eq_refl); [|reflexivity]. vm_compute. congruence.
Defined.

Lemma pending_not_leaked_witness :
  exists rq ph, sy_threads (state_after ask) !! 0%nat = Some (rq, ph) /\ registered_id ph = Some 1.
Proof.
  refine (proj1 (pending_not_leaked (SK := channel_sink) race_us 30000 [] _ waiting_reachable _) 1 0%nat _); [|reflexivity].
  vm_compute. congruence.
Defined.

Lemma response_not_lost_witness :
  request_step 0 read_state Run (Waiting 1)
    (mqtt_deliver reply_header [0; 0; 0; 0; 5; 0; 0; 0] (sy_disp (state_after ask))) =
  Some (mqtt_deliver reply_header [0; 0; 0; 0; 5; 0; 0; 0] (sy_disp (state_after ask)),
        Done (Ok [0; 0; 0; 0; 5; 0; 0; 0])).
Proof.
  refine (proj1 (response_not_lost (SK := channel_sink) race_us 30000 [] (state_after ask) 0 read_state (Waiting 1) 1
    reply_header [0; 0; 0; 0; 5; 0; 0; 0] waiting_reachable _ _ _ _ _ _ wf_reply_header) _ _);
    try reflexivity.
  - vm_compute. congruence.
  - intros resp Hin. change (sy_received (state_after ask)) with (@nil ResponseFrame) in Hin.
    by apply not_elem_of_nil in Hin.
Defined.

Lemma tcp_reader_stream_witness :
  run_tcp_reader 0 race_plc
    (concat (map (fun f => tcp_wire (AmsFrame_encode f)) [mkFrame reply_header [1; 2]]) ++ [0; 0; 9])
    (sy_disp idle) =
  Ok (reader_exit 0 race_plc (tcp_effect (mkFrame reply_header [1; 2]) (sy_disp idle))).
Proof.
  apply (proj2 (tcp_reader_stream 0 race_plc (sy_disp idle)) [mkFrame reply_header [1; 2]] [0; 0; 9]);
    [|reflexivity].
  constructor; [|constructor]. split; [apply wf_reply_header|]. vm_compute. congruence.
Defined.

Lemma wf_race_plc : wf_net race_plc.
Proof. split; [done|]. apply (bool_decide_unpack _). by vm_compute. Qed.

Lemma route_learning_witness :
  handle_incoming_mqtt ("P" +:+ "/" +:+ AmsNetId_to_string race_plc +:+ "/info")
    (bytes_of_string "<info><online name='x'>TRUE</online></info>") "P" (sy_disp idle) =
  Ok (with_routes (<[race_plc := Mqtt]> ∅) (sy_disp idle)).
Proof.
  apply (proj1 (route_learning (sy_disp idle) "P") race_plc
    (bytes_of_string "<info><online name='x'>TRUE</online></info>") true wf_race_plc). reflexivity.
Defined.

Lemma request_answered_by_router_witness :
  let d := sy_disp (state_after ask) in
  let frame := request_frame read_state 1 d in
  let topic := "AdsOverMqtt" +:+ "/" +:+ AmsNetId_to_string (ad_source_net_id d) +:+ "/ams/res" in
  exists d1 resp r' f d2,
    mqtt_event (fun _ => write_env) "AdsOverMqtt" (rq_target_net_id read_state) 0 (Publish frame) router =
      (Ok [DoPublish topic 0 false resp], r') /\
    AmsFrame_decode resp = Ok f /\ handle_incoming_mqtt (SK := channel_sink) topic resp "AdsOverMqtt" d1 = Ok d2 /\
    request_step (SK := channel_sink) 0 read_state Run (Waiting 1) d2 = Some (d2, Done (Ok (payload f))).
Proof.
  intros d frame topic.
  destruct (request_answered_by_router (fun _ => write_env) 0 router d 0 read_state 1 "AdsOverMqtt")
    as (d1 & resp & r' & f & d2 & _ & _ & _ & _ & Hpub & _ & Hf & Hin & Hdone & _).
  - split; [apply wf_race_plc|by unfold in_width..|constructor].
  - split; [|by unfold in_width]. split; [done|]. apply (bool_decide_unpack _). by vm_compute.
  - by unfold in_width.
  - split; [reflexivity|]. exists None. split; reflexivity.
  - reflexivity.
  - split; apply (bool_decide_unpack _); by vm_compute.
  - exists d1, resp, r', f, d2. split; [exact Hpub|]. split; [exact Hf|]. split; [exact Hin|exact Hdone].
Defined.

(** ** Scopes *)

Definition motor_table : gmap string string := {[ "MAIN.fbMotor" := "FB_Motor" ]}.

Definition motors : World := fun net => if String.eqb net "10.0.0.2.1.1" then motor_table else ∅.

Definition fb_motor : AdsSymbolEntry := mkSymbol 16448 0 4 65 0 "MAIN.fbMotor" "FB_Motor" "".

(** The router assigns a port and the PLC uploads one symbol. *)
Definition router_reply : bytes :=
  le_encode 2 AMS_TCP_CMD_PORT_CONNECT ++ le_encode 4 8 ++ [10; 0; 0; 1; 1; 1; 57; 117].

Definition upload_env : AdsEnv :=
  mkAdsEnv (InTime true) (InTime (Some router_reply)) (fun _ _ _ _ => InTime (Ok [fb_motor])).

Definition fresh_lookup : AdsScopeLookup := AdsScopeLookup_new "127.0.0.1" race_us 30001.

Lemma upload_env_serves : uploads (fun _ => 851) motors upload_env "10.0.0.2.1.1" 851.
Proof. split; [done|]. intros src sport target symbols _ [= <-]. reflexivity. Qed.

Definition scope_ops : list (@op AdsLookup) :=
  [@OObserve AdsLookup "10.0.0.2.1.1" 3;
   @OResolve AdsLookup upload_env "10.0.0.2.1.1" "MAIN" 851].

Lemma resolver_refines_symbols_witness :
  (resolve (SL := AdsLookup) upload_env "10.0.0.2.1.1" "MAIN.fbMotor" 851
     (foldl resolver_step (motors, ScopeResolver_new (SL := AdsLookup) fresh_lookup) scope_ops).2).2 =
  mkOutcome "FB_Motor" (Some "MAIN.fbMotor").
Proof.
  destruct (resolve (SL := AdsLookup) upload_env "10.0.0.2.1.1" "MAIN.fbMotor" 851
    (foldl resolver_step (motors, ScopeResolver_new (SL := AdsLookup) fresh_lookup) scope_ops).2)
    as [r' o] eqn:Hr.
  pose proof (resolver_refines_symbols (LL := AdsLookup_laws (fun _ => 851)) motors fresh_lookup scope_ops
    upload_env "10.0.0.2.1.1" "MAIN.fbMotor" 851 r' o) as Hthm.
  change (foldl resolver_step (motors, ScopeResolver_new (SL := AdsLookup) fresh_lookup) scope_ops) with
    (motors, (foldl resolver_step (motors, ScopeResolver_new (SL := AdsLookup) fresh_lookup) scope_ops).2)
    in Hthm.
  destruct Hthm as [->|(-> & _)]; [..|reflexivity|].
  - intros net t Ht. simpl in Ht. by rewrite lookup_empty in Ht.
  - split; [done|]. split; [apply upload_env_serves|done].
  - apply upload_env_serves.
  - done.
  - exact Hr.
  - exfalso. apply (f_equal snd) in Hr. vm_compute in Hr. discriminate Hr.
Defined.

Lemma second_runtime_uses_first_table_witness :
  AdsScopeLookup_resolve upload_env "10.0.0.2.1.1" "MAIN.fbMotor" 852
    (AdsScopeLookup_resolve upload_env "10.0.0.2.1.1" "MAIN" 851 fresh_lookup).1 =
  ((AdsScopeLookup_resolve upload_env "10.0.0.2.1.1" "MAIN" 851 fresh_lookup).1,
   Ok (lookup_in_table motor_table "MAIN.fbMotor")).
Proof.
  apply (second_runtime_uses_first_table upload_env "10.0.0.2.1.1" "MAIN" 851 fresh_lookup motor_table);
    [done|reflexivity|reflexivity|done].
Defined.

Definition racing : @ScopeResolver NoopLookup :=
  (resolve_finish (SL := NoopLookup) "1.1.1.1.1.1" "MAIN.a" (Ok (Some ("FB_Old", "MAIN.a")))
     (observe_occ (SL := NoopLookup) "1.1.1.1.1.1" 4
        (set_lookup (SL := NoopLookup) tt (ScopeResolver_new (SL := NoopLookup) tt)))).1.

Lemma inflight_answer_outlives_change_witness :
  resolve (SL := NoopLookup) tt "1.1.1.1.1.1" "MAIN.a" 851 racing =
  (racing, mkOutcome "FB_Old" (Some "MAIN.a")).
Proof.
  apply (inflight_answer_outlives_change (SL := NoopLookup) "1.1.1.1.1.1" "MAIN.a" 4
    (ScopeResolver_new (SL := NoopLookup) tt) "FB_Old" tt). done.
Defined.

(** ** Browsing *)

Definition one_motor : UploadInfo :=
  mkInfo 1 (len (mjoin (map AdsSymbolEntry_serialize [motor]))) 0 0 0 0.

Lemma readers_agree_witness :
  exists symbols t, parse_symbol_table (mjoin (map AdsSymbolEntry_serialize [motor])) = Ok symbols /\
    parse_upload (mjoin (map AdsSymbolEntry_serialize [motor])) one_motor = Ok t /\
    st_nodes t = map node_of symbols /\ symbols = [motor].
Proof. apply (readers_agree [motor] one_motor); [|done..]. constructor; [apply motor_wf|constructor]. Defined.

Definition plc_answers : Sent := fun rq =>
  if bool_decide (take 4 (rq_payload rq) = le_encode 4 ADSIGRP_SYM_UPLOADINFO2)
  then Ok (read_reply (info_bytes one_motor))
  else Ok (read_reply (mjoin (map AdsSymbolEntry_serialize [motor]))).

Lemma upload_returns_table_witness :
  exists t, upload_via_dispatcher plc_answers race_plc 851 5 = Ok t /\ st_nodes t = [node_of motor].
Proof.
  refine (proj2 (proj2 (upload_returns_table plc_answers race_plc 851 5 [motor] one_motor _ _ _ _) _) _);
    try reflexivity.
  - constructor; [apply motor_wf|constructor].
  - unfold wf_info. apply (bool_decide_unpack _). by vm_compute.
Defined.

(** ** Export *)

Definition resource (name : string) : attrs := {[ "service.name" := VString name ]}.

Lemma resource_clean name : clean_attrs (resource name).
Proof.
  intros k v. unfold resource. rewrite lookup_singleton_Some. intros [<- _].
  split; apply (bool_decide_unpack _); by vm_compute.
Qed.

Lemma resource_fingerprint_exact_witness :
  (resource_fingerprint (resource "a") = resource_fingerprint (resource "b") <->
   resource "a" = resource "b") /\
  resource_fingerprint (resource "a") = resource_fingerprint (resource "a").
Proof.
  apply (resource_fingerprint_exact (resource "a") (resource "b") (attrs_iter (resource "a"))
    (attrs_iter (resource "b"))); first [apply resource_clean|reflexivity].
Defined.

Definition log_record (res scope : string) : LogRecord :=
  mkLogRecord (1, 0) (VString "m") 9 "INFO" "" "" (resource res) scope ∅ ∅.

Lemma logs_request_complete_witness :
  exists logs blocks,
    traverse build_log_record [log_record "a" "x"; log_record "b" ""; log_record "a" "x"] = Ok logs /\
    build_logs_request [log_record "a" "x"; log_record "b" ""; log_record "a" "x"] = Ok blocks /\
    concat (map (fun b => concat (map snd (rb_scopes b))) blocks) ≡ₚ logs.
Proof.
  destruct (logs_request_complete [log_record "a" "x"; log_record "b" ""; log_record "a" "x"])
    as (logs & blocks & H1 & H2 & H3 & _).
  - repeat constructor.
  - repeat first [apply resource_clean|apply Forall_nil_2|apply Forall_cons_2].
  - exists logs, blocks. split_and!; [exact H1|exact H2|exact H3].
Defined.

Definition metric_record (res scope : string) : MetricRecord :=
  mkMetricRecord "m" "" "" Gauge (1, 0) 0 false (resource res) scope ∅ [] [] 0 0 "" "".

Lemma metrics_request_complete_witness :
  exists ps blocks,
    traverse build_metric [metric_record "a" "x"; metric_record "b" "x"] = Ok ps /\
    build_metrics_request [metric_record "a" "x"; metric_record "b" "x"] = Ok blocks /\
    concat (map (fun b => concat (map snd (rb_scopes b))) blocks) ≡ₚ ps.
Proof.
  destruct (metrics_request_complete [metric_record "a" "x"; metric_record "b" "x"])
    as (ps & blocks & H1 & H2 & H3 & _).
  - repeat constructor.
  - repeat first [apply resource_clean|apply Forall_nil_2|apply Forall_cons_2].
  - exists ps, blocks. split_and!; [exact H1|exact H2|exact H3].
Defined.

Definition span_record (res scope : string) : TraceRecord :=
  mkTraceRecord "" "" "" "s" 1 (1, 0) (2, 0) 0 "" (resource res) scope ∅ ∅ [].

Lemma traces_request_complete_witness :
  exists ps blocks,
    traverse build_span [span_record "a" "x"; span_record "a" ""] = Ok ps /\
    build_traces_request [span_record "a" "x"; span_record "a" ""] = Ok blocks /\
    concat (map (fun b => concat (map snd (rb_scopes b))) blocks) ≡ₚ ps.
Proof.
  destruct (traces_request_complete [span_record "a" "x"; span_record "a" ""])
    as (ps & blocks & H1 & H2 & H3 & _).
  - repeat constructor.
  - repeat first [apply resource_clean|apply Forall_nil_2|apply Forall_cons_2].
  - exists ps, blocks. split_and!; [exact H1|exact H2|exact H3].
Defined.

Lemma number_export_witness :
  json_to_any_value (json_int 18446744073709551615) = Some (IntValue (18446744073709551615 - 2 ^ 64)).
Proof. apply (proj2 (number_export 18446744073709551615)). lia. Defined.
