(* ===== verification/PipelineWitnesses.v ===== *)
(** * Witnesses for the pipeline behind the router

    The theorems on the bridge, the dispatchers, the workers, the mapper and
    the exporter, applied to concrete data on which their hypotheses hold. *)

From S2P Require Import Prelude.
From S2P Require Import Text.
From S2P Require Import External.
From S2P Require Import Float.
From S2P Require Import Ams.
From S2P Require Import Models.
From S2P Require Import Protocol.
From S2P Require Import Registry.
From S2P Require Import Diagnostics.
From S2P Require Import PushDecode.
From S2P Require Import AggregateWire.
From S2P Require Import Router.
From S2P Require Import Bridge.
From S2P Require Import AggregatePush.
From S2P Require Import Symbol.
From S2P Require Import Formatter.
From S2P Require Import ScopeResolver.
From S2P Require Import AmsDispatcher.
From S2P Require Import Browse.
From S2P Require Import MetricMapper.
From S2P Require Import Poll.
From S2P Require Import Notify.
From S2P Require Import LogPath.
From S2P Require Import Worker.
From S2P Require Import Export.
From S2P Require Import Jsonl.
From S2P Require Import Exporter.
From S2P Require Import Witnesses.
From S2P Require Import ClientWitnesses.

Import SimpleExternal SimpleEncoding.

(** ** Pushed batches *)

(** A frame with two numeric samples, 1.0 and 2.0. *)
Definition aggregate_frame : bytes :=
  [PUSH_WIRE_VERSION; PUSH_METRIC_AGG_EVENT_TYPE; 0; 2] ++ le_encode 4 8 ++ le_encode 4 2 ++
  le_encode 4 7 ++ [1; 0; 0; 0] ++ le_encode 4 100 ++ le_encode 4 110 ++ le_encode 4 0 ++
  le_encode 8 1000 ++ le_encode 8 2000 ++ [3; 1; 0; 0] ++
  bytes_of_string "pos" ++ bytes_of_string "m" ++
  le_encode 8 (f64_of_Z 1) ++ le_encode 8 (f64_of_Z 2).

Definition aggregate_batch : AggregateBatch :=
  mkAggregate 7 1 0 SchemaNumeric 8 0 100 110 1000 2000 "pos" "m" "" None None
    [SampleNumeric (f64_of_Z 1); SampleNumeric (f64_of_Z 2)] None None.

Lemma aggregate_points_witness :
  length (metric_aggregate_to_entries "192.168.1.5" t_now "5.24.37.144.1.1" aggregate_batch) = 2%nat.
Proof.
  refine (proj1 (aggregate_points "192.168.1.5" t_now aggregate_frame aggregate_batch "5.24.37.144.1.1" _ _)).
  - unfold is_bytes, is_u8. apply (bool_decide_unpack _). by vm_compute.
  - by vm_compute.
Defined.

Lemma aggregate_times_witness :
  agg_sample_ts aggregate_batch 0 = 1000 /\ agg_sample_ts aggregate_batch 1 = 2000.
Proof.
  destruct (proj2 (aggregate_times aggregate_batch) eq_refl) as [_ H]; [by vm_compute..|].
  destruct (H eq_refl) as (_ & _ & H0 & H1). split; [apply H0|apply H1]; vm_compute; lia.
Defined.

(** The task of the batch is registered. *)
Definition task_registry : TaskRegistry :=
  register (mkKey "5.24.37.144.1.1" 350 1) (mkMetadata "PlcTask" "App" "Project" 2 851) ∅.

Definition push_router : AdsRouter :=
  mkRouter 16150 (mkSender 100 [] false) None (Some (mkSender 10 [] false))
    (Some (mkSender 10 [] false)) task_registry.

Lemma own_push_router :
  own_write push_router write_header (mkWrite IG_PUSH_DIAG IO_PUSH_BATCH (encode_diag_batch diag_batch)).
Proof. split; try done; apply wf_write_header. Qed.

Lemma only_plc_task :
  only_task task_registry (AmsNetId_to_string plc) 350 (mkKey "5.24.37.144.1.1" 350 1)
    (mkMetadata "PlcTask" "App" "Project" 2 851).
Proof.
  split_and!; [reflexivity..|]. intros k' Hk' _ _. unfold task_registry, register in Hk'.
  rewrite lookup_insert_is_Some, lookup_empty in Hk'. destruct Hk' as [<-|[_ [? ?]]]; done.
Qed.

Lemma pushed_batch_reaches_metrics_witness :
  exists ms : list MetricEntry,
    push_drain "192.168.1.5" t_now map_to_list task_registry (plc, TaskDiagBatch diag_batch)
      (Some (mkSender 100 [] false)) = Some (send_all (mkSender 100 [] false) ms) /\
    map (fun m => (me_name m, me_value m)) ms =
      [("tc.task.exec_time_min_us", f64_of_Z 1); ("tc.task.exec_time_max_us", f64_of_Z 9);
       ("tc.task.exec_time_avg_us", f64_of_Z 5); ("tc.task.window_ms", f64_of_Z 100);
       ("tc.task.sample_count", f64_of_Z 2); ("tc.task.cycle_count", f64_of_Z 2);
       ("tc.task.cycle_exceed_window", f64_of_Z 1); ("tc.task.rt_violation_window", f64_of_Z 0);
       ("tc.task.cycle_exceed_edge", f64_of_Z 1); ("tc.task.cycle_exceed_exec_us", f64_of_Z 9);
       ("tc.task.sample_buffer_overflow", f64_of_Z 0)] /\
    Forall (fun m => me_app_name m = "App") ms.
Proof.
  destruct (pushed_batch_reaches_metrics "192.168.1.5" t_now map_to_list write_env write_header diag_batch None
    push_router (mkSender 10 [] false) (mkSender 100 [] false) (mkKey "5.24.37.144.1.1" 350 1)
    (mkMetadata "PlcTask" "App" "Project" 2 851) (fun _ => reflexivity _) own_push_router
    wf_diag_batch_witness eq_refl eq_refl only_plc_task ltac:(done)) as (tx' & ms & _ & _ & Hd & _ & Hv & Hl).
  exists ms. split; [exact Hd|]. split.
  - apply (f_equal (map (fun x => (x.1.1.1.1.1, x.1.1.2)))) in Hv. rewrite map_map in Hv. exact Hv.
  - eapply Forall_impl; [exact Hl|]. simpl. tauto.
Defined.

(** ** The workers *)

Definition small_worker : BatchWorker (R := nat) (X := unit) :=
  BatchWorker_new (mkWorkerConfig tt 2 5000) false 1.

Definition send (r : nat) (w : BatchWorker (R := nat) (X := unit)) : BatchWorker :=
  mkWorker (bw_queue w ++ [r]) true (bw_config w) (bw_config_rx w) (bw_batch w) (bw_inflight w) (bw_running w)
    (bw_received w) (bw_flushed w) (bw_largest w).

(** Three records arrive: two fill a batch, the third waits. *)
Definition third_waits : BatchWorker (R := nat) (X := unit) :=
  on_record 3%nat [] (on_record 2%nat [3%nat] (on_record 1%nat [2%nat; 3%nat]
    (send 3 (send 2 (send 1 small_worker))))).

Lemma third_waits_reachable : worker_reachable small_worker third_waits.
Proof.
  repeat (eapply ReachStep; [|first [by apply StepRecord|by apply StepSend]]). apply ReachInit.
Qed.

Lemma worker_conserves_witness :
  bw_flushed (spawn_flush third_waits) = [(true, [1; 2]%nat); (false, [3]%nat)].
Proof.
  exact (proj2 (proj2 (proj2 (proj2 (proj2
    (worker_conserves 1 (mkWorkerConfig tt 2 5000) false third_waits third_waits_reachable)))))).
Defined.

Lemma tick_hands_over_witness : concat (bw_flushed (on_tick third_waits)).*2 = [1; 2; 3]%nat.
Proof.
  exact (proj2 (tick_hands_over 1 (mkWorkerConfig tt 2 5000) false third_waits third_waits_reachable)).
Defined.

(** ** The mapper *)

Definition speed_def : CustomMetricDef :=
  mkMetricDef "MAIN.speed" "motor.speed" "" "rpm" KindGauge false SourcePush None None None None None.

Definition speed_entry : MetricEntry :=
  me_set "" "" t_now "" "" 0 0 0 "" "" "" "" {["plc.symbol" := VString "MAIN.speed"]} (zeros 16) (zeros 8)
    (MetricEntry_gauge t_now "raw" 0).

Lemma validated_mapping_witness :
  MetricMapper_apply (MetricMapper_from_config [speed_def]) speed_entry = (overwrite speed_def speed_entry, true).
Proof.
  refine (proj2 (proj2 (validated_mapping [speed_def]) _) speed_def speed_entry _ _);
    [by vm_compute|constructor|reflexivity].
Defined.

(** ** Polling and notifications *)

(** A PLC that answers each read with the bytes of -2 as an INT. *)
Definition int_plc : Sent := fun _ => Ok (read_reply (le_encode 2 (-2))).

Lemma polled_value_witness :
  SymbolReader_read_value int_plc (DispatcherClient_new (mkNetId [5; 24; 37; 144; 1; 1]) 851) (mkMeta 2 " int " 16448 0) = Ok (PlcI64 (-2)).
Proof.
  refine (proj1 (proj2 (polled_value int_plc (DispatcherClient_new (mkNetId [5; 24; 37; 144; 1; 1]) 851)
    (mkMeta 2 " int " 16448 0) _)) (ScalarInt 2) (le_encode 2 (-2)) (PlcI64 (-2)) [] _ _ _ _).
  - done.
  - by vm_compute.
  - constructor; lia.
  - by vm_compute.
  - reflexivity.
Defined.

Definition temp_frame : list (Z * list (Z * bytes)) := [(0, [(7, le_encode 2 21); (8, [1])])].

Lemma notification_roundtrip_witness :
  parse_notification_payload (encode_notification 30 temp_frame ++ [9]) = Ok [(7, le_encode 2 21); (8, [1])].
Proof.
  refine (notification_roundtrip 30 temp_frame [9] _ _ _).
  - by vm_compute.
  - by vm_compute.
  - repeat first [apply Forall_cons_2|apply Forall_nil_2|split]; by vm_compute.
Defined.

(** A PLC that counts its handles up: the next one, and those it serves. *)
Definition CountingPlc : Type := Z * gset Z.

Definition counting_send (rq : Request) (p : CountingPlc) : CountingPlc * (DispatcherError + bytes) :=
  if rq_cmd rq =? ADS_CMD_ADD_NOTIFICATION then
    if (0 <=? p.1) && (p.1 <? 2 ^ 32) then ((p.1 + 1, {[p.1]} ∪ p.2), inr (le_encode 4 0 ++ le_encode 4 p.1))
    else (p, inl (Timeout 5000))
  else ((p.1, p.2 ∖ {[le_decode (take 4 (rq_payload rq))]}), inr (le_encode 4 0)).

(** Its handles: those in use below the next one. *)
Definition counting_handles (p : CountingPlc) : gset Z :=
  filter (fun h => 0 <= h < p.1 /\ h < 2 ^ 32) p.2.

Lemma counting_answer h :
  in_width 32 h -> add_notification_answer (le_encode 4 0 ++ le_encode 4 h) = inr h.
Proof.
  intros Hh. unfold add_notification_answer. rewrite length_app, !length_le_encode. cbn [Nat.ltb Nat.leb Nat.add].
  rewrite take_app_le, take_ge by (rewrite length_le_encode; lia).
  rewrite drop_app_le, drop_ge by (rewrite length_le_encode; lia). cbn [app].
  rewrite (take_ge (le_encode 4 h)) by (rewrite length_le_encode; lia).
  by rewrite (in_width_le_roundtrip 4 h).
Qed.

Lemma counting_add net port body t p p' raw h :
  counting_send (mkRequest net port ADS_CMD_ADD_NOTIFICATION body t) p = (p', inr raw) ->
  add_notification_answer raw = inr h ->
  (h ∉ counting_handles p) /\ counting_handles p' = {[h]} ∪ counting_handles p.
Proof.
  unfold counting_send. cbn [rq_cmd]. rewrite Z.eqb_refl. destruct ((0 <=? p.1) && (p.1 <? 2 ^ 32)) eqn:Hr; [|done].
  intros [= <- <-]. change (add_notification_answer _) with (add_notification_answer (le_encode 4 0 ++ le_encode 4 p.1)).
  rewrite counting_answer by (unfold in_width; lia). intros [= <-]. unfold counting_handles. split.
  - rewrite elem_of_filter. lia.
  - apply set_eq. intros h. cbn [fst snd]. rewrite elem_of_union, !elem_of_filter, elem_of_union, elem_of_singleton.
    destruct (decide (h = p.1)) as [->|]; intuition lia.
Qed.

Lemma counting_add_other net port body t p p' r :
  counting_send (mkRequest net port ADS_CMD_ADD_NOTIFICATION body t) p = (p', r) ->
  counting_handles p ⊆ counting_handles p'.
Proof.
  unfold counting_send. cbn [rq_cmd]. rewrite Z.eqb_refl.
  destruct ((0 <=? p.1) && (p.1 <? 2 ^ 32)) eqn:Hr; intros [= <- _]; [|done].
  intros h. unfold counting_handles. cbn [fst snd]. rewrite !elem_of_filter, elem_of_union. intuition lia.
Qed.

Lemma counting_del net port h t p p' r :
  h ∈ counting_handles p ->
  counting_send (mkRequest net port ADS_CMD_DEL_NOTIFICATION (le_encode 4 h) t) p = (p', r) ->
  counting_handles p ∖ {[h]} ⊆ counting_handles p'.
Proof.
  unfold counting_send, counting_handles. cbn [rq_cmd rq_payload]. rewrite elem_of_filter. intros Hh Heq k.
  assert (p' = (p.1, p.2 ∖ {[le_decode (take 4 (le_encode 4 h))]})) as -> by (by injection Heq).
  rewrite take_ge by (rewrite length_le_encode; lia).
  rewrite (in_width_le_roundtrip 4 h) by (unfold in_width; lia). cbn [fst snd].
  rewrite elem_of_difference, !elem_of_filter, elem_of_difference. intuition.
Qed.

Definition temp_def : CustomMetricDef :=
  mkMetricDef "MAIN.temp" "oven.temp" "" "C" KindGauge false SourceNotification (Some "5.24.37.144.1.1") (Some 851)
    None None (Some (mkNotification 100 1000 0 OnChange)).
Definition temp_meta : SymbolMeta := mkMeta 2 "INT" 16448 0.

Abbreviation CountingBackend := (DispatcherBackend CountingPlc counting_send).
Abbreviation CountingLaws :=
  (DispatcherBackend_laws CountingPlc counting_send counting_handles counting_add counting_add_other counting_del).

Definition counting_backend : @BackendState CountingBackend :=
  mkBackend CountingPlc true (mkNetId [5; 24; 37; 144; 1; 1]) 851 5000 (1, ∅).

Definition new_notifier : @Notifier simple_external simple_mpsc CountingBackend :=
  Notifier_new (NB := CountingBackend) counting_backend (mkSender 10 [] false).

Abbreviation counting_reconcile :=
  (reconcile (Ext := simple_external) (MP := simple_mpsc) (NB := CountingBackend)
     (@map_to_list _ _ _ _) (@map_to_list _ _ _ _)).

Lemma reconcile_exact_witness :
  (counting_reconcile [(temp_def, temp_meta)] new_notifier).2 = inr (mkReport ["MAIN.temp"] [] []) /\
  let n := (counting_reconcile [(temp_def, temp_meta)] new_notifier).1 in
  counting_reconcile [(temp_def, temp_meta)] n = (n, inr (mkReport [] [] [])).
Proof.
  assert (Hrep : (counting_reconcile [(temp_def, temp_meta)] new_notifier).2 = inr (mkReport ["MAIN.temp"] [] []))
    by (vm_compute; reflexivity).
  split; [exact Hrep|].
  destruct (reconcile_exact (NL := CountingLaws) (@map_to_list _ _ _ _) (@map_to_list _ _ _ _)
    (fun m => Permutation_refl _) (fun m => Permutation_refl _)
    [(temp_def, temp_meta)] new_notifier _ _ (new_inv (NL := CountingLaws) _ _)
    (surjective_pairing (counting_reconcile [(temp_def, temp_meta)] new_notifier))) as [_ H].
  destruct (H _ Hrep) as (m & _ & _ & _ & _ & _ & Hagain). exact Hagain.
Defined.

(** After the subscription, its handle is 1. *)
Definition subscribed : @Notifier simple_external simple_mpsc CountingBackend :=
  (counting_reconcile [(temp_def, temp_meta)] new_notifier).1.

Lemma notifier_matches_plc_witness :
  1 ∈ counting_handles (db_plc _ (nf_backend subscribed)).
Proof.
  refine (proj2 (notifier_matches_plc CountingPlc counting_send counting_handles
    counting_add counting_add_other counting_del counting_backend (mkSender 10 [] false) (@map_to_list _ _ _ _)
    (@map_to_list _ _ _ _) [[(temp_def, temp_meta)]] (fun m => Permutation_refl _) (fun m => Permutation_refl _)) 1 _).
  apply (bool_decide_unpack _). by vm_compute.
Defined.

Lemma notifications_become_metrics_witness :
  exists batch,
    NotificationSink_deliver (mkHeader (mkNetId []) 0 (mkNetId []) 0 ADS_CMD_NOTIFICATION 4 0 0 0)
      (encode_notification 30 [(0, [(1, le_encode 2 21); (8, [1])])] ++ []) [] = Ok [batch] /\
    queued (nf_tx (dispatch_batch t_now batch subscribed)) =
      [with_source "client-notify" (build_metric_entry t_now temp_def (PlcI64 21))].
Proof.
  destruct (notifications_become_metrics (MP := simple_mpsc) (NB := CountingBackend) t_now
    (mkHeader (mkNetId []) 0 (mkNetId []) 0 ADS_CMD_NOTIFICATION 4 0 0 0)
    30 [(0, [(1, le_encode 2 21); (8, [1])])] [] subscribed) as (batch & H1 & H2 & H3).
  - reflexivity.
  - by vm_compute.
  - by vm_compute.
  - repeat first [apply Forall_cons_2|apply Forall_nil_2|split]; by vm_compute.
  - discriminate.
  - exists batch. split; [exact H1|]. rewrite H2. cbn [nf_tx]. rewrite H3; reflexivity.
Defined.

(** ** The dispatchers *)

Definition motor_log : LogEntry :=
  mkLogEntry "id" "" "" "10.0.0.2.1.1" 350 851 "speed {v} reached" "MAIN.fbMotor" LInfo t_now t_now 1 "PlcTask" 5
    "App" "" 3 (zeros 16) (zeros 8) ∅ {["v" := json_int 7]}.

Definition log_dispatcher : @LogDispatcher simple_external simple_mpsc AdsLookup :=
  mkLogDispatcher (SL := AdsLookup) (mkSender 10 [] false) "ipc" "line1" (ScopeResolver_new (SL := AdsLookup) fresh_lookup).

Lemma dispatched_log_witness :
  exists d' rec base, LogDispatcher_dispatch (SL := AdsLookup) upload_env motor_log log_dispatcher = Ok d' /\
    ld_export_tx d' = (try_send (ld_export_tx log_dispatcher) rec).1 /\
    lr_body rec = VString ("speed 7 reached" +:+ trace_suffix base) /\
    lr_scope_name rec = "FB_Motor" /\ lr_log_attributes rec !! "plc.instance_path" = Some (VString "MAIN.fbMotor").
Proof.
  destruct (dispatched_log (LL := AdsLookup_laws (fun _ => 851)) motors upload_env motor_log log_dispatcher
    [Lit "speed "; Hole "v"] " reached") as (d' & rec & base & H1 & H2 & _ & _ & H3 & _ & _ & _ & path & H4 & H5).
  - split.
    + intros net t Ht. simpl in Ht. by rewrite lookup_empty in Ht.
    + intros net ns v Hv. simpl in Hv. by rewrite lookup_empty in Hv.
  - apply upload_env_serves.
  - repeat first [apply Forall_cons_2|apply Forall_nil_2]; apply (bool_decide_unpack _); by vm_compute.
  - apply (bool_decide_unpack _); by vm_compute.
  - vm_compute. lia.
  - reflexivity.
  - vm_compute in H5. destruct H5 as [H5 ->]. exists d', rec, base. split; [exact H1|]. split; [exact H2|].
    split; [exact H3|]. split; [exact H5|]. rewrite H4. apply lookup_insert_eq.
Defined.

(** A resolver that has seen the motor. *)
Definition warm : @ScopeResolver NoopLookup :=
  mkResolver (SL := NoopLookup) {[("10.0.0.2.1.1", "MAIN.fbMotor") := Resolved "FB_Motor" "MAIN.fbMotor"]}
    {["10.0.0.2.1.1" := 3]} tt.

Definition plain_log : LogEntry :=
  mkLogEntry "id" "" "" "10.0.0.2.1.1" 350 851 "started" "MAIN.fbMotor" LInfo t_now t_now 1 "PlcTask" 5
    "App" "" 3 (zeros 16) (zeros 8) ∅ ∅.

Definition motor_metric : MetricEntry :=
  me_set "" "" t_now "" "10.0.0.2.1.1" 350 851 1 "" "" "" "MAIN.fbMotor" ∅ (zeros 16) (zeros 8)
    (MetricEntry_gauge t_now "speed" 0).

Definition motor_span : SpanEntry :=
  mkSpanEntry (zeros 16) (zeros 8) (zeros 8) "move" Internal StatusUnset "" t_now t_now "" "" "10.0.0.2.1.1" 350 851
    1 "" 0 "" "" "MAIN.fbMotor" ∅ [].

Definition warm_logs : @LogDispatcher simple_external simple_mpsc NoopLookup :=
  mkLogDispatcher (SL := NoopLookup) (mkSender 10 [] false) "ipc" "line1" warm.

Definition warm_metrics : @MetricDispatcher simple_external simple_mpsc NoopLookup :=
  mkMetricDispatcher (SL := NoopLookup) (mkSender 10 [] false) ∅ "line1" "ipc" warm.

Lemma pillars_share_scope_witness :
  exists lrec, log_record_of (SL := NoopLookup) tt plain_log warm_logs = Ok (warm, lrec) /\
    lr_scope_name lrec = "FB_Motor".
Proof.
  destruct (pillars_share_scope (SL := NoopLookup) tt warm "10.0.0.2.1.1" "MAIN.fbMotor" 851
    (Resolved "FB_Motor" "MAIN.fbMotor") plain_log motor_metric motor_span
    warm_logs warm_metrics) as (lrec & H1 & H2);
    try done.
  - apply (bool_decide_unpack _); by vm_compute.
  - exists lrec. split; [exact H1|]. revert H2.
    destruct (metric_record_of _ _ _), (resolve_scope _ _ _). intros (_ & _ & H & _). exact H.
Defined.

(** ** The exporter *)

(** A time of day in seconds. *)
Definition seconds (d : @DateTime simple_external) : string := dec (fst (d : Z * Z)).

Lemma jsonl_one_line_per_record_witness :
  lines_of [] (jsonl_payload seconds [log_record "a" "x"; log_record "b" "y"]) =
  map (jsonl_line seconds) [log_record "a" "x"; log_record "b" "y"].
Proof.
  apply (jsonl_one_line_per_record seconds).
  - intros t. apply dec_no_newline.
  - intros [z|b]; apply dec_no_newline.
  - intros v. apply dec_no_newline.
Defined.

(** A collector that is down for two attempts. *)
Definition flaky (k : nat) : attempt :=
  match k with O => NotSent "refused" | 1%nat => Answered "503 Service Unavailable" | _ => Posted end.

Lemma retry_bounded_witness :
  exists n, (n <= 3)%nat /\
    send_traces_with_retry "http://c/v1/traces" 3 100 flaky = send_with_retry "http://c/v1/traces" 3 100 flaky /\
    send_with_retry "http://c/v1/traces" 3 100 flaky =
      mkSending (attempt_result "http://c/v1/traces" (flaky n)) (S n)
        (map (fun k => Z.min (100 * 2 ^ Z.of_nat k) 5000) (seq 0 n)).
Proof.
  destruct (retry_bounded "http://c/v1/traces" 3 100 flaky) as (n & H1 & _ & _ & H2 & _ & H3).
  - lia.
  - reflexivity.
  - intros [|[|k]]; simpl; try done. exists (Ascii.ascii_of_nat 53), "03 Service Unavailable". done.
  - exists n. split; [exact H1|]. split; [|exact H2]. rewrite H2. exact H3.
Defined.

Lemma log_formats_agree_witness :
  json_field "severityText" (log_json (log_record "a" "x")) = Some (VString "INFO").
Proof.
  destruct (build_log_record (log_record "a" "x")) as [p| | |] eqn:Hp; [|discriminate Hp..].
  pose proof Hp as Hq. vm_compute in Hq. injection Hq as Hq.
  destruct (log_formats_agree (log_record "a" "x") p 1000000000) as (_ & _ & H & _).
  - exact Hp.
  - reflexivity.
  - lia.
  - unfold flat_attrs. simpl. rewrite map_to_list_empty. constructor.
  - unfold flat_attrs, resource. simpl. unfold resource. rewrite map_to_list_singleton.
    apply Forall_cons_2; [exact I|apply Forall_nil_2].
  - by eexists.
  - by left.
  - by left.
  - rewrite H, <- Hq. reflexivity.
Defined.

(** ** An aggregate frame *)

(** Two texts of a metric with trace context, namespace and a stamp in front of each. *)
Definition text_batch : AggregateBatch :=
  mkAggregate 7 1 13 SchemaString 4 0 100 110 750000000000000000 750000000100000000 "state" "" "line1" (Some (repeat 1 16))
    (Some (repeat 2 8)) [SampleString "run"; SampleString "stop"] (Some [0; 3]) None.

Definition text_slots : list bytes := [bytes_of_string "run" ++ [0]; bytes_of_string "stop"].

Lemma aggregate_roundtrip_witness :
  decode_metric_aggregate (encode_aggregate text_batch text_slots) = Ok (MetricAggregateBatch text_batch) /\
  decode_metric_aggregate (take 90 (encode_aggregate text_batch text_slots)) = Err tt.
Proof.
  destruct (aggregate_roundtrip text_batch text_slots) as (H1 & _ & H2).
  - split; try (by vm_compute); try (split; [by vm_compute|by vm_compute; lia]).
    + by exists (repeat 1 16), (repeat 2 8).
    + split_and!; [reflexivity|reflexivity|repeat apply Forall_cons_2; try apply Forall_nil_2; by split|reflexivity].
  - apply Forall2_cons; split; [apply (slot_string 0 "run" 1); by vm_compute|].
    apply Forall2_cons; split; [apply (slot_string 0 "stop" 0); by vm_compute|constructor].
  - repeat apply Forall_cons_2; try apply Forall_nil_2; reflexivity.
  - split; [exact H1|apply H2]. vm_compute. lia.
Defined.

(** Two numbers, 1.0 and 2.0, without stamps. *)
Definition number_batch : AggregateBatch :=
  mkAggregate 7 1 1 SchemaNumeric 8 0 100 110 750000000000000000 750000000100000000 "speed" "mm/s" "" (Some (repeat 1 16))
    (Some (repeat 2 8)) [SampleNumeric 4607182418800017408; SampleNumeric 4611686018427387904] None None.

Definition number_slots : list bytes := [le_encode 8 4607182418800017408; le_encode 8 4611686018427387904].

Lemma pushed_aggregate_reaches_metrics_witness :
  exists ms m, push_drain "192.168.1.5" t_now map_to_list task_registry (plc, MetricAggregateBatch number_batch)
      (Some (mkSender 100 [] false)) = Some (send_all (mkSender 100 [] false) ms) /\
    length ms = 2%nat /\ ms !! 1%nat = Some m /\ me_name m = "speed" /\ me_value m = 4611686018427387904 /\
    me_trace_id m = repeat 1 16.
Proof.
  destruct (pushed_aggregate_reaches_metrics "192.168.1.5" t_now map_to_list write_env write_header number_batch number_slots None
    push_router (mkSender 10 [] false) (mkSender 100 [] false)) as (tx' & ms & _ & _ & Hd & _ & Hl & Hp).
  - destruct own_push_router as [? ? ? _ _ _]. by split.
  - unfold is_bytes, is_u8. apply (bool_decide_unpack _). by vm_compute.
  - split; try (by vm_compute); try (split; [by vm_compute|by vm_compute; lia]). by exists (repeat 1 16), (repeat 2 8).
  - repeat (apply Forall2_cons; split; [apply slot_numeric; by vm_compute|]). constructor.
  - repeat apply Forall_cons_2; try apply Forall_nil_2; reflexivity.
  - reflexivity.
  - reflexivity.
  - destruct (Hp 1%nat (SampleNumeric 4611686018427387904) 0%nat ("speed", 4611686018427387904) eq_refl eq_refl)
      as (m & Hm & H1 & H2 & _ & _ & H3 & _).
    exists ms, m. split_and!; [exact Hd|exact Hl|exact Hm|exact H1|exact H2|exact H3].
Defined.
