(* ===== verification/DeliveryWitnesses.v ===== *)
(** * Witnesses for configuration, delivery and reception

    The theorems on the settings, the requests and the log service, applied to
    concrete data on which their hypotheses hold. *)

From S2P Require Import Prelude.
From S2P Require Import Text.
From S2P Require Import External.
From S2P Require Import Models.
From S2P Require Import Export.
From S2P Require Import Protobuf.
From S2P Require Import Exporter.
From S2P Require Import Grpc.
From S2P Require Import Config.
From S2P Require Import Delivery.
From S2P Require Import Witnesses.
From S2P Require Import ClientWitnesses.

Import SimpleExternal SimpleEncoding WireFormat.

(** ** Reception *)


Definition draws (i : nat) : string * DateTime := (dec (Z.of_nat i), t_now).



(** One record that says hello, into a channel that is full. *)
Definition hello : list GResourceLogs :=
  [mkGResourceLogs None [mkGScopeLogs None [mkGLog 0 0 9 "INFO" (Some (GString "hello")) [] 0 0 [] []] ""] ""].

Definition full_channel : Sender LogEntry := mkSender 0 [] false.

Lemma grpc_export_counts_witness :
  let tx' := (LogsServiceServer_call LOGS_EXPORT_PATH draws hello full_channel).1 in
  exists accepted, queued tx' = [] ++ accepted /\
    accepted `sublist_of` convert_request_to_entries draws hello.
Proof.
  destruct (LogsServiceServer_call LOGS_EXPORT_PATH draws hello full_channel) as [tx' r] eqn:H.
  destruct (grpc_export_counts LOGS_EXPORT_PATH draws hello full_channel tx' r H) as (accepted & H1 & H2 & _).
  exists accepted. split; [exact H2|exact H1].
Defined.

(** ** Configuration *)

(** The file is touched, then broken, then changed. *)
Definition quiet : AppSettings :=
  mkSettings (mkLogging "warn" FormatJson None) ReceiverConfig_default ExportSection_default [] ServiceConfig_default
    WebConfig_default MetricsConfig_default DiagnosticsConfig_default TracesConfig_default.

Definition edits : list (Observation (Time := nat)) :=
  [mkObservation (Some 1%nat) (Some AppSettings_default) true; mkObservation (Some 2%nat) None true;
   mkObservation (Some 3%nat) (Some quiet) true].

Lemma watcher_follows_file_witness :
  same_sections (cw_published (foldl watch_turn (ConfigWatcher_new AppSettings_default (Some 0%nat)) edits)) quiet.
Proof.
  destruct (watcher_follows_file AppSettings_default (Some 0%nat) edits) as (_ & H & _).
  - repeat first [apply Forall_cons_2; [reflexivity|]|apply Forall_nil_2].
  - exact H.
Defined.

(** ** Delivery *)

Definition token_env (name : string) : option string :=
  if String.eqb name "OTEL_EXPORTER_OTLP_HEADERS" then Some "Bearer ${TOKEN} ${NONE}"
  else if String.eqb name "TOKEN" then Some "secret" else None.

Lemma metrics_posted_witness :
  exists sending body,
    export_metrics_batch token_env (fun _ => [1]) (build_export_config token_env AppSettings_default)
      [metric_record "a" "x"] (fun _ => Posted) =
    Ok (Some (mkHttpRequest "http://victoria-logs:9428/v1/metrics" "application/x-protobuf"
                (Some "Bearer secret ${NONE}") body), sending).
Proof.
  destruct (build_metrics_request [metric_record "a" "x"]) as [req| | |] eqn:Hreq; [|vm_compute in Hreq; discriminate Hreq..].
  destruct (metrics_posted token_env (fun _ => [1]) AppSettings_default "http://victoria-logs:9428" "/insert/jsonline"
    [Literal "Bearer "; Variable_ref "TOKEN"; Literal " "; Variable_ref "NONE"] (metric_record "a" "x") []
    (fun _ => Posted) req) as (_ & _ & sending & H & _).
  - by vm_compute.
  - apply (bool_decide_unpack _); by vm_compute.
  - reflexivity.
  - reflexivity.
  - reflexivity.
  - repeat first [apply Forall_cons_2; [vm_compute; repeat split|]|apply Forall_nil_2].
  - exact Hreq.
  - eexists sending, _. exact H.
Defined.
