(* ===== verification/ActiveWitnesses.v ===== *)
(** * Witnesses for the active side

    The theorems on the diagnostics poller, the direct client and the client
    bridge, applied to concrete data on which their hypotheses hold. *)

From S2P Require Import Prelude.
From S2P Require Import Text.
From S2P Require Import External.
From S2P Require Import Ams.
From S2P Require Import Models.
From S2P Require Import Symbol.
From S2P Require Import Diagnostics.
From S2P Require Import AmsDispatcher.
From S2P Require Import Browse.
From S2P Require Import MetricMapper.
From S2P Require Import Poll.
From S2P Require Import Notify.
From S2P Require Import Config.
From S2P Require Import DiagPoller.
From S2P Require Import AdsClient.
From S2P Require Import ClientBridge.
From S2P Require Import Witnesses.
From S2P Require Import ClientWitnesses.
From S2P Require Import PipelineWitnesses.

Import SimpleExternal.

(** ** The poller *)

Definition plc_net : AmsNetId := mkNetId [172; 28; 41; 37; 1; 1].
Definition own_net : AmsNetId := mkNetId [10; 10; 10; 10; 1; 1].

Definition one_plc : PollerConfig :=
  mkPollerConfig "broker" 1883 "tc-otel-diag" "AdsOverMqtt" own_net [TargetConfig_with_defaults plc_net].

Lemma one_plc_wf : wf_poller one_plc.
Proof.
  split; [by split; [|repeat constructor]|].
  constructor; [|constructor]. split_and!; [by split; [|repeat constructor]|done|repeat constructor; done].
Qed.

Definition diag_tx : Sender (AmsNetId * DiagEvent) := mkSender 10 [] false.

(** The first poll of the first tick asks for the exceed counter; a second poll
    is sent before its answer comes. *)
Definition first_poll : PlannedPoll := planned own_net plc_net 340 IG_RT_SYSTEM IO_EXCEED_COUNTER 4 1.

Lemma polls_answered_witness :
  let s := run (System_new 0 one_plc diag_tx) [EvTick 1000 0; EvSend 1001 0; EvSend 1002 0] in
  queued (dp_event_tx (on_response 1100 (answer_frame own_net first_poll [7; 0; 0; 0]) (sy_poller s))) =
  [(plc_net, ExceedCounter 7)].
Proof.
  destruct (sy_queues (run (System_new 0 one_plc diag_tx) [EvTick 1000 0]) !! 0%nat) as [[|p rest]|] eqn:Hq;
    [vm_compute in Hq; discriminate Hq| |vm_compute in Hq; discriminate Hq].
  assert (Hp : p = first_poll) by (vm_compute in Hq; injection Hq as <- _; by vm_compute). subst p.
  destruct (polls_answered one_plc diag_tx 0 [EvTick 1000 0] 0 first_poll rest 1001 [EvSend 1002 0] 1100 [7; 0; 0; 0])
    as (_ & _ & o & _ & H).
  - exact one_plc_wf.
  - exact Hq.
  - by vm_compute.
  - apply Forall_cons_2; [unfold unrelated, PENDING_TTL; lia|apply Forall_nil_2].
  - unfold PENDING_TTL. lia.
  - reflexivity.
  - intros s. change (run (System_new 0 one_plc diag_tx) [EvTick 1000 0; EvSend 1001 0; EvSend 1002 0])
      with (run (run (System_new 0 one_plc diag_tx) [EvTick 1000 0]) [EvSend 1001 0; EvSend 1002 0]) in (value of s).
    unfold s. change own_net with (pc_local_net_id one_plc). rewrite H. by vm_compute.
Defined.

(** ** The direct client *)

(** A PLC with one symbol. *)
Definition motor_store (r : AdsReadRequest) : bytes :=
  let bs := mjoin (map AdsSymbolEntry_serialize [motor]) in
  if rr_index_group r =? SYM_UPLOAD then bs ++ [] else AdsSymbolUploadInfo_serialize (mkUploadInfo 1 (len (bs ++ []))).

Definition store_peer (bs : bytes) (p : unit) : unit * bytes :=
  (p, match AmsTcpFrame_parse bs with
      | Ok f =>
        match AdsReadRequest_parse (tcp_payload f) with
        | Ok r => AmsTcpFrame_serialize (build_read_response_frame f 0 (motor_store r))
        | _ => []
        end
      | _ => []
      end).

Lemma symbol_table_read_witness :
  exists c', read_symbol_table store_peer (AdsClient_from_stream tt own_net 32768 plc_net 851) = (Ok [motor], c') /\
    ac_unread c' = [] /\ wf_client c'.
Proof.
  apply (symbol_table_read store_peer motor_store [motor] []).
  - intros f rq p Hf r Hr. unfold store_peer. by rewrite Hf, Hr.
  - split; reflexivity.
  - apply Forall_cons_2; [exact motor_wf|apply Forall_nil_2].
  - simpl. lia.
  - by vm_compute.
  - split; try done; by split; [|repeat constructor].
  - reflexivity.
Defined.

(** A peer that sends a byte. *)
Lemma client_total_witness :
  ends_with (Forall clean_symbol)
    (read_symbol_table (fun (_ : bytes) (p : unit) => (p, [255])) (AdsClient_from_stream tt own_net 32768 plc_net 851)).1.
Proof.
  apply client_total.
  - intros bs p. apply Forall_cons_2; [unfold is_u8; lia|apply Forall_nil_2].
  - apply Forall_nil_2.
Defined.

(** ** The bridge *)

Definition motor_def : CustomMetricDef :=
  mkMetricDef (se_name motor) "motor" "" "" KindGauge false SourcePoll (Some "172.28.41.37.1.1") None None None None.

Definition motor_settings : AppSettings :=
  mkSettings LoggingConfig_default ReceiverConfig_default ExportSection_default [] ServiceConfig_default
    WebConfig_default
    (mkMetrics (mc_cycle_time_enabled MetricsConfig_default) (mc_cycle_time_window MetricsConfig_default) [motor_def]
       true None 1000 5000 None) DiagnosticsConfig_default TracesConfig_default.

(** The PLC is announced over MQTT and serves its table. *)
Definition motor_world : @TargetWorld simple_external CountingBackend :=
  mkWorld (NB := CountingBackend) true true (fun _ => None) false plc_answers
    (fun net port => mkBackend CountingPlc true net port 5000 (1, ∅)) t_now.

Definition motor_meeting : @Meeting simple_external CountingBackend :=
  mkMeeting (NB := CountingBackend) (@map_to_list _ _ _ _) (fun _ => motor_world).

(** The bridge starts with the default settings, and the motor is added later. *)
Lemma bridge_exact_witness :
  exists b ts,
    bridge_run (NB := CountingBackend) [(motor_meeting, AppSettings_default); (motor_meeting, motor_settings)]
      (ClientBridge_new (MP := simple_mpsc) (NB := CountingBackend) (mkSender 10 [] false) ∅) = Ok b /\
    cb_state b !! plc_net = Some ts /\
    ts_pollers ts = [(motor_def, mkMeta 1 "BOOL" 16448 384000)].
Proof.
  destruct (bridge_exact (MP := simple_mpsc) (NB := CountingBackend) [(motor_meeting, AppSettings_default)] (@map_to_list _ _ _ _) (fun _ => motor_world)
    motor_settings (mkSender 10 [] false) ∅) as (b0 & b & _ & H1 & _ & H2).
  - apply Forall_cons_2; [|apply Forall_nil_2]. split; [intros m; apply Permutation_refl|intros k t ds _; vm_compute; exact I].
  - intros m. apply Permutation_refl.
  - intros k t ds _. vm_compute. exact I.
  - specialize (H2 plc_net). exists b.
    assert (Hg : group plc_net (wanted motor_settings) = Some (mkDescr plc_net 851 None, [motor_def])) by by vm_compute.
    rewrite Hg in H2. unfold matches in H2.
    assert (Hs : exists tree, served (NB := CountingBackend) motor_world (mkDescr plc_net 851 None) = Some tree /\
      located pollable tree [motor_def] = [(motor_def, mkMeta 1 "BOOL" 16448 384000)]).
    { eexists. split; by vm_compute. }
    destruct Hs as (tree & Hs & Hl). rewrite Hs in H2. destruct H2 as [_ H2]. eexists. split; [exact H1|].
    split; [exact H2|exact Hl].
Defined.
