(* ===== verification/TransportWitnesses.v ===== *)
(** * Witnesses for the transports, the server and the health metrics

    The theorems on the transports, applied to one request of a PLC, and those on
    the TCP server and its health metrics, applied to a connection that is admitted
    and served. *)

From S2P Require Import Prelude.
From S2P Require Import Text.
From S2P Require Import External.
From S2P Require Import Net.
From S2P Require Import Ams.
From S2P Require Import Router.
From S2P Require Import ConnectionManager.
From S2P Require Import Transport.
From S2P Require Import Server.
From S2P Require Import Health.
From S2P Require Import Endpoints.
From S2P Require Import Witnesses.
From S2P Require Import ActiveWitnesses.

Import SimpleExternal.

Definition request : bytes := AmsHeader_serialize read_request.

Lemma request_wire : wire_frame request.
Proof. split_and!; [unfold is_bytes, is_u8; apply (bool_decide_unpack _); by vm_compute|by vm_compute; lia|by vm_compute]. Qed.

Definition answer : bytes := default [] (head (dispatch_each (fun _ => write_env) None 0 [request] router).1).

Lemma answers_twice : (dispatch_each (fun _ => write_env) None 0 [request; request] router).1 = [answer; answer].
Proof. by vm_compute. Qed.

Lemma transports_agree_witness :
  exists r',
    frame_loop (fun _ => write_env) (fun _ => true) (S (length (stream_of [request; request]))) 0
      (stream_of [request; request]) router [] =
    Ok (mkServed r' [amstcp AMS_TCP_CMD_ADS answer; amstcp AMS_TCP_CMD_ADS answer] EndOfStream) /\
    mqtt_run (fun _ => write_env) "AdsOverMqtt" own_net 0 (map Publish [request; request]) router [] =
    Ok (r', [DoPublish (reply_topic "AdsOverMqtt" request) 0 false answer;
             DoPublish (reply_topic "AdsOverMqtt" request) 0 false answer]).
Proof.
  destruct (transports_agree (fun _ => write_env) "192.168.1.20" "AdsOverMqtt" own_net [request; request] router)
    as (_ & H1 & H2 & _); [by apply Forall_cons_2; [apply request_wire|apply Forall_cons_2; [apply request_wire|]]|].
  rewrite answers_twice in H1, H2. eexists. split; [exact H1|exact H2].
Defined.

(** ** Reconnecting to the local router *)

(** A refused connection, one whose request cannot be written, and a reply of five bytes. *)
Definition bad_attempts : list Attempt :=
  [ConnectFails; Connects (fun _ => write_env) (fun _ => true) false []; Connects (fun _ => write_env) (fun _ => true) true (repeat 0 5)].

Definition local0 : LocalRouterAmsTransport := LocalRouterAmsTransport_new router.

Lemma local_router_recovers_witness :
  exists r',
    local_run (bad_attempts ++ [Connects (fun _ => write_env) (fun _ => true) true
      (amstcp CMD_PORT_CONNECT (net_bytes own_net ++ le_encode 2 16150) ++ stream_of [request; request])]) local0 =
    Ok (Transport.mkLocalRouter 16150 own_net r',
        [[]; []; [handshake_request 16150];
         [handshake_request 16150; amstcp AMS_TCP_CMD_ADS answer; amstcp AMS_TCP_CMD_ADS answer;
          make_amstcp_header AMS_TCP_CMD_PORT_CLOSE 0]], 17).
Proof.
  destruct (local_router_recovers bad_attempts local0 (fun _ => write_env) own_net 16150 [] [request; request])
    as (t' & outs & secs & Hrun & _ & _ & _ & _ & Hsame & Hlast).
  - repeat apply Forall_cons_2; try done; apply Forall_nil_2.
  - split; [reflexivity|]. unfold is_bytes, is_u8. apply (bool_decide_unpack _). by vm_compute.
  - by split.
  - by split.
  - by apply Forall_cons_2; [apply request_wire|apply Forall_cons_2; [apply request_wire|]].
  - destruct (Hsame eq_refl) as [-> ->]. assert (Ho : outs = [[]; []; [handshake_request 16150]]).
    { injection Hrun as <-. reflexivity. }
    rewrite Ho in Hlast. change (lt_router local0) with router in Hlast. cbv zeta in Hlast. rewrite answers_twice in Hlast.
    eexists. exact Hlast.
Defined.

(** ** A served connection *)

Definition server0 : Server := Server_new conn_config 0 router.

(** A client that sends one request arrives, and its thread takes [n] actions. *)
Definition with_client (n : nat) : Server :=
  mkServer (run_thread n arrived) {[0%nat := Connection_new (stream_of [request])]} router.

Definition advance (s : Server) : Server := mkServer (run_thread 1 (sr_limits s)) (sr_conns s) (sr_router s).

Lemma advance_step s ip ph c :
  sys_threads (sr_limits s) !! 0%nat = Some (ip, ph) -> sr_conns s !! 0%nat = Some c -> ph <> Connected ->
  server_step s (advance s).
Proof.
  intros Ht Hc Hp. unfold advance. cbn [run_thread]. rewrite Ht.
  destruct (act (sys_clock (sr_limits s)) ip ph (sys_mgr (sr_limits s))) as [m' ph'] eqn:Ha.
  by eapply server_limit; [..|intros Heq; destruct (Hp Heq)|].
Qed.

Definition admitted : Server := advance (advance (advance (advance (advance (with_client 0))))).

Lemma server_admitted : rtc server_step server0 admitted.
Proof.
  eapply rtc_l.
  { apply (server_accept server0 0 client (stream_of [request])); [done|].
    unfold is_bytes, is_u8. apply (bool_decide_unpack _). by vm_compute. }
  change (rtc server_step (with_client 0) admitted).
  eapply rtc_l; [eapply (advance_step (with_client 0) client Start); done|].
  eapply rtc_l; [eapply (advance_step _ client WantPermit); done|].
  eapply rtc_l; [eapply (advance_step _ client HavePermit); done|].
  eapply rtc_l; [eapply (advance_step _ client Recorded); done|].
  eapply rtc_once. eapply (advance_step _ client Counted); done.
Qed.

Definition one_served : Server :=
  match serve_turn write_env true 0 client (Connection_new (stream_of [request])) admitted with Ok s => s | _ => admitted end.

Lemma server_one_served : rtc server_step server0 one_served.
Proof.
  eapply rtc_r; [exact server_admitted|].
  by apply (server_serve admitted 0 client (Connection_new (stream_of [request])) write_env true one_served).
Qed.

Lemma server_serves_witness :
  count_threads serving (sys_threads (sr_limits one_served)) = 1%nat /\
  exists c answer, sr_conns one_served !! 0%nat = Some c /\ cn_out c = [answer] /\ reply_to request answer.
Proof.
  destruct (server_serves conn_config 0 router one_served conn_fits server_one_served) as (_ & _ & H & _).
  split; [by vm_compute|]. destruct (sr_conns one_served !! 0%nat) as [c|] eqn:Hc; [|vm_compute in Hc; discriminate Hc].
  destruct (H _ _ Hc) as (served & later & Hreq & Hall & _). exists c. vm_compute in Hc. injection Hc as <-.
  eexists. split_and!; [done..|].
  inversion Hall as [|f a fs' out' Hr Hall' Hs Ho]; subst; clear Hall. inversion Hall'; subst.
  assert (Hreq' : requests (stream_of [request]) = [request]) by by vm_compute.
  change (requests (stream_of [request]) = [f] ++ later) in Hreq. rewrite Hreq' in Hreq. injection Hreq as -> _. exact Hr.
Defined.

(** ** Health metrics *)

Lemma health_accounts_witness :
  exists utilization ips,
    map (fun m => Float.f64_to_Z (Models.me_value m))
      (AdsHealthCollector_collect "192.168.1.5" t_now "svc" (sys_mgr (run_thread 5 arrived))) =
    [Some 1; Some 1; Some 0; Some 100; utilization; Some (Z.of_nat (length ips)); Some 0] /\ client ∈ ips.
Proof.
  destruct (health_accounts conn_config "192.168.1.5" t_now "svc" 0 (run_thread 5 arrived)) as (u & ips & H & _ & Hin);
    [by vm_compute|by vm_compute|apply reached|].
  exists u, ips. split; [exact H|]. apply Hin. exists 0%nat, (client, Connected). split; reflexivity.
Defined.

Lemma mqtt_health_counts_witness :
  let l := [RecConnected; RecFrame; RecLatency 50; RecFrame; RecLatency 900; RecReconnect] in
  exists metrics h, MqttHealthCollector_collect "192.168.1.5" t_now (foldl record (MqttHealthCollector_new "svc") l) =
    Ok (metrics ++ [h]) /\
    map (fun m => Float.f64_to_Z (Models.me_value m)) metrics = [Some 1; Some 1; Some 0; Some 2].
Proof.
  destruct (mqtt_health_counts "192.168.1.5" t_now "svc" [RecConnected; RecFrame; RecLatency 50; RecFrame; RecLatency 900; RecReconnect])
    as (metrics & hs & H1 & H2 & h & k & -> & _); [by vm_compute|].
  exists metrics, h. split; [exact H1|exact H2].
Defined.
