(* ===== verification/ServiceWitnesses.v ===== *)
(** * Witnesses for the service and its web interface

    The theorems on the enrichment of logs and on editing the configuration, applied to
    concrete data, and two runs in which a log meets the wrong span. *)

From S2P Require Import Prelude.
From S2P Require Import Text.
From S2P Require Import External.
From S2P Require Import Net.
From S2P Require Import Ams.
From S2P Require Import Models.
From S2P Require Import Protocol.
From S2P Require Import Registry.
From S2P Require Import SpanDispatcher.
From S2P Require Import ConnectionManager.
From S2P Require Import Browse.
From S2P Require Import ScopeResolver.
From S2P Require Import MetricMapper.
From S2P Require Import Poll.
From S2P Require Import Config.
From S2P Require Import LogPath.
From S2P Require Import CycleTime.
From S2P Require Import Service.
From S2P Require Import Web.
From S2P Require Import WebServer.
From S2P Require Import Witnesses.

Import SimpleExternal.

(** ** Logs and spans *)

#[local] Existing Instance unbounded_mpsc | 0.

(** A log of task 1 without a trace context. *)
Definition plain_log : LogEntry :=
  let e := LogEntry_new "id" t_now "192.168.1.5" "" "started" "Main" LInfo in
  mkLogEntry (le_id e) (le_source e) (le_hostname e) (AmsNetId_to_string plc) 350 851 (le_message e) (le_logger e)
    (le_level e) t_now t_now 1 "PlcTask" 7 "App" "Project" 1 (zeros 16) (zeros 8) ∅ ∅.

(** Task 1 begins a span and, a second later, another inside it. *)
Definition two_open : SpanDispatcher :=
  on_begin map_to_list span_env plc 350 1 750000001000000000 span1 1 "child" None trace1 span2 "" (begin1 dispatcher).

Lemma open_spans :
  map (fun kv => (sk_ams_net_id kv.1, ps_task_index kv.2, ps_trace_id kv.2, ps_span_id kv.2, ps_start_time kv.2))
    (map_to_list (sd_pending two_open)) ≡ₚ
  [(plc, 1, trace1, span1, (1696684800, 0)); (plc, 1, trace1, span2, (1696684801, 0))].
Proof. vm_compute. repeat first [reflexivity|apply perm_swap]. Qed.

Lemma open_span k p : sd_pending two_open !! k = Some p ->
  ps_trace_id p = trace1 /\
  (ps_span_id p = span1 /\ ps_start_time p = (1696684800, 0) \/ ps_span_id p = span2 /\ ps_start_time p = (1696684801, 0)).
Proof.
  intros Hk. apply elem_of_map_to_list in Hk.
  apply (list_elem_of_fmap_2 (fun kv => (sk_ams_net_id kv.1, ps_task_index kv.2, ps_trace_id kv.2, ps_span_id kv.2, ps_start_time kv.2))) in Hk.
  change (@fmap list _ _ _) with (@map (SpanKey * PendingSpan) (AmsNetId * Z * bytes * bytes * DateTime)) in Hk.
  rewrite open_spans in Hk. apply elem_of_cons in Hk as [Hk|Hk%list_elem_of_singleton];
    injection Hk as _ _ -> -> ->; split; auto.
Qed.

Lemma inner_open : exists p, open_in plc 1 two_open p /\ ps_start_time p = (1696684801, 0).
Proof.
  assert (Hiff : forall kv, kv ∈ map_to_list (sd_pending two_open) -> sd_pending two_open !! kv.1 = Some kv.2)
    by (intros [k p]; apply elem_of_map_to_list).
  pose proof open_spans as Hp. revert Hiff Hp. generalize (map_to_list (sd_pending two_open)). intros l Hiff Hp.
  assert (Hin : In (plc, 1, trace1, span2, (1696684801, 0))
    (map (fun kv => (sk_ams_net_id kv.1, ps_task_index kv.2, ps_trace_id kv.2, ps_span_id kv.2, ps_start_time kv.2)) l)).
  { apply (Permutation_in _ (Permutation_sym Hp)). right. by left. }
  apply in_map_iff in Hin as (kv & Hv & Hin). apply list_elem_of_In, Hiff in Hin.
  revert Hv. generalize trace1, span2. intros t s [= Hn Ht _ _ Hs]. exists kv.2. split; [|exact Hs]. exists kv.1. split; [exact Hin|]. split; [exact Hn|exact Ht].
Qed.

(** The log gets the context of the inner span. *)
Lemma log_joins_span_witness :
  le_trace_id (enrich map_to_list two_open plain_log) = trace1 /\
  le_span_id (enrich map_to_list two_open plain_log) = span2.
Proof.
  destruct (log_joins_span map_to_list iter_ok two_open plain_log plc) as (_ & _ & H).
  - intros k p Hk. destruct (open_span k p Hk) as [-> [[-> _]|[-> _]]]; by repeat split; try repeat constructor.
  - by split; [|repeat constructor].
  - reflexivity.
  - by vm_compute.
  - destruct inner_open as (q & Hq & Hlate). destruct H as [(p & (k & Hk & _) & Hlast & -> & ->)|[Hno _]].
    + intros Hc. apply Exists_exists in Hc as (b & Hb & Hne). apply Hne.
      assert (Hz : Forall (fun b => b = 0) (le_trace_id plain_log ++ le_span_id plain_log)) by repeat constructor.
      rewrite Forall_forall in Hz. by apply Hz.
    + destruct (open_span k p Hk) as [Htr [[_ Hs]|[Hi _]]]; [|by split]. exfalso.
      specialize (Hlast q Hq). rewrite Hlate, Hs in Hlast. by vm_compute in Hlast.
    + exfalso. by apply (Hno q).
Defined.

(** ** Logs and spans travel apart *)

Definition noop_logs : @LogDispatcher simple_external unbounded_mpsc NoopLookup :=
  mkLogDispatcher (SL := NoopLookup) ([] : @Sender unbounded_mpsc LogRecord) "ipc" "line1" (ScopeResolver_new (SL := NoopLookup) tt).

Definition usecs (a b : DateTime) : option Z := Some ((a.1 - b.1) * 1000000).

Definition run_logs (l : list PipeEvent) : list (bytes * bytes) :=
  match pipe_run (SL := NoopLookup) map_to_list usecs 100 true (Pipeline_new (Some dispatcher) 10 noop_logs) l with
  | Ok p => map (fun e => (le_trace_id e, le_span_id e)) (pl_log p)
  | _ => []
  end.

Definition begin_msg : AmsNetId * Z * TraceWireEvent :=
  (plc, 350, Begin 0 1 0 750000000000000000 (zeros 8) 1 "root" None trace1 span1 "").
Definition end_msg : AmsNetId * Z * TraceWireEvent := (plc, 350, End span1 1 0 750000001000000000 1 "").

(** A log that arrived before a span began is given the span's context when its task is
    slower than the task of the spans. *)
Example early_log_joins_span :
  run_logs [EvRaw plain_log; EvTrace begin_msg; EvSpan span_env; EvForward] = [(trace1, span1)].
Proof. vm_compute. reflexivity. Qed.

(** A log written within a span is left without a context when the end of the span is
    handled first. *)
Example span_log_missed :
  run_logs [EvTrace begin_msg; EvSpan span_env; EvRaw plain_log; EvTrace end_msg; EvSpan span_env; EvForward] =
  [(zeros 16, zeros 8)].
Proof. vm_compute. reflexivity. Qed.

(** ** The configuration *)

#[local] Instance ascii_case : CaseMapping := {| to_uppercase := to_ascii_uppercase; to_lowercase := to_ascii_lowercase |}.

(** A serde that writes of each section a field or two. *)
#[local] Instance some_serde : SettingsSerde := {|
  logging_value := fun c => VString (lc_log_level c);
  export_value := fun c => VString (es_endpoint c);
  outputs_value := fun l => VArray (map (fun c => VString (oc_output_type c)) l);
  service_value := fun c => VString (sc_name c);
  web_value := fun c => json_int (wb_port c);
  metrics_value := fun c => json_int (mc_cycle_time_window c);
  diagnostics_value := fun c => VBool (dg_enabled c);
  traces_value := fun c => VBool (tc_enabled c);
  tls_value := fun c => VBool (tls_enabled c);
  mqtt_tls_value := fun c => VBool (mt_insecure_skip_verify c);
|}.

(** Settings with an MQTT transport and its password. *)
Definition mqtt_settings : AppSettings :=
  set_transport (TransportMqtt (set_secrets (Some "plc") (Some "secret") MqttTransportConfig_default)) AppSettings_default.

Definition web0 : WebState :=
  mkWebState (mkWebStats 0 0 0 0 0) (ConnectionManager_new conn_config) ∅ [] (CycleTimeTracker_new 10) "tc-otel"
    mqtt_settings false None.

Definition read_settings (v : Value) : string + AppSettings :=
  if bool_decide (v = to_masked_json mqtt_settings) then inr (mask_settings mqtt_settings) else inl "unknown".

Lemma mqtt_settings_sound : settings_sound mqtt_settings.
Proof. apply validate_sound. by vm_compute. Qed.

#[local] Instance TracesExportConfig_eq_dec : EqDecision TracesExportConfig.
Proof. solve_decision. Defined.
#[local] Instance TracesConfig_eq_dec : EqDecision TracesConfig.
Proof. solve_decision. Defined.
#[local] Instance AppSettings_eq_dec : EqDecision AppSettings.
Proof. solve_decision. Defined.

(** serde for these settings alone. *)
Definition write_mqtt (s : AppSettings) : string + string :=
  if bool_decide (s = mqtt_settings) then inr "{mqtt}" else inl "unknown".

Definition saved_files : Files := mkFiles ["{}"] (Some 0%nat) None.

Lemma saved_files_ok : files_ok saved_files.
Proof. split; simpl; [intros i [= <-]; lia|done]. Qed.

Lemma shown_config_saved_witness :
  exists f', post_config read_settings write_mqtt "not found" (gc_config (get_config None web0)) io_ok web0 saved_files =
    (PostDone (ConfigSaved [] []), web0, f') /\ config_text f' = Some "{mqtt}".
Proof.
  destruct (shown_config_saved read_settings write_mqtt "not found" (fun _ => Some mqtt_settings) web0 saved_files None "{mqtt}"
    saved_files_ok) as [H _].
  - intros s text. unfold write_mqtt. case_bool_decide as Hs; [|done]. by rewrite Hs.
  - unfold read_settings. by rewrite bool_decide_true by reflexivity.
  - exact mqtt_settings_sound.
  - unfold write_mqtt. by rewrite bool_decide_true by reflexivity.
  - exact H.
Defined.

(** ** Requests *)

Definition web_env : WebEnv := mkWebEnv 5 None.
Definition ask (m : Method) (segments : list string) (body : Z + Value) : WebEvent :=
  WvRequest web_env (mkWebRequest m segments (fun _ => None) body).
Definition edit_to (level : string) : WebEvent := ask POST ["api"; "config"] (inr (VString level)).
Definition next (i : nat) : WebEvent := WvStep i io_ok.

(** A serde for the level of the log alone. *)
Definition with_level (level : string) : AppSettings :=
  let s := AppSettings_default in
  mkSettings (mkLogging level (lc_format (st_logging s)) (lc_output_path (st_logging s))) (st_receiver s) (st_export s) (st_outputs s) (st_service s) (st_web s)
    (st_metrics s) (st_diagnostics s) (st_traces s).
Definition read_level (v : Value) : string + AppSettings :=
  match v with VString level => inr (with_level level) | _ => inl "not a text" end.
Definition write_level (s : AppSettings) : string + string := inr (lc_log_level (st_logging s)).

Definition web1 : WebState :=
  mkWebState (mkWebStats 0 0 0 0 0) (ConnectionManager_new conn_config) ∅ [] (CycleTimeTracker_new 10) "tc-otel"
    AppSettings_default false None.

Abbreviation run_requests :=
  (web_run map_to_list map_to_list map_to_list elements (fun _ => "") read_level write_level "not found" Null).
Abbreviation run_from := (run_requests (WebSystem_new web1 saved_files)).

(** The replies to the edits, the level in the running settings and the file. *)
Definition outcome_of (y : WebSystem) : list (option bool) * string * option string :=
  (map (fun ph => match ph with
                  | PostDone (ConfigSaved _ _) => Some true
                  | PostDone (ConfigRefused _ _ _) => Some false
                  | _ => None
                  end) (wy_posts y),
   lc_log_level (st_logging (ws_current_settings (wy_state y))), config_text (wy_files y)).

(** The configuration is shown and changed, then a route is asked with the wrong method; then it is changed again, but the
    disk is full. *)
Definition some_requests : list WebEvent :=
  [ask GET ["api"; "config"] (inl 415); edit_to "debug"; next 0; next 0; next 0; next 0; next 0; next 0; ask POST ["health"] (inl 415);
   edit_to "warn"; next 1; next 1; WvStep 1 (mkWriteOutcome None (Some (2%nat, "disk full")) None)].

Lemma default_sound : settings_sound AppSettings_default.
Proof. apply validate_sound. by vm_compute. Qed.

Lemma web_requests_safe_witness :
  settings_sound (ws_current_settings (wy_state (run_from some_requests))) /\
  outcome_of (run_from some_requests) = ([Some true; Some false], "debug", Some "debug") /\
  exists text, write_level (ws_current_settings (wy_state (run_from some_requests))) = inr text /\
    config_text (wy_files (run_from some_requests)) = Some text.
Proof.
  destruct (web_requests_safe map_to_list map_to_list map_to_list elements (fun _ => "") read_level write_level "not found" Null
    web1 saved_files some_requests default_sound saved_files_ok) as (H1 & _ & _ & _ & _ & _ & H2 & _).
  split; [exact H1|]. split; [vm_compute; reflexivity|]. destruct H2 as [[_ Hc]|H2].
  - vm_compute. reflexivity.
  - vm_compute. reflexivity.
  - exfalso. vm_compute in Hc. discriminate Hc.
  - exact H2.
Defined.

(** Two edits overlap, and both are answered as saved: the file has the one, the service runs with the other. *)
Example overlapping_edits_diverge :
  outcome_of (run_from [edit_to "debug"; edit_to "warn"; next 0; next 0; next 0; next 0;
                        next 1; next 1; next 1; next 1; next 1; next 1; next 0; next 0]) =
  ([Some true; Some true], "debug", Some "warn").
Proof. vm_compute. reflexivity. Qed.

(** Two edits write the temporary file at the same time: the shorter text is followed by the rest of the longer one, and
    this becomes the configuration. *)
Example overlapping_edits_tear :
  outcome_of (run_from [edit_to "debug"; edit_to "warn"; next 0; next 1; next 0; next 1; next 0; next 1;
                        next 0; next 1; next 0; next 0]) =
  ([Some true; Some false], "debug", Some "warng").
Proof. vm_compute. reflexivity. Qed.
