(* ===== verification/FlowWitnesses.v ===== *)
(** * Witnesses for the pillars and the start of the service

    The theorems of [MetricFlow], [TraceFlow], [LogFlow] and [Start] applied to
    concrete settings, entries and frames. *)

From S2P Require Import Prelude.
From S2P Require Import Text.
From S2P Require Import External.
From S2P Require Import Ams.
From S2P Require Import Models.
From S2P Require Import Protocol.
From S2P Require Import Parser.
From S2P Require Import Wire.
From S2P Require Import Batch.
From S2P Require Import Registry.
From S2P Require Import Diagnostics.
From S2P Require Import Router.
From S2P Require Import SpanDispatcher.
From S2P Require Import ConnectionManager.
From S2P Require Import ScopeResolver.
From S2P Require Import MetricMapper.
From S2P Require Import Poll.
From S2P Require Import Notify.
From S2P Require Import Config.
From S2P Require Import LogPath.
From S2P Require Import Worker.
From S2P Require Import Channels.
From S2P Require Import Delivery.
From S2P Require Import CycleTime.
From S2P Require Import Service.
From S2P Require Import MetricFlow.
From S2P Require Import TraceFlow.
From S2P Require Import LogFlow.
From S2P Require Import Start.
From S2P Require Import Witnesses.

Import SimpleExternal SimpleReceiver.

#[local] Existing Instance NoopLookup.

(** Settings with channels of three places and batches of two records; spans are exported. *)
Definition small_settings : AppSettings :=
  let d := AppSettings_default in
  mkSettings (st_logging d) (st_receiver d)
    (mkExportSection "http://c/v1/logs" 2 1000 30 3 WireJson) [] (mkService "line1" "line1" None 3 30) (st_web d)
    (mkMetrics false 10 [] true (Some "http://c/v1/metrics") 2 1000 None) (st_diagnostics d)
    (mkTraces true 10 2 (mkTracesExport (Some "http://c/v1/traces") 2 1000 None)).

Definition no_env (name : string) : option string := None.
Definition noop : ScopeResolver := ScopeResolver_new tt.

(** ** Metrics *)

Definition gauge (name : string) : MetricEntry := MetricEntry_gauge t_now name 0.

(** Four entries for three places; one is dispatched, its record received. *)
Definition metric_turns : list MetricTurn :=
  [MtOffer (gauge "a"); MtOffer (gauge "b"); MtOffer (gauge "c"); MtOffer (gauge "d"); MtDispatch tt; MtRecord].

Abbreviation small_metrics :=
  (metric_run "10.0.0.1" map_to_list map_to_list no_env "ipc" "line1"
     (MetricPillar_new no_env small_settings true noop) metric_turns).

Lemma metrics_flow_witness :
  map me_name (mp_accepted small_metrics) = ["a"; "b"; "c"] /\
  mp_accepted small_metrics = (mp_dispatched small_metrics).*1 ++ queued (mp_entries small_metrics).
Proof.
  split; [vm_compute; reflexivity|].
  apply (metrics_flow "10.0.0.1" map_to_list map_to_list no_env "ipc" "line1" small_settings true noop metric_turns).
Defined.

Lemma metrics_drain_witness :
  exists turns (rs : list MetricRecord) new, length rs = 2%nat /\
    let p := metric_run "10.0.0.1" map_to_list map_to_list no_env "ipc" "line1" small_metrics turns in
    queued (mp_entries p) = [] /\ bw_flushed (et_worker (mp_task p)) = new /\ Forall (fun f => f.1 = true) new /\
    length (concat new.*2) = 3%nat.
Proof.
  destruct (metrics_drain "10.0.0.1" map_to_list map_to_list no_env "ipc" "line1" small_settings true noop metric_turns tt)
    as (turns & rs & new & _ & He & _ & _ & Hlen & _ & Hf & Hp & Hc).
  - by vm_compute.
  - vm_compute. reflexivity.
  - assert (Hlen2 : length rs = 2%nat) by (rewrite Hlen; vm_compute; reflexivity). exists turns, rs, new.
    cbv zeta. split_and!; [exact Hlen2|exact He|exact Hf|exact Hp|]. rewrite Hc, !length_app, Hlen2. vm_compute. reflexivity.
Defined.

(** ** Spans *)

Definition trace_turns : list TraceTurn :=
  [TtEvent (plc, 350, Begin 0 1 0 750000000000000000 (zeros 8) 1 "root" None trace1 span1 "");
   TtEvent (plc, 350, Begin 0 1 0 750000000000000000 span1 1 "child" None trace1 span2 "");
   TtEvent (plc, 350, End span1 1 0 750000001000000000 1 "");
   TtSpan span_env; TtSpan span_env; TtSpan span_env; TtRecord tt; TtTick].

Abbreviation small_traces :=
  (trace_run map_to_list (TracePillar_new no_env small_settings noop "ipc") trace_turns).

Lemma spans_flow_witness :
  map tr_name (concat (bw_flushed (et_worker (tp_task small_traces))).*2) = ["root"] /\
  open_ids (tp_spans small_traces) = [hex_encode span2] /\
  [hex_encode span1; hex_encode span2] ≡ₚ
    open_ids (tp_spans small_traces) ++
      map tr_span_id (sd_trace_tx (unhindered map_to_list small_settings "ipc" small_traces)).
Proof.
  split; [vm_compute; reflexivity|]. split; [vm_compute; reflexivity|].
  destruct (spans_flow map_to_list no_env iter_ok small_settings noop "ipc" trace_turns) as (_ & Hids & _).
  rewrite <- Hids. vm_compute. reflexivity.
Defined.

(** ** Logs *)

Definition micros (a b : DateTime) : option Z := Some ((a.1 - b.1) * 1000000).

Abbreviation small_logs := (LogPillar_new no_env small_settings true noop "ipc" None).

Definition log_turns : list LogTurn :=
  [LtPipe (EvRaw (LogEntry_new "id" t_now "10.0.0.2" "" "started" "Main" LInfo)); LtPipe EvForward;
   LtPipe (EvDispatch tt); LtRecord; LtTick].

Abbreviation small_run := (log_run map_to_list micros no_env 3 false small_logs log_turns).

Lemma small_run_made :
  match small_run with Ok p => map (fun er => lr_body er.2) (lp_made p) | _ => [] end = [VString "started"].
Proof. vm_compute. reflexivity. Qed.

Lemma log_records_flow_witness :
  exists p, small_run = Ok p /\ map (fun er => lr_body er.2) (lp_made p) = [VString "started"] /\
    et_accepted (lp_task p) `sublist_of` (lp_made p).*2.
Proof.
  destruct (log_records_flow map_to_list micros no_env 3 false small_settings true noop "ipc" None log_turns)
    as (p & Hr & _ & _ & _ & Hs & _).
  exists p. split; [exact Hr|]. split; [|exact Hs]. pose proof small_run_made as Hm. by rewrite Hr in Hm.
Defined.

(** The buffer holds one log. *)
Lemma plc_logs_posted_witness :
  exists p1 p2 turns new, log_run map_to_list micros no_env 3 false p1 turns = Ok p2 /\
    bw_flushed (et_worker (lp_task p2)) = new /\ Forall (fun f => f.1 = true) new /\ length (concat new.*2) = 1%nat.
Proof.
  destruct (plc_logs_posted map_to_list micros no_env 3 false small_settings true noop "ipc" None []
    small_logs write_env tt write_header 1 0 messages [] None router (mkSender 10 [] false))
    as (p1 & p2 & turns & made & new & _ & _ & _ & Hr & _ & _ & _ & _ & _ & Hm & Hf & Hp & Hc).
  - reflexivity.
  - vm_compute. reflexivity.
  - lia.
  - by vm_compute.
  - exact own_log_write.
  - done.
  - exact wf_messages.
  - reflexivity.
  - exact messages_fit.
  - reflexivity.
  - reflexivity.
  - vm_compute. reflexivity.
  - apply Nat.leb_le. vm_compute. reflexivity.
  - exists p1, p2, turns, new. split; [exact Hr|]. split; [exact Hf|]. split; [exact Hp|]. rewrite Hc. apply (f_equal length) in Hm.
    rewrite length_map, length_fmap in Hm. rewrite !length_app, length_fmap, Hm. vm_compute. reflexivity.
Defined.

(** ** The start *)

#[local] Instance ascii_letters : CaseMapping := {| to_uppercase := to_ascii_uppercase; to_lowercase := to_ascii_lowercase |}.

(** The same settings over MQTT, with one PLC to poll. *)
Definition polled_settings : AppSettings :=
  let s := set_transport (TransportMqtt MqttTransportConfig_default) small_settings in
  mkSettings (st_logging s) (st_receiver s) (st_export s) (st_outputs s) (st_service s) (st_web s) (st_metrics s)
    (mkDiagnostics true [DiagnosticsTarget_named "5.1.2.3.1.1"]) (st_traces s).

Definition small_service : TcOtelService := with_config_watch "config.json" (TcOtelService_new polled_settings).

(** A backend with one handle. *)
#[local] Instance no_backend : NotificationBackend := {|
  BackendState := unit;
  backend_subscribe := fun _ _ st => (st, inr 0);
  backend_unsubscribe := fun _ st => (st, inr tt);
|}.

(** [usize::MAX >> 3] on 64 bits. *)
Definition max_permits : Z := 2 ^ 61 - 1.

Lemma sound_settings_start_witness :
  exists r, service_start (Time := nat) no_env "ipc" map_to_list 0 None max_permits small_service = Ok r /\
    et_alive (lp_task (rn_logs r)) = true /\ is_Some (rn_metrics r) /\ is_Some (rn_poller r) /\ is_Some (rn_watcher r).
Proof.
  destruct (sound_settings_start (Time := nat) no_env "ipc" map_to_list 0 None max_permits small_service (mkNetId [0; 0; 0; 0; 1; 1]))
    as (r & Hr & _ & Ha & _ & _ & _ & _ & Hm & _ & Hw & Hp & _).
  - vm_compute. reflexivity.
  - by split; [|repeat constructor].
  - reflexivity.
  - by vm_compute.
  - by vm_compute.
  - exists r. split; [exact Hr|]. split; [exact Ha|]. split_and!.
    + destruct (rn_metrics r); [by eexists|]. by destruct Hm.
    + destruct (rn_poller r); [by eexists|]. exfalso. apply (Hp MqttTransportConfig_default). split_and!; try done.
      repeat constructor. eexists. vm_compute. reflexivity.
    + destruct (rn_watcher r); [by eexists|]. done.
Defined.

(** Settings that the validation accepts and tokio does not. *)
Definition huge_settings : AppSettings :=
  let s := small_settings in
  mkSettings (st_logging s) (st_receiver s) (st_export s) (st_outputs s) (mkService "line1" "line1" None (2 ^ 61) 30) (st_web s)
    (st_metrics s) (st_diagnostics s) (st_traces s).

Example huge_capacity_accepted :
  AppSettings_validate huge_settings = Ok tt /\
  service_start (Time := nat) no_env "ipc" map_to_list 0 None max_permits (TcOtelService_new huge_settings) = Panic.
Proof. split; [vm_compute; reflexivity|]. by apply large_capacity_panics. Qed.
